(* ===== verification/_CoqProject ===== *)
-Q . S2P
Prelude.v
Text.v
Json.v
ValueCodec.v
Lifecycle.v
LifecycleFacts.v
LifecycleProps.v
LifecycleCodec.v
Glob.v
Store.v
StoreProps.v
StoreInterface.v
RedisCas.v
RedisProps.v
Flow.v
FlowProps.v
CommandGate.v
CommandGateProps.v
A2AProtocol.v
Relay.v
RelayRpc.v
RelayFacts.v
RelayProps.v
Guard.v
GuardProps.v
Sentinel.v
HookPolicy.v
Hooks.v
HookServer.v
HookProps.v
HookHistory.v
Hoare.v
Tickets.v
Review.v
Vessel.v
ReviewProps.v
VesselQueue.v
VesselFacts.v
VesselProps.v
VesselPost.v
VesselAct.v
VesselActProps.v
Github.v
Coder.v
CoderProps.v
Registry.v
Identity.v
IdentityProps.v
Nexus.v
NexusStore.v
NexusSync.v
NexusAct.v
NexusReview.v
NexusFacts.v
NexusKeeps.v
NexusProps.v
Schema.v
Database.v
Operations.v
Outbox.v
Idempotency.v
DatabaseFacts.v
OperationsProps.v
IdempotencyProps.v
OutboxProps.v
Pagination.v
PaginationProps.v
Organizations.v
OrgRepo.v
OrgService.v
OrganizationsProps.v
Auth.v
AuthProps.v
Runtime.v
Tenants.v
TenantWorker.v
TenantRedis.v
RuntimeFacts.v
RuntimeProps.v
ManagerWitness.v
