(* ===== verification/Prelude.v ===== *)
(** * OpenFlows, verified

    OpenFlows runs a team of coding agents on tickets.  A controller (NEXUS)
    assigns a ticket to a worker (FORGE) and a reviewer (SENTINEL); the worker
    plans, builds and tests, the reviewer decides at three gates (plan, tested
    work, pull request), a merger (VESSEL) merges what was approved.  All of them
    meet in one shared store, in memory or in Redis; tool calls of the agents are
    checked by a lifecycle hook consumer, and verification commands travel
    through a relay between reviewer and worker.  Hosted, a manager service keeps
    organizations, tenants and their workspaces in PostgreSQL, provisions them
    through Coder and gives the agents short-lived GitHub tokens.  This library
    models these parts as pure functions on explicit state and proves what makes
    them correct.

    ** The parts and where they are

    - The ticket lifecycle, [src/crates/config/src/lifecycle.rs]: [Lifecycle]
      (record, events, [apply]), [LifecycleFacts] (the invariant of reachable
      records and its preservation), [LifecycleProps] (theorems),
      [LifecycleCodec] (the stored form and [decode]).
    - The shared store, [src/crates/pocketflow-core/src/store.rs]: [Glob]
      ([glob_match] against a recursive definition), [Store] (the in-memory
      backend: namespaced keys, leases, transitions, event log), [StoreProps],
      [StoreInterface] (the class [KvStore] with its laws, against which the
      clients below are proved), [RedisCas] and [RedisProps] (the Redis backend:
      optimistic transitions as interleaved steps, the key index).
    - The flow engine, [flow.rs], [node.rs] and [batch.rs] of the same crate:
      [Flow], [FlowProps].
    - The command gate, [command_gate.rs]: [CommandGate], [CommandGateProps].
    - The A2A protocol, [src/crates/a2a-protocol/src]: [A2AProtocol].
    - The A2A relay, [src/crates/agent-nexus/src/a2a]: [Relay] ([routing.rs],
      [verify_handler.rs]), [RelayRpc] (the JSON-RPC methods of
      [http_server.rs]), [RelayFacts] (the invariant), [RelayProps].
    - The hook consumer, [src/crates/agent-nexus/src/hooks]: [Guard] and
      [GuardProps] ([guard.rs] and the lookups of [context.rs]), [Sentinel]
      ([sentinel.rs]), [HookPolicy] (the generic policy of [server.rs], the wire
      types of [types.rs]), [Hooks] ([stop.rs], [kick.rs], [bootstrap.rs], the
      guidance tail of [context.rs]), [HookServer] (the request path of
      [server.rs], [jwt.rs], the hook configuration of
      [src/crates/config/src/env.rs]), [HookProps], [HookHistory].
    - Tickets, workers and keys, [src/crates/config/src/state.rs]: [Tickets].
    - VESSEL, [src/crates/agent-vessel/src]: [Review] (reviews, CI and their
      aggregation, with the review part of [src/crates/github/src/rest.rs]),
      [Vessel] (one pull request: polling, the merge protocol), [VesselQueue]
      (the queue, approval reconciliation, [exec]), [VesselPost] and [VesselAct]
      (workspaces, directives and the [post] phase), with [ReviewProps],
      [VesselFacts], [VesselProps], [VesselActProps].  [Hoare] has the triples
      these proofs use.
    - The GitHub client, [src/crates/github/src/rest.rs]: [Github] (its
      properties in the module [GithubProps]).
    - The Coder client, [src/crates/coder-client/src]: [Coder] (workspaces and
      chats), [CoderProps].
    - The registry and identities, [registry.rs] and [identity.rs] of
      [src/crates/config/src]: [Registry], [Identity], [IdentityProps].
    - NEXUS, [src/crates/agent-nexus/src/lib.rs]: [Nexus] (decisions, [exec]),
      [NexusStore] (escalation, release, orphans), [NexusSync] (issues, pull
      requests, fleet, the queue for VESSEL), [NexusAct] (provisioning, chats,
      crash recovery, [post]), [NexusReview] (review scheduling, a whole [prep]),
      [NexusFacts] (the invariant [nexus_ok]), [NexusKeeps] (every operation keeps
      it), [NexusProps].
    - The manager, [src/crates/openflows-manager/src]: [Schema] (its tables),
      [Database] ([error.rs], statements, transactions, [secrets.rs] as an
      interface) and [DatabaseFacts]; [Operations] ([operations.rs]: durable
      operations under leases), [Outbox] ([outbox.rs], [audit.rs]), [Idempotency]
      ([idempotency.rs], [quotas.rs], [rate_limit.rs]), [Pagination], each with its
      [..Props]; [Organizations], [OrgRepo], [OrgService] and [OrganizationsProps]
      ([organizations/]: policy, repository, service); [Auth] and [AuthProps]
      ([auth/]: sessions, device codes, login); [Runtime] ([runtime/]: permission
      profiles, bootstraps, credentials, the GitHub token broker), [Tenants]
      ([tenants/service.rs], [repositories/tenants.rs], [runtime/workspaces.rs]) and
      [TenantWorker] ([runtime/tenant.rs], [provisioning/tenant_worker.rs]),
      [TenantRedis] ([runtime/redis.rs]: the user and the namespace of a tenant), with
      [RuntimeFacts] (the relation [advances] between databases, kept by every call
      and every turn of the worker) and [RuntimeProps].  [ManagerWitness] has the
      concrete runs.
    - Shared ground: this file, [Text] (Rust's string functions), [Json]
      ([serde_json::Value] and typed encodings as the class [Serde]),
      [ValueCodec] (a concrete JSON printer and parser for the witnesses).

    ** Conventions

    Fallible code returns [result] (below): [Ok], [Err] with the message, and
    [Panic] where Rust would panic (unwrapping, arithmetic overflow in a checked
    place).  Where the code threads state through fallible calls the definitions
    use the state and error monad [St].  A [u64] is an [N] with its wrap-around
    written out ([u64_succ]); an [i32] is a bounded [Z].  Strings are byte strings;
    case folding and white space are the ASCII ones, which is what the
    identifiers, commands and keys of the program use.  A hash map is a [gmap];
    where its iteration order can be observed the order is an argument or the
    theorem holds for every order.  Code that is not part of the repository is a
    parameter: the JSON printer and parser of serde_json, SHA-256, the JWT
    decoder, UUIDs, clocks and the file system.  Hypotheses about them appear in
    the theorems that need them and are met by concrete functions in the
    witnesses.

    VESSEL and NEXUS run beside other processes on one store.  Their state
    ([VState]) is the store, a count of the points where they have waited, and the
    log of what they asked the outside to do; at every wait an arbitrary function
    [others] changes the store.  Theorems about VESSEL assume that the others
    change lifecycle records only by transitions ([rely]); NEXUS's escalation,
    which overwrites a record, breaks that assumption, and
    [escalation_erases_the_record] says what it costs.  Theorems about NEXUS assume of
    the others what they show of NEXUS: escalated tickets are left waiting and slots
    under their names ([spares_escalated]).  Answers of GitHub, Coder and the Manager are functions of the moment they are asked for.

    The manager's computations live in the monad [M] of [Database]: the state is
    the database, the secrets held, the requests for revocation and deletion made
    outside, and how often the clock was read and randomness drawn; a computation
    ends [Done], [Refused] with the error, or [Panicked].  A table is a [gmap] from
    its key, a statement a function on the database with its constraints written
    out ([Violates]), a transaction ([transaction]) one step that is undone unless
    it commits: the services lock the rows they decide on, and what is read outside
    of a transaction is read in a step of its own ([on_pool]).  Before each step an
    arbitrary function [others] changes the database.  The theorems on runtime
    credentials, tenants and the worker hold for all [others] that keep [advances],
    as all clients of these services do; those on operations, organizations and
    sessions are about sequences of calls ([others] does nothing, each call is a
    step).  Time stamps are microseconds read from a clock that is a parameter.
    Answers of GitHub, Coder, Redis and Docker are functions of the moment.

    Loops are structural where the code walks a list.  Fuel is used in three
    places and is shown to suffice: [glob_fuel] exceeds the measure that every step
    of the backtracking matcher decreases (stars still to come, then characters
    still to retry, then characters still to compare), and [glob_match_correct]
    shows the matcher decides within it; [poll_fuel] is the 121 polls that fit a minute at
    half a second, and the gate theorems show it settles within them; [Flow.run]
    takes one turn per step up to its own step limit and one to notice it, and
    always returns.

    ** What is proved

    - Lifecycle: a merge needs the approvals of reviewer and human on the very
      head that is merged; only SENTINEL opens the plan and test gates; a pending
      merge freezes the candidate; every ticket can still be completed from every
      state; the history is a gapless audit trail; phases follow the phase graph;
      no event panics; storing and decoding round-trips, and decoding foreign
      bytes never creates authority.
    - Store: transitions are compare-and-set on the version; Redis clients that
      interleave reads, scripts, lost replies and plain writes observe an atomic
      store (a refinement of the in-memory one); tenants are isolated; leases are
      exclusive; key listings are exact on both backends.
    - Flow and gate: a flow follows its route table within its guards and
      reports its progress; no dangerous command runs without an approval given
      after it was proposed, and workers do not decide for each other.
    - Relay: tasks are deduplicated, given out once, only to the pair that owns
      them, only with requests the command policy allows; results survive a
      restart; the event buffer is bounded.
    - Hooks: only authenticated requests act; a missed deadline refuses; FORGE
      writes only in phase, save for [git push] commands, and SENTINEL only reports; the verdict follows the
      report; denials reach the model; the bootstrap context is bounded and keeps
      the assignment.
    - VESSEL: in a whole pass only a reserved, fully reviewed, green head that is
      approved on GitHub is merged, whatever transitions other agents make meanwhile;
      verdicts derived from GitHub rest on a real approval; the reply decides what
      becomes of the reservation; rework is sent back three times at most, and no head
      twice in a row.
    - Clients: reviews on late pages count; retries are bounded; a workspace counts
      as deleted only when Coder shows it gone, and its deletion is asked for once.
    - NEXUS: in a whole pass, failing anywhere, an escalated ticket stays with the
      human, slots stay under their names, and no lifecycle record is changed other
      than by an escalation; only submitted work reaches VESSEL; a ticket has one
      chat per role and one reviewer at a time; issues become tickets once, and the
      issue of a merged ticket is the one that is closed; every slot of the fleet
      has an identity.
    - The manager's ground: a superseded lease is fenced out everywhere; live
      operations stay within the slot of their organization; an outbox event is
      settled once, with its operation or not at all; a repeated request never runs
      its mutation again; rate limits hold per minute; pages list every row once.
    - Organizations and sign-in: every organization keeps an owner and an admin with
      active memberships; changes need authority at the moment they are made; an invitation admits
      once; a refresh token used twice closes its family; sessions end with their
      family; a device code is redeemed once.
    - Tenants: a bootstrap admits once; rotation retires every earlier credential; a
      GitHub token is handed out only within the authority of the moment its lease
      is recorded, and otherwise given back; a deleted tenant is let in nowhere, its
      upstream workspaces having been deleted; names, repositories, slots and hashes
      of live rows stay unique; in Redis the keys, channels and commands of a tenant's
      user are exactly those of its rules, cleaning and clearing stay in the namespace,
      and undisturbed cleaning resets stale work and nothing else.  [stop_undoes_deletion]
      says what a late stop does to a tenant that is being deleted.

    A theorem that states a property of the program is numbered in its comment;
    [..._witness] applies it to a concrete input.  [HookHistory], [GuardProps],
    [Glob] and [CommandGateProps] also show inputs on which the code departs from
    its comments.

    ** What is not modelled

    Network transports (the HTTP listeners, SSE, Redis connections and their
    time-outs, the kick channel, requests to GitHub and Coder), process execution
    and git worktrees, the wording of prompts and the files they quote, templates,
    users and organizations of the Coder client, and the command line programs.
    Not modelled as they are I/O around what is: the harness, the worker, reviewer
    and documentation nodes (drivers of Coder chats whose decisions are the lifecycle
    transitions), the notifier and the provisioner; of the manager the HTTP routes
    and configuration, GitHub App webhooks and installation set-up, template archives,
    the Docker commands behind [LocalWorkspaceCleanup], the file and AWS secret stores and the administration
    program.  Each relay operation is taken as one atomic step, although the code
    guards its maps with separate locks; a hook is cancelled only between two of its
    writes; the heartbeats of the tenant worker during a turn are among what others
    do; statements of one transaction see no other transaction's commit. *)

From stdpp Require Export prelude strings gmap pretty.
From Stdlib Require Export Ascii.

(** * Results

    [anyhow::Result] with the error reduced to its message, and a third
    outcome for the places where Rust would panic ([unreachable!], an index
    out of range), so that the absence of panics is a theorem and not an
    assumption. *)

Inductive result (A : Type) : Type :=
  | Ok (a : A)
  | Err (msg : string)
  | Panic.
Arguments Ok {A} a.
Arguments Err {A} msg.
Arguments Panic {A}.

#[global] Instance result_ret : MRet result := @Ok.
#[global] Instance result_bind : MBind result := λ A B f m,
  match m with
  | Ok a => f a
  | Err e => Err e
  | Panic => Panic
  end.
#[global] Instance result_fmap : FMap result := λ A B f m,
  match m with
  | Ok a => Ok (f a)
  | Err e => Err e
  | Panic => Panic
  end.

Declare Scope openflows_scope.
Delimit Scope openflows_scope with openflows.
Open Scope openflows_scope.

(** [ensure! b or msg ;; k] is [anyhow::ensure!(b, msg); k]. *)
Notation "'ensure!' b 'or' msg ;; k" := (if b then k else Err msg)
  (at level 100, b at level 99, msg at level 99, k at level 200,
   right associativity, format "'ensure!'  b  'or'  msg  ;; '//' k") : openflows_scope.

(** A chain of updates or builder calls: [x.f(v).g(u)] reads [x ▷ f v ▷ g u]. *)
Notation "x ▷ f" := (f x) (at level 62, f at level 59, left associativity, only parsing)
  : openflows_scope.

(** [Option::is_some_and]. *)
Definition is_some_and {A} (f : A → bool) (o : option A) : bool :=
  match o with
  | Some a => f a
  | None => false
  end.

Definition is_some {A} (o : option A) : bool := is_some_and (λ _, true) o.
Definition is_none {A} (o : option A) : bool := negb (is_some o).

(** [Result::ok]. *)
Definition ok {A} (r : result A) : option A :=
  match r with
  | Ok a => Some a
  | _ => None
  end.

Definition is_ok {A} (r : result A) : bool := is_some (ok r).

(** * Machine integers

    A [u64] is an [N]; arithmetic that can leave the range wraps, as it does
    in a release build (the workspace sets no [overflow-checks]). *)
Abbreviation u64 := N (only parsing).
Definition U64_MOD : N := 18446744073709551616.
Definition u64_succ (n : u64) : u64 := ((n + 1) mod U64_MOD)%N.

Lemma u64_succ_small (n : N) : (n + 1 < U64_MOD)%N → u64_succ n = (n + 1)%N.
Proof. intros ?. unfold u64_succ. by rewrite N.mod_small. Qed.

Lemma u64_succ_pos (n : N) : (n + 1 < U64_MOD)%N → (0 < u64_succ n)%N.
Proof. intros ?. rewrite u64_succ_small by done. lia. Qed.

(** * Lemmas and automation shared by the components *)

Lemma is_some_and_true {A} (f : A → bool) o :
  is_some_and f o = true ↔ ∃ a, o = Some a ∧ f a = true.
Proof. destruct o; naive_solver. Qed.

Lemma is_some_true {A} (o : option A) : is_some o = true ↔ ∃ a, o = Some a.
Proof. destruct o; naive_solver. Qed.

Lemma is_some_false {A} (o : option A) : is_some o = false ↔ o = None.
Proof. destruct o; naive_solver. Qed.

Lemma is_none_true {A} (o : option A) : is_none o = true ↔ o = None.
Proof. destruct o; naive_solver. Qed.

Lemma is_none_false {A} (o : option A) : is_none o = false ↔ ∃ a, o = Some a.
Proof. destruct o; naive_solver. Qed.

Lemma is_ok_true {A} (r : result A) : is_ok r = true ↔ ∃ a, r = Ok a.
Proof. destruct r; naive_solver. Qed.

Lemma result_fmap_Ok {A B} (f : A → B) (r : result A) b :
  f <$> r = Ok b ↔ ∃ a, r = Ok a ∧ b = f a.
Proof. destruct r; naive_solver. Qed.

Lemma result_bind_Ok {A B} (f : A → result B) (r : result A) b :
  r ≫= f = Ok b ↔ ∃ a, r = Ok a ∧ f a = Ok b.
Proof. destruct r; naive_solver. Qed.

Lemma result_fmap_Panic {A B} (f : A → B) (r : result A) :
  f <$> r = Panic ↔ r = Panic.
Proof. destruct r; naive_solver. Qed.

Lemma ensure_Ok {A} (b : bool) msg (k : result A) a :
  (ensure! b or msg ;; k) = Ok a ↔ b = true ∧ k = Ok a.
Proof. destruct b; naive_solver. Qed.

(** [bsimp] turns the boolean tests of the code into the propositions they
    decide, in the hypotheses. *)
Ltac bsimp_step :=
  match goal with
  | H : _ && _ = true |- _ => apply andb_true_iff in H as [? ?]
  | H : _ || _ = false |- _ => apply orb_false_iff in H as [? ?]
  | H : negb _ = true |- _ => apply negb_true_iff in H
  | H : negb _ = false |- _ => apply negb_false_iff in H
  | H : bool_decide _ = true |- _ => apply bool_decide_eq_true in H
  | H : bool_decide _ = false |- _ => apply bool_decide_eq_false in H
  | H : ¬ (_ ≠ _) |- _ => apply dec_stable in H
  | H : is_some_and _ _ = true |- _ => apply is_some_and_true in H as (? & ? & ?)
  | H : is_some _ = true |- _ => apply is_some_true in H as [? ?]
  | H : is_some _ = false |- _ => apply is_some_false in H
  | H : is_none _ = true |- _ => apply is_none_true in H
  | H : is_none _ = false |- _ => apply is_none_false in H as [? ?]
  | H : (_ <? _)%N = true |- _ => apply N.ltb_lt in H
  | H : (_ <? _)%N = false |- _ => apply N.ltb_ge in H
  end.
Ltac bsimp := repeat (bsimp_step; simplify_eq/=).

(** [bcases] also splits the disjunctions. *)
Ltac bcases :=
  repeat first
    [ progress bsimp
    | match goal with
      | H : _ || _ = true |- _ => apply orb_true_iff in H as [H|H]
      | H : _ && _ = false |- _ => apply andb_false_iff in H as [H|H]
      end ].

(** [ensure_inv H] peels the guards off [H : (ensure! .. ;; k) = Ok _]. *)
Ltac ensure_inv H :=
  repeat match type of H with
  | (ensure! _ or _ ;; _) = Ok _ => apply ensure_Ok in H as [? H]
  | _ <$> _ = Ok _ => apply result_fmap_Ok in H as (? & H & ?)
  end.

(** * State and errors

    [St S A] is a fallible computation over a mutable state [S].  The state it
    reached is kept when it fails, as the writes of an [async fn] are when it
    returns [Err]. *)
Definition St (S A : Type) : Type := S → result A * S.

#[global] Instance st_ret {S} : MRet (St S) := λ A a s, (Ok a, s).
#[global] Instance st_bind {S} : MBind (St S) := λ A B f m s,
  match m s with
  | (Ok a, s') => f a s'
  | (Err e, s') => (Err e, s')
  | (Panic, s') => (Panic, s')
  end.

Definition st_gets {S A} (f : S → A) : St S A := λ s, (Ok (f s), s).
Definition st_modify {S} (f : S → S) : St S unit := λ s, (Ok tt, f s).
Definition st_lift {S A} (r : result A) : St S A := λ s, (r, s).

Lemma st_bind_Ok {S A B} (f : A → St S B) (m : St S A) s b s' :
  (m ≫= f) s = (Ok b, s') ↔ ∃ a s1, m s = (Ok a, s1) ∧ f a s1 = (Ok b, s').
Proof. unfold mbind, st_bind. destruct (m s) as [[] ?]; naive_solver. Qed.

(** [st_inv H] runs [H : (m ≫= f) s = (Ok _, _)] step by step. *)
Ltac st_inv H :=
  repeat match type of H with
  | (_ ≫= _) _ = (Ok _, _) =>
      let a := fresh "a" in let s := fresh "s" in let E := fresh "E" in
      apply st_bind_Ok in H as (a & s & E & H)
  end.

(** [elem_cases H] splits the membership [H] in a literal list. *)
Ltac elem_cases H :=
  lazymatch type of H with
  | _ ∈ [] => by apply elem_of_nil in H
  | _ ∈ _ :: _ => apply elem_of_cons in H as [H|H]; [|elem_cases H]
  end.
