(* ===== verification/Text.v ===== *)
(** * Text: the string operations the program uses

    A Rust [String]/[&str] is modelled as [string] (a sequence of 8-bit
    characters) and [str::chars] as the list of its characters, so the text the
    model speaks about is ASCII: case folding and white space are those of
    [char::to_ascii_lowercase] and [char::is_whitespace] on ASCII. *)
From S2P Require Import Prelude.

(** ** Characters *)

Definition is_whitespace (c : ascii) : bool :=
  let n := nat_of_ascii c in (n =? 32) || ((9 <=? n) && (n <=? 13)).

Definition is_ascii_upper (c : ascii) : bool :=
  let n := nat_of_ascii c in (65 <=? n) && (n <=? 90).

Definition is_ascii_digit (c : ascii) : bool :=
  let n := nat_of_ascii c in (48 <=? n) && (n <=? 57).

Definition char_lower (c : ascii) : ascii :=
  if is_ascii_upper c then ascii_of_nat (nat_of_ascii c + 32) else c.

Definition char_eqb (a b : ascii) : bool := Ascii.eqb a b.

(** ** Whole strings *)

(** [str::chars().collect::<Vec<char>>()] and its inverse. *)
Definition chars (s : string) : list ascii := String.list_ascii_of_string s.
Definition of_chars (l : list ascii) : string := String.string_of_list_ascii l.

Fixpoint to_lowercase (s : string) : string :=
  match s with
  | EmptyString => EmptyString
  | String c s' => String (char_lower c) (to_lowercase s')
  end.

(** [str::eq_ignore_ascii_case]. *)
Definition eq_ignore_case (a b : string) : bool :=
  bool_decide (to_lowercase a = to_lowercase b).

Fixpoint trim_start (s : string) : string :=
  match s with
  | EmptyString => EmptyString
  | String c s' => if is_whitespace c then trim_start s' else s
  end.

Fixpoint trim_end (s : string) : string :=
  match s with
  | EmptyString => EmptyString
  | String c s' =>
      match trim_end s' with
      | EmptyString => if is_whitespace c then EmptyString else String c EmptyString
      | r => String c r
      end
  end.

Definition trim (s : string) : string := trim_end (trim_start s).

Definition is_empty (s : string) : bool :=
  match s with EmptyString => true | _ => false end.

(** [s.trim().is_empty()]. *)
Definition is_blank (s : string) : bool := is_empty (trim s).

Fixpoint strip_prefix (p s : string) : option string :=
  match p, s with
  | EmptyString, _ => Some s
  | String a p', String b s' => if char_eqb a b then strip_prefix p' s' else None
  | String _ _, EmptyString => None
  end.

Definition starts_with (p s : string) : bool := is_some (strip_prefix p s).

(** [s.ends_with(p)]. *)
Fixpoint ends_with (p s : string) : bool :=
  bool_decide (s = p) ||
  match s with
  | EmptyString => false
  | String _ s' => ends_with p s'
  end.

(** [s.contains(p)]. *)
Fixpoint contains (p s : string) : bool :=
  starts_with p s ||
  match s with
  | EmptyString => false
  | String _ s' => contains p s'
  end.

(** [s.split(pred)]: never empty. *)
Fixpoint split_on (sep : ascii → bool) (s : string) : list string :=
  match s with
  | EmptyString => [EmptyString]
  | String c s' =>
      if sep c then EmptyString :: split_on sep s'
      else match split_on sep s' with
           | [] => [String c EmptyString]
           | w :: ws => String c w :: ws
           end
  end.

(** [s.rsplit(pred).next()]: the piece after the last separator. *)
Definition rsplit_next (sep : ascii → bool) (s : string) : string :=
  List.last (split_on sep s) EmptyString.

(** [s.split_once(c)]. *)
Fixpoint split_once (c : ascii) (s : string) : option (string * string) :=
  match s with
  | EmptyString => None
  | String a s' =>
      if char_eqb a c then Some (EmptyString, s')
      else match split_once c s' with
           | Some (l, r) => Some (String a l, r)
           | None => None
           end
  end.

(** [str::split_whitespace]. *)
Definition split_whitespace (s : string) : list string :=
  List.filter (λ w, negb (is_empty w)) (split_on is_whitespace s).

(** [slice::join]. *)
Fixpoint join (sep : string) (l : list string) : string :=
  match l with
  | [] => EmptyString
  | [w] => w
  | w :: ws => w +:+ sep +:+ join sep ws
  end.

Fixpoint all_chars (f : ascii → bool) (s : string) : bool :=
  match s with
  | EmptyString => true
  | String c s' => f c && all_chars f s'
  end.

(** [!s.contains(c)]. *)
Definition no_char (c : ascii) (s : string) : bool := all_chars (λ a, negb (char_eqb a c)) s.

(** ** [Debug] formatting of text and numbers *)

Definition hex_digit (n : nat) : ascii :=
  ascii_of_nat (if n <? 10 then 48 + n else 87 + n).

(** [char::escape_debug] on ASCII, as used inside a [str]. *)
Definition escape_debug (c : ascii) : string :=
  let n := nat_of_ascii c in
  if n =? 0 then "\0"
  else if n =? 9 then "\t"
  else if n =? 10 then "\n"
  else if n =? 13 then "\r"
  else if (n =? 34) || (n =? 92) then String "092"%char (String c EmptyString)
  else if (n <? 16) then "\u{" +:+ String (hex_digit n) "}"
  else if (n <? 32) || (n =? 127) then
    "\u{" +:+ String (hex_digit (n / 16)) (String (hex_digit (n mod 16)) "}")
  else String c EmptyString.

Fixpoint escape_str (s : string) : string :=
  match s with
  | EmptyString => EmptyString
  | String c s' => escape_debug c +:+ escape_str s'
  end.

Definition quote_char : string := String "034"%char EmptyString.
Definition debug_str (s : string) : string := quote_char +:+ escape_str s +:+ quote_char.
Definition debug_option (f : string) (o : option string) : string :=
  match o with
  | Some s => f +:+ ": Some(" +:+ debug_str s +:+ ")"
  | None => f +:+ ": None"
  end.

(** * Lemmas *)

Lemma char_eqb_eq a b : char_eqb a b = true ↔ a = b.
Proof. apply Ascii.eqb_eq. Qed.

Lemma char_eqb_refl a : char_eqb a a = true.
Proof. by apply char_eqb_eq. Qed.

Lemma char_eqb_neq a b : char_eqb a b = false ↔ a ≠ b.
Proof. apply Ascii.eqb_neq. Qed.

Lemma string_app_cons c a b : String c a +:+ b = String c (a +:+ b).
Proof. done. Qed.

Lemma string_app_nil_l a : EmptyString +:+ a = a.
Proof. done. Qed.

Lemma string_app_assoc (a b c : string) : (a +:+ b) +:+ c = a +:+ b +:+ c.
Proof. induction a as [|x a IH]; [done|]. by rewrite !string_app_cons, IH. Qed.

Lemma string_app_nil_r (a : string) : a +:+ EmptyString = a.
Proof. induction a as [|x a IH]; [done|]. by rewrite string_app_cons, IH. Qed.

Lemma string_app_inv_l (p a b : string) : p +:+ a = p +:+ b → a = b.
Proof. apply (inj (String.app p)). Qed.

Lemma string_length_app (a b : string) :
  String.length (a +:+ b) = String.length a + String.length b.
Proof. induction a as [|x a IH]; [done|]. rewrite string_app_cons. simpl. by rewrite IH. Qed.

Lemma string_app_inv_r (a b c : string) : a +:+ c = b +:+ c → a = b.
Proof.
  revert b; induction a as [|x a IH]; intros [|y b] H; rewrite ?string_app_cons in H; simpl in H.
  - done.
  - exfalso. apply (f_equal String.length) in H. rewrite string_app_nil_l in H. simpl in H.
    rewrite string_length_app in H. lia.
  - exfalso. apply (f_equal String.length) in H. rewrite string_app_nil_l in H. simpl in H.
    rewrite string_length_app in H. lia.
  - injection H as -> H. f_equal. by apply IH.
Qed.

Lemma strip_prefix_app p s : strip_prefix p (p +:+ s) = Some s.
Proof.
  induction p as [|c p IH]; [done|].
  rewrite string_app_cons. simpl. by rewrite char_eqb_refl.
Qed.

Lemma strip_prefix_Some p s r : strip_prefix p s = Some r → s = p +:+ r.
Proof.
  revert s; induction p as [|c p IH]; intros [|d s]; simpl; try naive_solver.
  destruct (char_eqb c d) eqn:E; [|done].
  apply char_eqb_eq in E as ->. intros H. by rewrite string_app_cons, <- (IH s H).
Qed.

Lemma starts_with_app p s : starts_with p (p +:+ s) = true.
Proof. unfold starts_with. by rewrite strip_prefix_app. Qed.

Lemma starts_with_spec p s : starts_with p s = true ↔ ∃ r, s = p +:+ r.
Proof.
  split.
  - unfold starts_with. destruct (strip_prefix p s) as [r|] eqn:E; [|done].
    intros _. exists r. by apply strip_prefix_Some.
  - intros [r ->]. apply starts_with_app.
Qed.

(** [contains] is the existence of an occurrence. *)
Lemma contains_spec p s : contains p s = true ↔ ∃ l r, s = l +:+ p +:+ r.
Proof.
  induction s as [|c s IH]; simpl; rewrite orb_true_iff, starts_with_spec.
  - split.
    + intros [[r Hr]|]; [|done]. by exists EmptyString, r.
    + intros (l & r & H). left. exists r. by destruct l.
  - rewrite IH. split.
    + intros [[r Hr]|(l & r & ->)]; [by exists EmptyString, r | by exists (String c l), r].
    + intros ([|d l] & r & H); [left; by exists r | right].
      rewrite string_app_cons in H. simplify_eq. by exists l, r.
Qed.

Lemma split_once_app c a b :
  no_char c a = true → split_once c (a +:+ String c b) = Some (a, b).
Proof.
  unfold no_char. induction a as [|x a IH]; simpl.
  - by rewrite char_eqb_refl.
  - rewrite andb_true_iff, negb_true_iff. intros [-> H]. by rewrite IH.
Qed.

(** A separator-free prefix determines where a joined key splits. *)
Lemma app_sep_inj c (a a' b b' : string) :
  no_char c a = true → no_char c a' = true →
  a +:+ String c b = a' +:+ String c b' → a = a' ∧ b = b'.
Proof.
  intros Ha Ha' H. apply (f_equal (split_once c)) in H.
  rewrite !split_once_app in H by done. naive_solver.
Qed.

Lemma to_lowercase_app a b : to_lowercase (a +:+ b) = to_lowercase a +:+ to_lowercase b.
Proof. induction a as [|c a IH]; simpl; [done|]. by rewrite string_app_cons, IH. Qed.

Lemma char_lower_idem c : char_lower (char_lower c) = char_lower c.
Proof. by destruct c as [[] [] [] [] [] [] [] []]. Qed.

Lemma to_lowercase_idem s : to_lowercase (to_lowercase s) = to_lowercase s.
Proof. induction s as [|c s IH]; simpl; [done|]. by rewrite char_lower_idem, IH. Qed.

Lemma all_chars_app f a b : all_chars f (a +:+ b) = all_chars f a && all_chars f b.
Proof.
  induction a as [|c a IH]; simpl; [done|]. by rewrite IH, andb_assoc.
Qed.

Lemma split_on_not_nil sep s : split_on sep s ≠ [].
Proof. induction s as [|c s IH]; simpl; [done|]. by repeat case_match. Qed.

(** Every piece of a split is free of separators. *)
Lemma split_on_pieces sep s w :
  w ∈ split_on sep s → all_chars (λ c, negb (sep c)) w = true.
Proof.
  revert w; induction s as [|c s IH]; intros w; simpl.
  - by intros ->%list_elem_of_singleton.
  - destruct (sep c) eqn:E.
    + intros [->|?]%elem_of_cons; [done | by apply IH].
    + pose proof (split_on_not_nil sep s). destruct (split_on sep s) as [|v vs]; [done|].
      intros [->|?]%elem_of_cons.
      * simpl. rewrite E. apply IH. constructor.
      * apply IH. by constructor.
Qed.

Lemma split_on_clean sep s :
  all_chars (λ c, negb (sep c)) s = true → split_on sep s = [s].
Proof.
  induction s as [|c s IH]; simpl; [done|].
  rewrite andb_true_iff, negb_true_iff. intros [-> H]. by rewrite IH.
Qed.

Lemma split_on_app sep a c b :
  all_chars (λ c, negb (sep c)) a = true → sep c = true →
  split_on sep (a +:+ String c b) = a :: split_on sep b.
Proof.
  intros Ha Hc. induction a as [|x a IH]; simpl in *.
  - by rewrite Hc.
  - apply andb_true_iff in Ha as [Hx%negb_true_iff Ha]. by rewrite Hx, IH.
Qed.

(** Splitting at a character and joining with it gives the text back. *)
Lemma join_split_on c s :
  join (String c EmptyString) (split_on (char_eqb c) s) = s.
Proof.
  induction s as [|x s IH]; simpl; [done|].
  pose proof (split_on_not_nil (char_eqb c) s).
  destruct (char_eqb c x) eqn:E; destruct (split_on (char_eqb c) s) as [|w ws] eqn:S;
    try done.
  - apply char_eqb_eq in E as ->. simpl in *. by rewrite IH.
  - destruct ws as [|w' ws]; simpl in *; rewrite <- IH; done.
Qed.

(** A separator-free suffix determines where a joined key splits. *)
Lemma app_sep_inj_r c a b a' b' :
  no_char c b = true → no_char c b' = true →
  a +:+ String c b = a' +:+ String c b' → a = a' ∧ b = b'.
Proof.
  intros Hb Hb'. revert a'.
  assert (∀ x y z, no_char c z = true → x +:+ String c y ≠ z) as Hn.
  { intros x y z Hz <-. unfold no_char in Hz. rewrite all_chars_app in Hz. simpl in Hz.
    rewrite char_eqb_refl in Hz. by apply andb_true_iff in Hz as [_ ?]. }
  induction a as [|x a IH]; intros [|y a'] E; simpl in E.
  - by injection E as ->.
  - injection E as _ E. by destruct (Hn a' b' b).
  - injection E as _ E. by destruct (Hn a b b').
  - injection E as -> E. by destruct (IH a' E) as [-> ->].
Qed.

Lemma all_chars_ext f g s : (∀ c, f c = g c) → all_chars f s = all_chars g s.
Proof. intros H. induction s as [|c s IH]; simpl; [done|]. by rewrite H, IH. Qed.

(** Splitting at a separator. *)
Lemma split_on_sep sep a c b :
  sep c = true → split_on sep (a +:+ String c b) = split_on sep a ++ split_on sep b.
Proof.
  intros Hc. induction a as [|x a IH]; simpl; [by rewrite Hc|]. rewrite IH.
  destruct (sep x); [done|]. pose proof (split_on_not_nil sep a). by destruct (split_on sep a).
Qed.

Lemma last_app_nonempty {A} (l l' : list A) d : l' ≠ [] → List.last (l ++ l') d = List.last l' d.
Proof.
  intros H. induction l as [|x l IH]; [done|]. simpl. rewrite IH.
  destruct (l ++ l') eqn:E; [|done]. by apply app_eq_nil in E as [_ ?].
Qed.

(** Only what follows the last separator counts. *)
Lemma rsplit_next_sep sep a c b :
  sep c = true → rsplit_next sep (a +:+ String c b) = rsplit_next sep b.
Proof.
  intros Hc. unfold rsplit_next. rewrite split_on_sep by done.
  apply last_app_nonempty, split_on_not_nil.
Qed.

Lemma is_blank_nonempty s : is_blank s = false → s ≠ EmptyString.
Proof. by intros H ->. Qed.

Create HintDb text.
Create Rewrite HintDb text_rw.
#[export] Hint Rewrite string_app_assoc string_app_nil_l string_app_nil_r
  to_lowercase_app all_chars_app : text_rw.
#[export] Hint Resolve strip_prefix_app starts_with_app char_eqb_refl : text.

(** ** More of [str] and slices *)

(** [s.trim_matches(f)]. *)
Fixpoint trim_start_matches (f : ascii → bool) (s : string) : string :=
  match s with
  | EmptyString => EmptyString
  | String c s' => if f c then trim_start_matches f s' else s
  end.

Fixpoint trim_end_matches (f : ascii → bool) (s : string) : string :=
  match s with
  | EmptyString => EmptyString
  | String c s' =>
      match trim_end_matches f s' with
      | EmptyString => if f c then EmptyString else String c EmptyString
      | r => String c r
      end
  end.

Definition trim_matches (f : ascii → bool) (s : string) : string :=
  trim_end_matches f (trim_start_matches f s).

(** [slice.split(f)]: never empty. *)
Fixpoint split_slice {A} (f : A → bool) (l : list A) : list (list A) :=
  match l with
  | [] => [[]]
  | x :: l =>
      if f x then [] :: split_slice f l
      else match split_slice f l with
           | [] => [[x]]
           | s :: ss => (x :: s) :: ss
           end
  end.

Lemma split_slice_none {A} (f : A → bool) l :
  (∀ x, x ∈ l → f x = false) → split_slice f l = [l].
Proof.
  induction l as [|x l IH]; intros H; [done|]. simpl. rewrite (H x) by set_solver.
  rewrite IH by set_solver. done.
Qed.

(** [s.replace(p, w)] for a non-empty pattern: [skip] counts the bytes of a
    match still to be dropped. *)
Fixpoint replace_loop (p w : string) (skip : nat) (s : string) : string :=
  match s with
  | EmptyString => EmptyString
  | String c r =>
      match skip with
      | S k => replace_loop p w k r
      | O => if starts_with p s then w +:+ replace_loop p w (String.length p - 1) r
             else String c (replace_loop p w 0 r)
      end
  end.
Definition replace (p w s : string) : string := replace_loop p w 0 s.

(** [s.trim_start_matches(p)] and [s.trim_end_matches(p)] for a non-empty string
    pattern; every round removes a byte, so the length of [s] bounds them. *)
Fixpoint trim_start_str (fuel : nat) (p s : string) : string :=
  match fuel with
  | O => s
  | S n => match strip_prefix p s with Some r => trim_start_str n p r | None => s end
  end.
Definition trim_start_pat (p s : string) : string := trim_start_str (String.length s) p s.

Fixpoint trim_end_str (fuel : nat) (p s : string) : string :=
  match fuel with
  | O => s
  | S n =>
      if ends_with p s then trim_end_str n p (String.substring 0 (String.length s - String.length p) s)
      else s
  end.
Definition trim_end_pat (p s : string) : string := trim_end_str (String.length s) p s.

(** Strings with different ends of one length differ. *)
Lemma app_suffix_ne (a b s t : string) :
  String.length s = String.length t → s ≠ t → a +:+ s ≠ b +:+ t.
Proof.
  intros Hl Hne E. assert (String.length a = String.length b) as Hab.
  { apply (f_equal String.length) in E. rewrite !string_length_app in E. lia. }
  revert b Hab E. induction a as [|c a IH]; intros [|d b] Hab E; cbn in *; try done.
  apply (IH b); [lia|]. by injection E.
Qed.
