(* ===== verification/Json.v ===== *)
(** * JSON values and typed encodings

    [serde_json::Value] as the program uses it, and the interface
    [Serialize]/[DeserializeOwned] as a type class whose law is the round trip.
    An object is the list of its members in serialization order.  Fractional
    numbers do not occur in the records the program stores and are left out. *)
From S2P Require Import Prelude.

Inductive Value : Type :=
  | VNull
  | VBool (b : bool)
  | VPosInt (n : u64)
  | VNegInt (z : Z)
  | VString (s : string)
  | VArray (l : list Value)
  | VObject (m : list (string * Value)).

Fixpoint assoc {A} (k : string) (m : list (string * A)) : option A :=
  match m with
  | [] => None
  | (k', a) :: m => if decide (k = k') then Some a else assoc k m
  end.

(** [Value::get(&str)]. *)
Definition get (k : string) (v : Value) : option Value :=
  match v with
  | VObject m => assoc k m
  | _ => None
  end.

Definition as_str (v : Value) : option string :=
  match v with VString s => Some s | _ => None end.

Definition as_u64 (v : Value) : option u64 :=
  match v with VPosInt n => Some n | _ => None end.

Definition as_array (v : Value) : option (list Value) :=
  match v with VArray l => Some l | _ => None end.

(** ** Typed encodings *)

Class Serde (A : Type) := {
  to_value : A → Value;
  from_value : Value → result A;
}.

Class SerdeLaws (A : Type) `{Serde A} :=
  from_to_value : ∀ a : A, from_value (to_value a) = Ok a.

#[export] Instance serde_string : Serde string := {
  to_value := VString;
  from_value v := match v with VString s => Ok s | _ => Err "invalid type: expected a string" end
}.
#[export] Instance serde_string_laws : SerdeLaws string.
Proof. done. Qed.

#[export] Instance serde_u64 : Serde u64 := {
  to_value := VPosInt;
  from_value v := match v with VPosInt n => Ok n | _ => Err "invalid type: expected u64" end
}.
#[export] Instance serde_u64_laws : SerdeLaws u64.
Proof. done. Qed.

#[export] Instance serde_bool : Serde bool := {
  to_value := VBool;
  from_value v := match v with VBool b => Ok b | _ => Err "invalid type: expected a boolean" end
}.
#[export] Instance serde_bool_laws : SerdeLaws bool.
Proof. done. Qed.

(** A type whose encodings are never [null], so that [Option] of it can use it. *)
Class NonNull (A : Type) `{Serde A} := to_value_non_null : ∀ a : A, to_value a ≠ VNull.

#[export] Instance non_null_string : NonNull string.
Proof. done. Qed.
#[export] Instance non_null_u64 : NonNull u64.
Proof. done. Qed.

#[export] Instance serde_option {A} `{Serde A} : Serde (option A) := {
  to_value o := match o with Some a => to_value a | None => VNull end;
  from_value v := match v with VNull => Ok None | _ => Some <$> from_value v end
}.
#[export] Instance serde_option_laws {A} `{Serde A, !SerdeLaws A, !NonNull A} :
  SerdeLaws (option A).
Proof.
  intros [a|]; simpl; [|done]. pose proof (to_value_non_null a).
  destruct (to_value a) eqn:E; try done; rewrite <- E; by rewrite from_to_value.
Qed.

(** [Vec<T>]: element by element, stopping at the first error. *)
Fixpoint from_values {A} `{Serde A} (l : list Value) : result (list A) :=
  match l with
  | [] => Ok []
  | v :: l => a ← from_value v; rest ← from_values l; Ok (a :: rest)
  end.

Lemma from_values_to_value {A} `{Serde A, !SerdeLaws A} (l : list A) :
  from_values (to_value <$> l) = Ok l.
Proof.
  induction l as [|a l IH]; [done|].
  rewrite fmap_cons. cbn [from_values]. rewrite from_to_value. cbn. by rewrite IH.
Qed.

#[export] Instance serde_list {A} `{Serde A} : Serde (list A) := {
  to_value l := VArray (to_value <$> l);
  from_value v :=
    match v with VArray l => from_values l | _ => Err "invalid type: expected a sequence" end
}.
#[export] Instance serde_list_laws {A} `{Serde A, !SerdeLaws A} : SerdeLaws (list A).
Proof. intros l. apply from_values_to_value. Qed.
#[export] Instance non_null_list {A} `{Serde A} : NonNull (list A).
Proof. done. Qed.

(** ** Enums and structs *)

(** The name of a unit variant: a string, or an object [{name: null}]. *)
Definition variant_name (v : Value) : result string :=
  match v with
  | VString s => Ok s
  | VObject [(s, VNull)] => Ok s
  | _ => Err "invalid type: expected a variant"
  end.

(** A derived struct is read from an object, or from an array that holds its
    fields in order; [required] fields of an array cannot be left out. *)
Definition struct_form (names : list string) (required : nat) (v : Value) : result Value :=
  match v with
  | VObject m => Ok (VObject m)
  | VArray l =>
      if (required <=? length l) && (length l <=? length names)
      then Ok (VObject (zip names l))
      else Err "invalid length"
  | _ => Err "invalid type: expected a struct"
  end.

(** A field without [#[serde(default)]]. *)
Definition field {A} `{Serde A} (k : string) (v : Value) : result A :=
  match v with
  | VObject m =>
      match assoc k m with
      | Some x => from_value x
      | None => Err ("missing field `" +:+ k +:+ "`")
      end
  | _ => Err "invalid type: expected a struct"
  end.

(** A field with a default: used when it is absent. *)
Definition field_or {A} `{Serde A} (dflt : A) (k : string) (v : Value) : result A :=
  match v with
  | VObject m =>
      match assoc k m with
      | Some x => from_value x
      | None => Ok dflt
      end
  | _ => Err "invalid type: expected a struct"
  end.

Lemma field_hit {A} `{Serde A, !SerdeLaws A} k m (a : A) :
  assoc k m = Some (to_value a) → field k (VObject m) = Ok a.
Proof. simpl. intros ->. apply from_to_value. Qed.

Lemma field_or_hit {A} `{Serde A, !SerdeLaws A} (d : A) k m (a : A) :
  assoc k m = Some (to_value a) → field_or d k (VObject m) = Ok a.
Proof. simpl. intros ->. apply from_to_value. Qed.

#[export] Instance serde_value : Serde Value := {| to_value v := v; from_value v := Ok v |}.
#[export] Instance serde_value_laws : SerdeLaws Value.
Proof. by intros v. Qed.

(** [serde_fields] reads back, field by field, an object built by [to_value]. *)
Ltac serde_fields :=
  repeat first
    [ erewrite field_hit; [cbn [mbind result_bind] | reflexivity]
    | erewrite field_or_hit; [cbn [mbind result_bind] | reflexivity] ].
