(* ===== verification/ValueCodec.v ===== *)
(** * A concrete printer and parser of JSON values

    The theorems about stored text take [serde_json]'s printer and parser as
    parameters.  This file gives an executable pair with the properties they
    assume, for the witnesses: a value is printed as the binary digits of its
    code. *)
From S2P Require Import Prelude Text Json.

Fixpoint to_tree (v : Value) : gen_tree (string + (N + (Z + bool))) :=
  match v with
  | VNull => GenNode 0 []
  | VBool b => GenLeaf (inr (inr (inr b)))
  | VPosInt n => GenLeaf (inr (inl n))
  | VNegInt z => GenLeaf (inr (inr (inl z)))
  | VString s => GenLeaf (inl s)
  | VArray l => GenNode 1 (map to_tree l)
  | VObject m => GenNode 2 (map (λ '(k, v), GenNode 3 [GenLeaf (inl k); to_tree v]) m)
  end.

Fixpoint of_tree (t : gen_tree (string + (N + (Z + bool)))) : Value :=
  match t with
  | GenLeaf (inl s) => VString s
  | GenLeaf (inr (inl n)) => VPosInt n
  | GenLeaf (inr (inr (inl z))) => VNegInt z
  | GenLeaf (inr (inr (inr b))) => VBool b
  | GenNode 1 l => VArray (map of_tree l)
  | GenNode 2 l =>
      VObject (map (λ t, match t with
                         | GenNode _ [GenLeaf (inl k); t] => (k, of_tree t)
                         | _ => (EmptyString, VNull)
                         end) l)
  | GenNode _ _ => VNull
  end.

Lemma of_to_tree : ∀ v, of_tree (to_tree v) = v.
Proof.
  fix IH 1. intros [| | | | |l|m]; [done..| |]; cbn; f_equal.
  - induction l as [|v l IHl]; [done|]. cbn. by rewrite IH, IHl.
  - induction m as [|[k v] m IHm]; [done|]. cbn. by rewrite IH, IHm.
Qed.

#[export] Instance value_eq_dec : EqDecision Value.
Proof.
  intros v v'. destruct (decide (to_tree v = to_tree v')) as [E|E].
  - left. by rewrite <- (of_to_tree v), <- (of_to_tree v'), E.
  - right. congruence.
Defined.

#[export] Instance value_countable : Countable Value := inj_countable' to_tree of_tree of_to_tree.

Fixpoint digits (p : positive) : string :=
  match p with
  | xI p => String "1" (digits p)
  | xO p => String "0" (digits p)
  | xH => EmptyString
  end.

Fixpoint of_digits (s : string) : positive :=
  match s with
  | EmptyString => xH
  | String c s => if char_eqb c "1" then xI (of_digits s) else xO (of_digits s)
  end.

Definition print0 (v : Value) : string := String "b" (digits (encode v)).
Definition parse0 (s : string) : result Value :=
  match s with
  | String "b" s => match decode (of_digits s) with
                    | Some v => Ok v
                    | None => Err "expected value"
                    end
  | _ => Err "EOF while parsing a value"
  end.

Lemma of_digits_digits p : of_digits (digits p) = p.
Proof. induction p as [p IH|p IH|]; cbn; by rewrite ?IH. Qed.

Lemma parse0_print0 v : parse0 (print0 v) = Ok v.
Proof. unfold print0, parse0. by rewrite of_digits_digits, decode_encode. Qed.

Lemma print0_inj v v' : print0 v = print0 v' → v = v'.
Proof.
  intros E. assert (parse0 (print0 v) = parse0 (print0 v')) as P by (by rewrite E).
  rewrite !parse0_print0 in P. by injection P.
Qed.

Lemma print0_no_colon v : no_char ":" (print0 v) = true.
Proof.
  unfold print0. cbn. generalize (encode v). intros p. unfold no_char.
  induction p as [p IH|p IH|]; cbn; done.
Qed.
