(* ===== verification/Lifecycle.v ===== *)
(** * Lifecycle: the authoritative ticket state machine

    Models [src/crates/config/src/lifecycle.rs]: the phases of a ticket, the
    record that carries its approvals and evidence, and [Lifecycle::apply], the
    only function that changes it.  One definition per event handler; [apply]
    composes them with the guards that come before and the bookkeeping that
    comes after. *)
From S2P Require Import Prelude Text.

(** ** Data *)

Inductive Phase : Type :=
  | Planning | PlanReady | PlanRejected | Building | Testing | Submit | Done | Blocked.

#[global] Instance Phase_eq_dec : EqDecision Phase.
Proof. solve_decision. Defined.

(** [Phase::as_str] (and the serde [snake_case] names). *)
Definition phase_as_str (p : Phase) : string :=
  match p with
  | Planning => "planning"
  | PlanReady => "plan_ready"
  | PlanRejected => "plan_rejected"
  | Building => "building"
  | Testing => "testing"
  | Submit => "submit"
  | Done => "done"
  | Blocked => "blocked"
  end.

Definition all_phases : list Phase :=
  [Planning; PlanReady; PlanRejected; Building; Testing; Submit; Done; Blocked].

(** [Phase::parse]: the variant whose serde name is the given text. *)
Definition phase_parse (s : string) : result Phase :=
  match list_find (λ p, phase_as_str p = s) all_phases with
  | Some (_, p) => Ok p
  | None => Err ("unknown variant `" +:+ s +:+ "`")
  end.

(** The derived [Debug] of a phase. *)
Definition phase_debug (p : Phase) : string :=
  match p with
  | Planning => "Planning"
  | PlanReady => "PlanReady"
  | PlanRejected => "PlanRejected"
  | Building => "Building"
  | Testing => "Testing"
  | Submit => "Submit"
  | Done => "Done"
  | Blocked => "Blocked"
  end.

Record Decision : Type := mkDecision {
  d_pr_number : option u64;
  d_round : u64;
  d_actor : string;
  d_approved : bool;
  d_report : string;
  d_revision : u64;
  d_head : option string;
}.

#[global] Instance Decision_eq_dec : EqDecision Decision.
Proof. solve_decision. Defined.

Record TransitionRecord : Type := mkTransition {
  t_version : u64;
  t_actor : string;
  t_from : Phase;
  t_to : Phase;
  t_ts : u64;
  t_detail : string;
}.

#[global] Instance TransitionRecord_eq_dec : EqDecision TransitionRecord.
Proof. solve_decision. Defined.

Record Lifecycle : Type := mkLifecycle {
  history : list TransitionRecord;
  merge_pending : bool;
  pr_delivery : option Decision;
  review_round : u64;
  version : u64;
  phase : Phase;
  role : string;
  ts : u64;
  plan : string;
  revision : u64;
  head : option string;
  plan_decision : option Decision;
  test_decision : option Decision;
  test_human : option Decision;
  pr_decision : option Decision;
  pr_human : option Decision;
  verified_head : option string;
  verification_task : option string;
  pr_number : option u64;
  merge_sha : option string;
  feedback : option string;
}.

#[global] Instance Lifecycle_eq_dec : EqDecision Lifecycle.
Proof. solve_decision. Defined.

(** [Lifecycle::default()]. *)
Definition default : Lifecycle :=
  {| history := []; merge_pending := false; pr_delivery := None;
     review_round := 0; version := 0; phase := Planning; role := ""; ts := 0;
     plan := ""; revision := 0; head := None; plan_decision := None;
     test_decision := None; test_human := None; pr_decision := None;
     pr_human := None; verified_head := None; verification_task := None;
     pr_number := None; merge_sha := None; feedback := None |}.

Inductive Event : Type :=
  | Move (to : Phase) (h : option string)
  | Block (reason : string)
  | Plan (content : string)
  | Decide (round : u64) (ph : Phase) (approved : bool) (report : string)
      (rev : u64) (h : option string)
  | Verified (h task : string)
  | Pr (number : u64)
  | BeginMerge (h : string)
  | CancelMerge
  | ReviewDelivered (round : u64)
  | ReconcileMerged (number : u64) (sha : string)
  | Merged (number : u64) (h sha : string).

(** ** Field updates

    [set_f v s] is the assignment [s.f = v].  Each body is [mkLifecycle]
    applied to the projections of [s] with that of [f] replaced by [v]. *)

Definition eta (s : Lifecycle) : Lifecycle :=
  mkLifecycle (history s) (merge_pending s) (pr_delivery s) (review_round s)
    (version s) (phase s) (role s) (ts s) (plan s) (revision s) (head s)
    (plan_decision s) (test_decision s) (test_human s) (pr_decision s)
    (pr_human s) (verified_head s) (verification_task s) (pr_number s)
    (merge_sha s) (feedback s).

Ltac record_set f v s :=
  let body := eval cbv beta delta [eta] in (eta s) in
  match eval pattern (f s) in body with
  | ?g _ => let t := eval cbv beta in (g v) in exact t
  end.

Definition set_history v s : Lifecycle := ltac:(record_set history v s).
Definition set_merge_pending v s : Lifecycle := ltac:(record_set merge_pending v s).
Definition set_pr_delivery v s : Lifecycle := ltac:(record_set pr_delivery v s).
Definition set_review_round v s : Lifecycle := ltac:(record_set review_round v s).
Definition set_version v s : Lifecycle := ltac:(record_set version v s).
Definition set_phase v s : Lifecycle := ltac:(record_set phase v s).
Definition set_role v s : Lifecycle := ltac:(record_set role v s).
Definition set_ts v s : Lifecycle := ltac:(record_set ts v s).
Definition set_plan v s : Lifecycle := ltac:(record_set plan v s).
Definition set_revision v s : Lifecycle := ltac:(record_set revision v s).
Definition set_head v s : Lifecycle := ltac:(record_set head v s).
Definition set_plan_decision v s : Lifecycle := ltac:(record_set plan_decision v s).
Definition set_test_decision v s : Lifecycle := ltac:(record_set test_decision v s).
Definition set_test_human v s : Lifecycle := ltac:(record_set test_human v s).
Definition set_pr_decision v s : Lifecycle := ltac:(record_set pr_decision v s).
Definition set_pr_human v s : Lifecycle := ltac:(record_set pr_human v s).
Definition set_verified_head v s : Lifecycle := ltac:(record_set verified_head v s).
Definition set_verification_task v s : Lifecycle := ltac:(record_set verification_task v s).
Definition set_pr_number v s : Lifecycle := ltac:(record_set pr_number v s).
Definition set_merge_sha v s : Lifecycle := ltac:(record_set merge_sha v s).
Definition set_feedback v s : Lifecycle := ltac:(record_set feedback v s).

(** [if b { next.f = v }]. *)
Definition when (b : bool) (f : Lifecycle → Lifecycle) (s : Lifecycle) : Lifecycle :=
  if b then f s else s.

(** ** Operations *)

(** [Lifecycle::clear_work]. *)
Definition clear_work (s : Lifecycle) : Lifecycle :=
  s ▷ set_head None
    ▷ set_verified_head None
    ▷ set_verification_task None
    ▷ set_test_decision None
    ▷ set_test_human None
    ▷ set_pr_decision None
    ▷ set_pr_human None.

(** [Lifecycle::merge_ready]. *)
Definition merge_ready (self : Lifecycle) (h : string) : bool :=
  is_none (pr_delivery self)
  && bool_decide (phase self = Submit)
  && bool_decide (head self = Some h)
  && is_some_and d_approved (pr_decision self)
  && is_some_and d_approved (pr_human self).

(** [Lifecycle::deliverable_review]. *)
Definition deliverable_review (self : Lifecycle) : option Decision :=
  match pr_delivery self with
  | Some d =>
      if is_some (d_pr_number d)
         && bool_decide (d_pr_number d = pr_number self)
         && bool_decide (d_round d = review_round self)
         && bool_decide (d_revision d = revision self)
         && (if d_approved d then
               bool_decide (phase self = Submit)
               && bool_decide (d_head d = head self)
               && bool_decide (pr_decision self = Some d)
               && is_some_and d_approved (pr_human self)
             else bool_decide (phase self = Building))
      then Some d else None
  | None => None
  end.

(** [format!("{event:?}")] for the events whose detail is their [Debug] text. *)
Definition event_debug (e : Event) : string :=
  match e with
  | Move p h => "Move { phase: " +:+ phase_debug p +:+ ", " +:+ debug_option "head" h +:+ " }"
  | Block r => "Block { reason: " +:+ debug_str r +:+ " }"
  | Plan c => "Plan { content: " +:+ debug_str c +:+ " }"
  | Decide r p a rep rev h =>
      "Decide { round: " +:+ pretty r +:+ ", phase: " +:+ phase_debug p +:+ ", approved: "
      +:+ (if a then "true" else "false") +:+ ", report: " +:+ debug_str rep
      +:+ ", revision: " +:+ pretty rev +:+ ", " +:+ debug_option "head" h +:+ " }"
  | Verified h t => "Verified { head: " +:+ debug_str h +:+ ", task: " +:+ debug_str t +:+ " }"
  | Pr n => "Pr { number: " +:+ pretty n +:+ " }"
  | BeginMerge h => "BeginMerge { head: " +:+ debug_str h +:+ " }"
  | CancelMerge => "CancelMerge"
  | ReviewDelivered r => "ReviewDelivered { round: " +:+ pretty r +:+ " }"
  | ReconcileMerged n sha =>
      "ReconcileMerged { number: " +:+ pretty n +:+ ", sha: " +:+ debug_str sha +:+ " }"
  | Merged n h sha =>
      "Merged { number: " +:+ pretty n +:+ ", head: " +:+ debug_str h +:+ ", sha: "
      +:+ debug_str sha +:+ " }"
  end.

(** The [detail] text of the history record. *)
Definition event_detail (self : Lifecycle) (e : Event) : string :=
  match e with
  | Decide round _ approved report _ _ =>
      "review round " +:+ pretty round +:+ ": "
      +:+ (if approved then "approve" else "reject") +:+ ": " +:+ report
  | Block reason => "blocked: " +:+ reason
  | Plan _ => "plan revision " +:+ pretty (u64_succ (revision self)) +:+ " uploaded"
  | _ => event_debug e
  end.

(** *** Event handlers *)

Definition apply_plan (self : Lifecycle) (actor content : string) : result Lifecycle :=
  ensure! bool_decide (actor = "forge") && bool_decide (phase self = Planning)
    or "Plans may only be edited by FORGE in planning" ;;
  ensure! negb (is_blank content) or "Plan must not be empty" ;;
  Ok (self ▷ set_plan content
           ▷ set_revision (u64_succ (revision self))
           ▷ set_plan_decision None
           ▷ clear_work).

(** The [permitted] table of [Event::Move]. *)
Definition permitted (self : Lifecycle) (to : Phase) (h : option string) : bool :=
  match phase self, to with
  | _, Blocked => true
  | (Blocked | PlanRejected | PlanReady | Building | Testing | Submit), Planning => true
  | Planning, PlanReady => negb (is_blank (plan self)) && (0 <? revision self)%N
  | PlanReady, Building =>
      is_some_and (λ d, d_approved d && bool_decide (d_revision d = revision self))
        (plan_decision self)
  | Building, Testing => is_some_and (λ s, negb (is_blank s)) h
  | Testing, Submit =>
      is_some_and (λ d, d_approved d
                        && bool_decide (d_revision d = revision self)
                        && bool_decide (d_round d = review_round self)
                        && bool_decide (d_head d = head self)) (test_decision self)
      && bool_decide (verified_head self = head self)
      && is_some (verification_task self)
      && is_some (head self)
  | (Testing | Submit), Building => true
  | _, _ => false
  end.

(** What a handler does to the function around it: go on with a new value of
    [next], or leave [apply] at once ([return Ok(self.clone())]). *)
Inductive flow : Type :=
  | Continue (next : Lifecycle)
  | Return (s : Lifecycle).

Definition apply_move (self : Lifecycle) (actor : string) (to : Phase) (h : option string)
  : result flow :=
  ensure! bool_decide (actor = "forge")
          || (bool_decide (actor = "vessel") && bool_decide (to = Building))
          || (bool_decide (actor = "sentinel") && bool_decide (phase self = Testing)
              && bool_decide (to = Blocked))
    or "Actor cannot move lifecycle" ;;
  if bool_decide (phase self = to) then Ok (Return self)
  else
    ensure! permitted self to h
      or ("Invalid or ungated transition " +:+ phase_as_str (phase self) +:+ " -> "
          +:+ phase_as_str to) ;;
    Ok (Continue
      (self
       ▷ when (bool_decide (to = Planning) || bool_decide (to = Blocked))
           (λ n, n ▷ clear_work
                   ▷ set_plan_decision None
                   ▷ when (bool_decide (to = Planning)) (set_plan ""))
       ▷ when (bool_decide (to = Building)) clear_work
       ▷ when (bool_decide (to = Testing)) (set_head h)
       ▷ when (bool_decide (to = PlanReady) || bool_decide (to = Testing)
               || bool_decide (to = Submit))
           (λ n, set_review_round (u64_succ (review_round n)) n)
       ▷ set_pr_delivery None
       ▷ set_feedback None
       ▷ set_phase to)).

Definition apply_block (self : Lifecycle) (reason : string) : result Lifecycle :=
  ensure! negb (is_blank reason) or "Blocked lifecycle requires a reason" ;;
  Ok (self ▷ clear_work
           ▷ set_plan_decision None
           ▷ set_pr_delivery None
           ▷ set_feedback (Some reason)
           ▷ set_phase Blocked).

(** The slot of the record a verdict is written to; [unreachable!] otherwise. *)
Definition record_decision (ph : Phase) (actor : string) (d : Decision) (next : Lifecycle)
  : result Lifecycle :=
  match ph with
  | PlanReady => Ok (set_plan_decision (Some d) next)
  | Testing =>
      if bool_decide (actor = "sentinel") then Ok (set_test_decision (Some d) next)
      else Ok (set_test_human (Some d) next)
  | Submit =>
      if bool_decide (actor = "sentinel") then Ok (set_pr_decision (Some d) next)
      else Ok (set_pr_human (Some d) next)
  | _ => Panic
  end.

(** What follows the recording of a verdict. *)
Definition settle_decision (ph : Phase) (actor : string) (approved : bool) (report : string)
  (next : Lifecycle) : Lifecycle :=
  next
  ▷ when (approved && bool_decide (ph = PlanReady))
      (λ n, n ▷ set_phase Building ▷ clear_work ▷ set_feedback None)
  ▷ when (approved && bool_decide (ph = Testing) && bool_decide (actor = "sentinel"))
      (λ n, n ▷ set_phase Submit
              ▷ set_review_round (u64_succ (review_round n))
              ▷ set_pr_delivery None
              ▷ set_feedback None)
  ▷ when (negb approved)
      (λ n, n ▷ when (bool_decide (actor = "human")) (set_pr_delivery None)
              ▷ set_feedback (Some report)
              ▷ set_phase (if bool_decide (ph = PlanReady) then PlanRejected else Building)
              ▷ clear_work).

Definition apply_decide (self : Lifecycle) (actor : string) (round : u64) (ph : Phase)
  (approved : bool) (report : string) (rev : u64) (h : option string) : result Lifecycle :=
  ensure! bool_decide (ph = phase self) && bool_decide (round = review_round self)
    or "Review phase or round changed" ;;
  ensure! bool_decide (rev = revision self) or "Stale plan revision" ;;
  ensure! negb (is_blank report) or "Review requires a report" ;;
  ensure! bool_decide (actor = "sentinel") || bool_decide (actor = "human")
    or "Only SENTINEL or a human may review" ;;
  ensure! bool_decide (ph ≠ PlanReady) || bool_decide (actor = "sentinel")
    or "SENTINEL reviews the plan" ;;
  ensure! bool_decide (ph = PlanReady) || bool_decide (ph = Testing) || bool_decide (ph = Submit)
    or "Not a review phase" ;;
  let d := {| d_pr_number := if bool_decide (ph = Submit) then pr_number self else None;
              d_round := round; d_actor := actor; d_approved := approved;
              d_report := report; d_revision := rev; d_head := h |} in
  let commit :=
    settle_decision ph actor approved report <$>
      (self
       ▷ when (bool_decide (ph = Submit) && bool_decide (actor = "sentinel"))
           (set_pr_delivery (Some d))
       ▷ record_decision ph actor d) in
  if bool_decide (ph ≠ PlanReady) then
    ensure! is_some h && bool_decide (h = head self) or "Review must identify the tested head" ;;
    ensure! negb (approved && bool_decide (ph = Testing))
            || (bool_decide (verified_head self = head self) && is_some (verification_task self))
      or "Successful A2A verification required" ;;
    ensure! negb (bool_decide (ph = Submit)) || is_some (pr_number self)
      or "Record the PR before reviewing it" ;;
    commit
  else commit.

Definition apply_verified (self : Lifecycle) (actor h task : string) : result Lifecycle :=
  ensure! bool_decide (actor = "sentinel") && bool_decide (phase self = Testing)
    or "Verification belongs to testing" ;;
  ensure! bool_decide (head self = Some h) && negb (is_empty task)
    or "Verification must identify the tested head and task" ;;
  Ok (self ▷ set_verified_head (Some h) ▷ set_verification_task (Some task)).

Definition apply_pr (self : Lifecycle) (actor : string) (number : u64) : result Lifecycle :=
  ensure! bool_decide (actor = "forge") && bool_decide (phase self = Submit) && (0 <? number)%N
    or "PR publication requires submit" ;;
  Ok (self
      ▷ when (bool_decide (pr_number self ≠ Some number))
          (λ n, n ▷ set_pr_delivery None
                  ▷ set_pr_decision None
                  ▷ set_pr_human None
                  ▷ set_review_round (u64_succ (review_round n)))
      ▷ set_pr_number (Some number)).

Definition apply_review_delivered (self : Lifecycle) (actor : string) (round : u64)
  : result Lifecycle :=
  ensure! bool_decide (actor = "sentinel")
          && is_some_and (λ d, bool_decide (d_round d = round)) (pr_delivery self)
    or "No matching pending delivery" ;;
  Ok (set_pr_delivery None self).

Definition apply_begin_merge (self : Lifecycle) (actor h : string) : result Lifecycle :=
  ensure! bool_decide (actor = "vessel") && merge_ready self h
    or "Candidate is not ready to merge" ;;
  Ok (set_merge_pending true self).

Definition apply_cancel_merge (self : Lifecycle) (actor : string) : result Lifecycle :=
  ensure! bool_decide (actor = "vessel") or "Only VESSEL reconciles a merge" ;;
  Ok (set_merge_pending false self).

Definition apply_reconcile_merged (self : Lifecycle) (actor : string) (number : u64) (sha : string)
  : result Lifecycle :=
  ensure! bool_decide (actor = "vessel") && (0 <? number)%N && negb (is_empty sha)
    or "External merge requires GitHub evidence" ;;
  Ok (self ▷ set_phase Done
           ▷ set_pr_number (Some number)
           ▷ set_merge_sha (Some sha)
           ▷ set_merge_pending false).

Definition apply_merged (self : Lifecycle) (actor : string) (number : u64) (h sha : string)
  : result Lifecycle :=
  ensure! bool_decide (actor = "vessel") && merge_ready self h
          && bool_decide (pr_number self = Some number) && negb (is_empty sha)
    or "Merge requires reviewed current head and merge evidence" ;;
  Ok (self ▷ set_phase Done
           ▷ set_merge_sha (Some sha)
           ▷ set_merge_pending false).

(** The events a pending merge still admits. *)
Definition merge_event (e : Event) : bool :=
  match e with
  | Merged _ _ _ | CancelMerge | ReconcileMerged _ _ => true
  | _ => false
  end.

(** The [match event] of [apply]. *)
Definition dispatch (self : Lifecycle) (actor : string) (e : Event) : result flow :=
  match e with
  | Plan content => Continue <$> apply_plan self actor content
  | Move to h => apply_move self actor to h
  | Block reason => Continue <$> apply_block self reason
  | Decide round ph approved report rev h =>
      Continue <$> apply_decide self actor round ph approved report rev h
  | Verified h task => Continue <$> apply_verified self actor h task
  | Pr number => Continue <$> apply_pr self actor number
  | ReviewDelivered round => Continue <$> apply_review_delivered self actor round
  | BeginMerge h => Continue <$> apply_begin_merge self actor h
  | CancelMerge => Continue <$> apply_cancel_merge self actor
  | ReconcileMerged number sha => Continue <$> apply_reconcile_merged self actor number sha
  | Merged number h sha => Continue <$> apply_merged self actor number h sha
  end.

(** The version bump and history record at the end of [apply]. *)
Definition commit (self next : Lifecycle) (actor detail : string) (now : u64) : Lifecycle :=
  let v := u64_succ (version next) in
  next
  ▷ set_version v
  ▷ set_history (history next ++
      [{| t_version := v; t_actor := actor; t_from := phase self; t_to := phase next;
          t_ts := now; t_detail := detail |}])
  ▷ set_role actor
  ▷ set_ts now.

(** [Lifecycle::apply]. *)
Definition apply (self : Lifecycle) (actor : string) (e : Event) (now : u64) : result Lifecycle :=
  ensure! bool_decide (phase self ≠ Done) or "Done is terminal" ;;
  let actor := to_lowercase actor in
  ensure! negb (merge_pending self) || merge_event e
    or "Merge is in progress; reconcile before changing the candidate" ;;
  match dispatch self actor e with
  | Ok (Continue next) => Ok (commit self next actor (event_detail self e) now)
  | Ok (Return s) => Ok s
  | Err msg => Err msg
  | Panic => Panic
  end.
