(* ===== verification/LifecycleFacts.v ===== *)
(** * Invariants of the ticket lifecycle

    The evidence a lifecycle record carries is proved to be consistent on every
    state reachable by [Lifecycle.apply]: what each phase implies about plans,
    verification, verdicts and merge reservations. *)
From S2P Require Import Prelude Text Lifecycle.

(** ** Reachable states *)

(** Where a record starts: [Lifecycle::default()], or the two upgrades of a
    legacy record that [Lifecycle::decode] produces. *)
Definition initial (s : Lifecycle) : Prop :=
  s = default ∨ ∃ f, s = set_feedback (Some f) default
                   ∨ s = set_feedback (Some f) (set_phase Done default).

Inductive reachable : Lifecycle → Prop :=
  | reachable_init s : initial s → reachable s
  | reachable_step s actor e now s' :
      reachable s → apply s actor e now = Ok s' → reachable s'.

(** A run of [apply] over a list of requests. *)
Definition request : Type := (string * Event * u64)%type.

Fixpoint run (s : Lifecycle) (reqs : list request) : result Lifecycle :=
  match reqs with
  | [] => Ok s
  | (actor, e, now) :: rest => s' ← apply s actor e now; run s' rest
  end.

(** ** Inversion of [apply] *)

Lemma apply_Ok s actor e now s' :
  apply s actor e now = Ok s' →
  phase s ≠ Done ∧ (merge_pending s = false ∨ merge_event e = true) ∧
  ((dispatch s (to_lowercase actor) e = Ok (Return s') ∧ s' = s) ∨
   ∃ next, dispatch s (to_lowercase actor) e = Ok (Continue next) ∧
           s' = commit s next (to_lowercase actor) (event_detail s e) now).
Proof.
  unfold apply. intros H. ensure_inv H.
  destruct (dispatch s (to_lowercase actor) e) as [[next|s0]| |] eqn:D; simplify_eq.
  - split_and!; [by bsimp | bcases; auto | eauto].
  - assert (s' = s) as ->.
    { destruct e; simpl in D; try (apply result_fmap_Ok in D as (? & _ & ?); done).
      unfold apply_move in D. by repeat (case_match; simplify_eq). }
    split_and!; [by bsimp | bcases; auto | auto].
Qed.

Lemma commit_proj s next actor detail now :
  let s' := commit s next actor detail now in
  merge_pending s' = merge_pending next ∧ pr_delivery s' = pr_delivery next ∧
  review_round s' = review_round next ∧ phase s' = phase next ∧ plan s' = plan next ∧
  revision s' = revision next ∧ head s' = head next ∧
  plan_decision s' = plan_decision next ∧ test_decision s' = test_decision next ∧
  test_human s' = test_human next ∧ pr_decision s' = pr_decision next ∧
  pr_human s' = pr_human next ∧ verified_head s' = verified_head next ∧
  verification_task s' = verification_task next ∧ pr_number s' = pr_number next ∧
  merge_sha s' = merge_sha next ∧ feedback s' = feedback next.
Proof. done. Qed.

(** ** The evidence invariant *)

(** The plan under execution was approved, at its current revision, by SENTINEL. *)
Definition plan_approved (s : Lifecycle) : Prop :=
  is_blank (plan s) = false ∧
  ∃ d, plan_decision s = Some d ∧ d_approved d = true ∧
       d_revision d = revision s ∧ d_actor d = "sentinel".

(** The candidate head was verified over A2A and approved in testing. *)
Definition tested (s : Lifecycle) : Prop :=
  ∃ h d, head s = Some h ∧ verified_head s = Some h ∧ is_Some (verification_task s) ∧
         test_decision s = Some d ∧ d_approved d = true ∧ d_revision d = revision s ∧
         d_head d = Some h ∧ d_actor d = "sentinel".

(** A verdict on the pull request is about the current candidate and round. *)
Definition current_verdict (s : Lifecycle) (d : Decision) : Prop :=
  d_head d = head s ∧ d_revision d = revision s ∧ d_round d = review_round s ∧
  d_pr_number d = pr_number s ∧ is_Some (pr_number s).

Record Inv (s : Lifecycle) : Prop := {
  inv_plan : phase s = Building ∨ phase s = Testing ∨ phase s = Submit → plan_approved s;
  inv_review_plan : phase s = PlanReady ∨ phase s = PlanRejected → is_blank (plan s) = false;
  inv_no_plan_verdict : phase s = Planning ∨ phase s = PlanReady → plan_decision s = None;
  inv_tested : phase s = Submit → tested s;
  inv_untested : phase s ≠ Submit → phase s ≠ Done →
    test_decision s = None ∧ pr_decision s = None ∧ pr_human s = None;
  inv_pr_decision d : phase s = Submit → pr_decision s = Some d →
    current_verdict s d ∧ d_actor d = "sentinel" ∧ d_approved d = true;
  inv_pr_human d : phase s = Submit → pr_human s = Some d →
    current_verdict s d ∧ d_actor d = "human" ∧ d_approved d = true;
  inv_delivery d : phase s ≠ Done → pr_delivery s = Some d →
    d_actor d = "sentinel" ∧ d_revision d = revision s ∧ d_round d = review_round s ∧
    d_pr_number d = pr_number s ∧ is_Some (pr_number s) ∧
    (phase s = Submit ∧ d_approved d = true ∧ pr_decision s = Some d ∨
     phase s = Building ∧ d_approved d = false);
  inv_merge : merge_pending s = true → phase s ≠ Done →
    ∃ h, merge_ready s h = true;
}.

#[export] Hint Constructors reachable : lifecycle.

Lemma initial_Inv s : initial s → Inv s.
Proof.
  intros [->|(f & [->| ->])]; constructor; simpl; try naive_solver.
Qed.

Lemma Inv_commit s next actor detail now :
  Inv next → Inv (commit s next actor detail now).
Proof. intros []. by constructor. Qed.

(** [handler_inv H] exposes the guards and the result of an event handler. *)
Ltac handler_inv H := ensure_inv H; simplify_eq; bsimp.

(** [inv_fields HI] puts the clauses of [HI : Inv s] in the context and leaves
    one goal per clause of the invariant to prove. *)
Ltac inv_fields HI := destruct HI; constructor; simpl in *.

(** [inv_solve] closes the clauses that follow from the old ones because the
    fields they speak about did not change, or because the phase excludes them. *)
Ltac inv_step :=
  repeat match goal with
  | H : ?P → _, HP : ?P |- _ => match type of P with Prop => specialize (H HP) end
  | H : _ ≠ _ → _ |- _ => specialize (H ltac:(congruence))
  | H : ∀ d, _ → ?o = Some d → _, HP : ?o = Some ?x |- _ => specialize (H x)
  | H : ?P ∨ _ → _, HP : ?P |- _ => specialize (H (or_introl HP))
  | H : _ ∨ ?P → _, HP : ?P |- _ => specialize (H (or_intror HP))
  | H : _ ∨ ?P ∨ _ → _, HP : ?P |- _ => specialize (H (or_intror (or_introl HP)))
  | H : _ ∧ _ |- _ => destruct H
  | H : _ ∨ _ |- _ => destruct H
  | H : ∃ _, _ |- _ => destruct H
  end; simplify_eq/=; try congruence.
Ltac inv_solve := intros; repeat (progress inv_step); auto.

Lemma apply_plan_Inv s actor content next :
  Inv s → merge_pending s = false → apply_plan s actor content = Ok next → Inv next.
Proof. unfold apply_plan. intros HI Hm H. handler_inv H. inv_fields HI; inv_solve. Qed.

Lemma apply_block_Inv s reason next :
  Inv s → merge_pending s = false → apply_block s reason = Ok next → Inv next.
Proof. unfold apply_block. intros HI Hm H. handler_inv H. inv_fields HI; inv_solve. Qed.

Lemma apply_verified_Inv s actor h task next :
  Inv s → merge_pending s = false → apply_verified s actor h task = Ok next → Inv next.
Proof.
  unfold apply_verified. intros HI Hm H. handler_inv H. inv_fields HI; inv_solve.
Qed.

Lemma apply_cancel_merge_Inv s actor next :
  Inv s → apply_cancel_merge s actor = Ok next → Inv next.
Proof. unfold apply_cancel_merge. intros HI H. handler_inv H. inv_fields HI; auto; done. Qed.

Lemma apply_begin_merge_Inv s actor h next :
  Inv s → apply_begin_merge s actor h = Ok next → Inv next.
Proof.
  unfold apply_begin_merge. intros HI H. handler_inv H. inv_fields HI; auto.
  intros _ _. by exists h.
Qed.

Lemma done_Inv s : phase s = Done → Inv s.
Proof. intros HD. constructor; rewrite HD; intros; naive_solver. Qed.

Lemma apply_reconcile_merged_Inv s actor n sha next :
  apply_reconcile_merged s actor n sha = Ok next → Inv next.
Proof. unfold apply_reconcile_merged. intros H. handler_inv H. by apply done_Inv. Qed.

Lemma apply_merged_Inv s actor n h sha next :
  apply_merged s actor n h sha = Ok next → Inv next.
Proof. unfold apply_merged. intros H. handler_inv H. by apply done_Inv. Qed.

Lemma apply_review_delivered_Inv s actor r next :
  Inv s → merge_pending s = false → apply_review_delivered s actor r = Ok next → Inv next.
Proof.
  unfold apply_review_delivered. intros HI Hm H. handler_inv H. inv_fields HI; inv_solve.
Qed.

Lemma set_pr_number_same s n : pr_number s = Some n → set_pr_number (Some n) s = s.
Proof. destruct s; unfold set_pr_number; simpl. by intros ->. Qed.

Lemma apply_pr_Inv s actor n next :
  Inv s → merge_pending s = false → apply_pr s actor n = Ok next → Inv next.
Proof.
  unfold apply_pr. intros HI Hm H. handler_inv H. unfold when.
  case_bool_decide as Hn.
  - inv_fields HI; inv_solve.
  - by rewrite set_pr_number_same.
Qed.

Lemma apply_move_Inv s actor to h next :
  Inv s → merge_pending s = false → apply_move s actor to h = Ok (Continue next) → Inv next.
Proof.
  unfold apply_move. intros HI Hm H. apply ensure_Ok in H as [_ H].
  case_bool_decide as Hto; [done|]. apply ensure_Ok in H as [Hp H]. simplify_eq.
  unfold permitted, when in *.
  destruct to, (phase s) eqn:Hph; try discriminate Hp; simpl; bsimp; inv_fields HI;
    inv_solve.
Qed.

(** The verdict cases that commit: the review phase, who may decide there, and
    what the code checked before recording the decision. *)
Lemma apply_decide_Ok s actor round ph approved report rev h next :
  apply_decide s actor round ph approved report rev h = Ok next →
  ph = phase s ∧ round = review_round s ∧ rev = revision s ∧ is_blank report = false ∧
  ∃ d, d = mkDecision (if bool_decide (ph = Submit) then pr_number s else None)
             round actor approved report rev h ∧
  ((ph = PlanReady ∧ actor = "sentinel" ∧
    next = settle_decision ph actor approved report (set_plan_decision (Some d) s)) ∨
   (ph = Testing ∧ is_Some h ∧ h = head s ∧ 
    (approved = true → verified_head s = head s ∧ is_Some (verification_task s)) ∧
    ((actor = "sentinel" ∧
      next = settle_decision ph actor approved report (set_test_decision (Some d) s)) ∨
     (actor = "human" ∧
      next = settle_decision ph actor approved report (set_test_human (Some d) s)))) ∨
   (ph = Submit ∧ is_Some h ∧ h = head s ∧ is_Some (pr_number s) ∧
    ((actor = "sentinel" ∧
      next = settle_decision ph actor approved report
               (set_pr_decision (Some d) (set_pr_delivery (Some d) s))) ∨
     (actor = "human" ∧
      next = settle_decision ph actor approved report (set_pr_human (Some d) s))))).
Proof.
  unfold apply_decide. intros H. ensure_inv H. bsimp.
  split_and!; try done. eexists; split; [reflexivity|].
  destruct (phase s) eqn:Hph; try (bcases; congruence); unfold when in *; simpl in *.
  - left. bcases; simplify_eq/=; auto.
  - right; left. ensure_inv H. bsimp.
    assert (approved = true → verified_head s = head s ∧ is_Some (verification_task s))
      by (intros ->; bcases; simplify_eq/=; eauto).
    destruct (decide (actor = "sentinel")) as [->|Hs]; simpl in H.
    + simplify_eq/=. eauto 10.
    + assert (actor = "human") as -> by (bcases; congruence). simplify_eq/=. eauto 10.
  - right; right. ensure_inv H. bcases; simplify_eq/=; eauto 10.
Qed.

Lemma apply_decide_Inv s actor round ph approved report rev h next :
  Inv s → merge_pending s = false →
  apply_decide s actor round ph approved report rev h = Ok next → Inv next.
Proof.
  intros HI Hm H. apply apply_decide_Ok in H as (-> & -> & -> & Hr & d & -> & H).
  unfold settle_decision, when in H.
  destruct H as [(Hp&->&->)|[(Hp&[h' ->]&Hh&Hv&[[-> ->]|[-> ->]])
                            |(Hp&[h' ->]&Hh&[n Hn]&[[-> ->]|[-> ->]])]];
    destruct approved; rewrite Hp; simpl; inv_fields HI; try solve [inv_solve].
  all: unfold plan_approved, tested, current_verdict; simpl; inv_solve;
    try solve [split_and?; eauto 10].
  destruct (Hv eq_refl). eexists _, _. split_and!; eauto; congruence.
Qed.

(** *** Preservation *)

Lemma dispatch_Inv s actor e next :
  Inv s → merge_pending s = false ∨ merge_event e = true →
  dispatch s actor e = Ok (Continue next) → Inv next.
Proof.
  intros HI Hm H. destruct e; simpl in H;
    try (apply result_fmap_Ok in H as (n' & H & [= ->])); destruct Hm as [Hm|Hm];
    try discriminate Hm.
  - exact (apply_move_Inv _ _ _ _ _ HI Hm H).
  - exact (apply_block_Inv _ _ _ HI Hm H).
  - exact (apply_plan_Inv _ _ _ _ HI Hm H).
  - exact (apply_decide_Inv _ _ _ _ _ _ _ _ _ HI Hm H).
  - exact (apply_verified_Inv _ _ _ _ _ HI Hm H).
  - exact (apply_pr_Inv _ _ _ _ HI Hm H).
  - exact (apply_begin_merge_Inv _ _ _ _ HI H).
  - exact (apply_cancel_merge_Inv _ _ _ HI H).
  - exact (apply_cancel_merge_Inv _ _ _ HI H).
  - exact (apply_review_delivered_Inv _ _ _ _ HI Hm H).
  - exact (apply_reconcile_merged_Inv _ _ _ _ _ H).
  - exact (apply_reconcile_merged_Inv _ _ _ _ _ H).
  - exact (apply_merged_Inv _ _ _ _ _ _ H).
  - exact (apply_merged_Inv _ _ _ _ _ _ H).
Qed.

Lemma apply_Inv s actor e now s' : Inv s → apply s actor e now = Ok s' → Inv s'.
Proof.
  intros HI H. apply apply_Ok in H as (_ & Hm & [[_ ->]|(next & H & ->)]); [done|].
  eauto using Inv_commit, dispatch_Inv.
Qed.

Lemma reachable_Inv s : reachable s → Inv s.
Proof. induction 1; eauto using initial_Inv, apply_Inv. Qed.

Lemma run_reachable s reqs s' : reachable s → run s reqs = Ok s' → reachable s'.
Proof.
  revert s; induction reqs as [|[[a e] t] reqs IH]; simpl; intros s HR H; [by simplify_eq|].
  apply result_bind_Ok in H as (s1 & H1 & H2). eauto using reachable_step.
Qed.

#[export] Hint Resolve reachable_Inv initial_Inv : lifecycle.

(** ** Bookkeeping *)

(** No handler touches the version or the history; only the commit does. *)
Lemma dispatch_bookkeeping s actor e next :
  dispatch s actor e = Ok (Continue next) →
  version next = version s ∧ history next = history s.
Proof.
  intros H. destruct e; simpl in H;
    try (apply result_fmap_Ok in H as (? & H & [= ->]));
    unfold apply_plan, apply_block, apply_verified, apply_pr, apply_begin_merge,
      apply_cancel_merge, apply_review_delivered, apply_reconcile_merged, apply_merged in H;
    try (handler_inv H; unfold when; try case_bool_decide; done).
  - unfold apply_move in H. ensure_inv H. case_bool_decide; [done|]. ensure_inv H. simplify_eq.
    unfold when. by destruct to.
  - apply apply_decide_Ok in H as (-> & _ & _ & _ & d & _ & H).
    destruct H as [(Hp&->&->)|[(Hp&_&_&_&[[-> ->]|[-> ->]])|(Hp&_&_&_&[[-> ->]|[-> ->]])]];
      destruct approved; unfold settle_decision, when; rewrite Hp; simpl; auto.
Qed.
