(* ===== verification/LifecycleProps.v ===== *)
(** * What the ticket lifecycle guarantees

    The theorems about [src/crates/config/src/lifecycle.rs] that the rest of
    the system relies on, proved from the invariants of [LifecycleFacts]. *)
From S2P Require Import Prelude Text Lifecycle LifecycleFacts.

(** ** Runs used by the witnesses *)

Definition reviews_to_submit : list request :=
  [("forge", Plan "# Plan", 1%N);
   ("FORGE", Move PlanReady None, 2%N);
   ("sentinel", Decide 1 PlanReady true "ok" 1 None, 3%N);
   ("forge", Move Testing (Some "abc"), 4%N);
   ("sentinel", Verified "abc" "task-1", 5%N);
   ("sentinel", Decide 2 Testing true "ok" 1 (Some "abc"), 6%N);
   ("forge", Pr 42, 7%N)].

Definition reviews_to_merge : list request :=
  [("sentinel", Decide 4 Submit true "ok" 1 (Some "abc"), 8%N);
   ("human", Decide 4 Submit true "ok" 1 (Some "abc"), 9%N);
   ("sentinel", ReviewDelivered 4, 10%N)].

Definition submitted : Lifecycle :=
  match run default reviews_to_submit with Ok s => s | _ => default end.

Definition mergeable : Lifecycle :=
  match run submitted reviews_to_merge with Ok s => s | _ => default end.

Lemma submitted_reachable : reachable submitted.
Proof.
  apply (run_reachable default reviews_to_submit); [|vm_compute; reflexivity].
  apply reachable_init. by left.
Defined.

Lemma mergeable_reachable : reachable mergeable.
Proof.
  apply (run_reachable submitted reviews_to_merge); [|vm_compute; reflexivity].
  exact submitted_reachable.
Defined.

(** ** Merging *)

Lemma merge_ready_true s h :
  merge_ready s h = true ↔
  pr_delivery s = None ∧ phase s = Submit ∧ head s = Some h ∧
  (∃ d, pr_decision s = Some d ∧ d_approved d = true) ∧
  (∃ d, pr_human s = Some d ∧ d_approved d = true).
Proof.
  unfold merge_ready. rewrite !andb_true_iff, is_none_true, !bool_decide_eq_true,
    !is_some_and_true. tauto.
Qed.

(** The full evidence behind a candidate: approved plan, verified and approved
    head, and both verdicts on the recorded pull request, all for the same
    revision, head and review round. *)
Definition fully_reviewed (s : Lifecycle) (n : u64) (h : string) : Prop :=
  plan_approved s ∧ tested s ∧ head s = Some h ∧ pr_number s = Some n ∧
  ∃ dp dh, pr_decision s = Some dp ∧ pr_human s = Some dh ∧
    d_actor dp = "sentinel" ∧ d_actor dh = "human" ∧
    Forall (λ d, d_approved d = true ∧ d_head d = Some h ∧ d_revision d = revision s ∧
                 d_round d = review_round s ∧ d_pr_number d = Some n) [dp; dh].

Lemma merge_ready_reviewed s h n :
  Inv s → merge_ready s h = true → pr_number s = Some n → fully_reviewed s n h.
Proof.
  intros HI (_ & Hp & Hh & (dp & Hdp & Ap) & (dh & Hdh & Ah))%merge_ready_true Hn.
  destruct (inv_pr_decision _ HI dp Hp Hdp) as ((E1 & E2 & E3 & E4 & _) & ? & _).
  destruct (inv_pr_human _ HI dh Hp Hdh) as ((F1 & F2 & F3 & F4 & _) & ? & _).
  split_and!; [auto using inv_plan|auto using inv_tested|done|done|].
  exists dp, dh. repeat constructor; congruence.
Qed.

(** C1. A reviewed merge is only ever recorded by VESSEL, for the pull request
    on record, and only when the very head that was merged carries an approved
    plan, a successful A2A verification with SENTINEL's testing approval, and
    SENTINEL's and a human's approval of that pull request in the current
    review round. *)
Theorem merged_requires_full_evidence s actor n h sha now s' :
  reachable s → apply s actor (Merged n h sha) now = Ok s' →
  to_lowercase actor = "vessel" ∧ fully_reviewed s n h ∧
  phase s' = Done ∧ merge_sha s' = Some sha.
Proof.
  intros HR H. apply apply_Ok in H as (_ & _ & [[H _]|(next & H & ->)]); simpl in H.
  - by apply result_fmap_Ok in H as (? & _ & ?).
  - apply result_fmap_Ok in H as (? & H & [= ->]). unfold apply_merged in H. handler_inv H.
    split_and!; eauto using merge_ready_reviewed, reachable_Inv.
Qed.

Lemma merged_requires_full_evidence_witness :
  ∃ s', apply mergeable "Vessel" (Merged 42 "abc" "sha1") 11 = Ok s' ∧
        fully_reviewed mergeable 42 "abc" ∧ phase s' = Done.
Proof.
  assert (∃ s', apply mergeable "Vessel" (Merged 42 "abc" "sha1") 11 = Ok s') as [s' H]
    by (eexists; vm_compute; reflexivity).
  exists s'. split; [exact H|].
  destruct (merged_requires_full_evidence mergeable "Vessel" 42 "abc" "sha1" 11 s'
              mergeable_reachable H) as (_ & F & P & _). split; [exact F | exact P].
Defined.

(** The part of the record that identifies a reviewed candidate. *)
Definition candidate (s : Lifecycle) :=
  (plan s, revision s, head s, review_round s,
   (plan_decision s, test_decision s, pr_decision s, pr_human s)).

(** C12. While a merge is reserved the candidate is frozen: the only requests
    that succeed are VESSEL's outcome reports, no request changes what was
    reviewed, and the reservation is lifted only by such a report. *)
Theorem pending_merge_freezes_candidate s actor e now s' :
  reachable s → merge_pending s = true → apply s actor e now = Ok s' →
  merge_event e = true ∧ to_lowercase actor = "vessel" ∧
  candidate s' = candidate s ∧ merge_pending s' = false ∧
  (∃ h, merge_ready s h = true).
Proof.
  intros HR Hm H. pose proof (reachable_Inv _ HR) as HI.
  apply apply_Ok in H as (HD & [Hm0|He] & H); [congruence|].
  pose proof (inv_merge _ HI Hm HD).
  destruct e; try discriminate He; destruct H as [[H ->]|(next & H & ->)];
    apply result_fmap_Ok in H as (? & H & [= ->]);
    unfold apply_cancel_merge, apply_reconcile_merged, apply_merged in H; handler_inv H; done.
Qed.

Lemma pending_merge_freezes_candidate_witness :
  ∃ s s', reachable s ∧ merge_pending s = true ∧
    apply s "vessel" CancelMerge 12 = Ok s' ∧ candidate s' = candidate s.
Proof.
  assert (∃ s, apply mergeable "vessel" (BeginMerge "abc") 11 = Ok s ∧ merge_pending s = true)
    as (s & Hs & Hm) by (eexists; split; vm_compute; reflexivity).
  assert (∃ s', apply s "vessel" CancelMerge 12 = Ok s') as [s' Hs'].
  { vm_compute in Hs. injection Hs as <-. eexists; vm_compute; reflexivity. }
  assert (reachable s) as HR by (eapply reachable_step; [exact mergeable_reachable | exact Hs]).
  exists s, s'. split_and!; [exact HR | exact Hm | exact Hs' |].
  destruct (pending_merge_freezes_candidate s "vessel" CancelMerge 12 s' HR Hm Hs')
    as (_ & _ & C & _). exact C.
Defined.

(** ** Phases *)

(** The phase graph. *)
Definition phase_edge (p q : Phase) : bool :=
  match p, q with
  | Done, _ => false
  | _, Done | _, Blocked => true
  | Planning, PlanReady => true
  | PlanReady, (Planning | PlanRejected | Building) => true
  | PlanRejected, Planning => true
  | Building, (Planning | Testing) => true
  | Testing, (Planning | Building | Submit) => true
  | Submit, (Planning | Building) => true
  | Blocked, Planning => true
  | _, _ => false
  end.

Lemma dispatch_edge s actor e next :
  phase s ≠ Done → dispatch s actor e = Ok (Continue next) →
  phase next = phase s ∨ phase_edge (phase s) (phase next) = true.
Proof.
  intros HD H. destruct e; simpl in H;
    try (apply result_fmap_Ok in H as (? & H & [= ->]));
    unfold apply_plan, apply_block, apply_verified, apply_pr, apply_begin_merge,
      apply_cancel_merge, apply_review_delivered, apply_reconcile_merged, apply_merged in H;
    try (handler_inv H; unfold when; try case_bool_decide; simpl; by destruct (phase s); auto).
  - unfold apply_move in H. ensure_inv H. case_bool_decide; [done|]. ensure_inv H. simplify_eq.
    right. unfold permitted in *. simpl. by destruct (phase s), to.
  - apply apply_decide_Ok in H as (-> & _ & _ & _ & d & _ & H).
    destruct H as [(Hp&_&->)|[(Hp&_&_&_&[[-> ->]|[-> ->]])|(Hp&_&_&_&[[-> ->]|[-> ->]])]];
      destruct approved; unfold settle_decision, when; rewrite Hp; simpl; rewrite ?Hp; auto.
Qed.

(** Every successful request leaves the phase unchanged or moves it along
    an edge of the phase graph; in particular nothing leaves [Done], [Blocked]
    and [PlanRejected] only lead back to planning (or to an externally
    reconciled merge), and [Submit] is entered from [Testing] alone. *)
Theorem apply_follows_phase_graph s actor e now s' :
  apply s actor e now = Ok s' →
  phase s ≠ Done ∧ (phase s' = phase s ∨ phase_edge (phase s) (phase s') = true).
Proof.
  intros H. apply apply_Ok in H as (HD & _ & [[_ ->]|(next & H & ->)]); [auto|].
  split; [done|]. exact (dispatch_edge _ _ _ _ HD H).
Qed.

Lemma apply_follows_phase_graph_witness :
  ∃ s', apply default "forge" (Plan "p") 1 = Ok s' ∧ phase default ≠ Done.
Proof.
  assert (∃ s', apply default "forge" (Plan "p") 1 = Ok s') as [s' H]
    by (eexists; vm_compute; reflexivity).
  exists s'. split; [exact H|].
  exact (proj1 (apply_follows_phase_graph default "forge" (Plan "p") 1 s' H)).
Defined.

(** [apply] never reaches its [unreachable!()]: on every record, actor and
    event it returns a new record or an error. *)
Theorem apply_never_panics s actor e now : apply s actor e now ≠ Panic.
Proof.
  assert (∀ a, dispatch s a e ≠ Panic) as HP.
  { intros a. destruct e; simpl; rewrite ?result_fmap_Panic;
      unfold apply_plan, apply_block, apply_verified, apply_pr, apply_begin_merge, apply_move,
        apply_cancel_merge, apply_review_delivered, apply_reconcile_merged, apply_merged;
      try by repeat case_match.
    unfold apply_decide, record_decision.
    by destruct ph; repeat (case_match || case_bool_decide; simplify_eq/=). }
  unfold apply. specialize (HP (to_lowercase actor)). by repeat case_match.
Qed.

(** ** The audit trail *)

(** [chain p h q]: the records of [h] lead from phase [p] to phase [q], each
    along an edge of the phase graph or in place. *)
Fixpoint chain (p : Phase) (h : list TransitionRecord) (q : Phase) : Prop :=
  match h with
  | [] => p = q
  | t :: h => t_from t = p ∧ (t_to t = p ∨ phase_edge p (t_to t) = true) ∧ chain (t_to t) h q
  end.

Lemma chain_snoc p h q t :
  chain p h q → t_from t = q → (t_to t = q ∨ phase_edge q (t_to t) = true) →
  chain p (h ++ [t]) (t_to t).
Proof.
  revert p; induction h as [|r h IH]; simpl; intros p Hc Hf Ht; [by subst|].
  destruct Hc as (? & ? & ?). eauto.
Qed.

(** [numbered n h]: the records carry consecutive versions from [n + 1] on. *)
Fixpoint numbered (n : u64) (h : list TransitionRecord) (m : u64) : Prop :=
  match h with
  | [] => n = m
  | t :: h => t_version t = u64_succ n ∧ numbered (u64_succ n) h m
  end.

Lemma numbered_snoc n h m t :
  numbered n h m → t_version t = u64_succ m → numbered n (h ++ [t]) (u64_succ m).
Proof.
  revert n; induction h as [|r h IH]; simpl; intros n Hn Ht; [by subst|].
  destruct Hn as [? ?]. eauto.
Qed.

(** Handlers do not touch the version or the history; only [commit] does. *)
(** The history is a faithful audit trail: on every reachable record it
    starts where the record started, chains from phase to phase along the phase
    graph up to the current phase, is numbered consecutively up to the current
    version, and a successful request either changes nothing at all or appends
    exactly one entry, naming its actor and its phases. *)
Theorem history_is_an_audit_trail s actor e now s' :
  reachable s → apply s actor e now = Ok s' →
  (∃ p0, chain p0 (history s') (phase s')) ∧
  (∃ n0, numbered n0 (history s') (version s')) ∧
  (s' = s ∨ ∃ t, history s' = history s ++ [t] ∧ t_version t = version s' ∧
                 version s' = u64_succ (version s) ∧ t_actor t = to_lowercase actor ∧
                 t_from t = phase s ∧ t_to t = phase s').
Proof.
  intros HR H.
  enough (∀ s, reachable s →
            (∃ p0, chain p0 (history s) (phase s)) ∧
            (∃ n0, numbered n0 (history s) (version s))) as Hall.
  { destruct (Hall s' (reachable_step _ _ _ _ _ HR H)) as [? ?]. split_and!; [done..|].
    apply apply_Ok in H as (_ & _ & [[_ ->]|(next & H & ->)]); [by left|right].
    destruct (dispatch_bookkeeping _ _ _ _ H) as [Hv Hh].
    eexists; simpl; rewrite Hh, Hv; split_and!; done. }
  clear. intros s HR. induction HR as [s Hi|s a e t s' HR [[p Hc] [n Hn]] H].
  - destruct Hi as [->|(f & [->| ->])]; simpl; eauto.
  - pose proof (apply_Ok _ _ _ _ _ H) as (HD & _ & [[_ ->]|(next & Hd & ->)]); [eauto|].
    destruct (dispatch_bookkeeping _ _ _ _ Hd) as [Hv Hh]. simpl. rewrite Hh, Hv. split.
    + exists p. eapply (chain_snoc _ _ _ (mkTransition _ _ _ _ _ _)); [exact Hc|done|].
      exact (dispatch_edge _ _ _ _ HD Hd).
    + exists n. by eapply numbered_snoc.
Qed.

Lemma history_is_an_audit_trail_witness :
  ∃ s', apply submitted "sentinel" (Decide 4 Submit false "no" 1 (Some "abc")) 8 = Ok s' ∧
        ∃ p0, chain p0 (history s') (phase s').
Proof.
  assert (∃ s', apply submitted "sentinel" (Decide 4 Submit false "no" 1 (Some "abc")) 8 = Ok s')
    as [s' H] by (eexists; vm_compute; reflexivity).
  exists s'. split; [exact H|].
  exact (proj1 (history_is_an_audit_trail submitted _ _ _ s' submitted_reachable H)).
Defined.

(** ** Gates and rounds *)

Lemma dispatch_gate s actor e next :
  Inv s → dispatch s actor e = Ok (Continue next) →
  (phase s = PlanReady ∧ phase next = Building) ∨ (phase s ≠ Submit ∧ phase next = Submit) →
  actor = "sentinel" ∧
  ∃ round report rev h, e = Decide round (phase s) true report rev h ∧
    round = review_round s ∧ rev = revision s.
Proof.
  intros HI H Hg. destruct e; simpl in H;
    try (apply result_fmap_Ok in H as (? & H & [= ->]));
    unfold apply_plan, apply_block, apply_verified, apply_pr, apply_begin_merge,
      apply_cancel_merge, apply_review_delivered, apply_reconcile_merged, apply_merged in H;
    try (handler_inv H; unfold when in Hg; try case_bool_decide; simpl in *; intuition congruence).
  - unfold apply_move in H. ensure_inv H. case_bool_decide; [done|]. ensure_inv H. simplify_eq.
    simpl in Hg. unfold permitted in *. destruct Hg as [[Hp ->]|[Hp ->]]; exfalso.
    + rewrite Hp in *. bsimp. by rewrite (inv_no_plan_verdict _ HI) in * by auto.
    + destruct (phase s) eqn:Hp'; try done. bsimp.
      destruct (inv_untested _ HI) as (? & _); congruence.
  - apply apply_decide_Ok in H as (-> & -> & -> & _ & d & _ & H).
    destruct H as [(Hp&->&->)|[(Hp&_&_&_&[[-> ->]|[-> ->]])|(Hp&_&_&_&[[-> ->]|[-> ->]])]];
      destruct approved; unfold settle_decision, when in Hg; rewrite Hp in *; simpl in Hg;
      rewrite ?Hp in Hg; intuition (try congruence); eauto 10.
Qed.

(** C10. Only SENTINEL opens a gate: on a reachable record every transition into
    building from a submitted plan, and every transition into submit, is the
    approving verdict of SENTINEL on the current round and revision, never a
    move requested by another agent. *)
Theorem only_sentinel_opens_gates s actor e now s' :
  reachable s → apply s actor e now = Ok s' →
  (phase s = PlanReady ∧ phase s' = Building) ∨ (phase s ≠ Submit ∧ phase s' = Submit) →
  to_lowercase actor = "sentinel" ∧
  ∃ round report rev h, e = Decide round (phase s) true report rev h ∧
    round = review_round s ∧ rev = revision s.
Proof.
  intros HR H Hg. apply apply_Ok in H as (_ & _ & [[_ ->]|(next & H & ->)]).
  - exfalso. intuition congruence.
  - exact (dispatch_gate _ _ _ _ (reachable_Inv _ HR) H Hg).
Qed.

Lemma only_sentinel_opens_gates_witness :
  ∃ s s', reachable s ∧
    apply s "Sentinel" (Decide 1 PlanReady true "fine" 1 None) 3 = Ok s' ∧
    phase s = PlanReady ∧ phase s' = Building ∧ to_lowercase "Sentinel" = "sentinel".
Proof.
  assert (∃ s, run default (take 2 reviews_to_submit) = Ok s ∧ phase s = PlanReady ∧
             ∃ s', apply s "Sentinel" (Decide 1 PlanReady true "fine" 1 None) 3 = Ok s' ∧
                   phase s' = Building) as (s & Hr & Hp & s' & Ha & Hb).
  { eexists. split; [vm_compute; reflexivity|]. split; [reflexivity|].
    eexists. split; vm_compute; reflexivity. }
  assert (reachable s) as HR.
  { apply (run_reachable default (take 2 reviews_to_submit)); [|exact Hr].
    apply reachable_init. by left. }
  exists s, s'. split_and!; [exact HR | exact Ha | exact Hp | exact Hb|].
  exact (proj1 (only_sentinel_opens_gates s _ _ _ s' HR Ha (or_introl (conj Hp Hb)))).
Defined.

Definition review_phase (p : Phase) : bool :=
  match p with PlanReady | Testing | Submit => true | _ => false end.

Lemma dispatch_round s actor e next :
  dispatch s actor e = Ok (Continue next) → phase next ≠ phase s →
  review_phase (phase next) = true → review_round next = u64_succ (review_round s).
Proof.
  intros H Hne Hr. destruct e; simpl in H;
    try (apply result_fmap_Ok in H as (? & H & [= ->]));
    unfold apply_plan, apply_block, apply_verified, apply_pr, apply_begin_merge,
      apply_cancel_merge, apply_review_delivered, apply_reconcile_merged, apply_merged in H;
    try (handler_inv H; unfold when in *; try case_bool_decide; simpl in *; congruence).
  - unfold apply_move in H. ensure_inv H. case_bool_decide; [done|]. ensure_inv H. simplify_eq.
    by destruct to.
  - apply apply_decide_Ok in H as (-> & -> & -> & _ & d & _ & H).
    destruct H as [(Hp&->&->)|[(Hp&_&_&_&[[-> ->]|[-> ->]])|(Hp&_&_&_&[[-> ->]|[-> ->]])]];
      destruct approved; unfold settle_decision, when in *; rewrite Hp in *; simpl in *;
      congruence.
Qed.

(** Verdicts cannot be replayed across rounds: entering any review phase
    starts a new round, and in the new state every verdict issued for the round
    before is refused, whatever it says. *)
Theorem entering_review_starts_a_round s actor e now s' a2 ph ap rep rev h now2 :
  (review_round s < U64_MOD)%N →
  apply s actor e now = Ok s' → phase s' ≠ phase s → review_phase (phase s') = true →
  review_round s' = u64_succ (review_round s) ∧
  is_ok (apply s' a2 (Decide (review_round s) ph ap rep rev h) now2) = false.
Proof.
  intros Hb H Hne Hr. apply apply_Ok in H as (_ & _ & [[_ ->]|(next & H & ->)]); [done|].
  pose proof (dispatch_round _ _ _ _ H Hne Hr) as Hround. split; [exact Hround|].
  destruct (is_ok _) eqn:Hok; [|done]. exfalso. apply is_ok_true in Hok as [s2 H2].
  apply apply_Ok in H2 as (_ & _ & H2). simpl in H2.
  assert (∃ n, apply_decide (commit s next (to_lowercase actor) (event_detail s e) now)
                 (to_lowercase a2) (review_round s) ph ap rep rev h = Ok n) as [n Hn].
  { destruct H2 as [[H2 _]|(? & H2 & _)]; apply result_fmap_Ok in H2 as (n & H2 & _); eauto. }
  apply apply_decide_Ok in Hn as (_ & Hn & _). simpl in Hn. rewrite Hround in Hn.
  unfold u64_succ, U64_MOD in *. 
  destruct (decide (review_round s = 18446744073709551615)%N) as [E|E].
  - rewrite E in Hn. done.
  - rewrite N.mod_small in Hn by lia. lia.
Qed.

Lemma entering_review_starts_a_round_witness :
  ∃ s s', apply s "forge" (Move PlanReady None) 2 = Ok s' ∧
    is_ok (apply s' "sentinel" (Decide (review_round s) PlanReady true "x" 1 None) 3) = false.
Proof.
  assert (∃ s, run default (take 1 reviews_to_submit) = Ok s ∧
     (review_round s < U64_MOD)%N ∧ 
     ∃ s', apply s "forge" (Move PlanReady None) 2 = Ok s' ∧ phase s' ≠ phase s ∧
           review_phase (phase s') = true) as (s & _ & Hb & s' & Ha & Hn & Hr).
  { eexists. split; [vm_compute; reflexivity|]. split; [vm_compute; reflexivity|].
    eexists. split; [vm_compute; reflexivity|]. split; [by vm_compute|reflexivity]. }
  exists s, s'. split; [exact Ha|].
  exact (proj2 (entering_review_starts_a_round s _ _ _ s' "sentinel" PlanReady true "x" 1
                  None 3 Hb Ha Hn Hr)).
Defined.

(** ** Review delivery *)

(** A queued SENTINEL review is deliverable exactly when it should be: on a
    reachable open ticket a pending rejection always is, and a pending approval
    is as soon as a human has approved the same pull request; the delivered
    review always names the recorded pull request. *)
Theorem pending_review_deliverable s d :
  reachable s → phase s ≠ Done → pr_delivery s = Some d →
  d_pr_number d = pr_number s ∧
  (deliverable_review s = Some d ↔ d_approved d = false ∨ is_Some (pr_human s)).
Proof.
  intros HR HD Hd. pose proof (reachable_Inv _ HR) as HI.
  destruct (inv_delivery _ HI d HD Hd) as (_ & E1 & E2 & E3 & [n En] & Hcase).
  split; [done|]. unfold deliverable_review. rewrite Hd, E3, En, E1, E2.
  rewrite !(bool_decide_eq_true_2 (_ = _)) by done. simpl.
  destruct Hcase as [(Hp & Ha & Hpd)|(Hp & Ha)]; rewrite Ha, Hp; simpl; [|naive_solver].
  destruct (inv_pr_decision _ HI d Hp Hpd) as ((Hh & _) & _ & _).
  rewrite Hh, Hpd, !(bool_decide_eq_true_2 (_ = _)) by done. simpl.
  destruct (pr_human s) as [dh|] eqn:Hph; simpl; [|naive_solver].
  destruct (inv_pr_human _ HI dh Hp Hph) as (_ & _ & ->). naive_solver.
Qed.

Lemma pending_review_deliverable_witness :
  ∃ s d, reachable s ∧ phase s ≠ Done ∧ pr_delivery s = Some d ∧ d_pr_number d = pr_number s.
Proof.
  assert (∃ s, run submitted (take 1 reviews_to_merge) = Ok s ∧ phase s ≠ Done ∧
               ∃ d, pr_delivery s = Some d) as (s & Hs & Hp & d & Hd).
  { eexists. split; [vm_compute; reflexivity|]. split; [done|]. eexists; reflexivity. }
  assert (reachable s) as HR
    by (eapply run_reachable; [exact submitted_reachable | exact Hs]).
  exists s, d. split_and!; [exact HR | exact Hp | exact Hd |].
  exact (proj1 (pending_review_deliverable s d HR Hp Hd)).
Defined.

(** ** Progress *)

Definition step (s s' : Lifecycle) : Prop := ∃ actor e now, apply s actor e now = Ok s'.

Lemma apply_continue s actor e now next :
  to_lowercase actor = actor → phase s ≠ Done →
  merge_pending s = false ∨ merge_event e = true →
  dispatch s actor e = Ok (Continue next) →
  apply s actor e now = Ok (commit s next actor (event_detail s e) now).
Proof.
  intros Ha HD Hm H. unfold apply. rewrite bool_decide_eq_true_2, Ha by done.
  destruct Hm as [-> | ->]; rewrite ?orb_true_r; simpl; by rewrite H.
Qed.

(** [advance actor e] takes one step of the protocol and exposes the new state. *)
Ltac advance actor e :=
  eapply rtc_l; [exists actor, e, 0%N; eapply apply_continue;
    [reflexivity | simpl; congruence | simpl; first [left; by auto | by right] |
     simpl; unfold apply_plan, apply_move, apply_decide, apply_verified, apply_pr,
       apply_review_delivered, apply_begin_merge, apply_cancel_merge, permitted,
       record_decision, settle_decision, when; simpl;
     repeat match goal with H : _ = _ |- _ => rewrite H end; simpl;
     rewrite ?(bool_decide_eq_true_2 (_ = _)) by done; simpl; try reflexivity]|].

Lemma reach_planning s :
  phase s ≠ Done →
  ∃ s1, rtc step s s1 ∧ phase s1 = Planning ∧ merge_pending s1 = false ∧
        revision s1 = revision s.
Proof.
  intros HD.
  assert (∃ s0, rtc step s s0 ∧ phase s0 = phase s ∧ merge_pending s0 = false ∧
                revision s0 = revision s) as (s0 & H0 & Hp & Hm & Hrev).
  { destruct (merge_pending s) eqn:Hm; [|by exists s].
    eexists. split; [advance "vessel" CancelMerge; reflexivity|]. done. }
  destruct (decide (phase s0 = Planning)) as [Hpl|Hpl]; [by exists s0; split_and!|].
  exists (commit s0 (s0 ▷ clear_work ▷ set_plan_decision None ▷ set_plan ""
                       ▷ set_pr_delivery None ▷ set_feedback None ▷ set_phase Planning)
            "forge" (event_detail s0 (Move Planning None)) 0).
  split_and!; try done. etrans; [exact H0|]. eapply rtc_once. exists "forge", (Move Planning None), 0%N.
  apply apply_continue; [done | congruence | by left |]. simpl. unfold apply_move, permitted, when.
  rewrite (bool_decide_eq_false_2 (phase s0 = Planning)) by done. simpl.
  by destruct (phase s0) eqn:E; try congruence.
Qed.

Lemma reach_building s :
  phase s = Planning → merge_pending s = false → (revision s + 1 < U64_MOD)%N →
  ∃ s1, rtc step s s1 ∧ phase s1 = Building ∧ merge_pending s1 = false.
Proof.
  intros Hp Hm Hr. pose proof (u64_succ_pos _ Hr) as Hpos%N.ltb_lt.
  eexists. split.
  - advance "forge" (Plan "plan"). advance "forge" (Move PlanReady None).
    advance "sentinel" (Decide (u64_succ (review_round s)) PlanReady true "ok"
                          (u64_succ (revision s)) None).
    reflexivity.
  - done.
Qed.

Lemma reach_submit s h :
  phase s = Building → merge_pending s = false → is_blank h = false →
  ∃ s1, rtc step s s1 ∧ phase s1 = Submit ∧ merge_pending s1 = false ∧ head s1 = Some h.
Proof.
  intros Hp Hm Hh. eexists. split.
  - advance "forge" (Move Testing (Some h)).
    advance "sentinel" (Verified h "task").
    advance "sentinel" (Decide (u64_succ (review_round s)) Testing true "ok"
                          (revision s) (Some h)).
    reflexivity.
  - done.
Qed.

Lemma reach_merge_ready s h n :
  phase s = Submit → merge_pending s = false → head s = Some h → (0 < n)%N →
  ∃ s1, rtc step s s1 ∧ merge_ready s1 h = true ∧ pr_number s1 = Some n.
Proof.
  intros Hp Hm Hh Hn%N.ltb_lt.
  assert (∃ s0, rtc step s s0 ∧ phase s0 = Submit ∧ merge_pending s0 = false ∧
                head s0 = Some h ∧ pr_number s0 = Some n) as (s0 & H0 & Hp0 & Hm0 & Hh0 & Hn0).
  { destruct (decide (pr_number s = Some n)) as [E|E]; [by exists s|]. eexists; split.
    - advance "forge" (Pr n).
      rewrite bool_decide_eq_true_2 by done. simpl. reflexivity.
    - done. }
  eexists. split.
  - etrans; [exact H0|].
    advance "sentinel" (Decide (review_round s0) Submit true "ok" (revision s0) (Some h)).
    advance "human" (Decide (review_round s0) Submit true "ok" (revision s0) (Some h)).
    advance "sentinel" (ReviewDelivered (review_round s0)). reflexivity.
  - split; [apply merge_ready_true; simpl | done]. split_and!; eauto.
Qed.

(** C14. No ticket gets stuck: from every record that is not done (reachable or
    not, blocked or rejected, even with a merge reservation left behind), for
    any commit and any pull request number, some sequence of requests leads to
    a reviewed merge of that commit and that pull request. *)
Theorem lifecycle_can_complete s h n sha :
  phase s ≠ Done → (revision s + 1 < U64_MOD)%N → is_blank h = false → (0 < n)%N →
  sha ≠ "" →
  ∃ s1 s', rtc step s s1 ∧ apply s1 "vessel" (Merged n h sha) 0 = Ok s' ∧ phase s' = Done.
Proof.
  intros HD Hr Hh Hn Hsha.
  destruct (reach_planning s HD) as (s1 & R1 & P1 & M1 & V1).
  destruct (reach_building s1 P1 M1) as (s2 & R2 & P2 & M2); [by rewrite V1|].
  destruct (reach_submit s2 h P2 M2 Hh) as (s3 & R3 & P3 & M3 & H3).
  destruct (reach_merge_ready s3 h n P3 M3 H3 Hn) as (s4 & R4 & Hmr & Hn4).
  exists s4. eexists. split; [by repeat (etrans; [eassumption|])|]. split.
  - apply apply_continue; [done | |by right|].
    + apply merge_ready_true in Hmr as (_ & -> & _). done.
    + simpl. unfold apply_merged. rewrite Hmr, Hn4, !(bool_decide_eq_true_2 (_ = _)) by done.
      replace (is_empty sha) with false by by destruct sha. reflexivity.
  - done.
Qed.

Lemma lifecycle_can_complete_witness :
  ∃ s1 s', rtc step (set_phase Blocked default) s1 ∧
           apply s1 "vessel" (Merged 7 "abc" "f00") 0 = Ok s' ∧ phase s' = Done.
Proof.
  apply (lifecycle_can_complete (set_phase Blocked default) "abc" 7 "f00");
    [discriminate | vm_compute; reflexivity | vm_compute; reflexivity
    | vm_compute; reflexivity | discriminate].
Defined.

(** ** Phase names *)

(** [Phase::parse] inverts [Phase::as_str] and accepts nothing else. *)
Theorem phase_parse_roundtrip p s : phase_parse s = Ok p ↔ phase_as_str p = s.
Proof.
  split.
  - unfold phase_parse. destruct (list_find _ _) as [[i q]|] eqn:E; [|done].
    intros [= ->]. by apply list_find_Some in E as (_ & ? & _).
  - intros <-. by destruct p.
Qed.
