(* ===== verification/LifecycleCodec.v ===== *)
(** * The stored form of a lifecycle

    The derived serde encodings of [Phase], [Decision], [TransitionRecord] and
    [Lifecycle] ([src/crates/config/src/lifecycle.rs]: field names and the
    [serde] attributes), and [Lifecycle::decode], which reads a stored record
    and upgrades legacy ones. *)
From S2P Require Import Prelude Text Json Lifecycle LifecycleFacts.

#[export] Instance serde_phase : Serde Phase := {
  to_value p := VString (phase_as_str p);
  from_value v := name ← variant_name v; phase_parse name
}.
#[export] Instance serde_phase_laws : SerdeLaws Phase.
Proof. by intros []. Qed.

Definition decision_to_value (d : Decision) : Value :=
    VObject [("pr_number", to_value (d_pr_number d)); ("round", to_value (d_round d));
             ("actor", to_value (d_actor d)); ("approved", to_value (d_approved d));
             ("report", to_value (d_report d)); ("revision", to_value (d_revision d));
             ("head", to_value (d_head d))].

Definition decision_fields : list string :=
  ["pr_number"; "round"; "actor"; "approved"; "report"; "revision"; "head"].

Definition decision_from_value (v : Value) : result Decision :=
    v ← struct_form decision_fields 7 v;
    pr ← field_or None "pr_number" v;
    rnd ← field "round" v;
    actor ← field "actor" v;
    approved ← field "approved" v;
    report ← field "report" v;
    rev ← field "revision" v;
    h ← field_or None "head" v;
    Ok (mkDecision pr rnd actor approved report rev h).

#[export] Instance serde_decision : Serde Decision :=
  {| to_value := decision_to_value; from_value := decision_from_value |}.
#[export] Instance serde_decision_laws : SerdeLaws Decision.
Proof.
  intros d. cbn [to_value from_value serde_decision].
  unfold decision_from_value, decision_to_value. cbn [struct_form mbind result_bind]. serde_fields. by destruct d.
Qed.
#[export] Instance non_null_decision : NonNull Decision.
Proof. done. Qed.

Definition transition_to_value (t : TransitionRecord) : Value :=
    VObject [("version", to_value (t_version t)); ("actor", to_value (t_actor t));
             ("from", to_value (t_from t)); ("to", to_value (t_to t));
             ("ts", to_value (t_ts t)); ("detail", to_value (t_detail t))].

Definition transition_fields : list string := ["version"; "actor"; "from"; "to"; "ts"; "detail"].

Definition transition_from_value (v : Value) : result TransitionRecord :=
    v ← struct_form transition_fields 6 v;
    ver ← field "version" v;
    actor ← field "actor" v;
    from ← field "from" v;
    to ← field "to" v;
    time ← field "ts" v;
    detail ← field "detail" v;
    Ok (mkTransition ver actor from to time detail).

#[export] Instance serde_transition : Serde TransitionRecord :=
  {| to_value := transition_to_value; from_value := transition_from_value |}.
#[export] Instance serde_transition_laws : SerdeLaws TransitionRecord.
Proof.
  intros t. cbn [to_value from_value serde_transition].
  unfold transition_from_value, transition_to_value. cbn [struct_form mbind result_bind]. serde_fields. by destruct t.
Qed.

(** [#[serde(default)]] on the struct: every absent field takes its value in
    [Lifecycle::default()]. *)
Definition lifecycle_to_value (s : Lifecycle) : Value :=
    VObject [("history", to_value (history s)); ("merge_pending", to_value (merge_pending s));
             ("pr_delivery", to_value (pr_delivery s));
             ("review_round", to_value (review_round s)); ("version", to_value (version s));
             ("phase", to_value (phase s)); ("role", to_value (role s)); ("ts", to_value (ts s));
             ("plan", to_value (plan s)); ("revision", to_value (revision s));
             ("head", to_value (head s)); ("plan_decision", to_value (plan_decision s));
             ("test_decision", to_value (test_decision s));
             ("test_human", to_value (test_human s));
             ("pr_decision", to_value (pr_decision s)); ("pr_human", to_value (pr_human s));
             ("verified_head", to_value (verified_head s));
             ("verification_task", to_value (verification_task s));
             ("pr_number", to_value (pr_number s)); ("merge_sha", to_value (merge_sha s));
             ("feedback", to_value (feedback s))].

Definition lifecycle_fields : list string :=
  ["history"; "merge_pending"; "pr_delivery"; "review_round"; "version"; "phase"; "role"; "ts";
   "plan"; "revision"; "head"; "plan_decision"; "test_decision"; "test_human"; "pr_decision";
   "pr_human"; "verified_head"; "verification_task"; "pr_number"; "merge_sha"; "feedback"].

Definition lifecycle_from_value (v : Value) : result Lifecycle :=
    v ← struct_form lifecycle_fields 0 v;
    hist ← field_or (history default) "history" v;
    mp ← field_or (merge_pending default) "merge_pending" v;
    deliv ← field_or (pr_delivery default) "pr_delivery" v;
    rnd ← field_or (review_round default) "review_round" v;
    ver ← field_or (version default) "version" v;
    ph ← field_or (phase default) "phase" v;
    ro ← field_or (role default) "role" v;
    time ← field_or (ts default) "ts" v;
    pl ← field_or (plan default) "plan" v;
    rev ← field_or (revision default) "revision" v;
    h ← field_or (head default) "head" v;
    pd ← field_or (plan_decision default) "plan_decision" v;
    td ← field_or (test_decision default) "test_decision" v;
    th ← field_or (test_human default) "test_human" v;
    prd ← field_or (pr_decision default) "pr_decision" v;
    prh ← field_or (pr_human default) "pr_human" v;
    vh ← field_or (verified_head default) "verified_head" v;
    vt ← field_or (verification_task default) "verification_task" v;
    prn ← field_or (pr_number default) "pr_number" v;
    sha ← field_or (merge_sha default) "merge_sha" v;
    fb ← field_or (feedback default) "feedback" v;
    Ok (mkLifecycle hist mp deliv rnd ver ph ro time pl rev h pd td th prd prh vh vt prn sha fb).

#[export] Instance serde_lifecycle : Serde Lifecycle :=
  {| to_value := lifecycle_to_value; from_value := lifecycle_from_value |}.

#[export] Instance serde_lifecycle_laws : SerdeLaws Lifecycle.
Proof.
  intros s. cbn [to_value from_value serde_lifecycle].
  unfold lifecycle_from_value, lifecycle_to_value. cbn [struct_form mbind result_bind]. serde_fields. by destruct s.
Qed.

(** ** Reading a stored record *)

(** [Lifecycle::decode]. *)
Definition decode (value : option Value) : result Lifecycle :=
  match value with
  | None => Ok default
  | Some value =>
      if is_some (get "version" value) then
        state ← from_value value;
        Ok (when (is_some_and (λ d, is_none (d_pr_number d)) (pr_delivery state))
              (λ s, s ▷ set_pr_delivery None ▷ set_pr_decision None ▷ set_pr_human None) state)
      else
        let legacy :=
          match as_str value with
          | Some s => Some s
          | None => get "phase" value ≫= as_str
          end in
        ensure! is_some legacy or "Malformed lifecycle record; refusing to reset it" ;;
        Ok (default
            ▷ set_phase (if is_some_and (λ s, bool_decide (s ∈ ["Merged"; "merged"; "done"])) legacy
                         then Done else Planning)
            ▷ set_feedback (Some "Legacy state requires a new plan review"))
  end.

(** Every queued delivery names its pull request. *)
Definition delivery_bound (s : Lifecycle) : Prop :=
  ∀ d, pr_delivery s = Some d → is_Some (d_pr_number d).

Lemma settle_delivery ph actor approved report s :
  pr_delivery (settle_decision ph actor approved report s) = None ∨
  pr_delivery (settle_decision ph actor approved report s) = pr_delivery s.
Proof. unfold settle_decision, when. repeat case_match; auto. Qed.

Lemma dispatch_delivery_bound s actor e next :
  delivery_bound s → dispatch s actor e = Ok (Continue next) → delivery_bound next.
Proof.
  intros HB H. destruct e; simpl in H;
    try (apply result_fmap_Ok in H as (? & H & [= ->]));
    unfold apply_plan, apply_block, apply_verified, apply_pr, apply_begin_merge,
      apply_cancel_merge, apply_review_delivered, apply_reconcile_merged, apply_merged in H;
    try (handler_inv H; unfold when; try case_bool_decide; done).
  - unfold apply_move in H. ensure_inv H. case_bool_decide; [done|]. ensure_inv H. by simplify_eq.
  - apply apply_decide_Ok in H as (-> & _ & _ & _ & d & -> & H).
    destruct H as [(Hp&->&->)|[(Hp&_&_&_&[[-> ->]|[-> ->]])|(Hp&_&_&Hn&[[-> ->]|[-> ->]])]];
      intros d' Hd'; edestruct settle_delivery as [E|E]; rewrite E in Hd'; try done;
      try by apply HB.
    simpl in Hd'. injection Hd' as <-. simpl. by rewrite bool_decide_eq_true_2.
Qed.

Lemma reachable_delivery_bound s : reachable s → delivery_bound s.
Proof.
  induction 1 as [s Hi|s a e t s' _ IH H].
  - by destruct Hi as [->|(f & [->| ->])].
  - apply apply_Ok in H as (_ & _ & [[_ ->]|(next & H & ->)]); [done|].
    exact (dispatch_delivery_bound _ _ _ _ IH H).
Qed.

Lemma decode_to_value s : delivery_bound s → decode (Some (to_value s)) = Ok s.
Proof.
  intros HB. unfold decode. change (get "version" (to_value s)) with (Some (to_value (version s))).
  cbn [is_some is_some_and]. rewrite from_to_value. cbn. unfold when.
  destruct (pr_delivery s) as [d|] eqn:Hd; [|done]. simpl.
  by destruct (HB d Hd) as [n ->].
Qed.

(** C40. What [apply] produces survives storage: encoding a reachable record and
    decoding it gives back the same record, history, approvals and all. *)
Theorem stored_lifecycle_roundtrip s :
  reachable s → decode (Some (to_value s)) = Ok s.
Proof. intros HR. by apply decode_to_value, reachable_delivery_bound. Qed.

Lemma stored_lifecycle_roundtrip_witness : decode (Some (to_value default)) = Ok default.
Proof. apply stored_lifecycle_roundtrip. apply reachable_init. left. reflexivity. Defined.

Lemma decode_delivery_bound v s : decode v = Ok s → delivery_bound s.
Proof.
  unfold decode. destruct v as [v|]; [|by intros [= <-]].
  destruct (is_some (Json.get "version" v)).
  - intros H. apply result_bind_Ok in H as (st & _ & [= <-]).
    unfold when. destruct (is_some_and _ (pr_delivery st)) eqn:E; [done|].
    intros d Hd. rewrite Hd in E. simpl in E. by apply is_none_false in E as [n ->].
  - intros H. ensure_inv H. by injection H as <-.
Qed.

(** Reading a record never creates authority: whatever bytes are stored, a
    decoded record holds no delivery that does not name its pull request, and a
    record without a version is rejected or becomes a fresh record (done only
    if it said so), with no plan, no verdict and nothing to merge. *)
Theorem decode_is_conservative v s :
  decode (Some v) = Ok s →
  delivery_bound s ∧
  (get "version" v = None → initial s ∧ ∀ h, merge_ready s h = false).
Proof.
  intros H. split; [by eapply decode_delivery_bound|]. intros Hv. revert H.
  unfold decode. rewrite Hv. cbn [is_some is_some_and].
  intros H. ensure_inv H. injection H as <-.
  destruct (is_some_and _ _); (split; [|done]); right; eexists; [right|left]; reflexivity.
Qed.

Lemma decode_is_conservative_witness :
  ∃ s, decode (Some (VString "approved")) = Ok s ∧ ∀ h, merge_ready s h = false.
Proof.
  assert (∃ s, decode (Some (VString "approved")) = Ok s) as [s H]
    by (eexists; vm_compute; reflexivity).
  exists s. split; [exact H|]. 
  exact (proj2 (proj2 (decode_is_conservative (VString "approved") s H) eq_refl)).
Defined.
