(* ===== verification/Glob.v ===== *)
(** * Glob matching of store keys

    Models [glob_match] of [src/crates/pocketflow-core/src/store.rs], the
    backtracking matcher behind [SharedStore::keys], and relates it to the
    usual meaning of [*] and [?]. *)
From S2P Require Import Prelude Text.

Definition star_char : ascii := "*"%char.
Definition any_char : ascii := "?"%char.

(** ** The matcher

    The two cursors, the position of the last star seen ([usize::MAX] when
    there is none) and the text position it currently absorbs up to.  [None] is
    only returned when the fuel runs out. *)
Fixpoint glob_loop (fuel : nat) (p t : list ascii) (pi ti : nat) (star : option nat)
  (mark : nat) : option bool :=
  match fuel with
  | 0 => None
  | S fuel =>
      match t !! ti with
      | Some c =>
          if is_some_and (λ x, char_eqb x any_char || char_eqb x c) (p !! pi)
          then glob_loop fuel p t (S pi) (S ti) star mark
          else if is_some_and (λ x, char_eqb x star_char) (p !! pi)
          then glob_loop fuel p t (S pi) ti (Some pi) ti
          else match star with
               | Some s => glob_loop fuel p t (S s) (S mark) star (S mark)
               | None => Some false
               end
      | None => Some (forallb (λ x, char_eqb x star_char) (drop pi p))
      end
  end.

(** A bound on the iterations of the loop. *)
Definition glob_fuel (p t : list ascii) : nat :=
  (length p + 2) * ((length t + 2) * (length p + 2)).

Definition glob_match (pattern text : string) : bool :=
  let p := chars pattern in
  let t := chars text in
  default false (glob_loop (glob_fuel p t) p t 0 0 None 0).

(** ** The specification *)

Fixpoint glob_spec (p t : list ascii) : bool :=
  match p with
  | [] => match t with [] => true | _ => false end
  | x :: p =>
      if char_eqb x star_char then
        (fix absorb (t : list ascii) : bool :=
           glob_spec p t || match t with [] => false | _ :: t => absorb t end) t
      else match t with
           | [] => false
           | c :: t => (char_eqb x any_char || char_eqb x c) && glob_spec p t
           end
  end.

(** Some suffix of [t] matches [p]. *)
Definition matches_later (p t : list ascii) : Prop := ∃ k, glob_spec p (drop k t) = true.

Lemma glob_spec_star p t :
  glob_spec (star_char :: p) t = true ↔ matches_later p t.
Proof.
  unfold matches_later. simpl.
  induction t as [|c t IH].
  - rewrite orb_false_r. split; [by exists 0 | intros [k Hk]; by rewrite drop_nil in Hk].
  - rewrite orb_true_iff, IH. split.
    + intros [H|[k H]]; [by exists 0 | by exists (S k)].
    + intros [[|k] H]; [by left | right; by exists k].
Qed.

Lemma glob_spec_nil_r p :
  glob_spec p [] = forallb (λ x, char_eqb x star_char) p.
Proof.
  induction p as [|x p IH]; [done|]. simpl. rewrite orb_false_r.
  by destruct (char_eqb x star_char).
Qed.

Lemma glob_spec_literal x p c t :
  char_eqb x star_char = false →
  glob_spec (x :: p) (c :: t) = (char_eqb x any_char || char_eqb x c) && glob_spec p t.
Proof. intros H. simpl. by rewrite H. Qed.

(** ** The loop terminates *)

Definition measure (p t : list ascii) (pi : nat) (star : option nat) (mark : nat) : nat :=
  (length p + 1 - from_option S 0 star) * ((length t + 2) * (length p + 2))
  + (length t + 1 - mark) * (length p + 2) + (length p + 1 - pi).

(** What the loop maintains: the text between the mark and the cursor is as
    long as the pattern between the star and the cursor, and that piece of the
    pattern holds no star. *)
Record loop_inv (p t : list ascii) (pi ti : nat) (star : option nat) (mark : nat) : Prop := {
  li_pi : pi ≤ length p;
  li_ti : ti ≤ length t;
  li_mark : mark ≤ ti;
  li_star s : star = Some s → s < pi ∧ pi - S s = ti - mark ∧ p !! s = Some star_char ∧
      ∀ i, s < i < pi → p !! i ≠ Some star_char;
}.

Section Loop.
Context (p t : list ascii) (no_star : star_char ∉ t).

Lemma step_match pi ti star mark x c :
  loop_inv p t pi ti star mark → p !! pi = Some x → t !! ti = Some c →
  char_eqb x any_char || char_eqb x c = true →
  x ≠ star_char ∧ loop_inv p t (S pi) (S ti) star mark.
Proof.
  intros [] Hp Ht Hx.
  assert (x ≠ star_char) as Hne.
  { intros ->. apply orb_true_iff in Hx as [Hx|Hx]; [done|].
    apply char_eqb_eq in Hx as <-. apply no_star. by eapply list_elem_of_lookup_2. }
  split; [done|].
  apply lookup_lt_Some in Hp as ?, Ht as ?.
  constructor; try lia. intros s Hs. destruct (li_star0 s Hs) as (? & ? & ? & Hns).
  split_and!; [lia|lia|done|]. intros i Hi.
  destruct (decide (i = pi)) as [->|]; [congruence|]. apply Hns. lia.
Qed.

Lemma step_star pi ti star mark :
  loop_inv p t pi ti star mark → p !! pi = Some star_char →
  loop_inv p t (S pi) ti (Some pi) ti.
Proof.
  intros [] Hp. apply lookup_lt_Some in Hp as ?.
  constructor; try lia. intros s [= <-]. split_and!; [lia|lia|done|lia].
Qed.

Lemma step_back pi ti s mark c :
  loop_inv p t pi ti (Some s) mark → t !! ti = Some c →
  loop_inv p t (S s) (S mark) (Some s) (S mark).
Proof.
  intros [] Ht. apply lookup_lt_Some in Ht as ?.
  destruct (li_star0 s eq_refl) as (? & ? & Hs & _).
  constructor; try lia. intros s' [= <-]. split_and!; [lia|lia|done|lia].
Qed.

(** [M i j]: the pattern from [i] on matches the text from [j] on. *)
Definition M (i j : nat) : Prop := glob_spec (drop i p) (drop j t) = true.

Lemma M_literal pi ti x c :
  p !! pi = Some x → t !! ti = Some c → x ≠ star_char →
  M pi ti ↔ (char_eqb x any_char || char_eqb x c = true ∧ M (S pi) (S ti)).
Proof.
  intros Hp Ht Hx. unfold M. rewrite (drop_S _ _ _ Hp), (drop_S _ _ _ Ht).
  rewrite glob_spec_literal by (by apply char_eqb_neq). by rewrite andb_true_iff.
Qed.

Lemma M_star pi ti :
  p !! pi = Some star_char → M pi ti ↔ ∃ m, ti ≤ m ∧ M (S pi) m.
Proof.
  intros Hp. unfold M at 1. rewrite (drop_S _ _ _ Hp), glob_spec_star. split.
  - intros [k Hk]. exists (ti + k). split; [lia|]. unfold M. by rewrite drop_drop in Hk.
  - intros (m & Hm & HM). exists (m - ti). rewrite drop_drop.
    by replace (ti + (m - ti)) with m by lia.
Qed.

Lemma M_past_end pi ti : length t ≤ ti → M pi ti → M pi (length t).
Proof. intros H. unfold M. by rewrite (drop_ge t ti), (drop_ge t (length t)) by lia. Qed.

Lemma M_nonstar pi ti x :
  p !! pi = Some x → x ≠ star_char → M pi ti → is_Some (t !! ti).
Proof.
  intros Hp Hx. unfold M. rewrite (drop_S _ _ _ Hp).
  destruct (t !! ti) eqn:Ht; [by eauto|]. apply lookup_ge_None in Ht.
  rewrite (drop_ge t ti) by done. simpl. by rewrite (proj2 (char_eqb_neq x star_char)).
Qed.

(** A star-free piece of the pattern consumes exactly its length of text. *)
Lemma M_skip n i j :
  i + n ≤ length p → (∀ k, i ≤ k < i + n → p !! k ≠ Some star_char) →
  M i j → M (i + n) (j + n).
Proof.
  revert i j; induction n as [|n IH]; intros i j Hn Hns HM; [by rewrite !Nat.add_0_r|].
  destruct (lookup_lt_is_Some_2 p i) as [x Hx]; [lia|].
  assert (x ≠ star_char) by (intros ->; by apply (Hns i); [lia|]).
  destruct (M_nonstar i j x) as [c Hc]; [done..|].
  rewrite (M_literal i j x c Hx Hc) in HM by done. destruct HM as [Hxc HM].
  rewrite !Nat.add_succ_r, <- !Nat.add_succ_l. apply IH; [lia| |done].
  intros k Hk. apply Hns. lia.
Qed.

(** An alternative left open at the last star that succeeds. *)
Definition retry (star : option nat) (mark : nat) : Prop :=
  ∃ s m, star = Some s ∧ mark < m ∧ M (S s) m.

Lemma retry_forward pi ti star mark :
  loop_inv p t pi ti star mark → retry star mark → ∃ m, ti < m ∧ M pi m.
Proof.
  intros [] (s & m & -> & Hm & HM). destruct (li_star0 s eq_refl) as (? & Hd & _ & Hns).
  exists (m + (pi - S s)). split; [lia|].
  replace pi with (S s + (pi - S s)) at 1 by lia.
  apply M_skip; [lia| |done]. intros k Hk. apply Hns. lia.
Qed.

Lemma retry_back s mark : retry (Some s) mark ↔ M (S s) (S mark) ∨ retry (Some s) (S mark).
Proof.
  split.
  - intros (s' & m & [= <-] & Hm & HM).
    destruct (decide (m = S mark)) as [->|]; [by left|right]. exists s, m. split_and!; [done|lia|done].
  - intros [HM|(s' & m & [= <-] & Hm & HM)];
      [exists s, (S mark) | exists s, m]; split_and!; [done|lia|done|done|lia|done].
Qed.

Lemma M_mismatch pi ti c :
  t !! ti = Some c →
  is_some_and (λ x, char_eqb x any_char || char_eqb x c) (p !! pi) = false →
  is_some_and (λ x, char_eqb x star_char) (p !! pi) = false → ¬ M pi ti.
Proof.
  intros Ht E1 E2. destruct (p !! pi) as [x|] eqn:Hp; simpl in *.
  - rewrite (M_literal pi ti x c), E1; [naive_solver|done|done|by apply char_eqb_neq].
  - apply lookup_ge_None in Hp. unfold M. by rewrite (drop_ge p), (drop_S _ _ _ Ht) by done.
Qed.

(** At the end of the text only trailing stars can match. *)
Lemma M_at_end pi ti star mark :
  loop_inv p t pi ti star mark → t !! ti = None →
  forallb (λ x, char_eqb x star_char) (drop pi p) = true ↔ M pi ti ∨ retry star mark.
Proof.
  intros HI Ht%lookup_ge_None. rewrite <- glob_spec_nil_r.
  assert (M pi ti ↔ glob_spec (drop pi p) [] = true) as <-
    by (unfold M; by rewrite (drop_ge t ti) by lia).
  split; [by left|]. intros [?|Hr]; [done|].
  apply (retry_forward pi ti) in Hr as (m & Hm & HM); [|done].
  unfold M in *. by rewrite (drop_ge t) in * by lia.
Qed.

(** A new star makes the alternatives at the old one redundant. *)
Lemma M_new_star pi ti star mark :
  loop_inv p t pi ti star mark → p !! pi = Some star_char →
  M (S pi) ti ∨ retry (Some pi) ti ↔ M pi ti ∨ retry star mark.
Proof.
  intros HI Hp. rewrite (M_star pi ti) by done. split.
  - intros [HM|(s & m & [= <-] & Hm & HM)]; left; [by exists ti|exists m; split; [lia|done]].
  - intros [(m & Hm & HM)|Hr].
    + destruct (decide (m = ti)) as [->|]; [by left|right].
      exists pi, m. split_and!; [done|lia|done].
    + apply (retry_forward pi ti) in Hr as (m & Hm & HM); [|done].
      apply M_star in HM as (m' & Hm' & HM); [|done].
      right. exists pi, m'. split_and!; [done|lia|done].
Qed.

Lemma glob_loop_spec fuel pi ti star mark :
  loop_inv p t pi ti star mark → measure p t pi star mark < fuel →
  ∃ b, glob_loop fuel p t pi ti star mark = Some b ∧
       (b = true ↔ M pi ti ∨ retry star mark).
Proof.
  revert pi ti star mark; induction fuel as [|fuel IH]; intros pi ti star mark HI Hf; [lia|].
  pose proof HI as [Hpi Hti Hmk Hst]. unfold measure in Hf. simpl.
  destruct (t !! ti) as [c|] eqn:Ht; [|eauto using M_at_end].
  apply lookup_lt_Some in Ht as Hlt.
  destruct (is_some_and _ (p !! pi)) eqn:E1.
  { apply is_some_and_true in E1 as (x & Hp & Hx). apply lookup_lt_Some in Hp as ?.
    destruct (step_match pi ti star mark x c) as [Hns HI']; [done..|].
    destruct (IH _ _ _ _ HI') as (b & -> & Hb); [unfold measure; nia|].
    exists b. split; [done|]. rewrite Hb, (M_literal pi ti x c) by done. tauto. }
  destruct (is_some_and (λ x, char_eqb x star_char) (p !! pi)) eqn:E2.
  { apply is_some_and_true in E2 as (x & Hp & ->%char_eqb_eq). apply lookup_lt_Some in Hp as ?.
    destruct (IH _ _ _ _ (step_star pi ti star mark HI Hp)) as (b & -> & Hb).
    - assert (from_option S 0 star ≤ pi)
        by (destruct star as [s|]; simpl; [destruct (Hst s); [done|lia] | lia]).
      unfold measure. simpl. nia.
    - exists b. split; [done|]. by rewrite Hb, (M_new_star pi ti star mark). }
  pose proof (M_mismatch pi ti c Ht E1 E2) as HnM.
  destruct star as [s|].
  - destruct (IH _ _ _ _ (step_back pi ti s mark c HI Ht)) as (b & -> & Hb).
    { destruct (Hst s eq_refl). unfold measure. simpl in *. nia. }
    exists b. split; [done|]. rewrite Hb, <- retry_back. tauto.
  - eexists; split; [done|]. split; [done|]. intros [?|(? & ? & ? & _)]; done.
Qed.
End Loop.

Lemma elem_of_chars c s : c ∈ chars s ↔ no_char c s = false.
Proof.
  unfold no_char, chars. induction s as [|x s IH]; simpl.
  - rewrite elem_of_nil. done.
  - rewrite elem_of_cons, IH, andb_false_iff, negb_false_iff, char_eqb_eq. naive_solver.
Qed.

Lemma loop_inv_init p t : loop_inv p t 0 0 None 0.
Proof. constructor; [lia..|done]. Qed.

Lemma glob_fuel_enough p t : measure p t 0 None 0 < glob_fuel p t.
Proof. unfold measure, glob_fuel. simpl. nia. Qed.

Lemma glob_match_agrees (pattern text : string) :
  no_char star_char text = true →
  let p := chars pattern in
  let t := chars text in
  glob_loop (glob_fuel p t) p t 0 0 None 0 = Some (glob_spec p t) ∧
  glob_match pattern text = glob_spec p t.
Proof.
  intros Hns p t.
  assert (star_char ∉ t) as Ht by (unfold t; rewrite elem_of_chars; congruence).
  destruct (glob_loop_spec p t Ht _ 0 0 None 0 (loop_inv_init p t) (glob_fuel_enough p t))
    as (b & Hl & Hb).
  assert (b = glob_spec p t) as ->.
  { apply eq_true_iff_eq. rewrite Hb. unfold M. rewrite !drop_0. split; [|by left].
    intros [?|(? & ? & ? & _)]; done. }
  split; [done|]. unfold glob_match. fold p t. by rewrite Hl.
Qed.

(** [glob_match] terminates within the stated number of iterations and,
    on every key without a literal asterisk, decides exactly the glob relation:
    [*] absorbs any run of characters, [?] any single one, and every other
    character itself. *)
Theorem glob_match_correct (pattern text : string) :
  no_char star_char text = true →
  let p := chars pattern in
  let t := chars text in
  glob_loop (glob_fuel p t) p t 0 0 None 0 = Some (glob_spec p t) ∧
  glob_match pattern text = glob_spec p t.
Proof. apply glob_match_agrees. Qed.

Lemma glob_match_correct_witness :
  glob_match "ns:acme:ticket:*:chat:?orge" "ns:acme:ticket:T-1:chat:forge" = true.
Proof.
  pose proof (glob_match_correct "ns:acme:ticket:*:chat:?orge" "ns:acme:ticket:T-1:chat:forge"
                ltac:(vm_compute; reflexivity)) as [_ H].
  rewrite H. vm_compute. reflexivity.
Defined.

(** The restriction is needed: a pattern star meeting a literal asterisk in
    the text is consumed as an ordinary character and can no longer expand, so
    the pattern of all keys misses a key that starts with an asterisk. *)
Theorem glob_match_misses_literal_star :
  glob_match "*" "*x" = false ∧ glob_spec (chars "*") (chars "*x") = true.
Proof. split; vm_compute; reflexivity. Qed.

(** ** Patterns with a literal prefix *)

Definition literal (s : string) : bool := no_char star_char s && no_char any_char s.

Lemma glob_spec_literal_prefix pre p t :
  literal pre = true → glob_spec (chars pre ++ p) t = true →
  ∃ r, t = chars pre ++ r ∧ glob_spec p r = true.
Proof.
  unfold literal, no_char. revert t; induction pre as [|c pre IH]; simpl; intros t Hl H; [by exists t|].
  rewrite !andb_true_iff, !negb_true_iff in Hl. destruct Hl as [[Hs Hl1] [Ha Hl2]].
  rewrite Hs in H. destruct t as [|x t]; [done|]. rewrite Ha in H. simpl in H.
  apply andb_true_iff in H as [->%char_eqb_eq H].
  destruct (IH t) as (r & -> & Hr); [by rewrite Hl1, Hl2|done|]. by exists r.
Qed.

Lemma glob_spec_prefix_app pre p r :
  literal pre = true → glob_spec p r = true → glob_spec (chars pre ++ p) (chars pre ++ r) = true.
Proof.
  unfold literal, no_char. induction pre as [|c pre IH]; simpl; intros Hl H; [done|].
  rewrite !andb_true_iff, !negb_true_iff in Hl. destruct Hl as [[Hs Hl1] [Ha Hl2]].
  rewrite Hs, char_eqb_refl, orb_true_r. simpl. apply IH; [by rewrite Hl1, Hl2|done].
Qed.

Lemma chars_app a b : chars (a +:+ b) = chars a ++ chars b.
Proof. induction a as [|c a IH]; [done|]. simpl. by f_equal. Qed.

Lemma of_chars_chars s : of_chars (chars s) = s.
Proof. apply String.string_of_list_ascii_of_string. Qed.

Lemma chars_of_chars l : chars (of_chars l) = l.
Proof. apply String.list_ascii_of_string_of_list_ascii. Qed.

Lemma chars_app_inv s pre r : chars s = chars pre ++ r → s = pre +:+ of_chars r.
Proof.
  intros H. rewrite <- (of_chars_chars s), H.
  rewrite <- (chars_of_chars r) at 1. rewrite <- chars_app. apply of_chars_chars.
Qed.
