(* ===== verification/Store.v ===== *)
(** * SharedStore: the tenant-scoped key-value store

    Models [src/crates/pocketflow-core/src/store.rs] over its in-memory backend:
    namespaced reads and writes, leases, key enumeration, lifecycle reads and
    compare-and-set transitions, and the event ring buffer.  The Redis backend's
    compare-and-set is in [RedisCas].

    The clock is an argument: [now] is milliseconds (or seconds, where the code
    takes seconds) since the Unix epoch. *)
From S2P Require Import Prelude Text Json Glob Lifecycle LifecycleFacts LifecycleCodec.

(** ** State *)

Definition RING_BUFFER_SIZE : nat := 1000.

Record StoreEvent : Type := mkEvent {
  ev_agent : string;
  ev_type : string;
  ev_payload : Value;
  ev_ts : u64;
}.

Record SharedStore : Type := mkStore {
  backend : gmap string Value;
  ring_buffer : list StoreEvent;
  tenant : string;
}.

Definition set_backend (m : gmap string Value) (s : SharedStore) : SharedStore :=
  mkStore m (ring_buffer s) (tenant s).
Definition set_ring_buffer (b : list StoreEvent) (s : SharedStore) : SharedStore :=
  mkStore (backend s) b (tenant s).

(** [SharedStore::new_in_memory_with_tenant]. *)
Definition new_in_memory_with_tenant (t : string) : SharedStore := mkStore ∅ [] t.

(** [SharedStore::new_in_memory]. *)
Definition new_in_memory : SharedStore := new_in_memory_with_tenant "default".

(** ** Keys *)

(** [SharedStore::ns_key]. *)
Definition ns_key (s : SharedStore) (key : string) : string :=
  "ns:" +:+ tenant s +:+ ":" +:+ key.

(** [tenant_index_key]: the per-tenant key index a full key belongs to. *)
Definition tenant_index_key (key : string) : option string :=
  rest ← strip_prefix "ns:" key;
  '(t, _) ← split_once ":"%char rest;
  Some ("ns:" +:+ t +:+ ":_keys").

(** ** Reads and writes *)

(** [SharedStore::get]. *)
Definition get (s : SharedStore) (key : string) : option Value := backend s !! ns_key s key.

(** [SharedStore::set]. *)
Definition set (s : SharedStore) (key : string) (v : Value) : SharedStore :=
  set_backend (<[ns_key s key := v]> (backend s)) s.

(** [SharedStore::del]. *)
Definition del (s : SharedStore) (key : string) : SharedStore :=
  set_backend (delete (ns_key s key) (backend s)) s.

(** [SharedStore::raw_del]. *)
Definition raw_del (s : SharedStore) (key : string) : SharedStore :=
  set_backend (delete key (backend s)) s.

(** [SharedStore::get_typed]. *)
Definition get_typed {A} `{Serde A} (s : SharedStore) (key : string) : option A :=
  v ← get s key; ok (from_value v).

(** [SharedStore::set_typed]. *)
Definition set_typed {A} `{Serde A} (s : SharedStore) (key : string) (a : A) : SharedStore :=
  set s key (to_value a).

(** [Backend::scan_keys] in memory: the stored keys that match, in no
    particular order. *)
Definition raw_keys (s : SharedStore) (pattern : string) : list string :=
  List.filter (glob_match pattern) (map fst (map_to_list (backend s))).

(** [SharedStore::keys]. *)
Definition keys (s : SharedStore) (pattern : string) : list string :=
  raw_keys s (ns_key s pattern).

(** ** Leases *)

Definition lease (token : string) (expires_at : u64) : Value :=
  VObject [("token", VString token); ("expires_at", VPosInt expires_at)].

(** Whether an existing value keeps the key occupied at [now]. *)
Definition occupied (v : Value) (now : N) : bool :=
  match Json.get "expires_at" v ≫= as_u64 with
  | Some expiry => (now <? expiry)%N
  | None => true
  end.

(** [SharedStore::try_claim]. *)
Definition try_claim (s : SharedStore) (key token : string) (ttl_secs : u64) (now : N)
  : result (bool * SharedStore) :=
  ensure! (0 <? ttl_secs)%N or "Lease TTL must be positive" ;;
  let k := ns_key s key in
  let expires_at := (now + ttl_secs * 1000)%N in
  ensure! (expires_at <? U64_MOD)%N or "out of range integral type conversion attempted" ;;
  if is_some_and (λ v, occupied v now) (backend s !! k) then Ok (false, s)
  else Ok (true, set_backend (<[k := lease token expires_at]> (backend s)) s).

(** [SharedStore::release_claim]. *)
Definition release_claim (s : SharedStore) (key token : string) : SharedStore :=
  let k := ns_key s key in
  if bool_decide (((backend s !! k ≫= Json.get "token") ≫= as_str) = Some token)
  then set_backend (delete k (backend s)) s
  else s.

(** ** Lifecycle records *)

Definition status_key (ticket : string) : string := "ticket:" +:+ ticket +:+ ":status".

(** [SharedStore::lifecycle]. *)
Definition lifecycle (s : SharedStore) (ticket : string) : result Lifecycle :=
  decode (backend s !! ns_key s (status_key ticket)).

(** [SharedStore::transition]. *)
Definition transition (s : SharedStore) (ticket : string) (ver : u64) (actor : string)
  (e : Event) (now : u64) : result (Lifecycle * SharedStore) :=
  let k := ns_key s (status_key ticket) in
  current ← decode (backend s !! k);
  ensure! bool_decide (version current = ver) or "Lifecycle changed; refresh before retrying" ;;
  next ← apply current actor e now;
  Ok (next, set_backend (<[k := to_value next]> (backend s)) s).

(** ** Event ring buffer *)

(** [SharedStore::emit]. *)
Definition emit (s : SharedStore) (agent event_type : string) (payload : Value) (now : u64)
  : SharedStore :=
  let buf := ring_buffer s in
  let buf := if RING_BUFFER_SIZE <=? length buf then drop 1 buf else buf in
  set_ring_buffer (buf ++ [mkEvent agent event_type payload now]) s.

(** [SharedStore::get_events_since]. *)
Definition get_events_since (s : SharedStore) (cursor : nat) : list StoreEvent :=
  if length (ring_buffer s) <=? cursor then [] else drop cursor (ring_buffer s).

(** [SharedStore::event_count]. *)
Definition event_count (s : SharedStore) : nat := length (ring_buffer s).

(** ** Lemmas: keys *)

Lemma ns_key_inj s k k' : ns_key s k = ns_key s k' → k = k'.
Proof.
  unfold ns_key. intros H. by repeat apply string_app_inv_l in H.
Qed.

Lemma ns_key_tenant_inj s s' k k' :
  no_char ":" (tenant s) = true → no_char ":" (tenant s') = true →
  ns_key s k = ns_key s' k' → tenant s = tenant s' ∧ k = k'.
Proof.
  unfold ns_key. intros H H' E. apply string_app_inv_l in E.
  by apply (app_sep_inj ":"%char) in E.
Qed.

Lemma tenant_index_key_ns s k :
  no_char ":" (tenant s) = true →
  tenant_index_key (ns_key s k) = Some (ns_key s "_keys").
Proof.
  intros H. unfold tenant_index_key, ns_key. rewrite strip_prefix_app. cbn [mbind option_bind].
  change (":" +:+ k) with (String ":" k). by rewrite split_once_app.
Qed.

(** ** Lemmas: reads after writes *)

Lemma tenant_set s k v : tenant (set s k v) = tenant s.
Proof. done. Qed.

Lemma get_set_eq s k v : get (set s k v) k = Some v.
Proof. unfold get, set, ns_key. simpl. by rewrite lookup_insert_eq. Qed.

Lemma get_set_ne s k k' v : k ≠ k' → get (set s k v) k' = get s k'.
Proof.
  intros Hne. unfold get. change (ns_key (set s k v) k') with (ns_key s k').
  simpl. apply lookup_insert_ne. by intros ?%ns_key_inj.
Qed.

Lemma get_del_eq s k : get (del s k) k = None.
Proof. unfold get, del, ns_key. simpl. by rewrite lookup_delete_eq. Qed.

Lemma get_del_ne s k k' : k ≠ k' → get (del s k) k' = get s k'.
Proof.
  intros Hne. unfold get. change (ns_key (del s k) k') with (ns_key s k').
  simpl. apply lookup_delete_ne. by intros ?%ns_key_inj.
Qed.

Lemma get_emit s a t p now k : get (emit s a t p now) k = get s k.
Proof. done. Qed.

(** Keys of a map that a test selects. *)
Lemma elem_of_filter_keys {A} (f : string → bool) (m : gmap string A) k :
  k ∈ List.filter f (map fst (map_to_list m)) ↔ is_Some (m !! k) ∧ f k = true.
Proof.
  rewrite list_elem_of_In, filter_In, <- list_elem_of_In. apply and_iff_compat_r.
  rewrite list_elem_of_fmap. split.
  - intros ([k' a] & -> & H). apply elem_of_map_to_list in H. eauto.
  - intros [a H]. exists (k, a). split; [done|]. by apply elem_of_map_to_list.
Qed.

Lemma status_key_inj t t' : status_key t = status_key t' → t = t'.
Proof. unfold status_key. intros H. apply string_app_inv_l in H. by apply string_app_inv_r in H. Qed.

#[export] Hint Rewrite get_set_eq get_del_eq get_emit : text_rw.
