(* ===== verification/StoreProps.v ===== *)
(** * What the shared store guarantees

    Tenant isolation, exclusive leases, scoped key enumeration, compare-and-set
    transitions and the bounded event log of
    [src/crates/pocketflow-core/src/store.rs]. *)
From S2P Require Import Prelude Text Json Glob Lifecycle LifecycleFacts LifecycleCodec Store.

(** ** Operations as requests *)

Inductive store_op : Type :=
  | OSet (k : string) (v : Value)
  | ODel (k : string)
  | OClaim (k token : string) (ttl : u64) (now : N)
  | ORelease (k token : string)
  | OTransition (ticket : string) (ver : u64) (actor : string) (e : Event) (now : u64)
  | OEmit (agent event_type : string) (payload : Value) (now : u64).

(** One operation; an operation that fails leaves the store as it was. *)
Definition exec (s : SharedStore) (o : store_op) : SharedStore :=
  match o with
  | OSet k v => set s k v
  | ODel k => del s k
  | OClaim k token ttl now => from_option snd s (ok (try_claim s k token ttl now))
  | ORelease k token => release_claim s k token
  | OTransition t ver actor e now => from_option snd s (ok (transition s t ver actor e now))
  | OEmit a t p now => emit s a t p now
  end.

(** The same backend seen by another tenant. *)
Definition as_tenant (t : string) (s : SharedStore) : SharedStore := mkStore (backend s) [] t.

(** Every operation touches at most one key, of its own tenant. *)
Lemma exec_footprint s o :
  tenant (exec s o) = tenant s ∧
  (backend (exec s o) = backend s ∨
   ∃ k, backend (exec s o) = delete (ns_key s k) (backend s) ∨
        ∃ v, backend (exec s o) = <[ns_key s k := v]> (backend s)).
Proof.
  destruct o; simpl; try by eauto 6.
  - unfold try_claim. repeat (case_match; simpl; try by eauto 6).
  - unfold release_claim. case_match; simpl; eauto 6.
  - unfold transition. destruct (decode _); simpl; [|by auto..].
    case_bool_decide; simpl; [|by auto]. destruct (apply _ _ _ _); simpl; eauto 6.
Qed.

Lemma exec_other_tenant s o t k :
  no_char ":" (tenant s) = true → no_char ":" t = true → tenant s ≠ t →
  get (as_tenant t (exec s o)) k = get (as_tenant t s) k.
Proof.
  intros Hs Ht Hne. unfold get. change (ns_key (as_tenant t (exec s o)) k) with (ns_key (as_tenant t s) k).
  simpl. destruct (exec_footprint s o) as [_ [->|(k' & [->|(v & ->)])]];
    [done|apply lookup_delete_ne|apply lookup_insert_ne];
    intros E; by apply ns_key_tenant_inj in E as [? _].
Qed.

(** Tenants are isolated: whatever sequence of writes, deletions, leases,
    transitions and events one tenant performs, every key of every other tenant
    reads as before (tenant names contain no colon). *)
Theorem tenants_are_isolated s ops t k :
  no_char ":" (tenant s) = true → no_char ":" t = true → tenant s ≠ t →
  get (as_tenant t (foldl exec s ops)) k = get (as_tenant t s) k.
Proof.
  intros Hs Ht Hne. revert s Hs Hne; induction ops as [|o ops IH]; intros s Hs Hne; [done|].
  simpl. destruct (exec_footprint s o) as [E _].
  rewrite IH by (by rewrite E). by apply exec_other_tenant.
Qed.

Definition two_tenants : SharedStore := set (as_tenant "b" new_in_memory) "x" (VBool true).

Lemma tenants_are_isolated_witness :
  get (as_tenant "b" (foldl exec (as_tenant "a" two_tenants) [ODel "x"; OSet "x" VNull])) "x"
  = Some (VBool true).
Proof.
  rewrite (tenants_are_isolated (as_tenant "a" two_tenants) [ODel "x"; OSet "x" VNull] "b" "x"
             eq_refl eq_refl ltac:(discriminate)).
  vm_compute. reflexivity.
Defined.

(** ** Key enumeration *)

(** [keys] enumerates exactly the tenant's own keys that match: for a tenant
    name without wildcards, a stored key without a literal asterisk is listed if
    and only if it is a key of this tenant whose local part matches the pattern. *)
Theorem keys_are_tenant_scoped s pat k :
  literal (tenant s) = true → no_char star_char k = true →
  k ∈ keys s pat ↔
  ∃ r, k = ns_key s r ∧ is_Some (get s r) ∧ glob_spec (chars pat) (chars r) = true.
Proof.
  intros Hl Hk. unfold keys, raw_keys. rewrite elem_of_filter_keys.
  destruct (glob_match_agrees (ns_key s pat) k Hk) as [_ ->].
  assert (literal ("ns:" +:+ tenant s +:+ ":") = true) as Hpre.
  { unfold literal, no_char in *. rewrite !all_chars_app. apply andb_true_iff in Hl as [-> ->]. done. }
  assert (∀ r, ns_key s r = ("ns:" +:+ tenant s +:+ ":") +:+ r) as Hns
    by (intros r; unfold ns_key; by rewrite !string_app_assoc).
  split.
  - intros [Hin Hg]. rewrite Hns, chars_app in Hg.
    apply glob_spec_literal_prefix in Hg as (r & Hr & Hg); [|done].
    apply chars_app_inv in Hr as ->. rewrite <- Hns in *. exists (of_chars r).
    split_and!; [done|done|by rewrite chars_of_chars].
  - intros (r & -> & Hv & Hg). split; [done|].
    rewrite !Hns, !(chars_app ("ns:" +:+ tenant s +:+ ":")). by apply glob_spec_prefix_app.
Qed.

Lemma keys_are_tenant_scoped_witness :
  let s := set new_in_memory "ticket:T-1:chat:forge" (VString "c") in
  "ns:default:ticket:T-1:chat:forge" ∈ keys s "ticket:*".
Proof.
  intros s. apply (keys_are_tenant_scoped s "ticket:*" "ns:default:ticket:T-1:chat:forge");
    [vm_compute; reflexivity | vm_compute; reflexivity |].
  exists "ticket:T-1:chat:forge". split_and!;
    [vm_compute; reflexivity | eexists; vm_compute; reflexivity | vm_compute; reflexivity].
Defined.

(** ** Leases *)

(** The lease on [key] is held by [token] and expires at [expiry]. *)
Definition holds (s : SharedStore) (key token : string) (expiry : u64) : Prop :=
  backend s !! ns_key s key = Some (lease token expiry).

(** A request against a lease that is not its holder's own release. *)
Inductive rival (key holder : string) (until : N) : store_op → Prop :=
  | rival_claim token ttl now : (now < until)%N → rival key holder until (OClaim key token ttl now)
  | rival_release token : token ≠ holder → rival key holder until (ORelease key token)
  | rival_other_claim k token ttl now : k ≠ key → rival key holder until (OClaim k token ttl now)
  | rival_other_release k token : k ≠ key → rival key holder until (ORelease k token)
  | rival_emit a t p now : rival key holder until (OEmit a t p now).

Lemma claim_blocked s key holder expiry token ttl now :
  holds s key holder expiry → (now < expiry)%N →
  ok (try_claim s key token ttl now) = None ∨ try_claim s key token ttl now = Ok (false, s).
Proof.
  unfold holds, try_claim. intros Hh Hn. destruct (0 <? ttl)%N; [|by left].
  destruct (_ <? U64_MOD)%N; [|by left]. right. rewrite Hh. unfold occupied, lease. simpl.
  by rewrite (proj2 (N.ltb_lt _ _) Hn).
Qed.

Lemma rival_keeps_lease s key holder expiry o :
  holds s key holder expiry → rival key holder expiry o → holds (exec s o) key holder expiry.
Proof.
  intros Hh Ho. destruct Ho as [token ttl now Hn|token Ht|k token ttl now Hk|k token Hk|]; simpl.
  - destruct (claim_blocked s key holder expiry token ttl now Hh Hn) as [-> | ->]; done.
  - unfold release_claim. rewrite Hh. unfold lease. simpl. rewrite bool_decide_eq_false_2 by congruence. done.
  - unfold try_claim, holds in *. repeat (case_match; simpl; try done).
    rewrite lookup_insert_ne; [done|]. intros E. exact (Hk (ns_key_inj s k key E)).
  - unfold release_claim, holds in *. case_match; simpl; [|done].
    rewrite lookup_delete_ne; [done|]. intros E. exact (Hk (ns_key_inj s k key E)).
  - done.
Qed.

(** C32. Leases are exclusive: once [try_claim] succeeds for a token, then however
    many rivals claim the same key before it expires, release it with other
    tokens, or work on other keys, the lease stays with its holder, every claim
    on it before the expiry reports failure, and the holder can still release it. *)
Theorem lease_is_exclusive s key holder ttl now s1 ops token2 ttl2 now2 :
  try_claim s key holder ttl now = Ok (true, s1) →
  Forall (rival key holder (now + ttl * 1000)) ops →
  (now2 < now + ttl * 1000)%N →
  let s2 := foldl exec s1 ops in
  holds s2 key holder (now + ttl * 1000) ∧
  (∀ s3, try_claim s2 key token2 ttl2 now2 ≠ Ok (true, s3)) ∧
  get (release_claim s2 key holder) key = None.
Proof.
  intros Hc Hops Hn s2.
  assert (holds s1 key holder (now + ttl * 1000)) as H1.
  { unfold try_claim in Hc. ensure_inv Hc. case_match; simplify_eq. unfold holds. simpl.
    by rewrite lookup_insert_eq. }
  assert (holds s2 key holder (now + ttl * 1000)) as H2.
  { unfold s2. clear -H1 Hops. revert s1 H1. induction Hops as [|o ops Ho _ IH]; intros s1 H1; [done|].
    simpl. apply IH. by apply rival_keeps_lease. }
  split_and!; [done| |].
  - intros s3 E'. destruct (claim_blocked s2 key holder _ token2 ttl2 now2 H2 Hn) as [E|E];
      by rewrite E' in E.
  - unfold release_claim, get, holds in *. rewrite H2. simpl.
    rewrite bool_decide_eq_true_2 by done. simpl. by rewrite lookup_delete_eq.
Qed.

Lemma lease_is_exclusive_witness :
  ∃ s1, try_claim new_in_memory "merge" "tok-1" 30 1000 = Ok (true, s1) ∧
        get (release_claim (foldl exec s1 [OClaim "merge" "tok-2" 30 2000; ORelease "merge" "tok-2"])
               "merge" "tok-1") "merge" = None.
Proof.
  assert (∃ s1, try_claim new_in_memory "merge" "tok-1" 30 1000 = Ok (true, s1)) as [s1 H]
    by (eexists; vm_compute; reflexivity).
  exists s1. split; [exact H|].
  refine (proj2 (proj2 (lease_is_exclusive _ "merge" "tok-1" 30 1000 s1
    [OClaim "merge" "tok-2" 30 2000; ORelease "merge" "tok-2"] "tok-3" 5 3000 H _ _))).
  - repeat constructor. discriminate.
  - vm_compute. reflexivity.
Defined.

(** ** Transitions *)

Lemma transition_Ok s t ver actor e now next s' :
  transition s t ver actor e now = Ok (next, s') →
  ∃ cur, lifecycle s t = Ok cur ∧ version cur = ver ∧ apply cur actor e now = Ok next ∧
         s' = set_backend (<[ns_key s (status_key t) := to_value next]> (backend s)) s.
Proof.
  unfold transition, lifecycle. intros H.
  apply result_bind_Ok in H as (cur & Hc & H). ensure_inv H. bsimp.
  apply result_bind_Ok in H as (n & Ha & [= <- <-]). eauto.
Qed.

Lemma apply_delivery_bound s actor e now s' :
  delivery_bound s → apply s actor e now = Ok s' → delivery_bound s'.
Proof.
  intros HB H. apply apply_Ok in H as (_ & _ & [[_ ->]|(next & H & ->)]); [done|].
  exact (dispatch_delivery_bound _ _ _ _ HB H).
Qed.

Lemma apply_version s actor e now s' :
  apply s actor e now = Ok s' → s' = s ∨ version s' = u64_succ (version s).
Proof.
  intros H. apply apply_Ok in H as (_ & _ & [[_ ->]|(next & H & ->)]); [by left|right].
  simpl. f_equal. exact (proj1 (dispatch_bookkeeping _ _ _ _ H)).
Qed.

Lemma u64_succ_ne n : u64_succ n ≠ n.
Proof.
  unfold u64_succ. intros E. pose proof (N.mod_lt (n + 1) U64_MOD ltac:(done)) as L.
  rewrite E in L. destruct (decide (n + 1 = U64_MOD)%N) as [H|H].
  - rewrite H in E. vm_compute in E. subst n. by vm_compute in H.
  - rewrite N.mod_small in E; lia.
Qed.

Lemma lifecycle_after_transition s t ver actor e now next s' :
  transition s t ver actor e now = Ok (next, s') → lifecycle s' t = Ok next.
Proof.
  intros H. apply transition_Ok in H as (cur & Hc & _ & Ha & ->).
  unfold lifecycle. change (ns_key (set_backend _ s) _) with (ns_key s (status_key t)).
  simpl. rewrite lookup_insert_eq. apply decode_to_value.
  eapply apply_delivery_bound; [|exact Ha]. by eapply decode_delivery_bound.
Qed.

(** C23. A transition is a compare-and-set on one ticket: it commits only when
    the stored version is the one the caller saw and the state machine accepts
    the event, the next read returns exactly the record it returned, no other
    key of the store changes, and unless it was a retry that changed nothing no
    second transition can succeed against the same version, so of two competing
    updates at most one commits. *)
Theorem transition_is_compare_and_set s t ver actor e now next s' :
  transition s t ver actor e now = Ok (next, s') →
  (∃ cur, lifecycle s t = Ok cur ∧ version cur = ver ∧ apply cur actor e now = Ok next) ∧
  lifecycle s' t = Ok next ∧
  (∀ k, k ≠ status_key t → get s' k = get s k) ∧
  (lifecycle s t ≠ Ok next →
   ∀ actor' e' now' r, transition s' t ver actor' e' now' ≠ Ok r).
Proof.
  intros H. pose proof (lifecycle_after_transition _ _ _ _ _ _ _ _ H) as Hnext.
  apply transition_Ok in H as (cur & Hc & Hv & Ha & ->). split_and!; [by eauto|done| |].
  - intros k Hk. unfold get. change (ns_key (set_backend _ s) k) with (ns_key s k). simpl.
    apply lookup_insert_ne. intros E. apply Hk. symmetry. exact (ns_key_inj s _ _ E).
  - intros Hne actor' e' now' [n2 s2] H2.
    apply transition_Ok in H2 as (cur2 & Hc2 & Hv2 & _ & _).
    rewrite Hnext in Hc2. simplify_eq.
    destruct (apply_version _ _ _ _ _ Ha) as [->|E]; [done|].
    rewrite E in Hv2. by apply u64_succ_ne in Hv2.
Qed.

Lemma transition_is_compare_and_set_witness :
  ∃ next s', transition new_in_memory "T-1" 0 "forge" (Plan "p") 5 = Ok (next, s') ∧
     ∀ r, transition s' "T-1" 0 "forge" (Plan "p") 6 ≠ Ok r.
Proof.
  assert (∃ r, transition new_in_memory "T-1" 0 "forge" (Plan "p") 5 = Ok r)
    as [[next s'] H] by (eexists; vm_compute; reflexivity).
  exists next, s'. split; [exact H|]. intros r.
  apply (transition_is_compare_and_set _ _ _ _ _ _ _ _ H).
  vm_compute in H. injection H as <- <-. vm_compute. discriminate.
Defined.


(** ** Event log *)

(** What a run of [emit]s leaves in the log. *)
Definition emit_all (s : SharedStore) (evs : list StoreEvent) : SharedStore :=
  foldl (λ s e, emit s (ev_agent e) (ev_type e) (ev_payload e) (ev_ts e)) s evs.

Lemma emit_ring s e :
  length (ring_buffer s) ≤ RING_BUFFER_SIZE →
  ring_buffer (emit s (ev_agent e) (ev_type e) (ev_payload e) (ev_ts e)) =
    drop (length (ring_buffer s ++ [e]) - RING_BUFFER_SIZE) (ring_buffer s ++ [e]).
Proof.
  intros Hs. destruct e as [a ty p ts]. unfold emit. cbn [ring_buffer set_ring_buffer ev_agent ev_type ev_payload ev_ts].
  rewrite length_app. cbn [length].
  destruct (RING_BUFFER_SIZE <=? length (ring_buffer s)) eqn:E.
  - apply Nat.leb_le in E. replace (length _ + 1 - RING_BUFFER_SIZE) with 1 by lia.
    destruct (ring_buffer s); [unfold RING_BUFFER_SIZE in E; cbn [length] in E; lia|done].
  - apply Nat.leb_gt in E. by rewrite (proj2 (Nat.sub_0_le _ _)) by lia.
Qed.

Lemma emit_all_ring evs : ∀ s,
  length (ring_buffer s) ≤ RING_BUFFER_SIZE →
  ring_buffer (emit_all s evs) =
    drop (length (ring_buffer s ++ evs) - RING_BUFFER_SIZE) (ring_buffer s ++ evs).
Proof.
  induction evs as [|e evs IH]; intros s Hs.
  - rewrite app_nil_r. by rewrite (proj2 (Nat.sub_0_le _ _)) by lia.
  - change (emit_all s (e :: evs))
      with (emit_all (emit s (ev_agent e) (ev_type e) (ev_payload e) (ev_ts e)) evs).
    rewrite IH; rewrite emit_ring by done; [|rewrite length_drop; lia].
    change (e :: evs) with ([e] ++ evs). rewrite (assoc_L (++)).
    rewrite <- drop_app_le by lia. rewrite drop_drop, length_drop. f_equal.
    rewrite (length_app (_ ++ _)). lia.
Qed.

(** The event log is a bounded FIFO: after any run of events it holds the
    most recent thousand of them in order, never more, and nothing else; and
    reading from a cursor returns exactly the entries past it. *)
Theorem event_log_keeps_the_latest t evs cursor :
  let s := emit_all (new_in_memory_with_tenant t) evs in
  let kept := drop (length evs - RING_BUFFER_SIZE) evs in
  ring_buffer s = kept ∧ event_count s ≤ RING_BUFFER_SIZE ∧
  get_events_since s cursor = drop cursor kept ∧
  get_events_since s (event_count s) = [].
Proof.
  intros s kept.
  assert (ring_buffer s = kept) as Hr by (unfold s; rewrite emit_all_ring; [done|simpl; lia]).
  unfold event_count, get_events_since. rewrite Hr, Nat.leb_refl. split_and!; [done| | |done].
  - unfold kept. rewrite length_drop. lia.
  - destruct (_ <=? _) eqn:E; [|done]. apply Nat.leb_le in E. by rewrite (drop_ge kept cursor E).
Qed.
