(* ===== verification/StoreInterface.v ===== *)
(** * The store as its clients see it

    The key-value operations of [SharedStore] that agents, gates and hooks use,
    as a type class with their laws, so that a client's theorems hold of any
    store that keeps them.  [SharedStore] discharges the laws. *)
From S2P Require Import Prelude Json Store.

Class KvStore (S : Type) := {
  kv_get : S → string → option Value;
  kv_set : S → string → Value → S;
  kv_del : S → string → S;
  kv_emit : S → string → string → Value → u64 → S;
}.

Class KvLaws (S : Type) `{KvStore S} := {
  kv_get_set_eq s k v : kv_get (kv_set s k v) k = Some v;
  kv_get_set_ne s k k' v : k ≠ k' → kv_get (kv_set s k v) k' = kv_get s k';
  kv_get_del_eq s k : kv_get (kv_del s k) k = None;
  kv_get_del_ne s k k' : k ≠ k' → kv_get (kv_del s k) k' = kv_get s k';
  kv_get_emit s a t p now k : kv_get (kv_emit s a t p now) k = kv_get s k;
}.

#[export] Instance shared_store_kv : KvStore SharedStore :=
  {| kv_get := get; kv_set := set; kv_del := del; kv_emit := emit |}.
#[export] Instance shared_store_laws : KvLaws SharedStore :=
  {| kv_get_set_eq := get_set_eq; kv_get_set_ne := get_set_ne;
     kv_get_del_eq := get_del_eq; kv_get_del_ne := get_del_ne; kv_get_emit := get_emit |}.

Section typed.
Context {S : Type} `{KvLaws S} {A : Type} `{Serde A, !SerdeLaws A}.

(** [SharedStore::get_typed] and [SharedStore::set_typed] over the interface. *)
Definition kv_get_typed (s : S) (k : string) : option A := v ← kv_get s k; ok (from_value v).
Definition kv_set_typed (s : S) (k : string) (a : A) : S := kv_set s k (to_value a).

Lemma kv_get_typed_set_eq s k (a : A) : kv_get_typed (kv_set_typed s k a) k = Some a.
Proof.
  unfold kv_get_typed, kv_set_typed. rewrite kv_get_set_eq. cbn. by rewrite from_to_value.
Qed.

Lemma kv_get_typed_ext s s' k : kv_get s k = kv_get s' k → kv_get_typed s k = kv_get_typed s' k.
Proof. unfold kv_get_typed. by intros ->. Qed.

Lemma kv_get_typed_del s k : kv_get_typed (kv_del s k) k = None.
Proof. unfold kv_get_typed. by rewrite kv_get_del_eq. Qed.
End typed.

(** [kv_simpl] reads a key through a chain of writes, with the inequalities
    of the keys found by [congruence] or among the hypotheses. *)
Create HintDb kv_keys.
Ltac kv_simpl :=
  repeat first
    [ rewrite kv_get_set_eq
    | rewrite kv_get_del_eq
    | rewrite kv_get_emit
    | rewrite kv_get_set_ne by (solve [auto with kv_keys | congruence])
    | rewrite kv_get_del_ne by (solve [auto with kv_keys | congruence]) ].
