(* ===== verification/RedisProps.v ===== *)
(** * The Redis backend implements the in-memory store

    Every interleaving of optimistic transitions and writes is a sequence of
    the atomic operations of [Store]; enumeration through the key index agrees
    with the in-memory enumeration. *)
From S2P Require Import Prelude Text Json Glob Lifecycle LifecycleFacts LifecycleCodec Store RedisCas ValueCodec.

Section refinement.
Variable print : Value → string.
Variable parse : string → result Value.
Variable tenant : string.

(** [serde_json]: what it prints it parses back, and the empty text is an
    error. *)
Hypothesis parse_print : ∀ v, parse (print v) = Ok v.
Hypothesis parse_empty : is_ok (parse "") = false.

(** ** What a database stores *)

Definition stored (x : RVal) : option Value :=
  match x with
  | RStr s => ok (parse s)
  | RSet _ => None
  end.

(** The in-memory store a database stands for. *)
Definition abs (r : redis) : SharedStore := mkStore (omap stored r) [] tenant.

Notation rkey := (rkey tenant).

Lemma ns_key_abs r k : ns_key (abs r) k = rkey k.
Proof. done. Qed.

Lemma abs_SET k s v r :
  parse s = Ok v → abs (SET k s r) = set_backend (<[k := v]> (backend (abs r))) (abs r).
Proof.
  intros Hs. unfold abs, SET, set_backend. cbn [backend ring_buffer Store.tenant]. f_equal.
  apply omap_insert_Some. cbn [stored]. by rewrite Hs.
Qed.

Lemma abs_DEL k r : abs (DEL k r) = set_backend (delete k (backend (abs r))) (abs r).
Proof. unfold abs, DEL, set_backend. cbn [backend ring_buffer Store.tenant]. f_equal. apply omap_delete. Qed.

Lemma omap_set_slot k g (r : redis) :
  omap stored r !! k = None → omap stored (<[k := RSet g]> r) = omap stored r.
Proof.
  intros H. apply map_eq. intros i. rewrite !lookup_omap in *.
  destruct (decide (k = i)) as [->|Hne].
  - by rewrite lookup_insert_eq, H.
  - by rewrite lookup_insert_ne.
Qed.

Lemma abs_SADD k x r : abs (SADD k x r) = abs r.
Proof.
  unfold abs, SADD. f_equal.
  destruct (r !! k) as [[s|g]|] eqn:E; [done|apply omap_set_slot..]; by rewrite lookup_omap, E.
Qed.

Lemma abs_SREM k x r : abs (SREM k x r) = abs r.
Proof.
  unfold abs, SREM. f_equal. destruct (r !! k) as [[s|g]|] eqn:E; [done| |done].
  assert (omap stored r !! k = None) as Hk by (by rewrite lookup_omap, E).
  case_bool_decide; [|by apply omap_set_slot]. rewrite omap_delete. by apply delete_id.
Qed.

Lemma abs_set key v r : abs (redis_set print tenant key v r) = set (abs r) key v.
Proof.
  unfold redis_set. destruct (tenant_index_key _); rewrite ?abs_SADD; by apply abs_SET.
Qed.

Lemma abs_del key r : abs (redis_del tenant key r) = del (abs r) key.
Proof. unfold redis_del. destruct (tenant_index_key _); rewrite ?abs_SREM; apply abs_DEL. Qed.

Lemma GET_abs k r raw : GET k r = Ok raw → backend (abs r) !! k = (raw ≫= λ s, ok (parse s)).
Proof.
  unfold GET, abs. cbn [backend]. rewrite lookup_omap. intros H.
  by destruct (r !! k) as [[s|g]|]; simplify_eq/=.
Qed.

(** ** Attempts *)

(** What an attempt knows: its answer follows from the text it read. *)
Definition sound_attempt (a : Attempt) : Prop :=
  ∃ v cur, parse_raw parse (a_raw a) = Ok v ∧ decode v = Ok cur ∧ version cur = a_version a ∧
           apply cur (a_actor a) (a_event a) (a_now a) = Ok (a_next a).

Lemma attempt_sound ticket ver actor e now r a :
  attempt parse tenant ticket ver actor e now r = Ok a → sound_attempt a.
Proof.
  unfold attempt. intros H.
  apply result_bind_Ok in H as (raw & _ & H). apply result_bind_Ok in H as (v & Hv & H).
  apply result_bind_Ok in H as (cur & Hc & H). ensure_inv H. bsimp.
  apply result_bind_Ok in H as (next & Ha & [= <-]). exists v, cur. done.
Qed.

(** The text a script accepts stands for the value the attempt read. *)
Lemma accepted_text raw old v :
  parse_raw parse raw = Ok v → from_option id "" old = from_option id "" raw →
  (old ≫= λ s, ok (parse s)) = v.
Proof.
  intros Hv E.
  assert (ok (parse "") = None) as Hempty by (by destruct (parse "")).
  destruct raw as [s|]; cbn in Hv, E.
  - apply result_fmap_Ok in Hv as (v' & Hs & ->).
    destruct old as [s'|]; cbn in E; subst.
    + cbn. by rewrite Hs.
    + by rewrite Hs in Hempty.
  - simplify_eq. by destruct old as [s'|]; cbn in E; subst.
Qed.

Lemma script_is_atomic a r n r' :
  sound_attempt a → run_script print tenant a r = Ok (n, r') →
  (n = 1%N ∧ transition (abs r) (a_ticket a) (a_version a) (a_actor a) (a_event a) (a_now a)
             = Ok (a_next a, abs r')) ∨
  (n = 0%N ∧ r' = r).
Proof.
  intros (v & cur & Hv & Hc & Hver & Ha) H. unfold run_script, cas_script in H.
  apply result_bind_Ok in H as (old & Hg & H).
  case_bool_decide as E; simplify_eq; [left|by right]. split; [done|].
  unfold transition. rewrite ns_key_abs, (GET_abs _ _ _ Hg), (accepted_text _ _ _ Hv E), Hc. cbn.
  rewrite bool_decide_eq_true_2 by done. rewrite Ha. cbn.
  by rewrite (abs_SET _ _ (to_value (a_next a))).
Qed.

(** ** Refinement *)

(** The atomic store, as a client of it observes: an attempt that was told
    [Ok] is an atomic transition with that result, one that was told an error
    changed nothing, and one whose reply was lost is either. *)
Inductive astep : SharedStore → command → SharedStore → Prop :=
  | a_begin s t ver actor e now : astep s (Begin t ver actor e now) s
  | a_commit s a s' :
      transition s (a_ticket a) (a_version a) (a_actor a) (a_event a) (a_now a) =
        Ok (a_next a, s') →
      astep s (Conclude a (Ok (a_next a))) s'
  | a_refused s a answer : is_ok answer = false → astep s (Conclude a answer) s
  | a_lost_commit s a s' :
      transition s (a_ticket a) (a_version a) (a_actor a) (a_event a) (a_now a) =
        Ok (a_next a, s') →
      astep s (Lost a) s'
  | a_lost_refused s a : astep s (Lost a) s
  | a_write s key v : astep s (Write key v) (set s key v)
  | a_delete s key : astep s (Delete key) (del s key).

Inductive asteps : SharedStore → list command → SharedStore → Prop :=
  | asteps_nil s : asteps s [] s
  | asteps_cons s1 l s2 ls s3 : astep s1 l s2 → asteps s2 ls s3 → asteps s1 (l :: ls) s3.

Lemma conclude_refines a r :
  sound_attempt a →
  astep (abs r) (Conclude a (conclude print tenant a r).1) (abs (conclude print tenant a r).2).
Proof.
  intros Ha. unfold conclude. destruct (run_script print tenant a r) as [[n r']|e|] eqn:E;
    [|by constructor..].
  destruct (script_is_atomic a r n r' Ha E) as [[-> H]|[-> ->]]; cbn [fst snd].
  - rewrite bool_decide_eq_true_2 by done. cbn [fst snd].
    destruct (tenant_index_key _); rewrite ?abs_SADD; by constructor.
  - rewrite bool_decide_eq_false_2 by done. by constructor.
Qed.

Lemma step_refines c l c' :
  Forall sound_attempt (in_flight c) → step print parse tenant c l c' →
  astep (abs (server c)) l (abs (server c')) ∧ Forall sound_attempt (in_flight c').
Proof.
  intros HF Hs. destruct Hs as [c t ver actor e now a H|c t ver actor e now H
    |c l1 a l2 Hin|c l1 a l2 n r' Hin H|c key v|c key]; cbn [server in_flight].
  - split; [constructor|]. constructor; [by eapply attempt_sound|done].
  - split; [constructor|done].
  - rewrite Hin, Forall_app, Forall_cons in HF. destruct HF as (H1 & Ha & H2).
    split; [by apply conclude_refines|by apply Forall_app].
  - rewrite Hin, Forall_app, Forall_cons in HF. destruct HF as (H1 & Ha & H2).
    split; [|by apply Forall_app].
    destruct (script_is_atomic a _ n r' Ha H) as [[_ Ht]|[_ ->]]; by constructor.
  - split; [|done]. rewrite abs_set. constructor.
  - split; [|done]. rewrite abs_del. constructor.
Qed.

(** C17. Optimistic transitions are linearizable: however the reads, the
    compare-and-set scripts, the lost replies and the plain writes of any
    number of clients interleave on the Redis server, what the clients are
    told and what the server stores is a run of the in-memory store whose
    transitions are atomic, in the order the scripts ran. *)
Theorem redis_transitions_linearize c ls c' :
  in_flight c = [] → steps print parse tenant c ls c' →
  asteps (abs (server c)) ls (abs (server c')).
Proof.
  intros Hin Hs. assert (Forall sound_attempt (in_flight c)) as HF by (by rewrite Hin).
  clear Hin. induction Hs as [c|c1 l c2 ls c3 Hl _ IH]; [constructor|].
  destruct (step_refines _ _ _ HF Hl) as [Ha HF']. econstructor; [exact Ha|by apply IH].
Qed.

(** ** The key index *)

Hypothesis tenant_no_colon : no_char ":" tenant = true.

Notation index := (rkey "_keys").

Lemma index_of k : tenant_index_key (rkey k) = Some index.
Proof. exact (tenant_index_key_ns (new_in_memory_with_tenant tenant) k tenant_no_colon). Qed.

Lemma rkey_inj k k' : rkey k = rkey k' → k = k'.
Proof. exact (ns_key_inj (new_in_memory_with_tenant tenant) k k'). Qed.

(** The index lists exactly the tenant's string keys, all of which parse, and
    it is the tenant's only set. *)
Record Indexed (r : redis) : Prop := {
  idx_slot : r !! index = None ∨ ∃ g, r !! index = Some (RSet g);
  idx_exact k : k ∈ SMEMBERS index r ↔ ∃ key s v, k = rkey key ∧ r !! k = Some (RStr s) ∧ parse s = Ok v;
  idx_strings key x : key ≠ "_keys" → r !! rkey key = Some x → ∃ s v, x = RStr s ∧ parse s = Ok v;
}.

Lemma Indexed_empty : Indexed ∅.
Proof.
  constructor; [by left| |by intros ???].
  intros k. unfold SMEMBERS. rewrite lookup_empty, elem_of_nil. split; [done|].
  by intros (key & s & v & _ & H & _).
Qed.

Lemma SMEMBERS_SADD k x r y :
  (∀ s, r !! k ≠ Some (RStr s)) → y ∈ SMEMBERS k (SADD k x r) ↔ y = x ∨ y ∈ SMEMBERS k r.
Proof.
  intros H. unfold SMEMBERS, SADD. destruct (r !! k) as [[s|g]|]; [by destruct (H s)|..];
    rewrite lookup_insert_eq, !elem_of_elements, ?elem_of_union, ?elem_of_singleton, ?elem_of_nil;
    tauto.
Qed.

Lemma SADD_slot k x r : (∀ s, r !! k ≠ Some (RStr s)) → ∃ g, SADD k x r !! k = Some (RSet g).
Proof.
  intros H. unfold SADD. destruct (r !! k) as [[s|g]|]; [by destruct (H s)|..];
    rewrite lookup_insert_eq; eauto.
Qed.

Lemma SADD_ne k x r i : i ≠ k → SADD k x r !! i = r !! i.
Proof.
  intros H. unfold SADD. destruct (r !! k) as [[s|g]|]; [done|..]; by rewrite lookup_insert_ne.
Qed.

Lemma SMEMBERS_SREM k x r y : y ∈ SMEMBERS k (SREM k x r) ↔ y ≠ x ∧ y ∈ SMEMBERS k r.
Proof.
  unfold SMEMBERS, SREM. destruct (r !! k) as [[s|g]|] eqn:E.
  - rewrite E, elem_of_nil. tauto.
  - case_bool_decide as Hg.
    + rewrite lookup_delete_eq, elem_of_nil, elem_of_elements.
      assert (y ∉ g ∖ {[x]}) as Hy by (rewrite Hg; apply not_elem_of_empty).
      rewrite elem_of_difference, elem_of_singleton in Hy. tauto.
    + rewrite lookup_insert_eq, !elem_of_elements, elem_of_difference, elem_of_singleton. tauto.
  - rewrite E, elem_of_nil. tauto.
Qed.

Lemma SREM_slot k x r :
  SREM k x r !! k = r !! k ∨ SREM k x r !! k = None ∨ ∃ g, SREM k x r !! k = Some (RSet g).
Proof.
  unfold SREM. destruct (r !! k) as [[s|g]|] eqn:E; rewrite ?E; [by left| |by left].
  right. case_bool_decide; [left; apply lookup_delete_eq|right; rewrite lookup_insert_eq; eauto].
Qed.

Lemma SREM_ne k x r i : i ≠ k → SREM k x r !! i = r !! i.
Proof.
  intros H. unfold SREM. destruct (r !! k) as [[s|g]|]; [done| |done].
  case_bool_decide; [by rewrite lookup_delete_ne|by rewrite lookup_insert_ne].
Qed.

Lemma Indexed_not_str r s : Indexed r → r !! index ≠ Some (RStr s).
Proof. intros HI. destruct (idx_slot r HI) as [->|[g ->]]; done. Qed.

Lemma SMEMBERS_ext k r r' : r !! k = r' !! k → SMEMBERS k r = SMEMBERS k r'.
Proof. unfold SMEMBERS. by intros ->. Qed.

(** Storing a text that parses and indexing its key. *)
Lemma Indexed_store r key s v :
  Indexed r → key ≠ "_keys" → parse s = Ok v →
  Indexed (SADD index (rkey key) (SET (rkey key) s r)).
Proof.
  intros HI Hk Hp.
  assert (rkey key ≠ index) as Hne by (by intros ?%rkey_inj).
  assert (SET (rkey key) s r !! index = r !! index) as Hi by (unfold SET; by rewrite lookup_insert_ne).
  assert (∀ t, SET (rkey key) s r !! index ≠ Some (RStr t)) as Hns
    by (intros t; rewrite Hi; by apply Indexed_not_str).
  assert (∀ k, k ≠ index → SADD index (rkey key) (SET (rkey key) s r) !! k =
             if decide (k = rkey key) then Some (RStr s) else r !! k) as Hl.
  { intros k Hk'. rewrite SADD_ne by done. unfold SET. destruct (decide (k = rkey key)) as [->|Hx].
    - by rewrite lookup_insert_eq.
    - by rewrite lookup_insert_ne. }
  constructor.
  - right. by apply SADD_slot.
  - intros k. rewrite SMEMBERS_SADD, (SMEMBERS_ext _ _ _ Hi), (idx_exact r HI) by done.
    destruct (decide (k = index)) as [->|Hki].
    + destruct (SADD_slot index (rkey key) (SET (rkey key) s r) Hns) as [g Hg].
      rewrite Hg. split; [|naive_solver].
      intros [?|(key' & s' & v' & _ & H & _)]; [congruence|]. by apply Indexed_not_str in H.
    + rewrite (Hl k Hki). destruct (decide (k = rkey key)) as [->|Hx]; [|naive_solver].
      split; [intros _; by exists key, s, v|by left].
  - intros key' x Hk' H. rewrite Hl in H by (by intros ?%rkey_inj).
    destruct (decide (rkey key' = rkey key)); [naive_solver|by eapply idx_strings].
Qed.

Lemma Indexed_remove r key :
  Indexed r → key ≠ "_keys" → Indexed (SREM index (rkey key) (DEL (rkey key) r)).
Proof.
  intros HI Hk.
  assert (rkey key ≠ index) as Hne by (by intros ?%rkey_inj).
  assert (DEL (rkey key) r !! index = r !! index) as Hi by (unfold DEL; by rewrite lookup_delete_ne).
  assert (∀ k, k ≠ index → SREM index (rkey key) (DEL (rkey key) r) !! k =
             if decide (k = rkey key) then None else r !! k) as Hl.
  { intros k Hk'. rewrite SREM_ne by done. unfold DEL. destruct (decide (k = rkey key)) as [->|Hx].
    - by rewrite lookup_delete_eq.
    - by rewrite lookup_delete_ne. }
  assert (SREM index (rkey key) (DEL (rkey key) r) !! index = None ∨
          ∃ g, SREM index (rkey key) (DEL (rkey key) r) !! index = Some (RSet g)) as Hs.
  { destruct (SREM_slot index (rkey key) (DEL (rkey key) r)) as [->|?]; [|done].
    rewrite Hi. by apply idx_slot. }
  constructor.
  - done.
  - intros k. rewrite SMEMBERS_SREM, (SMEMBERS_ext _ _ _ Hi), (idx_exact r HI) by done.
    destruct (decide (k = index)) as [->|Hki].
    + split.
      * intros [_ (key' & s' & v' & _ & H & _)]. by apply Indexed_not_str in H.
      * intros (key' & s' & v' & _ & H & _). rewrite H in Hs. naive_solver.
    + rewrite (Hl k Hki). destruct (decide (k = rkey key)) as [->|Hx]; naive_solver.
  - intros key' x Hk' H. rewrite Hl in H by (by intros ?%rkey_inj).
    destruct (decide (rkey key' = rkey key)); [done|by eapply idx_strings].
Qed.

(** Writes and deletions of the tenant, in order. *)
Definition write_all (ops : list (string * option Value)) (r : redis) : redis :=
  foldl (λ r '(k, o), match o with
                      | Some v => redis_set print tenant k v r
                      | None => redis_del tenant k r
                      end) r ops.

Lemma Indexed_write_all ops : ∀ r,
  Indexed r → Forall (λ op, op.1 ≠ "_keys") ops → Indexed (write_all ops r).
Proof.
  induction ops as [|[k o] ops IH]; intros r HI HF; [done|].
  inversion HF as [|x l Hk HF']; subst. cbn [fst] in Hk. cbn. apply IH; [|done].
  destruct o as [v|]; [unfold redis_set|unfold redis_del]; rewrite index_of.
  - exact (Indexed_store _ _ _ v HI Hk (parse_print v)).
  - by apply Indexed_remove.
Qed.

(** On an indexed database the index answers as a scan would, and a scan
    finds nothing it missed. *)
Lemma scan_finds_indexed r pat k :
  Indexed r → literal tenant = true → (∀ k x, r !! k = Some x → no_char star_char k = true) →
  glob_match (rkey pat) index = false → k ∈ scan_keys (rkey pat) r →
  k ∈ SMEMBERS index r.
Proof.
  intros HI Hl Hstar Hni Hk. unfold scan_keys in Hk. apply elem_of_filter_keys in Hk as [[x Hx] Hg].
  destruct (glob_match_agrees (rkey pat) k (Hstar k x Hx)) as [_ E]. rewrite Hg in E.
  assert (literal ("ns:" +:+ tenant +:+ ":") = true) as Hpre.
  { unfold literal, no_char in *. rewrite !all_chars_app. apply andb_true_iff in Hl as [-> ->]. done. }
  assert (∀ r, rkey r = ("ns:" +:+ tenant +:+ ":") +:+ r) as Hns
    by (intros q; unfold RedisCas.rkey; by rewrite !string_app_assoc).
  rewrite Hns, chars_app in E.
  destruct (glob_spec_literal_prefix _ _ _ Hpre (eq_sym E)) as (q & Hq & _).
  apply chars_app_inv in Hq as ->. rewrite <- Hns in *.
  destruct (decide (of_chars q = "_keys")) as [Eq|Hne]; [rewrite Eq in Hg; congruence|].
  destruct (idx_strings r HI _ _ Hne Hx) as (s & v & -> & Hp).
  apply (idx_exact r HI). eauto 6.
Qed.

Lemma backfill_nil p i : ∀ ks m (r : redis),
  (∀ k, k ∈ ks → glob_match p k = false) → backfill p i ks m r = (m, r).
Proof.
  induction ks as [|k ks IH]; intros m r H; [done|]. cbn [backfill].
  rewrite (H k) by set_solver. cbn [andb]. apply IH. set_solver.
Qed.

Lemma redis_keys_indexed r pat :
  Indexed r → literal tenant = true → (∀ k x, r !! k = Some x → no_char star_char k = true) →
  glob_match (rkey pat) index = false →
  redis_keys (rkey pat) r = (List.filter (glob_match (rkey pat)) (SMEMBERS index r), r).
Proof.
  intros HI Hl Hstar Hni. unfold redis_keys. rewrite index_of.
  case_bool_decide as E; [|done]. rewrite E.
  destruct (scan_keys (rkey pat) r) as [|k ks] eqn:Hs; [done|].
  assert (k ∈ scan_keys (rkey pat) r) as Hk by (rewrite Hs; set_solver).
  pose proof (scan_finds_indexed r pat k HI Hl Hstar Hni Hk) as Hm.
  unfold scan_keys in Hk. apply elem_of_filter_keys in Hk as [_ Hg].
  assert (k ∈ List.filter (glob_match (rkey pat)) (SMEMBERS index r)) as Hin.
  { rewrite list_elem_of_In, filter_In, <- list_elem_of_In. done. }
  rewrite E in Hin. by apply elem_of_nil in Hin.
Qed.

(** Enumerating keys through the tenant's index is as good as scanning:
    after any writes and deletions on a consistent database (the empty one is)
    the index is consistent again, and [keys] answers exactly the keys that
    the in-memory store would, without needing the scan that tenant users are
    denied and without changing the database.  (The pattern must not match the
    index's own name, and no key may contain an asterisk.) *)
Theorem redis_keys_agree_with_memory r ops pat :
  Indexed r → literal tenant = true → Forall (λ op, op.1 ≠ "_keys") ops →
  glob_match (rkey pat) index = false →
  (∀ k x, write_all ops r !! k = Some x → no_char star_char k = true) →
  let r' := write_all ops r in
  Indexed r' ∧ (redis_keys (rkey pat) r').2 = r' ∧
  ∀ k, k ∈ (redis_keys (rkey pat) r').1 ↔ k ∈ keys (abs r') pat.
Proof.
  intros HI Hl HF Hni Hstar r'. assert (Indexed r') as HI' by (by apply Indexed_write_all).
  rewrite redis_keys_indexed by done. cbn [fst snd]. split_and!; [done|done|]. intros k.
  unfold keys, raw_keys. rewrite ns_key_abs, elem_of_filter_keys.
  rewrite list_elem_of_In, filter_In, <- list_elem_of_In, (idx_exact r' HI').
  unfold abs. cbn [backend]. rewrite lookup_omap. split.
  - intros [(key & s & v & -> & Hs & Hp) Hg]. split; [|done]. rewrite Hs. cbn. rewrite Hp. by eexists.
  - intros [Hv Hg]. split; [|done]. apply (idx_exact r' HI').
    apply (scan_finds_indexed r' pat k HI' Hl Hstar Hni).
    unfold scan_keys. apply elem_of_filter_keys. split; [|done].
    destruct (r' !! k); [by eexists|by destruct Hv].
Qed.
End refinement.

(** ** Witnesses *)

Lemma redis_transitions_linearize_witness :
  ∃ a next, asteps (abs parse0 "acme" ∅)
    [Begin "T-1" 0 "forge" (Plan "p") 5; Conclude a (Ok next)] 
    (abs parse0 "acme" (conclude print0 "acme" a ∅).2).
Proof.
  assert (∃ a, attempt parse0 "acme" "T-1" 0 "forge" (Plan "p") 5 ∅ = Ok a ∧ a_raw a = None ∧
               a_ticket a = "T-1") as (a & Ha & Hr & Ht)
    by (eexists; split_and!; vm_compute; reflexivity).
  exists a, (a_next a).
  assert ((conclude print0 "acme" a ∅).1 = Ok (a_next a)) as E.
  { unfold conclude, run_script. rewrite Hr, Ht. reflexivity. }
  rewrite <- E.
  refine (redis_transitions_linearize print0 parse0 "acme" parse0_print0 _
    (mkCluster ∅ []) _ (mkCluster (conclude print0 "acme" a ∅).2 []) _ _).
  - reflexivity.
  - reflexivity.
  - eapply steps_cons; [exact (step_begin print0 parse0 "acme" (mkCluster ∅ []) _ _ _ _ _ a Ha)|].
    eapply steps_cons; [|apply steps_nil].
    exact (step_conclude print0 parse0 "acme" (mkCluster ∅ [a]) [] a [] eq_refl).
Defined.

Lemma redis_keys_agree_with_memory_witness :
  "ns:acme:ticket:T-1:plan" ∈
    (redis_keys (rkey "acme" "ticket:*")
       (write_all print0 "acme" [("ticket:T-1:plan", Some VNull)] ∅)).1 ↔
  "ns:acme:ticket:T-1:plan" ∈
    keys (abs parse0 "acme" (write_all print0 "acme" [("ticket:T-1:plan", Some VNull)] ∅)) "ticket:*".
Proof.
  refine (proj2 (proj2 (redis_keys_agree_with_memory print0 parse0 "acme" parse0_print0
    _ _ ∅ [("ticket:T-1:plan", Some VNull)] "ticket:*" _ _ _ _ _)) "ns:acme:ticket:T-1:plan").
  - reflexivity.
  - reflexivity.
  - apply Indexed_empty.
  - reflexivity.
  - repeat constructor. discriminate.
  - vm_compute. reflexivity.
  - intros k x Hk. unfold write_all in Hk. cbn [foldl] in Hk. unfold redis_set in Hk.
    assert (k = rkey "acme" "ticket:T-1:plan" ∨ k = "ns:acme:_keys") as [->| ->];
      [|reflexivity|reflexivity].
    destruct (decide (k = rkey "acme" "ticket:T-1:plan")) as [|H1]; [by left|].
    destruct (decide (k = "ns:acme:_keys")) as [|H2]; [by right|]. exfalso.
    change (tenant_index_key (rkey "acme" "ticket:T-1:plan")) with (Some "ns:acme:_keys") in Hk.
    cbn beta iota in Hk. rewrite SADD_ne in Hk by done. unfold SET in Hk.
    rewrite lookup_insert_ne in Hk by done. discriminate Hk.
Defined.
