(* ===== verification/Flow.v ===== *)
(** * Nodes and flows: the orchestration loop

    Models [src/crates/pocketflow-core/src/node.rs] (the three-phase [Node]),
    [batch.rs] (the [BatchNode] and its blanket [Node] implementation),
    [action.rs] and [flow.rs] (the [Flow] that routes actions between nodes).

    The trait's required methods are implemented by the agents, so a node is a
    record of arbitrary effectful functions.  The world they act on is the
    shared store and everything else (processes, the network, the clock) as an
    abstract state [E]. *)
From S2P Require Import Prelude Text Json Store.

(** ** Actions *)

(** [Action]: a label, compared as a string. *)
Abbreviation Action := string (only parsing).

Definition NO_TICKETS : Action := "no_tickets".
Definition STOP_SIGNAL : Action := "__stop__".
Definition PAUSE_SIGNAL : Action := "__pause__".

Section flow.
Context {E : Type}.

(** A reading of the system clock, in milliseconds. *)
Variable clock : E → u64 * E.

Record World : Type := mkWorld {
  store : SharedStore;
  outside : E;
}.

(** [SharedStore::emit], with the time stamp read from the clock. *)
Definition emit_event (agent event_type : string) (payload : Value) : St World unit := λ w,
  let '(now, e) := clock (outside w) in
  (Ok tt, mkWorld (emit (store w) agent event_type payload now) e).

(** ** Nodes *)

(** The trait's required methods.  [exec] is not given the store. *)
Record Node : Type := mkNode {
  node_name : string;
  prep : St World Value;
  exec : Value → St E Value;
  post : Value → St World Action;
}.

(** Running a phase that cannot reach the store. *)
Definition off_store {A} (m : St E A) : St World A := λ w,
  let '(r, e) := m (outside w) in (r, mkWorld (store w) e).

Definition empty_object : Value := VObject [].

(** [Node::run]. *)
Definition node_run (n : Node) : St World Action :=
  let name := node_name n in
  _ ← emit_event name "prep_started" empty_object;
  prep_result ← prep n;
  _ ← emit_event name "prep_done" empty_object;
  _ ← emit_event name "exec_started" empty_object;
  exec_result ← off_store (exec n prep_result);
  _ ← emit_event name "exec_done" empty_object;
  _ ← emit_event name "post_started" empty_object;
  action ← post n exec_result;
  _ ← emit_event name "post_done" (VObject [("action", VString action)]);
  mret action.

(** ** Batches *)

(** [exec_all] is [join_all] over [exec_one]: one result per item, in item
    order, each of which may be an error. *)
Record BatchNode : Type := mkBatch {
  batch_name : string;
  prep_batch : St World (list Value);
  exec_all : list Value → E → list (result Value) * E;
  post_batch : list (result Value) → St World Action;
}.

(** [BatchNode::run_batch]; it is also the [run] of the blanket [Node]
    implementation. *)
Definition run_batch (b : BatchNode) : St World Action :=
  let name := batch_name b in
  _ ← emit_event name "batch_prep_started" empty_object;
  items ← prep_batch b;
  let item_count := length items in
  if bool_decide (item_count = 0) then
    _ ← emit_event name "batch_empty" empty_object;
    mret NO_TICKETS
  else
    let count := VObject [("items", VPosInt (N.of_nat item_count))] in
    _ ← emit_event name "batch_exec_started" count;
    results ← off_store (λ e, let '(rs, e') := exec_all b items e in (Ok rs, e'));
    _ ← emit_event name "batch_exec_done" count;
    action ← post_batch b results;
    _ ← emit_event name "batch_done" (VObject [("action", VString action)]);
    mret action.

(** ** Flows *)

(** [FlowNode]: what a registered node does when run, and its routes. *)
Record FlowNode : Type := mkFlowNode {
  run_node : St World Action;
  routes : gmap string string;
}.

Record Flow : Type := mkFlow {
  start : string;
  nodes : gmap string FlowNode;
  max_steps : nat;
  max_visits_per_node : nat;
}.

(** [Flow::new]. *)
Definition new (start : string) : Flow := mkFlow start ∅ 10000 20.

(** [Flow::max_steps] and [Flow::max_visits_per_node], the setters. *)
Definition with_max_steps (n : nat) (f : Flow) : Flow :=
  mkFlow (start f) (nodes f) n (max_visits_per_node f).
Definition with_max_visits_per_node (n : nat) (f : Flow) : Flow :=
  mkFlow (start f) (nodes f) (max_steps f) n.

(** [collect::<HashMap<_, _>>()]: a later route for the same action wins. *)
Definition route_map (rs : list (string * string)) : gmap string string :=
  foldl (λ m '(action, target), <[action := target]> m) ∅ rs.

(** [Flow::add_node]. *)
Definition add_node (name : string) (run : St World Action) (rs : list (string * string))
  (f : Flow) : Flow :=
  mkFlow (start f) (<[name := mkFlowNode run (route_map rs)]> (nodes f))
    (max_steps f) (max_visits_per_node f).

(** The locals of [Flow::run]. *)
Record Locals : Type := mkLocals {
  current : string;
  steps : nat;
  node_visits : gmap string nat;
}.

(** One turn of the loop: either the next locals, or what [run] returns. *)
Definition turn (f : Flow) (l : Locals) (w : World) : (Locals + result Action) * World :=
  if max_steps f <=? steps l then (inr (Ok PAUSE_SIGNAL), w)
  else
    let visits := S (from_option id 0 (node_visits l !! current l)) in
    let node_visits' := <[current l := visits]> (node_visits l) in
    if max_visits_per_node f <? visits then (inr (Ok PAUSE_SIGNAL), w)
    else
      match nodes f !! current l with
      | None => (inr (Err ("Flow: unknown node '" +:+ current l +:+ "'")), w)
      | Some flow_node =>
          match run_node flow_node w with
          | (Err e, w') => (inr (Err e), w')
          | (Panic, w') => (inr Panic, w')
          | (Ok action, w') =>
              if bool_decide (action = STOP_SIGNAL) then (inr (Ok action), w')
              else if bool_decide (action = PAUSE_SIGNAL) then (inr (Ok action), w')
              else
                match routes flow_node !! action with
                | Some next => (inl (mkLocals next (S (steps l)) node_visits'), w')
                | None => (inr (Ok action), w')
                end
          end
      end.

(** The loop, with [None] when the fuel runs out before it returns. *)
Fixpoint loop (fuel : nat) (f : Flow) (l : Locals) (w : World) : option (result Action * World) :=
  match fuel with
  | 0 => None
  | S fuel =>
      match turn f l w with
      | (inl l', w') => loop fuel f l' w'
      | (inr r, w') => Some (r, w')
      end
  end.

Definition entry (f : Flow) : Locals := mkLocals (start f) 0 ∅.

(** [Flow::run]. *)
Definition run (f : Flow) (w : World) : option (result Action * World) :=
  loop (S (max_steps f)) f (entry f) w.
End flow.
