(* ===== verification/FlowProps.v ===== *)
(** * What the orchestration loop guarantees

    [Flow::run] terminates within its guards, follows the route table, and
    pauses instead of failing when a guard trips; a node's events bracket its
    phases. *)
From S2P Require Import Prelude Text Json Store Flow.

Section flow_props.
Context {E : Type} (clock : E → u64 * E).
Implicit Types (f : @Flow E) (w : @World E) (l : Locals) (ns ps : list string).

(** ** The routing the flow is meant to perform *)

(** What a node settles on, [None] when its action is routed onwards to the
    next node. *)
Definition next_hop f (n : string) w : (string + result Action) * World :=
  match nodes f !! n with
  | None => (inr (Err ("Flow: unknown node '" +:+ n +:+ "'")), w)
  | Some fn =>
      match run_node fn w with
      | (Ok a, w') =>
          match (if bool_decide (a = STOP_SIGNAL ∨ a = PAUSE_SIGNAL) then None
                 else routes fn !! a) with
          | Some next => (inl next, w')
          | None => (inr (Ok a), w')
          end
      | (Err e, w') => (inr (Err e), w')
      | (Panic, w') => (inr Panic, w')
      end
  end.

(** [walk f n w ns n' w']: starting at [n], the nodes [ns] run one after the
    other, each action routed to the next, and [n'] is up next. *)
Inductive walk f : string → World → list string → string → World → Prop :=
  | walk_nil n w : walk f n w [] n w
  | walk_cons n w next w' ns n' w'' :
      next_hop f n w = (inl next, w') → walk f next w' ns n' w'' →
      walk f n w (n :: ns) n' w''.

Definition visits ns (n : string) : nat := count_occ String.string_dec ns n.

(** The guards: at most [max_steps] node runs, each node at most
    [max_visits_per_node] times. *)
Definition within f ns : Prop :=
  length ns ≤ max_steps f ∧ ∀ n, visits ns n ≤ max_visits_per_node f.

(** The guards as the loop tests them at node [n] after the nodes [ps]. *)
Definition admits f ps (n : string) : bool :=
  (length ps <? max_steps f) && (visits ps n <? max_visits_per_node f).

Lemma within_snoc f ps n : within f ps → within f (ps ++ [n]) ↔ admits f ps n = true.
Proof.
  unfold within, admits, visits. intros [Hl Hv].
  rewrite andb_true_iff, !Nat.ltb_lt, length_app. cbn [length].
  split.
  - intros [H1 H2]. specialize (H2 n). rewrite count_occ_app in H2. cbn in H2.
    destruct (String.string_dec n n); [lia|done].
  - intros [H1 H2]. split; [lia|]. intros m. rewrite count_occ_app. cbn.
    specialize (Hv m). destruct (String.string_dec n m); subst; lia.
Qed.

Lemma within_app f ps ns : within f (ps ++ ns) → within f ps.
Proof.
  unfold within, visits. rewrite length_app. intros [H1 H2]. split; [lia|].
  intros n. specialize (H2 n). rewrite count_occ_app in H2. lia.
Qed.

(** ** The loop performs it *)

(** The locals after the nodes [ps] have run. *)
Definition tracks l ps : Prop :=
  steps l = length ps ∧ ∀ n, from_option id 0 (node_visits l !! n) = visits ps n.

Lemma tracks_snoc l ps next :
  tracks l ps →
  tracks (mkLocals next (S (steps l))
            (<[current l := S (from_option id 0 (node_visits l !! current l))]> (node_visits l)))
         (ps ++ [current l]).
Proof.
  unfold tracks, visits. intros [H1 H2]. cbn [steps node_visits]. rewrite length_app, H1. cbn [length].
  split; [lia|]. intros n. rewrite count_occ_app. cbn. rewrite <- (H2 n).
  destruct (String.string_dec (current l) n) as [<-|Hne].
  - rewrite lookup_insert_eq. cbn. lia.
  - rewrite lookup_insert_ne by done. lia.
Qed.

Lemma turn_spec f l w ps :
  tracks l ps →
  turn f l w =
    if admits f ps (current l) then
      match next_hop f (current l) w with
      | (inl next, w') =>
          (inl (mkLocals next (S (steps l))
             (<[current l := S (from_option id 0 (node_visits l !! current l))]> (node_visits l))), w')
      | (inr r, w') => (inr r, w')
      end
    else (inr (Ok PAUSE_SIGNAL), w).
Proof.
  unfold turn, admits, next_hop. intros [-> H2]. rewrite (H2 (current l)).
  rewrite (Nat.leb_antisym (length ps)). destruct (length ps <? max_steps f); [|done]. cbn [negb andb].
  replace (max_visits_per_node f <? S (visits ps (current l)))
    with (negb (visits ps (current l) <? max_visits_per_node f))
    by (rewrite <- Nat.leb_antisym; done).
  destruct (visits ps (current l) <? max_visits_per_node f); [|done]. cbn [negb].
  destruct (nodes f !! current l) as [fn|]; [|done].
  destruct (run_node fn w) as [[a|e|] w']; [|done..].
  destruct (decide (a = STOP_SIGNAL)) as [->|Hs]; [done|].
  destruct (decide (a = PAUSE_SIGNAL)) as [->|Hp]; [done|].
  rewrite (bool_decide_eq_false_2 _ Hs), (bool_decide_eq_false_2 _ Hp).
  rewrite bool_decide_eq_false_2 by tauto. by destruct (routes fn !! a).
Qed.

(** The specification of what remains after the nodes [ps]. *)
Definition finishes f ps n w (r : result Action) w' : Prop :=
  ∃ ns n1 w1, walk f n w ns n1 w1 ∧ within f (ps ++ ns) ∧
    if admits f (ps ++ ns) n1 then next_hop f n1 w1 = (inr r, w')
    else r = Ok PAUSE_SIGNAL ∧ w' = w1.

Lemma finishes_step f ps n w r w' :
  within f ps → admits f ps n = true →
  finishes f ps n w r w' ↔
    next_hop f n w = (inr r, w') ∨
    ∃ next w1, next_hop f n w = (inl next, w1) ∧ finishes f (ps ++ [n]) next w1 r w'.
Proof.
  intros Hw Ha. split.
  - intros (ns & n1 & w1 & Hwalk & Hin & Hend). destruct Hwalk as [n w|n w next w2 ns n1 w1 Hh Hwalk].
    + rewrite app_nil_r, Ha in Hend. by left.
    + right. exists next, w2. split; [done|]. exists ns, n1, w1.
      by rewrite <- app_assoc.
  - intros [H|(next & w1 & Hh & ns & n1 & w2 & Hwalk & Hin & Hend)].
    + exists [], n, w. rewrite app_nil_r, Ha. split; [constructor|done].
    + exists (n :: ns), n1, w2. rewrite <- app_assoc in Hin, Hend.
      split; [by econstructor|done].
Qed.

Lemma finishes_stop f ps n w r w' :
  within f ps → admits f ps n = false →
  finishes f ps n w r w' ↔ r = Ok PAUSE_SIGNAL ∧ w' = w.
Proof.
  intros Hw Ha. split.
  - intros (ns & n1 & w1 & Hwalk & Hin & Hend). destruct Hwalk as [n w|n w next w2 ns n1 w1 Hh Hwalk].
    + by rewrite app_nil_r, Ha in Hend.
    + change (n :: ns) with ([n] ++ ns) in Hin. rewrite app_assoc in Hin.
      apply within_app in Hin. apply within_snoc in Hin; [|done]. congruence.
  - intros [-> ->]. exists [], n, w. rewrite app_nil_r, Ha. split; [constructor|done].
Qed.

Lemma loop_spec fuel f : ∀ l w ps r w',
  tracks l ps → within f ps → max_steps f < fuel + length ps →
  loop fuel f l w = Some (r, w') ↔ finishes f ps (current l) w r w'.
Proof.
  induction fuel as [|fuel IH]; intros l w ps r w' Ht Hw Hf.
  - destruct Hw as [Hl _]. cbn [plus] in Hf. lia.
  - cbn [loop]. rewrite (turn_spec f l w ps Ht).
    destruct (admits f ps (current l)) eqn:Ha.
    + rewrite finishes_step by done.
      destruct (next_hop f (current l) w) as [[next|r1] w1].
      * rewrite (IH _ _ (ps ++ [current l]));
          [|by apply tracks_snoc|by apply within_snoc|rewrite length_app; cbn [length]; lia].
        cbn [current]. naive_solver.
      * naive_solver.
    + rewrite finishes_stop by done. naive_solver.
Qed.

Lemma loop_total fuel f : ∀ l w ps,
  tracks l ps → length ps ≤ max_steps f → max_steps f < fuel + length ps →
  is_Some (loop fuel f l w).
Proof.
  induction fuel as [|fuel IH]; intros l w ps Ht Hl Hf; [lia|].
  cbn [loop]. rewrite (turn_spec f l w ps Ht).
  destruct (admits f ps (current l)) eqn:Ha; [|by eauto].
  unfold admits in Ha. apply andb_true_iff in Ha as [Ha%Nat.ltb_lt _].
  destruct (next_hop f (current l) w) as [[next|r1] w1]; [|by eauto].
  apply (IH _ _ (ps ++ [current l])); [by apply tracks_snoc|..];
    rewrite length_app; cbn [length]; lia.
Qed.

Lemma tracks_entry f : tracks (entry f) [].
Proof. done. Qed.

Lemma within_nil f : within f [].
Proof. split; cbn; intros; lia. Qed.

Lemma run_spec f w r w' : run f w = Some (r, w') ↔ finishes f [] (start f) w r w'.
Proof.
  apply (loop_spec (S (max_steps f)) f (entry f) w [] r w' (tracks_entry f) (within_nil f)).
  cbn [length]. lia.
Qed.

Lemma run_total f w : is_Some (run f w).
Proof. apply (loop_total _ _ _ _ [] (tracks_entry f)); cbn [length]; lia. Qed.

(** C28. A flow pass performs exactly the routing of its table, bounded by its
    guards: it always returns, and it returns [r] in world [w'] just when
    some chain of nodes, each routed to the next by the action it returned and
    within the step cap and the visit cap, leads to a node that either settles
    there (a stop or pause signal, an action with no route, an error, an
    unregistered name), giving [r], or may not run any more because a guard
    trips, in which case the pass pauses, changes nothing further and is never
    an error. *)
Theorem flow_run_routes_within_guards f w :
  is_Some (run f w) ∧
  ∀ r w', run f w = Some (r, w') ↔
    ∃ ns n w1, walk f (start f) w ns n w1 ∧ within f ns ∧
      if admits f ns n then next_hop f n w1 = (inr r, w')
      else r = Ok PAUSE_SIGNAL ∧ w' = w1.
Proof.
  split; [apply run_total|]. exact (run_spec f w).
Qed.

(** A well-wired flow never fails by itself: when the start node and every
    route target are registered and the nodes themselves do not fail, a pass
    from any world ends in an action, after at most [max_steps] node runs. *)
Theorem wired_flow_never_fails f w :
  is_Some (nodes f !! start f) →
  (∀ n fn a next, nodes f !! n = Some fn → routes fn !! a = Some next → is_Some (nodes f !! next)) →
  (∀ n fn w, nodes f !! n = Some fn → is_ok (run_node fn w).1 = true) →
  ∃ a w', run f w = Some (Ok a, w').
Proof.
  intros Hs Hr Hn.
  destruct (run_total f w) as [[r w'] H]. rewrite H.
  apply run_spec in H as (ns & n & w1 & Hwalk & _ & Hend).
  assert (is_Some (nodes f !! n)) as [fn Hfn].
  { clear -Hs Hr Hwalk.
    induction Hwalk as [|n w next w' ns n' w'' Hh _ IH]; [done|]. apply IH.
    unfold next_hop in Hh. destruct (nodes f !! n) as [fn|] eqn:Hfn; [|done].
    destruct (run_node fn w) as [[a|e|] w1]; [|done..].
    destruct (bool_decide _); [done|]. destruct (routes fn !! a) eqn:Ha; simplify_eq. eauto. }
  cbn [app] in Hend. destruct (admits f ns n).
  - unfold next_hop in Hend. rewrite Hfn in Hend. specialize (Hn n fn w1 Hfn).
    destruct (run_node fn w1) as [[a|e|] w2]; [|done..].
    case_match; simplify_eq; eauto.
  - destruct Hend as [-> ->]. eauto.
Qed.

(** ** Events of a node *)

Lemma emit_event_spec a t p w :
  ∃ now e, emit_event clock a t p w = (Ok tt, mkWorld (emit (store w) a t p now) e).
Proof. unfold emit_event. destruct (clock (outside w)) as [now e]. eauto. Qed.

Lemma emit_room s a t p now :
  length (ring_buffer s) < RING_BUFFER_SIZE →
  ring_buffer (emit s a t p now) = ring_buffer s ++ [mkEvent a t p now].
Proof.
  intros H. unfold emit. cbn [ring_buffer set_ring_buffer].
  by rewrite (proj2 (Nat.leb_gt _ _) H).
Qed.

(** The log of world [w]: who, and which event. *)
Definition log_of w : list (string * string) :=
  (λ e, (ev_agent e, ev_type e)) <$> ring_buffer (store w).

(** A computation that leaves the event log alone. *)
Definition quiet {A} (m : St (@World E) A) : Prop := ∀ w, log_of (m w).2 = log_of w.

Definition phase_events : list string :=
  ["prep_started"; "prep_done"; "exec_started"; "exec_done"; "post_started"; "post_done"].

Lemma log_of_length w : length (log_of w) = length (ring_buffer (store w)).
Proof. apply length_fmap. Qed.

(** Peeling an event off a node's run. *)
Lemma emit_event_bind {A} a t p (k : unit → St World A) w :
  length (log_of w) < RING_BUFFER_SIZE →
  ∃ w1, (emit_event clock a t p ≫= k) w = k tt w1 ∧ log_of w1 = log_of w ++ [(a, t)].
Proof.
  intros Hl. rewrite log_of_length in Hl. destruct (emit_event_spec a t p w) as (now & e & H).
  eexists. split; [unfold mbind, st_bind; by rewrite H|].
  unfold log_of. cbn [store]. by rewrite emit_room, fmap_app.
Qed.

Lemma quiet_bind {A B} (m : St World A) (k : A → St World B) w :
  quiet m →
  (∃ a w1, m w = (Ok a, w1) ∧ (m ≫= k) w = k a w1 ∧ log_of w1 = log_of w) ∨
  (is_ok ((m ≫= k) w).1 = false ∧ log_of ((m ≫= k) w).2 = log_of w).
Proof.
  intros Hq. specialize (Hq w). unfold mbind, st_bind. destruct (m w) as [[a|e|] w1]; eauto 6.
Qed.

Lemma quiet_off_store {A} (m : St E A) : quiet (off_store m).
Proof. intros w. unfold off_store. by destruct (m (outside w)). Qed.

(** One emission of a node's run; [lia] sees the log's length. *)
Ltac emit_step w' L :=
  match goal with
  | |- context [(emit_event clock ?a ?t ?p ≫= ?k) ?w] =>
      destruct (emit_event_bind a t p k w) as (w' & -> & L);
      [repeat match goal with H : log_of _ = _ |- _ => rewrite H end;
       rewrite ?length_app; cbn [length]; lia | cbv beta]
  end.

(** One phase of a node's run: it succeeds, or the run ends after [k] events. *)
Ltac phase_step Hq k a w' L :=
  match goal with
  | |- context [(?m ≫= ?f) ?w] =>
      destruct (quiet_bind m f w Hq) as [(a & w' & _ & -> & L)|[-> ->]];
      [ | exists k; split; [set_solver|]; split; [done|];
          repeat match goal with H : log_of _ = _ |- _ => rewrite H end;
          by rewrite <- ?app_assoc ]
  end.

(** A node's events tell how far it got: with room in the log and phases
    that emit nothing themselves, running a node appends a prefix of its six
    phase events, all six exactly when it succeeds, and one, three or five
    when [prep], [exec] or [post] failed. *)
Theorem node_run_reports_progress (n : @Node E) w :
  quiet (prep n) → (∀ v, quiet (post n v)) →
  length (log_of w) + 6 ≤ RING_BUFFER_SIZE →
  ∃ k, k ∈ [1; 3; 5; 6] ∧ (is_ok (node_run clock n w).1 = true ↔ k = 6) ∧
    log_of (node_run clock n w).2 = log_of w ++ take k ((node_name n,.) <$> phase_events).
Proof.
  intros Hp Hq Hr. unfold node_run. cbv zeta.
  emit_step w1 L1. phase_step Hp 1 v w2 L2. rewrite L1 in L2.
  emit_step w3 L3. rewrite L2 in L3. emit_step w4 L4. rewrite L3 in L4.
  phase_step (quiet_off_store (exec n v)) 3 v' w5 L5. rewrite L4 in L5.
  emit_step w6 L6. rewrite L5 in L6. emit_step w7 L7. rewrite L6 in L7.
  phase_step (Hq v') 5 act w8 L8. rewrite L7 in L8.
  emit_step w9 L9. rewrite L8 in L9.
  exists 6. split; [set_solver|]. split; [done|]. cbn [fst snd mret st_ret].
  rewrite L9, <- !app_assoc. done.
Qed.
End flow_props.

(** ** A concrete flow *)

Definition ticking (e : u64) : u64 * u64 := (e, (e + 1)%N).

(** A node that only answers [a]. *)
Definition answers (name : string) (a : Action) : @Node u64 :=
  mkNode name (mret VNull) mret (λ _, mret a).

(** The ping-pong cycle of the flow's own test: two nodes that bounce forever. *)
Definition ping_pong : @Flow u64 :=
  new "a" ▷ with_max_visits_per_node 3
    ▷ add_node "a" (node_run ticking (answers "a" "bounce_b")) [("bounce_b", "b")]
    ▷ add_node "b" (node_run ticking (answers "b" "bounce_a")) [("bounce_a", "a")].

Definition world0 : @World u64 := mkWorld new_in_memory 0%N.

Lemma ping_pong_pauses : fst <$> run ping_pong world0 = Some (Ok PAUSE_SIGNAL).
Proof. vm_compute. reflexivity. Qed.

(** The two registrations of [ping_pong]. *)
Lemma ping_pong_nodes n fn :
  nodes ping_pong !! n = Some fn →
  ∃ k a b, fn = mkFlowNode (node_run ticking (answers k a)) (route_map [(a, b)]) ∧
           is_Some (nodes ping_pong !! b).
Proof.
  intros H. unfold ping_pong, add_node in H. cbn [nodes] in H.
  apply lookup_insert_Some in H as [[<- <-]|[_ H]];
    [|apply lookup_insert_Some in H as [[<- <-]|[_ H]]; [|done]];
    (eexists _, _, _; split; [reflexivity|]; eexists; vm_compute; reflexivity).
Qed.

Lemma wired_flow_never_fails_witness : ∃ a w', run ping_pong world0 = Some (Ok a, w').
Proof.
  apply (wired_flow_never_fails ping_pong world0).
  - eexists. vm_compute. reflexivity.
  - intros n fn a next Hn Ha. apply ping_pong_nodes in Hn as (k & a' & b & -> & Hb).
    cbn [routes route_map foldl] in Ha. apply lookup_insert_Some in Ha as [[_ <-]|[_ Ha]]; done.
  - intros n fn w Hn. apply ping_pong_nodes in Hn as (k & a' & b & -> & _). done.
Defined.

Lemma node_run_reports_progress_witness :
  ∃ k, k ∈ [1; 3; 5; 6] ∧
    (is_ok (node_run ticking (answers "echo" "done") world0).1 = true ↔ k = 6) ∧
    log_of (node_run ticking (answers "echo" "done") world0).2 =
      log_of world0 ++ take k (("echo",.) <$> phase_events).
Proof.
  apply (node_run_reports_progress ticking (answers "echo" "done") world0); [done|done|].
  cbn. unfold RING_BUFFER_SIZE. lia.
Defined.
