(* ===== verification/CommandGate.v ===== *)
(** * CommandGate: dangerous commands wait for approval

    Models [src/crates/pocketflow-core/src/command_gate.rs]: a worker writes a
    proposal to the store and polls for a decision; NEXUS reads the proposal and
    writes the decision.  Between two polls anybody may change the store. *)
From S2P Require Import Prelude Text Json Store StoreInterface.

Definition DANGEROUS_PATTERNS : list string :=
  ["rm -rf"; "rm -r /"; "chmod 777"; "git push --force"; "curl | sh"; "wget | sh"; "bash <(";
   "DROP TABLE"; "DROP DATABASE"; "DELETE FROM"; "mkfs"; "dd if="; "> /dev/"].

Definition is_dangerous (cmd : string) : bool :=
  let lower := to_lowercase cmd in
  existsb (λ p, contains (to_lowercase p) lower) DANGEROUS_PATTERNS.

Inductive RiskLevel : Type := Low | Medium | High.

Record CommandProposal : Type := mkProposal {
  worker_id : string;
  command : string;
  reason : string;
  risk_level : RiskLevel;
}.

Inductive CommandDecision : Type :=
  | Approved
  | Rejected (reason : string).

(** ** Encodings *)

#[export] Instance serde_risk : Serde RiskLevel := {
  to_value r := VString match r with Low => "Low" | Medium => "Medium" | High => "High" end;
  from_value v :=
    name ← variant_name v;
    if bool_decide (name = "Low") then Ok Low
    else if bool_decide (name = "Medium") then Ok Medium
    else if bool_decide (name = "High") then Ok High
    else Err "unknown variant"
}.
#[export] Instance serde_risk_laws : SerdeLaws RiskLevel.
Proof. by intros []. Qed.

Definition proposal_to_value (p : CommandProposal) : Value :=
  VObject [("worker_id", to_value (worker_id p)); ("command", to_value (command p));
           ("reason", to_value (reason p)); ("risk_level", to_value (risk_level p))].

Definition proposal_from_value (v : Value) : result CommandProposal :=
  v ← struct_form ["worker_id"; "command"; "reason"; "risk_level"] 4 v;
  w ← field "worker_id" v;
  c ← field "command" v;
  r ← field "reason" v;
  risk ← field "risk_level" v;
  Ok (mkProposal w c r risk).

#[export] Instance serde_proposal : Serde CommandProposal :=
  {| to_value := proposal_to_value; from_value := proposal_from_value |}.
#[export] Instance serde_proposal_laws : SerdeLaws CommandProposal.
Proof.
  intros p. cbn [to_value from_value serde_proposal]. unfold proposal_from_value, proposal_to_value.
  cbn [struct_form mbind result_bind]. serde_fields. by destruct p.
Qed.

Definition decision_to_value (d : CommandDecision) : Value :=
  match d with
  | Approved => VString "Approved"
  | Rejected r => VObject [("Rejected", VObject [("reason", VString r)])]
  end.

Definition decision_from_value (v : Value) : result CommandDecision :=
  match v with
  | VString "Approved" | VObject [("Approved", VNull)] => Ok Approved
  | VObject [("Rejected", r)] => r ← struct_form ["reason"] 1 r; Rejected <$> field "reason" r
  | _ => Err "unknown variant"
  end.

#[export] Instance serde_decision : Serde CommandDecision :=
  {| to_value := decision_to_value; from_value := decision_from_value |}.
#[export] Instance serde_decision_laws : SerdeLaws CommandDecision.
Proof. by intros []. Qed.

(** ** Keys *)

Definition proposal_key (worker : string) : string := "command_gate::" +:+ worker.
Definition decision_key (worker : string) : string :=
  "command_gate::" +:+ worker +:+ "::decision".

(** ** Operations *)

Section gate.
Context {S : Type} `{KvStore S}.

(** [CommandGate::check_and_wait] up to its loop; [meanwhile] is what the
    other tasks do between the two writes. *)
Definition propose (meanwhile : S → S) (store : S) (worker cmd why : string) (now : u64) : S :=
  let proposal := mkProposal worker cmd why High in
  let store := meanwhile (kv_del store (decision_key worker)) in
  let store := kv_set_typed store (proposal_key worker) proposal in
  kv_emit store worker "command_gate_proposed" (VObject [("command", VString cmd)]) now.

(** One turn of the polling loop: [None] to sleep and try again. *)
Definition poll (store : S) (worker cmd : string) (elapsed_ms : N) (now : u64)
  : option (result unit) * S :=
  if (60000 <=? elapsed_ms)%N then
    (Some (Err ("CommandGate timeout: NEXUS did not respond within 60s for worker " +:+ worker)),
     kv_del store (proposal_key worker))
  else
    match kv_get_typed store (decision_key worker) with
    | None => (None, store)
    | Some decision =>
        let store := kv_del store (proposal_key worker) in
        let store := kv_del store (decision_key worker) in
        match decision with
        | Approved =>
            (Some (Ok tt),
             kv_emit store worker "command_gate_approved" (VObject [("command", VString cmd)]) now)
        | Rejected r =>
            (Some (Err ("Command rejected by NEXUS: " +:+ r)),
             kv_emit store worker "command_gate_rejected"
               (VObject [("command", VString cmd); ("reason", VString r)]) now)
        end
    end.

(** The loop from its [i]-th turn.  [elapsed i] is what the clock shows at
    turn [i], [now i] the wall clock there, and [others i] what the other
    tasks have done to the store by then since the previous turn. *)
Fixpoint wait (fuel i : nat) (elapsed : nat → N) (now : nat → u64) (others : nat → S → S)
  (store : S) (worker cmd : string) : option (result unit * S) :=
  match fuel with
  | 0 => None
  | Datatypes.S fuel =>
      match poll (others i store) worker cmd (elapsed i) (now i) with
      | (Some r, store') => Some (r, store')
      | (None, store') => wait fuel (Datatypes.S i) elapsed now others store' worker cmd
      end
  end.

(** Turns the loop can take: 60 s of polls at least 500 ms apart, and the
    turn that times out. *)
Definition poll_fuel : nat := 121.

(** [CommandGate::check_and_wait]. *)
Definition check_and_wait (elapsed : nat → N) (now : nat → u64) (meanwhile : S → S)
  (others : nat → S → S) (store : S) (worker cmd why : string) : option (result unit * S) :=
  if negb (is_dangerous cmd) then Some (Ok tt, store)
  else
    wait poll_fuel 0 elapsed now others (propose meanwhile store worker cmd why (now 0)) worker cmd.

(** [CommandGate::approve], [CommandGate::reject] and
    [CommandGate::pending_proposal], the NEXUS side. *)
Definition approve (store : S) (worker : string) : S :=
  kv_set_typed store (decision_key worker) Approved.
Definition reject (store : S) (worker why : string) : S :=
  kv_set_typed store (decision_key worker) (Rejected why).
Definition pending_proposal (store : S) (worker : string) : option CommandProposal :=
  kv_get_typed store (proposal_key worker).
End gate.

(** ** Lemmas: keys *)

Lemma decision_proposal_ne w : decision_key w ≠ proposal_key w.
Proof.
  unfold decision_key, proposal_key. intros E. apply string_app_inv_l in E.
  apply (f_equal String.length) in E. rewrite string_length_app in E. cbn in E. lia.
Qed.

Lemma decision_key_inj w w' : decision_key w = decision_key w' → w = w'.
Proof.
  unfold decision_key. intros E. apply string_app_inv_l in E. by apply string_app_inv_r in E.
Qed.

Lemma decision_proposal_ne_other w w' : no_char ":" w' = true → decision_key w ≠ proposal_key w'.
Proof.
  unfold decision_key, proposal_key. intros H E. apply string_app_inv_l in E. subst w'.
  unfold no_char in H. rewrite all_chars_app in H. apply andb_true_iff in H as [_ H]. done.
Qed.

#[export] Hint Resolve decision_proposal_ne not_eq_sym : kv_keys.
