(* ===== verification/CommandGateProps.v ===== *)
(** * What the command gate guarantees

    A dangerous command runs only on an approval written while it waits, the
    wait always ends, the first decision wins, and workers do not see each
    other's decisions; all of it against the store interface. *)
From S2P Require Import Prelude Text Json Store StoreInterface CommandGate.

Section gate_props.
Context {S : Type} `{KvLaws S}.
Variables (elapsed : nat → N) (now : nat → u64) (meanwhile : S → S) (others : nat → S → S).
Variables (worker cmd : string).

(** [tokio::time::sleep] waits at least the time it is given. *)
Hypothesis elapsed_lower : ∀ i, (500 * N.of_nat i <= elapsed i)%N.

Definition decided (s : S) : option CommandDecision := kv_get_typed s (decision_key worker).

Lemma poll_timeout s i : (60000 <= elapsed i)%N → ∃ msg,
  poll s worker cmd (elapsed i) (now i) = (Some (Err msg), kv_del s (proposal_key worker)).
Proof. unfold poll. intros Hi. rewrite (proj2 (N.leb_le _ _) Hi). eauto. Qed.

(** What the worker is told when decision [d] is found. *)
Definition verdict (d : CommandDecision) : result unit :=
  match d with
  | Approved => Ok tt
  | Rejected r => Err ("Command rejected by NEXUS: " +:+ r)
  end.

Lemma poll_decided s i d : (elapsed i < 60000)%N → decided s = Some d →
  ∃ s', poll s worker cmd (elapsed i) (now i) = (Some (verdict d), s') ∧
        kv_get s' (proposal_key worker) = None ∧ kv_get s' (decision_key worker) = None.
Proof.
  unfold poll, decided. intros Hi ->. rewrite (proj2 (N.leb_gt _ _) Hi).
  destruct d; eexists; (split; [reflexivity|]); split; by kv_simpl.
Qed.

Lemma poll_undecided s i : (elapsed i < 60000)%N → decided s = None →
  poll s worker cmd (elapsed i) (now i) = (None, s).
Proof. unfold poll, decided. intros Hi ->. by rewrite (proj2 (N.leb_gt _ _) Hi). Qed.

Lemma decided_propose s why : decided (propose meanwhile s worker cmd why (now 0)) =
  decided (meanwhile (kv_del s (decision_key worker))).
Proof.
  unfold decided, propose. apply kv_get_typed_ext. unfold kv_set_typed. by kv_simpl.
Qed.

Lemma wait_refuses : ∀ fuel i s,
  (∀ j s, decided s ≠ Some Approved → decided (others j s) ≠ Some Approved) →
  decided s ≠ Some Approved → 0 < fuel → 120 < fuel + i →
  ∃ msg s', wait fuel i elapsed now others s worker cmd = Some (Err msg, s') ∧
            kv_get s' (proposal_key worker) = None.
Proof.
  induction fuel as [|fuel IH]; intros i s Ho Hs Hf Hi; [lia|]. cbn [wait].
  specialize (Ho i s Hs) as Hn. destruct (decide (60000 <= elapsed i)%N) as [Ht|Ht].
  - destruct (poll_timeout (others i s) i Ht) as [msg ->]. eexists _, _. split; [done|]. by kv_simpl.
  - apply N.nle_gt in Ht. destruct (decided (others i s)) as [[|r]|] eqn:Hd; [done|..].
    + destruct (poll_decided _ _ _ Ht Hd) as (s' & -> & Hp & _). eauto.
    + rewrite poll_undecided by done. specialize (elapsed_lower i).
      apply IH; [done|by rewrite Hd|lia..].
Qed.

(** C30. No approval, no execution: as long as no other task writes an approval
    for this worker after it has cleared stale ones, a dangerous command is
    refused; the wait ends within its 121 polls (the timeout counts as a
    refusal) and the worker's proposal is gone afterwards. *)
Theorem gate_refuses_without_approval s why :
  is_dangerous cmd = true →
  (∀ s, decided s ≠ Some Approved → decided (meanwhile s) ≠ Some Approved) →
  (∀ j s, decided s ≠ Some Approved → decided (others j s) ≠ Some Approved) →
  ∃ msg s', check_and_wait elapsed now meanwhile others s worker cmd why = Some (Err msg, s') ∧
            pending_proposal s' worker = None.
Proof.
  intros Hd Hm Ho. unfold check_and_wait. rewrite Hd. cbn [negb].
  destruct (wait_refuses poll_fuel 0 (propose meanwhile s worker cmd why (now 0)) Ho)
    as (msg & s' & -> & Hp); [|unfold poll_fuel; lia..|].
  - rewrite decided_propose. apply Hm. unfold decided. by rewrite kv_get_typed_del.
  - eexists _, _. split; [done|]. unfold pending_proposal, kv_get_typed. by rewrite Hp.
Qed.

Lemma wait_decided d : ∀ n fuel i s,
  decided s = None →
  (∀ j s, i ≤ j < i + n → decided (others j s) = decided s) →
  (∀ s, decided (others (i + n) s) = Some d) → (∀ j, j ≤ i + n → (elapsed j < 60000)%N) →
  n < fuel →
  ∃ s', wait fuel i elapsed now others s worker cmd = Some (verdict d, s') ∧
        kv_get s' (proposal_key worker) = None ∧ kv_get s' (decision_key worker) = None.
Proof.
  induction n as [|n IH]; intros fuel i s Hs Hq Hd He Hf; (destruct fuel as [|fuel]; [lia|]); cbn [wait].
  - rewrite Nat.add_0_r in Hd, He.
    destruct (poll_decided (others i s) i d) as (s' & -> & Hk); eauto.
  - rewrite poll_undecided; [|apply He; lia|rewrite Hq; [done|lia]].
    apply IH; [rewrite Hq; [done|lia]|intros; apply Hq; lia| | |lia].
    + intros s1. replace (Datatypes.S i + n) with (i + Datatypes.S n) by lia. apply Hd.
    + intros j Hj. apply He. lia.
Qed.

(** The first decision wins and is consumed: when nobody touches the
    decision for a while and then NEXUS decides before the minute is over, the
    worker is told exactly that decision, and neither the proposal nor the
    decision is left behind for the next command. *)
Theorem gate_returns_the_decision s why n d :
  is_dangerous cmd = true →
  (∀ s, decided (meanwhile s) = decided s) →
  (∀ j s, j < n → decided (others j s) = decided s) →
  (∀ s, decided (others n s) = Some d) →
  (∀ j, j ≤ n → (elapsed j < 60000)%N) →
  ∃ s', check_and_wait elapsed now meanwhile others s worker cmd why = Some (verdict d, s') ∧
        pending_proposal s' worker = None ∧ decided s' = None.
Proof.
  intros Hd Hm Hq Hn He. unfold check_and_wait. rewrite Hd. cbn [negb].
  destruct (wait_decided d n poll_fuel 0 (propose meanwhile s worker cmd why (now 0)))
    as (s' & -> & Hp & Hk).
  - rewrite decided_propose, Hm. unfold decided. by rewrite kv_get_typed_del.
  - intros j s1 Hj. apply Hq. lia.
  - done.
  - done.
  - specialize (He n ltac:(lia)). specialize (elapsed_lower n). unfold poll_fuel. lia.
  - eexists. split; [done|]. unfold pending_proposal, decided, kv_get_typed. by rewrite Hp, Hk.
Qed.
End gate_props.

(** ** Workers *)

Section workers.
Context {S : Type} `{KvLaws S}.

(** Workers are isolated: a decision about one worker's command neither
    decides nor withdraws the command of another (worker names contain no
    colon), and a proposal is visible to NEXUS as it was made. *)
Theorem gate_workers_are_isolated (s : S) w w' cmd why now (d : CommandDecision) :
  w ≠ w' → no_char ":" w' = true →
  let s' := match d with Approved => approve s w | Rejected r => reject s w r end in
  decided w' s' = decided w' s ∧ pending_proposal s' w' = pending_proposal s w' ∧
  decided w s' = Some d ∧
  pending_proposal (propose id s w cmd why now) w = Some (mkProposal w cmd why High).
Proof.
  intros Hne Hc s'.
  assert (s' = kv_set_typed s (decision_key w) d) as -> by (by destruct d).
  assert (decision_key w ≠ decision_key w') by (by intros ?%decision_key_inj).
  pose proof (decision_proposal_ne_other w w' Hc).
  split_and!.
  - apply kv_get_typed_ext. unfold kv_set_typed. by kv_simpl.
  - apply kv_get_typed_ext. unfold kv_set_typed. by kv_simpl.
  - apply kv_get_typed_set_eq.
  - unfold pending_proposal, propose, kv_get_typed, kv_set_typed. kv_simpl.
    cbn [mbind option_bind]. by rewrite from_to_value.
Qed.
End workers.

(** ** Dangerous commands *)

(** The danger check cannot be dodged by embedding or by letter case:
    whatever surrounds a dangerous command, and however it is capitalised, the
    whole command line is dangerous. *)
Theorem danger_survives_context cmd before after :
  is_dangerous cmd = true →
  is_dangerous (before +:+ cmd +:+ after) = true ∧ is_dangerous (to_lowercase cmd) = true.
Proof.
  unfold is_dangerous. cbv zeta. rewrite to_lowercase_idem. intros H. split; [|done].
  apply existsb_exists in H as (p & Hp & H). apply existsb_exists. exists p. split; [done|].
  apply contains_spec in H as (l & r & H). apply contains_spec.
  exists (to_lowercase before +:+ l), (r +:+ to_lowercase after).
  by rewrite !to_lowercase_app, H, !string_app_assoc.
Qed.

Lemma danger_survives_context_witness :
  is_dangerous ("cd /tmp && " +:+ "RM -rf build" +:+ "; ls") = true.
Proof. exact (proj1 (danger_survives_context "RM -rf build" "cd /tmp && " "; ls" eq_refl)). Defined.

(** The pipe-to-shell patterns are literal: [curl | sh] is only found when
    nothing stands between the program and the pipe, so fetching a script from
    any address and piping it to a shell is not considered dangerous. *)
Theorem piped_download_is_not_dangerous :
  is_dangerous "curl | sh" = true ∧
  is_dangerous "curl https://example.org/install | sh" = false ∧
  is_dangerous "wget -qO- https://example.org/install | sh" = false.
Proof. split_and!; vm_compute; reflexivity. Qed.

(** ** Witnesses on the shared store *)

Definition half_seconds (i : nat) : N := 500 * N.of_nat i.

Lemma gate_refuses_without_approval_witness :
  ∃ msg s', check_and_wait half_seconds (λ _, 0%N) id (λ _ s, s) new_in_memory
              "forge-1" "rm -rf /workspace" "reset" = Some (Err msg, s') ∧
            pending_proposal s' "forge-1" = None.
Proof.
  apply (gate_refuses_without_approval half_seconds (λ _, 0%N) id (λ _ s, s)).
  - intros i. unfold half_seconds. lia.
  - vm_compute. reflexivity.
  - intros s Hs. exact Hs.
  - intros j s Hs. exact Hs.
Defined.

Lemma gate_returns_the_decision_witness :
  ∃ s', check_and_wait half_seconds (λ _, 0%N) id
          (λ j s, if bool_decide (j = 3) then approve s "forge-1" else s)
          new_in_memory "forge-1" "rm -rf /tmp/old" "cleanup" = Some (Ok tt, s') ∧
        pending_proposal s' "forge-1" = None ∧ decided "forge-1" s' = None.
Proof.
  apply (gate_returns_the_decision half_seconds (λ _, 0%N) id
           (λ j s, if bool_decide (j = 3) then approve s "forge-1" else s)
           "forge-1" "rm -rf /tmp/old") with (n := 3) (d := Approved).
  - intros i. unfold half_seconds. lia.
  - vm_compute. reflexivity.
  - reflexivity.
  - intros j s Hj. rewrite bool_decide_eq_false_2 by lia. reflexivity.
  - intros s. rewrite bool_decide_eq_true_2 by reflexivity.
    exact (kv_get_typed_set_eq s (decision_key "forge-1") Approved).
  - intros j Hj. unfold half_seconds. lia.
Defined.

Lemma gate_workers_are_isolated_witness :
  decided "forge-2" (approve new_in_memory "forge-1") = decided "forge-2" new_in_memory.
Proof.
  apply (gate_workers_are_isolated new_in_memory "forge-1" "forge-2" "c" "w" 0 Approved);
    [discriminate|reflexivity].
Defined.
