(* ===== verification/A2AProtocol.v ===== *)
(** * The verification protocol between SENTINEL, the relay and FORGE

    Models [src/crates/a2a-protocol/src]: the request and result records with
    their encodings ([verify.rs]), the command policy ([lib.rs]) and the audit
    keys ([keys.rs]). *)
From S2P Require Import Prelude Text Json.

(** ** 32-bit exit codes *)

Definition in_i32 (z : Z) : Prop := (-2147483648 ≤ z < 2147483648)%Z.
#[export] Instance in_i32_dec z : Decision (in_i32 z).
Proof. unfold in_i32. apply _. Defined.

Definition i32 : Type := dsig in_i32.

(** Numbers are printed without a sign when they are not negative. *)
Definition int_to_value (z : Z) : Value :=
  if bool_decide (z < 0)%Z then VNegInt z else VPosInt (Z.to_N z).

Definition int_of_value (v : Value) : option Z :=
  match v with
  | VPosInt n => Some (Z.of_N n)
  | VNegInt z => Some z
  | _ => None
  end.

#[export] Instance serde_i32 : Serde i32 := {
  to_value z := int_to_value (`z);
  from_value v :=
    match int_of_value v with
    | Some z =>
        match decide (in_i32 z) with
        | left H => Ok (dexist z H)
        | right _ => Err "invalid value: expected i32"
        end
    | None => Err "invalid type: expected i32"
    end
}.

Lemma int_of_to_value z : int_of_value (int_to_value z) = Some z.
Proof.
  unfold int_to_value. case_bool_decide; cbn; [done|]. by rewrite Z2N.id by lia.
Qed.

#[export] Instance serde_i32_laws : SerdeLaws i32.
Proof.
  intros z. cbn [to_value from_value serde_i32]. rewrite int_of_to_value.
  destruct (decide (in_i32 (`z))) as [H|H].
  - f_equal. by apply dsig_eq.
  - destruct H. exact (proj2_dsig z).
Qed.
#[export] Instance non_null_i32 : NonNull i32.
Proof. intros z. cbn. unfold int_to_value. by case_bool_decide. Qed.

(** ** Requests *)

Inductive VerifyKind : Type := Command | ArtifactCheck.
Inductive VerifyCwd : Type := Repo | Worktree.

#[export] Instance serde_kind : Serde VerifyKind := {
  to_value k := VString match k with Command => "command" | ArtifactCheck => "artifact_check" end;
  from_value v :=
    name ← variant_name v;
    if bool_decide (name = "command") then Ok Command
    else if bool_decide (name = "artifact_check") then Ok ArtifactCheck
    else Err "unknown variant"
}.
#[export] Instance serde_kind_laws : SerdeLaws VerifyKind.
Proof. by intros []. Qed.

#[export] Instance serde_cwd : Serde VerifyCwd := {
  to_value k := VString match k with Repo => "repo" | Worktree => "worktree" end;
  from_value v :=
    name ← variant_name v;
    if bool_decide (name = "repo") then Ok Repo
    else if bool_decide (name = "worktree") then Ok Worktree
    else Err "unknown variant"
}.
#[export] Instance serde_cwd_laws : SerdeLaws VerifyCwd.
Proof. by intros []. Qed.

Record VerifyExpect : Type := mkExpect {
  e_exit_code : option i32;
  e_artifacts : list string;
}.

Definition expect_default : VerifyExpect := mkExpect None [].

#[export] Instance serde_expect : Serde VerifyExpect := {
  to_value e := VObject [("exit_code", to_value (e_exit_code e)); ("artifacts", to_value (e_artifacts e))];
  from_value v :=
    v ← struct_form ["exit_code"; "artifacts"] 1 v;
    c ← field_or None "exit_code" v;
    a ← field_or [] "artifacts" v;
    Ok (mkExpect c a)
}.
#[export] Instance serde_expect_laws : SerdeLaws VerifyExpect.
Proof.
  intros e. cbn [to_value from_value serde_expect struct_form mbind result_bind].
  serde_fields. by destruct e.
Qed.

Record VerifyRequest : Type := mkRequest {
  pair_id : string;
  kind : VerifyKind;
  cwd : VerifyCwd;
  argv : list string;
  timeout_secs : u64;
  env_allowlist : list string;
  expect : VerifyExpect;
}.

Definition request_to_value (r : VerifyRequest) : Value :=
  VObject [("pair_id", to_value (pair_id r)); ("kind", to_value (kind r)); ("cwd", to_value (cwd r));
           ("argv", to_value (argv r)); ("timeout_secs", to_value (timeout_secs r));
           ("env_allowlist", to_value (env_allowlist r)); ("expect", to_value (expect r))].

Definition request_from_value (v : Value) : result VerifyRequest :=
  v ← struct_form ["pair_id"; "kind"; "cwd"; "argv"; "timeout_secs"; "env_allowlist"; "expect"] 5 v;
  p ← field "pair_id" v;
  k ← field "kind" v;
  c ← field "cwd" v;
  a ← field "argv" v;
  t ← field "timeout_secs" v;
  env ← field_or [] "env_allowlist" v;
  e ← field_or expect_default "expect" v;
  Ok (mkRequest p k c a t env e).

#[export] Instance serde_request : Serde VerifyRequest :=
  {| to_value := request_to_value; from_value := request_from_value |}.
#[export] Instance serde_request_laws : SerdeLaws VerifyRequest.
Proof.
  intros r. cbn [to_value from_value serde_request]. unfold request_from_value, request_to_value.
  cbn [struct_form mbind result_bind]. serde_fields. by destruct r.
Qed.

(** [VerifyRequest::idempotency_seed]; [print] is [serde_json::to_string]. *)
Definition idempotency_seed (print : Value → string) (r : VerifyRequest) : string :=
  pair_id r +:+ ":" +:+ print (to_value r).

(** ** Results *)

Record VerifyArtifact : Type := mkArtifact {
  path : string;
  sha256 : string;
}.

#[export] Instance serde_artifact : Serde VerifyArtifact := {
  to_value a := VObject [("path", to_value (path a)); ("sha256", to_value (sha256 a))];
  from_value v :=
    v ← struct_form ["path"; "sha256"] 2 v;
    p ← field "path" v;
    s ← field "sha256" v;
    Ok (mkArtifact p s)
}.
#[export] Instance serde_artifact_laws : SerdeLaws VerifyArtifact.
Proof.
  intros a. cbn [to_value from_value serde_artifact struct_form mbind result_bind].
  serde_fields. by destruct a.
Qed.

Record ExecutorInfo : Type := mkExecutor {
  ex_role : string;
  ex_workspace : string;
}.

#[export] Instance serde_executor : Serde ExecutorInfo := {
  to_value a := VObject [("role", to_value (ex_role a)); ("workspace", to_value (ex_workspace a))];
  from_value v :=
    v ← struct_form ["role"; "workspace"] 2 v;
    r ← field "role" v;
    w ← field "workspace" v;
    Ok (mkExecutor r w)
}.
#[export] Instance serde_executor_laws : SerdeLaws ExecutorInfo.
Proof.
  intros a. cbn [to_value from_value serde_executor struct_form mbind result_bind].
  serde_fields. by destruct a.
Qed.

Record VerifyResult : Type := mkResult {
  head_sha : option string;
  task_id : string;
  exit_code : option i32;
  timed_out : bool;
  duration_ms : u64;
  stdout_ref : string;
  stderr_ref : string;
  artifacts : list VerifyArtifact;
  executor : ExecutorInfo;
}.

Definition result_to_value (r : VerifyResult) : Value :=
  VObject [("head_sha", to_value (head_sha r)); ("task_id", to_value (task_id r));
           ("exit_code", to_value (exit_code r)); ("timed_out", to_value (timed_out r));
           ("duration_ms", to_value (duration_ms r)); ("stdout_ref", to_value (stdout_ref r));
           ("stderr_ref", to_value (stderr_ref r)); ("artifacts", to_value (artifacts r));
           ("executor", to_value (executor r))].

Definition result_from_value (v : Value) : result VerifyResult :=
  v ← struct_form ["head_sha"; "task_id"; "exit_code"; "timed_out"; "duration_ms"; "stdout_ref";
                   "stderr_ref"; "artifacts"; "executor"] 9 v;
  h ← field_or None "head_sha" v;
  t ← field "task_id" v;
  c ← field_or None "exit_code" v;
  o ← field "timed_out" v;
  d ← field "duration_ms" v;
  out ← field "stdout_ref" v;
  err ← field "stderr_ref" v;
  a ← field_or [] "artifacts" v;
  e ← field "executor" v;
  Ok (mkResult h t c o d out err a e).

#[export] Instance serde_result : Serde VerifyResult :=
  {| to_value := result_to_value; from_value := result_from_value |}.
#[export] Instance serde_result_laws : SerdeLaws VerifyResult.
Proof.
  intros r. cbn [to_value from_value serde_result]. unfold result_from_value, result_to_value.
  cbn [struct_form mbind result_bind]. serde_fields. by destruct r.
Qed.

(** [VerifyResult::satisfies]. *)
Definition satisfies (self : VerifyResult) (e : VerifyExpect) : bool :=
  if timed_out self then false
  else match e_exit_code e with
       | Some expected => bool_decide (exit_code self = Some expected)
       | None => true
       end.

(** ** Progress events *)

Inductive VerifyProgressEvent : Type :=
  | Stdout (chunk : string)
  | Stderr (chunk : string).

(** [#[serde(tag = "stream")]]: the tag is a field among the others. *)
Definition progress_to_value (e : VerifyProgressEvent) : Value :=
  match e with
  | Stdout c => VObject [("stream", VString "stdout"); ("chunk", VString c)]
  | Stderr c => VObject [("stream", VString "stderr"); ("chunk", VString c)]
  end.

Definition progress_variant (tag : string) (v : Value) : result VerifyProgressEvent :=
  if bool_decide (tag = "stdout") then Stdout <$> field "chunk" v
  else if bool_decide (tag = "stderr") then Stderr <$> field "chunk" v
  else Err "unknown variant".

Definition progress_from_value (v : Value) : result VerifyProgressEvent :=
  match v with
  | VObject _ => tag ← field "stream" v; progress_variant tag v
  | VArray (t :: rest) =>
      tag ← from_value t;
      v ← struct_form ["chunk"] 1 (VArray rest);
      progress_variant tag v
  | _ => Err "invalid type: expected internally tagged enum"
  end.

#[export] Instance serde_progress : Serde VerifyProgressEvent :=
  {| to_value := progress_to_value; from_value := progress_from_value |}.
#[export] Instance serde_progress_laws : SerdeLaws VerifyProgressEvent.
Proof. by intros []. Qed.

(** ** Command policy *)

Definition denied_programs : list string :=
  ["sudo"; "su"; "redis-cli"; "docker"; "podman"; "mount"; "umount"; "mkfs"; "dd"; "shutdown";
   "reboot"; "openflows-harness"].

Definition prohibited_operation (argv : list string) : option string :=
  match argv with
  | [] => None
  | first :: args =>
      let program := rsplit_next (char_eqb "/") first in
      let subcommand := head args in
      let script := args !! 1 in
      if bool_decide (program ∈ denied_programs) then
        Some "privileged, destructive, or coordination-control operation"
      else if bool_decide (program = "rm") &&
              existsb (λ a, bool_decide (a = "/") || bool_decide (a = "/*")) args then
        Some "filesystem-root deletion"
      else if bool_decide (program = "git") && bool_decide (subcommand = Some "push") then
        Some "verification cannot push repository changes"
      else if (bool_decide (program ∈ ["cargo"; "npm"; "pnpm"]) &&
               bool_decide (subcommand ∈ [Some "publish"; Some "deploy"])) ||
              (bool_decide (program ∈ ["npm"; "pnpm"]) && bool_decide (subcommand = Some "run") &&
               bool_decide (script ∈ [Some "publish"; Some "deploy"])) then
        Some "publishing or deployment is not verification"
      else None
  end.

Definition is_allowlisted (argv : list string) : bool :=
  negb (bool_decide (argv = [])) && is_none (prohibited_operation argv).

(** [format!("{:?}", argv)]. *)
Definition debug_list (l : list string) : string := "[" +:+ join ", " (map debug_str l) +:+ "]".

Definition validate_command_argv (argv : list string) : result unit :=
  match argv with
  | [] => Err "Missing verification command. Use: verify request --expect-exit 0 -- cargo test"
  | first :: _ =>
      ensure! all_chars (λ c, negb (is_whitespace c)) first
        or ("The executable contains whitespace: the command was passed as a single argument. Use `verify request --expect-exit 0 -- cargo test --workspace --all-features`, or one --argv per token. Do not quote the whole command. Received argv: "
            +:+ debug_list argv) ;;
      match prohibited_operation argv with
      | Some reason =>
          Err ("verification policy denied: " +:+ reason +:+ "; argv: " +:+ debug_list argv)
      | None => Ok tt
      end
  end.

(** ** Keys *)

Definition verification_key (pair : string) : string := "pair:" +:+ pair +:+ ":verification".
Definition audit_task_key (task : string) : string := "audit:a2a:" +:+ task.
Definition audit_rejected_key : string := "audit:a2a:rejected".

(** ** The policy looks through paths *)

Lemma program_of_path dir p :
  no_char "/" p = true →
  rsplit_next (char_eqb "/") (dir +:+ "/" +:+ p) = p ∧ rsplit_next (char_eqb "/") p = p.
Proof.
  intros Hp.
  assert (split_on (char_eqb "/") p = [p]) as E.
  { apply split_on_clean. transitivity (no_char "/" p); [|exact Hp].
    apply all_chars_ext. intros c. unfold char_eqb. by rewrite Ascii.eqb_sym. }
  assert (rsplit_next (char_eqb "/") p = p) as Ep by (unfold rsplit_next; by rewrite E).
  split; [|done]. by rewrite <- Ep at 2; apply (rsplit_next_sep (char_eqb "/") dir "/" p).
Qed.

(** The command policy cannot be dodged by spelling the program with a path:
    a prohibited program is prohibited from every directory, and whatever is
    accepted by validation is exactly what the policy predicate allows among
    commands whose program is a single word. *)
Theorem policy_looks_through_paths dir p args :
  no_char "/" p = true →
  prohibited_operation ((dir +:+ "/" +:+ p) :: args) = prohibited_operation (p :: args) ∧
  (is_ok (validate_command_argv (p :: args)) = true ↔
   is_allowlisted (p :: args) = true ∧ all_chars (λ c, negb (is_whitespace c)) p = true).
Proof.
  intros Hp. destruct (program_of_path dir p Hp) as [E1 E2]. split.
  - unfold prohibited_operation. by rewrite E1, E2.
  - unfold validate_command_argv, is_allowlisted. destruct (all_chars _ p); [|naive_solver].
    destruct (prohibited_operation _); naive_solver.
Qed.

Lemma policy_looks_through_paths_witness :
  prohibited_operation ["/usr/bin/sudo"; "ls"] = prohibited_operation ["sudo"; "ls"].
Proof. exact (proj1 (policy_looks_through_paths "/usr/bin" "sudo" ["ls"] eq_refl)). Defined.
