(* ===== verification/Relay.v ===== *)
(** * The A2A relay: pair-scoped verification tasks

    Models [src/crates/agent-nexus/src/a2a]: the event buffer and the relay's
    task tables ([routing.rs]), the submission path ([verify_handler.rs]) and
    the JSON-RPC handlers ([http_server.rs]).  The relay runs over the store
    interface.  A relay operation runs to completion before the next starts;
    live server-sent-event delivery is left out.

    Parameters: [print] is [serde_json::to_string], [sha] the hexadecimal
    SHA-256, and [rfc3339_now] the formatted time of a rejection. *)
From S2P Require Import Prelude Text Json Store StoreInterface A2AProtocol.

(** ** Event buffer *)

Record BufferedEvent : Type := mkBuffered {
  seq : u64;
  event : VerifyProgressEvent;
  timestamp : Z;
}.

Record EventBuffer : Type := mkBuffer {
  events : list BufferedEvent;
  next_seq : u64;
  max_events : nat;
  max_bytes : N;
  current_bytes : N;
}.

Definition MAX_EVENTS : nat := 1000.
Definition MAX_BYTES : N := 1048576.

Definition buffer_new : EventBuffer := mkBuffer [] 0 MAX_EVENTS MAX_BYTES 0.

Inductive TaskState : Type := Pending | Running | Completed | Cancelled.
#[export] Instance task_state_eq_dec : EqDecision TaskState.
Proof. solve_decision. Defined.

Section relay.
Context {S : Type} `{KvStore S}.
Variable print : Value → string.
Variable sha : string → string.
Variable rfc3339_now : string.

(** The size of an event as it is printed. *)
Definition event_size (e : VerifyProgressEvent) : N :=
  N.of_nat (String.length (print (to_value e))).

(** The eviction loop, oldest first.  An iteration with nothing left to evict
    would change nothing, and the loop would not end: [None]. *)
Fixpoint evict (max_ev : nat) (max_by : N) (l : list BufferedEvent) (bytes : N)
  : option (list BufferedEvent * N) :=
  if (max_ev <? length l) || (max_by <? bytes)%N then
    match l with
    | [] => None
    | evicted :: l => evict max_ev max_by l (bytes - event_size (event evicted))%N
    end
  else Some (l, bytes).

(** [EventBuffer::push]. *)
Definition push (self : EventBuffer) (e : VerifyProgressEvent) (now : Z)
  : option (BufferedEvent * EventBuffer) :=
  let size := event_size e in
  let buffered := mkBuffered (next_seq self) e now in
  '(l, bytes) ← evict (max_events self) (max_bytes self)
                      (events self ++ [buffered]) (current_bytes self + size)%N;
  Some (buffered, mkBuffer l (u64_succ (next_seq self)) (max_events self) (max_bytes self) bytes).

(** [EventBuffer::events_since] and [EventBuffer::current_seq]. *)
Definition events_since (self : EventBuffer) (last_seq : u64) : list BufferedEvent :=
  List.filter (λ e, (last_seq <=? seq e)%N) (events self).
Definition current_seq (self : EventBuffer) : u64 := (next_seq self - 1)%N.

(** ** Tasks *)

Record TaskEntry : Type := mkTask {
  t_task_id : string;
  t_request : VerifyRequest;
  t_idempotency_key : string;
  t_requester : string;
  t_state : TaskState;
  t_result : option VerifyResult;
}.

Record A2ASession : Type := mkSession {
  s_pair_id : string;
  s_role : string;
  s_workspace_id : string;
}.

(** The tables of [A2ARelay].  Instants are in milliseconds. *)
Record A2ARelay : Type := mkRelay {
  r_store : S;
  sessions : gmap (string * string) A2ASession;
  tasks : gmap string TaskEntry;
  idempotency : gmap string string;
  idempotency_ts : gmap string N;
  event_buffers : gmap string EventBuffer;
  broadcast_senders : gset string;
  cancel_tokens : gmap string bool;
}.

Definition relay_new (store : S) : A2ARelay := mkRelay store ∅ ∅ ∅ ∅ ∅ ∅ ∅.

Definition set_store (x : S) (r : A2ARelay) : A2ARelay :=
  mkRelay x (sessions r) (tasks r) (idempotency r) (idempotency_ts r) (event_buffers r)
    (broadcast_senders r) (cancel_tokens r).
Definition set_sessions x (r : A2ARelay) : A2ARelay :=
  mkRelay (r_store r) x (tasks r) (idempotency r) (idempotency_ts r) (event_buffers r)
    (broadcast_senders r) (cancel_tokens r).
Definition set_tasks x (r : A2ARelay) : A2ARelay :=
  mkRelay (r_store r) (sessions r) x (idempotency r) (idempotency_ts r) (event_buffers r)
    (broadcast_senders r) (cancel_tokens r).
Definition set_idempotency x y (r : A2ARelay) : A2ARelay :=
  mkRelay (r_store r) (sessions r) (tasks r) x y (event_buffers r)
    (broadcast_senders r) (cancel_tokens r).
Definition set_event_buffers x (r : A2ARelay) : A2ARelay :=
  mkRelay (r_store r) (sessions r) (tasks r) (idempotency r) (idempotency_ts r) x
    (broadcast_senders r) (cancel_tokens r).
Definition set_broadcast_senders x (r : A2ARelay) : A2ARelay :=
  mkRelay (r_store r) (sessions r) (tasks r) (idempotency r) (idempotency_ts r)
    (event_buffers r) x (cancel_tokens r).
Definition set_cancel_tokens x (r : A2ARelay) : A2ARelay :=
  mkRelay (r_store r) (sessions r) (tasks r) (idempotency r) (idempotency_ts r)
    (event_buffers r) (broadcast_senders r) x.

Definition set_t_state x (t : TaskEntry) : TaskEntry :=
  mkTask (t_task_id t) (t_request t) (t_idempotency_key t) (t_requester t) x (t_result t).
Definition set_t_result x (t : TaskEntry) : TaskEntry :=
  mkTask (t_task_id t) (t_request t) (t_idempotency_key t) (t_requester t) (t_state t) x.

(** ** Sessions *)

Definition register_session (pair role workspace : string) (r : A2ARelay) : A2ARelay :=
  set_sessions (<[(pair, role) := mkSession pair role workspace]> (sessions r)) r.
Definition deregister_session (pair role : string) (r : A2ARelay) : A2ARelay :=
  set_sessions (delete (pair, role) (sessions r)) r.
Definition get_session (pair role : string) (r : A2ARelay) : option A2ASession :=
  sessions r !! (pair, role).

(** ** Pair tokens *)

Definition pair_token_key (pair : string) : string := "pair:" +:+ pair +:+ ":a2a_token_sha256".

Definition record_pair_token (pair token : string) (r : A2ARelay) : result A2ARelay :=
  ensure! negb (is_blank pair) or "pair_id must not be empty" ;;
  ensure! negb (is_blank token) or "pair token must not be empty" ;;
  Ok (set_store (kv_set (r_store r) (pair_token_key pair) (VString (sha token))) r).

Definition verify_pair_token (pair token : string) (r : A2ARelay) : result unit :=
  ensure! negb (is_blank pair) or "pair_id must not be empty" ;;
  ensure! negb (is_blank token)
    or "A2A pair token is required; reprovision Sentinel/FORGE workspaces" ;;
  match kv_get_typed (r_store r) (pair_token_key pair) with
  | None => Err ("A2A pair token is not registered for " +:+ pair +:+
                 "; reprovision Sentinel/FORGE workspaces")
  | Some expected =>
      ensure! bool_decide (expected = sha token) or ("A2A pair token mismatch for " +:+ pair) ;;
      Ok tt
  end.

(** ** Submission *)

Definition MAX_TIMEOUT_SECS : u64 := 3600.

Definition validate_verify_request (req : VerifyRequest) (requester_pair_id : string) : result unit :=
  ensure! bool_decide (pair_id req = requester_pair_id)
    or ("pair_id mismatch: request says " +:+ pair_id req +:+ ", requester is " +:+
        requester_pair_id) ;;
  _ ← validate_command_argv (argv req);
  ensure! negb (bool_decide (timeout_secs req = 0%N)) or "timeout_secs must be > 0" ;;
  ensure! (timeout_secs req <=? MAX_TIMEOUT_SECS)%N or "timeout_secs exceeds maximum (3600)" ;;
  Ok tt.

Definition request_key (task : string) : string := audit_task_key task +:+ ":request".
Definition result_key (task : string) : string := audit_task_key task +:+ ":result".

Definition mirror_request (task : string) (req : VerifyRequest) (r : A2ARelay) : A2ARelay :=
  set_store (kv_set (r_store r) (request_key task) (to_value req)) r.

Definition mirror_result (pair : string) (res : VerifyResult) (r : A2ARelay) : A2ARelay :=
  let s := kv_set (r_store r) (verification_key pair) (to_value res) in
  set_store (kv_set s (result_key (task_id res)) (to_value res)) r.

Definition is_active (t : TaskEntry) : bool :=
  match t_state t with Pending | Running => true | _ => false end.

(** [A2ARelay::check_or_create_task]; [fresh] is the generated identifier. *)
Definition check_or_create_task (req : VerifyRequest) (requester fresh : string) (now : N)
  (r : A2ARelay) : string * A2ARelay :=
  let key := idempotency_seed print req in
  match (id ← idempotency r !! key; t ← tasks r !! id; if is_active t then Some id else None) with
  | Some id => (id, r)
  | None =>
      let entry := mkTask fresh req key requester Pending None in
      (fresh,
       r ▷ set_tasks (<[fresh := entry]> (tasks r))
         ▷ set_idempotency (<[key := fresh]> (idempotency r)) (<[key := now]> (idempotency_ts r))
         ▷ mirror_request fresh req
         ▷ set_event_buffers
             (<[fresh := from_option id buffer_new (event_buffers r !! fresh)]> (event_buffers r))
         ▷ set_broadcast_senders ({[fresh]} ∪ broadcast_senders r))
  end.

(** [log_rejected_request]. *)
Definition log_rejected_request (req : VerifyRequest) (reason : string) (r : A2ARelay) : A2ARelay :=
  let entry := VObject [("pair_id", VString (pair_id req)); ("argv", to_value (argv req));
                        ("reason", VString reason); ("timestamp", VString rfc3339_now)] in
  set_store (kv_set (r_store r) audit_rejected_key (VString (print entry))) r.

(** [submit_verify_request]. *)
Definition submit_verify_request (req : VerifyRequest) (requester fresh : string) (now : N)
  (r : A2ARelay) : result string * A2ARelay :=
  match validate_verify_request req requester with
  | Err e => (Err e, log_rejected_request req e r)
  | Panic => (Panic, r)
  | Ok _ => let '(id, r') := check_or_create_task req requester fresh now r in (Ok id, r')
  end.

(** ** Execution *)

(** [A2ARelay::claim_next_task].  [order] is the order in which the task table
    happens to be iterated. *)
Definition claim_next_task (order : list string) (pair : string) (r : A2ARelay)
  : option TaskEntry * A2ARelay :=
  let wanted id :=
    is_some_and (λ t, bool_decide (pair_id (t_request t) = pair) && bool_decide (t_state t = Pending))
      (tasks r !! id) in
  match (id ← List.find wanted order; t ← tasks r !! id; Some (id, t)) with
  | Some (id, entry) => (Some entry, set_tasks (<[id := set_t_state Running entry]> (tasks r)) r)
  | None => (None, r)
  end.

Definition get_task_request (task : string) (r : A2ARelay) : option VerifyRequest :=
  kv_get_typed (r_store r) (request_key task).
Definition get_task_result (task : string) (r : A2ARelay) : option VerifyResult :=
  kv_get_typed (r_store r) (result_key task).

(** [A2ARelay::complete_task]. *)
Definition complete_task (task : string) (res : VerifyResult) (r : A2ARelay) : result A2ARelay :=
  match (match t_request <$> tasks r !! task with
         | Some q => Some q
         | None => get_task_request task r
         end) with
  | None => Err ("task not found: " +:+ task)
  | Some request =>
      let r := mirror_result (pair_id request) res r in
      let entry :=
        from_option id
          (mkTask task request (idempotency_seed print request) "audit-recovery" Running None)
          (tasks r !! task) in
      Ok (set_tasks (<[task := entry ▷ set_t_state Completed ▷ set_t_result (Some res)]> (tasks r)) r)
  end.

Definition get_task_state (task : string) (r : A2ARelay) : option TaskState :=
  t_state <$> tasks r !! task.

(** [A2ARelay::get_task]: a task whose result is stored is reported completed,
    also after a restart has lost the tables. *)
Definition get_task (task : string) (r : A2ARelay) : option TaskEntry :=
  match tasks r !! task with
  | Some entry =>
      if is_some (t_result entry) || bool_decide (t_state entry = Completed) then Some entry
      else match get_task_result task r with
           | Some res => Some (entry ▷ set_t_state Completed ▷ set_t_result (Some res))
           | None => Some entry
           end
  | None =>
      request ← get_task_request task r;
      res ← get_task_result task r;
      Some (mkTask task request (idempotency_seed print request) "audit-recovery" Completed (Some res))
  end.

(** [A2ARelay::cancel_task]. *)
Definition cancel_task (task : string) (res : VerifyResult) (r : A2ARelay) : result A2ARelay :=
  match tasks r !! task with
  | None => Err ("task not found: " +:+ task)
  | Some entry =>
      Ok (r ▷ set_cancel_tokens (<[task := true]> (cancel_tokens r))
            ▷ mirror_result (pair_id (t_request entry)) res
            ▷ set_tasks (<[task := entry ▷ set_t_state Cancelled ▷ set_t_result (Some res)]> (tasks r)))
  end.

(** [A2ARelay::mark_cancelled], [A2ARelay::create_cancel_token] and
    [A2ARelay::is_cancelled]. *)
Definition mark_cancelled (task : string) (r : A2ARelay) : bool * A2ARelay :=
  (negb (from_option id false (cancel_tokens r !! task)),
   set_cancel_tokens (<[task := true]> (cancel_tokens r)) r).
Definition create_cancel_token (task : string) (r : A2ARelay) : bool * A2ARelay :=
  let flag := from_option id false (cancel_tokens r !! task) in
  (flag, set_cancel_tokens (<[task := flag]> (cancel_tokens r)) r).
Definition is_cancelled (task : string) (r : A2ARelay) : bool :=
  from_option id false (cancel_tokens r !! task).

(** ** Expiry *)

Definition IDEMPOTENCY_TTL_SECS : N := 3600.

(** Whether [cleanup_idempotency] evicts the key. *)
Definition is_stale (now : N) (r : A2ARelay) (key : string) : bool :=
  is_some_and (λ t, (IDEMPOTENCY_TTL_SECS <? (now - t) / 1000)%N) (idempotency_ts r !! key) &&
  match (id ← idempotency r !! key; tasks r !! id) with
  | Some t => negb (is_active t)
  | None => true
  end.

Definition evict_key (r : A2ARelay) (key : string) : A2ARelay :=
  let r := match idempotency r !! key with
           | Some id => r ▷ set_idempotency (delete key (idempotency r)) (idempotency_ts r)
                          ▷ set_tasks (delete id (tasks r))
           | None => r
           end in
  set_idempotency (idempotency r) (delete key (idempotency_ts r)) r.

(** [A2ARelay::cleanup_idempotency]. *)
Definition cleanup_idempotency (now : N) (r : A2ARelay) : A2ARelay :=
  foldl evict_key r (List.filter (is_stale now r) (map fst (map_to_list (idempotency_ts r)))).

(** ** Progress *)

(** [A2ARelay::push_progress_event]. *)
Definition push_progress_event (task : string) (e : VerifyProgressEvent) (now : Z) (r : A2ARelay)
  : option (BufferedEvent * A2ARelay) :=
  '(buffered, b) ← push (from_option id buffer_new (event_buffers r !! task)) e now;
  Some (buffered, set_event_buffers (<[task := b]> (event_buffers r)) r).

Definition replay_events_since (task : string) (last_seq : u64) (r : A2ARelay) : list BufferedEvent :=
  match event_buffers r !! task with
  | Some b => events_since b last_seq
  | None => []
  end.
Definition current_event_seq (task : string) (r : A2ARelay) : u64 :=
  from_option current_seq 0%N (event_buffers r !! task).
End relay.
