(* ===== verification/RelayRpc.v ===== *)
(** * The relay's JSON-RPC handlers

    Models [src/crates/agent-nexus/src/a2a/http_server.rs]: [handle_rpc] and the
    handlers it dispatches to.  A handler is a computation over the relay; what
    it wrote before an error stays written. *)
From S2P Require Import Prelude Text Json Store StoreInterface A2AProtocol Relay.

(** [params.get(k).and_then(as_str).context(msg)]. *)
Definition param_str (k msg : string) (params : Value) : result string :=
  match Json.get k params ≫= as_str with
  | Some s => Ok s
  | None => Err msg
  end.

Definition pair_token (params : Value) : result string :=
  param_str "pair_token" "A2A pair_token is required" params.

Definition state_str (s : TaskState) : string :=
  match s with
  | Pending => "pending"
  | Running => "running"
  | Completed => "completed"
  | Cancelled => "cancelled"
  end.

Definition buffered_to_value (b : BufferedEvent) : Value :=
  VObject [("seq", VPosInt (seq b)); ("event", to_value (event b));
           ("timestamp", int_to_value (timestamp b))].

(** How a call is answered. *)
Inductive Reply : Type :=
  | RpcResult (v : Value)
  | RpcError (code : Z) (message : string).

Section rpc.
Context {S : Type} `{KvStore S}.
Variable print : Value → string.
Variable sha : string → string.
Variable rfc3339_now : string.

Notation Relay := (@A2ARelay S).

(** The caller proves that it belongs to [pair]. *)
Definition authenticate (pair : string) (params : Value) : St Relay unit := λ r,
  (token ← pair_token params; verify_pair_token sha pair token r, r).

(** The refusal when the task belongs to another pair. *)
Definition pair_mismatch (method owner pair : string) : string :=
  method +:+ " pair_id mismatch: task belongs to " +:+ owner +:+ " but caller claims " +:+ pair.

(** [message/send].  The first component is set when the error is one the
    caller can correct ([InvalidVerifyRequest]). *)
Definition handle_message_send (params : Value) (fresh : string) (now : N) (r : Relay)
  : (bool * result Value) * Relay :=
  let raw := match Json.get "message" params ≫= Json.get "task" with
             | Some v => v
             | None => params
             end in
  match from_value raw with
  | Ok req =>
      match authenticate (pair_id req) params r with
      | (Ok _, r) =>
          match submit_verify_request print rfc3339_now req (pair_id req) fresh now r with
          | (Ok id, r') =>
              ((false, Ok (VObject [("task_id", VString id); ("status", VString "pending")])), r')
          | (Err e, r') => ((true, Err e), r')
          | (Panic, r') => ((false, Panic), r')
          end
      | (Err e, r) => ((false, Err e), r)
      | (Panic, r) => ((false, Panic), r)
      end
  | Err e => ((true, Err ("Invalid VerifyRequest: " +:+ e)), r)
  | Panic => ((false, Panic), r)
  end.

(** [tasks/get]. *)
Definition handle_tasks_get (params : Value) : St Relay Value :=
  task ← st_lift (param_str "task_id" "tasks/get requires string task_id" params);
  pair ← st_lift (param_str "pair_id" "tasks/get requires string pair_id" params);
  _ ← authenticate pair params;
  found ← st_gets (get_task print task);
  match found with
  | None => st_lift (Err "task not found")
  | Some entry =>
      if negb (bool_decide (pair_id (t_request entry) = pair)) then
        st_lift (Err (pair_mismatch "tasks/get" (pair_id (t_request entry)) pair))
      else
        mret (VObject
          ([("task_id", VString (t_task_id entry)); ("pair_id", VString (pair_id (t_request entry)));
            ("status", VString (state_str (t_state entry)))] ++
           match t_result entry with
           | Some res => [("result", to_value res)]
           | None => []
           end))
  end.

(** [tasks/claim]. *)
Definition handle_tasks_claim (params : Value) (order : list string) : St Relay Value :=
  pair ← st_lift (param_str "pair_id" "tasks/claim requires string pair_id" params);
  role ← st_lift (param_str "role" "tasks/claim requires string role" params);
  if negb (eq_ignore_case role "forge") then
    st_lift (Err "tasks/claim is only available to the forge executor role")
  else
    _ ← authenticate pair params;
    if negb (bool_decide ((Json.get "checkout_version" params ≫= as_u64) = Some 3%N)) then
      st_lift (Err "Executor upgrade required: verification checkout with workspace login environment (version 3) is mandatory")
    else λ r,
      match claim_next_task order pair r with
      | (Some entry, r') =>
          (Ok (VObject [("task_id", VString (t_task_id entry)); ("request", to_value (t_request entry))]),
           r')
      | (None, r') => (Ok VNull, r')
      end.

(** [tasks/complete]. *)
Definition handle_tasks_complete (params : Value) : St Relay Value :=
  task ← st_lift (param_str "task_id" "tasks/complete requires string task_id" params);
  pair ← st_lift (param_str "pair_id" "tasks/complete requires string pair_id" params);
  _ ← authenticate pair params;
  res ← st_lift match Json.get "result" params with
                | None => Err "tasks/complete requires a result"
                | Some v => match from_value (A:=VerifyResult) v with
                            | Ok res => Ok res
                            | _ => Err "tasks/complete requires a valid VerifyResult result"
                            end
                end;
  if negb (bool_decide (task_id res = task)) then
    st_lift (Err ("tasks/complete task_id mismatch: result carries " +:+ task_id res +:+
                  ", request says " +:+ task))
  else
    owner ← st_gets (λ r, match get_task print task r with
                          | Some entry => Some (pair_id (t_request entry))
                          | None => pair_id <$> get_task_request task r
                          end);
    if is_some_and (λ o, negb (bool_decide (o = pair))) owner then
      st_lift (Err (pair_mismatch "tasks/complete" (from_option id "" owner) pair))
    else
      λ r, match complete_task print task res r with
           | Ok r' => (Ok (VObject [("task_id", VString task); ("status", VString "completed")]), r')
           | Err e => (Err e, r)
           | Panic => (Panic, r)
           end.

(** The result a cancelled task is given. *)
Definition cancelled_result (task pair : string) : VerifyResult :=
  mkResult None task None false 0 ("audit:a2a:" +:+ task +:+ ":stdout")
    ("audit:a2a:" +:+ task +:+ ":stderr") [] (mkExecutor "forge" ("unknown-" +:+ pair)).

(** [tasks/cancel]. *)
Definition handle_tasks_cancel (params : Value) : St Relay Value :=
  task ← st_lift (param_str "task_id" "tasks/cancel requires string task_id" params);
  pair ← st_lift (param_str "pair_id" "tasks/cancel requires string pair_id" params);
  _ ← authenticate pair params;
  found ← st_gets (get_task print task);
  match found with
  | Some entry =>
      if negb (bool_decide (pair_id (t_request entry) = pair)) then
        st_lift (Err (pair_mismatch "tasks/cancel" (pair_id (t_request entry)) pair))
      else
        _ ← st_modify (λ r,
              if is_active entry then
                match cancel_task task (cancelled_result task (pair_id (t_request entry))) r with
                | Ok r' => r'
                | _ => r
                end
              else r);
        mret (VObject [("task_id", VString task); ("cancelled", VBool true)])
  | None => mret (VObject [("task_id", VString task); ("cancelled", VBool true)])
  end.

(** [tasks/resubscribe]. *)
Definition handle_tasks_resubscribe (params : Value) : St Relay Value :=
  task ← st_lift (param_str "task_id" "tasks/resubscribe requires string task_id" params);
  let last := from_option id 0%N (Json.get "last_event_id" params ≫= as_u64) in
  st_gets (λ r,
    let evs := replay_events_since task last r in
    VObject [("task_id", VString task); ("events", VArray (map buffered_to_value evs));
             ("current_seq", VPosInt (current_event_seq task r));
             ("event_count", VPosInt (N.of_nat (length evs)))]).

(** [tasks/push_progress]; [Panic] stands for an eviction that would not end. *)
Definition handle_tasks_progress (params : Value) (now : Z) : St Relay Value :=
  task ← st_lift (param_str "task_id" "tasks/push_progress requires string task_id" params);
  pair ← st_lift (param_str "pair_id" "tasks/push_progress requires string pair_id" params);
  _ ← authenticate pair params;
  found ← st_gets (get_task print task);
  if is_some_and (λ e, negb (bool_decide (pair_id (t_request e) = pair))) found then
    st_lift (Err (pair_mismatch "tasks/push_progress"
                    (from_option (λ e, pair_id (t_request e)) "" found) pair))
  else
    e ← st_lift match from_value (A:=VerifyProgressEvent) params with
                | Ok e => Ok e
                | _ => Err "tasks/push_progress requires valid VerifyProgressEvent params"
                end;
    ((λ r, match push_progress_event print task e now r with
           | Some (b, r') => (Ok (VObject [("task_id", VString task); ("seq", VPosInt (seq b))]), r')
           | None => (Panic, r)
           end) : St Relay Value).

(** What a call may depend on besides its arguments: a fresh identifier, the
    clocks and the iteration order of the task table. *)
Record Chance : Type := mkChance {
  fresh : string;
  instant : N;
  wall : Z;
  order : list string;
}.

(** [handle_rpc]: [None] when the handler did not end. *)
Definition handle_rpc (method : string) (params : Value) (c : Chance) (r : Relay)
  : option Reply * Relay :=
  let answer (invalid : bool) (res : result Value) : option Reply :=
    match res with
    | Ok v => Some (RpcResult v)
    | Err e =>
        Some (if invalid then RpcError (-32602) e
              else RpcError (-32603) "Internal error; inspect NEXUS relay logs for this request")
    | Panic => None
    end in
  let plain (m : St Relay Value) := let '(res, r') := m r in (answer false res, r') in
  if bool_decide (method = "message/send") then
    let '((invalid, res), r') := handle_message_send params (fresh c) (instant c) r in
    (answer invalid res, r')
  else if bool_decide (method = "tasks/get") then plain (handle_tasks_get params)
  else if bool_decide (method = "tasks/claim") then plain (handle_tasks_claim params (order c))
  else if bool_decide (method = "tasks/complete") then plain (handle_tasks_complete params)
  else if bool_decide (method = "tasks/cancel") then plain (handle_tasks_cancel params)
  else if bool_decide (method = "tasks/resubscribe") then plain (handle_tasks_resubscribe params)
  else if bool_decide (method = "tasks/push_progress") then plain (handle_tasks_progress params (wall c))
  else (Some (RpcError (-32601) ("Method not found: " +:+ method)), r).
End rpc.
