(* ===== verification/RelayFacts.v ===== *)
(** * Invariants of the relay

    What holds of a relay that is only used through its JSON-RPC interface and
    its maintenance operations, and that every operation keeps it so. *)
From S2P Require Import Prelude Text Json Store StoreInterface A2AProtocol Relay RelayRpc.

(** ** The store keys do not collide *)

Lemma result_key_inj t t' : result_key t = result_key t' → t = t'.
Proof.
  unfold result_key, audit_task_key. intros E. apply string_app_inv_r in E.
  by apply string_app_inv_l in E.
Qed.

Lemma request_key_inj t t' : request_key t = request_key t' → t = t'.
Proof.
  unfold request_key, audit_task_key. intros E. apply string_app_inv_r in E.
  by apply string_app_inv_l in E.
Qed.

Lemma colon_not_rejected a b : a +:+ ":" +:+ b ≠ "rejected".
Proof.
  intros E. assert (no_char ":" "rejected" = true) as H by reflexivity.
  rewrite <- E in H. unfold no_char in H. rewrite !all_chars_app in H.
  apply andb_true_iff in H as [_ H]. done.
Qed.

Lemma request_result_ne t t' : request_key t ≠ result_key t'.
Proof.
  unfold request_key, result_key. change ":request" with (":re" +:+ "quest").
  change ":result" with (":r" +:+ "esult"). rewrite <- !string_app_assoc. by apply app_suffix_ne.
Qed.

Lemma request_rejected_ne t : request_key t ≠ audit_rejected_key.
Proof.
  unfold request_key, audit_task_key, audit_rejected_key. rewrite string_app_assoc.
  change "audit:a2a:rejected" with ("audit:a2a:" +:+ "rejected"). intros E.
  apply string_app_inv_l in E. exact (colon_not_rejected t "request" E).
Qed.

Lemma result_rejected_ne t : result_key t ≠ audit_rejected_key.
Proof.
  unfold result_key, audit_task_key, audit_rejected_key. rewrite string_app_assoc.
  change "audit:a2a:rejected" with ("audit:a2a:" +:+ "rejected"). intros E.
  apply string_app_inv_l in E. exact (colon_not_rejected t "result" E).
Qed.

Lemma verification_request_ne p t : verification_key p ≠ request_key t.
Proof. done. Qed.
Lemma verification_result_ne p t : verification_key p ≠ result_key t.
Proof. done. Qed.
Lemma token_request_ne p t : pair_token_key p ≠ request_key t.
Proof. done. Qed.
Lemma token_result_ne p t : pair_token_key p ≠ result_key t.
Proof. done. Qed.

#[export] Hint Resolve request_result_ne verification_request_ne verification_result_ne
  token_request_ne token_result_ne : kv_keys.
#[export] Hint Extern 1 (audit_rejected_key ≠ _) =>
  apply not_eq_sym; first [apply request_rejected_ne | apply result_rejected_ne] : kv_keys.
#[export] Hint Extern 1 (result_key _ ≠ request_key _) =>
  apply not_eq_sym, request_result_ne : kv_keys.

Section facts.
Context {S : Type} `{KvLaws S}.
Variable print : Value → string.
Variable sha : string → string.
Variable rfc3339_now : string.

Notation Relay := (@A2ARelay S).
Notation seed := (idempotency_seed print).
Implicit Types r : Relay.

(** ** What the relay maintains *)

Definition is_terminal (t : TaskEntry) : Prop := t_state t = Completed ∨ t_state t = Cancelled.

Record RInv (r : Relay) : Prop := {
  inv_id id t : tasks r !! id = Some t → t_task_id t = id ∧ t_idempotency_key t = seed (t_request t);
  inv_active id t : tasks r !! id = Some t → is_active t = true →
    idempotency r !! seed (t_request t) = Some id;
  inv_policy id t : tasks r !! id = Some t → is_active t = true →
    validate_verify_request (t_request t) (pair_id (t_request t)) = Ok tt;
  inv_request id t : tasks r !! id = Some t → get_task_request id r = Some (t_request t);
  inv_result id t : tasks r !! id = Some t → is_terminal t →
    ∃ res, t_result t = Some res ∧ task_id res = id ∧ get_task_result id r = Some res;
  inv_map key id : idempotency r !! key = Some id →
    ∃ t, tasks r !! id = Some t ∧ seed (t_request t) = key;
}.

Lemma RInv_new s : RInv (relay_new s).
Proof. constructor; intros id t Ht; cbn in Ht; by rewrite lookup_empty in Ht. Qed.

(** Tables and audit records are what the invariant speaks about. *)
Lemma RInv_ext (r r' : Relay) :
  tasks r' = tasks r → idempotency r' = idempotency r →
  (∀ k, (∃ id, k = request_key id ∨ k = result_key id) → kv_get (r_store r') k = kv_get (r_store r) k) →
  RInv r → RInv r'.
Proof.
  intros Ht Hi Hk [I1 I2 I3 I4 I5 I6].
  assert (∀ id, get_task_request id r' = get_task_request id r) as Hq
    by (intros id; apply kv_get_typed_ext, Hk; eauto).
  assert (∀ id, get_task_result id r' = get_task_result id r) as Hs
    by (intros id; apply kv_get_typed_ext, Hk; eauto).
  constructor; intros id t; rewrite ?Ht, ?Hi, ?Hq, ?Hs; eauto.
Qed.

Lemma active_or_terminal (t : TaskEntry) : is_active t = true ∨ is_terminal t.
Proof. unfold is_active, is_terminal. destruct (t_state t); auto. Qed.

Lemma terminal_not_active (t : TaskEntry) : is_terminal t → is_active t = false.
Proof. unfold is_active, is_terminal. by intros [-> | ->]. Qed.

(** ** Submission *)

(** The task a submission would join. *)
Definition joins (req : VerifyRequest) (r : Relay) : option string :=
  id ← idempotency r !! seed req; t ← tasks r !! id; if is_active t then Some id else None.

Lemma joins_Some req r id :
  joins req r = Some id ↔
  idempotency r !! seed req = Some id ∧ ∃ t, tasks r !! id = Some t ∧ is_active t = true.
Proof.
  unfold joins. split.
  - intros Hj. apply bind_Some in Hj as (i & Hi & Hj). apply bind_Some in Hj as (t & Ht & Hj).
    destruct (is_active t) eqn:Ha; simplify_eq. eauto.
  - intros (-> & t & Ht & Ha). cbn. rewrite Ht. cbn. by rewrite Ha.
Qed.

Lemma check_or_create_joins req who new now r id :
  joins req r = Some id → check_or_create_task print req who new now r = (id, r).
Proof. unfold check_or_create_task. cbv zeta. fold (joins req r). by intros ->. Qed.

Lemma check_or_create_RInv req who new now r :
  RInv r → validate_verify_request req (pair_id req) = Ok tt → tasks r !! new = None →
  RInv (check_or_create_task print req who new now r).2.
Proof.
  intros HI Hv Hnew. unfold check_or_create_task. cbv zeta. fold (joins req r).
  destruct (joins req r) as [id|] eqn:Hj; [done|].
  pose proof HI as [I1 I2 I3 I4 I5 I6].
  constructor; [intros id t..|]; cbn [snd tasks set_tasks set_idempotency mirror_request set_store
    set_event_buffers set_broadcast_senders idempotency r_store]; [intros Ht;
    apply lookup_insert_Some in Ht as [[<- <-]|[Hne Ht]]; try done..|].
  - by apply I1.
  - intros _. cbn. by rewrite lookup_insert_eq.
  - intros Ha. specialize (I2 _ _ Ht Ha). rewrite lookup_insert_ne; [done|].
    intros E. rewrite <- E in I2. assert (joins req r = Some id) by (apply joins_Some; eauto).
    congruence.
  - by intros; apply (I3 id t).
  - exact (kv_get_typed_set_eq (r_store r) (request_key new) req).
  - rewrite <- (I4 _ _ Ht). apply kv_get_typed_ext. cbn. apply kv_get_set_ne.
    by intros ?%request_key_inj.
  - by intros [?|?].
  - intros Htm. destruct (I5 _ _ Ht Htm) as (res & ? & ? & Hr). exists res. split_and!; [done..|].
    rewrite <- Hr. apply kv_get_typed_ext. cbn. by kv_simpl.
  - intros key id Hk. apply lookup_insert_Some in Hk as [[<- <-]|[Hne Hk]].
    + eexists. by rewrite lookup_insert_eq.
    + destruct (I6 _ _ Hk) as (t & Ht & Hs). exists t. split; [|done].
      rewrite lookup_insert_ne by congruence. done.
Qed.

Lemma submit_RInv req who new now r :
  RInv r → pair_id req = who → tasks r !! new = None →
  RInv (submit_verify_request print rfc3339_now req who new now r).2.
Proof.
  intros HI <- Hnew. unfold submit_verify_request.
  destruct (validate_verify_request req (pair_id req)) as [[]|e|] eqn:Hv; [| |done].
  - pose proof (check_or_create_RInv req (pair_id req) new now r HI Hv Hnew) as HR.
    by destruct (check_or_create_task _ _ _ _ _ _).
  - cbn [snd]. apply (RInv_ext r); [done..| |exact HI].
    intros k [id [->| ->]]; cbn; by kv_simpl.
Qed.

(** ** Execution *)

Lemma claim_spec order pair r :
  (∃ id t, tasks r !! id = Some t ∧ pair_id (t_request t) = pair ∧ t_state t = Pending ∧
           claim_next_task order pair r =
             (Some t, set_tasks (<[id := set_t_state Running t]> (tasks r)) r)) ∨
  claim_next_task order pair r = (None, r).
Proof.
  unfold claim_next_task. cbv zeta. set (wanted := λ id, is_some_and _ _).
  destruct (List.find wanted order) as [id|] eqn:Hf; [|by right].
  apply find_some in Hf as [_ Hw]. unfold wanted in Hw. bsimp. left. exists id. cbn.
  match goal with E : tasks r !! id = Some _ |- _ => rewrite E end. cbn. eauto 10.
Qed.

(** Changing the state and the result of a task, keeping its request. *)
Lemma RInv_update (r r' : Relay) id t t' :
  RInv r → tasks r !! id = Some t → t_task_id t' = t_task_id t → t_request t' = t_request t →
  t_idempotency_key t' = t_idempotency_key t → tasks r' = <[id := t']> (tasks r) →
  idempotency r' = idempotency r →
  (is_active t' = true → is_active t = true) →
  (∀ k, k ≠ result_key id → (∃ i, k = request_key i ∨ k = result_key i) →
        kv_get (r_store r') k = kv_get (r_store r) k) →
  (is_terminal t' → ∃ res, t_result t' = Some res ∧ task_id res = id ∧ get_task_result id r' = Some res) →
  RInv r'.
Proof.
  intros [I1 I2 I3 I4 I5 I6] Ht Hid Hreq Hkey Hts Hidem Ha Hk Hres.
  assert (∀ i, get_task_request i r' = get_task_request i r) as Hq
    by (intros i; apply kv_get_typed_ext, Hk; [auto with kv_keys|eauto]).
  assert (∀ i, i ≠ id → get_task_result i r' = get_task_result i r) as Hs
    by (intros i Hi; apply kv_get_typed_ext, Hk; [by intros ?%result_key_inj|eauto]).
  constructor; [intros i u; rewrite Hts, ?Hidem, ?Hq; intros Hu;
    apply lookup_insert_Some in Hu as [[<- <-]|[Hne Hu]]..|].
  - rewrite Hid, Hkey, Hreq. by apply I1.
  - by apply I1.
  - intros Hx. rewrite Hreq. apply (I2 id t); auto.
  - by apply I2.
  - intros Hx. rewrite Hreq. apply (I3 id t); auto.
  - by apply (I3 i).
  - rewrite Hreq. by apply I4.
  - by apply I4.
  - done.
  - intros Hx. rewrite Hs by done. by apply I5.
  - intros key i. rewrite Hts, Hidem. intros Hi. destruct (I6 _ _ Hi) as (u & Hu & Hsd).
    destruct (decide (i = id)) as [->|Hne].
    + exists t'. rewrite lookup_insert_eq, Hreq. split; [done|]. congruence.
    + exists u. by rewrite lookup_insert_ne.
Qed.

Lemma claim_RInv order pair r : RInv r → RInv (claim_next_task order pair r).2.
Proof.
  intros HI. destruct (claim_spec order pair r) as [(id & t & Ht & Hp & Hs & ->)| ->]; [|done].
  apply (RInv_update r _ id t (set_t_state Running t)); try done; cbn [snd].
  - unfold is_active. by rewrite Hs.
  - by intros [?|?].
Qed.

Lemma get_result_mirrored pair res r :
  get_task_result (task_id res) (mirror_result pair res r) = Some res.
Proof. exact (kv_get_typed_set_eq _ (result_key (task_id res)) res). Qed.

Lemma mirror_result_frame pair res r k :
  k ≠ result_key (task_id res) → (∃ i, k = request_key i ∨ k = result_key i) →
  kv_get (r_store (mirror_result pair res r)) k = kv_get (r_store r) k.
Proof.
  intros Hne [i Hi]. cbn [mirror_result set_store r_store].
  rewrite kv_get_set_ne by congruence. apply kv_get_set_ne.
  destruct Hi as [->| ->]; auto with kv_keys.
Qed.

Lemma complete_RInv task res r r' :
  RInv r → task_id res = task → complete_task print task res r = Ok r' → RInv r'.
Proof.
  intros HI <- Hc. unfold complete_task in Hc.
  destruct (tasks r !! task_id res) as [t|] eqn:Ht; cbn [fmap option_fmap option_map] in Hc.
  - change (tasks (mirror_result _ _ r)) with (tasks r) in Hc. rewrite Ht in Hc. cbn [from_option id] in Hc.
    injection Hc as <-.
    eapply (RInv_update r _ (task_id res) t (t ▷ set_t_state Completed ▷ set_t_result (Some res)));
      try done.
    + intros k Hk Hi. by apply mirror_result_frame.
    + intros _. exists res. split_and!; [done..|]. apply get_result_mirrored.
  - destruct (get_task_request (task_id res) r) as [req|] eqn:Hq; [|done].
    change (tasks (mirror_result _ _ r)) with (tasks r) in Hc. rewrite Ht in Hc. cbn [from_option id] in Hc.
    injection Hc as <-. pose proof HI as [I1 I2 I3 I4 I5 I6].
    assert (∀ i, get_task_request i (mirror_result (pair_id req) res r) = get_task_request i r) as Hrq
      by (intros i; apply kv_get_typed_ext, mirror_result_frame; [auto with kv_keys|eauto]).
    constructor; [intros i u..|]; cbn [tasks set_tasks idempotency r_store]; [intros Hu;
      apply lookup_insert_Some in Hu as [[<- <-]|[Hne Hu]]; try done..|].
    + by apply I1.
    + by apply I2.
    + by apply (I3 i).
    + cbn. by rewrite <- Hq, <- Hrq.
    + rewrite <- (I4 _ _ Hu), <- Hrq. done.
    + intros _. exists res. split_and!; [done..|]. apply get_result_mirrored.
    + intros Hx. destruct (I5 _ _ Hu Hx) as (res' & ? & ? & Hr). exists res'. split_and!; [done..|].
      rewrite <- Hr. apply kv_get_typed_ext. apply mirror_result_frame; [by intros ?%result_key_inj|eauto].
    + intros key i Hi. destruct (I6 _ _ Hi) as (u & Hu & Hsd). exists u.
      by rewrite lookup_insert_ne by congruence.
Qed.

Lemma cancel_RInv task res r r' :
  RInv r → task_id res = task → cancel_task task res r = Ok r' → RInv r'.
Proof.
  intros HI <- Hc. unfold cancel_task in Hc.
  destruct (tasks r !! task_id res) as [t|] eqn:Ht; [|done]. injection Hc as <-.
  eapply (RInv_update r _ (task_id res) t (t ▷ set_t_state Cancelled ▷ set_t_result (Some res)));
    try done.
  - intros k Hk Hi. exact (mirror_result_frame _ res
      (set_cancel_tokens (<[task_id res := true]> (cancel_tokens r)) r) k Hk Hi).
  - intros _. exists res. split_and!; [done..|]. apply get_result_mirrored.
Qed.

(** ** Expiry *)

(** Evicting a key whose task is not active. *)
Lemma evict_key_RInv key r :
  RInv r →
  (∀ id t, idempotency r !! key = Some id → tasks r !! id = Some t → is_active t = false) →
  RInv (evict_key r key).
Proof.
  intros [I1 I2 I3 I4 I5 I6] Hk. unfold evict_key.
  destruct (idempotency r !! key) as [id0|] eqn:E; [|by constructor].
  constructor; intros id t; cbn; intros Ht; apply lookup_delete_Some in Ht as [Hne Ht]; eauto.
  - intros Ha. specialize (I2 _ _ Ht Ha). apply lookup_delete_Some. split; [|done].
    intros ->. congruence.
  - destruct (I6 _ _ Ht) as (u & Hu & Hsd). exists u. split; [|done].
    apply lookup_delete_Some. split; [|done]. intros <-.
    destruct (I6 _ _ E) as (u' & Hu' & Hsd'). congruence.
Qed.

Lemma evict_key_tasks key r id :
  tasks (evict_key r key) !! id = tasks r !! id ∨
  (tasks (evict_key r key) !! id = None ∧ idempotency r !! key = Some id).
Proof.
  unfold evict_key. destruct (idempotency r !! key) as [id0|] eqn:E; cbn; [|by left].
  destruct (decide (id0 = id)) as [->|Hne].
  - right. by rewrite lookup_delete_eq.
  - left. by rewrite lookup_delete_ne.
Qed.

Lemma evict_key_idempotency key key' r :
  key ≠ key' → idempotency (evict_key r key) !! key' = idempotency r !! key'.
Proof.
  intros Hne. unfold evict_key. destruct (idempotency r !! key) as [id0|]; cbn; [|done].
  by rewrite lookup_delete_ne.
Qed.

(** A list of keys none of whose tasks is active. *)
Definition settled (r : Relay) (keys : list string) : Prop :=
  Forall (λ key, ∀ id t, idempotency r !! key = Some id → tasks r !! id = Some t →
                         is_active t = false) keys.

Lemma settled_evict r key keys : key ∉ keys → settled r keys → settled (evict_key r key) keys.
Proof.
  unfold settled. rewrite !Forall_forall. intros Hnin Hs key' Hin id t Hi Ht.
  rewrite evict_key_idempotency in Hi by (by intros ->).
  destruct (evict_key_tasks key r id) as [E|[E _]]; rewrite E in Ht; [|done]. by eapply Hs.
Qed.

Lemma cleanup_keys now r :
  NoDup (List.filter (is_stale now r) (map fst (map_to_list (idempotency_ts r)))) ∧
  settled r (List.filter (is_stale now r) (map fst (map_to_list (idempotency_ts r)))).
Proof.
  split.
  - apply NoDup_ListNoDup, List.NoDup_filter, NoDup_ListNoDup, NoDup_fst_map_to_list.
  - unfold settled. rewrite Forall_forall. intros key Hin id t Hi Ht.
    apply elem_of_filter_keys in Hin as [_ Hs].
    unfold is_stale in Hs. apply andb_true_iff in Hs as [_ Hs]. rewrite Hi in Hs. cbn in Hs.
    rewrite Ht in Hs. by apply negb_true_iff in Hs.
Qed.

Lemma evict_all_RInv keys : ∀ r,
  NoDup keys → settled r keys → RInv r → RInv (foldl evict_key r keys).
Proof.
  induction keys as [|key keys IH]; intros r Hnd Hs HI; [done|].
  apply NoDup_cons in Hnd as [Hnin Hnd]. inversion Hs as [|? ? Hk Hs']; subst. cbn.
  apply IH; [done|by apply settled_evict|by apply evict_key_RInv].
Qed.

Lemma cleanup_RInv now r : RInv r → RInv (cleanup_idempotency now r).
Proof.
  intros HI. destruct (cleanup_keys now r) as [Hnd Hs]. by apply evict_all_RInv.
Qed.

(** ** Handlers *)

Definition fresh_in (r : Relay) (id : string) : Prop := tasks r !! id = None.

(** The caller showed the token of [pair]. *)
Definition authentic (pair : string) (params : Value) (r : Relay) : Prop :=
  ∃ token, pair_token params = Ok token ∧ verify_pair_token sha pair token r = Ok tt.

Lemma authenticate_Ok pair params r r' u :
  authenticate sha pair params r = (Ok u, r') → r' = r ∧ authentic pair params r.
Proof.
  unfold authenticate. intros E. injection E as E <-. split; [done|].
  apply result_bind_Ok in E as (token & Ht & Hv). destruct u. by exists token.
Qed.

Lemma authenticate_state pair params r : (authenticate sha pair params r).2 = r.
Proof. done. Qed.

(** [st_step] runs a handler one monadic step, keeping what was learnt. *)
Ltac st_step :=
  match goal with
  | |- context [(authenticate sha ?p ?v ≫= ?k) ?r] =>
      let u := fresh "u" in let r1 := fresh "r1" in let E := fresh "E" in
      change ((authenticate sha p v ≫= k) r) with
        (match authenticate sha p v r with
         | (Ok a, s') => k a s' | (Err e, s') => (Err e, s') | (Panic, s') => (Panic, s') end);
      destruct (authenticate sha p v r) as [[u|?|] r1] eqn:E;
      [apply authenticate_Ok in E as [-> ?]
      |pose proof (f_equal snd E) as E'; rewrite authenticate_state in E'; cbn in E'; subst r1
      |pose proof (f_equal snd E) as E'; rewrite authenticate_state in E'; cbn in E'; subst r1]
  | |- context [(st_lift ?m ≫= ?k) ?r] =>
      change ((st_lift m ≫= k) r) with
        (match m with Ok a => k a r | Err e => (Err e, r) | Panic => (Panic, r) end);
      let E := fresh "E" in destruct m as [?|?|] eqn:E
  | |- context [(st_gets ?f ≫= ?k) ?r] => change ((st_gets f ≫= k) r) with (k (f r) r)
  | |- context [(st_modify ?f ≫= ?k) ?r] => change ((st_modify f ≫= k) r) with (k tt (f r))
  end; cbv beta.

Lemma claim_effect params order r :
  (is_ok (handle_tasks_claim sha params order r).1 = false ∧
   (handle_tasks_claim sha params order r).2 = r) ∨
  ∃ pair, authentic pair params r ∧
    (handle_tasks_claim sha params order r).2 = (claim_next_task order pair r).2 ∧
    (handle_tasks_claim sha params order r).1 =
      Ok match (claim_next_task order pair r).1 with
         | Some t => VObject [("task_id", VString (t_task_id t)); ("request", to_value (t_request t))]
         | None => VNull
         end.
Proof.
  unfold handle_tasks_claim. st_step; [|by left..]. st_step; [|by left..].
  destruct (negb _); [by left|]. st_step; [|by left..]. destruct (negb _); [by left|].
  right. eexists. split; [done|]. by destruct (claim_next_task order _ r) as [[]].
Qed.

Lemma complete_effect params r :
  (handle_tasks_complete print sha params r).2 = r ∨
  ∃ pair task res, authentic pair params r ∧ task_id res = task ∧
    (∀ owner, match get_task print task r with
              | Some entry => Some (pair_id (t_request entry))
              | None => pair_id <$> get_task_request task r
              end = Some owner → owner = pair) ∧
    complete_task print task res r = Ok (handle_tasks_complete print sha params r).2.
Proof.
  unfold handle_tasks_complete. st_step; [|by left..]. st_step; [|by left..].
  st_step; [|by left..]. st_step; [|by left..].
  destruct (negb _) eqn:Hid; [by left|]. st_step. bsimp.
  set (owner := match get_task print _ r with Some _ => _ | None => _ end).
  destruct (is_some_and _ owner) eqn:Ho; [by left|].
  destruct (complete_task print _ _ r) as [r'|e|] eqn:Hc; [|by left..].
  right. eexists _, _, _. split_and!; [done|reflexivity| |exact Hc].
  intros o Hw. change (owner = Some o) in Hw. rewrite Hw in Ho. cbn in Ho. by bsimp.
Qed.

Lemma cancel_effect params r :
  (handle_tasks_cancel print sha params r).2 = r ∨
  ∃ pair task entry, authentic pair params r ∧ get_task print task r = Some entry ∧
    pair_id (t_request entry) = pair ∧ is_active entry = true ∧
    cancel_task task (cancelled_result task pair) r = Ok (handle_tasks_cancel print sha params r).2.
Proof.
  unfold handle_tasks_cancel. st_step; [|by left..]. st_step; [|by left..].
  st_step; [|by left..]. st_step.
  destruct (get_task print _ r) as [entry|] eqn:Hg; [|by left].
  destruct (negb _) eqn:Hp; [by left|]. apply negb_false_iff, bool_decide_eq_true in Hp.
  st_step. cbn [mret st_ret snd].
  destruct (is_active entry) eqn:Ha; [|by left].
  destruct (cancel_task _ _ r) as [r'|e|] eqn:Hc; [|by left..].
  right. eexists _, _, entry. split_and!; [eassumption|exact Hg|exact Hp|done|]. by rewrite <- Hp.
Qed.

Lemma progress_effect params now r :
  let r' := (handle_tasks_progress print sha params now r).2 in
  tasks r' = tasks r ∧ idempotency r' = idempotency r ∧ r_store r' = r_store r.
Proof.
  unfold handle_tasks_progress. st_step; [|done..]. st_step; [|done..].
  st_step; [|done..]. st_step. destruct (is_some_and _ _); [done|]. st_step; [|done..].
  unfold push_progress_event. by destruct (push _ _ _ _) as [[]|].
Qed.

Lemma get_effect params r : (handle_tasks_get print sha params r).2 = r.
Proof.
  unfold handle_tasks_get. st_step; [|done..]. st_step; [|done..]. st_step; [|done..]. st_step.
  destruct (get_task print _ r); [|done]. by destruct (negb _).
Qed.

Lemma resubscribe_effect params r : (handle_tasks_resubscribe params r).2 = r.
Proof. unfold handle_tasks_resubscribe. by st_step. Qed.

Lemma message_send_RInv params new now r :
  RInv r → fresh_in r new →
  RInv (handle_message_send print sha rfc3339_now params new now r).2.
Proof.
  intros HI Hn. unfold handle_message_send. cbv zeta.
  destruct (from_value _) as [req|e|]; [|done..].
  unfold authenticate. destruct (pair_token params ≫= _) as [[]|e|]; [|done..].
  pose proof (submit_RInv req (pair_id req) new now r HI eq_refl Hn) as HR.
  by destruct (submit_verify_request _ _ _ _ _ _ _) as [[id|e|] r'].
Qed.

(** ** Runs *)

(** What happens to a relay: calls, and its owner's maintenance. *)
Inductive op : Type :=
  | Rpc (method : string) (params : Value) (c : Chance)
  | Cleanup (now : N)
  | RecordToken (pair token : string)
  | Register (pair role workspace : string)
  | Deregister (pair role : string)
  | MarkCancelled (task : string)
  | CreateToken (task : string).

Definition rexec (r : Relay) (o : op) : Relay :=
  match o with
  | Rpc method params c => (handle_rpc print sha rfc3339_now method params c r).2
  | Cleanup now => cleanup_idempotency now r
  | RecordToken p token => from_option id r (ok (record_pair_token sha p token r))
  | Register p role workspace => register_session p role workspace r
  | Deregister p role => deregister_session p role r
  | MarkCancelled task => (mark_cancelled task r).2
  | CreateToken task => (create_cancel_token task r).2
  end.

(** Generated identifiers are new. *)
Definition op_ok (r : Relay) (o : op) : Prop :=
  match o with
  | Rpc _ _ c => fresh_in r (fresh c)
  | _ => True
  end.

Inductive reachable : Relay → Prop :=
  | reach_new s : reachable (relay_new s)
  | reach_step r o : reachable r → op_ok r o → reachable (rexec r o).

(** The cases of [handle_rpc]. *)
Lemma rpc_cases (P : option Reply * Relay → Prop) method params c r :
  (∀ reply, method = "message/send" →
     P (reply, (handle_message_send print sha rfc3339_now params (fresh c) (instant c) r).2)) →
  (∀ reply, method = "tasks/claim" →
     (∀ v, (handle_tasks_claim sha params (order c) r).1 = Ok v → reply = Some (RpcResult v)) →
     P (reply, (handle_tasks_claim sha params (order c) r).2)) →
  (∀ reply, method = "tasks/complete" → P (reply, (handle_tasks_complete print sha params r).2)) →
  (∀ reply, method = "tasks/cancel" → P (reply, (handle_tasks_cancel print sha params r).2)) →
  (∀ reply, method = "tasks/push_progress" →
     P (reply, (handle_tasks_progress print sha params (wall c) r).2)) →
  (∀ reply, P (reply, r)) →
  P (handle_rpc print sha rfc3339_now method params c r).
Proof.
  intros Hsend Hclaim Hcomp Hcan Hprog Hsame. unfold handle_rpc. cbv zeta.
  case_bool_decide; [destruct (handle_message_send _ _ _ _ _ _ _) as [[i res] r'] eqn:E;
    specialize (Hsend (match res with
      | Ok v => Some (RpcResult v)
      | Err e => Some (if i then RpcError (-32602) e
              else RpcError (-32603) "Internal error; inspect NEXUS relay logs for this request")
      | Panic => None end)); auto|].
  case_bool_decide; [pose proof (get_effect params r) as E;
    destruct (handle_tasks_get _ _ _ _) as [res r']; cbn in E; subst r'; apply Hsame|].
  case_bool_decide; [destruct (handle_tasks_claim _ _ _ _) as [res r']; apply Hclaim; [done|];
    by intros v [= ->]|].
  case_bool_decide; [destruct (handle_tasks_complete _ _ _ _) as [res r']; by apply Hcomp|].
  case_bool_decide; [destruct (handle_tasks_cancel _ _ _ _) as [res r']; by apply Hcan|].
  case_bool_decide; [pose proof (resubscribe_effect params r) as E;
    destruct (handle_tasks_resubscribe _ _) as [res r']; cbn in E; subst r'; apply Hsame|].
  case_bool_decide; [destruct (handle_tasks_progress _ _ _ _ _) as [res r']; by apply Hprog|].
  apply Hsame.
Qed.

Lemma rpc_RInv method params c r :
  RInv r → fresh_in r (fresh c) → RInv (handle_rpc print sha rfc3339_now method params c r).2.
Proof.
  intros HI Hf. apply (rpc_cases (λ x, RInv x.2)); cbn [snd]; intros; [| | | | |done].
  - by apply message_send_RInv.
  - destruct (claim_effect params (order c) r) as [[_ ->]|(pair & _ & -> & _)]; [done|].
    by apply claim_RInv.
  - destruct (complete_effect params r) as [->|(pair & task & res & _ & Hid & _ & Hc)]; [done|].
    by eapply complete_RInv.
  - destruct (cancel_effect params r) as [->|(pair & task & e & _ & _ & _ & _ & Hc)]; [done|].
    by eapply cancel_RInv; [| |exact Hc].
  - destruct (progress_effect params (wall c) r) as (E1 & E2 & E3).
    apply (RInv_ext r); [done..| |done]. intros k _. by rewrite E3.
Qed.

Lemma rexec_RInv r o : RInv r → op_ok r o → RInv (rexec r o).
Proof.
  intros HI Ho. destruct o; cbn [rexec];
    [by apply rpc_RInv|by apply cleanup_RInv| |by apply (RInv_ext r)..].
  unfold record_pair_token. destruct (negb _); [|done]. destruct (negb _); [|done]. cbn.
  apply (RInv_ext r); [done..| |done]. intros k [i [->| ->]]; cbn; by kv_simpl.
Qed.

Lemma reachable_RInv r : reachable r → RInv r.
Proof. induction 1; [apply RInv_new|by apply rexec_RInv]. Qed.
End facts.
