(* ===== verification/RelayProps.v ===== *)
(** * What the relay guarantees

    Deduplication, exclusive claims, pair isolation, durable results and the
    bounded event buffer of [src/crates/agent-nexus/src/a2a]. *)
From S2P Require Import Prelude Text Json ValueCodec Store StoreInterface A2AProtocol Relay RelayRpc RelayFacts.

Section props.
Context {S : Type} `{KvLaws S}.
Variable print : Value → string.
Variable sha : string → string.
Variable rfc3339_now : string.

Notation Relay := (@A2ARelay S).
Notation reachable := (reachable print sha rfc3339_now).
Notation rexec := (rexec print sha rfc3339_now).
Implicit Types r : Relay.

(** ** Deduplication *)

Lemma validated req p :
  validate_verify_request req p = Ok tt →
  is_allowlisted (argv req) = true ∧ (1 ≤ timeout_secs req ≤ MAX_TIMEOUT_SECS)%N.
Proof.
  unfold validate_verify_request, validate_command_argv, is_allowlisted. intros Hv. ensure_inv Hv.
  apply result_bind_Ok in Hv as ([] & Ha & Hv). ensure_inv Hv. bsimp. split.
  - destruct (argv req); [done|]. ensure_inv Ha. by destruct (prohibited_operation _).
  - split; [lia|by apply N.leb_le].
Qed.

Lemma submit_answer req who new now r id r' :
  RInv print r → (∀ q q', idempotency_seed print q = idempotency_seed print q' → q = q') →
  submit_verify_request print rfc3339_now req who new now r = (Ok id, r') →
  ∃ t, tasks r' !! id = Some t ∧ t_request t = req ∧ is_active t = true.
Proof.
  intros HI Hinj Hs. unfold submit_verify_request in Hs.
  destruct (validate_verify_request req who); [|done..].
  destruct (joins print req r) as [id'|] eqn:Hj.
  - rewrite (check_or_create_joins print _ _ _ _ r id' Hj) in Hs. injection Hs as <- <-.
    apply joins_Some in Hj as (Hm & t & Ht & Ha). exists t. split_and!; [done| |done].
    destruct (inv_map _ _ HI _ _ Hm) as (t' & Ht' & Hsd). simplify_eq. by apply Hinj.
  - unfold check_or_create_task in Hs. cbv zeta in Hs. fold (joins print req r) in Hs. rewrite Hj in Hs.
    injection Hs as <- <-. eexists. cbn. by rewrite lookup_insert_eq.
Qed.

(** Submissions are deduplicated: in every state the relay can reach, no two
    unfinished tasks carry the same request; submitting the request of an
    unfinished task again creates nothing, the caller is given that task; and,
    as long as the idempotency seeds of different requests differ, a submission
    is never answered with the task of another request. *)
Theorem submissions_are_deduplicated r :
  reachable r →
  (∀ q q', idempotency_seed print q = idempotency_seed print q' → q = q') →
  (∀ id1 id2 t1 t2, tasks r !! id1 = Some t1 → tasks r !! id2 = Some t2 →
     is_active t1 = true → is_active t2 = true → t_request t1 = t_request t2 → id1 = id2) ∧
  (∀ id t new now, tasks r !! id = Some t → is_active t = true →
     submit_verify_request print rfc3339_now (t_request t) (pair_id (t_request t)) new now r
       = (Ok id, r)) ∧
  (∀ req who new now id r', submit_verify_request print rfc3339_now req who new now r = (Ok id, r') →
     ∃ t, tasks r' !! id = Some t ∧ t_request t = req ∧ is_active t = true).
Proof.
  intros HR Hinj. pose proof (reachable_RInv _ _ _ _ HR) as HI. pose proof HI as [I1 I2 I3 I4 I5 I6].
  split_and!.
  - intros id1 id2 t1 t2 H1 H2 A1 A2 E. pose proof (I2 _ _ H1 A1) as E1.
    pose proof (I2 _ _ H2 A2) as E2. rewrite E in E1. congruence.
  - intros id t new now Ht Ha. unfold submit_verify_request. rewrite (I3 _ _ Ht Ha).
    rewrite (check_or_create_joins print _ _ _ _ r id); [done|].
    apply joins_Some. eauto.
  - intros. by eapply submit_answer.
Qed.

(** ** Isolation *)

(** An entry of the table changed only with the consent of [P] of its owner. *)
Definition changes_only (P : string → Prop) (r r' : Relay) : Prop :=
  ∀ id t, tasks r !! id = Some t → tasks r' !! id ≠ Some t → P (pair_id (t_request t)).

Lemma changes_only_same P r r' : tasks r' = tasks r → changes_only P r r'.
Proof. intros E id t Ht Hn. by rewrite E in Hn. Qed.

Lemma changes_only_insert (P : string → Prop) r r' id t' :
  tasks r' = <[id := t']> (tasks r) →
  (∀ t, tasks r !! id = Some t → P (pair_id (t_request t))) → changes_only P r r'.
Proof.
  intros E HP id' t Ht Hn. rewrite E in Hn. destruct (decide (id = id')) as [->|Hne]; [by apply HP|].
  by rewrite lookup_insert_ne in Hn.
Qed.

Lemma get_task_owner r id t :
  tasks r !! id = Some t → pair_id ∘ t_request <$> get_task print id r = Some (pair_id (t_request t)).
Proof.
  intros Ht. unfold get_task. rewrite Ht. destruct (_ || _); [done|].
  by destruct (get_task_result id r).
Qed.

(** Pairs are isolated: whatever call is made on a reachable relay, a task
    that it changes in any way (claims, completes, cancels or removes) belongs
    to a pair whose token the caller has shown, and creating a task never
    disturbs an existing one. *)
Theorem calls_change_only_own_tasks r method params c :
  reachable r → fresh_in r (fresh c) →
  changes_only (λ p, authentic sha p params r) r
    (handle_rpc print sha rfc3339_now method params c r).2.
Proof.
  intros HR Hf.
  apply (rpc_cases print sha rfc3339_now (λ x, changes_only _ r x.2)); cbn [snd]; intros;
    [| | | | |by apply changes_only_same].
  - unfold handle_message_send. cbv zeta. destruct (from_value _) as [req|e|];
      [|by apply changes_only_same..].
    unfold authenticate. destruct (pair_token params ≫= _) as [[]|e|];
      [|by apply changes_only_same..].
    unfold submit_verify_request. destruct (validate_verify_request _ _);
      [|by apply changes_only_same..].
    unfold check_or_create_task. cbv zeta. destruct (_ ≫= _); cbn [snd]; [by apply changes_only_same|].
    eapply changes_only_insert; [done|]. unfold fresh_in in Hf. intros t Ht. congruence.
  - destruct (claim_effect sha params (order c) r) as [[_ ->]|(p & Hp & -> & _)];
      [by apply changes_only_same|].
    destruct (claim_spec (order c) p r) as [(id & t & Ht & Hp' & _ & ->)| ->];
      [|by apply changes_only_same].
    eapply changes_only_insert; [done|]. intros t' Ht'. cbn in Ht'. rewrite Ht in Ht'.
    injection Ht' as <-. by rewrite Hp'.
  - destruct (complete_effect print sha params r) as [->|(p & task & res & Hp & _ & Ho & Hc)];
      [by apply changes_only_same|].
    unfold complete_task in Hc. case_match; [|done]. injection Hc as <-.
    eapply changes_only_insert; [done|]. intros t Ht.
    pose proof (get_task_owner r task t Ht) as E.
    destruct (get_task print task r); [|done]. cbn in E. by rewrite <- (Ho (pair_id (t_request t)) E) in Hp.
  - destruct (cancel_effect print sha params r) as [->|(p & task & e & Hp & Hg & He & _ & Hc)];
      [by apply changes_only_same|].
    unfold cancel_task in Hc. destruct (tasks r !! task) as [t|] eqn:Ht; [|done]. injection Hc as <-.
    eapply changes_only_insert; [done|]. intros t' Ht'. pose proof (get_task_owner r task t' Ht') as E.
    rewrite Hg in E. cbn in E. injection E as <-. by rewrite He.
  - destruct (progress_effect print sha params (wall c) r) as (E & _). by apply changes_only_same.
Qed.

(** ** Durable results *)

(** Results are durable before they are visible, and survive a restart: in
    every reachable state a finished task carries a result that is already in
    the store under the task's own audit key, and a relay restarted with empty
    tables over the same store still answers the task as completed, with the
    same request and result. *)
Theorem results_survive_restart r id t :
  reachable r → tasks r !! id = Some t → is_terminal t →
  ∃ res, t_result t = Some res ∧ task_id res = id ∧
    kv_get (r_store r) (result_key id) ≠ None ∧
    get_task print id (relay_new (r_store r)) =
      Some (mkTask id (t_request t) (idempotency_seed print (t_request t)) "audit-recovery"
              Completed (Some res)).
Proof.
  intros HR Ht Hf. pose proof (reachable_RInv _ _ _ _ HR) as [I1 I2 I3 I4 I5 I6].
  destruct (I5 _ _ Ht Hf) as (res & Hr & Hid & Hs). exists res. split_and!; [done..| |].
  - unfold get_task_result, kv_get_typed in Hs. by destruct (kv_get _ (result_key id)).
  - unfold get_task. assert (tasks (relay_new (r_store r)) !! id = None) as -> by apply lookup_empty.
    change (get_task_request id (relay_new (r_store r))) with (get_task_request id r).
    change (get_task_result id (relay_new (r_store r))) with (get_task_result id r).
    rewrite (I4 _ _ Ht), Hs. done.
Qed.

(** ** Exclusive claims *)

(** The task a call hands to an executor. *)
Definition claimed (r : Relay) (o : op) : option string :=
  match o with
  | Rpc method params c =>
      if bool_decide (method = "tasks/claim") then
        match (handle_rpc print sha rfc3339_now method params c r).1 with
        | Some (RpcResult v) => Json.get "task_id" v ≫= as_str
        | _ => None
        end
      else None
  | _ => None
  end.

(** The identifiers a run generates. *)
Definition generated (o : op) : list string :=
  match o with
  | Rpc _ _ c => [fresh c]
  | _ => []
  end.

Fixpoint run (r : Relay) (os : list op) : list string * Relay :=
  match os with
  | [] => ([], r)
  | o :: os =>
      let '(ids, r') := run (rexec r o) os in
      (match claimed r o with Some id => [id] | None => [] end ++ ids, r')
  end.

(** [out] are the tasks handed out so far, [used] the identifiers generated. *)
Record Handed (out used : list string) (r : Relay) : Prop := {
  h_inv : RInv print r;
  h_nodup : NoDup out;
  h_used id : id ∈ out ∨ (∃ t, tasks r !! id = Some t ∧ t_state t = Pending) → id ∈ used;
  h_out id t : id ∈ out → tasks r !! id = Some t → t_state t ≠ Pending;
}.

(** No operation but a submission makes a task pending. *)
Definition pending (r : Relay) (id : string) : Prop :=
  ∃ t, tasks r !! id = Some t ∧ t_state t = Pending.

Lemma evict_pending keys : ∀ r id, pending (foldl evict_key r keys) id → pending r id.
Proof.
  induction keys as [|k keys IH]; intros r id Hp; [done|]. apply IH in Hp as (t & Ht & Hs).
  destruct (evict_key_tasks k r id) as [E|[E _]]; rewrite E in Ht; [|done]. by exists t.
Qed.

Lemma insert_pending r r' id0 t' id :
  tasks r' = <[id0 := t']> (tasks r) → t_state t' ≠ Pending → pending r' id → pending r id.
Proof.
  intros E Hn (t & Ht & Hs). rewrite E in Ht. apply lookup_insert_Some in Ht as [[-> ->]|[Hne Ht]]; [done|].
  by exists t.
Qed.

Lemma rexec_pending r o id :
  pending (rexec r o) id → pending r id ∨ id ∈ generated o.
Proof.
  intros Hp. destruct o as [method params c|now|p token|p role ws|p role|task|task]; cbn [rexec generated] in *;
    [|left; by eapply evict_pending| |by left..].
  - revert Hp. apply (rpc_cases print sha rfc3339_now (λ x, pending x.2 id → _)); cbn [snd];
      [intros _ _|intros _ _ _|intros _ _|intros _ _|intros _ _|by left].
    + unfold handle_message_send. cbv zeta. destruct (from_value _) as [req|e|]; [|by left..].
      unfold authenticate. destruct (pair_token params ≫= _) as [[]|e|]; [|by left..].
      unfold submit_verify_request. destruct (validate_verify_request _ _); [|by left..].
      unfold check_or_create_task. cbv zeta. destruct (_ ≫= _); cbn [snd]; [by left|].
      intros (t & Ht & Hs). cbn in Ht.
      apply lookup_insert_Some in Ht as [[<- _]|[_ Ht]]; [right; by left|left; by exists t].
    + destruct (claim_effect sha params (order c) r) as [[_ ->]|(p & _ & -> & _)]; [by left|].
      destruct (claim_spec (order c) p r) as [(i & t & Ht & _ & _ & ->)| ->]; [|by left].
      intros Hp. left. eapply (insert_pending r); [| |exact Hp]; done.
    + destruct (complete_effect print sha params r) as [->|(p & task & res & _ & _ & _ & Hc)]; [by left|].
      unfold complete_task in Hc. case_match; [|done]. injection Hc as <-.
      intros Hp. left. eapply (insert_pending r); [| |exact Hp]; done.
    + destruct (cancel_effect print sha params r) as [->|(p & task & e & _ & _ & _ & _ & Hc)]; [by left|].
      unfold cancel_task in Hc. case_match; [|done]. injection Hc as <-.
      intros Hp. left. eapply (insert_pending r); [| |exact Hp]; done.
    + destruct (progress_effect print sha params (wall c) r) as (E & _).
      intros (t & Ht & Hs). rewrite E in Ht. left. by exists t.
  - left. unfold record_pair_token in Hp. destruct (negb _); [|done]. by destruct (negb _).
Qed.

Lemma claimed_spec r o id :
  RInv print r → claimed r o = Some id → pending r id ∧ ¬ pending (rexec r o) id.
Proof.
  intros HI Hc. destruct o as [method params c| | | | | |]; [|done..]. cbn [claimed rexec] in *.
  case_bool_decide as Hm; [|done]. subst method. revert Hc.
  unfold handle_rpc. cbv zeta. cbn [bool_decide decide]. rewrite !bool_decide_eq_false_2 by done.
  rewrite bool_decide_eq_true_2 by done.
  pose proof (claim_effect sha params (order c) r) as Hce.
  destruct (handle_tasks_claim sha params (order c) r) as [res r'] eqn:E. cbn [fst snd] in *.
  destruct Hce as [[Hn _]|(p & _ & -> & ->)]; [by destruct res|]. intros Hc.
  destruct (claim_spec (order c) p r) as [(i & t & Ht & _ & Hs & Eq)|Eq]; rewrite Eq in Hc |- *; [|done].
  cbn in Hc. destruct (inv_id _ _ HI i t Ht) as [Hid _]. rewrite Hid in Hc. injection Hc as <-.
  split; [by exists t|]. intros (t' & Ht' & Hs'). cbn in Ht'. rewrite lookup_insert_eq in Ht'.
  by injection Ht' as <-.
Qed.

Lemma Handed_step out used r o :
  Handed out used r → op_ok r o → (∀ id, id ∈ generated o → id ∉ used) →
  Handed (out ++ match claimed r o with Some id => [id] | None => [] end) (used ++ generated o)
    (rexec r o).
Proof.
  intros [HI Hnd Hu Ho] Hok Hg.
  assert (∀ id, claimed r o = Some id → id ∈ used ∧ id ∉ out ∧ ¬ pending (rexec r o) id) as Hc.
  { intros id Hcl. destruct (claimed_spec r o id HI Hcl) as [Hp Hn]. split_and!; [|intros Hin|done].
    - apply Hu. by right.
    - destruct Hp as (t & Ht & Hs). by apply (Ho id t Hin Ht). }
  constructor.
  - by apply rexec_RInv.
  - apply NoDup_app. split_and!; [done| |].
    + intros id Hin. destruct (claimed r o) as [id'|] eqn:E; [|by intros ?%elem_of_nil].
      intros ->%list_elem_of_singleton. by destruct (Hc id' eq_refl) as (_ & ? & _).
    + destruct (claimed r o); [apply NoDup_singleton|apply NoDup_nil_2].
  - intros id [Hin|Hp]; apply elem_of_app.
    + left. apply elem_of_app in Hin as [Hin|Hin]; [apply Hu; by left|].
      destruct (claimed r o) as [id'|] eqn:E; [|by apply elem_of_nil in Hin].
      apply list_elem_of_singleton in Hin as ->. by apply Hc.
    + apply rexec_pending in Hp as [Hp|Hin]; [left; apply Hu; by right|by right].
  - intros id t Hin Ht Hs. apply elem_of_app in Hin as [Hin|Hin].
    + assert (pending (rexec r o) id) as Hp by (by exists t).
      apply rexec_pending in Hp as [(t' & Ht' & Hs')|Hgen]; [by apply (Ho id t')|].
      apply (Hg id Hgen). apply Hu. by left.
    + destruct (claimed r o) as [id'|] eqn:E; [|by apply elem_of_nil in Hin].
      apply list_elem_of_singleton in Hin as ->. destruct (Hc id' eq_refl) as (_ & _ & Hn).
      apply Hn. by exists t.
Qed.

(** Identifiers generated during a run are distinct and new to the relay. *)
Fixpoint run_ok (used : list string) (r : Relay) (os : list op) : Prop :=
  match os with
  | [] => True
  | o :: os => op_ok r o ∧ (∀ id, id ∈ generated o → id ∉ used) ∧
               run_ok (used ++ generated o) (rexec r o) os
  end.

Lemma run_hands os : ∀ out used r,
  Handed out used r → run_ok used r os → NoDup (out ++ (run r os).1).
Proof.
  induction os as [|o os IH]; intros out used r Hh Hok; cbn [run fst].
  - rewrite app_nil_r. by destruct Hh.
  - destruct Hok as (Hok & Hg & Hrest). pose proof (Handed_step _ _ _ _ Hh Hok Hg) as Hh'.
    specialize (IH _ _ _ Hh' Hrest). destruct (run (rexec r o) os) as [ids r']. cbn [fst] in *.
    by rewrite app_assoc.
Qed.

(** C20. No task is executed twice: over any run of calls and maintenance that
    starts with empty tables, with generated identifiers that do not repeat, no
    task is handed to an executor more than once, however often and by however
    many executors the queue is polled. *)
Theorem no_task_is_claimed_twice s os :
  run_ok [] (relay_new s) os → NoDup (run (relay_new s) os).1.
Proof.
  intros Hok. apply (run_hands os [] [] (relay_new s)); [|done].
  constructor; [apply RInv_new|apply NoDup_nil_2| |].
  - intros id [Hin|(t & Ht & _)]; [by apply elem_of_nil in Hin|].
    cbn in Ht. by rewrite lookup_empty in Ht.
  - intros id t Hin. by apply elem_of_nil in Hin.
Qed.

(** What an executor is given is what the policy allows: a task claimed from
    a reachable relay belongs to the pair whose token the executor showed, is
    marked running, and its request passed validation: a command that is not
    prohibited and a time-out between one second and one hour. *)
Theorem claimed_work_is_authorized r params c v :
  reachable r →
  (handle_tasks_claim sha params (order c) r).1 = Ok v → v ≠ VNull →
  ∃ id t, tasks r !! id = Some t ∧ v = VObject [("task_id", VString id); ("request", to_value (t_request t))] ∧
    authentic sha (pair_id (t_request t)) params r ∧
    get_task_state id (handle_tasks_claim sha params (order c) r).2 = Some Running ∧
    is_allowlisted (argv (t_request t)) = true ∧
    (1 ≤ timeout_secs (t_request t) ≤ MAX_TIMEOUT_SECS)%N.
Proof.
  intros HR Hv Hn. pose proof (reachable_RInv _ _ _ _ HR) as HI.
  destruct (claim_effect sha params (order c) r) as [[Hf _]|(p & Hp & E2 & E1)];
    [by rewrite Hv in Hf|].
  rewrite E1 in Hv. injection Hv as Hv. rewrite E2.
  destruct (claim_spec (order c) p r) as [(i & t & Ht & Hpt & Hs & Eq)|Eq]; rewrite Eq in Hv |- *;
    cbn in Hv; [|congruence].
  destruct (inv_id _ _ HI i t Ht) as [Hid _]. rewrite Hid in Hv. exists i, t.
  assert (is_active t = true) as Ha by (unfold is_active; by rewrite Hs).
  pose proof (validated _ _ (inv_policy _ _ HI i t Ht Ha)) as Hval.
  split_and!; [done|done|by rewrite Hpt| |by apply Hval..].
  unfold get_task_state. cbn. by rewrite lookup_insert_eq.
Qed.

(** ** Event buffer *)

Definition total_size (l : list BufferedEvent) : N :=
  foldr (λ e n, (event_size print (event e) + n)%N) 0%N l.

Lemma total_size_app l l' : total_size (l ++ l') = (total_size l + total_size l')%N.
Proof. unfold total_size. induction l as [|e l IH]; cbn; [done|]. rewrite IH. lia. Qed.

(** Eviction ends, keeps the longest suffix that fits and its size. *)
Lemma evict_spec max_ev max_by : ∀ l,
  ∃ k, evict print max_ev max_by l (total_size l) = Some (drop k l, total_size (drop k l)) ∧
       length (drop k l) ≤ max_ev ∧ (total_size (drop k l) ≤ max_by)%N ∧ k ≤ length l.
Proof.
  induction l as [|e l (k & IH & H1 & H2 & H3)]; cbn [evict].
  - exists 0. rewrite (proj2 (Nat.ltb_ge _ _)), (proj2 (N.ltb_ge _ _)) by (cbn; lia). cbn.
    split_and!; [done|lia..].
  - destruct (_ || _) eqn:E.
    + exists (Datatypes.S k). cbn [total_size foldr drop length].
      replace (_ + _ - _)%N with (total_size l) by (unfold total_size; lia). split_and!; [done..|lia].
    + apply orb_false_iff in E as [E1 E2]. apply Nat.ltb_ge in E1. apply N.ltb_ge in E2.
      exists 0. split_and!; [done..|lia].
Qed.

(** Pushing events one after the other. *)
Fixpoint push_all (b : EventBuffer) (es : list (VerifyProgressEvent * Z)) : option EventBuffer :=
  match es with
  | [] => Some b
  | (e, now) :: es => '(_, b) ← push print b e now; push_all b es
  end.

(** Events numbered from [n] on. *)
Fixpoint numbered (n : u64) (es : list (VerifyProgressEvent * Z)) : list BufferedEvent :=
  match es with
  | [] => []
  | (e, now) :: es => mkBuffered n e now :: numbered (n + 1) es
  end.

Record BufferOk (b : EventBuffer) (es : list (VerifyProgressEvent * Z)) : Prop := {
  bo_limits : max_events b = MAX_EVENTS ∧ max_bytes b = MAX_BYTES;
  bo_next : next_seq b = N.of_nat (length es);
  bo_events : ∃ k, events b = drop k (numbered 0 es);
  bo_size : current_bytes b = total_size (events b);
  bo_bounds : length (events b) ≤ MAX_EVENTS ∧ (current_bytes b ≤ MAX_BYTES)%N;
}.

Lemma numbered_app n es es' :
  numbered n (es ++ es') = numbered n es ++ numbered (n + N.of_nat (length es)) es'.
Proof.
  revert n; induction es as [|[e now] es IH]; intros n; cbn [numbered app length].
  - by rewrite N.add_0_r.
  - rewrite IH. cbn. do 3 f_equal. lia.
Qed.

Lemma numbered_length n es : length (numbered n es) = length es.
Proof. revert n; induction es as [|[e now] es IH]; intros n; cbn; [done|by rewrite IH]. Qed.

Lemma push_ok b es e now :
  BufferOk b es → (N.of_nat (length es) + 1 < U64_MOD)%N →
  ∃ b', push print b e now = Some (mkBuffered (N.of_nat (length es)) e now, b') ∧
        BufferOk b' (es ++ [(e, now)]).
Proof.
  intros [[Hm1 Hm2] Hn [k Hk] Hs _] Hu. unfold push. rewrite Hm1, Hm2, Hn, Hs.
  set (be := mkBuffered (N.of_nat (length es)) e now).
  replace (total_size (events b) + event_size print e)%N with (total_size (events b ++ [be]))
    by (rewrite total_size_app; cbn; lia).
  destruct (evict_spec MAX_EVENTS MAX_BYTES (events b ++ [be])) as (j & -> & H1 & H2 & H3).
  cbn [mbind option_bind]. eexists. split; [reflexivity|]. constructor; cbn; [done| | |done|done].
  - rewrite length_app, u64_succ_small by done. cbn. lia.
  - destruct (decide (k ≤ length (numbered 0 es))) as [Hle|Hgt].
    + exists (k + j). rewrite Hk, numbered_app, N.add_0_l. cbn [numbered].
      rewrite <- drop_drop. f_equal. by rewrite drop_app_le.
    + exists (length (numbered 0 es) + j). rewrite Hk, (drop_ge (numbered 0 es) k) by lia.
      rewrite numbered_app, N.add_0_l. cbn [numbered]. rewrite <- drop_drop. f_equal.
      by rewrite drop_app_length.
Qed.

Lemma push_all_ok es' : ∀ b es,
  BufferOk b es → (N.of_nat (length (es ++ es')) < U64_MOD)%N →
  ∃ b', push_all b es' = Some b' ∧ BufferOk b' (es ++ es').
Proof.
  induction es' as [|[e now] es' IH]; intros b es Hb Hu; cbn [push_all].
  - exists b. by rewrite app_nil_r.
  - rewrite length_app in Hu. cbn [length] in Hu.
    destruct (push_ok b es e now Hb) as (b1 & -> & Hb1); [lia|]. cbn [mbind option_bind].
    destruct (IH b1 (es ++ [(e, now)]) Hb1) as (b' & Hp & Hb'); [rewrite !length_app; cbn [length]; lia|].
    exists b'. by rewrite <- app_assoc in Hb'.
Qed.

(** The progress buffer is a bounded FIFO: pushing any number of events of
    any size always ends, the buffer never holds more than a thousand events or
    a mebibyte, what it holds is a run of the latest events with consecutive
    sequence numbers, and a reader that resumes from a sequence number gets
    exactly the buffered events from there on. *)
Theorem event_buffer_is_bounded es last_seq :
  (N.of_nat (length es) < U64_MOD)%N →
  ∃ b k, push_all buffer_new es = Some b ∧ events b = drop k (numbered 0 es) ∧
    length (events b) ≤ 1000 ∧ (total_size (events b) ≤ 1048576)%N ∧
    next_seq b = N.of_nat (length es) ∧
    ∀ e, e ∈ events_since b last_seq ↔ e ∈ events b ∧ (last_seq ≤ seq e)%N.
Proof.
  intros Hu. destruct (push_all_ok es buffer_new []) as (b & Hp & [_ Hn [k Hk] Hs [B1 B2]]).
  - constructor; cbn; [done|done|by exists 0|done|unfold MAX_EVENTS, MAX_BYTES; lia].
  - done.
  - exists b, k. rewrite Hs in B2. split_and!; [done..|]. intros e. unfold events_since.
    by rewrite list_elem_of_In, filter_In, <- list_elem_of_In, N.leb_le.
Qed.
End props.

(** * A relay at work

    A concrete relay over the in-memory store, on which the relay's theorems
    are applied: a pair's token is recorded, SENTINEL submits a request, FORGE
    claims it and completes it. *)

Definition sha0 (s : string) : string := "sha:" +:+ s.
Definition now0 : string := "1970-01-01T00:00:00Z".

Definition request0 : VerifyRequest :=
  mkRequest "T-1" Command Repo ["cargo"; "test"] 600 [] expect_default.
Definition result0 : VerifyResult :=
  mkResult (Some "abc") "task-1" None false 10 "out" "err" [] (mkExecutor "forge" "forge-T-1").

Definition chance (id : string) : Chance := mkChance id 0 0 ["task-1"].

Definition send_params : Value :=
  VObject [("message", VObject [("task", to_value request0)]); ("pair_token", VString "secret")].
Definition claim_params : Value :=
  VObject [("pair_id", VString "T-1"); ("role", VString "forge"); ("checkout_version", VPosInt 3);
           ("pair_token", VString "secret")].
Definition complete_params : Value :=
  VObject [("task_id", VString "task-1"); ("pair_id", VString "T-1"); ("pair_token", VString "secret");
           ("result", to_value result0)].

Definition history0 : list op :=
  [RecordToken "T-1" "secret";
   Rpc "message/send" send_params (chance "task-1");
   Rpc "tasks/claim" claim_params (chance "task-2");
   Rpc "tasks/claim" claim_params (chance "task-3");
   Rpc "tasks/complete" complete_params (chance "task-4")].

Notation exec0 := (rexec print0 sha0 now0).
Notation reachable0 := (reachable print0 sha0 now0).

Definition relay0 : @A2ARelay SharedStore := relay_new new_in_memory.
Definition submitted0 : A2ARelay := foldl exec0 relay0 (take 2 history0).
Definition completed0 : A2ARelay := foldl exec0 relay0 history0.

Lemma submitted0_reachable : reachable0 submitted0.
Proof.
  unfold submitted0. cbn [history0 take foldl].
  apply reach_step; [apply reach_step; [apply reach_new|exact I]|vm_compute; reflexivity].
Defined.

Lemma completed0_reachable : reachable0 completed0.
Proof.
  unfold completed0. cbn [history0 foldl].
  repeat (apply reach_step; [|first [exact I | vm_compute; reflexivity]]). apply reach_new.
Defined.

Lemma seed0_inj q q' : idempotency_seed print0 q = idempotency_seed print0 q' → q = q'.
Proof.
  unfold idempotency_seed. intros E. apply (app_sep_inj_r ":") in E as [_ E]; [|apply print0_no_colon..].
  apply print0_inj in E. assert (from_value (A:=VerifyRequest) (to_value q) = from_value (to_value q')) as P by (by rewrite E).
  rewrite !from_to_value in P. by injection P.
Qed.

Lemma submissions_are_deduplicated_witness :
  submit_verify_request print0 now0 request0 "T-1" "task-9" 5 submitted0 = (Ok "task-1", submitted0).
Proof.
  refine (proj1 (proj2 (submissions_are_deduplicated print0 sha0 now0 submitted0
    submitted0_reachable seed0_inj)) "task-1" (mkTask "task-1" request0
      (idempotency_seed print0 request0) "T-1" Pending None) "task-9" 5%N _ _).
  - vm_compute. reflexivity.
  - reflexivity.
Defined.

Lemma calls_change_only_own_tasks_witness :
  authentic sha0 "T-1" claim_params submitted0.
Proof.
  assert (is_Some (tasks submitted0 !! "task-1")) as [t Ht] by (eexists; vm_compute; reflexivity).
  assert (pair_id (t_request t) = "T-1") as <-
    by (vm_compute in Ht; injection Ht as <-; reflexivity).
  apply (calls_change_only_own_tasks print0 sha0 now0 submitted0 "tasks/claim" claim_params
           (chance "task-2") submitted0_reachable) with (id := "task-1").
  - vm_compute. reflexivity.
  - exact Ht.
  - vm_compute in Ht. injection Ht as <-. vm_compute. discriminate.
Defined.

Lemma results_survive_restart_witness :
  ∃ t res, tasks completed0 !! "task-1" = Some t ∧
    get_task print0 "task-1" (relay_new (r_store completed0)) =
      Some (mkTask "task-1" (t_request t) (idempotency_seed print0 (t_request t)) "audit-recovery"
              Completed (Some res)).
Proof.
  assert (∃ t, tasks completed0 !! "task-1" = Some t ∧ t_state t = Completed) as (t & Ht & Hs)
    by (eexists; split; vm_compute; reflexivity).
  destruct (results_survive_restart print0 sha0 now0 completed0 "task-1" t completed0_reachable Ht
              (or_introl Hs)) as (res & _ & _ & _ & E).
  exists t, res. exact (conj Ht E).
Defined.

Lemma no_task_is_claimed_twice_witness :
  (run print0 sha0 now0 relay0 history0).1 = ["task-1"] ∧
  NoDup (run print0 sha0 now0 relay0 history0).1.
Proof.
  split; [vm_compute; reflexivity|]. apply no_task_is_claimed_twice.
  cbn [history0 run_ok generated app chance fresh op_ok].
  split_and!; try exact I; try (vm_compute; reflexivity); intros id Hin Hu;
    repeat match goal with
    | H : _ ∈ [] |- _ => apply elem_of_nil in H; destruct H
    | H : _ ∈ _ :: _ |- _ => apply elem_of_cons in H as [H|H]
    end; subst; discriminate.
Defined.

Lemma claimed_work_is_authorized_witness :
  ∃ t, tasks submitted0 !! "task-1" = Some t ∧ is_allowlisted (argv (t_request t)) = true.
Proof.
  assert (∃ v, (handle_tasks_claim sha0 claim_params (order (chance "x")) submitted0).1 = Ok v ∧
               v ≠ VNull ∧ Json.get "task_id" v = Some (VString "task-1")) as (v & Hv & Hn & Hid)
    by (eexists; split_and!; [vm_compute; reflexivity|discriminate|vm_compute; reflexivity]).
  destruct (claimed_work_is_authorized print0 sha0 now0 submitted0 claim_params (chance "x") v
              submitted0_reachable Hv Hn) as (id & t & Ht & Ev & _ & _ & Ha & _).
  rewrite Ev in Hid. cbn in Hid. injection Hid as ->. exists t. exact (conj Ht Ha).
Defined.

Lemma event_buffer_is_bounded_witness :
  ∃ b k, push_all print0 buffer_new [(Stdout "a", 0%Z); (Stderr "b", 1%Z)] = Some b ∧
         events b = drop k (numbered 0 [(Stdout "a", 0%Z); (Stderr "b", 1%Z)]).
Proof.
  destruct (event_buffer_is_bounded print0 [(Stdout "a", 0%Z); (Stderr "b", 1%Z)] 0)
    as (b & k & Hp & He & _); [reflexivity|]. exists b, k. exact (conj Hp He).
Defined.
