(* ===== verification/Guard.v ===== *)
(** * The phase guard: what a tool call may do in which phase

    Models [src/crates/agent-nexus/src/hooks/guard.rs], with the decision type
    of [types.rs] and the ticket lookups of [context.rs].  The guard reads a
    shell command the way a shell would, finds what it could write, and decides
    by the caller's role and the phase of the caller's ticket. *)
From S2P Require Import Prelude Text Json Lifecycle LifecycleCodec Store.

(** ** Decisions *)

Record HookDecision : Type := mkDecision {
  deny : bool;
  reason : option string;
  rewrite : option Value;
  model_context : option string;
}.

Definition observe : HookDecision := mkDecision false None None None.
Definition deny_with (why : string) : HookDecision := mkDecision true (Some why) None None.
Definition with_model_context (ctx : string) (d : HookDecision) : HookDecision :=
  mkDecision (deny d) (reason d) (rewrite d) (Some ctx).

(** ** Tools *)

Definition PHASES : list string :=
  ["planning"; "plan_ready"; "plan_rejected"; "building"; "testing"; "submit"; "done"; "blocked"].

Definition is_valid_phase (phase : string) : bool := bool_decide (phase ∈ PHASES).

Definition is_write_tool (name : string) : bool :=
  bool_decide (name ∈ ["write"; "edit"; "create"; "patch"; "write_file"; "edit_file"; "apply_patch"]).

Definition is_harness (name : string) : bool := contains "harness" (to_lowercase name).

Definition is_shell (name : string) : bool :=
  bool_decide (to_lowercase name ∈ ["bash"; "sh"; "shell"; "execute"; "exec"]).

(** ** Characters of the shell *)

Definition squote : ascii := "'"%char.
Definition dquote : ascii := "034"%char.
Definition backslash : ascii := "092"%char.
Definition newline : ascii := "010"%char.
Definition carriage_return : ascii := "013"%char.

Definition is_one_of (l : list ascii) (c : ascii) : bool := existsb (char_eqb c) l.
Definition is_quote (c : ascii) : bool := is_one_of [squote; dquote] c.

(** The quoting state of the scanners: the open quote, and whether the next
    character is escaped. *)
Definition in_squote (quote : option ascii) : bool := is_some_and (char_eqb squote) quote.

(** ** A single delegation command *)

(** The scanning loop of [is_verification_request]. *)
Fixpoint verification_scan (cs : list ascii) (quote : option ascii) (escaped : bool) : bool :=
  match cs with
  | [] => is_none quote && negb escaped
  | c :: cs =>
      if escaped then verification_scan cs quote false
      else if negb (in_squote quote) && char_eqb c backslash then verification_scan cs quote true
      else if in_squote quote then
        verification_scan cs (if char_eqb c squote then None else quote) false
      else if is_one_of ["$"%char; "`"%char] c then false
      else
        match quote with
        | Some q => verification_scan cs (if char_eqb c q then None else quote) false
        | None =>
            if is_quote c then verification_scan cs (Some c) false
            else if is_one_of [";"; "&"; "|"; "<"; ">"; newline; carriage_return]%char c then false
            else verification_scan cs None false
        end
  end.

Definition is_verification_request (command : string) : bool :=
  match take 3 (split_whitespace command) with
  | [w0; w1; w2] =>
      bool_decide (rsplit_next (char_eqb "/") w0 = "openflows-harness") &&
      bool_decide (w1 = "verify") && bool_decide (w2 = "request") &&
      verification_scan (chars command) None false
  | _ => false
  end.

(** ** Words of a command *)

Fixpoint substitution_scan (cs : list ascii) (quote : option ascii) (escaped : bool) : bool :=
  match cs with
  | [] => false
  | c :: cs =>
      if escaped then substitution_scan cs quote false
      else if char_eqb c backslash && negb (in_squote quote) then substitution_scan cs quote true
      else if is_quote c then
        substitution_scan cs
          (match quote with
           | None => Some c
           | Some q => if char_eqb q c then None else quote
           end) false
      else if negb (in_squote quote) &&
              (char_eqb c "`" || (char_eqb c "$" && is_some_and (char_eqb "(") (hd_error cs))) then true
      else substitution_scan cs quote false
  end.

Definition has_shell_command_substitution (command : string) : bool :=
  substitution_scan (chars command) None false.

Definition is_shell_separator (word : string) : bool :=
  bool_decide (word ∈ ["|"; ";"; "&&"; "||"; "&"]).

Definition clean_shell_word (word : string) : string :=
  trim_matches (is_one_of [dquote; squote; "("; ")"]%char) word.

Definition literal_shell_word (word : string) : string :=
  let word := clean_shell_word word in
  if is_shell_separator word || bool_decide (word = ">") then String zero word else word.

(** [word.push(c)]. *)
Definition push_char (word : string) (c : ascii) : string := word +:+ String c EmptyString.

(** What [shell_words] does with the word it was reading. *)
Definition flush_word (words : list string) (word : string) (started : bool) : list string :=
  if started then words ++ [literal_shell_word word] else words.

Fixpoint words_loop (cs : list ascii) (words : list string) (word : string)
  (quote : option ascii) (escaped started : bool) : list string :=
  match cs with
  | [] => flush_word words word started
  | c :: cs =>
      if escaped then words_loop cs words (push_char word c) quote false started
      else if char_eqb c backslash && negb (in_squote quote) then
        words_loop cs words word quote true true
      else
        match quote with
        | Some q =>
            if char_eqb c q then words_loop cs words word None false started
            else words_loop cs words (push_char word c) quote false started
        | None =>
            if is_quote c then words_loop cs words word (Some c) false true
            else if char_eqb c "&" && negb started && bool_decide (last words = Some ">") then
              words_loop cs words (push_char word c) None false true
            else if is_whitespace c then
              words_loop cs
                (flush_word words word started ++ (if char_eqb c newline then [";"] else []))
                (if started then "" else word) None false false
            else if is_one_of [";"; "|"; "&"; ">"]%char c then
              let words := flush_word words word started in
              let word := if started then "" else word in
              match cs with
              | c' :: cs' =>
                  if is_one_of ["&"; "|"]%char c && char_eqb c' c then
                    words_loop cs' (words ++ [String c (String c EmptyString)]) word None false false
                  else if char_eqb c ">" && char_eqb c' ">" then
                    words_loop cs' (words ++ [">"]) word None false false
                  else words_loop cs (words ++ [String c EmptyString]) word None false false
              | [] => words_loop cs (words ++ [String c EmptyString]) word None false false
              end
            else words_loop cs words (push_char word c) None false true
        end
  end.

Definition shell_words (command : string) : list string :=
  words_loop (chars command) [] "" None false false.

(** ** The executable of a segment *)

Definition FORWARDING_WRAPPERS : list string :=
  ["nohup"; "nice"; "sudo"; "env"; "setsid"; "time"; "command"].

Definition WRAPPER_OPT_WITH_ARG : list string :=
  ["-u"; "--user"; "-g"; "--group"; "-C"; "--chroot"; "-p"; "--prompt"; "-D"; "--chdir"; "-n";
   "--adjustment"; "-S"; "--set-home"; "-o"; "--output"].

Definition is_option_token (word : string) : bool :=
  (1 <? String.length word) && starts_with "-" word.

Definition is_env_assignment (word : string) : bool :=
  match split_once "=" word with
  | Some (l, _) => negb (is_empty l) && all_chars (λ c, negb (is_one_of ["-"; "/"]%char c)) l
  | None => false
  end.

(** The loop of [resolve_executable_index] over what is left of the segment. *)
Fixpoint resolve_loop (i : nat) (rest : list string) : option nat :=
  match rest with
  | [] => None
  | w :: rest =>
      if bool_decide (w ∈ FORWARDING_WRAPPERS) then resolve_loop (S i) rest
      else if bool_decide (w ∈ WRAPPER_OPT_WITH_ARG) then
        match rest with
        | _ :: rest => resolve_loop (S (S i)) rest
        | [] => None
        end
      else if is_option_token w || is_env_assignment w then resolve_loop (S i) rest
      else Some i
  end.

Definition resolve_executable_index (segment : list string) : nat :=
  match resolve_loop 0 segment with
  | Some i => i
  | None => length segment - 1
  end.

(** [segment[cmd_idx]] and [&segment[cmd_idx + 1..]]. *)
Definition executable (segment : list string) : string :=
  rsplit_next (char_eqb "/") (from_option id "" (segment !! resolve_executable_index segment)).
Definition arguments (segment : list string) : list string :=
  drop (S (resolve_executable_index segment)) segment.

Definition GIT_WRITES : list string :=
  ["checkout"; "restore"; "reset"; "stash"; "rm"; "mv"; "apply"; "am"; "merge"; "rebase";
   "cherry-pick"; "clean"; "pull"].

Definition segment_is_write_capable (segment : list string) : bool :=
  let cmd := executable segment in
  let rest := arguments segment in
  if bool_decide (cmd ∈ ["python"; "python3"; "node"; "apply_patch"; "xargs"; "eval"]) then true
  else if bool_decide (cmd = "cargo") then
    bool_decide (List.find (λ w, negb (starts_with "+" w)) rest = Some "fmt")
  else if bool_decide (cmd ∈ ["sed"; "perl"]) then existsb (starts_with "-i") rest
  else if bool_decide (cmd = "find") then existsb (λ w, bool_decide (w ∈ ["-exec"; "-execdir"])) rest
  else if bool_decide (cmd = "dd") then true
  else if bool_decide (cmd ∈ ["curl"; "wget"]) then
    existsb (λ w, bool_decide (w ∈ ["-o"; "-O"]) || starts_with "--output" w) rest
  else if bool_decide (cmd = "git") then
    bool_decide (from_option id ""
      (List.find (λ w, negb (starts_with "-" w) && negb (is_shell_separator w)) rest) ∈ GIT_WRITES)
  else if bool_decide (cmd ∈ ["sh"; "bash"; "zsh"; "ksh"; "dash"]) then
    existsb (λ w, bool_decide (w = "-c")) rest
  else false.

(** The commands of a command line: [words.split(is_shell_separator)] without
    the empty ones. *)
Definition segments (words : list string) : list (list string) :=
  List.filter (λ s, negb (bool_decide (s = []))) (split_slice is_shell_separator words).

Definition is_write_capable_command (command : string) : bool :=
  existsb segment_is_write_capable (segments (shell_words command)).

(** ** What a command writes *)

Definition REDIRECTIONS : list string := [">"; ">>"; "1>"; "1>>"; "2>"; "2>>"].

(** A target worth reporting: not [/dev/null] and not a file descriptor. *)
Definition is_real_target (t : string) : bool :=
  negb (bool_decide (t = "/dev/null")) &&
  negb (is_some_and (λ fd, bool_decide (fd = "-") || (negb (is_empty fd) && all_chars is_ascii_digit fd))
          (strip_prefix "&" t)).

Fixpoint redirections (words : list string) : list string :=
  match words with
  | [] => []
  | op :: rest =>
      (if bool_decide (op ∈ REDIRECTIONS) then
         match rest with
         | t :: _ => [clean_shell_word t]
         | [] => []
         end
       else
         match (match strip_prefix ">>" op with Some t => Some t | None => strip_prefix ">" op end) with
         | Some t => if is_empty t then [] else [clean_shell_word t]
         | None =>
             match (match strip_prefix "1>" op with Some t => Some t | None => strip_prefix "2>" op end) with
             | Some t => if is_empty t then [] else [clean_shell_word t]
             | None => []
             end
         end) ++ redirections rest
  end.

Definition redirection_targets (words : list string) : list string :=
  List.filter is_real_target (redirections words).

Definition tee_targets (words : list string) : list string :=
  flat_map (λ segment,
    if bool_decide (executable segment = "tee") then
      map clean_shell_word (List.filter (λ a, negb (starts_with "-" a)) (arguments segment))
    else []) (segments words).

Definition command_operand_targets (words : list string) : list string :=
  flat_map (λ segment,
    let cmd := executable segment in
    let operands := List.filter (λ a, negb (starts_with "-" a)) (arguments segment) in
    if bool_decide (cmd ∈ ["cp"; "mv"; "install"]) then
      match last operands with
      | Some t => [clean_shell_word t]
      | None => []
      end
    else if bool_decide (cmd ∈ ["touch"; "mkdir"; "rm"; "truncate"]) then
      map clean_shell_word operands
    else []) (segments words).

(** [None]: the command may write anywhere. *)
Definition shell_write_targets (command : string) : option (list string) :=
  if has_shell_command_substitution command then None
  else
    let words := shell_words command in
    if bool_decide (words = []) then Some []
    else if is_write_capable_command command then None
    else Some (redirection_targets words ++ tee_targets words ++ command_operand_targets words).

Definition shell_command_writes (command : string) : bool :=
  match shell_write_targets command with
  | Some targets => negb (bool_decide (targets = []))
  | None => true
  end.

(** [p.rsplit(['/', '\\']).next()]. *)
Definition file_name (p : string) : string := rsplit_next (is_one_of ["/"%char; backslash]) p.

Definition is_allowed_lifecycle_artifact (path : string) : bool :=
  let file := file_name (to_lowercase path) in
  bool_decide (file ∈ ["status.json"; "blocker"; "blocker.md"; "blockers.md"; "handoff.md";
                       "final-review.md"; "review.md"; "review-report.md"])
  || ends_with "-eval.md" file.

Definition shell_writes_source (command : string) : bool :=
  match shell_write_targets command with
  | Some targets => existsb (λ t, negb (is_allowed_lifecycle_artifact t)) targets
  | None => shell_command_writes command
  end.

Definition command_text (input : Value) : string :=
  match Json.get "command" input ≫= as_str with
  | Some c => c
  | None =>
      match Json.get "argv" input ≫= as_array with
      | Some argv => join " " (omap as_str argv)
      | None => from_option id "" (as_str input)
      end
  end.

Definition is_write_attempt (tool_name : string) (input : Value) : bool :=
  is_write_tool tool_name || (is_shell tool_name && shell_writes_source (command_text input)).

(** ** Probes and recovery *)

Definition is_probe_segment (seg : string) : bool :=
  let cmd := to_lowercase seg in
  existsb (λ p, contains p cmd)
    ["status get"; "gate status"; "dispatch read"; "plan read"; "plan write"; "review read";
     "git status"; "git diff"] || bool_decide (cmd = "ls").

Definition is_probe_command (command : string) : bool :=
  let segs := List.filter (λ s, negb (is_empty s))
                (map trim (split_on (is_one_of [";"; "&"; "|"]%char) command)) in
  forallb is_probe_segment segs && negb (bool_decide (segs = [])).

Definition is_exact_replan (command : string) : bool :=
  bool_decide (to_lowercase (trim command) ∈
    ["openflows-harness status set planning"; "openflows-harness status set blocked"]).

Definition is_plan_recovery_command (tool_name : string) (input : Value) : bool :=
  let lower := to_lowercase tool_name in
  let command := if is_shell lower || is_harness lower then to_lowercase (command_text input) else "" in
  if is_empty command || negb (contains "openflows-harness" command) then false
  else existsb (λ p, contains p command)
    ["plan write"; "status set planning"; "status set blocked"; "status get"; "plan read";
     "dispatch read"].

(** ** Plans *)

Definition target_path (input : Value) : string :=
  from_option id ""
    ((match Json.get "path" input with
      | Some v => Some v
      | None => Json.get "file_path" input
      end) ≫= as_str).

Definition chat_plan_path (chat_id : string) : string :=
  "/home/coder/.coder/plans/PLAN-" +:+ chat_id +:+ ".md".

Definition is_plan_path (path chat_id : string) : bool := bool_decide (path = chat_plan_path chat_id).

(** The value of the first [--file] option. *)
Fixpoint file_option (args : list string) : option string :=
  match args with
  | [] => None
  | a :: rest =>
      match (if bool_decide (a = "--file") then hd_error rest else strip_prefix "--file=" a) with
      | Some p => Some p
      | None => file_option rest
      end
  end.

Definition uploads_other_plan (tool_name chat_id : string) (segment : list string) : bool :=
  match (if bool_decide (executable segment = "openflows-harness") then Some (arguments segment)
         else if is_harness tool_name then Some segment else None) with
  | None => false
  | Some args =>
      if bool_decide (hd_error args = Some "plan") && bool_decide (args !! 1 = Some "write")
      then negb (is_some_and (λ p, is_plan_path p chat_id) (file_option args))
      else false
  end.

Definition has_nonstandard_plan_upload (tool_name : string) (input : Value) (chat_id : string) : bool :=
  if negb (is_shell tool_name) && negb (is_harness tool_name) then false
  else existsb (uploads_other_plan tool_name chat_id) (segments (shell_words (command_text input))).

Definition is_plan_write (tool_name : string) (input : Value) (chat_id : string) : bool :=
  if is_plan_path (target_path input) chat_id then true
  else
    match (if is_shell tool_name then shell_write_targets (command_text input) else None) with
    | Some targets =>
        negb (bool_decide (targets = [])) && forallb (λ p, is_plan_path p chat_id) targets
    | None =>
        is_harness tool_name &&
        contains "plan write" (to_lowercase (from_option id "" (Json.get "command" input ≫= as_str)))
    end.

Definition is_blocker_write (tool_name : string) (input : Value) : bool :=
  bool_decide (file_name (to_lowercase (target_path input)) ∈
    ["status.json"; "blocker"; "blocker.md"; "blockers.md"]).

(** ** Tickets of a chat *)

Record HookContext : Type := mkContext {
  c_role : option string;
  c_ticket_id : option string;
  c_workspace_id : option string;
}.

Definition context_default : HookContext := mkContext None None None.

(** [raw.split(':')] and the position of a segment in it. *)
Definition colon_segments (raw : string) : list string := split_on (char_eqb ":") raw.

Fixpoint from_segment (s : string) (segs : list string) : option (list string) :=
  match segs with
  | [] => None
  | x :: rest => if bool_decide (x = s) then Some segs else from_segment s rest
  end.

Definition strip_namespace (raw : string) : string :=
  match from_segment "ticket" (colon_segments raw) with
  | Some segs => join ":" segs
  | None => raw
  end.

(** The segment after the first one named [s]. *)
Definition segment_after (s un_ns : string) : option string :=
  segs ← from_segment s (colon_segments un_ns); segs !! 1.

Definition ticket_from_key (un_ns : string) : option string := segment_after "ticket" un_ns.
Definition role_from_key (un_ns : string) : option string := segment_after "chat" un_ns.

Fixpoint find_chat (s : SharedStore) (chat_id : string) (ks : list string) : HookContext :=
  match ks with
  | [] => context_default
  | key :: ks =>
      if negb (contains ":chat:" key) then find_chat s chat_id ks
      else
        let un_ns := strip_namespace key in
        if bool_decide (get_typed s un_ns = Some chat_id)
        then mkContext (role_from_key un_ns) (ticket_from_key un_ns) None
        else find_chat s chat_id ks
  end.

Definition resolve_chat (s : SharedStore) (chat_id : string) : HookContext :=
  if is_empty chat_id then context_default else find_chat s chat_id (keys s "ticket:*").

Record TicketState : Type := mkTicketState {
  ts_phase : option string;
  ts_plan_exists : bool;
  ts_gate_approved : bool;
  ts_pr_recorded : bool;
  ts_handoff_exists : bool;
  ts_flags : Value;
}.

Definition read_ticket_state (s : SharedStore) (ticket : string) : TicketState :=
  let lc := ok (lifecycle s ticket) in
  mkTicketState
    ((λ l, phase_as_str (phase l)) <$> lc)
    (is_some_and (λ l, negb (is_empty (plan l))) lc
     || negb (bool_decide (keys s ("pair:" +:+ ticket +:+ ":plan") = [])))
    (is_some_and (λ l, is_some_and d_approved (plan_decision l)) lc)
    (is_some (get s ("ticket:" +:+ ticket +:+ ":pr")))
    (is_some (get s ("ticket:" +:+ ticket +:+ ":handoff")))
    (from_option id VNull (get s ("ticket:" +:+ ticket +:+ ":basic_status"))).

(** ** The guard *)

Definition phase_guidance (phase : string) (plan_exists : bool) (role : string) : string :=
  if eq_ignore_case role "sentinel" then
    "You are SENTINEL, the read-only reviewer. Your job is to review plans and PRs and submit verdicts — you must not write or edit source. Read the plan/PR, run read-only checks, and use `openflows-harness review submit` / `gate decide`."
  else if bool_decide (phase = "planning") then
    if plan_exists then "Planning: read source, inspect repository state and runtime capabilities before revising the plan. Upload it, then set plan_ready. Source edits require approval."
    else "Planning: first read source, inspect repository state and runtime capabilities to ground the plan. Then write the plan at the current chat-specific path, upload that exact file with plan write, and set plan_ready. Read-only inspection is allowed now; source edits require approval."
  else if bool_decide (phase = "plan_ready") then
    "Plan is ready for SENTINEL review. Wait for approval, then set building; do not edit source or the submitted plan."
  else if bool_decide (phase = "plan_rejected") then
    "Read rejection feedback in status get. Return to planning, revise/upload the plan, and set plan_ready."
  else if bool_decide (phase = "building") && negb plan_exists then
    "Building has no approved plan. Return to planning and run /plan, upload it, then obtain review before implementing."
  else if bool_decide (phase = "building") then
    "Building: implement the approved plan, commit all changes, then set testing with a clean checkout."
  else if bool_decide (phase = "testing") then
    "Testing freezes source. Run verify serve for SENTINEL A2A tests. Wait for successful A2A verification and SENTINEL testing approval, then set submit. Human testing review is TODO and does not block submit. For fixes return to building."
  else if bool_decide (phase = "submit") then
    "Submit: push the assigned branch. If no PR is recorded, use `openflows-harness pr create --repo OWNER/REPO --base BASE --head BRANCH --title TITLE --body DESCRIPTION`; choose BASE from the task or repository default and write a descriptive Markdown body. This creates/finds the GitHub PR and records it. If a PR is already recorded, update its branch rather than creating another. Wait for SENTINEL review, human approval and CI. Source fixes require returning to building and repeating testing."
  else if bool_decide (phase = "done") then "Ticket is done and terminal."
  else if bool_decide (phase = "blocked") then
    "Blocked: record a blocker and wait for help. Recovery returns to planning."
  else
    "Read status get; start with planning and an uploaded plan. Unknown state cannot authorize source edits.".

(** What [phase_guard] decides for FORGE once the ticket's state is known. *)
Definition forge_guard (st : TicketState) (chat_id role lower : string) (input : Value)
  (base : HookDecision) : HookDecision :=
  let phase := from_option id "unset" (ts_phase st) in
  let plan_path := chat_plan_path chat_id in
  let guidance :=
    phase_guidance phase (ts_plan_exists st) role +:+ " Current chat plan: `" +:+ plan_path +:+
    "`. During planning write the plan there, then upload that exact file with `openflows-harness plan write --file " +:+ plan_path +:+ "`. Do not write /home/coder/PLAN.md." in
  if has_nonstandard_plan_upload lower input chat_id then
    deny_with ("Use the standard current-chat plan path: `openflows-harness plan write --file " +:+
      plan_path +:+ "`. Legacy PLAN.md paths and other chats' plans are not accepted.")
      ▷ with_model_context guidance
  else if negb (is_write_tool lower) && negb (is_harness lower) && negb (is_shell lower) then base
  else if bool_decide (phase = "testing") && is_shell lower &&
          is_verification_request (command_text input) then
    observe ▷ with_model_context guidance
  else if bool_decide (phase ∈ ["planning"; "plan_ready"; "plan_rejected"; "unset"]) then
    (if is_write_attempt lower input &&
        negb (negb (bool_decide (phase = "plan_ready")) && is_plan_write lower input chat_id)
     then deny_with ("openflows policy: source modifications require an approved plan and the building phase. During planning, read source files and inspect repository/runtime state, then write `" +:+ plan_path +:+ "` and submit it with `openflows-harness plan write --file " +:+ plan_path +:+ "` and `status set plan_ready`. During plan_ready the plan is frozen; wait for review.")
     else observe) ▷ with_model_context guidance
  else if bool_decide (phase = "building") then
    (if negb (ts_plan_exists st) &&
        negb (is_plan_write lower input chat_id || is_plan_recovery_command lower input)
     then deny_with "openflows policy: FORGE is in the building phase but no plan exists in the shared store. Write and upload a plan first: run `/plan`, then `openflows-harness plan write --file <absolute-plan-path>`."
     else observe) ▷ with_model_context guidance
  else if bool_decide (phase = "done") then
    deny_with "Ticket is done; no further worker actions are allowed"
  else if bool_decide (phase = "testing") then
    if is_write_attempt lower input then
      deny_with "Testing freezes source. Return to building before making changes"
    else
      (if negb (ts_plan_exists st) &&
          negb (is_plan_write lower input chat_id || is_plan_recovery_command lower input)
       then deny_with "openflows policy: FORGE is in the testing phase but no plan exists. Leave testing: run `/plan` and get the plan approved before building."
       else observe) ▷ with_model_context guidance
  else if bool_decide (phase = "submit") then
    (if is_write_attempt lower input then
       deny_with "openflows policy: FORGE is in submit (PR under review). Do not modify source; for rework run `openflows-harness status set planning` (or `building`) first."
     else observe) ▷ with_model_context guidance
  else if bool_decide (phase = "blocked") then
    let command := to_lowercase (command_text input) in
    let is_readonly_probe :=
      is_shell lower && is_probe_command command && negb (shell_writes_source command) in
    let is_replan := (is_harness lower || is_shell lower) && is_exact_replan command in
    let is_blocker := is_write_tool lower && is_blocker_write lower input in
    (if negb is_readonly_probe && negb is_replan && negb is_blocker then
       deny_with "openflows policy: FORGE is blocked. Only record a blocker (STATUS.json), probe state, or return to `status set planning`; do not write source or build."
     else observe) ▷ with_model_context guidance
  else if negb (is_valid_phase phase) && is_write_attempt lower input then
    deny_with "Unknown lifecycle state; recover to planning before editing source"
  else observe ▷ with_model_context guidance.

(** [phase_guard]. *)
Definition phase_guard (s : SharedStore) (chat_id role tool_name : string) (input : Value)
  (base : HookDecision) : HookDecision :=
  if deny base || is_some (rewrite base) then base
  else
    let lower := to_lowercase tool_name in
    if eq_ignore_case role "sentinel" && is_write_attempt lower input then
      deny_with "openflows policy: SENTINEL is a readonly reviewer — writes are blocked"
        ▷ with_model_context (phase_guidance "" false role)
    else if negb (eq_ignore_case role "forge") then base
    else
      match c_ticket_id (resolve_chat s chat_id) with
      | None => base
      | Some ticket => forge_guard (read_ticket_state s ticket) chat_id role lower input base
      end.
