(* ===== verification/GuardProps.v ===== *)
(** * What the phase guard guarantees

    Where source may be written, what the exemption for verification requests
    lets through, and that wrappers do not hide a command. *)
From S2P Require Import Prelude Text Json Lifecycle LifecycleCodec Store Guard.

(** ** Where writes are allowed *)

(** The writes FORGE may make: anything in building with a plan (or a call that
    uploads or recovers one), exactly the chat's own plan file during planning, a
    verification request during testing and, while blocked, a blocker report, a
    return to planning or a command without a source write. *)
Definition write_in_phase (st : TicketState) (chat lower : string) (input : Value) : Prop :=
  (ts_phase st = Some "building" ∧
     (ts_plan_exists st || is_plan_write lower input chat || is_plan_recovery_command lower input) = true) ∨
  (ts_phase st ∈ [None; Some "unset"; Some "planning"; Some "plan_rejected"] ∧
     is_plan_write lower input chat = true) ∨
  (ts_phase st = Some "testing" ∧ is_verification_request (command_text input) = true) ∨
  (ts_phase st = Some "blocked" ∧
     (is_blocker_write lower input || negb (shell_writes_source (to_lowercase (command_text input)))
      || is_exact_replan (to_lowercase (command_text input))) = true).

Lemma forge_guard_writes st chat role lower input base :
  is_write_attempt lower input = true → deny base = false → deny (forge_guard st chat role lower input base) = false →
  write_in_phase st chat lower input.
Proof.
  intros Hw Hb. unfold write_in_phase, forge_guard. cbv zeta.
  destruct (has_nonstandard_plan_upload _ _ _); [done|].
  assert (negb (is_write_tool lower) && negb (is_harness lower) && negb (is_shell lower) = false) as ->.
  { unfold is_write_attempt in Hw. destruct (is_write_tool lower); [done|]. cbn in Hw.
    apply andb_true_iff in Hw as [-> _]. by rewrite andb_false_r. }
  set (phase := from_option id "unset" (ts_phase st)).
  assert (∀ p, phase = p → p ≠ "unset" → ts_phase st = Some p) as Hph.
  { intros p <- Hne. unfold phase in *. by destruct (ts_phase st). }
  destruct (bool_decide (phase = "testing") && is_shell lower && is_verification_request _) eqn:Ev.
  { bsimp. intros _. right; right; left. split; [by apply Hph|done]. }
  destruct (bool_decide (phase ∈ _)) eqn:Ep.
  { apply bool_decide_eq_true in Ep. rewrite Hw. cbn [andb negb]. intros Hd.
    destruct (bool_decide (phase = "plan_ready")) eqn:Er; [done|]. cbn [andb negb] in Hd.
    destruct (is_plan_write lower input chat) eqn:Epw; [|done].
    right; left. split; [|done]. apply bool_decide_eq_false in Er. unfold phase in *.
    destruct (ts_phase st) as [p|]; [|by left]. cbn in *.
    elem_cases Ep; subst; try done; repeat (first [by left | right]). }
  destruct (bool_decide (phase = "building")) eqn:Eb.
  { bsimp. intros Hd. left. split; [by apply Hph|].
    destruct (ts_plan_exists st); [done|]. cbn [negb andb] in Hd.
    destruct (is_plan_write lower input chat || _) eqn:E; [|done].
    apply orb_true_iff in E as [-> | ->]; [done|]. by rewrite !orb_true_r. }
  destruct (bool_decide (phase = "done")) eqn:E1; [done|].
  destruct (bool_decide (phase = "testing")) eqn:E2; [by rewrite Hw|].
  destruct (bool_decide (phase = "submit")) eqn:E3; [by rewrite Hw|].
  destruct (bool_decide (phase = "blocked")) eqn:Eb'.
  { bsimp. intros Hd. right; right; right. split; [by apply Hph|].
    destruct (is_blocker_write lower input); [done|].
    destruct (shell_writes_source _); cbn [negb andb orb] in *; [|done].
    destruct (is_exact_replan _); [done|]. rewrite !andb_false_r in Hd. done. }
  destruct (is_valid_phase phase) eqn:Ev'; [|by rewrite Hw].
  unfold is_valid_phase, PHASES in Ev'. apply bool_decide_eq_true in Ev'. clearbody phase.
  elem_cases Ev'; subst phase; discriminate.
Qed.

Lemma phase_guard_writes s chat role tool input base ticket :
  c_ticket_id (resolve_chat s chat) = Some ticket → eq_ignore_case role "forge" = true →
  rewrite base = None → is_write_attempt (to_lowercase tool) input = true →
  deny (phase_guard s chat role tool input base) = false →
  write_in_phase (read_ticket_state s ticket) chat (to_lowercase tool) input.
Proof.
  intros Ht Hf Hr Hw. unfold phase_guard. rewrite Hr. cbn [is_some is_some_and].
  destruct (deny base) eqn:Hd; cbn [orb]; [by rewrite Hd|].
  destruct (eq_ignore_case role "sentinel" && _); [done|]. rewrite Hf. cbn [negb]. rewrite Ht.
  by apply forge_guard_writes.
Qed.

(** ** The verification exemption *)

Lemma not_one_of_cons x l c :
  is_one_of (x :: l) c = false ↔ char_eqb c x = false ∧ is_one_of l c = false.
Proof. apply orb_false_iff. Qed.

(** A word that is data to the shell. *)
Definition plain (w : string) : Prop := is_shell_separator w = false ∧ w ≠ ">".

Lemma literal_plain w : plain (literal_shell_word w).
Proof.
  unfold literal_shell_word, plain. destruct (_ || _) eqn:E.
  - split; [|done]. unfold is_shell_separator. apply bool_decide_eq_false. intros Hin.
    elem_cases Hin; done.
  - by bsimp.
Qed.

Lemma flush_plain words w started :
  Forall plain words → Forall plain (flush_word words w started).
Proof.
  intros H. unfold flush_word. destruct started; [|done].
  apply Forall_app. split; [done|]. apply Forall_singleton, literal_plain.
Qed.

Lemma verification_words : ∀ cs words w quote escaped started,
  verification_scan cs quote escaped = true → Forall plain words →
  Forall plain (words_loop cs words w quote escaped started).
Proof.
  induction cs as [|c cs IH]; intros words w quote escaped started Hv Hw; cbn [words_loop];
    [by apply flush_plain|]. cbn [verification_scan] in Hv.
  destruct escaped; [by apply IH|]. rewrite (andb_comm (char_eqb c backslash)).
  destruct (negb (in_squote quote) && char_eqb c backslash); [by apply IH|].
  destruct quote as [q|].
  - destruct (in_squote (Some q)) eqn:Eq.
    + change (char_eqb squote q = true) in Eq. apply char_eqb_eq in Eq as <-.
      destruct (char_eqb c squote); by apply IH.
    + destruct (is_one_of _ c); [done|]. destruct (char_eqb c q); by apply IH.
  - cbn [in_squote is_some_and] in Hv. destruct (is_one_of ["$"%char; _] c); [done|].
    destruct (is_quote c); [by apply IH|].
    destruct (is_one_of _ c) eqn:Ec; [done|].
    rewrite !not_one_of_cons in Ec. destruct Ec as (E1 & E2 & E3 & E4 & E5 & E6 & E7 & _).
    assert (is_one_of [";"; "|"; "&"; ">"]%char c = false) as -> by (by rewrite !not_one_of_cons).
    rewrite E2, E6. cbn [andb].
    destruct (is_whitespace c); [|by apply IH].
    apply IH; [done|]. rewrite app_nil_r. by apply flush_plain.
Qed.

Lemma verification_no_substitution : ∀ cs quote escaped,
  (∀ q, quote = Some q → is_quote q = true) →
  verification_scan cs quote escaped = true → substitution_scan cs quote escaped = false.
Proof.
  induction cs as [|c cs IH]; intros quote escaped Hq Hv; cbn [substitution_scan]; [done|].
  cbn [verification_scan] in Hv. destruct escaped; [by apply IH|].
  rewrite (andb_comm (char_eqb c backslash)).
  destruct (negb (in_squote quote) && char_eqb c backslash); [by apply IH|].
  destruct (in_squote quote) eqn:Eq.
  - destruct quote as [q|]; [|done]. change (char_eqb squote q = true) in Eq.
    apply char_eqb_eq in Eq as <-. cbn [negb andb].
    rewrite (Ascii.eqb_sym squote c : char_eqb squote c = char_eqb c squote).
    destruct (char_eqb c squote) eqn:Ec; destruct (is_quote c) eqn:Ek; try by apply IH.
    apply char_eqb_eq in Ec as ->. done.
  - destruct (is_one_of ["$"%char; _] c) eqn:Ed; [done|].
    rewrite !not_one_of_cons in Ed. destruct Ed as (E1 & E2 & _). rewrite E1, E2. cbn [negb andb orb].
    destruct quote as [q|].
    + rewrite (Ascii.eqb_sym q c : char_eqb q c = char_eqb c q).
      destruct (char_eqb c q) eqn:Ec; destruct (is_quote c) eqn:Ek; try by apply IH.
      apply char_eqb_eq in Ec as ->. by rewrite Hq in Ek.
    + destruct (is_quote c) eqn:Ek; [apply IH; [by intros q [= <-]|done]|].
      destruct (is_one_of _ c); [done|]. by apply IH.
Qed.

(** The exemption for verification requests lets one command through: a
    command line that passes as a verification request contains no substitution
    and, read as the shell reads it, no separator and no redirection, so that it
    is a single simple command whose words are all data. *)
Theorem verification_request_is_one_command command :
  is_verification_request command = true →
  has_shell_command_substitution command = false ∧
  Forall (λ w, is_shell_separator w = false ∧ w ≠ ">") (shell_words command) ∧
  segments (shell_words command) = List.filter (λ s, negb (bool_decide (s = []))) [shell_words command].
Proof.
  unfold is_verification_request. intros H.
  destruct (take 3 _) as [|w0 [|w1 [|w2 [|]]]]; try done. bsimp.
  assert (Forall plain (shell_words command)) as Hp by (by apply verification_words).
  split_and!; [by apply verification_no_substitution|done|].
  unfold segments. rewrite split_slice_none; [done|].
  intros w Hw. rewrite Forall_forall in Hp. by apply Hp.
Qed.

Lemma verification_request_is_one_command_witness :
  has_shell_command_substitution "openflows-harness verify request -- cargo test" = false.
Proof.
  exact (proj1 (verification_request_is_one_command
    "openflows-harness verify request -- cargo test" eq_refl)).
Defined.

(** The exemption looks at the first word's last path component only, so a
    variable assignment can stand in for the program: such a command line passes
    as a verification request although the shell would run another program. *)
Theorem verification_request_accepts_assignment :
  is_verification_request "PATH=/tmp/openflows-harness verify request" = true ∧
  executable (shell_words "PATH=/tmp/openflows-harness verify request") ≠ "openflows-harness".
Proof. split; vm_compute; [reflexivity|discriminate]. Qed.

(** ** Wrappers *)

Lemma resolve_loop_lt : ∀ rest i n, resolve_loop i rest = Some n → i ≤ n < i + length rest.
Proof.
  fix IH 1. intros [|w rest] i n H; cbn [resolve_loop] in H; [done|]. cbn [length].
  destruct (bool_decide (w ∈ FORWARDING_WRAPPERS)); [apply IH in H; lia|].
  destruct (bool_decide (w ∈ WRAPPER_OPT_WITH_ARG)).
  - destruct rest as [|v rest]; [done|]. apply IH in H. cbn [length]. lia.
  - destruct (_ || _); [apply IH in H; lia|]. injection H as <-. lia.
Qed.

Lemma resolve_loop_shift : ∀ rest i j,
  resolve_loop (i + j) rest = (λ n, i + n) <$> resolve_loop j rest.
Proof.
  fix IH 1. intros [|w rest] i j; cbn [resolve_loop]; [done|].
  destruct (bool_decide (w ∈ FORWARDING_WRAPPERS));
    [rewrite <- IH; f_equal; lia|].
  destruct (bool_decide (w ∈ WRAPPER_OPT_WITH_ARG)).
  - destruct rest as [|v rest]; [done|]. rewrite <- IH. f_equal. lia.
  - destruct (_ || _); [rewrite <- IH; f_equal; lia|done].
Qed.

(** What stands before the program without being it: wrapper names, options,
    options with their value, assignments. *)
Inductive prefix_words : list string → Prop :=
  | pw_nil : prefix_words []
  | pw_wrapper w ws : w ∈ FORWARDING_WRAPPERS → prefix_words ws → prefix_words (w :: ws)
  | pw_arg w v ws : w ∈ WRAPPER_OPT_WITH_ARG → prefix_words ws → prefix_words (w :: v :: ws)
  | pw_option w ws : w ∉ FORWARDING_WRAPPERS → w ∉ WRAPPER_OPT_WITH_ARG →
      is_option_token w || is_env_assignment w = true → prefix_words ws → prefix_words (w :: ws).

Lemma resolve_loop_prefix ws seg i :
  prefix_words ws → resolve_loop i (ws ++ seg) = resolve_loop (i + length ws) seg.
Proof.
  intros H. revert i. induction H as [|w ws Hw _ IH|w v ws Hw _ IH|w ws H1 H2 H3 _ IH]; intros i;
    cbn [app resolve_loop length].
  - by rewrite Nat.add_0_r.
  - rewrite bool_decide_eq_true_2 by done. rewrite IH. f_equal. lia.
  - assert (w ∉ FORWARDING_WRAPPERS) as Hn
      by (unfold WRAPPER_OPT_WITH_ARG in Hw; elem_cases Hw; subst w; by apply (bool_decide_unpack _)).
    rewrite bool_decide_eq_false_2 by done. rewrite bool_decide_eq_true_2 by done. rewrite IH. f_equal. lia.
  - rewrite !bool_decide_eq_false_2 by done. rewrite H3, IH. f_equal. lia.
Qed.

(** Wrappers do not hide a command: whatever wrapper names, options, option
    values and assignments precede a command, the guard sees the same program
    with the same arguments, and so reaches the same verdict on it; and for every
    segment the index of the program is within the segment, so that looking it
    up cannot panic. *)
Theorem wrappers_do_not_hide_commands ws seg :
  (seg ≠ [] → resolve_executable_index seg < length seg) ∧
  (prefix_words ws → is_Some (resolve_loop 0 seg) →
   executable (ws ++ seg) = executable seg ∧ arguments (ws ++ seg) = arguments seg ∧
   segment_is_write_capable (ws ++ seg) = segment_is_write_capable seg).
Proof.
  split.
  - intros Hn. unfold resolve_executable_index. destruct (resolve_loop 0 seg) as [n|] eqn:E.
    + apply resolve_loop_lt in E. lia.
    + destruct seg; [done|]. cbn [length]. lia.
  - intros Hp [n Hn].
    assert (resolve_executable_index (ws ++ seg) = length ws + resolve_executable_index seg) as E.
    { unfold resolve_executable_index. rewrite resolve_loop_prefix by done.
      rewrite <- (Nat.add_0_r (0 + length ws)), resolve_loop_shift, Hn. done. }
    assert (executable (ws ++ seg) = executable seg) as E1.
    { unfold executable. rewrite E. by rewrite lookup_app_r, Nat.add_sub_swap, Nat.sub_diag by lia. }
    assert (arguments (ws ++ seg) = arguments seg) as E2.
    { unfold arguments. rewrite E, plus_n_Sm. by rewrite drop_app_add. }
    split_and!; [done..|]. unfold segment_is_write_capable. by rewrite E1, E2.
Qed.

(** ** Probes of a blocked worker *)

(** A blocked ticket with a plan. *)
Definition blocked_state : TicketState := mkTicketState (Some "blocked") true false false false VNull.

Definition two_lines : string := "git status" +:+ String newline "cargo publish".

(** The probe check does not split at line breaks: a second line rides along
    with a probe, so a blocked worker may run a command that is refused on its
    own, although the shell (and the guard's own tokenizer) reads two commands. *)
Theorem probe_check_misses_line_breaks :
  let call c := VObject [("command", VString c)] in
  deny (forge_guard blocked_state "c" "forge" "bash" (call "cargo publish") observe) = true ∧
  segments (shell_words two_lines) = [["git"; "status"]; ["cargo"; "publish"]] ∧
  deny (forge_guard blocked_state "c" "forge" "bash" (call two_lines) observe) = false.
Proof. split_and!; vm_compute; reflexivity. Qed.
