(* ===== verification/Sentinel.v ===== *)
(** * The reviewer's guard

    Models [src/crates/agent-nexus/src/hooks/sentinel.rs] and the review-report
    marker of [context.rs]: the review job derived from the ticket, the
    reviewer's own (simpler) reading of shell commands, and the decision on a
    tool call of SENTINEL.  [sentinel.rs] repeats several helpers of [guard.rs]
    with other bodies; the ones below are those of [sentinel.rs]. *)
From S2P Require Import Prelude Text Json Lifecycle LifecycleCodec Store Guard.

(** ** The review job *)

Inductive SentinelJob : Type := PlanGateReview | TestingReview | PrReview | Idle.

#[export] Instance sentinel_job_eq_dec : EqDecision SentinelJob.
Proof. solve_decision. Defined.

Definition sentinel_job (st : TicketState) : SentinelJob :=
  match ts_phase st with
  | Some p =>
      if bool_decide (p = "plan_ready") && negb (ts_gate_approved st) then PlanGateReview
      else if bool_decide (p = "testing") then TestingReview
      else if bool_decide (p = "submit") && ts_pr_recorded st then PrReview
      else Idle
  | None => Idle
  end.

Definition is_review_artifact (path : string) : bool :=
  let file := file_name (to_lowercase path) in
  ends_with "-eval.md" file
  || bool_decide (file ∈ ["eval.md"; "final-review.md"; "review.md"; "review-report.md"]).

(** ** Reading a shell command *)

(** Unlike the one of [guard.rs] this one also trims semicolons. *)
Definition clean_shell_word (word : string) : string :=
  trim_matches (is_one_of [dquote; squote; ";"; "("; ")"]%char) word.

Definition is_shell_separator (word : string) : bool :=
  bool_decide (word ∈ ["|"; ";"; "&&"; "||"]).

Definition shell_words (command : string) : list string :=
  command
    ▷ replace ">>" " __OPENFLOWS_REDIR__ "
    ▷ replace ">" " __OPENFLOWS_REDIR__ "
    ▷ replace "|" " | "
    ▷ replace ";" " ; "
    ▷ split_whitespace
    ▷ map (λ word, if bool_decide (word = "__OPENFLOWS_REDIR__") then ">" else clean_shell_word word)
    ▷ List.filter (λ word, negb (is_empty word)).

(** The wrapper tables and this search are word for word those of [guard.rs]. *)
Definition resolve_executable_index : list string → nat := Guard.resolve_executable_index.

(** The executable of the whole line: there is one, the words are not split
    into commands first. *)
Definition is_write_capable_command (command : string) : bool :=
  let words := shell_words command in
  if bool_decide (words = []) then false
  else
    let cmd_idx := resolve_executable_index words in
    let cmd := from_option id "" (words !! cmd_idx) in
    let next := from_option id "" (words !! (cmd_idx + 1)) in
    if bool_decide (cmd = "dd") then true
    else if bool_decide (cmd ∈ ["curl"; "wget"]) then
      existsb (λ w, bool_decide (w ∈ ["-o"; "-O"]) || starts_with "--output" w) words
    else if bool_decide (cmd = "git") then bool_decide (next ∈ GIT_WRITES)
    else if bool_decide (cmd ∈ ["sh"; "bash"; "zsh"; "ksh"; "dash"]) then
      existsb (λ w, bool_decide (w = "-c")) words
    else false.

Fixpoint redirection_targets (words : list string) : list string :=
  match words with
  | [] => []
  | op :: rest =>
      (if bool_decide (op ∈ REDIRECTIONS) then
         match rest with
         | t :: _ => [clean_shell_word t]
         | [] => []
         end
       else
         match (match strip_prefix ">>" op with Some t => Some t | None => strip_prefix ">" op end) with
         | Some t => if is_empty t then [] else [clean_shell_word t]
         | None =>
             match (match strip_prefix "1>" op with Some t => Some t | None => strip_prefix "2>" op end) with
             | Some t => if is_empty t then [] else [clean_shell_word t]
             | None => []
             end
         end) ++ redirection_targets rest
  end.

(** The arguments [tee] is taken to write: options are skipped, a separator
    ends them. *)
Fixpoint tee_arguments (args : list string) : list string :=
  match args with
  | [] => []
  | arg :: args =>
      if starts_with "-" arg then tee_arguments args
      else if is_shell_separator arg then []
      else clean_shell_word arg :: tee_arguments args
  end.

Fixpoint tee_targets (words : list string) : list string :=
  match words with
  | [] => []
  | word :: rest =>
      (if bool_decide (word = "tee") then tee_arguments rest else []) ++ tee_targets rest
  end.

(** [iter.take_while(..)]. *)
Fixpoint take_while {A} (f : A → bool) (l : list A) : list A :=
  match l with
  | [] => []
  | x :: l => if f x then x :: take_while f l else []
  end.

Fixpoint command_operand_targets (words : list string) : list string :=
  match words with
  | [] => []
  | cmd :: rest =>
      (if bool_decide (cmd ∈ ["cp"; "mv"; "install"]) then
         match List.find (λ arg, negb (starts_with "-" arg) && negb (is_shell_separator arg)) (rev rest) with
         | Some t => [clean_shell_word t]
         | None => []
         end
       else if bool_decide (cmd ∈ ["touch"; "mkdir"; "rm"; "truncate"]) then
         map clean_shell_word
           (List.filter (λ arg, negb (starts_with "-" arg))
              (take_while (λ arg, negb (is_shell_separator arg)) rest))
       else []) ++ command_operand_targets rest
  end.

Definition shell_write_targets (command : string) : option (list string) :=
  let words := shell_words command in
  if bool_decide (words = []) then Some []
  else
    let targets := redirection_targets words ++ tee_targets words ++ command_operand_targets words in
    if negb (bool_decide (targets = [])) then Some targets
    else
      let cmd := to_lowercase command in
      if existsb (λ p, contains p cmd) ["git apply"; "apply_patch"; "sed -i"; "perl -i"] then None
      else if is_write_capable_command command then None
      else Some [].

Definition shell_writes_source (command : string) : bool :=
  match shell_write_targets command with
  | Some targets => existsb (λ t, negb (is_review_artifact t)) targets
  | None => true
  end.

(** ** The decision *)

Definition sentinel_guidance (st : TicketState) : string :=
  match sentinel_job st with
  | PlanGateReview => "SENTINEL plan-gate review: FORGE is in `planning` and awaits approval. Read PLAN.md, evaluate it against the ticket, then run `openflows-harness gate decide --phase plan_ready --revision <N> --round <R> --verdict approve --report review.md`."
  | TestingReview => "Review implementation against the approved plan; run A2A verification and gate decide --phase testing with exact revision/head and a report. Map the approved plan criteria to commands and observed results in the report. A rejection returns FORGE to building to fix code, command setup or environment; identify setup failures as such and do not claim the tests ran when they could not start. FORGE workspaces are provisioned fresh and empty, so the executor toolchain (cargo, python, yaml, etc.) is part of FORGE's build environment that FORGE installs/repairs during building — a missing or broken toolchain in the executor is a REPAIRABLE setup failure and must REJECT into building so FORGE is re-awakened to install the tools and re-enter testing. Reserve `status set blocked` ONLY for a genuinely EXTERNAL prerequisite outside FORGE's workspace that FORGE cannot resolve by installing/repairing its own environment (e.g. missing human approval, unreachable external service, credentials/secret unavailable to the project). Unfamiliar test tools are allowed in the temporary verification checkout. Known destructive/control-plane operations are denied. A successful echo is only a transport probe, not acceptance evidence. Human testing review is TODO; successful A2A verification and SENTINEL approval permit submit."
  | PrReview => "SENTINEL PR review: FORGE is `submit` with a PR to review. Read the ticket + diff, write your evaluation report (*-eval.md / final-review.md), then `openflows-harness review submit --verdict approve|reject`."
  | Idle => "SENTINEL: no review is pending right now. Do not submit a gate approval or review verdict until FORGE signals `planning` or `submit`."
  end.

Definition report_marker_key (ticket : string) : string := "ticket:" +:+ ticket +:+ ":hooks:review_report".

Definition review_report_exists (s : SharedStore) (ticket : string) : bool :=
  is_some (get s (report_marker_key ticket)).

Definition record_review_report_marker (s : SharedStore) (ticket : string) : SharedStore :=
  set s (report_marker_key ticket) (VBool true).

Definition sentinel_phase_guard (s : SharedStore) (ticket : string) (st : TicketState)
  (tool_name : string) (input : Value) (base : HookDecision) : HookDecision :=
  let lower := to_lowercase tool_name in
  let guidance := sentinel_guidance st in
  if bool_decide (lower ∈ ["write"; "edit"; "create"; "patch"]) then
    if is_review_artifact (target_path input) then base ▷ with_model_context guidance
    else deny_with "openflows policy: SENTINEL is a readonly reviewer — source writes are blocked (only *-eval.md / final-review.md review reports may be written)"
           ▷ with_model_context guidance
  else if bool_decide (lower ∈ ["bash"; "sh"; "shell"; "exec"; "execute"])
          && is_verification_request (command_text input) then
    if bool_decide (sentinel_job st ≠ TestingReview)
    then deny_with "A2A verification requires the testing phase"
    else base ▷ with_model_context guidance
  else if bool_decide (lower ∈ ["bash"; "sh"; "shell"; "exec"])
          && shell_writes_source (command_text input) then
    deny_with "openflows policy: SENTINEL is a readonly reviewer — shell source writes are blocked (only review report artifacts may be written)"
      ▷ with_model_context guidance
  else if negb (contains "harness" lower) && negb (bool_decide (lower ∈ ["bash"; "sh"; "shell"; "exec"]))
  then base
  else
    let command := to_lowercase (from_option id "" (Json.get "command" input ≫= as_str)) in
    if contains "gate approve" command && bool_decide (sentinel_job st = PlanGateReview)
       && negb (ts_plan_exists st) then
      deny_with "openflows policy: cannot approve the planning gate — no plan exists yet. Ask FORGE to run `/plan` and upload PLAN.md first."
        ▷ with_model_context guidance
    else if contains "review submit" command && bool_decide (sentinel_job st = PrReview)
            && negb (review_report_exists s ticket) then
      deny_with "openflows policy: cannot submit a review yet — write your evaluation report (*-eval.md / final-review.md) first, then `review submit`."
        ▷ with_model_context guidance
    else if contains "review submit" command && bool_decide (sentinel_job st ≠ PrReview)
            && negb (contains "gate approve" command || contains "gate status" command) then
      deny_with "openflows policy: no PR review pending — do not submit a review verdict now."
        ▷ with_model_context guidance
    else base ▷ with_model_context guidance.
