(* ===== verification/HookPolicy.v ===== *)
(** * The generic policy of the hook consumer

    Models the stateless policy of [src/crates/agent-nexus/src/hooks/server.rs]
    ([apply_policy] and what it calls) and the event type of [types.rs]. *)
From S2P Require Import Prelude Text Json Guard.

(** ** Events and payloads *)

Inductive HookEvent : Type :=
  | SessionStart | UserPromptSubmit | PreToolUse | PostToolUse | PreCompact | PostCompact | Stop.

#[export] Instance hook_event_eq_dec : EqDecision HookEvent.
Proof. solve_decision. Defined.

Definition is_mutable (self : HookEvent) : bool :=
  match self with
  | UserPromptSubmit | PreToolUse => true
  | _ => false
  end.

(** The [snake_case] names of the variants. *)
Definition event_name (e : HookEvent) : string :=
  match e with
  | SessionStart => "session_start"
  | UserPromptSubmit => "user_prompt_submit"
  | PreToolUse => "pre_tool_use"
  | PostToolUse => "post_tool_use"
  | PreCompact => "pre_compact"
  | PostCompact => "post_compact"
  | Stop => "stop"
  end.

Definition all_events : list HookEvent :=
  [SessionStart; UserPromptSubmit; PreToolUse; PostToolUse; PreCompact; PostCompact; Stop].

#[export] Instance serde_hook_event : Serde HookEvent := {
  to_value e := VString (event_name e);
  from_value v :=
    name ← variant_name v;
    match List.find (λ e, bool_decide (event_name e = name)) all_events with
    | Some e => Ok e
    | None => Err ("unknown variant `" +:+ name +:+ "`")
    end
}.
#[export] Instance serde_hook_event_laws : SerdeLaws HookEvent.
Proof. by intros []. Qed.

Record HookMeta : Type := mkMeta {
  dispatch_id : string;
  schema_version : u64;
  chat_id : string;
  owner_id : string;
  workspace_id : option string;
  turn_id : option string;
  parent_chat_id : option string;
  root_chat_id : option string;
  client : option string;
}.

Record HookPayload : Type := mkPayload {
  event : HookEvent;
  meta : HookMeta;
  data : Value;
}.

(** [schema_version] is a [u32]. *)
Definition u32_of_value (v : Value) : result u64 :=
  match v with
  | VPosInt n => if (n <? 4294967296)%N then Ok n else Err "invalid value: expected u32"
  | _ => Err "invalid type: expected u32"
  end.

Definition META_FIELDS : list string :=
  ["dispatch_id"; "schema_version"; "chat_id"; "owner_id"; "workspace_id"; "turn_id";
   "parent_chat_id"; "root_chat_id"; "client"].

Definition meta_from_value (v : Value) : result HookMeta :=
  v ← struct_form META_FIELDS 0 v;
  dispatch ← field_or "" "dispatch_id" v;
  schema ← (match Json.get "schema_version" v with Some x => u32_of_value x | None => Ok 0%N end);
  chat ← field_or "" "chat_id" v;
  owner ← field_or "" "owner_id" v;
  workspace ← field_or None "workspace_id" v;
  turn ← field_or None "turn_id" v;
  parent ← field_or None "parent_chat_id" v;
  root ← field_or None "root_chat_id" v;
  client ← field_or None "client" v;
  Ok (mkMeta dispatch schema chat owner workspace turn parent root client).

Definition payload_from_value (v : Value) : result HookPayload :=
  v ← struct_form ["type"; "meta"; "data"] 2 v;
  event ← field "type" v;
  meta ← (match Json.get "meta" v with
          | Some x => meta_from_value x
          | None => Err "missing field `meta`"
          end);
  Ok (mkPayload event meta (from_option id VNull (Json.get "data" v))).

(** ** Commands *)

Definition extract_command (tool_input : Value) : option string :=
  match Json.get "command" tool_input ≫= as_str with
  | Some c => Some c
  | None =>
      match Json.get "argv" tool_input ≫= as_array with
      | Some argv => Some (join " " (omap as_str argv))
      | None => as_str tool_input
      end
  end.

Definition CODER_LIFECYCLE_SUBCOMMANDS : list string :=
  ["templates"; "template"; "delete"; "create"; "start"; "stop"; "workspace"; "workspaces"; "server"].

Definition is_separator_char : ascii → bool :=
  is_one_of [";"; "&"; "|"; "("; ")"; "{"; "}"; "`"]%char.

(** The loop of [tokenize_shell]; the input is without its empty parts. *)
Fixpoint tokenize_loop (parts : list string) (at_start : bool) : list (string * bool) :=
  match parts with
  | [] => []
  | part :: parts =>
      let lead := trim_start_matches is_separator_char part in
      let sep_before := negb (bool_decide (String.length lead = String.length part)) in
      let body := trim_end_matches is_separator_char lead in
      if is_empty body then tokenize_loop parts true
      else
        let tok := trim_matches (is_one_of [squote; dquote; "`"%char]) body in
        if is_empty tok then tokenize_loop parts true
        else (tok, at_start || sep_before) :: tokenize_loop parts false
  end.

Definition tokenize_shell (cmd : string) : list (string * bool) :=
  tokenize_loop (split_whitespace cmd) true.

Definition token_at_command_boundary (prev : option string) (at_start : bool) : bool :=
  at_start || is_some_and (λ p, bool_decide (p ∈ ["-c"; "sudo"; "su"])) prev.

Definition is_coder_command_token (tok : string) : bool :=
  let trimmed := trim_end_matches (char_eqb "/") tok in
  if bool_decide (trimmed = "coder") then true
  else
    match strip_prefix "sudo" trimmed with
    | Some rest => bool_decide (rest = "coder")
    | None => ends_with "/coder" trimmed
    end.

(** The first token after the flags that follow [coder]. *)
Fixpoint skip_flags (tokens : list (string * bool)) : option string :=
  match tokens with
  | [] => None
  | (tok, _) :: tokens => if starts_with "-" tok then skip_flags tokens else Some tok
  end.

(** The loop of [invokes_coder_lifecycle]; [prev] is the token before. *)
Fixpoint coder_loop (prev : option string) (tokens : list (string * bool)) : bool :=
  match tokens with
  | [] => false
  | (tok, at_start) :: rest =>
      (is_coder_command_token tok && token_at_command_boundary prev at_start
       && is_some_and (λ sub, bool_decide (sub ∈ CODER_LIFECYCLE_SUBCOMMANDS)) (skip_flags rest))
      || coder_loop (Some tok) rest
  end.

Definition invokes_coder_lifecycle (cmd : string) : bool := coder_loop None (tokenize_shell cmd).

Definition classify_command (cmd : string) : HookDecision :=
  if contains "rm -rf /" cmd || contains "rm -rf /*" cmd then
    deny_with "recursive delete of filesystem root"
  else if (contains "git push" cmd && contains "--force" cmd && contains "main" cmd)
          || (contains "git push" cmd && (contains "-f" cmd || contains "--force" cmd)
              && contains "master" cmd) then
    deny_with "force-push to default branch"
  else if contains "redis-cli" cmd then
    deny_with "direct Redis access — use openflows-harness for all coordination"
  else if invokes_coder_lifecycle cmd then
    deny_with "workspace/template lifecycle is controller-managed — NEXUS provisions workspaces; a worker must never self-provision a workspace"
  else if starts_with "git push" (trim_start cmd) then
    mkDecision false None
      (Some (VObject [("command",
         VString ("GIT_TERMINAL_PROMPT=0 git -c core.askpass=true " +:+ trim cmd))])) None
  else observe.

(** ** Paths *)

Definition WORKSPACE_ROOTS : list string :=
  ["/home/coder/workspace"; "/home/coder"; "/workspace"; "/home/"; "."].

Definition is_outside_workspace (path : string) : bool :=
  let trimmed := trim_start_pat "./" (trim_start_matches (char_eqb "~") path) in
  if starts_with "/" trimmed then forallb (λ root, negb (starts_with root trimmed)) WORKSPACE_ROOTS
  else false.

(** ** The policy *)

Definition str_field (k : string) (v : Value) : string :=
  from_option id "" (Json.get k v ≫= as_str).

Definition tool_input (d : Value) : Value := from_option id VNull (Json.get "tool_input" d).

Definition decide_pre_tool_use (d : Value) : HookDecision :=
  let tool_name := to_lowercase (str_field "tool_name" d) in
  let input := tool_input d in
  if bool_decide (tool_name ∈ ["bash"; "sh"; "shell"; "execute"; "exec"]) then
    let cmd := from_option id "" (extract_command input) in
    if is_verification_request cmd then observe else classify_command cmd
  else if bool_decide (tool_name ∈ ["write"; "edit"; "create"; "patch"]) then
    let path := target_path input in
    if is_outside_workspace path then
      deny_with ("openflows policy: write outside workspace (`" +:+ path +:+ "`) is blocked")
    else observe
  else observe.

(** Attachments are only counted to be logged: every branch observes. *)
Definition decide_user_prompt (d : Value) : HookDecision :=
  match Json.get "parts" d ≫= as_array with
  | Some arr =>
      if (0 <? length (List.filter
            (λ p, negb (bool_decide ((Json.get "type" p ≫= as_str) = Some "text"))) arr))
      then observe else observe
  | None => observe
  end.

Definition apply_policy (payload : HookPayload) : HookDecision :=
  match event payload with
  | PreToolUse => decide_pre_tool_use (data payload)
  | UserPromptSubmit => decide_user_prompt (data payload)
  | _ => observe
  end.
