(* ===== verification/Hooks.v ===== *)
(** * What a lifecycle hook does

    Models the slices of [src/crates/agent-nexus/src/hooks]: the guidance tail
    ([context.rs]), the stop classification ([stop.rs]), the wake-ups ([kick.rs]
    over [pocketflow-core/src/kick_bus.rs]) and the session bootstrap
    ([bootstrap.rs]).  A hook works on the shared store and the kick channel; the
    writes it makes are recorded in order, because a hook that misses its
    deadline is cancelled between two of them. *)
From S2P Require Import Prelude Text Json Lifecycle LifecycleCodec Store A2AProtocol Guard Sentinel HookPolicy.

#[export] Instance serde_value : Serde Value := { to_value v := v; from_value v := Ok v }.
#[export] Instance serde_value_laws : SerdeLaws Value.
Proof. done. Qed.

(** ** Effects *)

Record HookKick : Type := mkKick {
  k_chat_id : string;
  k_dispatch_id : string;
  k_event : string;
  k_role : string;
  k_ticket_id : string;
  k_hint : string;
  k_data : Value;
}.

Definition kick_new (chat event : string) : HookKick := mkKick chat "" event "" "" "" VNull.

(** One write of a hook. *)
Inductive Effect : Type :=
  | Set_ (key : string) (v : Value)
  | Del (key : string)
  | Publish (k : HookKick).

(** The store, what was published, and the writes made so far. *)
Record World : Type := mkWorld {
  w_store : SharedStore;
  w_kicks : list HookKick;
  w_trace : list Effect;
}.

Definition perform (w : World) (e : Effect) : World :=
  match e with
  | Set_ k v => mkWorld (set (w_store w) k v) (w_kicks w) (w_trace w ++ [e])
  | Del k => mkWorld (del (w_store w) k) (w_kicks w) (w_trace w ++ [e])
  | Publish k => mkWorld (w_store w) (w_kicks w ++ [k]) (w_trace w ++ [e])
  end.

Definition start (s : SharedStore) (kicks : list HookKick) : World := mkWorld s kicks [].

(** The world after the first [n] writes of a hook that was cancelled there. *)
Definition cut (n : nat) (before after : World) : World :=
  fold_left perform (take n (w_trace after)) before.

(** ** The guidance tail *)

Definition guidance_key (ticket : string) : string := "ticket:" +:+ ticket +:+ ":hooks:guidance".
Definition GUIDANCE_TAIL : nat := 8.

Definition guidance_tail (s : SharedStore) (ticket : string) : list Value :=
  from_option id [] (get_typed s (guidance_key ticket)).

Definition record_guidance (ticket : string) (guidance : Value) (w : World) : World :=
  let tail := guidance_tail (w_store w) ticket ++ [guidance] in
  let tail := if GUIDANCE_TAIL <? length tail then drop (length tail - GUIDANCE_TAIL) tail else tail in
  perform w (Set_ (guidance_key ticket) (to_value tail)).

Definition drain_guidance (ticket : string) (w : World) : list Value * World :=
  let tail := guidance_tail (w_store w) ticket in
  (tail, if negb (bool_decide (length tail = 0)) then perform w (Del (guidance_key ticket)) else w).

(** ** Stops *)

Inductive StopClassification : Type := PlannedHandoff | Premature | Unknown.

#[export] Instance stop_classification_eq_dec : EqDecision StopClassification.
Proof. solve_decision. Defined.

Definition stop_as_str (c : StopClassification) : string :=
  match c with
  | PlannedHandoff => "planned_handoff"
  | Premature => "premature"
  | Unknown => "unknown"
  end.

Definition classify_phase (st : TicketState) (phase : string) : StopClassification :=
  if bool_decide (phase = "plan_ready") && negb (ts_gate_approved st) then PlannedHandoff
  else if bool_decide (phase = "submit") && ts_pr_recorded st then PlannedHandoff
  else if bool_decide (phase ∈ ["testing"; "plan_rejected"; "done"]) then PlannedHandoff
  else if bool_decide (phase = "blocked") then PlannedHandoff
  else if bool_decide (phase = "fuel_exhausted") then PlannedHandoff
  else Premature.

Definition classify_stop (s : SharedStore) (chat : string) : StopClassification * Value :=
  let hc := resolve_chat s chat in
  match c_ticket_id hc with
  | None => (Unknown, VObject [])
  | Some ticket =>
      let st := read_ticket_state s ticket in
      let phase := from_option id "unset" (ts_phase st) in
      let c := classify_phase st phase in
      (c, VObject [("ticket_id", VString ticket);
                   ("role", VString (from_option id "" (c_role hc)));
                   ("phase", VString phase);
                   ("plan_exists", VBool (ts_plan_exists st));
                   ("gate_approved", VBool (ts_gate_approved st));
                   ("pr_recorded", VBool (ts_pr_recorded st));
                   ("handoff_exists", VBool (ts_handoff_exists st));
                   ("classification", VString (stop_as_str c))])
  end.

Definition stop_audit_record (c : StopClassification) (detail : Value) (now : Z) : Value :=
  VObject [("classification", VString (stop_as_str c)); ("detail", detail);
           ("ts", A2AProtocol.int_to_value now)].

Definition stop_key (ticket : string) : string := "ticket:" +:+ ticket +:+ ":hooks:stop".

(** ** Wake-ups *)

Definition MUTATING_HINTS : list (string * string) :=
  [("status set", "phase_changed"); ("review submit", "verdict_written");
   ("gate decide", "gate_decided"); ("gate approve", "gate_approved");
   ("pr opened", "pr_submitted"); ("handoff write", "handoff_written");
   ("plan write", "plan_written"); ("merge done", "merged")].

Definition mutating_hint (command : string) : option string :=
  snd <$> List.find (λ '(key, _), contains key (to_lowercase command)) MUTATING_HINTS.

Definition json_extract_stdout (d : Value) : Value :=
  from_option id VNull (Json.get "tool_response" d ≫= Json.get "stdout").

Definition maybe_publish_kick (chat dispatch : string) (e : HookEvent) (d : Value) (w : World) : World :=
  let tool_name := to_lowercase (str_field "tool_name" d) in
  if negb (contains "harness" tool_name || bool_decide (tool_name ∈ ["bash"; "sh"; "shell"; "exec"]))
  then w
  else
    let command := from_option id "" ((Json.get "tool_input" d ≫= Json.get "command") ≫= as_str) in
    match mutating_hint command with
    | None => w
    | Some hint =>
        let hc := resolve_chat (w_store w) chat in
        perform w (Publish (mkKick chat dispatch (event_name e) (from_option id "" (c_role hc))
          (from_option id "" (c_ticket_id hc)) hint (json_extract_stdout d)))
    end.

(** ** Bootstrap *)

Definition MODEL_CONTEXT_BYTE_LIMIT : nat := 16384.
Definition CONTENT_BYTE_BUDGET : nat := 1024.

(** A byte that continues a UTF-8 sequence. *)
Definition is_continuation (c : ascii) : bool :=
  (128 <=? nat_of_ascii c) && (nat_of_ascii c <? 192).

Definition is_char_boundary (s : string) (i : nat) : bool :=
  bool_decide (i = 0) || bool_decide (i = String.length s)
  || is_some_and (λ c, negb (is_continuation c)) (String.get i s).

(** The loop of [truncate_utf8]: back to the last boundary. *)
Fixpoint back_off (s : string) (n : nat) : nat :=
  match n with
  | O => O
  | S m => if is_char_boundary s n then n else back_off s m
  end.

Definition truncate_utf8 (s : string) (byte_limit : nat) : string :=
  if String.length s <=? byte_limit then s
  else String.substring 0 (back_off s byte_limit) s.

Definition TRIM_MARKER : string := "...[trimmed to model_context limit]".

Definition trim_to_limit (s : string) : string :=
  if String.length s <=? MODEL_CONTEXT_BYTE_LIMIT then s
  else truncate_utf8 s (MODEL_CONTEXT_BYTE_LIMIT - String.length TRIM_MARKER) +:+ TRIM_MARKER.

Record HookBootstrapContext : Type := mkBootstrap {
  persona_by_role : gmap string string;
  skills_dir : option string;
  skills_by_role : gmap string (list string);
  commands_dir : option string;
}.

Record AgentDoc : Type := mkDoc { doc_name : string; doc_path : string; doc_content : string }.

(** [Path::join]. *)
Definition path_join (a b : string) : string :=
  if starts_with "/" b || is_empty a then b
  else if ends_with "/" a then a +:+ b else a +:+ "/" +:+ b.

Section bootstrap.
(** The file system: the text of a file, and the names in a directory. *)
Variable read_to_string : string → option string.
Variable read_dir : string → option (list string).

Definition read_trimmed (path : string) (limit : nat) : option string :=
  (λ s, let s := trim s in
        if String.length s <=? limit then s else truncate_utf8 s limit +:+ "…[trimmed]")
  <$> read_to_string path.

Definition role_skills (ctx : HookBootstrapContext) (role : string) : list AgentDoc :=
  match skills_dir ctx with
  | None => []
  | Some dir =>
      omap (λ name,
        let path := path_join (path_join dir name) "SKILL.md" in
        mkDoc name path <$> read_trimmed path CONTENT_BYTE_BUDGET)
        (from_option id [] (skills_by_role ctx !! role))
  end.

Definition all_commands (ctx : HookBootstrapContext) : list AgentDoc :=
  match commands_dir ctx with
  | None => []
  | Some dir =>
      omap (λ name,
        let path := path_join dir name in
        mkDoc (trim_end_pat ".md" name) path <$> read_trimmed path CONTENT_BYTE_BUDGET)
        (List.filter (ends_with ".md") (from_option id [] (read_dir dir)))
  end.

Definition read_persona_trim (ctx : HookBootstrapContext) (role : string) : string :=
  match persona_by_role ctx !! role with
  | None => ""
  | Some path => from_option id "" (read_trimmed path 3000)
  end.

Definition nl : string := String newline EmptyString.

(** The first part: what is assigned, where it stands and what to do next. *)
Definition assignment (chat role ticket : string) (st : TicketState) (dispatch : Value) : string :=
  let phase := from_option id "unset" (ts_phase st) in
  "# Assignment" +:+ nl +:+ "Ticket: " +:+ ticket +:+ nl +:+ "Current phase: " +:+ phase +:+ nl +:+
  from_option (λ t, "Title: " +:+ t +:+ nl) "" (Json.get "title" dispatch ≫= as_str) +:+
  (if ts_plan_exists st then "Plan: present (already uploaded)" +:+ nl else "") +:+
  (if ts_gate_approved st then "Planning gate: approved" +:+ nl else "") +:+
  (if ts_pr_recorded st then "PR: recorded" +:+ nl else "") +:+
  (if ts_handoff_exists st then "Handoff: present" +:+ nl else "") +:+
  (if bool_decide (role = "forge") then
     "Your next action follows the current phase, not a fresh assignment. " +:+
     phase_guidance phase (ts_plan_exists st) role +:+ nl
   else if bool_decide (role = "sentinel") then
     "Your first action: review what FORGE has submitted — read the plan/PR and record your verdict with `openflows-harness review submit` or the planning/testing gates with `gate decide --revision <N> --round <R> --report review.md` (see the /review and /plan commands)." +:+ nl
   else "") +:+
  "You are working this ticket. Re-check `openflows-harness status get` and `openflows-harness dispatch read`." +:+ nl +:+
  (if bool_decide (role = "forge") then
     "Current chat plan path: `" +:+ chat_plan_path chat +:+ "`. During planning write the plan here, then run `openflows-harness plan write --file " +:+ chat_plan_path chat +:+ "`. Do not write `/home/coder/PLAN.md` or guess a different chat ID." +:+ nl
   else "").

Definition instructions (ctx : HookBootstrapContext) (role : string) : string :=
  "# Required instructions" +:+ nl +:+ "Read `/home/coder/workspace/AGENTS.md` and `/home/coder/workspace/" +:+ role +:+ ".agent.md`. File tools require absolute paths; resolve repository-relative paths against `/home/coder/workspace`. Startup excerpts are incomplete; read the full relevant files before acting." +:+ nl +:+
  String.concat "" (map (λ name, "Skill: `/home/coder/workspace/.agents/skills/" +:+ name +:+ "/SKILL.md`" +:+ nl)
    (from_option id [] (skills_by_role ctx !! role))) +:+
  "Full workflow commands: `/home/coder/workspace/.agents/commands/<name>.md`. These documents describe shell commands; execute the documented `openflows-harness` commands." +:+ nl.

Definition doc_block (title slash : string) (docs : list AgentDoc) : list string :=
  if bool_decide (length docs = 0) then []
  else [title +:+ nl +:+ String.concat ""
          (map (λ d, nl +:+ "## " +:+ slash +:+ doc_name d +:+ nl +:+ doc_content d +:+ nl) docs)].

Definition build_bootstrap_context (s : SharedStore) (chat : string) (dispatch : Value)
  (ctx : HookBootstrapContext) : option string :=
  let hc := resolve_chat s chat in
  role ← c_role hc;
  ticket ← c_ticket_id hc;
  let st := read_ticket_state s ticket in
  let persona := read_persona_trim ctx role in
  let parts :=
    [assignment chat role ticket st dispatch; instructions ctx role]
    ++ (if is_empty persona then [] else ["# Persona (" +:+ role +:+ ")" +:+ nl +:+ persona])
    ++ doc_block "# Harness commands (use these as-is)" "/" (all_commands ctx)
    ++ doc_block "# Skills" "" (role_skills ctx role) in
  Some (trim_to_limit (join (nl +:+ nl +:+ "---" +:+ nl +:+ nl) parts)).
End bootstrap.
