(* ===== verification/HookServer.v ===== *)
(** * The lifecycle hook consumer

    Models the request path of [src/crates/agent-nexus/src/hooks/server.rs] with
    the token checks of [jwt.rs] and the configuration of
    [src/crates/config/src/env.rs]: a request is authenticated, routed to the
    slice for its event, bounded by a deadline, and answered in Coder's response
    schema.  Not under [src/] and hence parameters: JSON parsing, the JWT
    library's [decode], SHA-256 and the file system. *)
From S2P Require Import Prelude Text Json Lifecycle LifecycleCodec Store A2AProtocol Guard Sentinel HookPolicy Hooks.

(** ** Configuration *)

Record CoderHooksConfig : Type := mkHooksConfig {
  chat_hook_secret : option string;
  chat_hook_timeout_ms : u64;
  chat_hook_enabled : bool;
  chat_hook_allow_insecure : bool;
  hook_addr : string;
  hook_host : string;
  chat_hook_url : option string;
  hook_url : option string;
  hook_logs : bool;
}.

Definition enabled (self : CoderHooksConfig) : bool :=
  chat_hook_enabled self && is_some_and (λ s, negb (is_empty (trim s))) (chat_hook_secret self).

Definition port (self : CoderHooksConfig) : option string :=
  Some (rsplit_next (char_eqb ":") (hook_addr self)).

Definition pick_url (u : option string) : option string :=
  s ← u; let s := trim s in if is_empty s then None else Some s.

Definition chat_hook_url_effective (self : CoderHooksConfig) : option string :=
  match pick_url (chat_hook_url self) with
  | Some u => Some u
  | None => pick_url (hook_url self)
  end.

Definition hook_public_url (self : CoderHooksConfig) : option string :=
  match chat_hook_url_effective self with
  | Some url => Some url
  | None =>
      port ← port self;
      Some ("http://" +:+ hook_host self +:+ ":" +:+ port +:+ "/experimental/hooks/chat")
  end.

(** What [start_lifecycle_hook_server] decides before it binds the listener:
    [Ok false] is [Ok(None)]. *)
Definition start_lifecycle_hook_server (config : CoderHooksConfig) : result bool :=
  if negb (enabled config) then Ok false
  else if from_option String.length 0 (chat_hook_secret config) <? 32 then
    Err "CODER_CHAT_HOOK_SECRET must be at least 32 bytes to verify HS256 hook JWTs"
  else Ok true.

(** ** Responses *)

Definition decision_to_response (d : HookDecision) : Value :=
  VObject
    (match model_context d with
     | Some context => [("model_context", VString context)]
     | None => []
     end ++
     (if deny d then
        [("permission", VObject (("decision", VString "deny") ::
            match reason d with Some why => [("reason", VString why)] | None => [] end))]
      else
        match rewrite d with
        | Some r => [("permission", VObject [("decision", VString "allow"); ("input_override", r)])]
        | None => []
        end)).

(** What Coder reads from a response: whether the action is refused. *)
Definition refuses (response : Value) : bool :=
  bool_decide (((Json.get "permission" response ≫= Json.get "decision") ≫= as_str) = Some "deny").

(** ** Feedback after a tool call *)

Definition review_report_path (input : Value) : option string :=
  (match Json.get "path" input with
   | Some v => Some v
   | None => Json.get "file_path" input
   end) ≫= as_str.

Definition is_write_like_tool (name : string) : bool :=
  bool_decide (to_lowercase name ∈ ["write"; "edit"; "create"; "patch"]).

Definition is_eval_report_path (path : string) : bool :=
  let file := file_name (to_lowercase path) in
  ends_with "-eval.md" file
  || bool_decide (file ∈ ["eval.md"; "final-review.md"; "review.md"; "review-report.md"]).

Definition as_bool (v : Value) : option bool := match v with VBool b => Some b | _ => None end.

(** [as_i64]: [None] for numbers beyond the range. *)
Definition as_i64 (v : Value) : option Z :=
  z ← int_of_value v;
  if bool_decide (-9223372036854775808 ≤ z < 9223372036854775808)%Z then Some z else None.

Definition tool_succeeded (d : Value) : bool :=
  match (match Json.get "tool_response" d with
         | Some r => Some r
         | None => match Json.get "tool_result" d with Some r => Some r | None => Json.get "result" d end
         end) with
  | None => false
  | Some response =>
      bool_decide ((Json.get "success" response ≫= as_bool) = Some true)
      || bool_decide ((Json.get "exit_code" response ≫= as_i64) = Some 0%Z)
      || bool_decide ((Json.get "status" response ≫= as_str) = Some "success")
  end.

(** Whether a finished tool call wrote the reviewer's report. *)
Definition wrote_report (hc : HookContext) (d : Value) : bool :=
  is_some_and (λ r, eq_ignore_case r "sentinel") (c_role hc)
  && (tool_succeeded d && is_write_like_tool (str_field "tool_name" d)
      && is_eval_report_path (from_option id "" (Json.get "tool_input" d ≫= review_report_path))).

Definition guidance_reason (g : Value) : option string :=
  match Json.get "reason" g ≫= as_str with
  | Some r => Some r
  | None => Json.get "model_context" g ≫= as_str
  end.

Definition post_tool_use_feedback (chat : string) (d : Value) (w : World) : HookDecision * World :=
  let hc := resolve_chat (w_store w) chat in
  match c_ticket_id hc with
  | None => (observe, w)
  | Some ticket =>
      let w := if wrote_report hc d
               then perform w (Set_ (report_marker_key ticket) (VBool true)) else w in
      let '(pending, w) := drain_guidance ticket w in
      let reasons := omap guidance_reason pending in
      if bool_decide (length reasons = 0) then (observe, w)
      else (observe ▷ with_model_context ("[openflows hook policy]" +:+ nl +:+ join nl reasons), w)
  end.

Definition prompt_submit_context (s : SharedStore) (chat : string) (base : HookDecision) : HookDecision :=
  let hc := resolve_chat s chat in
  match c_ticket_id hc with
  | None => base
  | Some ticket =>
      let st := read_ticket_state s ticket in
      let role := from_option id "" (c_role hc) in
      let phase := from_option id "unset" (ts_phase st) in
      base ▷ with_model_context
        ("Current ticket phase: " +:+ phase +:+ nl +:+ "Plan present: " +:+
         (if ts_plan_exists st then "true" else "false") +:+
         (if ts_gate_approved st then nl +:+ "Planning gate: approved" else "") +:+
         (if ts_pr_recorded st then nl +:+ "PR: recorded" else "") +:+
         (if ts_handoff_exists st then nl +:+ "Handoff: present" else "") +:+
         (if eq_ignore_case role "forge" && bool_decide (phase = "planning") && negb (ts_plan_exists st)
          then nl +:+ "Reminder: read source files and inspect the repository before writing a grounded plan at `" +:+ chat_plan_path chat +:+ "`. Upload with `openflows-harness plan write --file " +:+ chat_plan_path chat +:+ "`. Read-only inspection is allowed; source modifications require SENTINEL approval."
          else ""))
  end.

(** ** Routing *)

(** The decision on a tool call: the generic policy, then the guard of the
    caller's role. *)
Definition pre_tool_decision (s : SharedStore) (payload : HookPayload) : HookDecision :=
  let base := apply_policy payload in
  let chat := chat_id (meta payload) in
  let hc := resolve_chat s chat in
  let role := from_option id "" (c_role hc) in
  let tool_name := str_field "tool_name" (data payload) in
  let input := tool_input (data payload) in
  if eq_ignore_case role "sentinel" then
    match c_ticket_id hc with
    | Some ticket => sentinel_phase_guard s ticket (read_ticket_state s ticket) tool_name input base
    | None => base
    end
  else phase_guard s chat role tool_name input base.

Definition guidance_record (d : HookDecision) (tool_name : string) (now : Z) : Value :=
  VObject [("deny", VBool (deny d)); ("reason", to_value (reason d));
           ("model_context", to_value (model_context d));
           ("tool_name", VString tool_name); ("ts", int_to_value now)].

Section server.
Variable read_to_string : string → option string.
Variable read_dir : string → option (list string).

(** Whether kicks are published, and the bootstrap paths, as the server was
    started with. *)
Variable publisher : bool.
Variable bootstrap : option HookBootstrapContext.

Definition route_event (payload : HookPayload) (now : Z) (w : World) : Value * World :=
  let chat := chat_id (meta payload) in
  let dispatch := dispatch_id (meta payload) in
  match event payload with
  | SessionStart =>
      match (ctx ← bootstrap;
             build_bootstrap_context read_to_string read_dir (w_store w) chat (data payload) ctx) with
      | Some context => (VObject [("model_context", VString context)], w)
      | None => (decision_to_response observe, w)
      end
  | PostToolUse =>
      let w := if publisher then maybe_publish_kick chat dispatch PostToolUse (data payload) w else w in
      let '(decision, w) := post_tool_use_feedback chat (data payload) w in
      (decision_to_response decision, w)
  | Stop =>
      let '(classification, detail) := classify_stop (w_store w) chat in
      let w :=
        match Json.get "ticket_id" detail ≫= as_str with
        | Some ticket =>
            if publisher then
              let w := perform w (Set_ (stop_key ticket) (stop_audit_record classification detail now)) in
              if bool_decide (classification = PlannedHandoff) then
                perform w (Publish (mkKick chat dispatch "stop" (str_field "role" detail) ticket
                                      "stop_planned_handoff" detail))
              else w
            else w
        | None => w
        end in
      (decision_to_response observe, w)
  | PreToolUse =>
      let decision := pre_tool_decision (w_store w) payload in
      let w :=
        match c_ticket_id (resolve_chat (w_store w) chat) with
        | Some ticket =>
            record_guidance ticket
              (guidance_record decision (str_field "tool_name" (data payload)) now) w
        | None => w
        end in
      (decision_to_response decision, w)
  | UserPromptSubmit =>
      (decision_to_response (prompt_submit_context (w_store w) chat (apply_policy payload)), w)
  | PreCompact | PostCompact => (decision_to_response (apply_policy payload), w)
  end.

(** [bounded_hook_decision]: [late] is how many writes the routing had made when
    the deadline passed, [None] when it finished in time. *)
Definition bounded_hook_decision (payload : HookPayload) (late : option nat) (now : Z) (w : World)
  : Value * World :=
  let '(body, w') := route_event payload now w in
  match late with
  | None => (body, w')
  | Some n =>
      (decision_to_response
         (if is_mutable (event payload) then
            deny_with "Lifecycle policy check timed out. The action was not authorized. Retry after checking current harness status; preserve the existing workspace and work."
          else observe),
       cut n w w')
  end.

(** ** Tokens *)

Record HookClaims : Type := mkClaims {
  iss : string;
  aud : string;
  exp : u64;
  jti : string;
  typ : option string;
  sub : option string;
  body_sha256 : option string;
}.

Variable decode_jwt : string → string → string → result HookClaims.
Variable sha256_hex : string → string.
Variable parse : string → result Value.

Definition verify_hook_jwt (auth_header : option string)
  (secret expected_aud dispatch chat event_type body : string) : result HookClaims :=
  match auth_header ≫= strip_prefix "Bearer " with
  | None => Err "missing Authorization: Bearer header"
  | Some header =>
      match decode_jwt header secret expected_aud with
      | Err e => Err ("hook JWT verification failed: " +:+ e)
      | Panic => Panic
      | Ok claims =>
          ensure! negb (is_empty (trim (iss claims))) or "hook JWT has an empty `iss` claim" ;;
          ensure! is_empty (jti claims) || bool_decide (jti claims = dispatch)
            or ("hook JWT jti `" +:+ jti claims +:+ "` does not match payload dispatch_id `"
                +:+ dispatch +:+ "`") ;;
          ensure! negb (is_some_and (λ t, negb (bool_decide (t = event_type))) (typ claims))
            or ("hook JWT type `" +:+ from_option id "" (typ claims) +:+
                "` does not match payload type `" +:+ event_type +:+ "`") ;;
          ensure! negb (is_some_and (λ s, negb (bool_decide (s = "coder:chat:" +:+ chat))) (sub claims))
            or ("hook JWT sub `" +:+ from_option id "" (sub claims) +:+
                "` does not match payload chat_id `" +:+ chat +:+ "`") ;;
          ensure! negb (is_some_and (λ c, negb (eq_ignore_case (sha256_hex body) c)) (body_sha256 claims))
            or ("hook JWT body_sha256 mismatch (got `" +:+ sha256_hex body +:+ "`, expected `"
                +:+ from_option id "" (body_sha256 claims) +:+ "`)") ;;
          Ok claims
      end
  end.

(** ** Requests *)

(** The HTTP answer, and the payload handed to the audit task that the handler
    spawns. *)
Record Answer : Type := mkAnswer {
  status : N;
  content : string + Value;
  audit : option HookPayload;
}.

Definition refuse_with (code : N) (why : string) : Answer := mkAnswer code (inl why) None.

Definition handle_hook (config : CoderHooksConfig) (auth : option string) (body : string)
  (late : option nat) (now : Z) (w : World) : Answer * World :=
  match hook_public_url config with
  | None => (refuse_with 503 "hook consumer not enabled (bind address has no usable port)", w)
  | Some url =>
  match chat_hook_secret config with
  | None => (refuse_with 503 "hook consumer misconfigured (CODER_CHAT_HOOK_SECRET unset)", w)
  | Some secret =>
  match (v ← parse body; payload_from_value v) with
  | Ok payload =>
      match verify_hook_jwt auth secret url (dispatch_id (meta payload)) (chat_id (meta payload))
              (event_name (event payload)) body with
      | Ok _ =>
          let '(response, w') := bounded_hook_decision payload late now w in
          (mkAnswer 200 (inr response) (Some payload), w')
      | Err e => (refuse_with 401 e, w)
      | Panic => (refuse_with 500 "", w)
      end
  | _ => (refuse_with 400 "invalid JSON body", w)
  end end end.

(** ** The audit tail *)

Definition AUDIT_KEY : string := "_hook_events_tail".

Definition audit_tail (s : SharedStore) : list Value := from_option id [] (get_typed s AUDIT_KEY).

Definition audit_record (p : HookPayload) (now : Z) : Value :=
  VObject [("dispatch_id", VString (dispatch_id (meta p))); ("event", to_value (event p));
           ("chat_id", VString (chat_id (meta p))); ("owner_id", VString (owner_id (meta p)));
           ("workspace_id", to_value (workspace_id (meta p))); ("client", to_value (client (meta p)));
           ("data", data p); ("ts", int_to_value now)].

Definition persist_audit (p : HookPayload) (now : Z) (s : SharedStore) : SharedStore :=
  let events := audit_tail s ++ [audit_record p now] in
  let events := if 500 <? length events then drop (length events - 500) events else events in
  set s AUDIT_KEY (to_value events).
End server.
