(* ===== verification/HookProps.v ===== *)
(** * What the hook consumer guarantees

    Authentication, the deadline, the rule for FORGE's writes as Coder sees it,
    the order of review and verdict, the feedback loop and the size of the
    bootstrap context, for [src/crates/agent-nexus/src/hooks]. *)
From S2P Require Import Prelude Text Json Lifecycle LifecycleCodec Store A2AProtocol Guard GuardProps Sentinel HookPolicy Hooks HookServer.

(** ** Responses *)

Lemma refuses_response d : refuses (decision_to_response d) = deny d.
Proof.
  destruct d as [dn r rw [ctx|]]; unfold refuses, decision_to_response; cbn [deny reason rewrite model_context];
    destruct dn; [destruct r| destruct rw|destruct r|destruct rw]; reflexivity.
Qed.

Section hooks.
Variable read_to_string : string → option string.
Variable read_dir : string → option (list string).
Variable publisher : bool.
Variable bootstrap : option HookBootstrapContext.
Variable decode_jwt : string → string → string → result HookClaims.
Variable sha256_hex : string → string.
Variable parse : string → result Value.

Notation route := (route_event read_to_string read_dir publisher bootstrap).
Notation bounded := (bounded_hook_decision read_to_string read_dir publisher bootstrap).
Notation verify := (verify_hook_jwt decode_jwt sha256_hex).
Notation handle := (handle_hook read_to_string read_dir publisher bootstrap decode_jwt sha256_hex parse).

(** ** Authentication *)

(** The token binds the request: what it claims of dispatch, event, chat and body
    is what the payload says. *)
Definition binds (c : HookClaims) (p : HookPayload) (body : string) : Prop :=
  is_empty (trim (iss c)) = false ∧
  (jti c = "" ∨ jti c = dispatch_id (meta p)) ∧
  (∀ t, typ c = Some t → t = event_name (event p)) ∧
  (∀ s, sub c = Some s → s = "coder:chat:" +:+ chat_id (meta p)) ∧
  (∀ h, body_sha256 c = Some h → eq_ignore_case (sha256_hex body) h = true).

Lemma check_claim {A} (f : A → bool) o :
  negb (is_some_and (λ a, negb (f a)) o) = true → ∀ a, o = Some a → f a = true.
Proof. intros H a ->. cbn in H. by destruct (f a). Qed.

Lemma verify_Ok auth secret aud p body c :
  verify auth secret aud (dispatch_id (meta p)) (chat_id (meta p)) (event_name (event p)) body = Ok c →
  ∃ token, auth = Some ("Bearer " +:+ token) ∧ decode_jwt token secret aud = Ok c ∧ binds c p body.
Proof.
  unfold verify_hook_jwt. destruct auth as [auth|]; [|done]. cbn [mbind option_bind].
  destruct (strip_prefix "Bearer " auth) as [token|] eqn:Et; [|done].
  destruct (decode_jwt token secret aud) as [claims| |] eqn:Ed; [|done..]. intros H.
  apply ensure_Ok in H as [H1 H]. apply ensure_Ok in H as [H2 H]. apply ensure_Ok in H as [H3 H].
  apply ensure_Ok in H as [H4 H]. apply ensure_Ok in H as [H5 [= <-]].
  exists token. apply strip_prefix_Some in Et as ->. split_and!; [done..|].
  split_and!.
  - by apply negb_true_iff.
  - apply orb_true_iff in H2 as [H2|H2]; [left; by destruct (jti claims)|right].
    by apply bool_decide_eq_true in H2.
  - intros t Ht. exact (proj1 (bool_decide_eq_true _) (check_claim _ _ H3 t Ht)).
  - intros t Ht. exact (proj1 (bool_decide_eq_true _) (check_claim _ _ H4 t Ht)).
  - intros t Ht. exact (check_claim _ _ H5 t Ht).
Qed.

(** C36. Only authenticated requests act: a request is either answered with 200,
    and then its body is a payload, the consumer has a secret, the bearer token
    decodes under that secret for the configured audience, and the token binds
    dispatch, event, chat and body wherever it claims them; or it is answered
    with an error, and then nothing was written, nothing published and no audit
    record spawned. *)
Theorem only_authenticated_requests_act config auth body late now w a w' :
  handle config auth body late now w = (a, w') →
  (status a = 200%N ∧ ∃ v p secret url token c,
     parse body = Ok v ∧ payload_from_value v = Ok p ∧
     chat_hook_secret config = Some secret ∧ hook_public_url config = Some url ∧
     auth = Some ("Bearer " +:+ token) ∧ decode_jwt token secret url = Ok c ∧ binds c p body ∧
     audit a = Some p ∧ (∃ r, content a = inr r ∧ bounded p late now w = (r, w'))) ∨
  (status a ∈ [400; 401; 500; 503]%N ∧ audit a = None ∧ w' = w ∧ ∃ why, content a = inl why).
Proof.
  unfold handle_hook. set (err := _ ∨ _).
  assert (∀ code why, code ∈ [400; 401; 500; 503]%N → (refuse_with code why, w) = (a, w') → err) as Herr.
  { intros code why Hc [= <- <-]. right. cbn. eauto. }
  destruct (hook_public_url config) as [url|] eqn:Eu; [|apply Herr; set_solver].
  destruct (chat_hook_secret config) as [secret|] eqn:Es; [|apply Herr; set_solver].
  destruct (v ← parse body; payload_from_value v) as [p| |] eqn:Ep;
    [|apply Herr; set_solver..].
  destruct (verify auth secret url _ _ _ body) as [c| |] eqn:Ev; [|apply Herr; set_solver..].
  destruct (bounded p late now w) as [r w1] eqn:Eb. intros [= <- <-]. left.
  apply result_bind_Ok in Ep as (v & Hv & Hp).
  apply verify_Ok in Ev as (token & Ha & Hd & Hb). split; [done|].
  exists v, p, secret, url, token, c. split_and!; eauto.
Qed.

(** ** The deadline *)

Lemma perform_trace w e : w_trace (perform w e) = w_trace w ++ [e].
Proof. by destruct e. Qed.

(** The writes of a run, made again from its start, give its end. *)
Definition replays (w w' : World) : Prop :=
  ∃ es, w_trace w' = w_trace w ++ es ∧ w' = fold_left perform es w.

Lemma replays_refl w : replays w w.
Proof. exists []. by rewrite app_nil_r. Qed.

Lemma replays_perform w w' e : replays w w' → replays w (perform w' e).
Proof.
  intros (es & Ht & ->). exists (es ++ [e]). rewrite perform_trace, Ht, fold_left_app.
  by rewrite app_assoc.
Qed.

Ltac replays_tac :=
  repeat match goal with
  | |- replays ?w ?w => apply replays_refl
  | |- replays _ (perform _ _) => apply replays_perform
  | |- replays _ (if ?b then _ else _) => destruct b
  | H : replays ?w ?w' |- replays ?w ?w' => exact H
  end.

Lemma kick_replays w0 chat dispatch e d w :
  replays w0 w → replays w0 (maybe_publish_kick chat dispatch e d w).
Proof.
  intros H. unfold maybe_publish_kick. destruct (negb _); [done|].
  destruct (mutating_hint _); replays_tac.
Qed.

Lemma feedback_replays w0 chat d w :
  replays w0 w → replays w0 (snd (post_tool_use_feedback chat d w)).
Proof.
  intros H. unfold post_tool_use_feedback. destruct (c_ticket_id _) as [t|]; [|done].
  unfold drain_guidance. destruct (bool_decide (length (omap _ _) = 0)); cbn [snd]; replays_tac.
Qed.

Lemma route_replays p now w : replays w (snd (route p now w)).
Proof.
  unfold route_event. destruct (event p).
  - destruct (bootstrap ≫= _); apply replays_refl.
  - apply replays_refl.
  - destruct (c_ticket_id _); [|apply replays_refl]. cbn [snd]. unfold record_guidance. replays_tac.
  - assert (replays w (if publisher then maybe_publish_kick (chat_id (meta p)) (dispatch_id (meta p))
      PostToolUse (data p) w else w)) as H.
    { destruct publisher; [apply kick_replays|]; apply replays_refl. }
    apply (feedback_replays w (chat_id (meta p)) (data p)) in H.
    destruct (post_tool_use_feedback _ _ _); exact H.
  - apply replays_refl.
  - apply replays_refl.
  - destruct (classify_stop _ _) as [c detail]. cbn [snd].
    destruct (Json.get "ticket_id" detail ≫= as_str); replays_tac.
Qed.

Lemma cut_all n p now w :
  w_trace w = [] → length (w_trace (snd (route p now w))) ≤ n →
  cut n w (snd (route p now w)) = snd (route p now w).
Proof.
  intros Hw Hn. destruct (route_replays p now w) as (es & Ht & Hr). rewrite Hw in Ht.
  unfold cut. rewrite take_ge by done. by rewrite Ht, Hr at 1.
Qed.

Lemma feedback_allows chat d w : deny (fst (post_tool_use_feedback chat d w)) = false.
Proof.
  unfold post_tool_use_feedback. destruct (c_ticket_id _) as [t|]; [|done].
  unfold drain_guidance. by destruct (bool_decide _).
Qed.

Lemma observation_allows p now w :
  is_mutable (event p) = false → refuses (fst (route p now w)) = false.
Proof.
  intros Hm. unfold route_event, apply_policy. destruct (event p); try done.
  - by destruct (bootstrap ≫= _).
  - pose proof (feedback_allows (chat_id (meta p)) (data p)
      (if publisher then maybe_publish_kick (chat_id (meta p)) (dispatch_id (meta p))
        PostToolUse (data p) w else w)) as H.
    destruct (post_tool_use_feedback _ _ _) as [d w1]. cbn [fst] in *. by rewrite refuses_response.
  - by destruct (classify_stop _ _).
Qed.

(** The deadline fails closed: a hook whose routing misses its deadline
    refuses the action when the event is one Coder may refuse, whatever the
    policy would have said, and lets it pass otherwise; events that are only
    observed are never refused, late or not; and a cancelled hook has made the
    first writes of its routing, in order: with all of them made the world is
    the one the routing would have left. *)
Theorem deadline_fails_closed p now w :
  w_trace w = [] →
  (∀ n, refuses (fst (bounded p (Some n) now w)) = is_mutable (event p)) ∧
  (∀ late, is_mutable (event p) = false → refuses (fst (bounded p late now w)) = false) ∧
  bounded p None now w = route p now w ∧
  (∀ n, snd (bounded p (Some n) now w)
        = fold_left perform (take n (w_trace (snd (route p now w)))) w) ∧
  (∀ n, length (w_trace (snd (route p now w))) ≤ n →
     snd (bounded p (Some n) now w) = snd (route p now w)).
Proof.
  intros Hw. unfold bounded_hook_decision. destruct (route p now w) as [r w1] eqn:E.
  split_and!; [| |done|done|].
  - intros n. cbn [fst]. rewrite refuses_response. by destruct (is_mutable _).
  - intros [n|] Hm; cbn [fst].
    + rewrite refuses_response. by rewrite Hm.
    + pose proof (observation_allows p now w Hm) as H. by rewrite E in H.
  - intros n Hn. pose proof (cut_all n p now w Hw) as H. rewrite E in H. by apply H.
Qed.

(** ** Tool calls *)

Lemma bounded_pre_tool p late now w r w' :
  bounded p late now w = (r, w') → event p = PreToolUse → refuses r = false →
  late = None ∧ deny (pre_tool_decision (w_store w) p) = false.
Proof.
  intros H He Hr. unfold bounded_hook_decision in H. destruct (route p now w) as [r1 w1] eqn:E.
  destruct late as [n|]; injection H as <- <-.
  - rewrite refuses_response, He in Hr. done.
  - split; [done|]. unfold route_event in E. rewrite He in E. injection E as <- <-.
    by rewrite refuses_response in Hr.
Qed.

Lemma extract_command_text input : from_option id "" (extract_command input) = command_text input.
Proof.
  unfold extract_command, command_text. destruct (Json.get "command" input ≫= as_str); [done|].
  by destruct (Json.get "argv" input ≫= as_array).
Qed.

(** The policy rewrites nothing but pushes. *)
Lemma policy_rewrites_pushes p :
  starts_with "git push" (trim_start (command_text (tool_input (data p)))) = false →
  rewrite (apply_policy p) = None.
Proof.
  intros H. unfold apply_policy. destruct (event p); try done.
  - unfold decide_user_prompt. destruct (_ ≫= as_array); [|done]. by destruct (0 <? _).
  - unfold decide_pre_tool_use, classify_command. rewrite extract_command_text.
    cbv zeta. rewrite H.
    repeat match goal with |- rewrite (if ?b then _ else _) = None => destruct b end; done.
Qed.

(** C19. FORGE writes only in phase: when a tool call of FORGE that attempts a
    write, and is not a [git push] command (those bypass the guard), is not refused, then the hook answered
    before its deadline and the write is one the ticket's phase allows: with a
    plan in building, the chat's own plan file while planning, a verification
    request in testing, a blocker report, a return to planning or a command that
    writes no source while blocked.  While a plan or a pull request is under
    review and after completion every write is refused. *)
Theorem permitted_writes_follow_the_phase p late now w r w' role ticket :
  let tool := to_lowercase (str_field "tool_name" (data p)) in
  let input := tool_input (data p) in
  let st := read_ticket_state (w_store w) ticket in
  bounded p late now w = (r, w') → event p = PreToolUse →
  resolve_chat (w_store w) (chat_id (meta p)) = mkContext (Some role) (Some ticket) None →
  eq_ignore_case role "forge" = true →
  starts_with "git push" (trim_start (command_text input)) = false →
  is_write_attempt tool input = true → refuses r = false →
  late = None ∧ write_in_phase st (chat_id (meta p)) tool input ∧
  ts_phase st ∉ [Some "plan_ready"; Some "submit"; Some "done"].
Proof.
  intros tool input st Hb He Hc Hf Hp Hw Hr.
  destruct (bounded_pre_tool _ _ _ _ _ _ Hb He Hr) as [-> Hd].
  assert (write_in_phase st (chat_id (meta p)) tool input) as Hin.
  { unfold pre_tool_decision in Hd. rewrite Hc in Hd. cbn [c_role c_ticket_id from_option id] in Hd.
    assert (eq_ignore_case role "sentinel" = false) as Hs.
    { unfold eq_ignore_case in *. apply bool_decide_eq_true in Hf. by rewrite Hf. }
    rewrite Hs in Hd. apply phase_guard_writes with (ticket := ticket) in Hd; try done.
    - by rewrite Hc.
    - by apply policy_rewrites_pushes. }
  split_and!; [done..|]. unfold write_in_phase in Hin. intros Hbad.
  destruct Hin as [[E _]|[[E _]|[[E _]|[E _]]]]; rewrite ?E in Hbad; elem_cases Hbad; try done;
    rewrite Hbad in E; elem_cases E; done.
Qed.

(** What the reviewer's guard requires of a shell command it lets pass. *)
Lemma sentinel_shell s ticket st tool input base :
  to_lowercase tool ∈ ["bash"; "sh"; "shell"; "exec"] →
  deny (sentinel_phase_guard s ticket st tool input base) = false →
  let command := to_lowercase (str_field "command" input) in
  if is_verification_request (command_text input) then sentinel_job st = TestingReview
  else (∃ targets, Sentinel.shell_write_targets (command_text input) = Some targets ∧
                   Forall (λ t, is_review_artifact t = true) targets) ∧
       (contains "gate approve" command = true → sentinel_job st = PlanGateReview →
          ts_plan_exists st = true) ∧
       (contains "review submit" command = true → contains "gate approve" command = false →
          contains "gate status" command = false →
          sentinel_job st = PrReview ∧ review_report_exists s ticket = true).
Proof.
  intros Ht Hd command. unfold sentinel_phase_guard in Hd. cbv zeta in Hd.
  assert (bool_decide (to_lowercase tool ∈ ["write"; "edit"; "create"; "patch"]) = false) as E1.
  { apply bool_decide_eq_false. intros Hw. elem_cases Ht; rewrite Ht in Hw; elem_cases Hw; done. }
  assert (bool_decide (to_lowercase tool ∈ ["bash"; "sh"; "shell"; "exec"; "execute"]) = true) as E2.
  { apply bool_decide_eq_true. elem_cases Ht; rewrite Ht; repeat (first [by left | right]). }
  rewrite E1, E2, (bool_decide_eq_true_2 _ Ht) in Hd. cbn [andb negb] in Hd. rewrite andb_false_r in Hd.
  fold (str_field "command" input) command in Hd.
  destruct (is_verification_request _).
  { destruct (bool_decide (sentinel_job st ≠ TestingReview)) eqn:E; [done|].
    apply bool_decide_eq_false, dec_stable in E. done. }
  unfold Sentinel.shell_writes_source in Hd.
  destruct (Sentinel.shell_write_targets _) as [targets|]; [|done].
  destruct (existsb _ targets) eqn:Ex; [done|]. split_and!.
  - exists targets. split; [done|]. apply Forall_forall. intros t Hin.
    destruct (is_review_artifact t) eqn:Er; [done|]. exfalso.
    assert (existsb (λ t, negb (is_review_artifact t)) targets = true) as Hex; [|congruence].
    apply existsb_exists. exists t. rewrite Er. split; [by apply list_elem_of_In|done].
  - intros Hg Hj. rewrite Hg, Hj in Hd. cbn in Hd. by destruct (ts_plan_exists st).
  - intros Hv Hg Hgs. rewrite Hv, Hg, Hgs in Hd. cbn [andb orb negb] in Hd.
    destruct (decide (sentinel_job st = PrReview)) as [Hj|Hj].
    + rewrite (bool_decide_eq_true_2 _ Hj) in Hd. cbn [andb] in Hd. by destruct (review_report_exists _ _).
    + rewrite (bool_decide_eq_false_2 _ Hj), (bool_decide_eq_true_2 _ Hj) in Hd. done.
Qed.

(** SENTINEL writes only its reports: when a tool call of SENTINEL is not
    refused, a call of a file tool writes a review report, a shell command writes
    nothing but review reports (or is a verification request, and then a review
    of tested work is pending), approving the plan gate presupposes a plan, and a
    verdict presupposes a pull request to review and the report about it. *)
Theorem reviewer_is_confined p late now w r w' role ticket :
  let tool := to_lowercase (str_field "tool_name" (data p)) in
  let input := tool_input (data p) in
  let st := read_ticket_state (w_store w) ticket in
  let command := to_lowercase (str_field "command" input) in
  bounded p late now w = (r, w') → event p = PreToolUse →
  resolve_chat (w_store w) (chat_id (meta p)) = mkContext (Some role) (Some ticket) None →
  eq_ignore_case role "sentinel" = true → refuses r = false →
  (tool ∈ ["write"; "edit"; "create"; "patch"] → is_review_artifact (target_path input) = true) ∧
  (tool ∈ ["bash"; "sh"; "shell"; "exec"] →
     if is_verification_request (command_text input) then sentinel_job st = TestingReview
     else (∃ targets, Sentinel.shell_write_targets (command_text input) = Some targets ∧
                      Forall (λ t, is_review_artifact t = true) targets) ∧
          (contains "gate approve" command = true → sentinel_job st = PlanGateReview →
             ts_plan_exists st = true) ∧
          (contains "review submit" command = true → contains "gate approve" command = false →
             contains "gate status" command = false →
             sentinel_job st = PrReview ∧ review_report_exists (w_store w) ticket = true)).
Proof.
  intros tool input st command Hb He Hc Hs Hr.
  destruct (bounded_pre_tool _ _ _ _ _ _ Hb He Hr) as [-> Hd].
  unfold pre_tool_decision in Hd. rewrite Hc in Hd. cbn [c_role c_ticket_id from_option id] in Hd.
  rewrite Hs in Hd. unfold sentinel_phase_guard in Hd. fold tool input st in Hd. cbv zeta in Hd.
  split.
  - intros Ht. rewrite (bool_decide_eq_true_2 (tool ∈ ["write"; "edit"; "create"; "patch"])) in Hd by done.
    by destruct (is_review_artifact _).
  - intros Ht. apply sentinel_shell in Hd; [|done]. exact Hd.
Qed.
End hooks.
