(* ===== verification/HookHistory.v ===== *)
(** * Hooks over time

    Properties of sequences of hook dispatches, interleaved with the audit task
    and with other writers of the store: the reviewer's report precedes the
    verdict, denials reach the model once, and what a session starts with. *)
From S2P Require Import Prelude Text Json ValueCodec LifecycleFacts LifecycleProps Lifecycle LifecycleCodec Store A2AProtocol Guard GuardProps Sentinel HookPolicy Hooks HookServer HookProps.

(** ** Keys *)

Lemma guidance_marker_ne t t' : guidance_key t ≠ report_marker_key t'.
Proof.
  unfold guidance_key, report_marker_key. change ":hooks:guidance" with (":hooks:g" +:+ "uidance").
  change ":hooks:review_report" with (":hooks:review" +:+ "_report").
  rewrite <- !string_app_assoc. by apply app_suffix_ne.
Qed.

Lemma stop_marker_ne t t' : stop_key t ≠ report_marker_key t'.
Proof.
  unfold stop_key, report_marker_key. change ":hooks:review_report" with (":hooks:review_re" +:+ "port").
  change ":hooks:stop" with (":hooks:" +:+ "stop").
  rewrite <- !string_app_assoc. by apply app_suffix_ne.
Qed.

Lemma report_marker_key_inj t t' : report_marker_key t = report_marker_key t' → t = t'.
Proof.
  unfold report_marker_key. intros E. apply string_app_inv_l in E. by apply string_app_inv_r in E.
Qed.

Lemma audit_marker_ne t : AUDIT_KEY ≠ report_marker_key t.
Proof. done. Qed.

Section history.
Variable read_to_string : string → option string.
Variable read_dir : string → option (list string).
Variable publisher : bool.
Variable bootstrap : option HookBootstrapContext.

Notation route := (route_event read_to_string read_dir publisher bootstrap).
Notation bounded := (bounded_hook_decision read_to_string read_dir publisher bootstrap).

(** ** What happens to the store *)

Inductive happening : Type :=
  | Hook (p : HookPayload) (late : option nat) (now : Z)
  | Audit (p : HookPayload) (now : Z)
  | Write (key : string) (v : Value)
  | Erase (key : string).

Definition happen (s : SharedStore) (h : happening) : SharedStore :=
  match h with
  | Hook p late now => w_store (snd (bounded p late now (start s [])))
  | Audit p now => persist_audit p now s
  | Write key v => set s key v
  | Erase key => del s key
  end.

Definition history (s : SharedStore) (hs : list happening) : SharedStore := fold_left happen hs s.

(** A tool call by the ticket's SENTINEL that wrote its report and succeeded. *)
Definition reports (ticket : string) (s : SharedStore) (h : happening) : Prop :=
  match h with
  | Hook p _ _ =>
      let hc := resolve_chat s (chat_id (meta p)) in
      event p = PostToolUse ∧ c_ticket_id hc = Some ticket ∧ wrote_report hc (data p) = true
  | _ => False
  end.

(** ** Who sets the report marker *)

Lemma Set_key_inj k v k' v' : Set_ k v = Set_ k' v' → k = k'.
Proof. by intros [= -> _]. Qed.

Lemma perform_store_get w e k :
  is_Some (get (w_store (perform w e)) k) → is_Some (get (w_store w) k) ∨ ∃ v, e = Set_ k v.
Proof.
  destruct e as [k' v|k'|kick]; cbn [perform w_store].
  - destruct (decide (k' = k)) as [->|Hne]; [eauto|]. rewrite get_set_ne by done. eauto.
  - destruct (decide (k' = k)) as [->|Hne]; [by rewrite get_del_eq; intros []|].
    rewrite get_del_ne by done. eauto.
  - eauto.
Qed.

Lemma performs_store_get es w k :
  is_Some (get (w_store (fold_left perform es w)) k) →
  is_Some (get (w_store w) k) ∨ ∃ v, Set_ k v ∈ es.
Proof.
  revert w. induction es as [|e es IH]; intros w; cbn [fold_left]; [eauto|].
  intros H. destruct (IH _ H) as [H1|[v Hv]].
  - destruct (perform_store_get _ _ _ H1) as [?|[v ->]]; [by left|right]. exists v. by left.
  - right. exists v. by right.
Qed.

Lemma bounded_is_prefix p late now w :
  w_trace w = [] →
  ∃ n, snd (bounded p late now w) = fold_left perform (take n (w_trace (snd (route p now w)))) w.
Proof.
  intros Hw. destruct (route_replays read_to_string read_dir publisher bootstrap p now w)
    as (es & Ht & Hr). rewrite Hw in Ht. cbn in Ht.
  unfold bounded_hook_decision. destruct (route p now w) as [r w1]. cbn [snd] in *.
  destruct late as [n|]; [by exists n|]. exists (length es). cbn [snd]. by rewrite Ht, firstn_all.
Qed.

(** Every write of a hook to a report marker is a report. *)
Definition marks_reports (p : HookPayload) (s : SharedStore) (e : Effect) : Prop :=
  ∀ ticket v, e = Set_ (report_marker_key ticket) v →
    ∀ late now, reports ticket s (Hook p late now).

Lemma marks_perform p s w e :
  Forall (marks_reports p s) (w_trace w) → marks_reports p s e →
  Forall (marks_reports p s) (w_trace (perform w e)).
Proof. intros Hw He. rewrite perform_trace. apply Forall_app. by split; [|constructor]. Qed.

Lemma marks_other p s e :
  (∀ t v, e ≠ Set_ (report_marker_key t) v) → marks_reports p s e.
Proof. intros H t v E. by destruct (H t v). Qed.

Lemma kick_store chat dispatch e d w : w_store (maybe_publish_kick chat dispatch e d w) = w_store w.
Proof.
  unfold maybe_publish_kick. destruct (negb _); [done|]. by destruct (mutating_hint _).
Qed.

Lemma kick_marks p s chat dispatch e d w :
  Forall (marks_reports p s) (w_trace w) →
  Forall (marks_reports p s) (w_trace (maybe_publish_kick chat dispatch e d w)).
Proof.
  intros H. unfold maybe_publish_kick. destruct (negb _); [done|].
  destruct (mutating_hint _); [|done]. apply marks_perform; [done|]. by apply marks_other.
Qed.

Lemma feedback_marks p w :
  event p = PostToolUse → Forall (marks_reports p (w_store w)) (w_trace w) →
  Forall (marks_reports p (w_store w))
    (w_trace (snd (post_tool_use_feedback (chat_id (meta p)) (data p) w))).
Proof.
  intros He Hw. unfold post_tool_use_feedback.
  destruct (c_ticket_id _) as [t|] eqn:Et; [|done].
  assert (Forall (marks_reports p (w_store w))
    (w_trace (if wrote_report (resolve_chat (w_store w) (chat_id (meta p))) (data p)
              then perform w (Set_ (report_marker_key t) (VBool true)) else w))) as Hm.
  { destruct (wrote_report _ _) eqn:Er; [|done]. apply marks_perform; [done|].
    intros t' v E late now. apply Set_key_inj, report_marker_key_inj in E as <-. done. }
  unfold drain_guidance. destruct (bool_decide (length (omap _ _) = 0)); cbn [snd];
    (destruct (negb _); [|done]); (apply marks_perform; [done|by apply marks_other]).
Qed.

Lemma route_marks p now s :
  Forall (marks_reports p s) (w_trace (snd (route p now (start s [])))).
Proof.
  assert (Forall (marks_reports p s) (w_trace (start s []))) as H0 by constructor.
  unfold route_event. destruct (event p) eqn:He; cbn [snd]; try exact H0.
  - by destruct (bootstrap ≫= _).
  - destruct (c_ticket_id _); [|exact H0]. apply marks_perform; [done|].
    apply marks_other. intros t v E. by apply Set_key_inj, guidance_marker_ne in E.
  - pose proof (feedback_marks p (if publisher
      then maybe_publish_kick (chat_id (meta p)) (dispatch_id (meta p)) PostToolUse (data p) (start s [])
      else start s []) He) as H.
    assert (w_store (if publisher
      then maybe_publish_kick (chat_id (meta p)) (dispatch_id (meta p)) PostToolUse (data p) (start s [])
      else start s []) = s) as Hst by (destruct publisher; [by rewrite kick_store|done]).
    rewrite Hst in H. destruct (post_tool_use_feedback _ _ _). apply H.
    destruct publisher; [by apply kick_marks|done].
  - destruct (classify_stop _ _) as [c detail]. cbn [snd].
    destruct (Json.get "ticket_id" detail ≫= as_str) as [t|]; [|exact H0].
    destruct publisher; [|exact H0].
    assert (Forall (marks_reports p s) (w_trace
      (perform (start s []) (Set_ (stop_key t) (stop_audit_record c detail now))))) as H1.
    { apply marks_perform; [exact H0|]. apply marks_other. intros t' v E.
      by apply Set_key_inj, stop_marker_ne in E. }
    destruct (bool_decide _); [|exact H1]. apply marks_perform; [exact H1|by apply marks_other].
Qed.

Lemma happen_marks ticket s h :
  (∀ v, h ≠ Write (report_marker_key ticket) v) →
  review_report_exists (happen s h) ticket = true →
  review_report_exists s ticket = true ∨ reports ticket s h.
Proof.
  unfold review_report_exists. rewrite !is_some_true. intros Hne H.
  destruct h as [p late now|p now|k v|k]; cbn [happen] in H.
  - destruct (bounded_is_prefix p late now (start s []) eq_refl) as [n Hn]. rewrite Hn in H.
    destruct (performs_store_get _ _ _ H) as [?|[v Hv]]; [by left|right].
    pose proof (route_marks p now s) as Hm. rewrite Forall_forall in Hm.
    apply elem_of_take in Hv as (i & Hi & _). apply list_elem_of_lookup_2 in Hi.
    exact (Hm _ Hi _ _ eq_refl late now).
  - left. unfold persist_audit in H. by rewrite get_set_ne in H by apply audit_marker_ne.
  - left. rewrite get_set_ne in H; [done|]. intros ->. by destruct (Hne v).
  - left. destruct (decide (k = report_marker_key ticket)) as [->|Hk].
    + rewrite get_del_eq in H. by destruct H.
    + by rewrite get_del_ne in H.
Qed.

Lemma marker_from_report ticket hs : ∀ s,
  Forall (λ h, ∀ v, h ≠ Write (report_marker_key ticket) v) hs →
  review_report_exists s ticket = false → review_report_exists (history s hs) ticket = true →
  ∃ before h after, hs = before ++ h :: after ∧ reports ticket (history s before) h.
Proof.
  induction hs as [|h hs IH]; intros s Hf H0 H1; cbn in H1; [congruence|].
  apply Forall_cons in Hf as [Hh Hf].
  destruct (review_report_exists (happen s h) ticket) eqn:E.
  - exists [], h, hs. split; [done|]. destruct (happen_marks ticket s h Hh E); [congruence|done].
  - destruct (IH _ Hf E H1) as (b & h' & a & -> & Hr). exists (h :: b), h', a. done.
Qed.

(** The report precedes the verdict: over any sequence of hooks (late ones
    included), audit writes and writes of others, of which none writes the
    ticket's report marker itself, a [review submit] that SENTINEL runs in a
    shell is let through only when a pull request is under review and SENTINEL
    has, earlier in that sequence, successfully written a review report for this
    ticket. *)
Theorem verdict_follows_report s0 hs p late now r w' role ticket :
  let s := history s0 hs in
  let input := tool_input (data p) in
  let command := to_lowercase (str_field "command" input) in
  review_report_exists s0 ticket = false →
  Forall (λ h, ∀ v, h ≠ Write (report_marker_key ticket) v) hs →
  bounded p late now (start s []) = (r, w') → event p = PreToolUse →
  resolve_chat s (chat_id (meta p)) = mkContext (Some role) (Some ticket) None →
  eq_ignore_case role "sentinel" = true →
  to_lowercase (str_field "tool_name" (data p)) ∈ ["bash"; "sh"; "shell"; "exec"] →
  is_verification_request (command_text input) = false →
  contains "review submit" command = true →
  contains "gate approve" command = false → contains "gate status" command = false →
  refuses r = false →
  sentinel_job (read_ticket_state s ticket) = PrReview ∧
  ∃ before h after, hs = before ++ h :: after ∧ reports ticket (history s0 before) h.
Proof.
  intros s input command H0 Hf Hb He Hc Hs Ht Hv Hr1 Hg1 Hg2 Hr.
  destruct (bounded_pre_tool _ _ _ _ _ _ _ _ _ _ Hb He Hr) as [-> Hd].
  unfold pre_tool_decision in Hd. cbn [start w_store] in Hd. rewrite Hc in Hd.
  cbn [c_role c_ticket_id from_option id] in Hd. rewrite Hs in Hd.
  apply sentinel_shell in Hd; [|done]. fold input command in Hd. rewrite Hv in Hd.
  destruct Hd as (_ & _ & Hd). destruct (Hd Hr1 Hg1 Hg2) as [Hj Hm]. split; [done|].
  by apply marker_from_report.
Qed.

(** ** Feedback *)

Lemma guidance_tail_set s ticket l :
  guidance_tail (set s (guidance_key ticket) (to_value (A:=list Value) l)) ticket = l.
Proof.
  unfold guidance_tail, get_typed. rewrite get_set_eq. cbn [mbind option_bind].
  by rewrite from_to_value.
Qed.

Lemma recorded_tail ticket g w :
  ∃ before, guidance_tail (w_store (record_guidance ticket g w)) ticket = before ++ [g] ∧
            length (before ++ [g]) ≤ GUIDANCE_TAIL.
Proof.
  unfold record_guidance. cbn [perform w_store]. rewrite guidance_tail_set.
  set (old := guidance_tail (w_store w) ticket).
  destruct (GUIDANCE_TAIL <? length (old ++ [g])) eqn:E.
  - exists (drop (length (old ++ [g]) - GUIDANCE_TAIL) old). apply Nat.ltb_lt in E.
    rewrite length_app in *. cbn [length] in *. unfold GUIDANCE_TAIL in *.
    rewrite drop_app_le by lia. split; [done|]. rewrite length_app, length_drop. cbn. lia.
  - exists old. split; [done|]. by apply Nat.ltb_ge in E.
Qed.

Lemma contains_join sep l x : x ∈ l → contains x (join sep l) = true.
Proof.
  intros Hx. apply contains_spec. induction l as [|y l IH]; [by apply elem_of_nil in Hx|].
  apply elem_of_cons in Hx as [<-|Hx]; cbn [join].
  - destruct l; [exists "", ""; by rewrite string_app_nil_r|]. by exists "", (sep +:+ join sep (s :: l)).
  - destruct l as [|z l]; [by apply elem_of_nil in Hx|]. destruct (IH Hx) as (a & b & E).
    exists (y +:+ sep +:+ a), b. rewrite E. by rewrite !string_app_assoc.
Qed.

(** A denial reaches the model, once: the reason a tool call was denied for
    is part of the context that the next finished tool call on the same ticket
    returns to the model; that call leaves nothing pending; and however many
    calls are denied in a row at most eight records wait. *)
Theorem denials_are_fed_back p1 now1 w ticket why p2 now2 :
  let w1 := snd (route p1 now1 w) in
  event p1 = PreToolUse → c_ticket_id (resolve_chat (w_store w) (chat_id (meta p1))) = Some ticket →
  reason (pre_tool_decision (w_store w) p1) = Some why →
  event p2 = PostToolUse → c_ticket_id (resolve_chat (w_store w1) (chat_id (meta p2))) = Some ticket →
  length (guidance_tail (w_store w1) ticket) ≤ 8 ∧
  (∃ ctx, Json.get "model_context" (fst (route p2 now2 w1)) = Some (VString ctx) ∧
          contains why ctx = true) ∧
  guidance_tail (w_store (snd (route p2 now2 w1))) ticket = [].
Proof.
  intros w1 He1 Ht1 Hwhy He2 Ht2.
  assert (∃ before g, guidance_tail (w_store w1) ticket = before ++ [g] ∧
    length (before ++ [g]) ≤ GUIDANCE_TAIL ∧ guidance_reason g = Some why)
    as (before & g & Htail & Hlen & Hg).
  { unfold w1, route_event. rewrite He1, Ht1. cbn [snd].
    set (g := guidance_record _ _ _). destruct (recorded_tail ticket g w) as (b & Hb & Hl).
    exists b, g. split_and!; [done..|]. unfold g, guidance_record, guidance_reason.
    cbn. by rewrite Hwhy. }
  split; [by rewrite Htail|]. clearbody w1.
  unfold route_event. rewrite He2. set (w2 := if publisher then _ else _).
  assert (w_store w2 = w_store w1) as E2 by (unfold w2; destruct publisher; [by rewrite kick_store|done]).
  clearbody w2. unfold post_tool_use_feedback. rewrite E2, Ht2.
  set (w3 := if wrote_report _ _ then _ else _).
  assert (guidance_tail (w_store w3) ticket = before ++ [g]) as E3.
  { rewrite <- Htail. unfold w3, guidance_tail, get_typed. destruct (wrote_report _ _); [|by rewrite E2].
    cbn [perform w_store]. rewrite get_set_ne, E2; [done|]. intros E. by apply eq_sym, guidance_marker_ne in E. }
  clearbody w3. unfold drain_guidance. rewrite E3, omap_app. cbn [omap list_omap]. rewrite Hg.
  rewrite !bool_decide_eq_false_2 by (rewrite length_app; cbn; lia). cbn [negb fst snd]. split.
  - eexists. split; [reflexivity|]. apply contains_spec.
    destruct (proj1 (contains_spec why (join nl (omap guidance_reason before ++ [why])))) as (a & b & E).
    { apply contains_join. apply elem_of_app. right. by left. }
    exists ("[openflows hook policy]" +:+ nl +:+ a), b. rewrite E. by rewrite !string_app_assoc.
  - cbn [perform w_store]. unfold guidance_tail, get_typed. by rewrite get_del_eq.
Qed.

(** ** The bootstrap context *)

Lemma back_off_le s n : back_off s n ≤ n.
Proof. induction n as [|n IH]; cbn; [done|]. destruct (is_char_boundary _ _); lia. Qed.

Lemma back_off_boundary s n : is_char_boundary s (back_off s n) = true.
Proof.
  induction n as [|n IH]; [done|]. cbn [back_off].
  destruct (is_char_boundary s (S n)) eqn:E; done.
Qed.

Lemma back_off_max s n m : m ≤ n → is_char_boundary s m = true → m ≤ back_off s n.
Proof.
  induction n as [|n IH]; intros Hm Hb; cbn; [lia|].
  destruct (decide (m = S n)) as [->|]; [by rewrite Hb|].
  destruct (is_char_boundary s (S n)); [lia|]. apply IH; [lia|done].
Qed.

Lemma substring_split n : ∀ s, n ≤ String.length s →
  ∃ rest, s = String.substring 0 n s +:+ rest ∧ String.length (String.substring 0 n s) = n ∧
          String.get n s = String.get 0 rest.
Proof.
  induction n as [|n IH]; intros s Hn.
  - exists s. split_and!; destruct s; done.
  - destruct s as [|c s]; cbn [String.length] in Hn; [lia|].
    destruct (IH s) as (rest & E & Hl & Hg); [lia|]. exists rest.
    change (String.substring 0 (S n) (String c s)) with (String c (String.substring 0 n s)).
    rewrite string_app_cons. cbn [String.length String.get]. split_and!; [by rewrite <- E|by rewrite Hl|done].
Qed.

Lemma app_prefix_le a b c d :
  a +:+ b = c +:+ d → String.length a ≤ String.length c → ∃ e, c = a +:+ e.
Proof.
  revert c. induction a as [|x a IH]; intros c E Hl; [by exists c|].
  destruct c as [|y c]; cbn in *; [lia|]. injection E as -> E.
  destruct (IH c E) as [e ->]; [lia|]. by exists e.
Qed.

Lemma string_get_app a b : String.get (String.length a) (a +:+ b) = String.get 0 b.
Proof. induction a as [|x a IH]; [by destruct b|]. exact IH. Qed.

(** Cutting keeps the text up to a character boundary, and every shorter prefix
    that ends at a boundary. *)
Lemma trim_to_limit_spec s :
  String.length (trim_to_limit s) ≤ MODEL_CONTEXT_BYTE_LIMIT ∧
  (trim_to_limit s = s ∨
   ∃ kept lost, s = kept +:+ lost ∧ trim_to_limit s = kept +:+ TRIM_MARKER ∧
     is_char_boundary s (String.length kept) = true) ∧
  ∀ front rest, s = front +:+ rest →
    String.length front + String.length TRIM_MARKER ≤ MODEL_CONTEXT_BYTE_LIMIT →
    is_char_boundary s (String.length front) = true → starts_with front (trim_to_limit s) = true.
Proof.
  unfold trim_to_limit. destruct (String.length s <=? MODEL_CONTEXT_BYTE_LIMIT) eqn:E.
  - apply Nat.leb_le in E. split_and!; [done|by left|]. intros front rest -> _ _. apply starts_with_app.
  - apply Nat.leb_gt in E. set (lim := MODEL_CONTEXT_BYTE_LIMIT - String.length TRIM_MARKER).
    assert (lim + String.length TRIM_MARKER = MODEL_CONTEXT_BYTE_LIMIT) as Hlim by done.
    unfold truncate_utf8. replace (String.length s <=? lim) with false by (symmetry; apply Nat.leb_gt; lia).
    destruct (substring_split (back_off s lim) s) as (lost & Es & Hl & _).
    { pose proof (back_off_le s lim). lia. }
    set (kept := String.substring 0 (back_off s lim) s) in *.
    pose proof (back_off_le s lim) as Hle. split_and!.
    + rewrite string_length_app, Hl. lia.
    + right. exists kept, lost. split_and!; [done..|]. rewrite Hl. apply back_off_boundary.
    + intros front rest Ef Hf Hb.
      destruct (app_prefix_le front rest kept lost) as [e ->].
      * by rewrite <- Ef.
      * rewrite Hl. apply back_off_max; [lia|done].
      * rewrite string_app_assoc. apply starts_with_app.
Qed.

(** A session starts with its assignment within the limit: the context a
    session gets is at most 16 KiB; it is the assembled text, or a prefix of it
    that ends between two characters followed by the truncation marker; and the
    assignment (ticket, phase and next step) stands complete at its front
    whenever it fits below the limit with the marker, however long the persona,
    the commands and the skills are. *)
Theorem bootstrap_keeps_the_assignment s chat dispatch ctx c :
  build_bootstrap_context read_to_string read_dir s chat dispatch ctx = Some c →
  ∃ role ticket rest,
    c_role (resolve_chat s chat) = Some role ∧ c_ticket_id (resolve_chat s chat) = Some ticket ∧
    let front := assignment chat role ticket (read_ticket_state s ticket) dispatch in
    let text := front +:+ nl +:+ rest in
    String.length c ≤ 16384 ∧
    (c = text ∨ ∃ kept lost, text = kept +:+ lost ∧ c = kept +:+ TRIM_MARKER ∧
                             is_char_boundary text (String.length kept) = true) ∧
    (String.length front + String.length TRIM_MARKER ≤ 16384 → starts_with front c = true).
Proof.
  unfold build_bootstrap_context. intros H.
  destruct (c_role (resolve_chat s chat)) as [role|] eqn:Er; [|done].
  destruct (c_ticket_id (resolve_chat s chat)) as [ticket|] eqn:Et; [|done].
  cbn [mbind option_bind] in H. apply (inj Some) in H. subst c.
  set (front := assignment _ _ _ _ _). set (tl := (if is_empty _ then _ else _) ++ _).
  change (([front; instructions ctx role] ++ tl)) with (front :: instructions ctx role :: tl).
  set (sep := nl +:+ nl +:+ "---" +:+ nl +:+ nl).
  set (rest := nl +:+ "---" +:+ nl +:+ nl +:+ join sep (instructions ctx role :: tl)).
  assert (join sep (front :: instructions ctx role :: tl) = front +:+ nl +:+ rest) as ->.
  { cbn [join]. unfold sep, rest. by rewrite !string_app_assoc. }
  exists role, ticket, rest. split; [done|]. split; [done|]. fold front. cbv zeta.
  destruct (trim_to_limit_spec (front +:+ nl +:+ rest)) as (H1 & H2 & H3). split_and!; [done..|].
  intros Hf. apply (H3 front (nl +:+ rest)); [done..|].
  unfold is_char_boundary. rewrite string_get_app. by rewrite !orb_true_r.
Qed.
End history.

(** * Hook dispatches on concrete stores

    Runs of the consumer on small stores: instances of the theorems, and inputs
    on which the code does something else than its comments say. *)

Definition no_file : string → option string := λ _, None.
Definition no_dir : string → option (list string) := λ _, None.

(** ** A ticket in planning *)

Definition chats (s : SharedStore) : SharedStore :=
  set (set s "ticket:T-1:chat:forge" (VString "f")) "ticket:T-1:chat:sentinel" (VString "s").

Definition planning_store : SharedStore :=
  set (chats new_in_memory) "ticket:T-1:status" (to_value Lifecycle.default).

Definition payload (e : HookEvent) (chat : string) (d : Value) : HookPayload :=
  mkPayload e (mkMeta "d-1" 1 chat "o" None None None None None) d.

Definition call (tool : string) (input : Value) : Value :=
  VObject [("tool_name", VString tool); ("tool_input", input)].

Definition shell (command : string) : Value := call "Bash" (VObject [("command", VString command)]).
Definition write_to (path : string) : Value := call "Write" (VObject [("path", VString path)]).

Definition plan_call : HookPayload :=
  payload PreToolUse "f" (write_to "/home/coder/.coder/plans/PLAN-f.md").

Lemma permitted_writes_follow_the_phase_witness :
  write_in_phase (read_ticket_state planning_store "T-1") "f" "write" (tool_input (data plan_call)).
Proof.
  refine (proj1 (proj2 (permitted_writes_follow_the_phase no_file no_dir true None plan_call None 0
    (start planning_store []) _ _ "forge" "T-1" (surjective_pairing _) eq_refl _ _ _ _ _)));
    vm_compute; reflexivity.
Defined.

Lemma deadline_fails_closed_witness :
  refuses (fst (bounded_hook_decision no_file no_dir true None plan_call (Some 0) 0
                  (start planning_store []))) = true.
Proof.
  exact (proj1 (deadline_fails_closed no_file no_dir true None plan_call 0
    (start planning_store []) eq_refl) 0).
Defined.

(** ** Feedback on a denial *)

Definition source_call : HookPayload := payload PreToolUse "f" (write_to "/home/coder/workspace/src/lib.rs").
Definition after_call : HookPayload := payload PostToolUse "f" (shell "ls").

Lemma denials_are_fed_back_witness :
  guidance_tail (w_store (snd (route_event no_file no_dir true None after_call 0
    (snd (route_event no_file no_dir true None source_call 0 (start planning_store [])))))) "T-1" = [].
Proof.
  refine (proj2 (proj2 (denials_are_fed_back no_file no_dir true None source_call 0
    (start planning_store []) "T-1" _ after_call 0 eq_refl _ _ eq_refl _))); vm_compute; reflexivity.
Defined.

(** ** A session start *)

Definition bootstrap0 : HookBootstrapContext := mkBootstrap ∅ None ∅ None.

Definition start_context : string :=
  from_option id "" (build_bootstrap_context no_file no_dir planning_store "f" (VObject []) bootstrap0).

Lemma bootstrap_keeps_the_assignment_witness :
  ∃ rest, start_context = assignment "f" "forge" "T-1" (read_ticket_state planning_store "T-1") (VObject [])
                            +:+ nl +:+ rest ∨ starts_with "# Assignment" start_context = true.
Proof.
  destruct (bootstrap_keeps_the_assignment no_file no_dir planning_store "f" (VObject []) bootstrap0
    start_context) as (role & ticket & rest & Hr & Ht & _ & [E|_] & _).
  - vm_compute. reflexivity.
  - exists rest. left. rewrite E.
    assert (role = "forge") as -> by (vm_compute in Hr; congruence).
    assert (ticket = "T-1") as -> by (vm_compute in Ht; congruence). reflexivity.
  - exists "". right. vm_compute. reflexivity.
Defined.

(** ** Authentication *)

(** A stand-in for the JWT library: the token is the claims' [jti]. *)
Definition decode0 (token secret aud : string) : result HookClaims :=
  if bool_decide (secret = "shared") then Ok (mkClaims "deployment" aud 0 token None (Some "coder:chat:f") None)
  else Err "InvalidSignature".

Definition config0 : CoderHooksConfig :=
  mkHooksConfig (Some "shared") 1500 true false "0.0.0.0:3001" "openflows-nexus" None None false.

Definition stop_body : Value :=
  VObject [("type", VString "stop"); ("meta", VObject [("dispatch_id", VString "d-1"); ("chat_id", VString "f")]);
           ("data", VObject [])].

Lemma only_authenticated_requests_act_witness :
  status (fst (handle_hook no_file no_dir true None decode0 id (λ _, Ok stop_body) config0
                 (Some "Bearer d-1") "" None 0 (start planning_store []))) = 200%N ∧
  ∃ w, snd (handle_hook no_file no_dir true None decode0 id (λ _, Ok stop_body) config0
              (Some "Bearer other") "" None 0 (start planning_store [])) = w ∧ w = start planning_store [].
Proof.
  split; [vm_compute; reflexivity|]. eexists. split; [reflexivity|].
  destruct (only_authenticated_requests_act no_file no_dir true None decode0 id (λ _, Ok stop_body) config0
    (Some "Bearer other") "" None 0 (start planning_store []) _ _ (surjective_pairing _))
    as [[H _]|(_ & _ & H & _)]; [|exact H].
  vm_compute in H. discriminate H.
Defined.

(** ** A pull request under review *)

Definition review_store : SharedStore :=
  set (set (chats new_in_memory) "ticket:T-1:status" (to_value submitted)) "ticket:T-1:pr" (VPosInt 42).

Definition report_written : HookPayload :=
  payload PostToolUse "s"
    (VObject [("tool_name", VString "Write"); ("tool_input", VObject [("path", VString "pr-eval.md")]);
              ("tool_response", VObject [("success", VBool true)])]).

Definition verdict_call : HookPayload :=
  payload PreToolUse "s" (shell "openflows-harness review submit --verdict approve").

Definition reviewed : list happening := [Hook report_written None 1].

Lemma verdict_follows_report_witness :
  refuses (fst (route_event no_file no_dir true None verdict_call 0 (start review_store []))) = true ∧
  sentinel_job (read_ticket_state (history no_file no_dir true None review_store reviewed) "T-1") = PrReview.
Proof.
  split; [vm_compute; reflexivity|].
  refine (proj1 (verdict_follows_report no_file no_dir true None review_store reviewed verdict_call None 0
    _ _ "sentinel" "T-1" _ _ (surjective_pairing _) eq_refl _ _ _ _ _ _ _ _)).
  - vm_compute. reflexivity.
  - constructor; [discriminate|constructor].
  - vm_compute. reflexivity.
  - vm_compute. reflexivity.
  - left.
  - vm_compute. reflexivity.
  - vm_compute. reflexivity.
  - vm_compute. reflexivity.
  - vm_compute. reflexivity.
  - vm_compute. reflexivity.
Defined.

Definition report_call : HookPayload := payload PreToolUse "s" (write_to "reviews/pr-eval.md").

Lemma reviewer_is_confined_witness :
  is_review_artifact "reviews/pr-eval.md" = true.
Proof.
  refine (proj1 (reviewer_is_confined no_file no_dir true None report_call None 0
    (start review_store []) _ _ "sentinel" "T-1" (surjective_pairing _) eq_refl _ _ _) _).
  - vm_compute. reflexivity.
  - vm_compute. reflexivity.
  - vm_compute. reflexivity.
  - left.
Defined.

(** ** Where code and comments part *)

Definition decision (s : SharedStore) (p : HookPayload) : HookDecision := pre_tool_decision s p.

(** A command line that begins with a push is rewritten, and a rewritten call
    skips the phase guard with everything that follows the push. *)
Theorem push_bypasses_the_phase_guard :
  let write := "echo x > src/lib.rs" in
  deny (decision planning_store (payload PreToolUse "f" (shell write))) = true ∧
  deny (decision planning_store (payload PreToolUse "f" (shell ("git push; " +:+ write)))) = false ∧
  is_write_attempt "bash" (tool_input (shell ("git push; " +:+ write))) = true.
Proof. split_and!; vm_compute; reflexivity. Qed.

(** The rewritten push names [git] twice, as a program and as its subcommand. *)
Theorem rewritten_push_repeats_git :
  rewrite (classify_command "git push origin feature") =
    Some (VObject [("command",
      VString "GIT_TERMINAL_PROMPT=0 git -c core.askpass=true git push origin feature")]).
Proof. vm_compute. reflexivity. Qed.

(** The reviewer's guard does not know the shell tool [execute] nor the file
    tool [write_file], and reads only the first command of a line. *)
Theorem reviewer_guard_misses_writes :
  deny (decision review_store (payload PreToolUse "s"
    (call "execute" (VObject [("command", VString "rm src/lib.rs")])))) = false ∧
  deny (decision review_store (payload PreToolUse "s"
    (call "write_file" (VObject [("path", VString "src/lib.rs")])))) = false ∧
  deny (decision review_store (payload PreToolUse "s" (shell "git checkout main"))) = true ∧
  deny (decision review_store (payload PreToolUse "s" (shell "ls && git checkout main"))) = false.
Proof. split_and!; vm_compute; reflexivity. Qed.

(** A tenant named [ticket]: the namespace is cut off at the tenant, no chat is
    found, and the guard lets everything pass. *)
Theorem tenant_ticket_resolves_no_chat :
  let s := set (chats (new_in_memory_with_tenant "ticket")) "ticket:T-1:status" (to_value Lifecycle.default) in
  resolve_chat s "f" = context_default ∧
  deny (decision s (payload PreToolUse "f" (shell "echo x > src/lib.rs"))) = false.
Proof. split_and!; vm_compute; reflexivity. Qed.
