(* ===== verification/Hoare.v ===== *)
(** * Triples for fallible stateful computations

    [triple P m Q E]: from a state in [P], [m] ends in a state of [E] when it
    fails and of [Q a] when it returns [a].  The rules follow the shape of the
    computation. *)
From S2P Require Import Prelude.

Definition triple {S A} (P : S → Prop) (m : St S A) (Q : A → S → Prop) (E : S → Prop) : Prop :=
  ∀ s, P s → match m s with (Ok a, s') => Q a s' | (_, s') => E s' end.

Create HintDb triple.

Section rules.
Context {S : Type}.
Implicit Types P E : S → Prop.

Lemma triple_ret {A} P (a : A) (Q : A → S → Prop) E :
  (∀ s, P s → Q a s) → triple P (mret a) Q E.
Proof. intros H s Hs. cbn. auto. Qed.

Lemma triple_bind {A B} P (m : St S A) (f : A → St S B) R Q E :
  triple P m R E → (∀ a, triple (R a) (f a) Q E) → triple P (m ≫= f) Q E.
Proof.
  intros Hm Hf s Hs. specialize (Hm s Hs). unfold mbind, st_bind.
  destruct (m s) as [[a|e|] s']; [|done..]. by apply Hf.
Qed.

Lemma triple_conseq {A} P P' (m : St S A) (Q Q' : A → S → Prop) E :
  triple P' m Q' E → (∀ s, P s → P' s) → (∀ a s, Q' a s → Q a s) → triple P m Q E.
Proof.
  intros Hm HP HQ s Hs. specialize (Hm s (HP _ Hs)). destruct (m s) as [[a|e|] s']; auto.
Qed.

Lemma triple_fail {A} P (m : St S A) Q E E' :
  triple P m Q E → (∀ s, E s → E' s) → triple P m Q E'.
Proof. intros Hm HE s Hs. specialize (Hm s Hs). destruct (m s) as [[a|e|] s']; auto. Qed.

Lemma triple_pure {A} (p : Prop) P (m : St S A) Q E :
  (p → triple P m Q E) → triple (λ s, p ∧ P s) m Q E.
Proof. intros H s [Hp Hs]. by apply H. Qed.

Lemma triple_ex {A X} (P : X → S → Prop) (m : St S A) Q E :
  (∀ x, triple (P x) m Q E) → triple (λ s, ∃ x, P x s) m Q E.
Proof. intros H s [x Hs]. by apply (H x). Qed.

Lemma triple_lift {A} P (r : result A) (Q : A → S → Prop) E :
  (∀ a s, r = Ok a → P s → Q a s) → (∀ s, P s → E s) → triple P (st_lift r) Q E.
Proof. intros HQ HE s Hs. unfold st_lift. destruct r; auto. Qed.

Lemma triple_modify P (f : S → S) (Q : unit → S → Prop) E :
  (∀ s, P s → Q tt (f s)) → triple P (st_modify f) Q E.
Proof. intros H s Hs. cbn. auto. Qed.

Lemma triple_gets {A} P (f : S → A) (Q : A → S → Prop) E :
  (∀ s, P s → Q (f s) s) → triple P (st_gets f) Q E.
Proof. intros H s Hs. cbn. auto. Qed.

(** What a triple says about one run. *)
Lemma triple_run {A} P (m : St S A) Q E s a s' :
  triple P m Q E → P s → m s = (Ok a, s') → Q a s'.
Proof. intros Hm Hs H. specialize (Hm s Hs). by rewrite H in Hm. Qed.

(** ** Invariants *)

Definition keeps {A} (I : S → Prop) (m : St S A) : Prop := triple I m (λ _, I) I.

Lemma keeps_run {A} I (m : St S A) s : keeps I m → I s → I (m s).2.
Proof. intros Hm Hs. specialize (Hm s Hs). by destruct (m s) as [[a|e|] s']. Qed.

Lemma keeps_Ok {A} I (m : St S A) s a s' : keeps I m → I s → m s = (Ok a, s') → I s'.
Proof. intros Hm Hs H. specialize (Hm s Hs). by rewrite H in Hm. Qed.

Lemma keeps_ret {A} I (a : A) : keeps I (mret a).
Proof. by apply triple_ret. Qed.

Lemma keeps_bind {A B} I (m : St S A) (f : A → St S B) :
  keeps I m → (∀ a, keeps I (f a)) → keeps I (m ≫= f).
Proof. intros Hm Hf. by eapply triple_bind. Qed.

Lemma keeps_lift {A} I (r : result A) : keeps I (st_lift r).
Proof. by apply triple_lift. Qed.

Lemma keeps_modify I f : (∀ s, I s → I (f s)) → keeps I (st_modify f).
Proof. intros H. by apply triple_modify. Qed.

Lemma keeps_if {A} I (b : bool) (m n : St S A) : keeps I m → keeps I n → keeps I (if b then m else n).
Proof. by destruct b. Qed.

Lemma keeps_triple {A} I P (m : St S A) Q :
  keeps I m → (∀ s, P s → I s) → (∀ a s, I s → Q a s) → triple P m Q I.
Proof. intros Hm HP HQ. eapply triple_conseq; [exact Hm|done|done]. Qed.
End rules.

#[export] Hint Resolve keeps_ret keeps_lift : triple.

(** [keeps_step] follows the structure of a computation; [auto] with the hints
    of [triple] closes the leaves. *)
Ltac keeps_step :=
  match goal with
  | |- keeps _ (_ ≫= _) => apply keeps_bind; [|intros ?]
  | |- keeps _ (if ?b then _ else _) => apply keeps_if
  | |- keeps _ (match ?x with _ => _ end) => destruct x eqn:?
  | |- keeps _ (let _ := _ in _) => cbv zeta
  end.
Ltac keeps_auto := repeat (keeps_step || solve [auto with triple]).
