(* ===== verification/Tickets.v ===== *)
(** * Tickets and workers

    Models [src/crates/config/src/state.rs]: the ticket list and worker slots the
    controller and VESSEL keep in the shared store, with their serde forms, and
    the keys of the rework loop. *)
From stdpp Require Import sorting.
From S2P Require Import Prelude Text Json.

(** ** 32-bit counters *)

Definition in_u32 (n : N) : Prop := (n < 4294967296)%N.
#[export] Instance in_u32_dec n : Decision (in_u32 n).
Proof. unfold in_u32. apply _. Defined.

Definition u32 : Type := dsig in_u32.

Definition u32_of (n : N) : option u32 :=
  match decide (in_u32 n) with left H => Some (dexist n H) | right _ => None end.

Definition u32_0 : u32 := dexist 0%N eq_refl.

(** [n + 1] on a [u32]: the overflow check of a debug build. *)
Definition u32_succ (n : u32) : result u32 :=
  match u32_of (`n + 1)%N with Some m => Ok m | None => Panic end.

#[export] Instance serde_u32 : Serde u32 := {
  to_value n := VPosInt (`n);
  from_value v :=
    match v with
    | VPosInt n => match u32_of n with Some m => Ok m | None => Err "invalid value: expected u32" end
    | _ => Err "invalid type: expected u32"
    end
}.

Lemma u32_of_val (n : u32) : u32_of (`n) = Some n.
Proof.
  unfold u32_of. destruct (decide (in_u32 (`n))) as [H|H].
  - f_equal. by apply dsig_eq.
  - destruct H. exact (proj2_dsig n).
Qed.

#[export] Instance serde_u32_laws : SerdeLaws u32.
Proof. intros n. cbn [to_value from_value serde_u32]. by rewrite u32_of_val. Qed.

Lemma u32_of_Some n m : u32_of n = Some m → `m = n.
Proof. unfold u32_of. destruct (decide _); [|done]. by intros [= <-]. Qed.

Lemma u32_of_small n : (n < 4294967296)%N → ∃ m, u32_of n = Some m ∧ `m = n.
Proof. intros H. unfold u32_of. destruct (decide (in_u32 n)); [by eexists|done]. Qed.

(** ** Tickets *)

Inductive TicketStatus : Type :=
  | Open
  | Assigned (worker_id : string)
  | InProgress (worker_id : string)
  | TMerged (worker_id : string) (pr_number : u64)
  | Failed (worker_id reason : string) (attempts : u32)
  | Completed (worker_id outcome : string)
  | Exhausted (worker_id : string) (attempts : u32)
  | AwaitingHuman (worker_id reason : string) (attempts : u32).

(** [#[serde(tag = "type")]]. *)
Definition status_to_value (s : TicketStatus) : Value :=
  match s with
  | Open => VObject [("type", VString "open")]
  | Assigned w => VObject [("type", VString "assigned"); ("worker_id", VString w)]
  | InProgress w => VObject [("type", VString "in_progress"); ("worker_id", VString w)]
  | TMerged w n => VObject [("type", VString "merged"); ("worker_id", VString w); ("pr_number", to_value n)]
  | Failed w r a =>
      VObject [("type", VString "failed"); ("worker_id", VString w); ("reason", VString r);
               ("attempts", to_value a)]
  | Completed w o => VObject [("type", VString "completed"); ("worker_id", VString w); ("outcome", VString o)]
  | Exhausted w a => VObject [("type", VString "exhausted"); ("worker_id", VString w); ("attempts", to_value a)]
  | AwaitingHuman w r a =>
      VObject [("type", VString "awaiting_human"); ("worker_id", VString w); ("reason", VString r);
               ("attempts", to_value a)]
  end.

(** The fields of a variant, in order, for the sequence form. *)
Definition status_fields (tag : string) : list string :=
  if bool_decide (tag ∈ ["assigned"; "in_progress"]) then ["worker_id"]
  else if bool_decide (tag = "merged") then ["worker_id"; "pr_number"]
  else if bool_decide (tag ∈ ["failed"; "awaiting_human"]) then ["worker_id"; "reason"; "attempts"]
  else if bool_decide (tag = "completed") then ["worker_id"; "outcome"]
  else if bool_decide (tag = "exhausted") then ["worker_id"; "attempts"]
  else [].

Definition status_variant (tag : string) (v : Value) : result TicketStatus :=
  if bool_decide (tag = "open") then Ok Open
  else if bool_decide (tag = "assigned") then Assigned <$> field "worker_id" v
  else if bool_decide (tag = "in_progress") then InProgress <$> field "worker_id" v
  else if bool_decide (tag = "merged") then
    w ← field "worker_id" v; n ← field "pr_number" v; Ok (TMerged w n)
  else if bool_decide (tag = "failed") then
    w ← field "worker_id" v; r ← field "reason" v; a ← field "attempts" v; Ok (Failed w r a)
  else if bool_decide (tag = "completed") then
    w ← field "worker_id" v; o ← field "outcome" v; Ok (Completed w o)
  else if bool_decide (tag = "exhausted") then
    w ← field "worker_id" v; a ← field "attempts" v; Ok (Exhausted w a)
  else if bool_decide (tag = "awaiting_human") then
    w ← field "worker_id" v; r ← field "reason" v; a ← field "attempts" v; Ok (AwaitingHuman w r a)
  else Err ("unknown variant `" +:+ tag +:+ "`").

Definition status_from_value (v : Value) : result TicketStatus :=
  match v with
  | VObject _ => tag ← field "type" v; status_variant tag v
  | VArray (t :: rest) =>
      tag ← from_value t;
      v ← struct_form (status_fields tag) (length (status_fields tag)) (VArray rest);
      status_variant tag v
  | _ => Err "invalid type: expected internally tagged enum"
  end.

#[export] Instance serde_status : Serde TicketStatus :=
  {| to_value := status_to_value; from_value := status_from_value |}.
#[export] Instance serde_status_laws : SerdeLaws TicketStatus.
Proof.
  intros []; cbn [to_value from_value serde_status]; unfold status_from_value, status_to_value; try done;
    (erewrite field_hit; [cbn [mbind result_bind] | reflexivity]); unfold status_variant;
    repeat (case_bool_decide; [try discriminate|]); try done; serde_fields; done.
Qed.

Record Ticket : Type := mkTicket {
  tk_id : string;
  tk_title : string;
  tk_body : string;
  tk_priority : u32;
  tk_branch : option string;
  tk_status : TicketStatus;
  tk_issue_url : option string;
  tk_attempts : u32;
}.

Definition ticket_to_value (t : Ticket) : Value :=
  VObject [("id", to_value (tk_id t)); ("title", to_value (tk_title t)); ("body", to_value (tk_body t));
           ("priority", to_value (tk_priority t)); ("branch", to_value (tk_branch t));
           ("status", to_value (tk_status t)); ("issue_url", to_value (tk_issue_url t));
           ("attempts", to_value (tk_attempts t))].

(** A missing [Option] field without a default reads as [None]. *)
Definition ticket_from_value (v : Value) : result Ticket :=
  v ← struct_form ["id"; "title"; "body"; "priority"; "branch"; "status"; "issue_url"; "attempts"] 5 v;
  i ← field "id" v;
  t ← field "title" v;
  b ← field "body" v;
  p ← field "priority" v;
  br ← field_or None "branch" v;
  st ← field_or Open "status" v;
  u ← field_or None "issue_url" v;
  a ← field_or u32_0 "attempts" v;
  Ok (mkTicket i t b p br st u a).

#[export] Instance serde_ticket : Serde Ticket :=
  {| to_value := ticket_to_value; from_value := ticket_from_value |}.
#[export] Instance serde_ticket_laws : SerdeLaws Ticket.
Proof.
  intros t. cbn [to_value from_value serde_ticket]. unfold ticket_from_value, ticket_to_value.
  cbn [struct_form mbind result_bind]. serde_fields. by destruct t.
Qed.

Definition set_status (st : TicketStatus) (t : Ticket) : Ticket :=
  mkTicket (tk_id t) (tk_title t) (tk_body t) (tk_priority t) (tk_branch t) st (tk_issue_url t) (tk_attempts t).

Definition MAX_ATTEMPTS : N := 3.

Definition is_assignable (t : Ticket) : bool :=
  match tk_status t with
  | Open => true
  | Failed _ _ a => (`a <? MAX_ATTEMPTS)%N
  | _ => false
  end.

Definition is_terminal (s : TicketStatus) : bool :=
  match s with
  | TMerged _ _ | Exhausted _ _ => true
  | Failed _ _ a => (MAX_ATTEMPTS <=? `a)%N
  | Completed _ outcome => negb (bool_decide (outcome = "pr_opened"))
  | _ => false
  end.

(** ** Workers *)

Inductive WorkerStatus : Type :=
  | Idle
  | WAssigned (ticket_id : string) (issue_url : option string)
  | Working (ticket_id : string) (issue_url : option string)
  | WDone (ticket_id outcome : string)
  | Suspended (ticket_id reason : string) (issue_url : option string).

Definition worker_ticket (s : WorkerStatus) : option string :=
  match s with
  | WAssigned t _ | Working t _ | WDone t _ | Suspended t _ _ => Some t
  | Idle => None
  end.

(** [#[serde(tag = "type")]]; the sequence form is as for [TicketStatus]. *)
Definition worker_to_value (s : WorkerStatus) : Value :=
  match s with
  | Idle => VObject [("type", VString "idle")]
  | WAssigned t u =>
      VObject [("type", VString "assigned"); ("ticket_id", to_value t); ("issue_url", to_value u)]
  | Working t u =>
      VObject [("type", VString "working"); ("ticket_id", to_value t); ("issue_url", to_value u)]
  | WDone t o => VObject [("type", VString "done"); ("ticket_id", to_value t); ("outcome", to_value o)]
  | Suspended t r u =>
      VObject [("type", VString "suspended"); ("ticket_id", to_value t); ("reason", to_value r);
               ("issue_url", to_value u)]
  end.

Definition worker_fields (tag : string) : list string :=
  if bool_decide (tag ∈ ["assigned"; "working"]) then ["ticket_id"; "issue_url"]
  else if bool_decide (tag = "done") then ["ticket_id"; "outcome"]
  else if bool_decide (tag = "suspended") then ["ticket_id"; "reason"; "issue_url"]
  else [].

Definition worker_variant (tag : string) (v : Value) : result WorkerStatus :=
  if bool_decide (tag = "idle") then Ok Idle
  else if bool_decide (tag = "assigned") then
    t ← field "ticket_id" v; u ← field_or None "issue_url" v; Ok (WAssigned t u)
  else if bool_decide (tag = "working") then
    t ← field "ticket_id" v; u ← field_or None "issue_url" v; Ok (Working t u)
  else if bool_decide (tag = "done") then
    t ← field "ticket_id" v; o ← field "outcome" v; Ok (WDone t o)
  else if bool_decide (tag = "suspended") then
    t ← field "ticket_id" v; r ← field "reason" v; u ← field_or None "issue_url" v; Ok (Suspended t r u)
  else Err ("unknown variant `" +:+ tag +:+ "`").

Definition worker_from_value (v : Value) : result WorkerStatus :=
  match v with
  | VObject _ => tag ← field "type" v; worker_variant tag v
  | VArray (t :: rest) =>
      tag ← from_value t;
      v ← struct_form (worker_fields tag) (length (worker_fields tag)) (VArray rest);
      worker_variant tag v
  | _ => Err "invalid type: expected internally tagged enum"
  end.

#[export] Instance serde_worker : Serde WorkerStatus :=
  {| to_value := worker_to_value; from_value := worker_from_value |}.
#[export] Instance serde_worker_laws : SerdeLaws WorkerStatus.
Proof.
  intros []; cbn [to_value from_value serde_worker]; unfold worker_from_value, worker_to_value; try done;
    (erewrite field_hit; [cbn [mbind result_bind] | reflexivity]); unfold worker_variant;
    repeat (case_bool_decide; [try discriminate|]); try done; serde_fields; done.
Qed.

Record WorkerSlot : Type := mkSlot {
  slot_id : string;
  slot_status : WorkerStatus;
  slot_workspace_id : option string;
}.

Definition slot_to_value (s : WorkerSlot) : Value :=
  VObject [("id", to_value (slot_id s)); ("status", to_value (slot_status s));
           ("workspace_id", to_value (slot_workspace_id s))].

Definition slot_from_value (v : Value) : result WorkerSlot :=
  v ← struct_form ["id"; "status"; "workspace_id"] 2 v;
  i ← field "id" v;
  st ← field "status" v;
  w ← field_or None "workspace_id" v;
  Ok (mkSlot i st w).

#[export] Instance serde_slot : Serde WorkerSlot :=
  {| to_value := slot_to_value; from_value := slot_from_value |}.
#[export] Instance serde_slot_laws : SerdeLaws WorkerSlot.
Proof.
  intros s. cbn [to_value from_value serde_slot]. unfold slot_from_value, slot_to_value.
  cbn [struct_form mbind result_bind]. serde_fields. by destruct s.
Qed.

(** ** Maps

    [HashMap<String, A>] as an object, whose keys serde_json keeps sorted. *)

Definition key_le {A} (a b : string * A) : Prop := String.leb a.1 b.1 = true.
#[export] Instance key_le_dec {A} (a b : string * A) : base.Decision (key_le a b).
Proof. unfold key_le. apply _. Defined.

Definition entries {A} (m : gmap string A) : list (string * A) := merge_sort key_le (map_to_list m).

Fixpoint from_entries {A} `{Serde A} (l : list (string * Value)) : result (list (string * A)) :=
  match l with
  | [] => Ok []
  | (k, v) :: l => a ← from_value v; rest ← from_entries l; Ok ((k, a) :: rest)
  end.

#[export] Instance serde_map {A} `{Serde A} : Serde (gmap string A) := {
  to_value m := VObject (prod_map id to_value <$> entries m);
  from_value v :=
    match v with
    | VObject l => list_to_map <$> from_entries l
    | _ => Err "invalid type: expected a map"
    end
}.

Lemma from_entries_to_value {A} `{Serde A, !SerdeLaws A} (l : list (string * A)) :
  from_entries (prod_map id to_value <$> l) = Ok l.
Proof.
  induction l as [|[k a] l IH]; [done|]. rewrite fmap_cons. cbn [prod_map from_entries id fst snd].
  by rewrite from_to_value, IH.
Qed.

#[export] Instance serde_map_laws {A} `{Serde A, !SerdeLaws A} : SerdeLaws (gmap string A).
Proof.
  intros m. cbn [to_value from_value serde_map]. rewrite from_entries_to_value. cbn. f_equal.
  rewrite <- (list_to_map_to_list m) at 2. apply list_to_map_proper.
  - unfold entries. rewrite merge_sort_Permutation. apply NoDup_fst_map_to_list.
  - apply merge_sort_Permutation.
Qed.

(** ** Keys *)

Definition KEY_TICKETS : string := "tickets".
Definition KEY_WORKER_SLOTS : string := "worker_slots".
Definition KEY_PENDING_PRS : string := "pending_prs".
Definition KEY_MERGE_READY_PRS : string := "merge_ready_prs".

Definition KEY_TICKET_WORKSPACE : string := "workspace".
Definition KEY_TICKET_CHAT : string := "chat".
Definition KEY_TICKET_DEPLOYMENT : string := "deployment".
Definition KEY_TICKET_REWORK_DIRECTIVE : string := "rework_directive".
Definition KEY_TICKET_REWORK_DELIVERY_ID : string := "rework_delivery_id".

Definition ACTION_CONFLICTS_DETECTED : string := "conflicts_detected".
Definition ACTION_ADDRESS_REVIEW_DISPATCHED : string := "address_review_dispatched".
Definition ACTION_REWORK_PROVISION_NEEDED : string := "rework_provision_needed".
Definition ACTION_CI_FIX_NEEDED : string := "ci_fix_needed".

Definition full_ticket_key (ticket subkey role : string) : string :=
  "ticket:" +:+ ticket +:+ ":" +:+ subkey +:+ ":" +:+ role.
Definition full_ticket_key_flat (ticket subkey : string) : string :=
  "ticket:" +:+ ticket +:+ ":" +:+ subkey.

Definition address_review_dispatched_key (pr : u64) : string := "_address_review_dispatched_" +:+ pretty pr.
Definition address_review_dispatched_at_key (pr : u64) : string := "_address_review_dispatched_at_" +:+ pretty pr.
Definition address_review_attempts_key (pr : u64) : string := "_address_review_attempts_" +:+ pretty pr.
Definition address_review_rearmed_key (pr : u64) : string := "_address_review_rearmed_" +:+ pretty pr.
