(* ===== verification/Review.v ===== *)
(** * Reviews and checks of a pull request

    Models how GitHub's answers are condensed into a verdict on a candidate:
    the review aggregation and CI status of [src/crates/github/src/rest.rs], the
    classification of [src/crates/agent-vessel/src/pr_monitor.rs] and the types of
    [src/crates/pocketflow-core/src/types.rs].  Time stamps are parsed by chrono,
    a parameter. *)
From Stdlib Require Import String.
From S2P Require Import Prelude Text.

(** ** Check results *)

Inductive CiStatus : Type := Pending | Success | Failure | Error.
#[export] Instance ci_status_eq_dec : EqDecision CiStatus.
Proof. solve_decision. Defined.

Definition is_terminal (s : CiStatus) : bool :=
  match s with Success | Failure | Error => true | Pending => false end.

Record CheckSuiteApp : Type := mkApp { app_slug : option string; app_name : option string }.

Record CheckSuite : Type := mkSuite {
  cs_status : string;
  cs_conclusion : option string;
  cs_runs : option N;
  cs_app : option CheckSuiteApp;
}.

Definition map_status_state (state : string) : CiStatus :=
  let s := to_lowercase state in
  if bool_decide (s = "pending") then Pending
  else if bool_decide (s = "success") then Success
  else if bool_decide (s = "failure") then Failure
  else if bool_decide (s = "error") then Error
  else Pending.

Definition aggregate_ci_sources (status checks : option CiStatus) : CiStatus :=
  let sources := [status; checks] in
  if existsb (λ s, bool_decide (s = Some Failure) || bool_decide (s = Some Error)) sources then Failure
  else if bool_decide (Some Pending ∈ sources) || forallb is_none sources then Pending
  else Success.

Definition GHOST_SLUGS : list string := ["openflows"; "devin"; "sonarqubecloud"; "sonarcloud"].
Definition GHOST_NAMES : list string := ["openflows"; "devin"; "sonar"].

(** [ignored] is the environment variable [GITHUB_IGNORED_CHECK_APPS]. *)
Definition is_ghost_check_suite (ignored : option string) (suite : CheckSuite) : bool :=
  if bool_decide (cs_status suite = "completed") then false
  else if (0 <? from_option id 0%N (cs_runs suite))%N || bool_decide (cs_status suite = "in_progress")
  then false
  else if negb (bool_decide (cs_runs suite = Some 0%N)) then false
  else
    match cs_app suite with
    | None => false
    | Some app =>
        let slug := to_lowercase (from_option id "" (app_slug app)) in
        let name := to_lowercase (from_option id "" (app_name app)) in
        if bool_decide (slug = "github-actions") || bool_decide (name = "github actions") then false
        else if existsb (λ p, contains p slug) GHOST_SLUGS || existsb (λ p, contains p name) GHOST_NAMES
        then true
        else
          existsb (λ pattern,
            let p := to_lowercase (trim pattern) in
            negb (is_empty p) && (contains p slug || contains p name))
            (from_option (split_on (char_eqb ",")) [] ignored)
    end.

Definition suite_status (suite : CheckSuite) : CiStatus :=
  if negb (bool_decide (cs_status suite = "completed")) then Pending
  else
    match cs_conclusion suite with
    | Some c =>
        if bool_decide (c ∈ ["success"; "neutral"; "skipped"]) then Success
        else if bool_decide (c ∈ ["failure"; "timed_out"; "cancelled"; "action_required"; "startup_failure"])
        then Failure
        else Pending
    | None => Pending
    end.

Definition suites_status (suites : list CheckSuite) : option CiStatus :=
  if bool_decide (length suites = 0) then None
  else Some (fold_left (λ st suite, aggregate_ci_sources (Some st) (Some (suite_status suite))) suites Success).

Definition is_status_api_forbidden (msg : string) : bool :=
  contains "GitHub API error 403" msg && (contains "not accessible" msg || contains "forbidden" msg).

(** [get_ci_status] on GitHub's answers: the combined status with the number of
    statuses it combines, and all pages of check suites. *)
Definition get_ci_status (ignored : option string) (combined : result (string * N))
  (suites : result (list CheckSuite)) : result CiStatus :=
  combined ← (match combined with
              | Ok (state, total) =>
                  Ok (if (0 <? total)%N then Some (map_status_state state) else None)
              | Err msg => if is_status_api_forbidden msg then Ok None else Err msg
              | Panic => Panic
              end);
  suites ← suites;
  Ok (aggregate_ci_sources combined
        (suites_status (List.filter (λ s, negb (is_ghost_check_suite ignored s)) suites))).

(** What is known of the failed checks of a head. *)
Record CheckAnnotationDetail : Type := mkAnnotation {
  an_check_name : string;
  an_path : string;
  an_start_line : u64;
  an_message : string;
}.

Record FailedCheck : Type := mkFailedCheck { fc_name : string; fc_conclusion : string }.

Record CiFailureDetail : Type := mkDetail {
  failed_checks : list FailedCheck;
  still_running : list string;
  job_logs : list (string * string);
  annotations : list CheckAnnotationDetail;
}.

Definition failed_check_names (d : CiFailureDetail) : list string :=
  (fc_name <$> failed_checks d) ++ (fst <$> job_logs d).

(** ** Reviews *)

Inductive PrReviewState : Type := Approved | ChangesRequested | Commented | NoReview.
#[export] Instance review_state_eq_dec : EqDecision PrReviewState.
Proof. solve_decision. Defined.

Definition from_api_state (state : string) : PrReviewState :=
  if bool_decide (state = "APPROVED") then Approved
  else if bool_decide (state = "CHANGES_REQUESTED") then ChangesRequested
  else if bool_decide (state = "COMMENTED") then Commented
  else NoReview.

Record PrReview : Type := mkReview {
  r_state : string;
  r_user : option string;
  r_submitted_at : option string;
  r_body : option string;
  r_commit_id : option string;
  r_author_association : option string;
}.

Definition state_enum (r : PrReview) : PrReviewState := from_api_state (r_state r).

Definition is_authorized_reviewer (r : PrReview) : bool :=
  bool_decide (r_author_association r ∈ [Some "OWNER"; Some "MEMBER"; Some "COLLABORATOR"]).

Definition has_verdict (r : PrReview) : bool :=
  match state_enum r with Approved | ChangesRequested => true | _ => false end.

(** Whether [review] is newer than [existing]: the texts are compared. *)
Definition is_newer (existing review : PrReview) : bool :=
  match r_submitted_at existing, r_submitted_at review with
  | Some a, Some b => String.ltb a b
  | None, Some _ => true
  | Some _, None => false
  | None, None => true
  end.

Definition supersedes (existing review : PrReview) : bool :=
  match has_verdict existing, has_verdict review with
  | true, true => is_newer existing review
  | false, true => true
  | true, false => false
  | false, false => is_newer existing review
  end.

(** One round of the loop of [latest_review_per_user]: the entry of the same
    reviewer, if there is one, is replaced or kept; otherwise one is added. *)
Fixpoint place (user : string) (review : PrReview) (latest : list PrReview) : list PrReview :=
  match latest with
  | [] => [review]
  | r :: latest =>
      if bool_decide (r_user r = Some user)
      then (if supersedes r review then review else r) :: latest
      else r :: place user review latest
  end.

Definition note (latest : list PrReview) (review : PrReview) : list PrReview :=
  match r_user review with
  | Some user => if is_empty user then latest else place user review latest
  | None => latest
  end.

Definition latest_review_per_user (reviews : list PrReview) : list PrReview :=
  fold_left note reviews [].

(** ** Rework *)

Record ReworkEvidence : Type := mkEvidence {
  dispatched_sha : option string;
  dispatched_at : option string;
}.

Record PrInfo : Type := mkPr {
  number : u64;
  head_sha : string;
  head_branch : string;
  base_branch : string;
  ticket_id : option string;
  title : string;
  body : option string;
  mergeable : option bool;
}.

Definition has_conflicts (pr : PrInfo) : bool := bool_decide (mergeable pr = Some false).

Record ReviewComment : Type := mkComment {
  c_commit_id : option string;
  c_created_at : option string;
}.

Inductive PrMonitorState : Type :=
  | MConflicts | MCiFailed | MCiRunning | MChangesRequested | MComments | MNeedsReview | MApproved
  | MReadyForMerge.
#[export] Instance monitor_state_eq_dec : EqDecision PrMonitorState.
Proof. solve_decision. Defined.

Definition monitor_as_str (s : PrMonitorState) : string :=
  match s with
  | MConflicts => "conflicts"
  | MCiFailed => "ci_failed"
  | MCiRunning => "ci_running"
  | MChangesRequested => "changes_requested"
  | MComments => "comments"
  | MNeedsReview => "needs_review"
  | MApproved => "approved"
  | MReadyForMerge => "ready_for_merge"
  end.

Section review.
Variable parse_from_rfc3339 : string → option Z.

Definition is_feedback_addressed (commit timestamp : option string) (pr_head : string)
  (evidence : option ReworkEvidence) : bool :=
  if bool_decide (commit = Some pr_head) then false
  else
    match evidence with
    | None => false
    | Some ev =>
        match dispatched_sha ev, dispatched_at ev with
        | Some sha, Some at_ =>
            if bool_decide (pr_head = sha) then false
            else
              match (ts ← timestamp; d ← parse_from_rfc3339 at_; f ← parse_from_rfc3339 ts; Some (f, d)) with
              | Some (fb, dispatched) => bool_decide (fb ≤ dispatched)%Z
              | None => bool_decide (commit = Some sha)
              end
        | _, _ => false
        end
    end.

Definition applicable_reviews (reviews : list PrReview) (head : string)
  (evidence : option ReworkEvidence) : list PrReview :=
  List.filter (λ r,
    negb (bool_decide (state_enum r = ChangesRequested))
    || negb (is_feedback_addressed (r_commit_id r) (r_submitted_at r) head evidence))
    (latest_review_per_user reviews).

Definition is_authorized_head_approval (review : PrReview) (head : string) : bool :=
  bool_decide (state_enum review = Approved) && is_authorized_reviewer review
  && bool_decide (r_commit_id review = Some head).

Definition candidate_review_state (applicable : list PrReview) (head : string) : PrReviewState :=
  if existsb (λ r, bool_decide (state_enum r = ChangesRequested)) applicable then ChangesRequested
  else if existsb (λ r, is_authorized_head_approval r head) applicable then Approved
  else NoReview.

Definition classify_from_parts (mergeable : option bool) (ci : CiStatus) (review : PrReviewState)
  (has_unaddressed_comments : bool) : PrMonitorState :=
  if bool_decide (mergeable = Some false) then MConflicts
  else
    match ci with
    | Failure | Error => MCiFailed
    | Pending => MCiRunning
    | Success =>
        if bool_decide (review = ChangesRequested) then MChangesRequested
        else if has_unaddressed_comments && negb (bool_decide (review = Approved)) then MComments
        else if bool_decide (review = Approved) then MReadyForMerge else MNeedsReview
    end.

(** A failed listing counts as an empty one. *)
Definition or_none {A} (r : result (list A)) : list A := from_option id [] (ok r).

Definition unaddressed (comments : list ReviewComment) (head : string)
  (evidence : option ReworkEvidence) : bool :=
  existsb (λ c, negb (is_feedback_addressed (c_commit_id c) (c_created_at c) head evidence)) comments.

Definition classify (reviews : result (list PrReview)) (comments : result (list ReviewComment))
  (pr : PrInfo) (ci : CiStatus) (evidence : option ReworkEvidence) : PrMonitorState :=
  let review :=
    candidate_review_state (applicable_reviews (or_none reviews) (head_sha pr) evidence) (head_sha pr) in
  classify_from_parts (mergeable pr) ci review
    (unaddressed (or_none comments) (head_sha pr) evidence && negb (bool_decide (review = Approved))).
End review.
