(* ===== verification/Vessel.v ===== *)
(** * VESSEL: from an approved pull request to a merge

    Models the part of [src/crates/agent-vessel/src] that decides about a pull
    request: the CI gate ([ci_poller.rs]), the merge refusals ([merger.rs]), and
    of [node.rs] the reconciliation of GitHub approvals, the reserved merge, the
    conflict route, the processing of one pull request and of the queue.

    GitHub's answers are arguments, one per request the code makes, and may
    disagree with each other.  Other agents write to the shared store while VESSEL
    waits for an answer: [others] is what they do at each such point. *)
From S2P Require Import Prelude Text Json Lifecycle LifecycleCodec Store Tickets Review.

(** ** Polling CI *)

Inductive CiPollResult : Type :=
  | Status (s : CiStatus)
  | Timeout
  | Conflicting.

Definition MERGEABLE_CHECK_INTERVAL : nat := 3.

(** The loop of [poll_until_terminal] with [todo] attempts to go: [ci] and
    [fresh] are the answers to the requests of each attempt. *)
Fixpoint poll_loop (ci : nat → result CiStatus) (fresh : nat → result PrInfo) (todo attempts : nat)
  : result CiPollResult :=
  match todo with
  | O => Ok Timeout
  | S todo =>
      status ← ci attempts;
      if Review.is_terminal status then Ok (Status status)
      else if bool_decide (attempts mod MERGEABLE_CHECK_INTERVAL = 0) then
        pr ← fresh attempts;
        if bool_decide (mergeable pr = Some false) then Ok Conflicting
        else poll_loop ci fresh todo (S attempts)
      else poll_loop ci fresh todo (S attempts)
  end.

Definition poll_until_terminal (max_attempts : nat) (ci : nat → result CiStatus)
  (fresh : nat → result PrInfo) : result CiPollResult := poll_loop ci fresh max_attempts 0.

(** ** Refusals *)

Definition is_merge_conflict_message (msg : string) : bool :=
  let lower := to_lowercase msg in
  contains "merge conflict" lower || contains "merge_conflict" lower
  || (contains "405" lower && contains "not mergeable" lower).

Definition is_merge_refused_pending_review (msg : string) : bool :=
  contains "405" (to_lowercase msg) && negb (is_merge_conflict_message msg).

Definition build_merge_commit_title (pr : PrInfo) : string :=
  "Merge PR #" +:+ pretty (number pr) +:+ ": " +:+ title pr +:+
  match ticket_id pr with
  | Some t =>
      match strip_prefix "T-" t with
      | Some issue => " (Closes #" +:+ issue +:+ ")"
      | None => " (Resolves " +:+ t +:+ ")"
      end
  | None => ""
  end.

(** ** State *)

Record MergeResult : Type := mkMergeResult {
  merged : bool;
  m_sha : option string;
  m_message : string;
}.

(** GitHub's reply to a merge request: none, one with an error status (its code
    and text) and a body, or a success with a body that can be read or not. *)
Inductive MergeReply : Type :=
  | NoReply (why : string)
  | Rejected (code : N) (status message : string)
  | Replied (r : MergeResult)
  | Unreadable (why : string).

(** The statuses that prove that nothing was merged. *)
Definition REJECTIONS : list N := [400; 401; 403; 404; 405; 409; 422; 429]%N.

(** [merge_pull_request]. *)
Definition merge_pull_request (reply : MergeReply) : result MergeResult :=
  match reply with
  | NoReply e => Err e
  | Rejected code status message =>
      if bool_decide (code ∈ REJECTIONS)
      then Ok (mkMergeResult false None ("GitHub rejected merge (" +:+ status +:+ "): " +:+ message))
      else Err ("GitHub merge outcome unknown (" +:+ status +:+ "): " +:+ message)
  | Replied r => Ok r
  | Unreadable _ => Err "Failed to parse merge response"
  end.

(** A merge request sent to GitHub, with the store as it was then. *)
Record MergeCall : Type := mkCall {
  call_number : u64;
  call_head : string;
  call_title : string;
  call_store : SharedStore;
}.

(** What VESSEL, and NEXUS after it, do outside the store. *)
Inductive Effect : Type :=
  | Merge (c : MergeCall)
  | ArchiveChat (chat : string)
  | SendChat (chat text : string)
  | CloseIssue (owner repo : string) (issue : u64)
  | StopWorkspace (workspace : string)
  | DeleteWorkspace (workspace : string)
  | WriteCiFix (branch why : string) (pr : u64)
  | Notify (ticket role why workspace_link github_link : string)
  | CreateWorkspace (template name ticket branch : string)
  | StartWorkspace (workspace : string)
  | CreateChat (workspace ticket prompt : string)
  | InterruptChat (chat : string)
  | RequestWorker (role ticket branch key : string)
  | DeleteWorker (workspace key : string)
  | CommentIssue (owner repo : string) (issue : u64) (text : string)
  | AssignIssue (owner repo : string) (issue : u64) (login : string).

(** [v_clock] counts the points at which VESSEL has waited. *)
Record VState : Type := mkVState {
  v_store : SharedStore;
  v_clock : nat;
  v_log : list Effect;
}.

Definition set_v_store (s : SharedStore) (v : VState) : VState := mkVState s (v_clock v) (v_log v).

Definition v_effect (e : Effect) : St VState unit :=
  st_modify (λ v, mkVState (v_store v) (v_clock v) (v_log v ++ [e])).

Definition v_step {A} (f : VState → result A * VState) : St VState A := f.

Definition or_err {A} (o : option A) (msg : string) : result A :=
  match o with Some a => Ok a | None => Err msg end.

(** [anyhow::ensure!] as a step. *)
Definition v_ensure (b : bool) (msg : string) : St VState unit :=
  st_lift (if b then Ok tt else Err msg).

Definition v_merge_call (pr : PrInfo) : St VState unit :=
  s ← st_gets v_store;
  v_effect (Merge (mkCall (number pr) (head_sha pr) (build_merge_commit_title pr) s)).

(** ** Outcomes *)

Inductive VesselOutcome : Type :=
  | OMerged (ticket : string) (pr : u64) (sha pr_title : string) (pr_body : option string)
  | OCiFailed (ticket : option string) (pr : u64) (why : string) (detail : option CiFailureDetail)
  | OMergeBlocked (ticket : option string) (pr : u64) (why : string)
  | OCiTimeout (ticket : option string) (pr : u64)
  | OCiMissing (ticket : option string) (pr : u64)
  | OConflicts (ticket : option string) (pr : u64) (files : list string)
  | OReviews (ticket : option string) (pr : u64) (state : string) (head : option string)
  | OUnmanaged (pr : u64) (why : string)
  | ODocsPrClosed (pr : u64) (why : string).

Definition outcome_ticket (o : VesselOutcome) : option string :=
  match o with
  | OMerged t _ _ _ _ => Some t
  | OCiFailed t _ _ _ | OMergeBlocked t _ _ | OCiTimeout t _ | OCiMissing t _ | OConflicts t _ _
  | OReviews t _ _ _ => t
  | OUnmanaged _ _ | ODocsPrClosed _ _ => None
  end.

Definition outcome_pr (o : VesselOutcome) : u64 :=
  match o with
  | OMerged _ n _ _ _ | OCiFailed _ n _ _ | OMergeBlocked _ n _ | OCiTimeout _ n | OCiMissing _ n
  | OConflicts _ n _ | OReviews _ n _ _ | OUnmanaged n _ | ODocsPrClosed n _ => n
  end.

(** What GitHub and the worktree answer while one pull request is processed. *)
Record Answers : Type := mkAnswers {
  a_pr : result PrInfo;
  a_confirmed : result (option string);
  a_approvals : result (list PrReview);
  a_rework_ci : result CiStatus;
  a_rework_reviews : result (list PrReview);
  a_rework_comments : result (list ReviewComment);
  a_docs_pr : result PrInfo;
  a_close : result unit;
  a_poll_ci : nat → result CiStatus;
  a_poll_pr : nat → result PrInfo;
  a_reviews : result (list PrReview);
  a_comments : result (list ReviewComment);
  a_recheck : result CiStatus;
  a_merge : MergeReply;
  a_failed_checks : result CiFailureDetail;
  a_conflicted : list string;
}.

Definition is_docs_pr (pr : PrInfo) : bool :=
  starts_with "lore/" (head_branch pr) || bool_decide (ticket_id pr = Some "T-DOCS").

Definition close_docs_pr_with_conflicts (close : result unit) (pr : PrInfo) : VesselOutcome :=
  match close with
  | Ok _ => ODocsPrClosed (number pr) "Merge conflicts on docs PR — closed for regeneration"
  | _ => OConflicts None (number pr) ["Docs PR could not be closed"]
  end.

Definition ci_debug (s : CiStatus) : string :=
  match s with Pending => "Pending" | Success => "Success" | Failure => "Failure" | Error => "Error" end.

(** The reason of a CI failure and what is known of it. *)
Definition ci_failure (s : CiStatus) (detail : result CiFailureDetail) : string * option CiFailureDetail :=
  match detail with
  | Ok d =>
      (match failed_checks d with
       | [] => "CI status: " +:+ ci_debug s
       | l => "CI status: " +:+ ci_debug s +:+ " — failed checks: " +:+ join ", " (fc_name <$> l)
       end, Some d)
  | _ => ("CI status: " +:+ ci_debug s, None)
  end.

Section vessel.
(** What other processes do to the store at each point where VESSEL waits, and
    the clock there. *)
Context (others : nat → SharedStore → SharedStore) (clock : nat → u64).
Context (parse_from_rfc3339 : string → option Z) (max_attempts : nat).

(** ** Store operations and requests, each a point where VESSEL waits *)

Definition v_await : St VState unit :=
  st_modify (λ v, mkVState (others (v_clock v) (v_store v)) (S (v_clock v)) (v_log v)).

Definition v_read {A} (f : SharedStore → result A) : St VState A :=
  _ ← v_await; v_step (λ v, (f (v_store v), v)).

Definition v_lifecycle (ticket : string) : St VState Lifecycle := v_read (λ s, lifecycle s ticket).

Definition v_get {A} `{Serde A} (key : string) : St VState (option A) :=
  v_read (λ s, Ok (get_typed s key)).

Definition v_write (f : SharedStore → SharedStore) : St VState unit :=
  _ ← v_await; st_modify (λ v, set_v_store (f (v_store v)) v).

Definition v_transition (ticket : string) (ver : u64) (actor : string) (e : Event) : St VState Lifecycle :=
  _ ← v_await;
  v_step (λ v,
    match transition (v_store v) ticket ver actor e (clock (v_clock v)) with
    | Ok (next, s) => (Ok next, set_v_store s v)
    | Err msg => (Err msg, v)
    | Panic => (Panic, v)
    end).

Definition v_request {A} (answer : result A) : St VState A := _ ← v_await; st_lift answer.

(** ** Merging *)

(** The end of [merge_reviewed]: what the reply does to the reservation made at
    version [ver].  An error leaves it, since the outcome may be unknown. *)
Definition settle_merge (ticket : string) (ver : u64) (merge : result MergeResult) (pr : PrInfo)
  : St VState MergeResult :=
  result ← v_request merge;
  _ ← (if merged result then
         sha ← st_lift (or_err (m_sha result) "Merge response missing SHA");
         v_transition ticket ver "vessel" (Merged (number pr) (head_sha pr) sha)
       else v_transition ticket ver "vessel" CancelMerge);
  mret result.

(** [merge_reviewed]: [ci] is the status fetched again for the head, [merge] the
    answer to the merge request. *)
Definition merge_reviewed (ci : result CiStatus) (merge : result MergeResult) (pr : PrInfo)
  : St VState MergeResult :=
  ticket ← st_lift (or_err (ticket_id pr) "PR has no ticket");
  state ← v_lifecycle ticket;
  _ ← v_ensure (merge_ready state (head_sha pr) && bool_decide (pr_number state = Some (number pr)))
        "Current head lacks lifecycle approval";
  status ← v_request ci;
  _ ← v_ensure (bool_decide (status = Success)) "CI must succeed for the candidate head";
  state ← (if merge_pending state then mret state
           else v_transition ticket (version state) "vessel" (BeginMerge (head_sha pr)));
  _ ← v_merge_call pr;
  settle_merge ticket (version state) merge pr.

(** [handle_conflicts]; the files come from the worktree or from GitHub. *)
Definition handle_conflicts (a : Answers) (pr : PrInfo) : St VState VesselOutcome :=
  if is_docs_pr pr then mret (close_docs_pr_with_conflicts (a_close a) pr)
  else
    ticket ← st_lift (or_err (ticket_id pr) "Conflict PR has no ticket");
    current ← v_lifecycle ticket;
    _ ← v_ensure (negb (merge_pending current)) "Merge outcome is still unresolved";
    _ ← v_ensure (bool_decide (phase current = Submit)) "Conflict rework requires a submitted candidate";
    _ ← v_transition ticket (version current) "vessel" (Move Building None);
    mret (OConflicts (ticket_id pr) (number pr) (a_conflicted a)).

(** What [process_single_pr] does with the answer of [merge_reviewed]. *)
Definition conclude_merge (a : Answers) (pr : PrInfo) (ticket : option string)
  (r : result MergeResult) : St VState VesselOutcome :=
  match r with
  | Ok result =>
      if merged result then
        mret (OMerged (from_option id ("T-" +:+ pretty (number pr)) ticket) (number pr)
                (from_option id "" (m_sha result)) (title pr) (body pr))
      else if is_merge_conflict_message (m_message result) then handle_conflicts a pr
      else if is_merge_refused_pending_review (m_message result) then
        mret (OReviews ticket (number pr) (monitor_as_str MNeedsReview) (Some (head_sha pr)))
      else mret (OMergeBlocked ticket (number pr) (m_message result))
  | Err e =>
      if is_merge_conflict_message e then handle_conflicts a pr
      else mret (OMergeBlocked ticket (number pr) e)
  | Panic => st_lift Panic
  end.

(** The lifecycle check before the merge; a record that cannot be read, or no
    ticket, does not hold the pull request back here. *)
Definition lifecycle_allows (ticket : option string) (h : string) : St VState bool :=
  match ticket with
  | Some t =>
      v_read (λ s, match lifecycle s t with Ok lc => Ok (merge_ready lc h) | _ => Ok true end)
  | None => mret true
  end.

(** The [CiPollResult::Status(CiStatus::Success)] arm of [process_single_pr]. *)
Definition after_green_ci (a : Answers) (pr : PrInfo) (evidence : option ReworkEvidence)
  (ticket : option string) : St VState VesselOutcome :=
  let waiting := OReviews ticket (number pr) (monitor_as_str MNeedsReview) (Some (head_sha pr)) in
  let state := classify parse_from_rfc3339 (a_reviews a) (a_comments a) pr Success evidence in
  if bool_decide (state = MConflicts) || has_conflicts pr then handle_conflicts a pr
  else if bool_decide (state = MNeedsReview) then mret waiting
  else if bool_decide (state ∈ [MChangesRequested; MComments]) then
    mret (OReviews ticket (number pr) (monitor_as_str state) (Some (head_sha pr)))
  else
    ready ← lifecycle_allows ticket (head_sha pr);
    if (ready : bool) then
      v_step (λ v, let '(r, v') := merge_reviewed (a_recheck a) (merge_pull_request (a_merge a)) pr v in
                   conclude_merge a pr ticket r v')
    else mret waiting.

Definition ci_gate (a : Answers) (pr : PrInfo) (evidence : option ReworkEvidence)
  (ticket : option string) : St VState VesselOutcome :=
  poll ← v_request (poll_until_terminal max_attempts (a_poll_ci a) (a_poll_pr a));
  match poll with
  | Status Success => after_green_ci a pr evidence ticket
  | Status s =>
      let '(why, detail) := ci_failure s (a_failed_checks a) in
      mret (OCiFailed ticket (number pr) why detail)
  | Conflicting => handle_conflicts a pr
  | Timeout => mret (OCiTimeout ticket (number pr))
  end.

Definition process_single_pr (a : Answers) (pr : PrInfo) (evidence : option ReworkEvidence)
  : St VState VesselOutcome :=
  let ticket := if is_docs_pr pr then Some "T-DOCS" else ticket_id pr in
  if is_docs_pr pr then
    if has_conflicts pr then mret (close_docs_pr_with_conflicts (a_close a) pr)
    else if is_none (mergeable pr) then
      fresh ← v_request (a_docs_pr a);
      if has_conflicts fresh then mret (close_docs_pr_with_conflicts (a_close a) fresh)
      else ci_gate a pr evidence ticket
    else ci_gate a pr evidence ticket
  else ci_gate a pr evidence ticket.
End vessel.
