(* ===== verification/ReviewProps.v ===== *)
(** * Properties of review aggregation, CI status and polling *)
From Stdlib Require Import String.
From S2P Require Import Prelude Text Review Vessel.

(** ** CI *)

Lemma aggregate_success a b :
  aggregate_ci_sources a b = Success ↔
  (a ≠ None ∨ b ≠ None) ∧ (∀ s, a = Some s → s = Success) ∧ (∀ s, b = Some s → s = Success).
Proof.
  split.
  - intros H. destruct a as [[]|], b as [[]|]; try discriminate H;
      (split; [(by left) || (by right)|split; intros s Hs; by simplify_eq]).
  - intros (Hs & H1 & H2). destruct a as [a|]; [rewrite (H1 a eq_refl)|];
      (destruct b as [b|]; [rewrite (H2 b eq_refl)|]); try reflexivity. by destruct Hs.
Qed.

Lemma suites_success l st :
  fold_left (λ st suite, aggregate_ci_sources (Some st) (Some (suite_status suite))) l st = Success ↔
  st = Success ∧ ∀ x, x ∈ l → suite_status x = Success.
Proof.
  revert st; induction l as [|x l IH]; intros st; cbn.
  - split; [|tauto]. intros ->. split; [done|]. by intros x ?%elem_of_nil.
  - rewrite IH, aggregate_success. split.
    + intros [(_ & H1 & H2) H3]. split; [auto|]. intros y [->|Hy]%elem_of_cons; auto.
    + intros [-> H]. split; [split; [by left|split; intros ? [= <-]; [done|apply H; by left]]|].
      intros y Hy. apply H. by right.
Qed.

(** CI counts as green only on evidence: no check suite that counts is failing
    or unfinished, the combined commit status, when there is one, is a success,
    and at least one of the two exists.  Suites without runs of apps known not to
    report are the only ones left out. *)
Theorem green_ci_needs_evidence ignored combined suites :
  get_ci_status ignored combined suites = Ok Success →
  ∃ all, suites = Ok all ∧
    (∀ x, x ∈ all → is_ghost_check_suite ignored x = false →
       cs_status x = "completed" ∧ ∃ c, cs_conclusion x = Some c ∧ c ∈ ["success"; "neutral"; "skipped"]) ∧
    (∀ state total, combined = Ok (state, total) → (0 < total)%N → to_lowercase state = "success") ∧
    ((∃ state total, combined = Ok (state, total) ∧ (0 < total)%N) ∨
     ∃ x, x ∈ all ∧ is_ghost_check_suite ignored x = false).
Proof.
  unfold get_ci_status. intros H. apply result_bind_Ok in H as (c & Hc & H).
  apply result_bind_Ok in H as (all & -> & H). injection H as H. exists all. split; [done|].
  apply aggregate_success in H as (Hsome & H1 & H2).
  set (real := List.filter _ all) in *.
  assert (∀ x, x ∈ real ↔ x ∈ all ∧ is_ghost_check_suite ignored x = false) as Hreal.
  { intros x. unfold real. by rewrite list_elem_of_In, filter_In, <- list_elem_of_In, negb_true_iff. }
  unfold suites_status in *. split_and!.
  - intros x Hx Hg. case_bool_decide as Hl.
    + exfalso. assert (x ∈ real) as Hr by (by apply Hreal). by destruct real; [apply elem_of_nil in Hr|].
    + specialize (H2 _ eq_refl). apply suites_success in H2 as [_ H2].
      specialize (H2 x ltac:(by apply Hreal)). unfold suite_status in H2.
      destruct (negb _) eqn:E; [done|]. apply negb_false_iff, bool_decide_eq_true in E. split; [done|].
      destruct (cs_conclusion x) as [k|]; [|done]. exists k. split; [done|].
      case_bool_decide; [done|]. by case_bool_decide.
  - intros state total -> Ht. apply N.ltb_lt in Ht. rewrite Ht in Hc. injection Hc as <-.
    specialize (H1 _ eq_refl). unfold map_status_state in H1. by repeat case_bool_decide.
  - destruct Hsome as [Hs|Hs].
    + left. destruct combined as [[state total]|msg|]; [|destruct (is_status_api_forbidden msg); congruence|done].
      exists state, total. split; [done|]. apply N.ltb_lt, not_false_iff_true. intros Ht.
      rewrite Ht in Hc. congruence.
    + right. case_bool_decide as Hl; [done|]. destruct real as [|x l] eqn:Er; [done|].
      exists x. apply Hreal. by left.
Qed.

Lemma green_ci_needs_evidence_witness :
  let ghost := mkSuite "queued" None (Some 0%N) (Some (mkApp (Some "devin-ai") None)) in
  let good := mkSuite "completed" (Some "success") (Some 2%N) None in
  get_ci_status None (Ok ("pending", 0%N)) (Ok [ghost; good]) = Ok Success ∧
  ∃ all, Ok [ghost; good] = Ok all ∧
    ((∃ state total, Ok ("pending", 0%N) = Ok (state, total) ∧ (0 < total)%N) ∨
     ∃ x, x ∈ all ∧ is_ghost_check_suite None x = false).
Proof.
  intros ghost good. assert (get_ci_status None (Ok ("pending", 0%N)) (Ok [ghost; good]) = Ok Success) as H
    by (vm_compute; reflexivity).
  split; [exact H|]. destruct (green_ci_needs_evidence _ _ _ H) as (all & E & _ & _ & He).
  exists all. split; [exact E|exact He].
Defined.

(** ** The poll loop *)

(** What attempt [i] decides, if anything: a terminal status, a conflict on every
    third attempt, or a failed request. *)
Definition attempt (ci : nat → result CiStatus) (fresh : nat → result PrInfo) (i : nat)
  : option (result CiPollResult) :=
  match ci i with
  | Ok s =>
      if Review.is_terminal s then Some (Ok (Status s))
      else if bool_decide (i mod MERGEABLE_CHECK_INTERVAL = 0) then
        match fresh i with
        | Ok pr => if bool_decide (mergeable pr = Some false) then Some (Ok Conflicting) else None
        | Err e => Some (Err e)
        | Panic => Some Panic
        end
      else None
  | Err e => Some (Err e)
  | Panic => Some Panic
  end.

Lemma poll_loop_step ci fresh todo i :
  poll_loop ci fresh (S todo) i =
  match attempt ci fresh i with Some r => r | None => poll_loop ci fresh todo (S i) end.
Proof.
  cbn [poll_loop]. unfold attempt. destruct (ci i) as [s|e|]; cbn [mbind result_bind]; [|done..].
  destruct (Review.is_terminal s); [done|]. case_bool_decide; [|done].
  destruct (fresh i) as [pr|e|]; cbn [mbind result_bind]; [|done..]. by case_bool_decide.
Qed.

Lemma poll_loop_spec ci fresh todo i :
  (∃ j r, i ≤ j < i + todo ∧ attempt ci fresh j = Some r ∧
     (∀ k, i ≤ k < j → attempt ci fresh k = None) ∧ poll_loop ci fresh todo i = r) ∨
  ((∀ k, i ≤ k < i + todo → attempt ci fresh k = None) ∧ poll_loop ci fresh todo i = Ok Timeout).
Proof.
  revert i; induction todo as [|todo IH]; intros i; [right; split; [lia|done]|].
  rewrite poll_loop_step. destruct (attempt ci fresh i) as [r|] eqn:E.
  - left. exists i, r. split_and!; [lia|lia|done|lia|done].
  - destruct (IH (S i)) as [(j & r & Hj & Ha & Hn & Hr)|[Hn Hr]].
    + left. exists j, r. split_and!; [lia|lia|done| |done].
      intros k Hk. destruct (decide (k = i)) as [->|]; [done|]. apply Hn. lia.
    + right. split; [|done]. intros k Hk. destruct (decide (k = i)) as [->|]; [done|]. apply Hn. lia.
Qed.

(** Polling always ends: within the configured number of attempts it answers
    with what the first decisive attempt says (a terminal status, a conflict, or
    a failed request) and with a timeout exactly when no attempt is decisive; it
    never reports a pending status. *)
Theorem polling_ends_at_the_first_decisive_attempt max_attempts ci fresh :
  ((∃ j r, j < max_attempts ∧ attempt ci fresh j = Some r ∧
      (∀ k, k < j → attempt ci fresh k = None) ∧ poll_until_terminal max_attempts ci fresh = r) ∨
   ((∀ k, k < max_attempts → attempt ci fresh k = None) ∧
    poll_until_terminal max_attempts ci fresh = Ok Timeout)) ∧
  poll_until_terminal max_attempts ci fresh ≠ Ok (Status Pending).
Proof.
  unfold poll_until_terminal.
  destruct (poll_loop_spec ci fresh max_attempts 0) as [(j & r & Hj & Ha & Hn & Hr)|[Hn Hr]].
  - split; [left; exists j, r; split_and!; [lia|done| |done]; intros k Hk; apply Hn; lia|].
    rewrite Hr. unfold attempt in Ha. intros ->. by repeat case_match; simplify_eq.
  - split; [right; split; [|done]; intros k Hk; apply Hn; lia|]. by rewrite Hr.
Qed.

(** ** The latest review of each reviewer *)

(** The reviews of one reviewer, and what remains of them: read in order, the
    first is kept until one supersedes it. *)
Definition reviews_of (u : string) (reviews : list PrReview) : list PrReview :=
  filter (λ r, r_user r = Some u) reviews.

Definition keep (acc : option PrReview) (r : PrReview) : option PrReview :=
  Some (match acc with Some e => if supersedes e r then r else e | None => r end).

Definition latest_of (u : string) (reviews : list PrReview) : option PrReview :=
  fold_left keep (reviews_of u reviews) None.

Definition entry_of (u : string) (l : list PrReview) : option PrReview :=
  snd <$> list_find (λ r, r_user r = Some u) l.

Lemma entry_of_cons u r l :
  entry_of u (r :: l) = if bool_decide (r_user r = Some u) then Some r else entry_of u l.
Proof.
  unfold entry_of. cbn. case_decide; case_bool_decide; try done.
  by destruct (list_find _ l) as [[]|].
Qed.

Lemma entry_of_place u v review l :
  r_user review = Some v →
  entry_of u (place v review l) =
  if bool_decide (u = v) then keep (entry_of u l) review else entry_of u l.
Proof.
  intros Hr. induction l as [|r l IH]; cbn [place].
  - rewrite entry_of_cons, Hr. repeat case_bool_decide; simplify_eq; done.
  - destruct (decide (r_user r = Some v)) as [Hv|Hv].
    + rewrite (bool_decide_true _ Hv).
      destruct (supersedes r review) eqn:Es; rewrite !entry_of_cons, ?Hr, Hv;
        repeat case_bool_decide; simplify_eq; unfold keep; by rewrite ?Es.
    + rewrite (bool_decide_false _ Hv), !entry_of_cons, IH. repeat case_bool_decide; simplify_eq; done.
Qed.

Lemma fold_note u reviews l :
  u ≠ "" →
  entry_of u (fold_left note reviews l) = fold_left keep (reviews_of u reviews) (entry_of u l).
Proof.
  intros Hu. revert l; induction reviews as [|r reviews IH]; intros l; [done|].
  cbn [fold_left]. rewrite IH. unfold reviews_of. rewrite filter_cons. unfold note.
  destruct (r_user r) as [v|] eqn:Hr; [|by rewrite decide_False].
  destruct (is_empty v) eqn:Hv.
  - destruct v; [|done]. rewrite decide_False; [done|]. congruence.
  - rewrite (entry_of_place u v r l Hr). case_bool_decide as E.
    + subst. by rewrite decide_True.
    + rewrite decide_False; [done|]. congruence.
Qed.

Lemma place_users v review l :
  r_user review = Some v →
  r_user <$> place v review l =
  if bool_decide (Some v ∈ r_user <$> l) then r_user <$> l else (r_user <$> l) ++ [Some v].
Proof.
  intros Hr. induction l as [|r l IH]; cbn [place].
  - cbn. by rewrite Hr.
  - rewrite (bool_decide_ext (Some v ∈ r_user <$> r :: l) (r_user r = Some v ∨ Some v ∈ r_user <$> l))
      by (rewrite fmap_cons, elem_of_cons; naive_solver).
    rewrite bool_decide_or. destruct (decide (r_user r = Some v)) as [Hv|Hv].
    + rewrite (bool_decide_true _ Hv). cbn [orb]. rewrite !fmap_cons.
      by destruct (supersedes r review); rewrite ?Hr, ?Hv.
    + rewrite (bool_decide_false _ Hv). cbn [orb]. rewrite !fmap_cons, IH. by case_bool_decide.
Qed.

Lemma note_users l r :
  NoDup (r_user <$> l) ∧ Forall (λ o, o ≠ None) (r_user <$> l) →
  NoDup (r_user <$> note l r) ∧ Forall (λ o, o ≠ None) (r_user <$> note l r).
Proof.
  intros [HN HF]. unfold note. destruct (r_user r) as [v|] eqn:Hr; [|done].
  destruct (is_empty v); [done|]. rewrite (place_users v r l Hr). case_bool_decide; [done|].
  split; [apply NoDup_app; split_and!; [done| |apply NoDup_singleton]|].
  - intros x Hx ->%list_elem_of_singleton. done.
  - apply Forall_app. split; [done|]. by apply Forall_singleton.
Qed.

Lemma latest_users reviews :
  NoDup (r_user <$> latest_review_per_user reviews) ∧
  Forall (λ o, o ≠ None) (r_user <$> latest_review_per_user reviews).
Proof.
  unfold latest_review_per_user.
  assert (∀ l, NoDup (r_user <$> l) ∧ Forall (λ o, o ≠ None) (r_user <$> l) →
    NoDup (r_user <$> fold_left note reviews l) ∧ Forall (λ o, o ≠ None) (r_user <$> fold_left note reviews l))
    as H.
  { induction reviews as [|r reviews IH]; intros l Hl; [done|]. apply IH. by apply note_users. }
  apply H. cbn. split; constructor.
Qed.

(** Text order. *)
Lemma string_leb_cons x a y b :
  String.leb (String x a) (String y b) =
  match (Ascii.N_of_ascii x ?= Ascii.N_of_ascii y)%N with
  | Eq => String.leb a b | Lt => true | Gt => false
  end.
Proof. unfold String.leb. cbn. unfold Ascii.compare. by destruct (_ ?= _)%N. Qed.

Lemma string_leb_refl a : String.leb a a = true.
Proof. induction a as [|x a IH]; [done|]. by rewrite string_leb_cons, N.compare_refl. Qed.

Lemma string_leb_trans a b c : String.leb a b = true → String.leb b c = true → String.leb a c = true.
Proof.
  revert b c; induction a as [|x a IH]; intros [|y b] [|z c]; try done. rewrite !string_leb_cons.
  destruct (N.compare_spec (Ascii.N_of_ascii x) (Ascii.N_of_ascii y)) as [E1|L1|G1]; [| |done];
    (destruct (N.compare_spec (Ascii.N_of_ascii y) (Ascii.N_of_ascii z)) as [E2|L2|G2]; [| |done]);
    intros Ha Hb; destruct (N.compare_spec (Ascii.N_of_ascii x) (Ascii.N_of_ascii z)); try lia; eauto.
Qed.

Lemma string_ltb_leb a b : String.ltb a b = true → String.leb a b = true.
Proof. unfold String.ltb, String.leb. by destruct (String.compare a b). Qed.

Lemma string_ltb_false a b : String.ltb a b = false → String.leb b a = true.
Proof.
  unfold String.ltb, String.leb. rewrite (String.compare_antisym b a). by destruct (String.compare a b).
Qed.

(** [e] carries a verdict at least as late as [r]'s. *)
Definition covers (e r : PrReview) : Prop :=
  has_verdict r = true →
  has_verdict e = true ∧
  ∀ t, r_submitted_at r = Some t → ∃ t', r_submitted_at e = Some t' ∧ String.leb t t' = true.

Lemma covers_refl e : covers e e.
Proof. intros H. split; [done|]. intros t Ht. exists t. eauto using string_leb_refl. Qed.

Lemma covers_trans a b c : covers a b → covers b c → covers a c.
Proof.
  intros H1 H2 Hc. destruct (H2 Hc) as [Hb H3]. destruct (H1 Hb) as [Ha H4]. split; [done|].
  intros t Ht. destruct (H3 t Ht) as (t1 & E1 & L1). destruct (H4 t1 E1) as (t2 & E2 & L2).
  eauto using string_leb_trans.
Qed.

Lemma supersedes_covers e r :
  let x := if supersedes e r then r else e in covers x e ∧ covers x r.
Proof.
  cbv zeta. unfold supersedes, is_newer, covers.
  destruct (has_verdict e) eqn:He, (has_verdict r) eqn:Hr;
    destruct (r_submitted_at e) as [te|] eqn:Te, (r_submitted_at r) as [tr|] eqn:Tr;
    try destruct (String.ltb te tr) eqn:L;
    rewrite ?He, ?Hr, ?Te, ?Tr; split; intros ?; try done;
    (split; [done|]); intros t ?; simplify_eq; eexists; (split; [done|]);
    eauto using string_leb_refl, string_ltb_leb, string_ltb_false.
Qed.

Lemma fold_keep_covers l : ∀ acc e,
  fold_left keep l acc = Some e →
  (acc = Some e ∨ e ∈ l) ∧ ∀ r, acc = Some r ∨ r ∈ l → covers e r.
Proof.
  induction l as [|r l IH]; intros acc e H; cbn in H.
  - subst. split; [by left|]. intros r [[= <-]|Hr]; [apply covers_refl|by apply elem_of_nil in Hr].
  - apply IH in H as [Hin Hc]. destruct acc as [e0|]; unfold keep in *.
    + destruct (supersedes_covers e0 r) as [C1 C2]. split.
      * destruct Hin as [Hin|Hin]; [|right; by right]. destruct (supersedes e0 r); simplify_eq;
          [right; by left|by left].
      * intros r' [[= <-]|[->|Hr]%elem_of_cons];
          [eapply covers_trans; [apply Hc; by left|done]..|]. apply Hc. by right.
    + split; [destruct Hin as [Hin|]; [simplify_eq; right; by left|right; by right]|].
      intros r' [|[->|Hr]%elem_of_cons]; [done| |]; apply Hc; [by left|by right].
Qed.

Lemma fold_keep_is_some l : ∀ o, is_Some o → is_Some (fold_left keep l o).
Proof. induction l as [|y l IH]; intros o Ho; [done|]. cbn. apply IH. by eexists. Qed.

(** C35. The aggregation keeps exactly one review per reviewer, the one that the
    reviewer's reviews, read in order, leave standing; if the reviewer ever gave a
    verdict it is a verdict of theirs, no later comment hides it, and no dated
    verdict of theirs is later. *)
Theorem latest_review_per_user_spec reviews u :
  u ≠ "" →
  NoDup (r_user <$> latest_review_per_user reviews) ∧
  entry_of u (latest_review_per_user reviews) = latest_of u reviews ∧
  ∀ r, r ∈ reviews → r_user r = Some u →
    ∃ e, latest_of u reviews = Some e ∧ e ∈ reviews ∧ r_user e = Some u ∧ covers e r.
Proof.
  intros Hu. split; [apply latest_users|]. split; [exact (fold_note u reviews [] Hu)|].
  intros r Hr Hru. assert (r ∈ reviews_of u reviews) as Hin by (by apply list_elem_of_filter).
  destruct (latest_of u reviews) as [e|] eqn:E.
  - exists e. split; [done|]. apply fold_keep_covers in E as [[?|He] Hc]; [done|].
    apply list_elem_of_filter in He as [? ?]. split_and!; auto.
  - exfalso. unfold latest_of in E. destruct (reviews_of u reviews) as [|x l]; [by apply elem_of_nil in Hin|].
    destruct (fold_keep_is_some l (Some x)) as [y Hy]; [done|]. cbn in E. unfold keep at 2 in E. congruence.
Qed.

Lemma latest_review_per_user_spec_witness :
  let verdict := mkReview "CHANGES_REQUESTED" (Some "bob") (Some "2026-01-01") None None None in
  let comment := mkReview "COMMENTED" (Some "bob") (Some "2026-01-02") None None None in
  ∃ e, latest_of "bob" [verdict; comment] = Some e ∧ covers e verdict ∧ state_enum e = ChangesRequested.
Proof.
  intros verdict comment.
  destruct (proj2 (proj2 (latest_review_per_user_spec [verdict; comment] "bob" ltac:(done)))
    verdict ltac:(by left) eq_refl) as (e & He & _ & _ & Hc).
  exists e. split; [exact He|]. split; [exact Hc|].
  assert (latest_of "bob" [verdict; comment] = Some verdict) as E by (vm_compute; reflexivity).
  rewrite E in He. injection He as <-. reflexivity.
Defined.
