(* ===== verification/VesselQueue.v ===== *)
(** * VESSEL: approvals, the queue and start-up

    Models of [src/crates/agent-vessel/src/node.rs]: the rework evidence and
    counters kept in the store, [check_pr_needs_rework],
    [reconcile_github_approval], the loop of [exec], the queue [prep] hands to it
    and the loop of [reconcile]. *)
From Stdlib Require Import String.
From S2P Require Import Prelude Text Json ValueCodec Lifecycle LifecycleCodec Store Tickets Review Vessel.

(** ** Reading a queue entry *)

(** [value[key]]: null when it is missing. *)
Definition index (key : string) (v : Value) : Value := from_option id VNull (Json.get key v).

Definition entry_number (pr : Value) : option u64 := as_u64 (index "number" pr).

Definition find_entry (n : u64) (prs : list Value) : option Value :=
  snd <$> list_find (λ p, entry_number p = Some n) prs.

(** ** Choosing the approver *)

Definition opt_str_leb (a b : option string) : bool :=
  match a, b with
  | None, _ => true
  | Some _, None => false
  | Some x, Some y => String.leb x y
  end.

(** [Iterator::max_by] on the submission time: the last of the latest. *)
Definition max_by_submitted (l : list PrReview) : option PrReview :=
  match l with
  | [] => None
  | r :: l =>
      Some (fold_left (λ best x, if opt_str_leb (r_submitted_at best) (r_submitted_at x) then x else best) l r)
  end.

(** ** The queue *)

(** [prep]: the snapshot of the controller, with the pending entries whose ticket
    has reached submit since; without a snapshot all pending entries. *)
Definition value_eqb (a b : Value) : bool := bool_decide (a = b).

Definition prep_step (s : SharedStore) (effective : list Value) (pr : Value) : list Value :=
  if existsb (λ m, value_eqb (index "number" m) (index "number" pr)) effective then effective
  else
    match lifecycle s (from_option id "" (as_str (index "ticket_id" pr))) with
    | Ok lc => if bool_decide (phase lc = Submit) then effective ++ [pr] else effective
    | _ => effective
    end.

Definition effective_queue (s : SharedStore) (pending : list Value) (snapshot : option (list Value))
  : list Value :=
  match snapshot with
  | Some snapshot => fold_left (prep_step s) pending snapshot
  | None => pending
  end.

Section queue.
Context (others : nat → SharedStore → SharedStore) (clock : nat → u64).
Context (parse_from_rfc3339 : string → option Z) (max_attempts : nat).

Local Notation v_lifecycle := (v_lifecycle others).
Local Notation v_get := (v_get others).
Local Notation v_write := (v_write others).
Local Notation v_request := (v_request others).
Local Notation v_transition := (v_transition others clock).

(** ** Counters and evidence *)

Definition get_rework_evidence (n : u64) : St VState (option ReworkEvidence) :=
  sha ← v_get (address_review_dispatched_key n);
  at_ ← v_get (address_review_dispatched_at_key n);
  mret (if is_some sha || is_some at_ then Some (mkEvidence sha at_) else None).

Definition reset_address_review_attempts (n : u64) : St VState unit :=
  v_write (λ s, set s (address_review_attempts_key n) (VPosInt 0)).

Definition clear_address_review_dispatched (n : u64) : St VState unit :=
  _ ← v_write (λ s, del s (address_review_dispatched_key n));
  v_write (λ s, del s (address_review_dispatched_at_key n)).

Definition remove_from_pending_prs (n : u64) : St VState unit :=
  pending ← v_get KEY_PENDING_PRS;
  let pending : list Value := from_option id [] pending in
  v_write (λ s, set s KEY_PENDING_PRS
    (VArray (List.filter (λ pr, negb (bool_decide (entry_number pr = Some n))) pending))).

(** ** Rework *)

Definition check_pr_needs_rework (a : Answers) (pr : PrInfo) (evidence : option ReworkEvidence) : bool :=
  if has_conflicts pr || bool_decide (mergeable pr = Some false) then true
  else if bool_decide (ok (a_rework_ci a) ∈ [Some Failure; Some Error]) then true
  else
    let applicable :=
      applicable_reviews parse_from_rfc3339 (or_none (a_rework_reviews a)) (head_sha pr) evidence in
    let review_state := candidate_review_state applicable (head_sha pr) in
    if bool_decide (review_state = ChangesRequested) then true
    else if negb (bool_decide (review_state = Approved)) then
      unaddressed parse_from_rfc3339 (or_none (a_rework_comments a)) (head_sha pr) evidence
    else false.

(** ** Approvals *)

Definition clear_awaiting (ticket : string) (t : Ticket) : Ticket :=
  match tk_status t with
  | AwaitingHuman _ _ _ => if bool_decide (tk_id t = ticket) then set_status (InProgress "vessel") t else t
  | _ => t
  end.

Definition is_awaiting (ticket : string) (t : Ticket) : bool :=
  bool_decide (tk_id t = ticket) && match tk_status t with AwaitingHuman _ _ _ => true | _ => false end.

(** The tail of [reconcile_github_approval]: a ticket waiting for a human goes on. *)
Definition resume_ticket (ticket : string) : St VState unit :=
  tickets ← v_get KEY_TICKETS;
  let tickets : list Ticket := from_option id [] tickets in
  if existsb (is_awaiting ticket) tickets then
    v_write (λ s, set s KEY_TICKETS (to_value (clear_awaiting ticket <$> tickets)))
  else mret tt.

(** The verdicts [reconcile_github_approval] records: the human one, SENTINEL's if
    it is missing, and the delivery of the review. *)
Definition record_approval (ticket approver report : string) (cur : Lifecycle) : St VState Lifecycle :=
  cur ← (if is_none (pr_human cur) then
           v_transition ticket (version cur) "human"
             (Decide (review_round cur) Submit true report (revision cur) (head cur))
         else mret cur);
  cur ← (if is_none (pr_decision cur) then
           v_transition ticket (version cur) "sentinel"
             (Decide (review_round cur) Submit true
                ("Satisfied by verified testing review and GitHub approval by " +:+ approver)
                (revision cur) (head cur))
         else mret cur);
  if is_some (pr_delivery cur) then
    v_transition ticket (version cur) "sentinel" (ReviewDelivered (review_round cur))
  else mret cur.

(** The approver of exactly [h], unless a change request is open: what
    [reconcile_github_approval] takes from GitHub's reviews. *)
Definition approver_of (reviews : list PrReview) (h : string) (evidence : option ReworkEvidence)
  : option string :=
  let applicable := applicable_reviews parse_from_rfc3339 reviews h evidence in
  if existsb (λ r, bool_decide (state_enum r = ChangesRequested)) applicable then None
  else max_by_submitted (List.filter (λ r, is_authorized_head_approval r h) applicable) ≫= r_user.

Definition relies_on_rework_evidence (reviews : list PrReview) (h : string)
  (evidence : option ReworkEvidence) : bool :=
  negb (bool_decide (length (applicable_reviews parse_from_rfc3339 reviews h evidence)
                     = length (latest_review_per_user reviews))).

Definition reconcile_github_approval (reviews : result (list PrReview)) (ticket : string)
  (state : Lifecycle) (n : u64) (h : string) (evidence : option ReworkEvidence) : St VState bool :=
  if negb (bool_decide (phase state = Submit)) || (is_some (pr_human state) && is_some (pr_decision state))
  then mret false
  else
    match reviews with
    | Panic => st_lift Panic
    | Err _ => mret false
    | Ok reviews =>
        match approver_of reviews h evidence with
        | None => mret false
        | Some approver =>
            current ← v_lifecycle ticket;
            if (is_some (pr_human current) && is_some (pr_decision current))
               || negb (bool_decide (head current = Some h)) then mret false
            else if is_none (pr_decision current) && negb (is_some_and d_approved (test_decision current))
            then mret false
            else
              _ ← record_approval ticket approver
                    ("Approved on GitHub by " +:+ approver +:+ " at " +:+ h) current;
              _ ← reset_address_review_attempts n;
              _ ← (if relies_on_rework_evidence reviews h evidence then mret tt
                   else clear_address_review_dispatched n);
              _ ← resume_ticket ticket;
              mret true
        end
    end.

(** ** Processing the queue *)

Definition set_ticket_id (t : option string) (pr : PrInfo) : PrInfo :=
  mkPr (number pr) (head_sha pr) (head_branch pr) (base_branch pr) t (title pr) (body pr) (mergeable pr).

(** The end of a round of the loop: the approval gate, then [process_single_pr]. *)
Definition exec_candidate (a : Answers) (ticket : string) (state : Lifecycle) (n : u64) (pr : PrInfo)
  : St VState (option VesselOutcome) :=
  evidence ← get_rework_evidence n;
  proceed ←
    (if merge_ready state (head_sha pr) then mret true
     else
       reconciled ← reconcile_github_approval (a_approvals a) ticket state n (head_sha pr) evidence;
       ready ← (if (reconciled : bool) then
                  lc ← v_lifecycle ticket; mret (merge_ready lc (head_sha pr))
                else mret false);
       mret ((ready : bool) || check_pr_needs_rework a pr evidence));
  if (proceed : bool) then
    o ← process_single_pr others clock parse_from_rfc3339 max_attempts a pr evidence;
    mret (Some o)
  else mret None.

(** A round of the loop of [exec] after the pull request has been fetched. *)
Definition exec_ticket (a : Answers) (ticket : string) (n : u64) (pr : PrInfo)
  : St VState (option VesselOutcome) :=
  state ← v_lifecycle ticket;
  confirmed ← v_request (a_confirmed a);
  match confirmed with
  | Some sha =>
      _ ← (if bool_decide (phase state = Done) then mret state
           else v_transition ticket (version state) "vessel" (ReconcileMerged n sha));
      mret (Some (OMerged ticket n sha (title pr) (body pr)))
  | None =>
      if merge_pending state then mret None
      else if negb (bool_decide (phase state = Submit)) then mret None
      else if negb (bool_decide (head state = Some (head_sha pr))) then
        _ ← v_transition ticket (version state) "vessel" (Move Building None);
        mret None
      else exec_candidate a ticket state n pr
  end.

Definition exec_one (entry : Value) (a : Answers) : St VState (option VesselOutcome) :=
  let n := from_option id 0%N (entry_number entry) in
  if bool_decide (n = 0%N) then mret None
  else
    match a_pr a with
    | Panic => st_lift Panic
    | Err _ => mret None
    | Ok pr =>
        let ticket :=
          match as_str (index "ticket_id" entry) with Some t => Some t | None => ticket_id pr end in
        match ticket with
        | Some t =>
            if is_blank t then
              mret (Some (OUnmanaged n "PR has no lifecycle ticket; manual review and merge required"))
            else exec_ticket a t n (set_ticket_id (Some t) pr)
        | None => mret (Some (OUnmanaged n "PR has no lifecycle ticket; manual review and merge required"))
        end
    end.

(** The loop of [exec]: a [?] inside a round ends the whole batch. *)
Fixpoint exec (queue : list (Value * Answers)) : St VState (list VesselOutcome) :=
  match queue with
  | [] => mret []
  | (entry, a) :: queue =>
      o ← exec_one entry a;
      os ← exec queue;
      mret (match o with Some o => o :: os | None => os end)
  end.

(** ** Start-up *)

Definition emit_ticket_merged (ticket : string) (n : u64) (sha pr_title : string)
  (pr_body : option string) : St VState unit :=
  _ ← v_await others;
  st_modify (λ v, set_v_store
    (emit (v_store v) "vessel" "ticket_merged"
       (VObject [("ticket_id", to_value ticket); ("pr_number", to_value n); ("sha", to_value sha);
                 ("pr_title", to_value pr_title); ("pr_body", to_value pr_body)])
       (clock (v_clock v))) v).

Definition reconcile_one (entry : Value) (a : Answers) : St VState unit :=
  let n := from_option id 0%N (entry_number entry) in
  if bool_decide (n = 0%N) then mret tt
  else
    confirmed ← v_request (a_confirmed a);
    match confirmed, a_pr a with
    | Some sha, Ok pr =>
        let tid :=
          match as_str (index "ticket_id" entry), ticket_id pr with
          | Some t, _ => t
          | None, Some t => t
          | None, None => "T-" +:+ pretty n
          end in
        _ ← emit_ticket_merged tid n (head_sha pr) (title pr) None;
        state ← v_lifecycle tid;
        _ ← (if bool_decide (phase state = Done) then mret state
             else v_transition tid (version state) "vessel" (ReconcileMerged n sha));
        remove_from_pending_prs n
    | Some _, Panic => st_lift Panic
    | _, _ => mret tt
    end.

(** The loop of [reconcile]. *)
Fixpoint reconcile_pending (pending : list (Value * Answers)) : St VState unit :=
  match pending with
  | [] => mret tt
  | (entry, a) :: pending => _ ← reconcile_one entry a; reconcile_pending pending
  end.
End queue.
