(* ===== verification/VesselFacts.v ===== *)
(** * VESSEL: merging under interference

    Other processes may change ticket records whenever VESSEL waits.  [rely] is
    what they keep to: a record only changes by transitions of actors other than
    VESSEL, of which there are fewer than 2^32 in one wait. *)
From S2P Require Import Prelude Text Json Lifecycle LifecycleFacts LifecycleProps LifecycleCodec Store.
From S2P Require Import StoreProps Tickets Review Hoare Vessel VesselQueue.

(** ** Steps of others *)

Definition other_step (lc lc' : Lifecycle) : Prop :=
  ∃ actor e now, to_lowercase actor ≠ "vessel" ∧ apply lc actor e now = Ok lc'.

Definition WAIT : N := 4294967296.

Definition rely (f : SharedStore → SharedStore) : Prop :=
  ∀ s t, match lifecycle s t with
         | Ok lc => ∃ k lc', (N.of_nat k < WAIT)%N ∧ nsteps other_step k lc lc' ∧ lifecycle (f s) t = Ok lc'
         | r => lifecycle (f s) t = r
         end.

Definition store_ok (s : SharedStore) : Prop := ∀ t lc, lifecycle s t = Ok lc → reachable lc.

Lemma other_steps_reachable k lc lc' : nsteps other_step k lc lc' → reachable lc → reachable lc'.
Proof. induction 1 as [|k x y z (a & e & now & _ & H)]; eauto using reachable_step. Qed.

Lemma rely_store_ok f s : rely f → store_ok s → store_ok (f s).
Proof.
  intros Hf Hs t lc' H. specialize (Hf s t). destruct (lifecycle s t) as [lc|e|] eqn:E.
  - destruct Hf as (k & lc1 & _ & Hk & H'). rewrite H in H'. simplify_eq.
    eauto using other_steps_reachable.
  - by rewrite H in Hf.
  - by rewrite H in Hf.
Qed.

(** A reservation outlives every step of the others. *)
Lemma pending_stable k lc lc' :
  nsteps other_step k lc lc' → reachable lc → merge_pending lc = true → lc' = lc.
Proof.
  induction 1 as [|k x y z (a & e & now & Ha & H) Hn IH]; intros HR Hm; [done|].
  exfalso. apply Ha. pose proof (reachable_Inv _ HR) as HI.
  apply apply_Ok in H as (_ & [Hm'|He] & H); [by rewrite Hm' in Hm|].
  destruct H as [[H _]|(next & H & _)]; destruct e; try discriminate He; simpl in H;
    apply result_fmap_Ok in H as (? & H & E); try discriminate E;
    unfold apply_cancel_merge, apply_reconcile_merged, apply_merged in H; by handler_inv H.
Qed.

(** Fewer than 2^64 steps that lead back to the same version lead nowhere. *)
Lemma version_steps k lc lc' :
  nsteps other_step k lc lc' →
  lc' = lc ∨ ∃ j, (0 < j ≤ N.of_nat k)%N ∧ version lc' = ((version lc + j) mod U64_MOD)%N.
Proof.
  induction 1 as [|k x y z (a & e & now & _ & H) Hn IH]; [by left|].
  apply apply_version in H as [->|Hy].
  - destruct IH as [->|(j & Hj & E)]; [by left|]. right. exists j. split; [lia|done].
  - right. unfold u64_succ in Hy. destruct IH as [->|(j & Hj & E)].
    + exists 1%N. split; [lia|done].
    + exists (j + 1)%N. split; [lia|]. rewrite E, Hy, N.Div0.add_mod_idemp_l. f_equal. lia.
Qed.

Lemma version_stable k lc lc' :
  nsteps other_step k lc lc' → (N.of_nat k < U64_MOD)%N → version lc' = version lc → lc' = lc.
Proof.
  intros H Hk Hv. destruct (version_steps _ _ _ H) as [->|(j & Hj & E)]; [done|exfalso].
  rewrite Hv in E. pose proof (N.mod_lt (version lc + j) U64_MOD ltac:(done)) as L. rewrite <- E in L.
  pose proof (N.Div0.div_mod (version lc + j) U64_MOD) as D. rewrite <- E in D.
  assert (j = U64_MOD * ((version lc + j) / U64_MOD))%N as D' by lia.
  destruct ((version lc + j) / U64_MOD)%N; [lia|]. unfold U64_MOD in *. lia.
Qed.

(** ** Keys that are not ticket records *)

Definition not_status (k : string) : Prop := ∀ t, k ≠ status_key t.

Lemma lifecycle_set s k v t : not_status k → lifecycle (set s k v) t = lifecycle s t.
Proof.
  intros Hk. change (decode (get (set s k v) (status_key t)) = decode (get s (status_key t))).
  by rewrite get_set_ne.
Qed.

Lemma lifecycle_del s k t : not_status k → lifecycle (del s k) t = lifecycle s t.
Proof.
  intros Hk. change (decode (get (del s k) (status_key t)) = decode (get s (status_key t))).
  by rewrite get_del_ne.
Qed.

Lemma transition_other s t ver actor e now next s' u :
  transition s t ver actor e now = Ok (next, s') → u ≠ t → lifecycle s' u = lifecycle s u.
Proof.
  intros H Hu. apply transition_Ok in H as (cur & _ & _ & _ & ->).
  unfold lifecycle. change (ns_key (set_backend _ s) ?k) with (ns_key s k). cbn [backend set_backend].
  rewrite lookup_insert_ne; [done|]. intros E%ns_key_inj%status_key_inj. by subst.
Qed.

Lemma transition_store_ok s t ver actor e now next s' :
  store_ok s → transition s t ver actor e now = Ok (next, s') → store_ok s'.
Proof.
  intros Hs H u lc Hu. destruct (decide (u = t)) as [->|Hne].
  - rewrite (lifecycle_after_transition _ _ _ _ _ _ _ _ H) in Hu. simplify_eq.
    apply transition_Ok in H as (cur & Hc & _ & Ha & _). eauto using reachable_step.
  - rewrite (transition_other _ _ _ _ _ _ _ _ _ H Hne) in Hu. eauto.
Qed.

Lemma store_ok_set s k v : not_status k → store_ok s → store_ok (set s k v).
Proof. intros Hk Hs t lc. rewrite lifecycle_set by done. apply Hs. Qed.
Lemma store_ok_del s k : not_status k → store_ok s → store_ok (del s k).
Proof. intros Hk Hs t lc. rewrite lifecycle_del by done. apply Hs. Qed.
#[export] Hint Resolve store_ok_set store_ok_del rely_store_ok : triple.

Ltac not_status_solve := intros ?; unfold status_key; discriminate.

Lemma not_status_pending_prs : not_status KEY_PENDING_PRS. Proof. not_status_solve. Qed.
Lemma not_status_tickets : not_status KEY_TICKETS. Proof. not_status_solve. Qed.
Lemma not_status_slots : not_status KEY_WORKER_SLOTS. Proof. not_status_solve. Qed.
Lemma not_status_dispatched n : not_status (address_review_dispatched_key n).
Proof. not_status_solve. Qed.
Lemma not_status_dispatched_at n : not_status (address_review_dispatched_at_key n).
Proof. not_status_solve. Qed.
Lemma not_status_attempts n : not_status (address_review_attempts_key n).
Proof. not_status_solve. Qed.
#[export] Hint Resolve not_status_pending_prs not_status_tickets not_status_slots not_status_dispatched
  not_status_dispatched_at not_status_attempts : triple.

(** ** The invariant of a run

    Every record is one that transitions can produce, and every effect so far is
    acceptable to [K]. *)

Definition vinv (K : Effect → Prop) (v : VState) : Prop := store_ok (v_store v) ∧ Forall K (v_log v).

(** [lc] was the record of [t] at most [d] waits ago. *)
Definition seen (d : nat) (t : string) (lc : Lifecycle) (v : VState) : Prop :=
  ∃ k lc', (N.of_nat k < N.of_nat d * WAIT + 1)%N ∧ nsteps other_step k lc lc' ∧
           lifecycle (v_store v) t = Ok lc'.

Section steps.
Context (others : nat → SharedStore → SharedStore) (clock : nat → u64).
Context (Hrely : ∀ n, rely (others n)).
Context (K : Effect → Prop).
Local Notation I := (vinv K).

Lemma keeps_await : keeps I (v_await others).
Proof. apply keeps_modify. intros v [H1 H2]. split; [|done]. by apply rely_store_ok. Qed.
#[local] Hint Resolve keeps_await : triple.

Lemma keeps_read {A} (f : SharedStore → result A) : keeps I (v_read others f).
Proof. apply keeps_bind; [auto with triple|]. intros _ v Hv. cbn. by destruct (f (v_store v)). Qed.

Lemma keeps_write (f : SharedStore → SharedStore) :
  (∀ s, store_ok s → store_ok (f s)) → keeps I (v_write others f).
Proof.
  intros Hf. apply keeps_bind; [auto with triple|]. intros _. apply keeps_modify.
  intros v [H1 H2]. split; [by apply Hf|done].
Qed.

Lemma keeps_transition t ver actor e : keeps I (v_transition others clock t ver actor e).
Proof.
  apply keeps_bind; [auto with triple|]. intros _ v [H1 H2]. unfold v_step.
  destruct (transition _ _ _ _ _ _) as [[next s]|msg|] eqn:H; [|done..].
  split; [|done]. by eapply transition_store_ok.
Qed.

Lemma keeps_request {A} (r : result A) : keeps I (v_request others r).
Proof. apply keeps_bind; auto with triple. Qed.

Lemma keeps_ensure b msg : keeps I (v_ensure b msg).
Proof. apply keeps_lift. Qed.

Lemma keeps_effect e : K e → keeps I (v_effect e).
Proof. intros He. apply keeps_modify. intros v [H1 H2]. split; [done|]. apply Forall_app. auto. Qed.

(** *** What waiting preserves *)

Lemma seen_await d t lc :
  triple (λ v, I v ∧ seen d t lc v) (v_await others) (λ _ v, I v ∧ seen (S d) t lc v) I.
Proof.
  apply triple_modify. intros v [[H1 H2] (k & lc1 & Hk & Hn & Hl)].
  split; [split; [by apply rely_store_ok|done]|].
  pose proof (Hrely (v_clock v) (v_store v) t) as Hr. rewrite Hl in Hr.
  destruct Hr as (k' & lc' & Hk' & Hn' & Hl').
  exists (k + k'), lc'. split_and!; [lia| |done]. by eapply nsteps_trans.
Qed.

Lemma triple_lifecycle t : triple I (v_lifecycle others t) (λ lc v, I v ∧ reachable lc ∧ seen 0 t lc v) I.
Proof.
  eapply triple_bind; [apply keeps_await|]. intros _ v Hv. cbn.
  destruct (lifecycle (v_store v) t) as [lc|e|] eqn:E; [|done..].
  split; [done|]. split; [by apply Hv in E|]. exists 0, lc. split_and!; [lia|constructor|done].
Qed.

Lemma seen_request {A} (r : result A) d t lc :
  triple (λ v, I v ∧ seen d t lc v) (v_request others r) (λ a v, r = Ok a ∧ I v ∧ seen (S d) t lc v) I.
Proof.
  eapply triple_bind; [apply seen_await|]. intros []. apply triple_lift; [by eauto|by intros ? []].
Qed.

(** A transition at the version seen commits from exactly the record seen. *)
Lemma seen_transition d t lc actor e :
  (N.of_nat d * WAIT < U64_MOD - WAIT)%N →
  triple (λ v, I v ∧ seen d t lc v) (v_transition others clock t (version lc) actor e)
    (λ next v, I v ∧ lifecycle (v_store v) t = Ok next ∧ ∃ now, apply lc actor e now = Ok next) I.
Proof.
  intros Hd. eapply triple_bind; [apply seen_await|].
  intros _ v [[H1 H2] (k & lc' & Hk & Hn & Hl)]. unfold v_step.
  destruct (transition _ _ _ _ _ _) as [[next s]|msg|] eqn:H; [|by split..].
  split; [split; [by eapply transition_store_ok|done]|].
  split; [by eapply lifecycle_after_transition|].
  apply transition_Ok in H as (cur & Hc & Hv & Ha & _). rewrite Hl in Hc. simplify_eq.
  eapply version_stable in Hn; [subst; by eauto| |done]. unfold WAIT, U64_MOD in *. lia.
Qed.
End steps.

#[export] Hint Resolve keeps_await keeps_read keeps_transition keeps_request keeps_ensure : triple.

(** ** Merging *)

(** The record behind a merge request: reserved, and fully reviewed for exactly
    that pull request and head. *)
Definition reserved (s : SharedStore) (t : string) (n : u64) (h : string) : Prop :=
  ∃ lc, lifecycle s t = Ok lc ∧ reachable lc ∧ merge_pending lc = true ∧ fully_reviewed lc n h.

Lemma begin_merge_Ok lc actor h now next :
  apply lc actor (BeginMerge h) now = Ok next →
  merge_ready lc h = true ∧ merge_pending next = true ∧ merge_ready next h = true ∧
  pr_number next = pr_number lc.
Proof.
  intros H. apply apply_Ok in H as (_ & _ & [[H _]|(n' & H & ->)]); simpl in H;
    apply result_fmap_Ok in H as (? & H & E); [done|]. simplify_eq.
  unfold apply_begin_merge in H. handler_inv H. done.
Qed.

Section merging.
Context (others : nat → SharedStore → SharedStore) (clock : nat → u64).
Context (Hrely : ∀ n, rely (others n)).
Context (K : Effect → Prop).
Local Notation I := (vinv K).

Lemma keeps_merge_reviewed ci merge pr :
  (∀ t s, ticket_id pr = Some t → ci = Ok Success → reserved s t (number pr) (head_sha pr) →
     K (Merge (mkCall (number pr) (head_sha pr) (build_merge_commit_title pr) s))) →
  keeps I (merge_reviewed others clock ci merge pr).
Proof.
  intros HK. unfold merge_reviewed. apply triple_bind with (R := λ t v, ticket_id pr = Some t ∧ I v).
  { apply triple_lift; [|done]. intros t v H Hv. unfold or_err in H. by destruct (ticket_id pr); simplify_eq. }
  intros t. apply triple_pure. intros Ht.
  eapply triple_bind; [by apply triple_lifecycle|]. intros lc.
  apply triple_bind with (R := λ _ v,
    (reachable lc ∧ merge_ready lc (head_sha pr) = true ∧ pr_number lc = Some (number pr)) ∧
    I v ∧ seen 0 t lc v).
  { apply triple_lift; [|by intros ? []]. intros [] v H (? & ? & ?). case_match eqn:E; [|done]. by bsimp. }
  intros _. apply triple_pure. intros (HR & Hrdy & Hn).
  eapply triple_bind; [by apply seen_request|]. intros status. apply triple_pure. intros ->.
  apply triple_bind with (R := λ _ v, status = Success ∧ I v ∧ seen 1 t lc v).
  { apply triple_lift; [|by intros ? []]. intros [] v H Hv. by case_bool_decide. }
  intros _. apply triple_pure. intros ->.
  apply triple_bind with (R := λ _ v, I v ∧ reserved (v_store v) t (number pr) (head_sha pr)).
  { destruct (merge_pending lc) eqn:Hm.
    - apply triple_ret. intros v [Hv (k & lc' & Hk & Hs & Hl)]. split; [done|].
      apply pending_stable in Hs as ->; [|done..]. exists lc. split_and!; [done..|].
      by apply merge_ready_reviewed; [apply reachable_Inv|..].
    - assert (N.of_nat 1 * WAIT < U64_MOD - WAIT)%N as Hd by (by vm_compute).
      eapply triple_conseq; [exact (seen_transition others clock Hrely K 1 t lc _ _ Hd)|auto|].
      intros next v (Hv & Hl & now & Ha). split; [done|].
      assert (reachable next) by (by eapply reachable_step).
      apply begin_merge_Ok in Ha as (_ & ? & ? & E). exists next. split_and!; [done..|].
      apply merge_ready_reviewed; [by apply reachable_Inv|done|congruence]. }
  intros st. apply triple_bind with (R := λ _, I).
  { intros v [[H1 H2] Hv]. cbn. split; [done|]. cbn. apply Forall_app. split; [done|].
    apply Forall_singleton. by eapply HK. }
  intros _. assert (keeps I (settle_merge others clock t (version st) merge pr)) as Hs; [|exact Hs].
  unfold settle_merge. keeps_auto.
Qed.
End merging.

(** ** Classification *)

(** GitHub's side of a merge: someone with write access approved exactly this
    head in the latest review they gave, and every change request that is still
    someone's latest verdict has been addressed by rework. *)
Definition approved_on_github (parse : string → option Z) (reviews : list PrReview) (h : string)
  (evidence : option ReworkEvidence) : Prop :=
  (∃ r, r ∈ latest_review_per_user reviews ∧ state_enum r = Approved ∧
        is_authorized_reviewer r = true ∧ r_commit_id r = Some h) ∧
  (∀ r, r ∈ latest_review_per_user reviews → state_enum r = ChangesRequested →
        is_feedback_addressed parse (r_commit_id r) (r_submitted_at r) h evidence = true).

Lemma elem_applicable parse reviews h evidence r :
  r ∈ applicable_reviews parse reviews h evidence ↔
  r ∈ latest_review_per_user reviews ∧
  (state_enum r = ChangesRequested →
   is_feedback_addressed parse (r_commit_id r) (r_submitted_at r) h evidence = false).
Proof.
  unfold applicable_reviews. rewrite list_elem_of_In, filter_In, <- list_elem_of_In.
  apply and_iff_compat_l. rewrite orb_true_iff, !negb_true_iff, bool_decide_eq_false.
  destruct (decide (state_enum r = ChangesRequested)); naive_solver.
Qed.

Lemma existsb_elem {A} (f : A → bool) l : existsb f l = true ↔ ∃ x, x ∈ l ∧ f x = true.
Proof.
  rewrite existsb_exists. split; intros (x & H1 & H2); exists x; (split; [by apply list_elem_of_In|done]).
Qed.

Lemma existsb_not_elem {A} (f : A → bool) l : existsb f l = false ↔ ∀ x, x ∈ l → f x = false.
Proof.
  rewrite <- not_true_iff_false, existsb_elem. split.
  - intros H x Hx. apply not_true_iff_false. intros Hf. apply H. eauto.
  - intros H (x & Hx & Hf). rewrite H in Hf; done.
Qed.

Lemma no_change_request parse reviews h evidence :
  existsb (λ r, bool_decide (state_enum r = ChangesRequested))
    (applicable_reviews parse reviews h evidence) = false →
  ∀ r, r ∈ latest_review_per_user reviews → state_enum r = ChangesRequested →
  is_feedback_addressed parse (r_commit_id r) (r_submitted_at r) h evidence = true.
Proof.
  intros H r Hr Hs. rewrite existsb_not_elem in H. apply not_false_iff_true. intros Hf.
  specialize (H r). rewrite elem_applicable, bool_decide_eq_false in H. by apply H.
Qed.

Lemma candidate_approved parse reviews h evidence :
  candidate_review_state (applicable_reviews parse reviews h evidence) h = Approved →
  approved_on_github parse reviews h evidence.
Proof.
  unfold candidate_review_state. destruct (existsb _ _) eqn:Hc; [done|].
  destruct (existsb (λ r, is_authorized_head_approval r h) _) eqn:Ha; [|done]. intros _.
  split; [|by apply no_change_request].
  apply existsb_elem in Ha as (r & Hr & Ha). apply elem_applicable in Hr as [Hr _].
  unfold is_authorized_head_approval in Ha. bsimp. eauto 6.
Qed.

Lemma classify_success parse reviews comments pr evidence :
  let st := classify parse reviews comments pr Success evidence in
  st ≠ MConflicts → st ≠ MNeedsReview → st ∉ [MChangesRequested; MComments] →
  mergeable pr ≠ Some false ∧ approved_on_github parse (or_none reviews) (head_sha pr) evidence.
Proof.
  unfold classify, classify_from_parts. cbv zeta.
  case_bool_decide as Hm; [done|]. intros _.
  case_bool_decide as H1; [intros _ []; by left|].
  destruct (_ && _); [intros _ []; by right; left|].
  case_bool_decide as H2; [|done]. intros _ _. split; [done|]. by apply candidate_approved.
Qed.
