(* ===== verification/VesselProps.v ===== *)
(** * Properties of VESSEL's merge path *)
From S2P Require Import Prelude Text Json Lifecycle LifecycleFacts LifecycleProps LifecycleCodec Store.
From S2P Require Import StoreProps Tickets Review Hoare Vessel VesselQueue VesselFacts.

(** ** What a round of the queue does to the store and the outside *)

Section rounds.
Context (others : nat → SharedStore → SharedStore) (clock : nat → u64).
Context (parse : string → option Z) (max_attempts : nat).
Context (Hrely : ∀ n, rely (others n)).
Context (K : Effect → Prop).
Local Notation I := (vinv K).

(** The evidence under which a merge of [pr] is requested. *)
Definition mergeable_now (a : Answers) (pr : PrInfo) (evidence : option ReworkEvidence) : Prop :=
  poll_until_terminal max_attempts (a_poll_ci a) (a_poll_pr a) = Ok (Status Success) ∧
  a_recheck a = Ok Success ∧ mergeable pr ≠ Some false ∧
  approved_on_github parse (or_none (a_reviews a)) (head_sha pr) evidence.

Definition accepts (a : Answers) (pr : PrInfo) : Prop :=
  ∀ t s evidence, ticket_id pr = Some t → mergeable_now a pr evidence →
    reserved s t (number pr) (head_sha pr) →
    K (Merge (mkCall (number pr) (head_sha pr) (build_merge_commit_title pr) s)).

Lemma keeps_handle_conflicts a pr : keeps I (handle_conflicts others clock a pr).
Proof. unfold handle_conflicts, v_lifecycle. keeps_auto. Qed.
#[local] Hint Resolve keeps_handle_conflicts : triple.

Lemma keeps_conclude_merge a pr t r : keeps I (conclude_merge others clock a pr t r).
Proof. unfold conclude_merge. keeps_auto. Qed.

Lemma keeps_after_green_ci a pr evidence t :
  accepts a pr → poll_until_terminal max_attempts (a_poll_ci a) (a_poll_pr a) = Ok (Status Success) →
  keeps I (after_green_ci others clock parse a pr evidence t).
Proof.
  intros HK Hp. unfold after_green_ci. cbv zeta.
  destruct (bool_decide (_ = MConflicts) || has_conflicts pr) eqn:E1; [auto with triple|].
  apply orb_false_iff in E1 as [E1%bool_decide_eq_false _].
  case_bool_decide as E2; [auto with triple|].
  case_bool_decide as E3; [auto with triple|].
  destruct (classify_success _ _ _ _ _ E1 E2 E3) as [Hm Hg].
  apply keeps_bind; [unfold lifecycle_allows; keeps_auto|]. intros ready.
  apply keeps_if; [|auto with triple]. intros v Hv. unfold v_step.
  assert (keeps I (merge_reviewed others clock (a_recheck a) (merge_pull_request (a_merge a)) pr)) as Hr.
  { apply keeps_merge_reviewed; [done|]. intros u s Hu Hc Hs. by eapply HK. }
  pose proof (keeps_run _ _ _ Hr Hv) as Hv'. destruct (merge_reviewed _ _ _ _ _ _) as [r v'].
  by apply keeps_conclude_merge.
Qed.

Lemma keeps_ci_gate a pr evidence t :
  accepts a pr → keeps I (ci_gate others clock parse max_attempts a pr evidence t).
Proof.
  intros HK. unfold ci_gate.
  eapply triple_bind with (R := λ p v, poll_until_terminal _ _ _ = Ok p ∧ I v).
  - eapply triple_bind; [by apply keeps_await|]. intros []. by apply triple_lift.
  - intros p. apply triple_pure. intros Hp.
    assert (∀ o : VesselOutcome, keeps I (mret o)) as Hret by (intros; apply keeps_ret).
    destruct p as [[]| |]; try (destruct (ci_failure _ _)); try apply Hret.
    + by apply keeps_after_green_ci.
    + apply keeps_handle_conflicts.
Qed.

Lemma keeps_process_single_pr a pr evidence :
  accepts a pr → keeps I (process_single_pr others clock parse max_attempts a pr evidence).
Proof.
  intros HK. unfold process_single_pr. cbv zeta.
  pose proof (λ t, keeps_ci_gate a pr evidence t HK) as Hg. keeps_auto.
Qed.

Lemma keeps_evidence n : keeps I (get_rework_evidence others n).
Proof. unfold get_rework_evidence, v_get. keeps_auto. Qed.

Lemma keeps_record_approval t who rep lc : keeps I (record_approval others clock t who rep lc).
Proof. unfold record_approval. keeps_auto. Qed.

Lemma keeps_reconcile_approval revs t st n h ev :
  keeps I (reconcile_github_approval others clock parse revs t st n h ev).
Proof.
  unfold reconcile_github_approval, reset_address_review_attempts, clear_address_review_dispatched,
    resume_ticket, v_get, v_lifecycle.
  pose proof keeps_record_approval.
  keeps_auto; apply keeps_write; auto with triple.
Qed.

Lemma keeps_exec_one entry a :
  (∀ pr t, a_pr a = Ok pr → accepts a (set_ticket_id t pr)) →
  keeps I (exec_one others clock parse max_attempts entry a).
Proof.
  intros HK. unfold exec_one, exec_ticket, exec_candidate, v_lifecycle. cbv zeta.
  pose proof keeps_evidence. pose proof keeps_reconcile_approval.
  keeps_auto; apply keeps_process_single_pr; by apply HK.
Qed.
End rounds.

(** ** Merges *)

Section runs.
Context (others : nat → SharedStore → SharedStore) (clock : nat → u64).
Context (parse : string → option Z) (max_attempts : nat).

(** What stands behind a merge request: answers of GitHub among [A] for its pull
    request and head, and the reserved record. *)
Definition justified (A : Answers → Prop) (c : MergeCall) : Prop :=
  ∃ a pr evidence t,
    A a ∧ a_pr a = Ok pr ∧ call_number c = number pr ∧ call_head c = head_sha pr ∧
    reserved (call_store c) t (number pr) (head_sha pr) ∧
    mergeable_now parse max_attempts a pr evidence.

Lemma keeps_exec (K : Effect → Prop) queue :
  (∀ n, rely (others n)) →
  (∀ entry a pr t, (entry, a) ∈ queue → a_pr a = Ok pr →
     accepts parse max_attempts K a (set_ticket_id t pr)) →
  keeps (vinv K) (exec others clock parse max_attempts queue).
Proof.
  intros Hr. induction queue as [|[entry a] queue IH]; intros HK; [apply keeps_ret|].
  cbn [exec]. apply keeps_bind; [|intros o; apply keeps_bind; [|intros os; apply keeps_ret]].
  - apply keeps_exec_one; [done|]. intros pr t. apply (HK entry). by left.
  - apply IH. intros e b pr t Hin. apply (HK e). by right.
Qed.
End runs.

(** *** A run that merges *)

Module MergeRun.
Definition quiet : nat → SharedStore → SharedStore := λ _ s, s.
Definition clock : nat → u64 := λ n, N.of_nat n.
Definition no_time : string → option Z := λ _, None.

Definition pr42 : PrInfo :=
  mkPr 42 "abc" "forge-1/T-42" "main" (Some "T-42") "Add login" None (Some true).
Definition approval : PrReview :=
  mkReview "APPROVED" (Some "alice") (Some "2026-01-01T00:00:00Z") None (Some "abc") (Some "MEMBER").
Definition answers : Answers :=
  mkAnswers (Ok pr42) (Ok None) (Ok [approval]) (Ok Success) (Ok [approval]) (Ok []) (Ok pr42) (Ok tt)
    (λ _, Ok Success) (λ _, Ok pr42) (Ok [approval]) (Ok []) (Ok Success)
    (Replied (mkMergeResult true (Some "m1") "merged")) (Ok (mkDetail [] [] [] [])) [].
Definition entry : Value := VObject [("number", VPosInt 42); ("ticket_id", VString "T-42")].

Definition store_with (lc : Lifecycle) : SharedStore :=
  set_backend {[ns_key new_in_memory (status_key "T-42") := to_value lc]} new_in_memory.
Definition start (lc : Lifecycle) : VState := mkVState (store_with lc) 0 [].

Lemma rely_quiet n : rely (quiet n).
Proof.
  intros s t. unfold quiet. destruct (lifecycle s t) as [lc|e|]; [|done..].
  exists 0, lc. split_and!; [done|constructor|done].
Qed.

Lemma lifecycle_store_with lc t :
  reachable lc →
  lifecycle (store_with lc) t = if bool_decide (t = "T-42") then Ok lc else Ok default.
Proof.
  intros HR. unfold lifecycle, store_with.
  change (ns_key (set_backend _ new_in_memory) ?k) with (ns_key new_in_memory k).
  cbn [backend set_backend]. case_bool_decide as E.
  - subst t. rewrite lookup_singleton_eq. by apply decode_to_value, reachable_delivery_bound.
  - rewrite lookup_singleton_ne; [done|]. intros H%ns_key_inj%status_key_inj. by subst.
Qed.

Lemma store_with_ok lc : reachable lc → store_ok (store_with lc).
Proof.
  intros HR t lc'. rewrite lifecycle_store_with by done.
  case_bool_decide; intros ?; simplify_eq; [done|]. apply reachable_init. by left.
Qed.
End MergeRun.

Import MergeRun.

(** ** Approvals given on GitHub *)

(** The record of [t] comes from [lc] by steps of others only. *)
Definition derived (t : string) (lc : Lifecycle) (v : VState) : Prop :=
  ∃ lc', rtc other_step lc lc' ∧ lifecycle (v_store v) t = Ok lc'.

Lemma seen_derived d t lc v : seen d t lc v → derived t lc v.
Proof. intros (k & lc' & _ & H & Hl). exists lc'. split; [|done]. by eapply rtc_nsteps_2. Qed.

Lemma committed_seen t lc v : lifecycle (v_store v) t = Ok lc → seen 0 t lc v.
Proof. intros H. exists 0, lc. split_and!; [lia|constructor|done]. Qed.

(** A verdict of approval on a submitted candidate. *)
Lemma approve_submit lc actor report now next :
  actor = "human" ∨ actor = "sentinel" →
  apply lc actor (Decide (review_round lc) Submit true report (revision lc) (head lc)) now = Ok next →
  phase lc = Submit ∧ phase next = Submit ∧ head next = head lc ∧
  (is_Some (pr_human next) ↔ is_Some (pr_human lc) ∨ actor = "human") ∧
  (is_Some (pr_decision next) ↔ is_Some (pr_decision lc) ∨ actor = "sentinel").
Proof.
  intros Ha H. apply apply_Ok in H as (_ & _ & [[H _]|(n & H & ->)]); cbn [dispatch] in H;
    apply result_fmap_Ok in H as (n' & H & E); [done|]. simplify_eq.
  assert (to_lowercase actor = actor) as El by (by destruct Ha as [-> | ->]). rewrite El in H.
  apply apply_decide_Ok in H as (Hp & _ & _ & _ & d & -> & [(E & _)|[(E & _)|(_ & _ & _ & _ & H)]]);
    [done..|].
  destruct H as [[-> ->]|[-> ->]]; cbn; split_and!; try done; naive_solver.
Qed.

Lemma delivered_review lc round now next :
  apply lc "sentinel" (ReviewDelivered round) now = Ok next →
  pr_delivery next = None ∧ phase next = phase lc ∧ head next = head lc ∧
  pr_human next = pr_human lc ∧ pr_decision next = pr_decision lc.
Proof.
  intros H. apply apply_Ok in H as (_ & _ & [[H _]|(n & H & ->)]); cbn [dispatch] in H;
    apply result_fmap_Ok in H as (n' & H & E); [done|]. simplify_eq.
  unfold apply_review_delivered in H. by handler_inv H.
Qed.

(** A submitted candidate with both verdicts and nothing to deliver. *)
Lemma both_verdicts_ready lc h :
  Inv lc → phase lc = Submit → head lc = Some h → is_Some (pr_human lc) → is_Some (pr_decision lc) →
  pr_delivery lc = None → merge_ready lc h = true.
Proof.
  intros HI Hp Hh [dh Hdh] [dp Hdp] Hd. apply merge_ready_true. split_and!; [done..| |].
  - exists dp. by destruct (inv_pr_decision _ HI dp Hp Hdp) as (_ & _ & ?).
  - exists dh. by destruct (inv_pr_human _ HI dh Hp Hdh) as (_ & _ & ?).
Qed.

Section approvals.
Context (others : nat → SharedStore → SharedStore) (clock : nat → u64) (parse : string → option Z).
Context (Hrely : ∀ n, rely (others n)).
Context (K : Effect → Prop).
Local Notation I := (vinv K).

Lemma commit_seen t lc actor e :
  reachable lc →
  triple (λ v, I v ∧ seen 0 t lc v) (v_transition others clock t (version lc) actor e)
    (λ next v, I v ∧ reachable next ∧ seen 0 t next v ∧ ∃ now, apply lc actor e now = Ok next) I.
Proof.
  intros HR. assert (N.of_nat 0 * WAIT < U64_MOD - WAIT)%N as Hd by (by vm_compute).
  eapply triple_conseq; [exact (seen_transition others clock Hrely K 0 t lc actor e Hd)|auto|].
  intros next v (Hv & Hl & now & Ha). split_and!; [done|by eapply reachable_step|by apply committed_seen|eauto].
Qed.

Lemma triple_record_approval t who rep lc h :
  reachable lc → head lc = Some h → is_some (pr_human lc) && is_some (pr_decision lc) = false →
  triple (λ v, I v ∧ seen 0 t lc v) (record_approval others clock t who rep lc)
    (λ next v, I v ∧ reachable next ∧ merge_ready next h = true ∧ derived t next v) I.
Proof.
  intros HR Hh Hb. unfold record_approval.
  apply triple_bind with (R := λ cur v,
    (reachable cur ∧ head cur = Some h ∧ is_Some (pr_human cur) ∧
     (phase cur = Submit ∨ pr_decision cur = None)) ∧ I v ∧ seen 0 t cur v).
  { destruct (is_none (pr_human lc)) eqn:En.
    - eapply triple_conseq; [exact (commit_seen t lc _ _ HR)|auto|].
      intros cur v (Hv & HR' & Hs & now & Ha). apply approve_submit in Ha as (Hp & Hp' & Hh' & H1 & _); [|by left].
      split; [|done]. split_and!; [done|congruence|apply H1; by right|by left].
    - apply triple_ret. intros v Hv. split; [|done]. apply is_none_false in En as [d Ed].
      rewrite Ed in Hb. apply is_some_false in Hb. rewrite Ed. eauto. }
  intros cur. apply triple_pure. intros (HRc & Hhc & Hhum & Hcase).
  apply triple_bind with (R := λ cur v,
    (reachable cur ∧ head cur = Some h ∧ is_Some (pr_human cur) ∧ is_Some (pr_decision cur) ∧
     phase cur = Submit) ∧ I v ∧ seen 0 t cur v).
  { destruct (is_none (pr_decision cur)) eqn:En.
    - eapply triple_conseq; [exact (commit_seen t cur _ _ HRc)|auto|].
      intros c v (Hv & HR' & Hs & now & Ha). apply approve_submit in Ha as (Hp & Hp' & Hh' & H1 & H2); [|by right].
      split; [|done]. split_and!; [done|congruence|apply H1; by left|apply H2; by right|done].
    - apply triple_ret. intros v Hv. split; [|done]. apply is_none_false in En as [d Ed].
      destruct Hcase as [?|E]; [by eauto 6|congruence]. }
  intros c. apply triple_pure. intros (HRd & Hhd & Hd1 & Hd2 & Hpd).
  destruct (is_some (pr_delivery c)) eqn:Es.
  - eapply triple_conseq; [exact (commit_seen t c _ _ HRd)|auto|].
    intros nx v (Hv & HR' & Hs & now & Ha). apply delivered_review in Ha as (E1 & E2 & E3 & E4 & E5).
    split_and!; [done|done| |by eapply seen_derived].
    apply both_verdicts_ready; [by apply reachable_Inv|congruence..|done].
  - apply triple_ret. intros v [Hv Hs]. split_and!; [done|done| |by eapply seen_derived].
    apply is_some_false in Es. apply both_verdicts_ready; [by apply reachable_Inv|done..].
Qed.

(** Writes to other keys and waits keep a record derived. *)
Lemma derived_await t lc : keeps (λ v, I v ∧ derived t lc v) (v_await others).
Proof.
  apply keeps_modify. intros v [[H1 H2] (lc' & Hr & Hl)]. split; [split; [by apply rely_store_ok|done]|].
  pose proof (Hrely (v_clock v) (v_store v) t) as Hk. rewrite Hl in Hk.
  destruct Hk as (k & lc2 & _ & Hn & Hl2). exists lc2. split; [|done].
  etrans; [exact Hr|by eapply rtc_nsteps_2].
Qed.

Lemma derived_read {A} t lc (f : SharedStore → result A) :
  keeps (λ v, I v ∧ derived t lc v) (v_read others f).
Proof. apply keeps_bind; [apply derived_await|]. intros _ v Hv. cbn. by destruct (f (v_store v)). Qed.

Lemma derived_write t lc f :
  (∀ s, store_ok s → store_ok (f s)) → (∀ s, lifecycle (f s) t = lifecycle s t) →
  keeps (λ v, I v ∧ derived t lc v) (v_write others f).
Proof.
  intros Hf Hl. apply keeps_bind; [apply derived_await|]. intros _. apply keeps_modify.
  intros v [[H1 H2] (lc' & Hr & E)]. split; [split; [by apply Hf|done]|].
  exists lc'. split; [done|]. cbn. by rewrite Hl.
Qed.

(** The bookkeeping after the verdicts. *)
Lemma derived_tail t lc n (b : bool) :
  keeps (λ v, I v ∧ derived t lc v)
    (_ ← reset_address_review_attempts others n;
     _ ← (if b then mret tt else clear_address_review_dispatched others n);
     _ ← resume_ticket others t; mret true).
Proof.
  unfold reset_address_review_attempts, clear_address_review_dispatched, resume_ticket, v_get.
  pose proof (@derived_read). 
  keeps_auto; apply derived_write; intros s; eauto with triple;
    (apply lifecycle_set || apply lifecycle_del); auto with triple.
Qed.

Lemma max_by_submitted_elem l r : max_by_submitted l = Some r → r ∈ l.
Proof.
  destruct l as [|x l]; [done|]. cbn [max_by_submitted]. intros [= <-].
  assert (∀ l x, fold_left (λ best y, if opt_str_leb (r_submitted_at best) (r_submitted_at y) then y else best)
    l x ∈ x :: l) as H; [|apply H].
  clear. induction l as [|y l IH]; intros x; cbn [fold_left]; [by left|].
  case_match; specialize (IH (if opt_str_leb (r_submitted_at x) (r_submitted_at y) then y else x)).
  - right. by rewrite H in IH.
  - rewrite H in IH. apply elem_of_cons in IH as [->|IH]; [by left|right; by right].
Qed.

Lemma approver_of_approved reviews h ev who :
  approver_of parse reviews h ev = Some who → approved_on_github parse reviews h ev.
Proof.
  unfold approver_of. destruct (existsb _ _) eqn:Hc; [done|]. intros H.
  split; [|by apply no_change_request].
  destruct (max_by_submitted _) as [r|] eqn:Hm; [|done]. apply max_by_submitted_elem in Hm.
  rewrite list_elem_of_In, filter_In, <- list_elem_of_In in Hm. destruct Hm as [Hr Ha].
  apply elem_applicable in Hr as [Hr _]. unfold is_authorized_head_approval in Ha. bsimp. eauto 6.
Qed.

Lemma triple_reconcile_approval reviews t st n h ev :
  triple I (reconcile_github_approval others clock parse (Ok reviews) t st n h ev)
    (λ b v, b = true → approved_on_github parse reviews h ev ∧
       ∃ lc, reachable lc ∧ merge_ready lc h = true ∧ derived t lc v) I.
Proof.
  unfold reconcile_github_approval.
  assert (∀ (Q : bool → VState → Prop), (∀ v, Q false v) → triple I (mret false) Q I) as Hno.
  { intros Q HQ. apply triple_ret. auto. }
  destruct (_ || _); [by apply Hno|].
  destruct (approver_of parse reviews h ev) as [who|] eqn:Ew; [|by apply Hno].
  apply approver_of_approved in Ew.
  eapply triple_bind; [by apply triple_lifecycle|]. intros cur.
  destruct (is_some (pr_human cur) && is_some (pr_decision cur)) eqn:Eb; cbn [orb].
  { apply triple_ret. done. }
  case_bool_decide as Eh; cbn [negb]; [|by apply triple_ret].
  destruct (is_none (pr_decision cur) && _); [by apply triple_ret|].
  eapply triple_conseq with (P' := λ v, reachable cur ∧ I v ∧ seen 0 t cur v); [|naive_solver|].
  2: { intros b v H. exact H. }
  apply triple_pure. intros HR.
  eapply triple_bind; [exact (triple_record_approval t _ _ cur h HR Eh Eb)|]. intros next.
  eapply triple_conseq with (P' := λ v, (reachable next ∧ merge_ready next h = true) ∧ I v ∧ derived t next v);
    [|naive_solver|intros b v H; exact H].
  apply triple_pure. intros [HRn Hrdy].
  eapply triple_fail; [eapply triple_conseq; [exact (derived_tail t next n _)|auto|]|by intros ? []].
  intros b v [_ Hd] _. eauto 6.
Qed.
End approvals.

(** When VESSEL turns a GitHub approval into lifecycle verdicts, there was an
    approval of exactly that head by an authorized reviewer and no open change
    request, the candidate had passed SENTINEL's testing, and the record it leaves
    is ready to merge, whatever happens to the record afterwards being the doing of
    others. *)
Theorem reconciled_approval_is_real others clock parse reviews t st n h ev v v' :
  (∀ n, rely (others n)) → store_ok (v_store v) →
  reconcile_github_approval others clock parse (Ok reviews) t st n h ev v = (Ok true, v') →
  approved_on_github parse reviews h ev ∧
  ∃ lc lc', reachable lc ∧ tested lc ∧ merge_ready lc h = true ∧
    rtc other_step lc lc' ∧ lifecycle (v_store v') t = Ok lc'.
Proof.
  intros Hr Hs H.
  pose proof (triple_reconcile_approval others clock parse Hr (λ _, True) reviews t st n h ev) as Ht.
  assert (vinv (λ _, True) v) as HI by (split; [exact Hs|by apply Forall_true]).
  pose proof (triple_run _ _ _ _ _ _ _ Ht HI H) as HQ. cbn beta in HQ.
  destruct (HQ eq_refl) as (Ha & lc & HR & Hm & Hd). destruct Hd as (lc' & Hst & Hl). split; [done|].
  exists lc, lc'. split_and!; [done| |done..]. apply inv_tested; [by apply reachable_Inv|].
  by apply merge_ready_true in Hm as (_ & ? & _).
Qed.

Definition approval_run : result bool * VState :=
  reconcile_github_approval quiet clock no_time (Ok [approval]) "T-42" submitted 42 "abc" None (start submitted).

Lemma reconciled_approval_is_real_witness :
  ok approval_run.1 = Some true ∧ approved_on_github no_time [approval] "abc" None.
Proof.
  assert (ok approval_run.1 = Some true) as H by (vm_compute; reflexivity).
  split; [exact H|]. destruct approval_run as [r v'] eqn:E. cbn in H.
  assert (r = Ok true) as -> by (destruct r; cbn in H; congruence).
  exact (proj1 (reconciled_approval_is_real quiet clock no_time [approval] "T-42" submitted 42 "abc" None
    (start submitted) v' rely_quiet (store_with_ok _ submitted_reachable) E)).
Defined.

(** ** Reservations *)

(** Waiting leaves a reserved record as it is. *)
Lemma await_reserved others t lc v :
  (∀ n, rely (others n)) → reachable lc → merge_pending lc = true → lifecycle (v_store v) t = Ok lc →
  lifecycle (others (v_clock v) (v_store v)) t = Ok lc.
Proof.
  intros Hr HR Hm Hl. pose proof (Hr (v_clock v) (v_store v) t) as H. rewrite Hl in H.
  destruct H as (k & lc' & _ & Hn & Hl'). by rewrite (pending_stable k lc lc' Hn HR Hm) in Hl'.
Qed.

(** A transition VESSEL may make on a reserved record succeeds. *)
Lemma transition_reserved others clock t lc e next v :
  (∀ n, rely (others n)) → reachable lc → merge_pending lc = true → lifecycle (v_store v) t = Ok lc →
  phase lc ≠ Done → merge_event e = true → dispatch lc "vessel" e = Ok (Continue next) →
  ∃ lc' v', v_transition others clock t (version lc) "vessel" e v = (Ok lc', v') ∧
    lifecycle (v_store v') t = Ok lc' ∧ merge_pending lc' = merge_pending next ∧ phase lc' = phase next ∧
    merge_sha lc' = merge_sha next ∧ (∀ h, merge_ready lc' h = merge_ready next h).
Proof.
  intros Hr HR Hm Hl HD He Hd.
  pose proof (await_reserved others t lc v Hr HR Hm Hl) as Hl1.
  set (s1 := others (v_clock v) (v_store v)) in *. set (now := clock (S (v_clock v))).
  assert (apply lc "vessel" e now = Ok (commit lc next "vessel" (event_detail lc e) now)) as Ha
    by (apply apply_continue; auto).
  assert (∃ s2, transition s1 t (version lc) "vessel" e now =
    Ok (commit lc next "vessel" (event_detail lc e) now, s2)) as [s2 Ht].
  { unfold transition. change (decode (backend s1 !! ns_key s1 (status_key t))) with (lifecycle s1 t).
    rewrite Hl1. cbn [mbind result_bind]. rewrite bool_decide_eq_true_2, Ha by done. by eexists. }
  eexists _, (mkVState s2 (S (v_clock v)) (v_log v)).
  split; [|split; [exact (lifecycle_after_transition _ _ _ _ _ _ _ _ Ht)|done]].
  unfold v_transition, v_await, v_step, st_modify, mbind, st_bind. cbn [v_store v_clock].
  fold s1. fold now. by rewrite Ht.
Qed.

Lemma transition_refused others clock t lc e msg v :
  (∀ n, rely (others n)) → reachable lc → merge_pending lc = true → lifecycle (v_store v) t = Ok lc →
  phase lc ≠ Done → merge_event e = true → dispatch lc "vessel" e = Err msg →
  ∃ v', v_transition others clock t (version lc) "vessel" e v = (Err msg, v') ∧
    lifecycle (v_store v') t = Ok lc.
Proof.
  intros Hr HR Hm Hl HD He Hd.
  pose proof (await_reserved others t lc v Hr HR Hm Hl) as Hl1.
  exists (mkVState (others (v_clock v) (v_store v)) (S (v_clock v)) (v_log v)). split; [|done].
  set (s1 := others (v_clock v) (v_store v)) in *.
  assert (transition s1 t (version lc) "vessel" e (clock (S (v_clock v))) = Err msg) as Ht.
  { unfold transition. change (decode (backend s1 !! ns_key s1 (status_key t))) with (lifecycle s1 t).
    rewrite Hl1. cbn [mbind result_bind]. rewrite bool_decide_eq_true_2 by done. unfold apply.
    rewrite bool_decide_eq_true_2, He, orb_true_r by done.
    change (to_lowercase "vessel") with "vessel". cbn [mbind result_bind]. by rewrite Hd. }
  unfold v_transition, v_await, v_step, st_modify, mbind, st_bind. cbn [v_store v_clock].
  fold s1. by rewrite Ht.
Qed.

Lemma dispatch_merged lc pr sha :
  merge_ready lc (head_sha pr) = true → pr_number lc = Some (number pr) →
  dispatch lc "vessel" (Merged (number pr) (head_sha pr) sha) =
  if is_empty sha then Err "Merge requires reviewed current head and merge evidence"
  else Ok (Continue (lc ▷ set_phase Done ▷ set_merge_sha (Some sha) ▷ set_merge_pending false)).
Proof.
  intros Hrdy Hn. cbn [dispatch]. unfold apply_merged. rewrite Hrdy.
  rewrite (bool_decide_eq_true_2 (pr_number lc = Some (number pr)) Hn). by destruct (is_empty sha).
Qed.

(** C25. What GitHub replies decides the fate of a reservation, and no transition that
    another agent makes in between can change that ([rely]: the others change lifecycle
    records only by transitions; NEXUS's escalation, which overwrites the record, is not
    among them): a confirmed merge completes the ticket
    with its commit, a definitive rejection releases the candidate, still fully
    approved, and any other reply keeps it reserved. *)
Theorem reservation_follows_the_reply others clock t lc pr reply v r v' :
  (∀ n, rely (others n)) → reachable lc → merge_pending lc = true →
  merge_ready lc (head_sha pr) = true → pr_number lc = Some (number pr) →
  lifecycle (v_store v) t = Ok lc →
  settle_merge others clock t (version lc) (merge_pull_request reply) pr v = (r, v') →
  ∃ lc', lifecycle (v_store v') t = Ok lc' ∧
    match merge_pull_request reply with
    | Ok res =>
        if merged res then
          match m_sha res with
          | Some sha => if is_empty sha then lc' = lc
                        else r = Ok res ∧ phase lc' = Done ∧ merge_sha lc' = Some sha ∧ merge_pending lc' = false
          | None => lc' = lc
          end
        else r = Ok res ∧ merge_pending lc' = false ∧ merge_ready lc' (head_sha pr) = true
    | _ => lc' = lc ∧ is_ok r = false
    end.
Proof.
  intros Hr HR Hm Hrdy Hn Hl H.
  pose proof (await_reserved others t lc v Hr HR Hm Hl) as Hl1.
  unfold settle_merge, v_request in H. set (m := merge_pull_request reply) in *. clearbody m.
  set (v1 := mkVState (others (v_clock v) (v_store v)) (S (v_clock v)) (v_log v)).
  assert (lifecycle (v_store v1) t = Ok lc) as Hl2 by done.
  assert (phase lc ≠ Done) as HD by (apply merge_ready_true in Hrdy as (_ & -> & _); done).
  unfold v_await, st_modify, st_lift, mbind, st_bind in H. fold v1 in H.
  destruct m as [res|e|]; [|injection H as <- <-; by exists lc..].
  destruct (merged res) eqn:Em.
  - destruct (m_sha res) as [sha|] eqn:Es; cbn [or_err] in H; [|injection H as <- <-; by exists lc].
    pose proof (dispatch_merged lc pr sha Hrdy Hn) as Hd. destruct (is_empty sha) eqn:Ee.
    + destruct (transition_refused others clock t lc (Merged (number pr) (head_sha pr) sha) _ v1 Hr HR Hm Hl2 HD eq_refl Hd) as (v2 & Ht & Hl').
      rewrite Ht in H. injection H as <- <-. by exists lc.
    + destruct (transition_reserved others clock t lc (Merged (number pr) (head_sha pr) sha) _ v1 Hr HR Hm Hl2 HD eq_refl Hd)
        as (lc' & v2 & Ht & Hl' & E1 & E2 & E3 & _).
      rewrite Ht in H. injection H as <- <-. exists lc'. split; [done|]. split_and!; done.
  - destruct (transition_reserved others clock t lc CancelMerge (set_merge_pending false lc) v1 Hr HR Hm Hl2 HD
      eq_refl eq_refl) as (lc' & v2 & Ht & Hl' & E1 & E2 & _ & E4).
    rewrite Ht in H. injection H as <- <-. exists lc'. split; [done|]. split_and!; [done|done|].
    rewrite E4. exact Hrdy.
Qed.

Definition reserved_lc : Lifecycle :=
  from_option id default (ok (apply LifecycleProps.mergeable "vessel" (BeginMerge "abc") 11)).

Lemma reserved_lc_apply : apply LifecycleProps.mergeable "vessel" (BeginMerge "abc") 11 = Ok reserved_lc.
Proof. vm_compute. reflexivity. Qed.

Lemma reserved_lc_reachable : reachable reserved_lc.
Proof. exact (reachable_step _ _ _ _ _ mergeable_reachable reserved_lc_apply). Qed.

Lemma reservation_follows_the_reply_witness :
  let rejected := Rejected 405 "405 Method Not Allowed" "Base branch was modified" in
  let run := settle_merge quiet clock "T-42" (version reserved_lc) (merge_pull_request rejected) pr42
               (start reserved_lc) in
  ∃ lc', lifecycle (v_store run.2) "T-42" = Ok lc' ∧ merge_pending lc' = false ∧ merge_ready lc' "abc" = true.
Proof.
  intros rejected run. destruct run as [r v'] eqn:E.
  destruct (reservation_follows_the_reply quiet clock "T-42" reserved_lc pr42 rejected (start reserved_lc) r v'
    rely_quiet reserved_lc_reachable) as (lc' & Hl & _ & H1 & H2);
    [vm_compute; reflexivity..|exact (lifecycle_store_with _ "T-42" reserved_lc_reachable)|exact E|].
  exists lc'. split; [exact Hl|]. split; [exact H1|exact H2].
Defined.

(** An error that mentions a conflict does not reach the conflict handler while
    the reservation it leaves stands. *)
Lemma unknown_outcome_blocks_conflict_route others clock a pr t lc e v :
  (∀ n, rely (others n)) → reachable lc → merge_pending lc = true →
  is_docs_pr pr = false → ticket_id pr = Some t → lifecycle (v_store v) t = Ok lc →
  is_merge_conflict_message e = true →
  (conclude_merge others clock a pr (Some t) (Err e) v).1 = Err "Merge outcome is still unresolved".
Proof.
  intros Hr HR Hm Hd Ht Hl He. pose proof (await_reserved others t lc v Hr HR Hm Hl) as Hl1.
  unfold conclude_merge. rewrite He. unfold handle_conflicts. rewrite Hd, Ht.
  unfold v_lifecycle, v_read, v_ensure.
  cbv [mbind st_bind v_await st_modify v_step st_lift mret st_ret or_err]. cbn [v_store v_clock v_log].
  by rewrite Hl1, Hm.
Qed.

(** ** Deferred pull requests *)

(** A pull request whose ticket is not in submit is left alone: no outcome, no
    request to GitHub beyond the reads, nothing written.  A documentation pull
    request is one: its ticket T-DOCS has no lifecycle record, so it counts as
    still in planning. *)
Theorem only_submitted_tickets_are_processed clock parse max_attempts entry a pr t lc v :
  let n := from_option id 0%N (entry_number entry) in
  n ≠ 0%N → a_pr a = Ok pr → as_str (index "ticket_id" entry) = Some t → is_blank t = false →
  a_confirmed a = Ok None → lifecycle (v_store v) t = Ok lc → phase lc ≠ Submit →
  let r := exec_one quiet clock parse max_attempts entry a v in
  r.1 = Ok None ∧ v_store r.2 = v_store v ∧ v_log r.2 = v_log v ∧
  (Store.get (v_store v) (status_key "T-DOCS") = None →
   lifecycle (v_store v) "T-DOCS" = Ok default ∧ phase default = Planning).
Proof.
  cbv zeta. intros Hn Hpr Ht Hb Hc Hl Hp. unfold exec_one.
  rewrite (bool_decide_false _ Hn), Hpr, Ht, Hb. unfold exec_ticket, v_lifecycle, v_read, v_request.
  cbv [mbind st_bind v_await st_modify v_step st_lift mret st_ret quiet]. cbn [v_store v_clock v_log].
  rewrite Hl, Hc. rewrite (bool_decide_false _ Hp). cbn [negb].
  destruct (merge_pending lc); (split_and!; [done..|]); intros Hd; unfold lifecycle, Store.get in *;
    by rewrite Hd.
Qed.

Lemma only_submitted_tickets_are_processed_witness :
  let docs := VObject [("number", VPosInt 9); ("ticket_id", VString "T-DOCS")] in
  (exec_one quiet clock no_time 3 docs answers (mkVState new_in_memory 0 [])).1 = Ok None.
Proof.
  intros docs.
  exact (proj1 (only_submitted_tickets_are_processed clock no_time 3 docs answers pr42 "T-DOCS" default
    (mkVState new_in_memory 0 []) ltac:(done) eq_refl eq_refl eq_refl eq_refl eq_refl ltac:(done))).
Defined.
