(* ===== verification/VesselPost.v ===== *)
(** * VESSEL: acting on outcomes

    Models of [src/crates/agent-vessel/src/node.rs]: the worker and ticket
    bookkeeping, the dispatch of rework to FORGE's chat, the workspace teardown,
    and [post], which handles each outcome and chooses the action of the flow.
    The outcomes are handed over as values, not through JSON. *)
From Stdlib Require Import String.
From S2P Require Import Prelude Text Json ValueCodec Lifecycle LifecycleCodec Store Tickets Review Vessel.
From S2P Require Import VesselQueue.

Definition MAX_CONFLICT_RESOLUTION_ATTEMPTS : N := 3.
Definition MAX_CI_FIX_ATTEMPTS : N := 3.
Definition MAX_ADDRESS_REVIEW_ATTEMPTS : N := 3.

(** ** Names *)

(** [s.rsplit_once(c)]. *)
Fixpoint rsplit_once (c : ascii) (s : string) : option (string * string) :=
  match s with
  | EmptyString => None
  | String a s =>
      match rsplit_once c s with
      | Some (l, r) => Some (String a l, r)
      | None => if char_eqb a c then Some (EmptyString, s) else None
      end
  end.

Definition worker_role (worker : string) : string :=
  match rsplit_once "-" worker with Some (base, _) => base | None => worker end.

Definition derive_worker_id_from_branch (branch : string) : option string := fst <$> split_once "/" branch.

Definition resolve_worker_id_from_pr (pr : Value) : option string :=
  match as_str (index "worker_id" pr) with
  | Some w => if is_empty w then derive_worker_id_from_branch (from_option id "" (as_str (index "head_branch" pr)))
              else Some w
  | None => derive_worker_id_from_branch (from_option id "" (as_str (index "head_branch" pr)))
  end.

Definition parse_repository (repository : option string) : string * string :=
  match repository with
  | Some repo => match split_on (char_eqb "/") repo with [o; r] => (o, r) | _ => ("", "") end
  | None => ("", "")
  end.

Definition conflict_attempts_key (n : u64) : string := "_conflict_attempts_" +:+ pretty n.
Definition merge_blocked_key (n : u64) : string := "_merge_blocked_" +:+ pretty n.
Definition ci_fix_attempts_key (n : u64) : string := "_ci_fix_attempts_" +:+ pretty n.

(** ** Directives *)

Definition nl : string := String "010"%char EmptyString.

Definition build_directive (state : PrMonitorState) (n : u64) (why : option string) : string :=
  "/address_review" +:+ nl +:+ "state: " +:+ monitor_as_str state +:+ nl +:+ "pr: " +:+ pretty n +:+ nl
  +:+ match why with
      | Some r => if is_blank r then "" else "reason: " +:+ trim r +:+ nl
      | None => ""
      end
  +:+ nl +:+ "Fetch the full review context (inline comments / conflicted files) "
  +:+ "for this PR and address them, then re-run: openflows-harness status set testing".

Definition annotation_line (a : CheckAnnotationDetail) : string :=
  "- **" +:+ an_check_name a +:+ "** `" +:+ an_path a +:+ ":" +:+ pretty (an_start_line a) +:+ "` "
  +:+ an_message a +:+ nl.

Definition build_ci_fix_directive (n : u64) (ticket branch why : string)
  (detail : option CiFailureDetail) : string :=
  "/ci_fix" +:+ nl +:+ "state: ci_failed" +:+ nl +:+ "pr: " +:+ pretty n +:+ nl
  +:+ "ticket: " +:+ ticket +:+ nl
  +:+ (if is_empty branch then "" else "branch: " +:+ branch +:+ nl)
  +:+ (if is_blank why then "" else "reason: " +:+ trim why +:+ nl)
  +:+ match detail with
      | Some d =>
          match failed_check_names d with
          | [] => ""
          | l => "checks:" +:+ nl +:+ join "" ((λ c, "- " +:+ c +:+ nl) <$> l)
          end
          +:+ match annotations d with
              | [] => ""
              | l => "annotations:" +:+ nl +:+ join "" (annotation_line <$> l)
              end
      | None => ""
      end
  +:+ nl +:+ "Reuse your existing workspace and branch (you already have this PR checked "
  +:+ "out). Match the failed checks to .github/workflows/, reproduce and fix ALL "
  +:+ "errors locally, push, then re-run: openflows-harness status set testing".

(** [collect_rework]: the body of the latest review that has one. *)
Definition collect_rework (reviews : result (list PrReview)) (owner repo : string) : option string :=
  if is_empty owner || is_empty repo then None
  else max_by_submitted (List.filter (λ r, negb (is_blank (from_option id "" (r_body r)))) (or_none reviews))
         ≫= r_body.

(** ** Values *)

(** [value[key] = x] on an object. *)
Definition set_key (key : string) (x : Value) (v : Value) : Value :=
  match v with
  | VObject m =>
      if is_some (assoc key m)
      then VObject ((λ e, if bool_decide (e.1 = key) then (key, x) else e) <$> m)
      else VObject (m ++ [(key, x)])
  | _ => v
  end.

(** Changes the first element that satisfies [p]. *)
Fixpoint update_first {A} (p : A → bool) (f : A → result A) (l : list A) : result (list A) :=
  match l with
  | [] => Ok []
  | a :: l => if p a then b ← f a; Ok (b :: l) else l' ← update_first p f l; Ok (a :: l')
  end.

(** ** The world outside *)

Record Outside : Type := mkOutside {
  address_review_enabled : bool;
  coder_config : option (string * option string);
  coder_api_token : option string;
  send_chat_message : string → string → bool;
  chats : list (string * string);
  delete_workspace : string → bool;
  pr_reviews : u64 → result (list PrReview);
  workspace_root : option string;
  file_written : string → bool;
  new_uuid : nat → string;
  now_rfc3339 : nat → string;
  slot_order : gmap string WorkerSlot → list (string * WorkerSlot);
}.

Section post.
Context (others : nat → SharedStore → SharedStore) (clock : nat → u64) (o : Outside).

Local Notation v_lifecycle := (v_lifecycle others).
Local Notation v_get := (v_get others).
Local Notation v_write := (v_write others).
Local Notation v_transition := (v_transition others clock).
Local Notation remove_from_pending_prs := (remove_from_pending_prs others).

Fixpoint v_for {A} (l : list A) (f : A → St VState unit) : St VState unit :=
  match l with [] => mret tt | a :: l => _ ← f a; v_for l f end.

Definition v_emit (event_type : string) (payload : Value) : St VState unit :=
  _ ← v_await others;
  st_modify (λ v, set_v_store (emit (v_store v) "vessel" event_type payload (clock (v_clock v))) v).

Definition v_slots : St VState (gmap string WorkerSlot) :=
  slots ← v_get KEY_WORKER_SLOTS; mret (from_option id ∅ slots).

Definition v_tickets : St VState (list Ticket) :=
  tickets ← v_get KEY_TICKETS; mret (from_option id [] tickets).

Definition set_slots (slots : gmap string WorkerSlot) : St VState unit :=
  v_write (λ s, set s KEY_WORKER_SLOTS (to_value slots)).

Definition set_tickets (tickets : list Ticket) : St VState unit :=
  v_write (λ s, set s KEY_TICKETS (to_value tickets)).

(** ** Counters *)

Definition get_attempts (key : string) : St VState u32 :=
  n ← v_get key; mret (from_option id u32_0 n).

Definition increment_attempts (key : string) : St VState unit :=
  current ← get_attempts key;
  next ← st_lift (u32_succ current);
  v_write (λ s, set s key (to_value next)).

(** ** Coder *)

(** [coder_client_from_store]: whether there is an address and a token. *)
Definition coder_client_from_store : St VState bool :=
  url ← v_get "coder_url";
  let url : option string := match url with Some u => Some u | None => fst <$> coder_config o end in
  let token := match coder_config o ≫= snd with Some t => Some t | None => coder_api_token o end in
  token ← (if is_some_and (λ t, negb (is_empty t)) token then mret token else v_get "coder_api_token");
  mret (is_some_and (λ u, negb (is_empty u)) url && is_some_and (λ t, negb (is_empty t)) token).

Definition clear_slot_workspace (workspace : string) : St VState unit :=
  slots ← v_slots;
  let holds s := bool_decide (slot_workspace_id s = Some workspace) in
  if existsb (λ e, holds e.2) (map_to_list slots) then
    set_slots ((λ s, if holds s then mkSlot (slot_id s) (slot_status s) None else s) <$> slots)
  else mret tt.

Definition stop_coder_workspace_for_worker (workspace : string) : St VState unit :=
  client ← coder_client_from_store;
  _ ← (if (client : bool) then v_effect (StopWorkspace workspace) else mret tt);
  clear_slot_workspace workspace.

Definition destroy_coder_workspace (workspace : string) : St VState bool :=
  client ← coder_client_from_store;
  if (client : bool) then
    _ ← v_for (List.filter (λ c, bool_decide (c.2 = workspace)) (chats o)) (λ c, v_effect (ArchiveChat c.1));
    _ ← v_effect (DeleteWorkspace workspace);
    if delete_workspace o workspace then _ ← clear_slot_workspace workspace; mret true
    else mret false
  else mret false.

(** Whether a slot belongs to the merged pull request. *)
Definition slot_matches (ticket worker : option string) (wid : string) (slot : WorkerSlot) : bool :=
  let current := worker_ticket (slot_status slot) in
  if is_some current && negb (bool_decide (current = ticket)) then false
  else (is_some ticket && bool_decide (current = ticket))
       || (bool_decide (worker = Some wid) && is_none current).

(** A workspace to tear down: its worker, its id and its role. *)
Definition Target : Type := string * string * string.

Definition add_target (l : list Target) (x : Target) : list Target :=
  if existsb (λ y, bool_decide (y.1.2 = x.1.2)) l then l else l ++ [x].

Definition slot_targets (ticket worker : option string) (slots : gmap string WorkerSlot) : list Target :=
  fold_left (λ l e,
    if slot_matches ticket worker e.1 e.2 then
      match slot_workspace_id e.2 with
      | Some ws => add_target l (e.1, ws, worker_role e.1)
      | None => l
      end
    else l) (slot_order o slots) [].

Definition role_worker (role : string) (worker : option string) : string :=
  if bool_decide (role = "sentinel") then "sentinel" else from_option id role worker.

Definition ticket_target (ticket role : string) (worker : option string) (l : list Target)
  : St VState (list Target) :=
  ws ← v_get (full_ticket_key ticket KEY_TICKET_WORKSPACE role);
  mret (match ws with Some ws => add_target l (role_worker role worker, ws, role) | None => l end).

(** The workspaces of the workers of a pull request, from the slots and from the
    ticket's own keys. *)
Definition workspace_targets (pr : Value) : St VState (list Target) :=
  let ticket := as_str (index "ticket_id" pr) in
  let worker := resolve_worker_id_from_pr pr in
  slots ← v_slots;
  let l := slot_targets ticket worker slots in
  match ticket with
  | Some t => l ← ticket_target t "forge" worker l; ticket_target t "sentinel" worker l
  | None => mret l
  end.

Definition stop_coder_workspace_for_pr (pending : list Value) (n : u64) : St VState unit :=
  match find_entry n pending with
  | None => mret tt
  | Some pr => l ← workspace_targets pr; v_for l (λ x, stop_coder_workspace_for_worker x.1.2)
  end.

Definition destroy_target (ticket : option string) (x : Target) : St VState unit :=
  deleted ← destroy_coder_workspace x.1.2;
  match ticket with
  | None => mret tt
  | Some t =>
      let key := full_ticket_key t KEY_TICKET_WORKSPACE x.2 in
      held ← v_get key;
      if (deleted : bool) then
        (if bool_decide (held = Some x.1.2) then v_write (λ s, del s key) else mret tt)
      else (if is_none held then v_write (λ s, set s key (VString x.1.2)) else mret tt)
  end.

Definition destroy_coder_workspace_for_pr (pending : list Value) (n : u64) : St VState unit :=
  match find_entry n pending with
  | None => mret tt
  | Some pr => l ← workspace_targets pr; v_for l (destroy_target (as_str (index "ticket_id" pr)))
  end.

(** ** Tickets *)

Definition has_id (ticket : string) (t : Ticket) : bool := bool_decide (tk_id t = ticket).

Definition set_attempts (n : u32) (t : Ticket) : Ticket :=
  mkTicket (tk_id t) (tk_title t) (tk_body t) (tk_priority t) (tk_branch t) (tk_status t) (tk_issue_url t) n.

(** [update_ticket_status] on the raw list, with the pull request on record. *)
Definition raw_status (status : string) (n : u64) (ticket : Value) : Value :=
  let worker := from_option id "vessel" (as_str (index "worker_id" (index "status" ticket))) in
  set_key "status"
    (VObject [("pr_number", to_value n);
              ("type", VString (if bool_decide (status = "merged_no_ci") then "merged" else status));
              ("worker_id", VString worker)]) ticket.

Definition update_ticket_status (ticket status : string) : St VState unit :=
  tickets ← v_get KEY_TICKETS;
  let tickets : list Value := from_option id [] tickets in
  let mine t := bool_decide (as_str (index "id" t) = Some ticket) in
  n ← (if existsb mine tickets then
         v_read others (λ s, Ok (from_option id 0%N (ok (lifecycle s ticket) ≫= pr_number)))
       else mret 0%N);
  tickets ← st_lift (update_first mine (λ t, Ok (raw_status status n t)) tickets);
  v_write (λ s, set s KEY_TICKETS (VArray tickets)).

Definition mark_ticket_failed (ticket why : string) : St VState unit :=
  tickets ← v_tickets;
  tickets ← st_lift (update_first (has_id ticket) (λ t,
    attempts ← u32_succ (tk_attempts t);
    Ok (set_status (Failed "vessel" why attempts) (set_attempts attempts t))) tickets);
  set_tickets tickets.

Definition status_worker (st : TicketStatus) : option string :=
  match st with
  | Open => None
  | Assigned w | InProgress w | TMerged w _ | Failed w _ _ | Completed w _ | Exhausted w _
  | AwaitingHuman w _ _ => Some w
  end.

Definition workspace_link_for_worker (worker : option string) : St VState string :=
  match worker with
  | None => mret ""
  | Some w =>
      slots ← v_slots;
      match slots !! w ≫= slot_workspace_id with
      | None => mret ""
      | Some ws =>
          url ← v_get "coder_url";
          mret (match url with
                | Some u => trim_end_matches (char_eqb "/") u +:+ "/workspaces/" +:+ ws
                | None => ""
                end)
      end
  end.

Definition mark_ticket_awaiting_human (ticket why : string) : St VState unit :=
  tickets ← v_tickets;
  let mine := snd <$> list_find (λ t, tk_id t = ticket) tickets in
  tickets ← st_lift (update_first (has_id ticket) (λ t,
    attempts ← u32_succ (tk_attempts t);
    Ok (set_status (AwaitingHuman (from_option id "vessel" (status_worker (tk_status t))) why attempts)
          (set_attempts attempts t))) tickets);
  _ ← set_tickets tickets;
  let worker := mine ≫= λ t, status_worker (tk_status t) in
  link ← workspace_link_for_worker worker;
  v_effect (Notify ticket (from_option worker_role "vessel" worker) why link
              (from_option id "" (mine ≫= tk_issue_url))).

(** [str::parse::<u64>]: digits after an optional sign, in range. *)
Definition parse_u64 (s : string) : option u64 :=
  let digits := from_option id s (strip_prefix "+" s) in
  if is_empty digits || negb (all_chars is_ascii_digit digits) then None
  else
    let n := fold_left (λ n c, (n * 10 + (N_of_ascii c - 48))%N) (chars digits) 0%N in
    if (n <? U64_MOD)%N then Some n else None.

Definition close_github_issue (ticket : string) : St VState unit :=
  match strip_prefix "T-" ticket ≫= parse_u64 with
  | None => mret tt
  | Some issue =>
      repository ← v_get "repository";
      let '(owner, repo) := parse_repository repository in
      if is_empty owner || is_empty repo then mret tt else v_effect (CloseIssue owner repo issue)
  end.

(** ** Workers *)

Definition recycle_slot (s : WorkerSlot) : WorkerSlot :=
  match slot_status s with
  | WDone _ _ | WAssigned _ _ | Working _ _ => mkSlot (slot_id s) Idle None
  | _ => mkSlot (slot_id s) (slot_status s) None
  end.

Definition recycle_changes (s : WorkerSlot) : bool :=
  match slot_status s with
  | WDone _ _ | WAssigned _ _ | Working _ _ => true
  | _ => is_some (slot_workspace_id s)
  end.

Definition recycle_worker (pr : Value) : St VState unit :=
  let ticket := as_str (index "ticket_id" pr) in
  let worker := resolve_worker_id_from_pr pr in
  if is_none worker && is_none ticket then mret tt
  else
    slots ← v_slots;
    if existsb (λ e, slot_matches ticket worker e.1 e.2 && recycle_changes e.2) (map_to_list slots) then
      set_slots (map_imap (λ w s, Some (if slot_matches ticket worker w s then recycle_slot s else s)) slots)
    else mret tt.

Definition find_idle_forge_worker : St VState (option string) :=
  slots ← v_slots;
  mret (fst <$> (snd <$> list_find (λ e,
    starts_with "forge-" e.1 && match slot_status e.2 with Idle | WDone _ _ => true | _ => false end)
    (entries slots))).

Definition reassign_url (slot : WorkerSlot) (ticket : string) : St VState (option string) :=
  let url_of t := tickets ← v_tickets; mret ((snd <$> list_find (λ x, tk_id x = t) tickets) ≫= tk_issue_url) in
  match slot_status slot with
  | WDone t _ => url_of t
  | Idle => url_of ticket
  | _ => mret None
  end.

Definition assign_worker_for_conflict_rework (worker ticket : string) : St VState bool :=
  slots ← v_slots;
  match slots !! worker with
  | Some slot =>
      url ← reassign_url slot ticket;
      _ ← set_slots (<[worker := mkSlot (slot_id slot) (WAssigned ticket url) (slot_workspace_id slot)]> slots);
      mret true
  | None => mret false
  end.

Definition is_in_progress (st : TicketStatus) : bool :=
  match st with InProgress _ => true | _ => false end.

Definition assign_worker_for_ci_fix (worker ticket : string) : St VState bool :=
  assigned ← assign_worker_for_conflict_rework worker ticket;
  if (assigned : bool) then
    tickets ← v_tickets;
    _ ← (match list_find (λ t, tk_id t = ticket) tickets with
         | Some (i, t) =>
             if is_in_progress (tk_status t) then mret tt
             else set_tickets (<[i := set_status (InProgress worker) t]> tickets)
         | None => mret tt
         end);
    mret true
  else mret false.

(** The worker named by the pull request, else the first idle FORGE. *)
Definition reassign (assign : string → string → St VState bool) (worker : option string) (ticket : string)
  : St VState bool :=
  let fallback := w ← find_idle_forge_worker; match w with Some w => assign w ticket | None => mret false end in
  match worker with
  | Some w => done ← assign w ticket; if (done : bool) then mret true else fallback
  | None => fallback
  end.

(** ** Rework *)

Definition persist_rework_directive (ticket role directive : string) : St VState unit :=
  let key := full_ticket_key ticket KEY_TICKET_REWORK_DIRECTIVE role in
  held ← v_read others (λ s, Ok (Store.get s key));
  _ ← (if is_none held then
         _ ← v_await others;
         st_modify (λ v, set_v_store
           (set (v_store v) (full_ticket_key ticket KEY_TICKET_REWORK_DELIVERY_ID role)
              (VString (new_uuid o (v_clock v)))) v)
       else mret tt);
  v_write (λ s, set s key (VString directive)).

(** The common part of the two dispatches: the directive goes to the chat of the
    ticket's FORGE, or is kept for NEXUS. *)
Definition dispatch_to_forge (ticket directive : string) : St VState bool :=
  chat ← v_get (full_ticket_key ticket KEY_TICKET_CHAT "forge");
  client ← coder_client_from_store;
  match chat with
  | Some chat =>
      if (client : bool) then
        _ ← v_effect (SendChat chat directive); mret (send_chat_message o chat directive)
      else _ ← persist_rework_directive ticket "forge" directive; mret false
  | None => _ ← persist_rework_directive ticket "forge" directive; mret false
  end.

Definition dispatch_address_review_for_pr (n : u64) (state : PrMonitorState) (ticket : string)
  : St VState bool :=
  if address_review_enabled o then
    repository ← v_get "repository";
    let '(owner, repo) := parse_repository repository in
    dispatch_to_forge ticket (build_directive state n (collect_rework (pr_reviews o n) owner repo))
  else mret false.

Definition dispatch_ci_fix_for_pr (n : u64) (ticket branch why : string) (detail : option CiFailureDetail)
  : St VState bool :=
  dispatch_to_forge ticket (build_ci_fix_directive n ticket branch why detail).

(** [write_ci_fix_md]; the text of the file is not modelled. *)
Definition write_ci_fix_md (n : u64) (branch why : string) : St VState bool :=
  match workspace_root o, split_once "/" branch with
  | Some _, Some (pair_id, _) =>
      if file_written o pair_id then _ ← v_effect (WriteCiFix branch why n); mret true else mret false
  | _, _ => mret false
  end.

(** ** Left-over workspaces *)

(** A workspace of a terminal ticket: its id and the key that names it. *)
Definition raw_terminal (ticket : Value) : bool :=
  match from_value (index "status" ticket) with
  | Ok st => Tickets.is_terminal st
  | _ =>
      bool_decide (from_option id "" (as_str (index "type" (index "status" ticket)))
                   ∈ ["merged"; "exhausted"; "completed"])
  end.

Definition is_done (ticket : string) : St VState bool :=
  v_read others (λ s, Ok (is_some_and (λ lc, bool_decide (phase lc = Done)) (ok (lifecycle s ticket)))).

Definition retained (ticket role : string) : St VState (list (string * string)) :=
  let key := full_ticket_key ticket KEY_TICKET_WORKSPACE role in
  ws ← v_get key;
  mret (match ws with Some ws => [(ws, key)] | None => [] end).

Fixpoint cleanup_list (tickets : list Value) : St VState (list (string * string)) :=
  match tickets with
  | [] => mret []
  | ticket :: tickets =>
      mine ←
        (match as_str (index "id" ticket) with
         | None => mret []
         | Some t =>
             terminal ← (if raw_terminal ticket then mret true else is_done t);
             if (terminal : bool) then
               a ← retained t "forge"; b ← retained t "sentinel"; mret (a ++ b)
             else mret []
         end);
      rest ← cleanup_list tickets;
      mret (mine ++ rest)
  end.

(** [cleanup_terminal_ticket_workspaces]; the deletions run one after the other
    here, together in the source. *)
Definition cleanup_terminal_ticket_workspaces : St VState unit :=
  tickets ← v_get KEY_TICKETS;
  let tickets : list Value := from_option id [] tickets in
  targets ← cleanup_list tickets;
  v_for targets (λ x,
    deleted ← destroy_coder_workspace x.1;
    if (deleted : bool) then
      held ← v_get x.2;
      if bool_decide (held = Some x.1) then v_write (λ s, del s x.2) else mret tt
    else mret tt).

(** ** Re-armed reviews *)

(** What follows the last occurrence of [p]: [s.rsplit(p).next()]. *)
Fixpoint after_last (p s : string) : string :=
  match s with
  | EmptyString => s
  | String _ s' =>
      if contains p s' then after_last p s'
      else match strip_prefix p s with Some r => r | None => s end
  end.

Definition REARMED_PREFIX : string := "_address_review_rearmed_".

Definition pending_entry (pr : PrInfo) : Value :=
  VObject [("base_branch", to_value (base_branch pr)); ("has_conflicts", to_value (has_conflicts pr));
           ("head_branch", to_value (head_branch pr)); ("head_sha", to_value (head_sha pr));
           ("mergeable", match mergeable pr with Some b => VBool b | None => VNull end);
           ("number", to_value (number pr)); ("ticket_id", to_value (ticket_id pr));
           ("title", to_value (title pr))].

Definition rearm_one (fetch : u64 → result PrInfo) (key : string) : St VState unit :=
  match parse_u64 (trim (after_last REARMED_PREFIX key)) with
  | None => mret tt
  | Some n =>
      pending ← v_get KEY_PENDING_PRS;
      let pending : list Value := from_option id [] pending in
      _ ← (if is_some (find_entry n pending) then mret tt
           else match fetch n with
                | Ok pr => v_write (λ s, set s KEY_PENDING_PRS (VArray (pending ++ [pending_entry pr])))
                | Err _ => mret tt
                | Panic => st_lift Panic
                end);
      v_write (λ s, del s (address_review_rearmed_key n))
  end.

Definition rearm_review_prs (fetch : u64 → result PrInfo) : St VState unit :=
  keys ← v_read others (λ s, Ok (Store.keys s (REARMED_PREFIX +:+ "*")));
  v_for keys (rearm_one fetch).

(** [prep]: the repository and the queue. *)
Definition prep (fetch : u64 → result PrInfo) : St VState (string * string * list Value) :=
  repository ← v_get "repository";
  pending ← v_get KEY_PENDING_PRS;
  let pending : list Value := from_option id [] pending in
  snapshot ← v_get KEY_MERGE_READY_PRS;
  let '(owner, repo) := parse_repository repository in
  _ ← rearm_review_prs fetch;
  queue ← v_read others (λ s, Ok (effective_queue s pending snapshot));
  mret (owner, repo, queue).
End post.
