(* ===== verification/VesselAct.v ===== *)
(** * VESSEL: the [post] phase

    One definition per outcome of [post] in [src/crates/agent-vessel/src/node.rs],
    the step back to building that comes before them, and the choice of the
    action. *)
From S2P Require Import Prelude Text Json ValueCodec Lifecycle LifecycleCodec Store Flow Tickets Review.
From S2P Require Import Vessel VesselQueue VesselPost.

(** What [post] remembers between outcomes. *)
Record Flags : Type := mkFlags {
  any_success : bool;
  any_failure : bool;
  any_conflicts : bool;
  any_ci_fix : bool;
  any_awaiting_human : bool;
  any_address_review : bool;
  any_rework_provision : bool;
  any_needs_review : bool;
  failed_ticket_ids : list string;
}.

Definition no_flags : Flags := mkFlags false false false false false false false false [].

Definition set_success (f : Flags) : Flags :=
  mkFlags true (any_failure f) (any_conflicts f) (any_ci_fix f) (any_awaiting_human f)
    (any_address_review f) (any_rework_provision f) (any_needs_review f) (failed_ticket_ids f).
Definition set_failure (f : Flags) : Flags :=
  mkFlags (any_success f) true (any_conflicts f) (any_ci_fix f) (any_awaiting_human f)
    (any_address_review f) (any_rework_provision f) (any_needs_review f) (failed_ticket_ids f).
Definition set_conflicts (f : Flags) : Flags :=
  mkFlags (any_success f) (any_failure f) true (any_ci_fix f) (any_awaiting_human f)
    (any_address_review f) (any_rework_provision f) (any_needs_review f) (failed_ticket_ids f).
Definition set_ci_fix (f : Flags) : Flags :=
  mkFlags (any_success f) (any_failure f) (any_conflicts f) true (any_awaiting_human f)
    (any_address_review f) (any_rework_provision f) (any_needs_review f) (failed_ticket_ids f).
Definition set_awaiting_human (f : Flags) : Flags :=
  mkFlags (any_success f) (any_failure f) (any_conflicts f) (any_ci_fix f) true
    (any_address_review f) (any_rework_provision f) (any_needs_review f) (failed_ticket_ids f).
Definition set_address_review (f : Flags) : Flags :=
  mkFlags (any_success f) (any_failure f) (any_conflicts f) (any_ci_fix f) (any_awaiting_human f)
    true (any_rework_provision f) (any_needs_review f) (failed_ticket_ids f).
Definition set_rework_provision (f : Flags) : Flags :=
  mkFlags (any_success f) (any_failure f) (any_conflicts f) (any_ci_fix f) (any_awaiting_human f)
    (any_address_review f) true (any_needs_review f) (failed_ticket_ids f).
Definition set_needs_review (f : Flags) : Flags :=
  mkFlags (any_success f) (any_failure f) (any_conflicts f) (any_ci_fix f) (any_awaiting_human f)
    (any_address_review f) (any_rework_provision f) true (failed_ticket_ids f).
Definition add_failed (t : string) (f : Flags) : Flags :=
  mkFlags (any_success f) (any_failure f) (any_conflicts f) (any_ci_fix f) (any_awaiting_human f)
    (any_address_review f) (any_rework_provision f) (any_needs_review f) (failed_ticket_ids f ++ [t]).

Definition choose_action (f : Flags) : string :=
  if any_awaiting_human f then "awaiting_human"
  else if any_conflicts f then ACTION_CONFLICTS_DETECTED
  else if any_rework_provision f then ACTION_REWORK_PROVISION_NEEDED
  else if any_address_review f then ACTION_ADDRESS_REVIEW_DISPATCHED
  else if any_needs_review f then PAUSE_SIGNAL
  else if any_success f then "deployed"
  else if any_ci_fix f then ACTION_CI_FIX_NEEDED
  else if any_failure f then "deploy_failed"
  else "no_work".

(** [ticket_id.unwrap_or_else(|| format!("T-{}", pr_number))]. *)
Definition ticket_or_pr (ticket : option string) (n : u64) : string :=
  from_option id ("T-" +:+ pretty n) ticket.

Definition ticket_pr_payload (ticket : option string) (n : u64) (more : list (string * Value)) : Value :=
  VObject ([("ticket_id", to_value ticket); ("pr_number", to_value n)] ++ more).

(** The entry of a pull request with its ticket filled in. *)
Definition entry_for (pending : list Value) (n : u64) (ticket : string) : Value :=
  let pr := from_option id (VObject [("number", to_value n)]) (find_entry n pending) in
  if is_none (as_str (index "ticket_id" pr)) then set_key "ticket_id" (VString ticket) pr else pr.

Definition head_branch_for (pending : list Value) (n : u64) (ticket : option string) : string :=
  match find_entry n pending ≫= λ p, as_str (index "head_branch" p) with
  | Some b => b
  | None => match ticket with Some t => "unknown-pair/" +:+ t | None => "unknown/" +:+ pretty n end
  end.

Definition reviews_state (state : string) : PrMonitorState :=
  if bool_decide (state = "changes_requested") then MChangesRequested
  else if bool_decide (state = "comments") then MComments
  else if bool_decide (state = "needs_review") then MNeedsReview
  else MComments.

Section act.
Context (others : nat → SharedStore → SharedStore) (clock : nat → u64) (o : Outside).

Local Notation v_lifecycle := (v_lifecycle others).
Local Notation v_get := (v_get others).
Local Notation v_write := (v_write others).
Local Notation v_transition := (v_transition others clock).
Local Notation remove_from_pending_prs := (remove_from_pending_prs others).
Local Notation v_emit := (v_emit others clock).

(** ** Merged *)

Definition post_merged (pending : list Value) (ticket : string) (n : u64) (sha pr_title : string)
  (pr_body : option string) (f : Flags) : St VState Flags :=
  _ ← emit_ticket_merged others clock ticket n sha pr_title pr_body;
  _ ← v_write (λ s, set s (full_ticket_key_flat ticket KEY_TICKET_DEPLOYMENT)
        (VObject [("merged", VBool true); ("pr_number", to_value n); ("sha", to_value sha)]));
  _ ← destroy_coder_workspace_for_pr others o pending n;
  _ ← close_github_issue others ticket;
  _ ← update_ticket_status others ticket "merged";
  _ ← remove_from_pending_prs n;
  _ ← recycle_worker others (entry_for pending n ticket);
  mret (set_success f).

(** ** Failures *)

(** [if !failed_ticket_ids.contains(&tid) { mark_ticket_failed; push }]. *)
Definition fail_once (ticket why : string) (f : Flags) : St VState Flags :=
  if bool_decide (ticket ∈ failed_ticket_ids f) then mret f
  else _ ← mark_ticket_failed others ticket why; mret (add_failed ticket f).

(** The two CI outcomes after their event: [what] is how the failure is worded. *)
Definition ci_rework (pending : list Value) (ticket : option string) (n : u64) (what why : string)
  (detail : option CiFailureDetail) (f : Flags) : St VState Flags :=
  let tid := ticket_or_pr ticket n in
  attempts ← get_attempts others (ci_fix_attempts_key n);
  if (MAX_CI_FIX_ATTEMPTS <=? `attempts)%N then
    f ← fail_once tid (what +:+ " for PR #" +:+ pretty n +:+ " after " +:+ pretty (`attempts)
                       +:+ " fix attempts") f;
    _ ← remove_from_pending_prs n;
    mret (set_failure f)
  else
    let worker := find_entry n pending ≫= resolve_worker_id_from_pr in
    let branch := head_branch_for pending n ticket in
    sent ← dispatch_ci_fix_for_pr others o n tid branch why detail;
    _ ← (if (sent : bool) then mret false else write_ci_fix_md o n branch why);
    reassigned ← reassign others (assign_worker_for_ci_fix others) worker tid;
    _ ← remove_from_pending_prs n;
    if (reassigned : bool) then
      _ ← increment_attempts others (ci_fix_attempts_key n);
      mret (set_ci_fix f)
    else
      f ← fail_once tid (what +:+ " for PR #" +:+ pretty n +:+ " — no worker available for fix") f;
      mret (set_failure f).

Definition post_ci_failed (pending : list Value) (ticket : option string) (n : u64) (why : string)
  (detail : option CiFailureDetail) (f : Flags) : St VState Flags :=
  _ ← v_emit "ci_failed" (ticket_pr_payload ticket n [("reason", VString why)]);
  ci_rework pending ticket n "CI failed" why detail f.

Definition post_ci_timeout (pending : list Value) (ticket : option string) (n : u64) (f : Flags)
  : St VState Flags :=
  _ ← v_emit "ci_timeout" (ticket_pr_payload ticket n []);
  ci_rework pending ticket n "CI timed out" "CI timed out — possible stuck or flaky CI run" None f.

Definition post_merge_blocked (ticket : option string) (n : u64) (why : string) (f : Flags)
  : St VState Flags :=
  _ ← v_emit "merge_blocked" (ticket_pr_payload ticket n [("reason", VString why)]);
  _ ← (if is_merge_conflict_message why then increment_attempts others (merge_blocked_key n) else mret tt);
  f ← fail_once (ticket_or_pr ticket n) ("Merge blocked for PR #" +:+ pretty n +:+ ": " +:+ why) f;
  _ ← remove_from_pending_prs n;
  mret (set_failure f).

Definition post_ci_missing (pending : list Value) (ticket : option string) (n : u64) (f : Flags)
  : St VState Flags :=
  let tid := ticket_or_pr ticket n in
  _ ← v_emit "ci_missing" (ticket_pr_payload ticket n []);
  _ ← emit_ticket_merged others clock tid n "" "Merged without CI validation" None;
  _ ← stop_coder_workspace_for_pr others o pending n;
  _ ← update_ticket_status others tid "merged_no_ci";
  _ ← close_github_issue others tid;
  _ ← remove_from_pending_prs n;
  _ ← recycle_worker others (entry_for pending n tid);
  mret (set_success f).

(** ** Conflicts *)

Definition post_conflicts (pending : list Value) (ticket : option string) (n : u64) (files : list string)
  (f : Flags) : St VState Flags :=
  let tid := ticket_or_pr ticket n in
  attempts ← get_attempts others (conflict_attempts_key n);
  _ ← v_emit "conflicts_detected" (ticket_pr_payload ticket n [("conflicted_files", to_value files)]);
  if (MAX_CONFLICT_RESOLUTION_ATTEMPTS <=? `attempts)%N then
    _ ← mark_ticket_awaiting_human others tid
          ("Merge conflicts on PR #" +:+ pretty n +:+ " not resolved after " +:+ pretty (`attempts)
           +:+ " attempts — requires human intervention");
    _ ← remove_from_pending_prs n;
    mret (set_awaiting_human f)
  else
    _ ← dispatch_address_review_for_pr others o n MConflicts tid;
    let worker := find_entry n pending ≫= resolve_worker_id_from_pr in
    reassigned ← reassign others (assign_worker_for_conflict_rework others) worker tid;
    _ ← remove_from_pending_prs n;
    if (reassigned : bool) then
      _ ← increment_attempts others (conflict_attempts_key n);
      mret (set_conflicts f)
    else
      _ ← mark_ticket_failed others tid
            ("Merge conflicts on PR #" +:+ pretty n +:+ " — no worker available for rework");
      mret (set_failure f).

(** ** Reviews *)

Definition pending_pr_head_sha (n : u64) : St VState (option string) :=
  pending ← v_get KEY_PENDING_PRS;
  let pending : list Value := from_option id [] pending in
  mret (find_entry n pending ≫= λ p, as_str (index "head_sha" p)).

(** The head a review outcome is about. *)
Definition current_head (h : option string) (n : u64) : St VState (option string) :=
  pending ← pending_pr_head_sha n;
  mret (match h with Some h => Some h | None => pending end).

Definition already_dispatched (h last : option string) : bool :=
  match h with Some sha => bool_decide (last = Some sha) | None => false end.

(** The worker a reworked ticket is put in progress for. *)
Definition rework_worker (pending : list Value) (n : u64) (tid : string) (st : TicketStatus)
  (slots : gmap string WorkerSlot) : string :=
  let known w := is_some (slots !! w) in
  let own := match st with
             | Assigned w | InProgress w | Completed w _ =>
                 if negb (bool_decide (w = "nexus-reconciliation")) && known w then Some w else None
             | _ => None
             end in
  let by_slot := fst <$> (snd <$> list_find (λ e,
      bool_decide (worker_role e.1 = "forge") &&
      match slot_status e.2 with WAssigned t _ | Working t _ => bool_decide (t = tid) | _ => false end)
      (slot_order o slots)) in
  let by_entry := find_entry n pending ≫= λ p,
      match as_str (index "worker_id" p) with
      | Some w =>
          if negb (is_empty w) && known w then Some w
          else derive_worker_id_from_branch (from_option id "" (as_str (index "head_branch" p)))
                 ≫= λ w, if known w then Some w else None
      | None =>
          derive_worker_id_from_branch (from_option id "" (as_str (index "head_branch" p)))
            ≫= λ w, if known w then Some w else None
      end in
  let any := fst <$> (snd <$> list_find (λ e, starts_with "forge" e.1) (slot_order o slots)) in
  match own, by_slot, by_entry, any with
  | Some w, _, _, _ => w
  | None, Some w, _, _ => w
  | None, None, Some w, _ => w
  | None, None, None, Some w => w
  | None, None, None, None => "forge-1"
  end.

Definition put_in_progress (pending : list Value) (n : u64) (tid : string) : St VState unit :=
  tickets ← v_tickets others;
  match list_find (λ t, tk_id t = tid) tickets with
  | Some (i, t) =>
      if is_in_progress (tk_status t) then mret tt
      else
        slots ← v_slots others;
        set_tickets others
          (<[i := set_status (InProgress (rework_worker pending n tid (tk_status t) slots)) t]> tickets)
  | None => mret tt
  end.

(** The head, the time and the count of a dispatched rework. *)
Definition note_dispatch (n : u64) (h : option string) : St VState unit :=
  _ ← (match h with
       | Some sha => v_write (λ s, set s (address_review_dispatched_key n) (VString sha))
       | None => mret tt
       end);
  _ ← v_await others;
  _ ← st_modify (λ v, set_v_store
        (set (v_store v) (address_review_dispatched_at_key n) (VString (now_rfc3339 o (v_clock v)))) v);
  increment_attempts others (address_review_attempts_key n).

Definition post_reviews (pending : list Value) (ticket : option string) (n : u64) (state : string)
  (h : option string) (f : Flags) : St VState Flags :=
  let tid := ticket_or_pr ticket n in
  h ← current_head h n;
  last ← v_get (address_review_dispatched_key n);
  attempts ← get_attempts others (address_review_attempts_key n);
  let monitor := reviews_state state in
  if bool_decide (monitor = MNeedsReview) then mret (set_needs_review f)
  else if already_dispatched h last then
    _ ← remove_from_pending_prs n; mret f
  else if (MAX_ADDRESS_REVIEW_ATTEMPTS <=? `attempts)%N then
    _ ← mark_ticket_awaiting_human others tid
          ("PR #" +:+ pretty n +:+ " in review-rework state (" +:+ state +:+ ") not addressed after "
           +:+ pretty (`attempts) +:+ " dispatch attempts");
    _ ← remove_from_pending_prs n;
    mret (set_awaiting_human f)
  else
    sent ← dispatch_address_review_for_pr others o n monitor tid;
    f ← (if (sent : bool) then
           _ ← put_in_progress pending n tid;
           _ ← note_dispatch n h;
           mret (set_address_review f)
         else
           repository ← v_get "repository";
           let '(owner, repo) := parse_repository repository in
           _ ← persist_rework_directive others o tid "forge"
                 (build_directive monitor n (collect_rework (pr_reviews o n) owner repo));
           _ ← note_dispatch n h;
           mret (set_rework_provision f));
    _ ← remove_from_pending_prs n;
    mret f.

(** ** The loop *)

Definition is_rework (outcome : VesselOutcome) : bool :=
  match outcome with
  | OCiFailed _ _ _ _ | OCiTimeout _ _ | OConflicts _ _ _ => true
  | OReviews _ _ state _ => negb (bool_decide (state = "needs_review"))
  | _ => false
  end.

(** The step back to building before an outcome that asks for rework. *)
Definition release_candidate (outcome : VesselOutcome) : St VState unit :=
  match is_rework outcome, outcome_ticket outcome with
  | true, Some ticket =>
      let n := outcome_pr outcome in
      dispatched ←
        (match outcome with
         | OReviews _ _ _ h =>
             curr ← current_head h n;
             last ← v_get (address_review_dispatched_key n);
             mret (already_dispatched curr last)
         | _ => mret false
         end);
      if (dispatched : bool) then mret tt
      else
        current ← v_lifecycle ticket;
        if bool_decide (phase current = Submit) && negb (merge_pending current) then
          _ ← v_transition ticket (version current) "vessel" (Move Building None); mret tt
        else mret tt
  | _, _ => mret tt
  end.

Definition post_outcome (pending : list Value) (outcome : VesselOutcome) (f : Flags) : St VState Flags :=
  _ ← release_candidate outcome;
  match outcome with
  | OMerged t n sha ti b => post_merged pending t n sha ti b f
  | OCiFailed t n why d => post_ci_failed pending t n why d f
  | OMergeBlocked t n why => post_merge_blocked t n why f
  | OCiTimeout t n => post_ci_timeout pending t n f
  | OCiMissing t n => post_ci_missing pending t n f
  | OConflicts t n files => post_conflicts pending t n files f
  | OReviews t n st h => post_reviews pending t n st h f
  | OUnmanaged n why =>
      _ ← v_write (λ s, set s ("pr:" +:+ pretty n +:+ ":unmanaged") (VObject [("reason", VString why)]));
      _ ← remove_from_pending_prs n;
      mret (set_awaiting_human f)
  | ODocsPrClosed n _ =>
      _ ← remove_from_pending_prs n;
      mret (set_success f)
  end.

Fixpoint post_outcomes (pending : list Value) (outcomes : list VesselOutcome) (f : Flags) : St VState Flags :=
  match outcomes with
  | [] => mret f
  | outcome :: outcomes => f ← post_outcome pending outcome f; post_outcomes pending outcomes f
  end.

(** [post]; [has_work] is whether [exec] has outcomes. *)
Definition post (outcomes : list VesselOutcome) : St VState string :=
  pending ← v_get KEY_PENDING_PRS;
  let pending : list Value := from_option id [] pending in
  if bool_decide (length outcomes = 0) then
    if bool_decide (length pending = 0)
    then _ ← cleanup_terminal_ticket_workspaces others o; mret "no_work"
    else mret PAUSE_SIGNAL
  else
    f ← post_outcomes pending outcomes no_flags;
    mret (choose_action f).

(** [reconcile] at start-up; [pending] is the stored queue with GitHub's answers. *)
Definition reconcile (pending : list (Value * Answers)) : St VState unit :=
  _ ← cleanup_terminal_ticket_workspaces others o;
  reconcile_pending others clock pending.
End act.
