(* ===== verification/VesselActProps.v ===== *)
(** * Properties of VESSEL's [post] phase *)
From Stdlib Require Import Sorting.Sorted.
From S2P Require Import Prelude Text Json ValueCodec Lifecycle LifecycleFacts LifecycleProps LifecycleCodec.
From S2P Require Import Store StoreProps Flow Tickets Review Hoare Vessel VesselQueue VesselFacts VesselProps.
From S2P Require Import VesselPost VesselAct.

(** ** Ticket records in [post] *)

(** A name that cannot end a ticket record's key. *)
Definition plain (role : string) : Prop := no_char ":" role = true ∧ role ≠ "status".

#[export] Instance plain_dec role : base.Decision (plain role).
Proof. unfold plain. apply _. Defined.

Lemma not_status_plain a role : plain role → not_status (a +:+ String ":" role).
Proof.
  intros [Hc Hne] t E. unfold status_key in E. rewrite <- string_app_assoc in E.
  by apply (app_sep_inj_r ":") in E as [_ ?].
Qed.

Lemma not_status_role t sub role : plain role → not_status (full_ticket_key t sub role).
Proof.
  intros H. unfold full_ticket_key.
  replace ("ticket:" +:+ t +:+ ":" +:+ sub +:+ ":" +:+ role)
    with (("ticket:" +:+ t +:+ ":" +:+ sub) +:+ String ":" role) by (by rewrite !string_app_assoc).
  by apply not_status_plain.
Qed.

Lemma not_status_flat t : not_status (full_ticket_key_flat t KEY_TICKET_DEPLOYMENT).
Proof.
  unfold full_ticket_key_flat.
  replace ("ticket:" +:+ t +:+ ":" +:+ KEY_TICKET_DEPLOYMENT)
    with (("ticket:" +:+ t) +:+ String ":" KEY_TICKET_DEPLOYMENT) by (by rewrite !string_app_assoc).
  by apply not_status_plain.
Qed.

#[local] Hint Resolve not_status_flat not_status_role : triple.
#[local] Hint Extern 1 (plain _) => done : triple.

(** ** Footprints

    [J] is an invariant that waiting, events, effects other than a merge, and
    writes to [allowed] keys preserve; the keys of tickets, slots, workspaces and
    directives are allowed, those of the queue and the counters are asked for
    where they are written. *)
Section footprint.
Context (others : nat → SharedStore → SharedStore) (clock : nat → u64) (o : Outside).
Context (Hslots : ∀ m e, e ∈ slot_order o m → plain (worker_role e.1)).
Context (J : VState → Prop) (allowed : string → Prop).
Context (Hawait : keeps J (v_await others)).
Context (Hset : ∀ v k x, allowed k → J v → J (set_v_store (set (v_store v) k x) v)).
Context (Hdel : ∀ v k, allowed k → J v → J (set_v_store (del (v_store v) k) v)).
Context (Hemit : ∀ v a t p now, J v → J (set_v_store (emit (v_store v) a t p now) v)).
Context (Heff : ∀ e, (∀ c, e ≠ Merge c) → keeps J (v_effect e)).
Context (Htickets : allowed KEY_TICKETS) (Hslotkey : allowed KEY_WORKER_SLOTS).
Context (Hrole : ∀ t sub role, plain role → allowed (full_ticket_key t sub role)).
Context (Hflat : ∀ t, allowed (full_ticket_key_flat t KEY_TICKET_DEPLOYMENT)).
Local Notation I := J.

#[local] Hint Resolve Hawait Hrole Hflat : triple.
#[local] Hint Extern 2 (keeps _ (v_effect _)) => apply Heff; discriminate : triple.

Lemma foot_read {A} (f : SharedStore → result A) : keeps J (v_read others f).
Proof. apply keeps_bind; [auto with triple|]. intros _ v Hv. cbn. by destruct (f (v_store v)). Qed.
Lemma foot_request {A} (r : result A) : keeps J (v_request others r).
Proof. apply keeps_bind; auto with triple. Qed.
#[local] Hint Resolve foot_read foot_request : triple.

Lemma keeps_set k v : allowed k → keeps I (v_write others (λ s, set s k v)).
Proof. intros H. apply keeps_bind; [auto with triple|]. intros _. apply keeps_modify. auto. Qed.
Lemma keeps_del k : allowed k → keeps I (v_write others (λ s, del s k)).
Proof. intros H. apply keeps_bind; [auto with triple|]. intros _. apply keeps_modify. auto. Qed.
#[local] Hint Resolve keeps_set keeps_del : triple.

Lemma keeps_get {A} `{Serde A} k : keeps I (v_get others (A:=A) k).
Proof. unfold v_get. auto with triple. Qed.
#[local] Hint Resolve keeps_get : triple.

Lemma keeps_for {A} (l : list A) f : (∀ a, a ∈ l → keeps I (f a)) → keeps I (v_for l f).
Proof.
  induction l as [|a l IH]; intros Hf; cbn [v_for]; [auto with triple|].
  apply keeps_bind; [apply Hf; by left|]. intros _. apply IH. intros b Hb. apply Hf. by right.
Qed.

Lemma keeps_emit t p : keeps I (v_emit others clock t p).
Proof. apply keeps_bind; [auto with triple|]. intros _. apply keeps_modify. auto. Qed.
Lemma keeps_emit_merged t n sha ti b : keeps I (emit_ticket_merged others clock t n sha ti b).
Proof. apply keeps_bind; [auto with triple|]. intros _. apply keeps_modify. auto. Qed.
Lemma keeps_slots : keeps I (v_slots others).
Proof. unfold v_slots. keeps_auto. Qed.
Lemma keeps_tickets : keeps I (v_tickets others).
Proof. unfold v_tickets. keeps_auto. Qed.
Lemma keeps_set_slots m : keeps I (set_slots others m).
Proof. unfold set_slots. auto with triple. Qed.
Lemma keeps_set_tickets l : keeps I (set_tickets others l).
Proof. unfold set_tickets. auto with triple. Qed.
Lemma keeps_dequeue n : allowed KEY_PENDING_PRS → keeps I (remove_from_pending_prs others n).
Proof. intros H. unfold remove_from_pending_prs. keeps_auto. Qed.
#[local] Hint Resolve keeps_emit keeps_emit_merged keeps_slots keeps_tickets keeps_set_slots
  keeps_set_tickets keeps_dequeue : triple.

Lemma keeps_increment k : allowed k → keeps I (increment_attempts others k).
Proof. intros Hk. unfold increment_attempts, get_attempts. keeps_auto. Qed.
Lemma keeps_attempts k : keeps I (get_attempts others k).
Proof. unfold get_attempts. keeps_auto. Qed.
Lemma keeps_client : keeps I (coder_client_from_store others o).
Proof. unfold coder_client_from_store. keeps_auto. Qed.
Lemma keeps_clear_workspace ws : keeps I (clear_slot_workspace others ws).
Proof. unfold clear_slot_workspace. keeps_auto. Qed.
#[local] Hint Resolve keeps_increment keeps_attempts keeps_client keeps_clear_workspace : triple.

Lemma keeps_destroy ws : keeps I (destroy_coder_workspace others o ws).
Proof. unfold destroy_coder_workspace. keeps_auto. apply keeps_for. intros c _. auto with triple. Qed.
Lemma keeps_stop ws : keeps I (stop_coder_workspace_for_worker others o ws).
Proof. unfold stop_coder_workspace_for_worker. keeps_auto. Qed.
#[local] Hint Resolve keeps_destroy keeps_stop : triple.

(** The roles of the workspaces to tear down. *)
Lemma add_target_roles l x :
  Forall (λ x : Target, plain x.2) l → plain x.2 → Forall (λ x : Target, plain x.2) (add_target l x).
Proof. intros Hl Hx. unfold add_target. case_match; [done|]. apply Forall_app. auto. Qed.

Lemma slot_targets_roles t w m : Forall (λ x : Target, plain x.2) (slot_targets o t w m).
Proof.
  unfold slot_targets. pose proof (Hslots m) as H.
  assert (∀ l, Forall (λ x : Target, plain x.2) l → Forall (λ x : Target, plain x.2)
    (fold_left (λ l e, if slot_matches t w e.1 e.2 then
       match slot_workspace_id e.2 with Some ws => add_target l (e.1, ws, worker_role e.1) | None => l end
       else l) (slot_order o m) l)) as Hfold; [|by apply Hfold].
  induction (slot_order o m) as [|e es IH]; intros l Hl; cbn [fold_left]; [done|].
  apply IH; [intros e' He'; apply H; by right|].
  destruct (slot_matches _ _ _ _); [|done]. destruct (slot_workspace_id e.2); [|done].
  apply add_target_roles; [done|]. apply H. by left.
Qed.

Lemma triple_ticket_target t role w l :
  plain role → Forall (λ x : Target, plain x.2) l →
  triple I (ticket_target others t role w l) (λ l v, Forall (λ x : Target, plain x.2) l ∧ I v) I.
Proof.
  intros Hr Hl. unfold ticket_target. eapply triple_bind; [apply keeps_get|].
  intros ws. apply triple_ret. intros v Hv. split; [|done].
  destruct ws; [by apply add_target_roles|done].
Qed.

Lemma triple_targets pr :
  triple I (workspace_targets others o pr) (λ l v, Forall (λ x : Target, plain x.2) l ∧ I v) I.
Proof.
  unfold workspace_targets. eapply triple_bind; [apply keeps_slots|]. intros m.
  destruct (as_str _) as [t|]; [|apply triple_ret; intros v Hv; by split; [apply slot_targets_roles|]].
  eapply triple_bind; [by apply triple_ticket_target, slot_targets_roles|]. intros l.
  apply triple_pure. intros Hl. by apply triple_ticket_target.
Qed.

Lemma keeps_destroy_target t x : plain x.2 → keeps I (destroy_target others o t x).
Proof. intros Hx. unfold destroy_target. keeps_auto. Qed.

Lemma keeps_destroy_for_pr pending n : keeps I (destroy_coder_workspace_for_pr others o pending n).
Proof.
  unfold destroy_coder_workspace_for_pr. destruct (find_entry n pending) as [pr|]; [|auto with triple].
  eapply triple_bind; [apply triple_targets|]. intros l. apply triple_pure. intros Hl.
  apply keeps_for. intros x Hx. apply keeps_destroy_target. rewrite Forall_forall in Hl. auto.
Qed.

Lemma keeps_stop_for_pr pending n : keeps I (stop_coder_workspace_for_pr others o pending n).
Proof.
  unfold stop_coder_workspace_for_pr. destruct (find_entry n pending) as [pr|]; [|auto with triple].
  eapply triple_bind; [apply triple_targets|]. intros l. apply triple_pure. intros Hl.
  apply keeps_for. auto with triple.
Qed.
#[local] Hint Resolve keeps_destroy_for_pr keeps_stop_for_pr : triple.

(** Tickets and workers. *)
Lemma keeps_update_status t st : keeps I (update_ticket_status others t st).
Proof. unfold update_ticket_status. keeps_auto. Qed.
Lemma keeps_mark_failed t why : keeps I (mark_ticket_failed others t why).
Proof. unfold mark_ticket_failed. keeps_auto. Qed.
Lemma keeps_link w : keeps I (workspace_link_for_worker others w).
Proof. unfold workspace_link_for_worker. keeps_auto. Qed.
#[local] Hint Resolve keeps_update_status keeps_mark_failed keeps_link : triple.
Lemma keeps_mark_human t why : keeps I (mark_ticket_awaiting_human others t why).
Proof. unfold mark_ticket_awaiting_human. keeps_auto. Qed.
Lemma keeps_close_issue t : keeps I (close_github_issue others t).
Proof. unfold close_github_issue. keeps_auto. Qed.
Lemma keeps_recycle pr : keeps I (recycle_worker others pr).
Proof. unfold recycle_worker. keeps_auto. Qed.
Lemma keeps_idle : keeps I (find_idle_forge_worker others).
Proof. unfold find_idle_forge_worker. keeps_auto. Qed.
Lemma keeps_assign_conflict w t : keeps I (assign_worker_for_conflict_rework others w t).
Proof. unfold assign_worker_for_conflict_rework, reassign_url. keeps_auto. Qed.
#[local] Hint Resolve keeps_mark_human keeps_close_issue keeps_recycle keeps_idle keeps_assign_conflict : triple.
Lemma keeps_assign_ci w t : keeps I (assign_worker_for_ci_fix others w t).
Proof. unfold assign_worker_for_ci_fix. keeps_auto. Qed.
#[local] Hint Resolve keeps_assign_ci : triple.
Lemma keeps_reassign assign w t : (∀ w t, keeps I (assign w t)) → keeps I (reassign others assign w t).
Proof. intros Ha. unfold reassign. keeps_auto. Qed.
#[local] Hint Resolve keeps_reassign : triple.

(** Rework. *)
Lemma keeps_persist t role d : plain role → keeps I (persist_rework_directive others o t role d).
Proof.
  intros Hr. unfold persist_rework_directive. keeps_auto. apply keeps_modify. auto with triple.
Qed.
#[local] Hint Resolve keeps_persist : triple.
Lemma keeps_dispatch t d : keeps I (dispatch_to_forge others o t d).
Proof. unfold dispatch_to_forge. keeps_auto. Qed.
#[local] Hint Resolve keeps_dispatch : triple.
Lemma keeps_address_review n st t : keeps I (dispatch_address_review_for_pr others o n st t).
Proof. unfold dispatch_address_review_for_pr. keeps_auto. Qed.
Lemma keeps_ci_fix n t b why d : keeps I (dispatch_ci_fix_for_pr others o n t b why d).
Proof. unfold dispatch_ci_fix_for_pr. auto with triple. Qed.
Lemma keeps_ci_md n b why : keeps I (write_ci_fix_md o n b why).
Proof. unfold write_ci_fix_md. keeps_auto. Qed.
#[local] Hint Resolve keeps_address_review keeps_ci_fix keeps_ci_md : triple.
Lemma keeps_note_dispatch n h :
  allowed (address_review_dispatched_key n) → allowed (address_review_dispatched_at_key n) →
  allowed (address_review_attempts_key n) → keeps I (note_dispatch others o n h).
Proof. intros H1 H2 H3. unfold note_dispatch. keeps_auto. apply keeps_modify. auto. Qed.
Lemma keeps_current_head h n : keeps I (current_head others h n).
Proof. unfold current_head, pending_pr_head_sha. keeps_auto. Qed.
Lemma keeps_put pending n t : keeps I (put_in_progress others o pending n t).
Proof. unfold put_in_progress. keeps_auto. Qed.
Lemma keeps_fail_once t why f : keeps I (fail_once others t why f).
Proof. unfold fail_once. keeps_auto. Qed.
#[local] Hint Resolve keeps_note_dispatch keeps_current_head keeps_put keeps_fail_once : triple.
Lemma keeps_release outcome :
  (∀ t ver e, keeps I (v_transition others clock t ver "vessel" e)) →
  keeps I (release_candidate others clock outcome).
Proof. intros Ht. unfold release_candidate, v_lifecycle. keeps_auto. Qed.
#[local] Hint Resolve keeps_release : triple.

(** *** With the queue, the counters and the records *)

Context (Hpending : allowed KEY_PENDING_PRS).
Context (Hcounters : ∀ n, allowed (ci_fix_attempts_key n) ∧ allowed (conflict_attempts_key n) ∧
  allowed (merge_blocked_key n) ∧ allowed (address_review_rearmed_key n) ∧
  allowed (address_review_dispatched_key n) ∧ allowed (address_review_dispatched_at_key n) ∧
  allowed (address_review_attempts_key n) ∧ allowed ("pr:" +:+ pretty n +:+ ":unmanaged")).
Context (Htransition : ∀ t ver e, keeps J (v_transition others clock t ver "vessel" e)).
#[local] Hint Extern 1 (allowed _) => apply Hcounters : triple.

Lemma keeps_ci_rework pending t n what why d f : keeps I (ci_rework others o pending t n what why d f).
Proof. unfold ci_rework. keeps_auto. Qed.
#[local] Hint Resolve keeps_ci_rework : triple.

Lemma keeps_post_outcome pending outcome f : keeps I (post_outcome others clock o pending outcome f).
Proof.
  unfold post_outcome. apply keeps_bind; [auto with triple|]. intros _.
  destruct outcome; unfold post_merged, post_ci_failed, post_merge_blocked, post_ci_timeout, post_ci_missing,
    post_conflicts, post_reviews; keeps_auto.
Qed.

Lemma keeps_post_outcomes pending outcomes : ∀ f, keeps I (post_outcomes others clock o pending outcomes f).
Proof.
  pose proof keeps_post_outcome. induction outcomes as [|x l IH]; intros f; cbn [post_outcomes]; keeps_auto.
Qed.

Lemma triple_retained t role :
  plain role →
  triple I (retained others t role) (λ l v, Forall (λ x : string * string, allowed x.2) l ∧ I v) I.
Proof.
  intros Hr. unfold retained. eapply triple_bind; [apply keeps_get|]. intros ws. apply triple_ret.
  intros v Hv. split; [|done]. destruct ws; [|done]. apply Forall_singleton. by apply Hrole.
Qed.

Lemma triple_cleanup_list tickets :
  triple I (cleanup_list others tickets) (λ l v, Forall (λ x : string * string, allowed x.2) l ∧ I v) I.
Proof.
  assert (∀ l : list (string * string), Forall (λ x, allowed x.2) l →
    triple I (mret l) (λ l v, Forall (λ x : string * string, allowed x.2) l ∧ I v) I) as Hret.
  { intros l Hl. apply triple_ret. auto. }
  induction tickets as [|ticket tickets IH]; cbn [cleanup_list]; [by apply Hret|].
  eapply triple_bind with (R := λ l v, Forall (λ x : string * string, allowed x.2) l ∧ I v).
  - destruct (as_str _) as [t|]; [|by apply Hret].
    eapply triple_bind with (R := λ _ : bool, I); [|intros terminal; destruct terminal; [|by apply Hret]].
    + unfold is_done. destruct (raw_terminal ticket); [apply keeps_ret|apply foot_read].
    + eapply triple_bind; [by apply triple_retained|]. intros a. apply triple_pure. intros Ha.
      eapply triple_bind; [by apply triple_retained|]. intros b. apply triple_pure. intros Hb.
      apply Hret. by apply Forall_app.
  - intros mine. apply triple_pure. intros Hm. eapply triple_bind; [exact IH|]. intros rest.
    apply triple_pure. intros Hrest. apply Hret. by apply Forall_app.
Qed.

Lemma keeps_cleanup : keeps I (cleanup_terminal_ticket_workspaces others o).
Proof.
  unfold cleanup_terminal_ticket_workspaces. apply keeps_bind; [auto with triple|]. intros tickets. cbv zeta.
  eapply triple_bind; [apply triple_cleanup_list|]. intros l. apply triple_pure. intros Hl.
  apply keeps_for. intros x Hx. rewrite Forall_forall in Hl. specialize (Hl x Hx). keeps_auto.
Qed.

Lemma keeps_post outcomes : keeps I (post others clock o outcomes).
Proof. pose proof keeps_post_outcomes. pose proof keeps_cleanup. unfold post. keeps_auto. Qed.

Lemma keeps_prep fetch : keeps I (prep others fetch).
Proof.
  unfold prep, rearm_review_prs. keeps_auto. apply keeps_for. intros k _. unfold rearm_one. keeps_auto.
Qed.
End footprint.

(** *** Ticket records *)

Section records.
Context (others : nat → SharedStore → SharedStore) (clock : nat → u64) (o : Outside).
Context (Hrely : ∀ n, rely (others n)).
Context (Hslots : ∀ m e, e ∈ slot_order o m → plain (worker_role e.1)).
Context (K : Effect → Prop) (HK : ∀ e, (∀ c, e ≠ Merge c) → K e).

Lemma records_footprint :
  keeps (vinv K) (v_await others) ∧
  (∀ v k x, not_status k → vinv K v → vinv K (set_v_store (set (v_store v) k x) v)) ∧
  (∀ v k, not_status k → vinv K v → vinv K (set_v_store (del (v_store v) k) v)) ∧
  (∀ v a t p now, vinv K v → vinv K (set_v_store (emit (v_store v) a t p now) v)) ∧
  (∀ e, (∀ c, e ≠ Merge c) → keeps (vinv K) (v_effect e)).
Proof.
  split_and!; [by apply keeps_await|..].
  - intros v k x Hk [H1 H2]. split; [by apply store_ok_set|done].
  - intros v k Hk [H1 H2]. split; [by apply store_ok_del|done].
  - intros v a t p now [H1 H2]. by split.
  - intros e He. apply keeps_effect. auto.
Qed.

Lemma records_counters n :
  not_status (ci_fix_attempts_key n) ∧ not_status (conflict_attempts_key n) ∧
  not_status (merge_blocked_key n) ∧ not_status (address_review_rearmed_key n) ∧
  not_status (address_review_dispatched_key n) ∧ not_status (address_review_dispatched_at_key n) ∧
  not_status (address_review_attempts_key n) ∧ not_status ("pr:" +:+ pretty n +:+ ":unmanaged").
Proof. split_and!; not_status_solve. Qed.

Lemma records_post outcomes : keeps (vinv K) (post others clock o outcomes).
Proof.
  destruct records_footprint as (H1 & H2 & H3 & H4 & H5).
  eapply (keeps_post others clock o Hslots (vinv K) not_status);
    eauto using records_counters, keeps_transition with triple.
Qed.

Lemma records_prep fetch : keeps (vinv K) (prep others fetch).
Proof.
  destruct records_footprint as (H1 & H2 & H3 & H4 & H5).
  eapply (keeps_prep others (vinv K) not_status); eauto using records_counters with triple.
Qed.
End records.

(** ** A pass of the node *)

Section pass.
Context (others : nat → SharedStore → SharedStore) (clock : nat → u64) (o : Outside).
Context (parse : string → option Z) (max_attempts : nat).

(** [prep], [exec] and [post] one after the other, as the flow runs the node:
    [fetch] and [answers] are what GitHub answers during the first two. *)
Definition vessel_pass (fetch : u64 → result PrInfo) (answers : nat → Answers) : St VState string :=
  p ← prep others fetch;
  outcomes ← VesselQueue.exec others clock parse max_attempts (imap (λ i e, (e, answers i)) p.2);
  post others clock o outcomes.
End pass.

(** C2. Whatever other agents do to tickets in the meantime, in a whole pass VESSEL
    asks GitHub to merge only a head whose ticket record is reserved for the merge
    at that very moment and carries the full review evidence for that pull request,
    whose CI was green when polled and when checked again, that has no conflict, and
    that an authorized reviewer approved on GitHub with no change request left
    open. *)
Theorem vessel_merges_only_reviewed_heads others clock o parse max_attempts fetch answers v c :
  (∀ n, rely (others n)) → (∀ m e, e ∈ slot_order o m → plain (worker_role e.1)) →
  store_ok (v_store v) →
  Merge c ∈ v_log (vessel_pass others clock o parse max_attempts fetch answers v).2 →
  Merge c ∈ v_log v ∨ justified parse max_attempts (λ a, ∃ i, a = answers i) c.
Proof.
  intros Hr Hp Hs Hc.
  pose (K e := ∀ c, e = Merge c → e ∈ v_log v ∨ justified parse max_attempts (λ a, ∃ i, a = answers i) c).
  assert (∀ e, (∀ c, e ≠ Merge c) → K e) as HK by (intros e He c' Hc'; by destruct (He c')).
  assert (vinv K (vessel_pass others clock o parse max_attempts fetch answers v).2) as [_ HF].
  { apply keeps_run; [|split; [done|apply Forall_forall; intros e He c' _; by left]].
    apply keeps_bind; [by apply records_prep|]. intros p. apply keeps_bind; [|intros os; by apply records_post].
    apply keeps_exec; [done|]. intros entry a pr t Hin Hpr u s evidence _ Hm Hres c' [= <-]. right.
    apply elem_of_lookup_imap in Hin as (i & e & [= -> ->] & _). exists (answers i), pr, evidence, u.
    split; [by exists i|]. done. }
  rewrite Forall_forall in HF. by apply (HF _ Hc).
Qed.

Import MergeRun.

Module PassRun.
Definition outside : Outside :=
  mkOutside true None None (λ _ _, true) [] (λ _, true) (λ _, Ok []) None (λ _, true) (λ _, "u1")
    (λ _, "2026-01-01T00:00:00Z") (λ m, filter (λ e, plain (worker_role e.1)) (entries m)).

Lemma outside_plain m e : e ∈ slot_order outside m → plain (worker_role e.1).
Proof. cbn [slot_order outside]. by intros [? _]%list_elem_of_filter. Qed.

Definition begin : VState :=
  mkVState (set (store_with LifecycleProps.mergeable) KEY_PENDING_PRS (VArray [entry])) 0 [].

Lemma begin_ok : store_ok (v_store begin).
Proof. apply store_ok_set; [apply not_status_pending_prs|]. exact (store_with_ok _ mergeable_reachable). Qed.

Definition run : result string * VState :=
  vessel_pass quiet clock outside no_time 3 (λ _, Ok pr42) (λ _, answers) begin.

Definition merges (l : list Effect) : list MergeCall :=
  omap (λ e, match e with Merge c => Some c | _ => None end) l.

Lemma elem_merges c l : c ∈ merges l ↔ Merge c ∈ l.
Proof.
  unfold merges. rewrite list_elem_of_omap. split.
  - intros ([] & H & E); simplify_eq. done.
  - intros H. by exists (Merge c).
Qed.
End PassRun.

Lemma vessel_merges_only_reviewed_heads_witness :
  (∃ c, c ∈ PassRun.merges (v_log PassRun.run.2) ∧ call_number c = 42%N) ∧
  ok PassRun.run.1 = Some "deployed" ∧
  ∀ c, c ∈ PassRun.merges (v_log PassRun.run.2) → justified no_time 3 (λ a, ∃ i : nat, a = answers) c.
Proof.
  split; [|split; [vm_compute; reflexivity|]].
  - assert (call_number <$> PassRun.merges (v_log PassRun.run.2) = [42%N]) as E by (vm_compute; reflexivity).
    destruct (PassRun.merges (v_log PassRun.run.2)) as [|c l]; [discriminate E|].
    exists c. split; [left|]. injection E. auto.
  - intros c Hc%PassRun.elem_merges.
    destruct (vessel_merges_only_reviewed_heads quiet clock PassRun.outside no_time 3 (λ _, Ok pr42)
      (λ _, answers) PassRun.begin c rely_quiet PassRun.outside_plain PassRun.begin_ok Hc)
      as [H|H]; [by apply elem_of_nil in H|exact H].
Defined.

(** ** Rework without interference *)

Lemma pretty_char_digit x : is_ascii_digit (pretty_N_char x) = true.
Proof. unfold pretty_N_char. repeat case_match; reflexivity. Qed.

Lemma pretty_go_digits n s :
  all_chars is_ascii_digit s = true → all_chars is_ascii_digit (pretty_N_go n s) = true.
Proof.
  revert s. induction (N.lt_wf_0 n) as [n _ IH]. intros s Hs. destruct (decide (n = 0)%N) as [->|Hn].
  - by rewrite pretty_N_go_0.
  - rewrite pretty_N_go_step by lia. apply IH; [apply N.div_lt; lia|]. cbn. by rewrite pretty_char_digit.
Qed.

Lemma pretty_digits (n : N) : all_chars is_ascii_digit (pretty n) = true.
Proof. unfold pretty, pretty_N. case_decide; [reflexivity|]. by apply pretty_go_digits. Qed.

(** The keys of the rework loop of a pull request. *)
Lemma rework_keys_distinct n m :
  address_review_dispatched_key n ≠ address_review_attempts_key n ∧
  address_review_dispatched_key n ≠ address_review_dispatched_at_key m ∧
  address_review_attempts_key n ≠ address_review_dispatched_at_key m.
Proof.
  split_and!; try discriminate. intros E. unfold address_review_dispatched_key, address_review_dispatched_at_key in E.
  change "_address_review_dispatched_at_" with ("_address_review_dispatched_" +:+ "at_") in E.
  rewrite string_app_assoc in E. apply string_app_inv_l in E.
  pose proof (pretty_digits n) as H. rewrite E in H. discriminate H.
Qed.

Section alone.
Context (clock : nat → u64) (o : Outside).
Context (Hslots : ∀ m e, e ∈ slot_order o m → plain (worker_role e.1)).

(** Two keys hold given values. *)
Definition hold2 (k1 : string) (x1 : option Value) (k2 : string) (x2 : option Value) (v : VState) : Prop :=
  Store.get (v_store v) k1 = x1 ∧ Store.get (v_store v) k2 = x2.

Definition off2 (k1 k2 k : string) : Prop := k ≠ k1 ∧ k ≠ k2.

Lemma hold2_footprint k1 x1 k2 x2 :
  let J := hold2 k1 x1 k2 x2 in
  keeps J (v_await quiet) ∧
  (∀ v k x, off2 k1 k2 k → J v → J (set_v_store (set (v_store v) k x) v)) ∧
  (∀ v k, off2 k1 k2 k → J v → J (set_v_store (del (v_store v) k) v)) ∧
  (∀ v a t p now, J v → J (set_v_store (emit (v_store v) a t p now) v)) ∧
  (∀ e, (∀ c, e ≠ Merge c) → keeps J (v_effect e)).
Proof.
  cbv zeta. split_and!.
  - apply keeps_modify. by intros v.
  - intros v k x [? ?] [? ?]. split; cbn; by rewrite get_set_ne.
  - intros v k [? ?] [? ?]. split; cbn; by rewrite get_del_ne.
  - by intros v a t p now [? ?].
  - intros e _. apply keeps_modify. by intros v.
Qed.

Lemma off2_rework n :
  let off := off2 (address_review_dispatched_key n) (address_review_attempts_key n) in
  off KEY_TICKETS ∧ off KEY_WORKER_SLOTS ∧ off KEY_PENDING_PRS ∧
  (∀ t sub role, off (full_ticket_key t sub role)).
Proof. cbv zeta. unfold off2. split_and!; try discriminate. intros. split; discriminate. Qed.

Lemma keeps_hold2_dispatch n x1 x2 st t :
  keeps (hold2 (address_review_dispatched_key n) x1 (address_review_attempts_key n) x2)
    (dispatch_address_review_for_pr quiet o n st t).
Proof.
  destruct (hold2_footprint (address_review_dispatched_key n) x1 (address_review_attempts_key n) x2)
    as (H1 & H2 & H3 & H4 & H5).
  destruct (off2_rework n) as (E1 & E2 & E3 & E4).
  eapply (keeps_address_review quiet o _ (off2 _ _)); eauto.
Qed.

Lemma keeps_hold2_put n x1 x2 pending t :
  keeps (hold2 (address_review_dispatched_key n) x1 (address_review_attempts_key n) x2)
    (put_in_progress quiet o pending n t).
Proof.
  destruct (hold2_footprint (address_review_dispatched_key n) x1 (address_review_attempts_key n) x2)
    as (H1 & H2 & H3 & H4 & H5).
  destruct (off2_rework n) as (E1 & E2 & E3 & E4).
  eapply (keeps_put quiet o _ (off2 _ _)); eauto.
Qed.

Lemma keeps_hold2_persist n x1 x2 t d :
  keeps (hold2 (address_review_dispatched_key n) x1 (address_review_attempts_key n) x2)
    (persist_rework_directive quiet o t "forge" d).
Proof.
  destruct (hold2_footprint (address_review_dispatched_key n) x1 (address_review_attempts_key n) x2)
    as (H1 & H2 & H3 & H4 & H5).
  destruct (off2_rework n) as (E1 & E2 & E3 & E4).
  eapply (keeps_persist quiet o _ (off2 _ _)); eauto. done.
Qed.

Lemma keeps_hold2_dequeue n x1 x2 :
  keeps (hold2 (address_review_dispatched_key n) x1 (address_review_attempts_key n) x2)
    (remove_from_pending_prs quiet n).
Proof.
  destruct (hold2_footprint (address_review_dispatched_key n) x1 (address_review_attempts_key n) x2)
    as (H1 & H2 & H3 & H4 & H5).
  destruct (off2_rework n) as (E1 & E2 & E3 & E4).
  eapply (keeps_dequeue quiet _ (off2 _ _)); eauto.
Qed.

(** The counter as the code reads it. *)
Definition attempts_in (s : SharedStore) (n : u64) : u32 :=
  from_option id u32_0 (get_typed s (address_review_attempts_key n)).

Lemma get_typed_ext {A} `{Serde A} s s' k :
  Store.get s k = Store.get s' k → get_typed (A:=A) s k = get_typed s' k.
Proof. unfold get_typed. by intros ->. Qed.

Lemma note_dispatch_Ok n h v v' :
  note_dispatch quiet o n (Some h) v = (Ok tt, v') →
  ∃ a, u32_succ (attempts_in (v_store v) n) = Ok a ∧
    hold2 (address_review_dispatched_key n) (Some (VString h))
          (address_review_attempts_key n) (Some (to_value a)) v' ∧ v_log v' = v_log v.
Proof.
  destruct (rework_keys_distinct n n) as (D1 & D2 & D3).
  unfold note_dispatch, increment_attempts, get_attempts.
  cbv [mbind st_bind v_write v_await st_modify v_get v_read v_step mret st_ret st_lift set_v_store v_store
       v_clock v_log quiet]. destruct v as [s c l]. intros H.
  rewrite (get_typed_ext _ s) in H by (by rewrite !get_set_ne).
  change (from_option id u32_0 (get_typed s (address_review_attempts_key n))) with (attempts_in s n) in H.
  destruct (u32_succ (attempts_in s n)) as [a|e|] eqn:E; try discriminate H. injection H as <-.
  exists a. split; [done|]. split; [|done]. split; cbn [v_store].
  - rewrite get_set_ne, get_set_ne by done. apply get_set_eq.
  - apply get_set_eq.
Qed.

Definition tick (k : nat) (v : VState) : VState := mkVState (v_store v) (k + v_clock v) (v_log v).

(** [post_reviews] after its three reads. *)
Lemma post_reviews_unfold pending t n state h f v :
  post_reviews quiet o pending t n state (Some h) f v =
  (let tid := ticket_or_pr t n in
   let a := attempts_in (v_store v) n in
   if bool_decide (reviews_state state = MNeedsReview) then mret (set_needs_review f)
   else if bool_decide (get_typed (v_store v) (address_review_dispatched_key n) = Some h)
   then _ ← remove_from_pending_prs quiet n; mret f
   else if (MAX_ADDRESS_REVIEW_ATTEMPTS <=? `a)%N then
     _ ← mark_ticket_awaiting_human quiet tid
           ("PR #" +:+ pretty n +:+ " in review-rework state (" +:+ state +:+ ") not addressed after "
            +:+ pretty (`a) +:+ " dispatch attempts");
     _ ← remove_from_pending_prs quiet n;
     mret (set_awaiting_human f)
   else
     sent ← dispatch_address_review_for_pr quiet o n (reviews_state state) tid;
     f ← (if (sent : bool) then
            _ ← put_in_progress quiet o pending n tid;
            _ ← note_dispatch quiet o n (Some h);
            mret (set_address_review f)
          else
            repository ← v_get quiet "repository";
            let '(owner, repo) := parse_repository repository in
            _ ← persist_rework_directive quiet o tid "forge"
                  (build_directive (reviews_state state) n (collect_rework (pr_reviews o n) owner repo));
            _ ← note_dispatch quiet o n (Some h);
            mret (set_rework_provision f));
     _ ← remove_from_pending_prs quiet n;
     mret f) (tick 3 v).
Proof. reflexivity. Qed.

Local Notation held n x1 x2 :=
  (hold2 (address_review_dispatched_key n) x1 (address_review_attempts_key n) x2).

Lemma held_start n v :
  held n (Store.get (v_store v) (address_review_dispatched_key n))
         (Store.get (v_store v) (address_review_attempts_key n)) (tick 3 v).
Proof. done. Qed.

Lemma held_attempts n x1 x2 v w :
  held n x1 x2 v → held n x1 x2 w → attempts_in (v_store v) n = attempts_in (v_store w) n.
Proof. intros [_ H1] [_ H2]. unfold attempts_in. f_equal. apply get_typed_ext. congruence. Qed.

Lemma held_last n x1 x2 v w : held n x1 x2 v → held n x1 x2 w →
  get_typed (A:=string) (v_store w) (address_review_dispatched_key n) =
  get_typed (v_store v) (address_review_dispatched_key n).
Proof. intros [H1 _] [H2 _]. apply get_typed_ext. congruence. Qed.

Lemma keeps_hold2_mark n x1 x2 t why : keeps (held n x1 x2) (mark_ticket_awaiting_human quiet t why).
Proof.
  destruct (hold2_footprint (address_review_dispatched_key n) x1 (address_review_attempts_key n) x2)
    as (H1 & H2 & H3 & H4 & H5).
  destruct (off2_rework n) as (E1 & E2 & E3 & E4).
  eapply (keeps_mark_human quiet _ (off2 _ _)); eauto.
Qed.

(** The dispatch itself. *)
Lemma dispatched_held pending n h st tid f v f' v' :
  (sent ← dispatch_address_review_for_pr quiet o n st tid;
   f ← (if (sent : bool) then
          _ ← put_in_progress quiet o pending n tid;
          _ ← note_dispatch quiet o n (Some h);
          mret (set_address_review f)
        else
          repository ← v_get quiet "repository";
          let '(owner, repo) := parse_repository repository in
          _ ← persist_rework_directive quiet o tid "forge"
                (build_directive st n (collect_rework (pr_reviews o n) owner repo));
          _ ← note_dispatch quiet o n (Some h);
          mret (set_rework_provision f));
   _ ← remove_from_pending_prs quiet n;
   mret f) v = (Ok f', v') →
  ∃ a, (f' = set_address_review f ∨ f' = set_rework_provision f) ∧
    u32_succ (attempts_in (v_store v) n) = Ok a ∧ held n (Some (VString h)) (Some (to_value a)) v'.
Proof.
  intros H. set (x1 := Store.get (v_store v) (address_review_dispatched_key n)).
  set (x2 := Store.get (v_store v) (address_review_attempts_key n)).
  assert (held n x1 x2 v) as H0 by done.
  apply st_bind_Ok in H as (sent & v1 & Ed & H).
  pose proof (keeps_Ok _ _ _ _ _ (keeps_hold2_dispatch n x1 x2 st tid) H0 Ed) as H1.
  apply st_bind_Ok in H as (f1 & v2 & Ef & H). apply st_bind_Ok in H as ([] & v3 & Er & H).
  cbn in H. injection H as <- <-.
  assert (∃ a, (f1 = set_address_review f ∨ f1 = set_rework_provision f) ∧
    u32_succ (attempts_in (v_store v) n) = Ok a ∧ held n (Some (VString h)) (Some (to_value a)) v2)
    as (a & Hf & Ha & H2).
  2: { exists a. split; [done|]. split; [done|].
       exact (keeps_Ok _ _ _ _ _ (keeps_hold2_dequeue n (Some (VString h)) (Some (to_value a))) H2 Er). }
  destruct sent.
  - apply st_bind_Ok in Ef as ([] & w & Ep & Ef). apply st_bind_Ok in Ef as ([] & w' & En & Ef).
    cbn in Ef. injection Ef as <- <-.
    pose proof (keeps_Ok _ _ _ _ _ (keeps_hold2_put n x1 x2 pending tid) H1 Ep) as H2.
    apply note_dispatch_Ok in En as (a & Ha & Hh & _). exists a.
    rewrite (held_attempts n x1 x2 v w H0 H2). auto.
  - apply st_bind_Ok in Ef as (repo & w0 & Eg & Ef). cbn in Eg. injection Eg as <- <-.
    destruct (parse_repository _) as [owner rp].
    apply st_bind_Ok in Ef as ([] & w & Ep & Ef). apply st_bind_Ok in Ef as ([] & w' & En & Ef).
    cbn in Ef. injection Ef as <- <-.
    assert (held n x1 x2 (mkVState (quiet (v_clock v1) (v_store v1)) (S (v_clock v1)) (v_log v1))) as H1'
      by exact H1.
    pose proof (keeps_Ok _ _ _ _ _ (keeps_hold2_persist n x1 x2 tid _) H1' Ep) as H2.
    apply note_dispatch_Ok in En as (a & Ha & Hh & _). exists a.
    rewrite (held_attempts n x1 x2 v w H0 H2). auto.
Qed.
End alone.

(** One outcome that asks for rework: the three cases. *)
Lemma post_reviews_Ok o pending t n state h v f v' :
  reviews_state state ≠ MNeedsReview →
  post_reviews quiet o pending t n state (Some h) no_flags v = (Ok f, v') →
  let last s := get_typed (A:=string) s (address_review_dispatched_key n) in
  let a := attempts_in (v_store v) n in
  let a' := attempts_in (v_store v') n in
  (last (v_store v) = Some h → f = no_flags ∧ v_log v' = v_log v ∧ last (v_store v') = last (v_store v) ∧ a' = a) ∧
  (last (v_store v) ≠ Some h → (3 ≤ `a)%N →
     f = set_awaiting_human no_flags ∧ last (v_store v') = last (v_store v) ∧ a' = a) ∧
  (last (v_store v) ≠ Some h → (`a < 3)%N →
     (f = set_address_review no_flags ∨ f = set_rework_provision no_flags) ∧
     last (v_store v') = Some h ∧ `a' = (`a + 1)%N).
Proof.
  intros Hst H. rewrite post_reviews_unfold in H. cbv zeta in H |- *.
  rewrite (bool_decide_false _ Hst) in H. pose proof (held_start n v) as H0. case_bool_decide as Hl.
  - split; [|split; by intros]. intros _. apply st_bind_Ok in H as ([] & w & Er & H).
    cbn in H. injection H as <- <-. split; [done|].
    pose proof (keeps_Ok _ _ _ _ _ (keeps_hold2_dequeue n _ _) H0 Er) as H1.
    split; [unfold remove_from_pending_prs in Er; by injection Er as <-|].
    split; [exact (held_last n _ _ v w H0 H1)|symmetry; exact (held_attempts n _ _ v w H0 H1)].
  - split; [by intros|]. destruct (_ <=? _)%N eqn:E.
    + apply N.leb_le in E. unfold MAX_ADDRESS_REVIEW_ATTEMPTS in E. split; [|intros; lia]. intros _ _.
      apply st_bind_Ok in H as ([] & w & Em & H). apply st_bind_Ok in H as ([] & w' & Er & H).
      cbn in H. injection H as <- <-. split; [done|].
      pose proof (keeps_Ok _ _ _ _ _ (keeps_hold2_mark n _ _ _ _) H0 Em) as H1.
      pose proof (keeps_Ok _ _ _ _ _ (keeps_hold2_dequeue n _ _) H1 Er) as H2.
      split; [exact (held_last n _ _ v w' H0 H2)|symmetry; exact (held_attempts n _ _ v w' H0 H2)].
    + apply N.leb_gt in E. unfold MAX_ADDRESS_REVIEW_ATTEMPTS in E. split; [intros; lia|]. intros _ _.
      apply dispatched_held in H as (a & Hf & Ha & H1 & H2). split; [exact Hf|].
      change (attempts_in (v_store (tick 3 v)) n) with (attempts_in (v_store v) n) in Ha.
      unfold get_typed at 1. rewrite H1. split; [done|].
      unfold attempts_in at 1, get_typed. rewrite H2. cbn [mbind option_bind].
      unfold u32_succ in Ha. destruct (u32_of _) as [m|] eqn:Em; [|done]. injection Ha as <-.
      rewrite (from_to_value m). cbn. by apply u32_of_Some in Em.
Qed.

(** Rework over time.  What is decided when VESSEL comes to a pull request whose reviews ask
    for rework, as a function of the heads it sees: [last] is the head it sent back last,
    [a] how often it did. *)
Inductive Reaction := Skipped | ToHuman | SentBack.
#[global] Instance Reaction_eq_dec : EqDecision Reaction.
Proof. solve_decision. Defined.

Fixpoint reactions (last : option string) (a : N) (heads : list string) : list Reaction :=
  match heads with
  | [] => []
  | h :: heads =>
      if bool_decide (last = Some h) then Skipped :: reactions last a heads
      else if (3 <=? a)%N then ToHuman :: reactions last a heads
      else SentBack :: reactions (Some h) (a + 1) heads
  end.

(** One such call, and what its flags say it did. *)
Record Call := mkCall { call_head : string; call_from : VState; call_flags : Flags; call_to : VState }.
Definition reaction (c : Call) : Reaction :=
  if any_address_review (call_flags c) || any_rework_provision (call_flags c) then SentBack
  else if any_awaiting_human (call_flags c) then ToHuman else Skipped.

(** The calls for pull request [n], one after the other, from [v] to [v'].  In between
    anything may happen that leaves the record of its dispatches alone. *)
Inductive calls (n : u64) : VState → list Call → VState → Prop :=
  | calls_end v : calls n v [] v
  | calls_call v v0 o pending t state h f v1 l v' :
      Store.get (v_store v0) (address_review_dispatched_key n) = Store.get (v_store v) (address_review_dispatched_key n) →
      Store.get (v_store v0) (address_review_attempts_key n) = Store.get (v_store v) (address_review_attempts_key n) →
      reviews_state state ≠ MNeedsReview →
      post_reviews quiet o pending t n state (Some h) no_flags v0 = (Ok f, v1) →
      calls n v1 l v' → calls n v (mkCall h v0 f v1 :: l) v'.

(** The heads that were sent back. *)
Definition sent_back (l : list Call) : list string := call_head <$> filter (λ c, reaction c = SentBack) l.

(** C33. Rework is bounded.  Over any number of polls of a pull request whose reviews ask for
    rework, VESSEL decides by the heads alone: a head that was the last one sent back is
    skipped and nothing is sent; otherwise it is sent back, by chat or by a directive for a
    new worker, if there were fewer than three such attempts, and goes to a human from then
    on.  So it is sent back at most three times, and no head twice in a row.  Nobody else acts
    during a call, and between calls nothing changes the record of dispatches (an approval
    would reset it). *)
Theorem rework_is_bounded n v l v' :
  calls n v l v' →
  let last := get_typed (v_store v) (address_review_dispatched_key n) in
  let a := proj1_sig (attempts_in (v_store v) n) in
  reaction <$> l = reactions last a (call_head <$> l) ∧
  (N.of_nat (length (sent_back l)) + a ≤ N.max 3 a)%N ∧
  Sorted (λ x y, x ≠ y) (from_option (λ h, [h]) [] last ++ sent_back l) ∧
  ∀ c, c ∈ l → reaction c = Skipped → v_log (call_to c) = v_log (call_from c).
Proof.
  induction 1 as [v|v v0 o pending t state h f v1 l v' Hk1 Hk2 Hst H Hl IH]; cbn zeta.
  { split_and!; [done|cbn; lia| |by intros c ?%elem_of_nil]. destruct (get_typed _ _); cbn; repeat constructor. }
  apply post_reviews_Ok in H as (H1 & H2 & H3); [|done].
  assert (El : get_typed (A:=string) (v_store v0) (address_review_dispatched_key n) =
               get_typed (v_store v) (address_review_dispatched_key n)) by (by apply get_typed_ext).
  assert (Ea : attempts_in (v_store v0) n = attempts_in (v_store v) n) by (unfold attempts_in; by rewrite (get_typed_ext _ _ _ Hk2)).
  rewrite El, Ea in *. set (last := get_typed (v_store v) (address_review_dispatched_key n)) in *.
  set (a := attempts_in (v_store v) n) in *. destruct IH as (Hdec & Hle & Hsort & Hlog).
  rewrite !fmap_cons. cbn [call_head reactions].
  unfold sent_back in *. case_bool_decide as Hlast.
  - destruct (H1 Hlast) as (-> & Hlog1 & E1 & E2). rewrite E1, E2 in *. rewrite filter_cons_False by done.
    split_and!; [by f_equal|done|done|]. intros c [->|Hc]%elem_of_cons; auto.
  - destruct (N.leb_spec 3 (`a)) as [Hmax|Hmin].
    + destruct (H2 Hlast Hmax) as (-> & E1 & E2). rewrite E1, E2 in *. rewrite filter_cons_False by done.
      split_and!; [by f_equal|done|done|]. intros c [->|Hc]%elem_of_cons; [done|auto].
    + destruct (H3 Hlast Hmin) as (Hf & E1 & E2). rewrite E1, E2 in *.
      assert (Hd : reaction (mkCall h v0 f v1) = SentBack) by (by destruct Hf as [-> | ->]).
      rewrite filter_cons_True by done. rewrite Hd. split_and!; [by f_equal|rewrite fmap_cons; cbn [length]; lia| |].
      * cbn in Hsort. destruct last as [h'|]; [|done]. constructor; [done|]. constructor. cbn. intros ->. by apply Hlast.
      * intros c [->|Hc]%elem_of_cons; [congruence|auto].
Qed.

(** Two polls of a pull request: its head is sent back, and skipped while it stays. *)
Definition rework_start : VState := mkVState new_in_memory 0 [].
Definition rework_call (v : VState) : result Flags * VState :=
  post_reviews quiet PassRun.outside [] (Some "T-42") 42 "changes_requested" (Some "abc") no_flags v.

Lemma rework_is_bounded_witness :
  ∃ f1 v1 f2 v2, rework_call rework_start = (Ok f1, v1) ∧ rework_call v1 = (Ok f2, v2) ∧
    reaction (mkCall "abc" rework_start f1 v1) = SentBack ∧ reaction (mkCall "abc" v1 f2 v2) = Skipped ∧
    v_log v2 = v_log v1.
Proof.
  assert (is_ok (rework_call rework_start).1 = true) as Ok1 by (vm_compute; reflexivity).
  assert (is_ok (rework_call (rework_call rework_start).2).1 = true) as Ok2 by (vm_compute; reflexivity).
  destruct (rework_call rework_start) as [r1 v1] eqn:E1. apply is_ok_true in Ok1 as [f1 Hf1]. cbn in Hf1. subst r1.
  cbn [snd] in Ok2. destruct (rework_call v1) as [r2 v2] eqn:E2. apply is_ok_true in Ok2 as [f2 Hf2]. cbn in Hf2. subst r2.
  destruct (rework_is_bounded 42 rework_start [mkCall "abc" rework_start f1 v1; mkCall "abc" v1 f2 v2] v2)
    as (Hd & _ & _ & Hlog).
  - eapply (calls_call _ _ _ PassRun.outside [] (Some "T-42") "changes_requested"); [reflexivity|reflexivity|discriminate|exact E1|].
    eapply (calls_call _ _ _ PassRun.outside [] (Some "T-42") "changes_requested"); [reflexivity|reflexivity|discriminate|exact E2|]. constructor.
  - rewrite !fmap_cons in Hd.
    change (reactions _ _ _) with [SentBack; Skipped] in Hd. injection Hd as D1 D2.
    exists f1, v1, f2, v2. split; [reflexivity|]. split; [exact E2|]. split; [exact D1|]. split; [exact D2|].
    apply (Hlog (mkCall "abc" v1 f2 v2)); [set_solver|exact D2].
Defined.

(** ** Workers of a merged pull request *)

Definition slots_in (s : SharedStore) : gmap string WorkerSlot := from_option id ∅ (get_typed s KEY_WORKER_SLOTS).

Lemma slots_in_set s m : slots_in (set s KEY_WORKER_SLOTS (to_value m)) = m.
Proof. unfold slots_in, get_typed. rewrite get_set_eq. cbn [mbind option_bind]. by rewrite from_to_value. Qed.

Lemma recycle_noop m t w k s :
  existsb (λ e, slot_matches t w e.1 e.2 && recycle_changes e.2) (map_to_list m) = false →
  m !! k = Some s → (if slot_matches t w k s then recycle_slot s else s) = s.
Proof.
  intros H Hs. rewrite existsb_not_elem in H. specialize (H (k, s) ltac:(by apply elem_of_map_to_list)).
  cbn in H. destruct (slot_matches t w k s); [|done]. cbn in H. unfold recycle_changes in H.
  unfold recycle_slot. destruct s as [i [] [ws|]]; cbn in *; done.
Qed.

Lemma recycle_worker_slots pr v v' k s :
  let ticket := as_str (index "ticket_id" pr) in
  recycle_worker quiet pr v = (Ok tt, v') → is_Some ticket → slots_in (v_store v) !! k = Some s →
  slots_in (v_store v') !! k =
  Some (if slot_matches ticket (resolve_worker_id_from_pr pr) k s then recycle_slot s else s).
Proof.
  cbv zeta. intros H [t Ht] Hs. unfold recycle_worker in H. rewrite Ht in *. cbn [is_none is_some is_some_and negb] in H.
  rewrite andb_false_r in H. cbv [mbind st_bind v_slots v_get v_read v_await st_modify v_step mret st_ret
    set_slots v_write quiet] in H. cbn [v_store v_clock v_log set_v_store] in H.
  change (from_option id ∅ (get_typed (v_store v) KEY_WORKER_SLOTS)) with (slots_in (v_store v)) in H.
  destruct (existsb _ _) eqn:E.
  - apply (f_equal snd) in H. cbn [snd] in H. rewrite <- H. cbn [v_store set_v_store].
    by rewrite slots_in_set, map_lookup_imap, Hs.
  - apply (f_equal snd) in H. cbn [snd] in H. rewrite <- H. cbn [v_store].
    by rewrite (recycle_noop _ _ _ _ _ E Hs).
Qed.

(** When a pull request has been merged, exactly the workers of its ticket are
    freed: each loses its workspace and becomes idle unless it is suspended, and a
    worker that holds another ticket keeps its assignment and its workspace, even
    when the pull request names it. *)
Theorem merge_frees_only_its_own_workers pr t v v' k s :
  as_str (index "ticket_id" pr) = Some t → recycle_worker quiet pr v = (Ok tt, v') →
  slots_in (v_store v) !! k = Some s →
  (worker_ticket (slot_status s) = Some t →
     slots_in (v_store v') !! k = Some (recycle_slot s) ∧ slot_workspace_id (recycle_slot s) = None) ∧
  (∀ t', worker_ticket (slot_status s) = Some t' → t' ≠ t → slots_in (v_store v') !! k = Some s).
Proof.
  intros Ht H Hs. pose proof (recycle_worker_slots pr v v' k s H ltac:(by rewrite Ht) Hs) as E.
  rewrite Ht in E. unfold slot_matches in E. split.
  - intros Hw. rewrite Hw in E. cbn [is_some is_some_and] in E.
    rewrite bool_decide_eq_true_2 in E by done. cbn in E. split; [done|]. unfold recycle_slot. by case_match.
  - intros t' Hw Hne. rewrite Hw in E. cbn [is_some is_some_and] in E.
    rewrite bool_decide_eq_false_2 in E by congruence. exact E.
Qed.

Module RecycleRun.
Definition mine : WorkerSlot := mkSlot "forge-1" (Working "T-42" None) (Some "ws-1").
Definition other : WorkerSlot := mkSlot "forge-2" (Working "T-7" None) (Some "ws-2").
Definition merged_pr : Value :=
  VObject [("number", VPosInt 42); ("ticket_id", VString "T-42"); ("worker_id", VString "forge-2")].
Definition begin : VState :=
  mkVState (set new_in_memory KEY_WORKER_SLOTS
    (to_value (<["forge-1" := mine]> {["forge-2" := other]} : gmap string WorkerSlot))) 0 [].
Definition after : VState := (recycle_worker quiet merged_pr begin).2.

Lemma recycled : recycle_worker quiet merged_pr begin = (Ok tt, after).
Proof.
  unfold after. destruct (recycle_worker quiet merged_pr begin) as [r v] eqn:E. cbn.
  assert (is_ok (recycle_worker quiet merged_pr begin).1 = true) as H by (vm_compute; reflexivity).
  rewrite E in H. cbn [fst] in H. apply is_ok_true in H as [[] ->]. done.
Qed.
End RecycleRun.

Lemma merge_frees_only_its_own_workers_witness :
  slots_in (v_store RecycleRun.after) !! "forge-1" = Some (mkSlot "forge-1" Idle None) ∧
  slots_in (v_store RecycleRun.after) !! "forge-2" = Some RecycleRun.other.
Proof.
  split.
  - exact (proj1 (proj1 (merge_frees_only_its_own_workers RecycleRun.merged_pr "T-42" RecycleRun.begin
      RecycleRun.after "forge-1" RecycleRun.mine eq_refl RecycleRun.recycled
      ltac:(unfold RecycleRun.begin; cbn [v_store]; rewrite slots_in_set; reflexivity)) eq_refl)).
  - exact (proj2 (merge_frees_only_its_own_workers RecycleRun.merged_pr "T-42" RecycleRun.begin
      RecycleRun.after "forge-2" RecycleRun.other eq_refl RecycleRun.recycled
      ltac:(unfold RecycleRun.begin; cbn [v_store]; rewrite slots_in_set; reflexivity)) "T-7" eq_refl
      ltac:(done)).
Defined.
