(* ===== verification/Github.v ===== *)
(** * The GitHub client

    Models the decisions of [src/crates/github/src/rest.rs] around its requests:
    retries, error statuses, paging, the reading of pull requests and of failed
    checks, and the texts built from them.  Replies of the service are arguments;
    a body counts as parsed when it is given as a record or value. *)
From S2P Require Import Prelude Text Json Tickets Review VesselQueue.

Definition nl : string := String "010"%char EmptyString.

(** ** Requests *)

(** What one attempt yields: a response, or a transport error that is one of
    connect, timeout or request, or another. *)
Inductive Attempt (A : Type) : Type :=
  | Response (status : N) (a : A)
  | NetworkError (why : string)
  | OtherError (why : string).
Arguments Response {A}. Arguments NetworkError {A}. Arguments OtherError {A}.

Definition MAX_RETRIES : nat := 3.

Definition is_server_error (status : N) : bool := (500 <=? status)%N && (status <=? 599)%N.
Definition is_success (status : N) : bool := (200 <=? status)%N && (status <=? 299)%N.

(** [send_with_retry]: attempts [n], [n + 1], ... with [left] retries in hand; the
    answer comes with the number of the attempt that gave it. *)
Fixpoint retry_loop {A} (answers : nat → Attempt A) (retries n : nat) : result (N * A) * nat :=
  match answers n with
  | Response status a =>
      match retries with
      | S r => if is_server_error status then retry_loop answers r (S n) else (Ok (status, a), n)
      | O => (Ok (status, a), n)
      end
  | NetworkError why =>
      match retries with
      | S r => retry_loop answers r (S n)
      | O => (Err "GitHub API request failed after retries", n)
      end
  | OtherError _ => (Err "GitHub API request failed after retries", n)
  end.

Definition send_with_retry {A} (answers : nat → Attempt A) : result (N * A) * nat :=
  retry_loop answers MAX_RETRIES 0.

(** A response: its status and its body, as text and (if it parses) decoded. *)
Record Reply (A : Type) : Type := mkReply { status : N; text : string; json : option A }.
Arguments mkReply {A}. Arguments status {A}. Arguments text {A}. Arguments json {A}.

(** What the retried request of a call ends with. *)
Definition reply_of {A} (answers : nat → Attempt (string * option A)) : result (Reply A) :=
  match (send_with_retry answers).1 with
  | Ok (st, (t, j)) => Ok (mkReply st t j)
  | Err e => Err e
  | Panic => Panic
  end.

Definition parsed {A} (what : string) (r : Reply A) : result A :=
  match json r with Some a => Ok a | None => Err what end.

(** The display of a status code: [404 Not Found]. *)
Section Replies.
Context (status_text : N → string).

(** [get_json] and [get_json_raw]. *)
Definition get_json {A} (url : string) (reply : result (Reply A)) : result A :=
  r ← reply;
  if is_success (status r) then parsed ("Failed to parse GitHub response from " +:+ url) r
  else Err ("GitHub API error " +:+ status_text (status r) +:+ ": " +:+ text r).

Definition get_text (reply : result (Reply unit)) : result string :=
  r ← reply;
  if is_success (status r) then Ok (text r)
  else Err ("GitHub API error " +:+ status_text (status r) +:+ ": " +:+ text r).

(** [post_json] and [patch_json]. *)
Definition post_json {A} (reply : result (Reply A)) : result A :=
  r ← reply;
  if is_success (status r) then parsed "Failed to parse GitHub response" r
  else Err ("GitHub API error " +:+ status_text (status r) +:+ ": " +:+ text r).

(** ** Commands *)

Definition create_pull_request (reply : result (Reply u64)) : result u64 :=
  r ← reply;
  if is_success (status r) then parsed "Failed to parse PR creation response" r
  else Err ("GitHub create PR error " +:+ status_text (status r) +:+ ": " +:+ text r).

Definition get_authenticated_user_login (reply : result (Reply Value)) : result string :=
  r ← reply;
  if is_success (status r) then
    user ← parsed "Failed to parse GitHub user response" r;
    match as_str (index "login" user) with
    | Some login => Ok login
    | None => Err "GitHub user response missing 'login' field"
    end
  else Err ("Failed to get authenticated user (status " +:+ status_text (status r) +:+ "): " +:+ text r).

Definition comment_on_issue (issue_number : u64) (reply : result (Reply Value)) : result unit :=
  r ← reply;
  if is_success (status r) then Ok tt
  else Err ("Failed to post comment on issue #" +:+ pretty issue_number +:+ " (status "
            +:+ status_text (status r) +:+ "): " +:+ text r).

(** The answer does not depend on whether the assignee is in the response: that is
    only logged. *)
Definition assign_issue (reply : result (Reply Value)) : result unit :=
  r ← reply;
  if is_success (status r) then _ ← parsed "error decoding response body" r; Ok tt
  else if (status r =? 422)%N then Err ("Validation failed (422): " +:+ text r)
  else Err ("GitHub API error " +:+ status_text (status r) +:+ ": " +:+ text r).

Definition close_issue (reply : result (Reply Value)) : result unit := _ ← post_json reply; Ok tt.

(** [close_pull_request]: a failing comment never fails the close. *)
Definition close_pull_request (comment : option (result (Reply Value))) (close : result (Reply Value))
  : result unit :=
  _ ← post_json close; Ok tt.

Definition update_branch (pr_number : u64) (reply : result (Reply unit)) : result unit :=
  r ← reply;
  if is_success (status r) then Ok tt
  else if (status r =? 409)%N then Err ("Merge conflict when updating branch for PR " +:+ pretty pr_number)
  else if (status r =? 422)%N then
    Err ("Update branch not available for PR " +:+ pretty pr_number +:+ " — may require admin access")
  else Err ("GitHub update-branch error " +:+ status_text (status r) +:+ ": " +:+ text r).

Definition submit_pull_request_review (pr_number : u64) (reply : result (Reply unit)) : result unit :=
  r ← reply;
  if is_success (status r) then Ok tt
  else Err ("Failed to submit pull request review on PR #" +:+ pretty pr_number +:+ " (status "
            +:+ status_text (status r) +:+ "): " +:+ text r).

(** ** Workflows *)

Definition OTHER_CI_CONFIGS : list string :=
  [".circleci/config.yml"; ".circleci/config.yaml"; ".gitlab-ci.yml"; ".gitlab-ci.yaml"; "Jenkinsfile";
   "azure-pipelines.yml"; "azure-pipelines.yaml"; "bitbucket-pipelines.yml"; "bitbucket-pipelines.yaml";
   ".buildkite/pipeline.yml"; ".buildkite/pipeline.yaml"].

Definition content_path_exists (path : string) (reply : result (Reply unit)) : result bool :=
  r ← reply;
  if (status r =? 404)%N then Ok false
  else if is_success (status r) then Ok true
  else Err ("Failed to check CI config path " +:+ path +:+ ": " +:+ status_text (status r)).

Fixpoint any_config (content : string → result (Reply unit)) (paths : list string) : result bool :=
  match paths with
  | [] => Ok false
  | p :: paths =>
      found ← content_path_exists p (content p);
      if (found : bool) then Ok true else any_config content paths
  end.

(** [has_workflows]: [dir] is the listing of the workflow directory, the names of
    its entries. *)
Definition has_workflows (dir : result (Reply (list string))) (content : string → result (Reply unit))
  : result bool :=
  r ← dir;
  if (status r =? 404)%N then any_config content OTHER_CI_CONFIGS
  else if negb (is_success (status r)) then
    Err ("Failed to check workflows directory: " +:+ status_text (status r))
  else
    entries ← parsed "Failed to parse contents response" r;
    if existsb (λ n, ends_with ".yml" n || ends_with ".yaml" n) entries then Ok true
    else any_config content OTHER_CI_CONFIGS.
End Replies.

(** ** Pages *)

Definition PER_PAGE : nat := 100.

(** The loop of [list_pr_reviews], [list_review_comments] and [get_ci_status]. *)
Fixpoint pages {A} (get_page : nat → result (list A)) (fuel page : nat) : option (result (list A)) :=
  match fuel with
  | O => None
  | S fuel =>
      match get_page page with
      | Ok batch =>
          if length batch <? PER_PAGE then Some (Ok batch)
          else
            match pages get_page fuel (S page) with
            | Some (Ok rest) => Some (Ok (batch ++ rest))
            | other => other
            end
      | Err e => Some (Err e)
      | Panic => Some Panic
      end
  end.

(** ** Pull requests *)

Inductive PrState : Type := PrOpen | PrClosed | PrMerged.

Record PullRequestResponse : Type := mkPrResponse {
  pr_r_number : u64;
  pr_r_title : string;
  pr_r_body : option string;
  pr_r_state : string;
  pr_r_merged : option bool;
  pr_r_mergeable : option bool;
  pr_r_head_sha : string;
  pr_r_head_ref : string;
  pr_r_base_ref : string;
}.

Fixpoint digits_prefix (s : string) : string :=
  match s with
  | String c s => if is_ascii_digit c then String c (digits_prefix s) else EmptyString
  | EmptyString => EmptyString
  end.

(** The first match of the literal followed by decimal digits, as the search with
    [literal(\d+)] finds it; the captured digits (the ASCII ones: [\d] would also
    take other Unicode decimals). *)
Fixpoint capture_digits (literal s : string) : option string :=
  let here :=
    match strip_prefix literal s with
    | Some rest => let d := digits_prefix rest in if is_empty d then None else Some d
    | None => None
    end in
  match here, s with
  | Some d, _ => Some d
  | None, String _ s => capture_digits literal s
  | None, EmptyString => None
  end.

Definition first_some {A} (l : list (option A)) : option A := head (omap id l).

Definition extract_ticket_id (title : string) (body : option string) (branch : string) : option string :=
  let look literal :=
    first_some [capture_digits literal title; body ≫= capture_digits literal; capture_digits literal branch] in
  (λ d, "T-" +:+ d) <$> first_some [look "T-"; look "#"].

Definition pr_info (r : PullRequestResponse) : PrInfo :=
  mkPr (pr_r_number r) (pr_r_head_sha r) (pr_r_head_ref r) (pr_r_base_ref r)
    (extract_ticket_id (pr_r_title r) (pr_r_body r) (pr_r_head_ref r))
    (pr_r_title r) (pr_r_body r) (pr_r_mergeable r).

(** [get_pull_request]: the pull request and its state. *)
Definition get_pull_request (resp : result PullRequestResponse) : result (PrInfo * PrState) :=
  r ← resp;
  Ok (pr_info r,
      if bool_decide (pr_r_state r = "open") then PrOpen
      else if bool_decide (pr_r_state r = "closed") && from_option id false (pr_r_merged r) then PrMerged
      else PrClosed).

Definition is_pr_merged (resp : result PullRequestResponse) : bool :=
  match get_pull_request resp with Ok (_, PrMerged) => true | _ => false end.

Definition list_open_prs (resp : result (list PullRequestResponse)) : result (list PrInfo) :=
  l ← resp; Ok (map pr_info l).

(** [confirmed_merge_sha] on the raw object. *)
Definition confirmed_merge_sha (resp : result Value) : result (option string) :=
  value ← resp;
  match index "merged" value with
  | VBool true =>
      match as_str (index "merge_commit_sha" value) with
      | Some sha => if is_empty sha then Err "Merged PR has no merge commit SHA" else Ok (Some sha)
      | None => Err "Merged PR has no merge commit SHA"
      end
  | _ => Ok None
  end.

Definition list_conflicted_files (files : result (list (string * string))) : result (list string) :=
  l ← files;
  Ok (map fst (List.filter (λ f, bool_decide (f.2 ∈ ["modified"; "added"; "renamed"])) l)).

Definition issue_has_comment_with_marker (comments : result (list Value)) (marker : string) : result bool :=
  l ← comments;
  Ok (existsb (λ c, is_some_and (contains marker) (as_str (index "body" c))) l).

(** ** Failed checks *)

Record CheckRun : Type := mkRun {
  run_id : option u64;
  run_name : option string;
  run_status : option string;
  run_conclusion : option string;
}.

Record CheckAnnotation : Type := mkCheckAnnotation {
  ca_path : option string;
  ca_start_line : option u64;
  ca_message : option string;
}.

Definition FAILED_CONCLUSIONS : list string :=
  ["failure"; "timed_out"; "cancelled"; "action_required"; "startup_failure"].

(** [get_failed_suites] on the raw object. *)
Definition failed_suite (suite : Value) : option FailedCheck :=
  let conclusion := from_option id "" (as_str (index "conclusion" suite)) in
  if bool_decide (from_option id "unknown" (as_str (index "status" suite)) = "completed")
     && bool_decide (conclusion ∈ FAILED_CONCLUSIONS)
  then Some (mkFailedCheck (from_option id "unknown" (as_str (index "name" (index "app" suite)))) conclusion)
  else None.

Definition get_failed_suites (resp : result Value) : result (list FailedCheck) :=
  value ← resp;
  Ok (match as_array (index "check_suites" value) with Some l => omap failed_suite l | None => [] end).

Definition name_of (r : CheckRun) : string := from_option id "unknown-check" (run_name r).
Definition status_of (r : CheckRun) : string := from_option id "unknown" (run_status r).

Definition failed_run (r : CheckRun) : option FailedCheck :=
  match run_conclusion r with
  | Some c =>
      if bool_decide (status_of r = "completed") && bool_decide (c ∈ FAILED_CONCLUSIONS)
      then Some (mkFailedCheck (name_of r) c) else None
  | None => None
  end.

Definition running (r : CheckRun) : option string :=
  if bool_decide (status_of r ∈ ["queued"; "in_progress"]) then Some (name_of r +:+ " (running)") else None.

Definition annotation_detail (name : string) (a : CheckAnnotation) : option CheckAnnotationDetail :=
  match ca_path a, ca_start_line a, ca_message a with
  | Some p, Some l, Some m => Some (mkAnnotation name p l m)
  | _, _, _ => None
  end.

(** [get_failed_checks_detail_structured]: [suites], [logs] and [annotations] are
    the answers to the requests it may make. *)
Definition get_failed_checks_detail_structured (runs : result (list CheckRun)) (suites : result Value)
  (logs : result (list (string * string))) (annots : u64 → result (list CheckAnnotation))
  : CiFailureDetail :=
  let failed_suites := or_none (get_failed_suites suites) in
  match runs with
  | Ok [] => mkDetail failed_suites [] [] []
  | Ok runs =>
      let failed := omap failed_run runs in
      let failed := match failed with [] => failed_suites | _ => failed end in
      let ids := omap (λ r, match failed_run r, run_id r with Some f, Some i => Some (fc_name f, i) | _, _ => None end) runs in
      mkDetail failed (omap running runs) (or_none logs)
        (concat ((λ x, omap (annotation_detail x.1) (or_none (annots x.2))) <$> ids))
  | _ =>
      mkDetail (match failed_suites with
                | [] => [mkFailedCheck "CI failed but could not retrieve detailed check names" "failure"]
                | l => l
                end) [] [] []
  end.

(** [get_failed_suites_detail]. *)
Definition get_failed_suites_detail (resp : result Value) : result string :=
  failed ← get_failed_suites resp;
  match failed with
  | [] => Ok "CI failed but could not retrieve detailed check names"
  | l => Ok ("Failed checks suites:" +:+ nl
             +:+ join nl (map (λ f, fc_name f +:+ " (" +:+ fc_conclusion f +:+ ") — completed") l))
  end.

(** The display of [CiFailureDetail]. *)
Definition block {A} (title : string) (line : A → string) (l : list A) : string :=
  match l with [] => "" | _ => title +:+ nl +:+ String.concat "" (map (λ x, line x +:+ nl) l) end.

Definition fmt_job_logs (logs : list (string * string)) : string :=
  match logs with
  | [] => ""
  | _ => nl +:+ "Job logs (last 150 lines per failed job):" +:+ nl
         +:+ join (nl +:+ "---" +:+ nl +:+ nl) (map (λ x, "Job: " +:+ x.1 +:+ nl +:+ x.2) logs)
  end.

Definition is_nil {A} (l : list A) : bool := match l with [] => true | _ => false end.

Definition fmt_detail (d : CiFailureDetail) : string :=
  block "Failed checks:" (λ c, "  " +:+ fc_name c +:+ " (" +:+ fc_conclusion c +:+ ")") (failed_checks d)
  +:+ block (nl +:+ "Still running:") (λ n, "  " +:+ n) (still_running d)
  +:+ block (nl +:+ "Annotations (exact errors with file & line):")
        (λ a, "  " +:+ an_path a +:+ ":" +:+ pretty (an_start_line a) +:+ " " +:+ an_message a) (annotations d)
  +:+ fmt_job_logs (job_logs d)
  +:+ (if is_nil (failed_checks d) && is_nil (still_running d) && is_nil (job_logs d) && is_nil (annotations d)
       then "No check runs found for this commit" else "").

(** ** Logs *)

(** [str::lines]: pieces between line feeds, without a carriage return at their
    end, and no last empty piece. *)
Definition strip_cr (s : string) : string :=
  if ends_with (String "013"%char EmptyString) s then String.substring 0 (String.length s - 1) s else s.
Definition drop_last_empty (l : list string) : list string :=
  match List.last l "x" with EmptyString => removelast l | _ => l end.
Definition lines (s : string) : list string :=
  strip_cr <$> drop_last_empty (split_on (char_eqb "010"%char) s).

Definition tail_log (log : string) (max_lines : nat) : string :=
  let ls := lines log in
  if length ls <=? max_lines then log
  else
    let skip := length ls - max_lines in
    "... (truncated " +:+ pretty skip +:+ " lines)" +:+ nl +:+ join nl (drop skip ls).

(** [get_failed_job_logs]: the failed jobs of the failed runs, with their logs. *)
Record WorkflowRun : Type := mkWorkflowRun { wr_id : u64; wr_name : option string }.
Record WorkflowJob : Type := mkWorkflowJob {
  wj_id : u64;
  wj_name : option string;
  wj_conclusion : option string;
}.

Definition job_log (log : u64 → result string) (run : WorkflowRun) (job : WorkflowJob)
  : option (string * string) :=
  if bool_decide (wj_conclusion job = Some "failure") then
    match log (wj_id job) with
    | Ok text =>
        Some (from_option id "unknown" (wr_name run) +:+ "/" +:+ from_option id "unknown-job" (wj_name job),
              tail_log text 150)
    | _ => None
    end
  else None.

Definition get_failed_job_logs (runs : result (list WorkflowRun)) (jobs : u64 → result (list WorkflowJob))
  (log : u64 → result string) : list (string * string) :=
  concat ((λ r, omap (job_log log r) (or_none (jobs (wr_id r)))) <$> or_none runs).

(** ** Reviews *)

(** The loop of [effective_review_state] over the latest reviews. *)
Fixpoint effective_loop (approved : bool) (latest : list PrReview) : PrReviewState :=
  match latest with
  | [] => if approved then Approved else NoReview
  | r :: latest =>
      match state_enum r with
      | ChangesRequested => ChangesRequested
      | Approved => effective_loop true latest
      | _ => effective_loop approved latest
      end
  end.

Definition effective_review_state (reviews : list PrReview) : PrReviewState :=
  effective_loop false (latest_review_per_user reviews).

(** [deserialize_optional_login]. *)
Definition deserialize_optional_login (v : Value) : result (option string) :=
  match v with
  | VNull => Ok None
  | VString s => Ok (Some s)
  | VObject _ => Ok (Json.get "login" v ≫= as_str)
  | _ => Err "expected a user object or login string"
  end.

(** * Properties of the GitHub client

    Retries are bounded and transparent, paging loses nothing, and a veto on a late
    page is seen. *)

Module GithubProps.

(** ** Retries *)

(** An attempt after which the client tries again, if it may. *)
Definition retryable {A} (a : Attempt A) : bool :=
  match a with
  | Response st _ => is_server_error st
  | NetworkError _ => true
  | OtherError _ => false
  end.

(** What the caller gets when an attempt is the last. *)
Definition final {A} (a : Attempt A) : result (N * A) :=
  match a with
  | Response st x => Ok (st, x)
  | _ => Err "GitHub API request failed after retries"
  end.

Lemma retry_loop_step {A} (answers : nat → Attempt A) r n :
  retry_loop answers r n =
  match r with
  | S r => if retryable (answers n) then retry_loop answers r (S n) else (final (answers n), n)
  | O => (final (answers n), n)
  end.
Proof. destruct r; cbn [retry_loop]; by destruct (answers n) as [st a|e|e]; cbn; try destruct (is_server_error st). Qed.

Lemma retry_loop_spec {A} (answers : nat → Attempt A) r n :
  let out := retry_loop answers r n in
  n ≤ out.2 ≤ n + r ∧ out.1 = final (answers out.2) ∧
  (∀ k, n ≤ k < out.2 → retryable (answers k) = true) ∧
  (retryable (answers out.2) = false ∨ out.2 = n + r).
Proof.
  revert n; induction r as [|r IH]; intros n; rewrite retry_loop_step.
  - cbn. split_and!; [lia|lia|done|lia|right; lia].
  - destruct (retryable (answers n)) eqn:E.
    + destruct (IH (S n)) as (H1 & H2 & H3 & H4). cbv zeta in *. split_and!; [lia|lia|done| |].
      * intros k Hk. destruct (decide (k = n)) as [->|]; [done|]. apply H3. lia.
      * destruct H4 as [H4|H4]; [by left|right; lia].
    + cbn. split_and!; [lia|lia|done|lia|by left].
Qed.

(** A retried request is sent at most four times and stops at the first answer
    that is not a server error or a network failure; the caller gets the outcome of
    the last attempt made, so a client error (4xx) or an unexpected transport error
    is never retried and never masked by a later attempt. *)
Theorem retries_are_bounded {A} (answers : nat → Attempt A) :
  let out := send_with_retry answers in
  out.2 ≤ 3 ∧ out.1 = final (answers out.2) ∧
  (∀ k, k < out.2 → retryable (answers k) = true) ∧
  (retryable (answers out.2) = false ∨ out.2 = 3).
Proof.
  destruct (retry_loop_spec answers MAX_RETRIES 0) as (H1 & H2 & H3 & H4).
  cbv zeta. unfold send_with_retry, MAX_RETRIES in *. split_and!; [lia|done| |].
  - intros k Hk. apply H3. lia.
  - destruct H4; [by left|right; lia].
Qed.

(** ** Pages *)

(** A service that answers page [p], counted from 1, with its hundred items. *)
Definition serve {A} (items : list A) (p : nat) : result (list A) :=
  Ok (take PER_PAGE (drop (pred p * PER_PAGE) items)).

Lemma pages_serve {A} (items : list A) fuel p :
  1 ≤ p → length (drop (pred p * PER_PAGE) items) < fuel * PER_PAGE →
  pages (serve items) fuel p = Some (Ok (drop (pred p * PER_PAGE) items)).
Proof.
  revert p; induction fuel as [|fuel IH]; intros p Hp Hl; [cbn in Hl; lia|].
  cbn [pages]. unfold serve at 1.
  destruct (Nat.ltb_spec (length (take PER_PAGE (drop (pred p * PER_PAGE) items))) PER_PAGE) as [Hs|Hs].
  - rewrite length_take in Hs. by rewrite take_ge by lia.
  - rewrite length_take in Hs.
    assert (pred (S p) * PER_PAGE = pred p * PER_PAGE + PER_PAGE) as E by (unfold PER_PAGE; lia).
    rewrite IH; [|lia|].
    + by rewrite E, <- drop_drop, take_drop.
    + rewrite E, <- drop_drop, length_drop. unfold PER_PAGE in *. lia.
Qed.

(** ** The effective review state *)

Lemma effective_loop_spec a l :
  effective_loop a l =
  if existsb (λ r, bool_decide (state_enum r = ChangesRequested)) l then ChangesRequested
  else if a || existsb (λ r, bool_decide (state_enum r = Approved)) l then Approved else NoReview.
Proof.
  revert a; induction l as [|r l IH]; intros a; cbn; [by destruct a|].
  destruct (state_enum r) eqn:E; cbn; rewrite ?IH; by destruct a.
Qed.

Lemma place_existsb (P : PrReview → bool) user r l :
  (∀ e, P e = true → has_verdict e = true) → has_verdict r = false →
  existsb P (place user r l) = existsb P l.
Proof.
  intros HP Hr. assert (P r = false) as Pr.
  { destruct (P r) eqn:E; [|done]. apply HP in E. congruence. }
  induction l as [|e l IH]; cbn; [by rewrite Pr|].
  case_bool_decide; cbn; [|by rewrite IH].
  unfold supersedes. rewrite Hr. destruct (has_verdict e) eqn:He; [done|].
  assert (P e = false) as Pe.
  { destruct (P e) eqn:E; [|done]. apply HP in E. congruence. }
  by destruct (is_newer e r); rewrite ?Pr, ?Pe.
Qed.

Lemma latest_snoc l r : latest_review_per_user (l ++ [r]) = note (latest_review_per_user l) r.
Proof. unfold latest_review_per_user. by rewrite fold_left_app. Qed.

(** A review without a verdict changes nothing. *)
Lemma comments_keep_the_verdict l r :
  has_verdict r = false → effective_review_state (l ++ [r]) = effective_review_state l.
Proof.
  intros Hr. unfold effective_review_state. rewrite latest_snoc, !effective_loop_spec. unfold note.
  destruct (r_user r) as [u|]; [|done]. destruct (is_empty u); [done|].
  rewrite !place_existsb; try done; intros e He%bool_decide_eq_true; unfold has_verdict; by rewrite He.
Qed.

Lemma place_member user r l :
  (∀ e, e ∈ l → r_user e = Some user → supersedes e r = true) → r ∈ place user r l.
Proof.
  induction l as [|e l IH]; cbn; intros H; [by left|]. case_bool_decide as Hu.
  - rewrite H; [by left|by left|done].
  - right. apply IH. intros x Hx. apply H. by right.
Qed.

Lemma place_subset user r l e : e ∈ place user r l → e = r ∨ e ∈ l.
Proof.
  induction l as [|x l IH]; cbn; [intros ->%list_elem_of_singleton; by left|].
  case_bool_decide.
  - intros [->|He]%elem_of_cons; [|right; by right]. destruct (supersedes x r); [by left|right; by left].
  - intros [->|He]%elem_of_cons; [right; by left|]. destruct (IH He); [by left|right; by right].
Qed.

Lemma latest_subset l e : e ∈ latest_review_per_user l → e ∈ l.
Proof.
  induction l as [|r l IH] using rev_ind; [done|]. rewrite latest_snoc. unfold note.
  intros He. apply elem_of_app. destruct (r_user r) as [u|]; [destruct (is_empty u)|]; [left; auto| |left; auto].
  apply place_subset in He as [->|He]; [right; by apply list_elem_of_singleton|left; auto].
Qed.

(** A veto newer than the reviewer's other reviews decides. *)
Lemma late_veto_decides l r u :
  r_user r = Some u → u ≠ "" → state_enum r = ChangesRequested →
  (∀ e, e ∈ l → r_user e = Some u → is_newer e r = true) →
  effective_review_state (l ++ [r]) = ChangesRequested.
Proof.
  intros Hu Hne Hs Hn. unfold effective_review_state. rewrite latest_snoc, effective_loop_spec.
  unfold note. rewrite Hu. assert (is_empty u = false) as -> by (by destruct u).
  assert (existsb (λ r, bool_decide (state_enum r = ChangesRequested))
            (place u r (latest_review_per_user l)) = true) as ->; [|done].
  apply existsb_exists. exists r. split; [|by apply bool_decide_eq_true].
  apply list_elem_of_In, place_member. intros e He Hue. apply latest_subset in He.
  unfold supersedes. assert (has_verdict r = true) as -> by (unfold has_verdict; by rewrite Hs).
  rewrite Hn by done. by destruct (has_verdict e).
Qed.

(** Listing the reviews of a pull request terminates with all of them, however
    many pages they fill (one request more than full pages suffices); so a request
    for changes that is its reviewer's newest review decides the effective state
    even when it is on the last page and followed by comments of others. *)
Theorem a_veto_on_a_late_page_is_seen before veto after u fuel :
  r_user veto = Some u → u ≠ "" → state_enum veto = ChangesRequested →
  (∀ e, e ∈ before → r_user e = Some u → is_newer e veto = true) →
  (∀ e, e ∈ after → has_verdict e = false) →
  length (before ++ [veto] ++ after) / PER_PAGE < fuel →
  ∃ all, pages (serve (before ++ [veto] ++ after)) fuel 1 = Some (Ok all) ∧
    all = before ++ [veto] ++ after ∧ effective_review_state all = ChangesRequested.
Proof.
  intros Hu Hne Hs Hn Ha Hf. exists (before ++ [veto] ++ after). split_and!; [|done|].
  - rewrite pages_serve; [done|lia|]. cbn [pred]. rewrite Nat.mul_0_l, drop_0.
    pose proof (Nat.div_mod_eq (length (before ++ [veto] ++ after)) PER_PAGE).
    pose proof (Nat.mod_upper_bound (length (before ++ [veto] ++ after)) PER_PAGE).
    unfold PER_PAGE in *. nia.
  - clear Hf. rewrite app_assoc. induction after as [|e after IH] using rev_ind.
    + rewrite app_nil_r. by eapply late_veto_decides.
    + rewrite app_assoc, comments_keep_the_verdict by (apply Ha; set_solver).
      apply IH. set_solver.
Qed.

Lemma a_veto_on_a_late_page_is_seen_witness :
  let approve := mkReview "APPROVED" (Some "ada") (Some "2025-01-01") None None None in
  let veto := mkReview "CHANGES_REQUESTED" (Some "ada") (Some "2025-01-02") None None None in
  let comment := mkReview "COMMENTED" (Some "bob") (Some "2025-01-03") None None None in
  ∃ all, pages (serve (repeat approve 120 ++ [veto] ++ [comment])) 2 1 = Some (Ok all) ∧
    all = repeat approve 120 ++ [veto] ++ [comment] ∧ effective_review_state all = ChangesRequested.
Proof.
  intros approve veto comment.
  apply (a_veto_on_a_late_page_is_seen (repeat approve 120) veto [comment] "ada" 2).
  - reflexivity.
  - discriminate.
  - reflexivity.
  - intros e He _. apply list_elem_of_In, repeat_spec in He as ->. reflexivity.
  - intros e He. apply list_elem_of_singleton in He as ->. reflexivity.
  - vm_compute. lia.
Defined.

End GithubProps.
