(* ===== verification/Coder.v ===== *)
(** * The Coder client

    Models the workspace operations of [src/crates/coder-client/src/lib.rs] and the
    status types of [src/crates/coder-client/src/types.rs].  The server is a
    parameter: what it answers to the n-th request.  A client operation sends
    requests and keeps their log; waiting loops get the number of rounds that fit
    into their time limit as an argument. *)
From S2P Require Import Prelude Text Json.

(** ** Workspaces *)

Inductive AgentLifecycleState : Type :=
  | LCreated | LStarting | LReady | LShuttingDown | LShutDown | LUnknown (raw : string).

Inductive AgentStatus : Type :=
  | Connected | Disconnected | ATimeout | AUnknown (raw : string).
#[export] Instance agent_status_eq_dec : EqDecision AgentStatus.
Proof. solve_decision. Defined.

Record WorkspaceAgent : Type := mkAgent {
  agent_name : string;
  ag_status : AgentStatus;
  ag_lifecycle_state : AgentLifecycleState;
}.

Record WorkspaceBuild : Type := mkBuild {
  build_status : string;
  transition : option string;
  resources : list (list WorkspaceAgent);
}.

Record CoderWorkspace : Type := mkWorkspace {
  ws_id : string;
  ws_name : string;
  owner_name : string;
  ws_status : string;
  latest_build : option WorkspaceBuild;
}.

Inductive WorkspaceStatus : Type :=
  | WsPending | WsStarting | WsRunning | WsStopping | WsStopped | WsFailed | WsDeleting | WsDeleted
  | WsUnknown (raw : string).
#[export] Instance workspace_status_eq_dec : EqDecision WorkspaceStatus.
Proof. solve_decision. Defined.

Definition from_status_str (s : string) : WorkspaceStatus :=
  if bool_decide (s = "pending") then WsPending
  else if bool_decide (s = "starting") then WsStarting
  else if bool_decide (s = "running") then WsRunning
  else if bool_decide (s = "stopping") then WsStopping
  else if bool_decide (s = "stopped") then WsStopped
  else if bool_decide (s = "failed") then WsFailed
  else if bool_decide (s = "deleting") then WsDeleting
  else if bool_decide (s = "deleted") then WsDeleted
  else WsUnknown s.

Definition workspace_status (w : CoderWorkspace) : WorkspaceStatus := from_status_str (ws_status w).

Definition is_running (w : CoderWorkspace) : bool :=
  is_some_and (λ b, bool_decide (build_status b = "running")) (latest_build w)
  || bool_decide (ws_status w = "running").

(** The first agent of the first resource that has one. *)
Definition first_agent (w : CoderWorkspace) : option WorkspaceAgent :=
  latest_build w ≫= λ b, head (omap head (resources b)).

Definition agent_lifecycle_state (w : CoderWorkspace) : AgentLifecycleState :=
  from_option ag_lifecycle_state (LUnknown "no_agent") (first_agent w).

Definition agent_status (w : CoderWorkspace) : AgentStatus :=
  from_option ag_status (AUnknown "no_agent") (first_agent w).

Definition lifecycle_is_ready (l : AgentLifecycleState) : bool :=
  match l with LReady => true | _ => false end.

Definition is_agent_ready (w : CoderWorkspace) : bool :=
  match first_agent w with
  | Some a =>
      let status_ok := match ag_status a with Connected | ATimeout | AUnknown _ => true | _ => false end in
      if negb status_ok || negb (lifecycle_is_ready (ag_lifecycle_state a)) then false
      else if bool_decide (ag_status a = Connected) then true
      else is_running w
  | None => false
  end.

(** ** Chats *)

Inductive ChatStatus : Type := CPending | CRunning | CWaiting | CError | CRequiresAction.
#[export] Instance chat_status_eq_dec : EqDecision ChatStatus.
Proof. solve_decision. Defined.

Definition parse_from_str (s : string) : ChatStatus :=
  if bool_decide (s = "pending") then CPending
  else if bool_decide (s = "running") then CRunning
  else if bool_decide (s = "waiting") then CWaiting
  else if bool_decide (s = "error") then CError
  else if bool_decide (s = "requires_action") then CRequiresAction
  else CRunning.

Definition chat_as_str (s : ChatStatus) : string :=
  match s with
  | CPending => "pending"
  | CRunning => "running"
  | CWaiting => "waiting"
  | CError => "error"
  | CRequiresAction => "requires_action"
  end.

Record Chat : Type := mkChat {
  chat_id : string;
  chat_workspace_id : string;
  status_raw : string;
  labels : list (string * Value);
}.

Definition chat_status (c : Chat) : ChatStatus := parse_from_str (status_raw c).

Definition CHAT_LABEL_TICKET : string := "ticket_id".
Definition CHAT_LABEL_ROLE : string := "role".
Definition CHAT_LABEL_FLOW : string := "flow".
Definition CHAT_LABEL_TENANT : string := "tenant".

(** The map is ordered by key. *)
Definition build_chat_labels (ticket role flow tenant : string) : list (string * Value) :=
  [(CHAT_LABEL_FLOW, VString flow); (CHAT_LABEL_ROLE, VString role); (CHAT_LABEL_TENANT, VString tenant);
   (CHAT_LABEL_TICKET, VString ticket)].

Definition label (k : string) (c : Chat) : option string := assoc k (labels c) ≫= as_str.

(** [get_chat_opt] on the status of the reply and its body. *)
Definition get_chat_opt (status : N) (status_text text : string) (body : option Chat) : result (option Chat) :=
  if (200 <=? status)%N && (status <=? 299)%N then
    match body with Some c => Ok (Some c) | None => Err "error decoding response body" end
  else if (status =? 404)%N then Ok None
  else Err ("Failed to get chat (" +:+ status_text +:+ "): " +:+ text).

(** ** Requests *)

Inductive Req : Type :=
  | GetWorkspace (id : string)
  | PostBuild (id transition : string).

(** An answer: the status and, if it parses, the workspace in the body.  No
    answer is a transport error. *)
Record Answer : Type := mkAnswer { an_status : N; an_workspace : option CoderWorkspace }.

Definition http_success (status : N) : bool := (200 <=? status)%N && (status <=? 299)%N.
Definition is_gone (status : N) : bool := (status =? 404)%N || (status =? 410)%N.

Section client.
Context (server : nat → Req → option Answer).

Definition ask (r : Req) : St (list Req) (option Answer) :=
  λ log, (Ok (server (length log) r), log ++ [r]).

Definition send (r : Req) (why : string) : St (list Req) Answer :=
  reply ← ask r; match reply with Some a => mret a | None => st_lift (Err why) end.

Definition get_workspace (id : string) : St (list Req) CoderWorkspace :=
  a ← send (GetWorkspace id) "Failed to get workspace";
  if http_success (an_status a) then
    match an_workspace a with Some w => mret w | None => st_lift (Err "error decoding response body") end
  else st_lift (Err "Failed to get workspace").

(** *** Stopping and starting *)

Definition build_of (w : CoderWorkspace) : string :=
  match latest_build w with
  | Some b => if is_empty (build_status b) then ws_status w else build_status b
  | None => ws_status w
  end.

Definition TERMINAL_BUILDS : list string := ["running"; "stopped"; "failed"; "canceled"; "deleted"].
Definition UNFINISHED_BUILDS : list string := ["pending"; "starting"; "stopping"; "canceling"; "deleting"].

Fixpoint wait_workspace_build_terminal (rounds : nat) (id : string) : St (list Req) string :=
  match rounds with
  | O => st_lift (Err "Timed out waiting for workspace build")
  | S rounds =>
      w ← get_workspace id;
      if bool_decide (build_of w ∈ TERMINAL_BUILDS) then mret (build_of w)
      else if bool_decide (build_of w ∈ UNFINISHED_BUILDS) then wait_workspace_build_terminal rounds id
      else st_lift (Err ("Unexpected workspace build status: " +:+ build_of w))
  end.

Definition submit_workspace_transition (id transition : string) : St (list Req) unit :=
  a ← send (PostBuild id transition) "Failed to restart workspace";
  if http_success (an_status a) then mret tt else st_lift (Err "Failed to restart workspace").

Definition start_workspace (rounds : nat) (id : string) : St (list Req) CoderWorkspace :=
  status ← wait_workspace_build_terminal rounds id;
  if bool_decide (status ∈ ["deleted"; "deleting"]) then st_lift (Err "Cannot start a deleted workspace")
  else
    _ ← (if bool_decide (status = "running") then mret tt else submit_workspace_transition id "start");
    get_workspace id.

Definition stop_and_wait (rounds : nat) (id : string) : St (list Req) unit :=
  _ ← submit_workspace_transition id "stop";
  status ← wait_workspace_build_terminal rounds id;
  if bool_decide (status = "stopped") then mret tt
  else st_lift (Err ("Workspace stop did not succeed: " +:+ status)).

Definition restart_workspace (rounds : nat) (id : string) : St (list Req) unit :=
  status ← wait_workspace_build_terminal rounds id;
  if bool_decide (status ∈ ["deleted"; "deleting"]) then st_lift (Err "Cannot restart a deleted workspace")
  else
    _ ← (if bool_decide (status = "stopped") then mret tt else stop_and_wait rounds id);
    submit_workspace_transition id "start".

Definition stop_workspace (rounds : nat) (id : string) : St (list Req) unit :=
  status ← wait_workspace_build_terminal rounds id;
  if bool_decide (status ∈ ["stopped"; "deleted"]) then mret tt else stop_and_wait rounds id.

(** *** Deleting *)

Definition is_delete_build (b : WorkspaceBuild) : bool := bool_decide (transition b = Some "delete").

Definition already_deleted (w : CoderWorkspace) : bool :=
  bool_decide (workspace_status w = WsDeleted)
  || is_some_and (λ b, is_delete_build b && bool_decide (build_status b = "succeeded")) (latest_build w).

Definition delete_underway (w : CoderWorkspace) : bool :=
  is_some_and (λ b, is_delete_build b && bool_decide (build_status b ∈ ["pending"; "running"])) (latest_build w).

Definition delete_failed (w : CoderWorkspace) : bool :=
  bool_decide (workspace_status w = WsFailed)
  || is_some_and (λ b, is_delete_build b && bool_decide (build_status b ∈ ["failed"; "canceled"])) (latest_build w).

(** [wait_for_workspace_deleted]: only a confirmation or a failed build ends it
    before the time limit. *)
Fixpoint wait_for_workspace_deleted (rounds : nat) (id : string) : St (list Req) unit :=
  match rounds with
  | O => st_lift (Err ("Workspace " +:+ id +:+ " deletion did not complete"))
  | S rounds =>
      reply ← ask (GetWorkspace id);
      match reply with
      | Some a =>
          if is_gone (an_status a) then mret tt
          else if http_success (an_status a) then
            match an_workspace a with
            | Some w =>
                if already_deleted w then mret tt
                else if delete_failed w then st_lift (Err ("Delete build failed for workspace " +:+ id))
                else wait_for_workspace_deleted rounds id
            | None => wait_for_workspace_deleted rounds id
            end
          else wait_for_workspace_deleted rounds id
      | None => wait_for_workspace_deleted rounds id
      end
  end.

(** A rejected delete build, looked into: [err] is the error to report otherwise. *)
Definition verify_rejected_delete (rounds : nat) (id : string) (err : string) : St (list Req) unit :=
  check ← send (GetWorkspace id) "Failed to verify workspace deletion";
  if is_gone (an_status check) then mret tt
  else if http_success (an_status check) then
    match an_workspace check with
    | None => st_lift (Err "Failed to verify workspace deletion")
    | Some w =>
        if already_deleted w then mret tt
        else if delete_underway w then wait_for_workspace_deleted rounds id
        else st_lift (Err err)
    end
  else st_lift (Err err).

Definition delete_workspace (rounds : nat) (id : string) : St (list Req) unit :=
  current ← send (GetWorkspace id) "Failed to check workspace before deletion";
  if is_gone (an_status current) then mret tt
  else if negb (http_success (an_status current)) then st_lift (Err "check workspace before deletion")
  else
    match an_workspace current with
    | None => st_lift (Err "Failed to read workspace before deletion")
    | Some w =>
        if already_deleted w then mret tt
        else if delete_underway w then wait_for_workspace_deleted rounds id
        else
          resp ← send (PostBuild id "delete") "Failed to delete workspace";
          if is_gone (an_status resp) then mret tt
          else if http_success (an_status resp) then wait_for_workspace_deleted rounds id
          else if bool_decide (an_status resp ∈ [400; 409; 422]%N) then
            verify_rejected_delete rounds id "delete workspace"
          else st_lift (Err "delete workspace")
    end.

(** *** Readiness *)

Fixpoint wait_for_workspace_ready (rounds : nat) (id : string) : St (list Req) unit :=
  match rounds with
  | O => st_lift (Err ("Workspace " +:+ id +:+ " did not become ready"))
  | S rounds =>
      λ log,
        match get_workspace id log with
        | (Ok w, log') => if is_agent_ready w then (Ok tt, log') else wait_for_workspace_ready rounds id log'
        | (_, log') => wait_for_workspace_ready rounds id log'
        end
  end.
End client.
