(* ===== verification/CoderProps.v ===== *)
(** * Properties of the Coder client

    Deleting a workspace is confirmed and requested at most once; a restart only
    starts what has been seen stopped. *)
From S2P Require Import Prelude Text Json Coder.

Section props.
Context (server : nat → Req → option Answer).

(** The answers seen in a log, by position. *)
Definition seen_at (log : list Req) (n : nat) : option Answer := log !! n ≫= server n.

(** The newest answer. *)
Definition last_seen (log : list Req) : option Answer := seen_at log (pred (length log)).

Lemma last_seen_snoc log r : last_seen (log ++ [r]) = server (length log) r.
Proof.
  unfold last_seen, seen_at. rewrite length_app. cbn [length]. replace (pred (length log + 1)) with (length log) by lia.
  by rewrite list_lookup_middle.
Qed.

(** Coder says that the workspace is gone. *)
Definition shows_gone (a : Answer) : bool :=
  is_gone (an_status a) || (http_success (an_status a) && is_some_and already_deleted (an_workspace a)).

Definition gets (id : string) (n : nat) : list Req := replicate n (GetWorkspace id).

Lemma gets_S (log : list Req) id n : log ++ gets id (S n) = (log ++ [GetWorkspace id]) ++ gets id n.
Proof. by rewrite <- app_assoc. Qed.

Lemma wait_deleted_spec rounds id log r log' :
  wait_for_workspace_deleted server rounds id log = (r, log') →
  ∃ n, n ≤ rounds ∧ log' = log ++ gets id n ∧
    (r = Ok tt → ∃ a, last_seen log' = Some a ∧ shows_gone a = true).
Proof.
  revert log; induction rounds as [|rounds IH]; intros log H.
  - injection H as <- <-. exists 0. split_and!; [lia|by rewrite app_nil_r|done].
  - cbn [wait_for_workspace_deleted] in H. unfold mbind, st_bind, ask in H.
    assert (∀ (r : result unit), (r, log ++ [GetWorkspace id]) = (r, log') →
              log' = log ++ gets id 1) as Hone by (by intros ? [= <-]).
    assert (wait_for_workspace_deleted server rounds id (log ++ [GetWorkspace id]) = (r, log') →
            ∃ n, n ≤ S rounds ∧ log' = log ++ gets id n ∧
              (r = Ok tt → ∃ a, last_seen log' = Some a ∧ shows_gone a = true)) as Hmore.
    { intros (n & Hn & -> & Hr)%IH. exists (S n). split_and!; [lia|by rewrite gets_S|done]. }
    destruct (server (length log) (GetWorkspace id)) as [a|] eqn:Ea; [|by apply Hmore].
    destruct (is_gone (an_status a)) eqn:Eg.
    { injection H as <- <-. exists 1. split_and!; [lia|done|]. intros _. exists a.
      rewrite last_seen_snoc. unfold shows_gone. by rewrite Eg. }
    destruct (http_success (an_status a)) eqn:Es; [|by apply Hmore].
    destruct (an_workspace a) as [w|] eqn:Ew; [|by apply Hmore].
    destruct (already_deleted w) eqn:Ed.
    { injection H as <- <-. exists 1. split_and!; [lia|done|]. intros _. exists a.
      rewrite last_seen_snoc. unfold shows_gone. by rewrite Eg, Es, Ew. }
    destruct (delete_failed w); [|by apply Hmore].
    injection H as <- <-. exists 1. by split_and!; [lia| |].
Qed.

(** What one request of a deletion does. *)
Lemma send_spec r why log x log' :
  send server r why log = (x, log') →
  log' = log ++ [r] ∧ match x with Ok a => server (length log) r = Some a | _ => server (length log) r = None end.
Proof.
  unfold send, mbind, st_bind, ask. destruct (server (length log) r) as [a|] eqn:E; by intros [= <- <-].
Qed.

Definition confirmed (id : string) (log : list Req) : Prop :=
  ∃ a, last_seen log = Some a ∧ shows_gone a = true.

Lemma verify_rejected_spec rounds id err log r log' :
  verify_rejected_delete server rounds id err log = (r, log') →
  ∃ n, n ≤ S rounds ∧ log' = log ++ gets id n ∧ (r = Ok tt → confirmed id log').
Proof.
  unfold verify_rejected_delete. unfold mbind at 1, st_bind at 1.
  destruct (send server (GetWorkspace id) _ log) as [x log1] eqn:E. apply send_spec in E as [-> E].
  destruct x as [a| |]; cycle 1.
  { intros [= <- <-]. exists 1. by split_and!; [lia| |]. }
  { intros [= <- <-]. exists 1. by split_and!; [lia| |]. }
  destruct (is_gone (an_status a)) eqn:Eg.
  { intros [= <- <-]. exists 1. split_and!; [lia|done|]. intros _. exists a.
    rewrite last_seen_snoc. unfold shows_gone. by rewrite Eg. }
  destruct (http_success (an_status a)) eqn:Es; cycle 1.
  { intros [= <- <-]. exists 1. by split_and!; [lia| |]. }
  destruct (an_workspace a) as [w|] eqn:Ew; cycle 1.
  { intros [= <- <-]. exists 1. by split_and!; [lia| |]. }
  destruct (already_deleted w) eqn:Ed.
  { intros [= <- <-]. exists 1. split_and!; [lia|done|]. intros _. exists a.
    rewrite last_seen_snoc. unfold shows_gone. by rewrite Eg, Es, Ew. }
  destruct (delete_underway w); cycle 1.
  { intros [= <- <-]. exists 1. by split_and!; [lia| |]. }
  intros (n & Hn & -> & Hr)%wait_deleted_spec. exists (S n). split_and!; [lia|by rewrite gets_S|done].
Qed.

(** A live workspace that nobody is deleting. *)
Definition live (a : option Answer) : Prop :=
  ∃ x w, a = Some x ∧ http_success (an_status x) = true ∧ an_workspace x = Some w ∧
    already_deleted w = false ∧ delete_underway w = false.

(** The shape of the requests of a deletion. *)
Lemma delete_shape rounds id r log :
  delete_workspace server rounds id [] = (r, log) →
  (∃ n, n ≤ S rounds ∧ log = gets id n ∧ (r = Ok tt → confirmed id log)) ∨
  (live (server 0 (GetWorkspace id)) ∧
   ∃ n, n ≤ S rounds ∧ log = GetWorkspace id :: PostBuild id "delete" :: gets id n ∧
     (r = Ok tt → confirmed id log)).
Proof.
  unfold delete_workspace. unfold mbind at 1, st_bind at 1.
  destruct (send server (GetWorkspace id) _ []) as [x log1] eqn:E. apply send_spec in E as [-> E]. cbn in E.
  destruct x as [a| |]; cycle 1.
  { intros [= <- <-]. left. exists 1. by split_and!; [lia| |]. }
  { intros [= <- <-]. left. exists 1. by split_and!; [lia| |]. }
  assert (shows_gone a = true → confirmed id ([] ++ [GetWorkspace id])) as Hc.
  { intros H. exists a. split; [exact E|done]. }
  destruct (is_gone (an_status a)) eqn:Eg.
  { intros [= <- <-]. left. exists 1. split_and!; [lia|done|]. intros _. apply Hc. unfold shows_gone. by rewrite Eg. }
  destruct (http_success (an_status a)) eqn:Es; cbn [negb]; cycle 1.
  { intros [= <- <-]. left. exists 1. by split_and!; [lia| |]. }
  destruct (an_workspace a) as [w|] eqn:Ew; cycle 1.
  { intros [= <- <-]. left. exists 1. by split_and!; [lia| |]. }
  destruct (already_deleted w) eqn:Ed.
  { intros [= <- <-]. left. exists 1. split_and!; [lia|done|]. intros _. apply Hc. unfold shows_gone.
    by rewrite Eg, Es, Ew. }
  destruct (delete_underway w) eqn:Eu.
  { intros (n & Hn & -> & Hr)%wait_deleted_spec. left. exists (S n). by split_and!; [lia| |]. }
  intros H. right. split; [by exists a, w|]. revert H. unfold mbind, st_bind.
  destruct (send server (PostBuild id "delete") _ _) as [y log2] eqn:E2. apply send_spec in E2 as [-> E2].
  cbn in E2. destruct y as [b| |]; cycle 1.
  { intros [= <- <-]. exists 0. by split_and!; [lia| |]. }
  { intros [= <- <-]. exists 0. by split_and!; [lia| |]. }
  destruct (is_gone (an_status b)) eqn:Eg2.
  { intros [= <- <-]. exists 0. split_and!; [lia|done|]. intros _. exists b.
    split; [exact E2|]. unfold shows_gone. by rewrite Eg2. }
  destruct (http_success (an_status b)) eqn:Es2.
  { intros (n & Hn & -> & Hr)%wait_deleted_spec. exists n. by split_and!; [lia| |]. }
  case_bool_decide.
  { intros (n & Hn & -> & Hr)%verify_rejected_spec. by exists n. }
  intros [= <- <-]. exists 0. by split_and!; [lia| |].
Qed.

(** *** Stopping and starting *)

Definition shows_build (st : string) (a : Answer) : Prop :=
  ∃ w, an_workspace a = Some w ∧ build_of w = st.

Lemma get_workspace_spec id log x log' :
  get_workspace server id log = (x, log') →
  log' = log ++ [GetWorkspace id] ∧
  ∀ w, x = Ok w → ∃ a, last_seen log' = Some a ∧ an_workspace a = Some w.
Proof.
  unfold get_workspace. unfold mbind, st_bind.
  destruct (send server (GetWorkspace id) _ log) as [y log1] eqn:E. apply send_spec in E as [-> E].
  destruct y as [a| |]; [|by intros [= <- <-]..].
  destruct (http_success (an_status a)); [|by intros [= <- <-]].
  destruct (an_workspace a) as [w|] eqn:Ew; [|by intros [= <- <-]].
  intros [= <- <-]. split; [done|]. intros w' [= <-]. exists a. by rewrite last_seen_snoc.
Qed.

Lemma wait_build_spec rounds id log x log' :
  wait_workspace_build_terminal server rounds id log = (x, log') →
  (∃ n, n ≤ rounds ∧ log' = log ++ gets id n) ∧
  ∀ st, x = Ok st → ∃ a, last_seen log' = Some a ∧ shows_build st a.
Proof.
  revert log; induction rounds as [|rounds IH]; intros log H.
  - injection H as <- <-. split; [exists 0; split; [lia|by rewrite app_nil_r]|done].
  - cbn [wait_workspace_build_terminal] in H. unfold mbind at 1, st_bind at 1 in H.
    destruct (get_workspace server id log) as [y log1] eqn:E. apply get_workspace_spec in E as [-> E].
    assert (∃ n, n ≤ S rounds ∧ log ++ [GetWorkspace id] = log ++ gets id n) as H1 by (by exists 1; split; [lia|]).
    destruct y as [w| |]; [|by injection H as <- <-..].
    case_bool_decide.
    { injection H as <- <-. split; [done|]. intros st [= <-]. destruct (E w eq_refl) as (a & Ha & Hw).
      exists a. split; [done|]. by exists w. }
    case_bool_decide; [|by injection H as <- <-].
    destruct (IH _ H) as [(n & Hn & ->) Hst]. split; [|done].
    exists (S n). split; [lia|]. by rewrite gets_S.
Qed.

Lemma stop_and_wait_spec rounds id log log' :
  stop_and_wait server rounds id log = (Ok tt, log') → ∃ a, last_seen log' = Some a ∧ shows_build "stopped" a.
Proof.
  unfold stop_and_wait. unfold mbind, st_bind.
  destruct (submit_workspace_transition server id "stop" log) as [[[]| |] log1]; [|done..].
  destruct (wait_workspace_build_terminal server rounds id log1) as [[st| |] log2] eqn:E; [|done..].
  apply wait_build_spec in E as [_ E]. case_bool_decide as Hst; [|done]. intros [= <-]. subst st. auto.
Qed.

Lemma submit_spec id tr log x log' :
  submit_workspace_transition server id tr log = (x, log') → log' = log ++ [PostBuild id tr].
Proof.
  unfold submit_workspace_transition, mbind, st_bind.
  destruct (send server (PostBuild id tr) _ log) as [y log1] eqn:E. apply send_spec in E as [-> _].
  destruct y as [a| |]; [|by intros [= _ <-]..]. destruct (http_success _); by intros [= _ <-].
Qed.

(** A stop that succeeds has seen the workspace stopped or deleted. *)
Lemma stop_is_observed rounds id log log' :
  stop_workspace server rounds id log = (Ok tt, log') →
  ∃ a st, last_seen log' = Some a ∧ shows_build st a ∧ (st = "stopped" ∨ st = "deleted").
Proof.
  unfold stop_workspace. unfold mbind, st_bind.
  destruct (wait_workspace_build_terminal server rounds id log) as [[st| |] log1] eqn:E; [|done..].
  apply wait_build_spec in E as [_ E]. case_bool_decide as Hst.
  - intros [= <-]. destruct (E st eq_refl) as (a & Ha & Hb). exists a, st. split_and!; [done..|]. set_solver.
  - intros (a & Ha & Hb)%stop_and_wait_spec. exists a, "stopped". auto.
Qed.

(** A restart starts the workspace only after it has been seen stopped. *)
Lemma restart_starts_what_is_stopped rounds id log log' :
  restart_workspace server rounds id log = (Ok tt, log') →
  ∃ pre, log' = pre ++ [PostBuild id "start"] ∧ ∃ a, last_seen pre = Some a ∧ shows_build "stopped" a.
Proof.
  unfold restart_workspace. unfold mbind, st_bind.
  destruct (wait_workspace_build_terminal server rounds id log) as [[st| |] log1] eqn:E; [|done..].
  apply wait_build_spec in E as [_ E]. case_bool_decide; [done|].
  case_bool_decide as Hst.
  - subst st. intros ->%submit_spec. exists log1. auto.
  - destruct (stop_and_wait server rounds id log1) as [[[]| |] log2] eqn:E2; [|done..].
    apply stop_and_wait_spec in E2. intros ->%submit_spec. by exists log2.
Qed.
End props.

Definition is_post (r : Req) : bool := match r with PostBuild _ _ => true | _ => false end.

Lemma gets_no_post id n : List.filter is_post (gets id n) = [].
Proof. induction n; [done|]. cbn. done. Qed.

(** Deleting a workspace succeeds only when Coder has confirmed it: the last
    answer is that the workspace is not there, is deleted, or that its delete build
    succeeded.  A delete build is requested at most once, only for a workspace
    that was seen alive with no deletion under way, and no other build is ever
    requested; the whole takes at most three requests more than there are polling
    rounds. *)
Theorem deletion_is_confirmed_and_requested_once server rounds id r log :
  delete_workspace server rounds id [] = (r, log) →
  (r = Ok tt → ∃ a, last_seen server log = Some a ∧ shows_gone a = true) ∧
  (List.filter is_post log = [] ∨
   List.filter is_post log = [PostBuild id "delete"] ∧ live (server 0 (GetWorkspace id))) ∧
  length log ≤ rounds + 3.
Proof.
  intros [(n & Hn & -> & Hr)|(Hl & n & Hn & -> & Hr)]%delete_shape; (split; [exact Hr|]).
  - split; [left; apply gets_no_post|]. unfold gets. rewrite length_replicate. lia.
  - split; [right; cbn; by rewrite gets_no_post|]. cbn. unfold gets. rewrite length_replicate. lia.
Qed.

(** A server whose workspace is running, and deleted by the fourth request. *)
Definition deleting_server (n : nat) (r : Req) : option Answer :=
  let w st b := mkWorkspace "w1" "forge-T-001" "ada" st (Some b) in
  match n, r with
  | 0, GetWorkspace _ => Some (mkAnswer 200 (Some (w "running" (mkBuild "running" (Some "start") []))))
  | 1, PostBuild _ _ => Some (mkAnswer 201 None)
  | 2, GetWorkspace _ => Some (mkAnswer 200 (Some (w "deleting" (mkBuild "running" (Some "delete") []))))
  | _, _ => Some (mkAnswer 404 None)
  end.

Lemma deletion_is_confirmed_and_requested_once_witness :
  delete_workspace deleting_server 10 "w1" [] =
    (Ok tt, [GetWorkspace "w1"; PostBuild "w1" "delete"; GetWorkspace "w1"; GetWorkspace "w1"]) ∧
  ∃ a, last_seen deleting_server [GetWorkspace "w1"; PostBuild "w1" "delete"; GetWorkspace "w1"; GetWorkspace "w1"]
         = Some a ∧ shows_gone a = true.
Proof.
  split; [vm_compute; reflexivity|].
  apply (deletion_is_confirmed_and_requested_once deleting_server 10 "w1" (Ok tt)
           [GetWorkspace "w1"; PostBuild "w1" "delete"; GetWorkspace "w1"; GetWorkspace "w1"]);
    vm_compute; reflexivity.
Defined.
