(* ===== verification/Registry.v ===== *)
(** * The agent registry

    Models the team list of [src/crates/config/src/registry.rs]: which agents are
    enabled, the worker slots they stand for, and the choices made per agent.  The
    environment is an argument where the code reads it. *)
From S2P Require Import Prelude Text Json Tickets VesselPost.

Definition parse_u32 (s : string) : option N :=
  parse_u64 s ≫= λ n, if (n <? 4294967296)%N then Some n else None.

Inductive CliBackend : Type := Claude | Codex | Aider | Goose.
#[export] Instance cli_eq_dec : EqDecision CliBackend.
Proof. solve_decision. Defined.

Definition cli_from_str (s : string) : CliBackend :=
  let s := to_lowercase s in
  if bool_decide (s = "codex") then Codex
  else if bool_decide (s = "claude") then Claude
  else if bool_decide (s = "aider") then Aider
  else if bool_decide (s = "goose") then Goose
  else Claude.

Definition cli_as_str (c : CliBackend) : string :=
  match c with Claude => "claude" | Codex => "codex" | Aider => "aider" | Goose => "goose" end.

Record CoderModule : Type := mkModule { source : string; mod_version : string; params : Value }.

Definition str_param (k dflt : string) (m : CoderModule) : string :=
  from_option id dflt (Json.get k (params m) ≫= as_str).
Definition workdir (m : CoderModule) : string := str_param "workdir" "/home/coder/workspace" m.
Definition permission_mode (m : CoderModule) : string := str_param "permission_mode" "auto" m.

Definition ai_gateway_enabled (m : CoderModule) : bool :=
  match Json.get "enable_ai_gateway" (params m) with
  | Some (VBool b) => b
  | Some _ => false
  | None => contains "claude-code" (source m)
  end.

Definition resolve_ai_gateway_enabled (use_ai_gateway : option string) (module_default : bool) : bool :=
  match use_ai_gateway with
  | Some v => bool_decide (v = "true") || bool_decide (v = "1")
  | None => module_default
  end.

Definition default_permission_mode_for_role (role : string) : string :=
  if bool_decide (role ∈ ["forge"; "vessel"; "lore"]) then "acceptEdits"
  else if bool_decide (role ∈ ["sentinel"; "nexus"]) then "plan"
  else "auto".

(** The skills and MCP settings, which only the provisioner reads, are left out. *)
Record RegistryEntry : Type := mkEntry {
  en_id : string;
  enabled : bool;
  max_instances : u32;
  cli : string;
  model_backend : option string;
  routing_key : option string;
  github_token_env : option string;
  en_allowed_domains : option (list string);
  coder_module : option CoderModule;
}.

Record Registry : Type := mkRegistry {
  default_cli : string;
  allowed_domains : list string;
  team : list RegistryEntry;
}.

Definition DEFAULT_AGENT_MODULES : list (string * (string * string)) :=
  [("claude", ("registry.coder.com/coder/claude-code/coder", "5.2.0"));
   ("codex", ("registry.coder.com/coder-labs/codex/coder", "VERIFY_ON_REGISTRY"));
   ("aider", ("registry.coder.com/coder/aider/coder", "VERIFY_ON_REGISTRY"));
   ("goose", ("registry.coder.com/coder/goose/coder", "VERIFY_ON_REGISTRY"))].

Definition resolve_coder_module (name : string) (entry_module : option CoderModule) : CoderModule :=
  match entry_module with
  | Some m => m
  | None =>
      match assoc name DEFAULT_AGENT_MODULES with
      | Some (src, ver) => mkModule src ver (VObject [])
      | None => mkModule "registry.coder.com/coder/claude-code/coder" "5.2.0" (VObject [])
      end
  end.

Definition cli_backend (e : RegistryEntry) (dflt : string) : CliBackend :=
  cli_from_str (if is_empty (cli e) then dflt else cli e).

Definition resolve_allowed_domains (e : RegistryEntry) (defaults : list string) : list string :=
  match en_allowed_domains e with Some (d :: ds) => d :: ds | _ => defaults end.

Definition effective_instances (e : RegistryEntry) : N := proj1_sig (max_instances e).

Definition active_agents (r : Registry) : list RegistryEntry := List.filter enabled (team r).

Definition reg_get (r : Registry) (name : string) : option RegistryEntry :=
  List.find (λ e, bool_decide (en_id e = name) && enabled e) (team r).

Definition normalize_agent_id (r : Registry) (agent : string) : string :=
  if is_some (reg_get r agent) then agent
  else
    match rsplit_once "-" agent with
    | Some (base, _) => if is_some (reg_get r base) then base else agent
    | None => agent
    end.

(** [env] is [DEFAULT_CLI]. *)
Definition effective_default_cli (env : option string) (r : Registry) : CliBackend :=
  match env with
  | Some v => if is_empty v then cli_from_str (default_cli r) else cli_from_str v
  | None => cli_from_str (default_cli r)
  end.

Definition resolve_cli_backend (env : option string) (r : Registry) (agent : string) : CliBackend :=
  match reg_get r (normalize_agent_id r agent) with
  | Some e => if is_empty (cli e) then effective_default_cli env r else cli_from_str (cli e)
  | None => effective_default_cli env r
  end.

(** [(1..=count).map(|i| format!("{name}-{i}"))]. *)
Definition numbered (name : string) (count : N) : list string :=
  (λ i, name +:+ "-" +:+ pretty (N.of_nat i)) <$> seq 1 (N.to_nat count).

Definition forge_slots (r : Registry) : list string :=
  match reg_get r "forge" with Some e => numbered "forge" (effective_instances e) | None => [] end.

Definition entry_slots (e : RegistryEntry) : list string :=
  let count := effective_instances e in
  if (count =? 0)%N then []
  else if bool_decide (en_id e = "forge") then numbered "forge" count
  else if (count =? 1)%N then [en_id e]
  else numbered (en_id e) count.

Definition all_worker_slots (r : Registry) : list string := concat (entry_slots <$> active_agents r).

(** [total_instances]: the sum panics when it overflows. *)
Fixpoint sum_instances (acc : u32) (l : list RegistryEntry) : result u32 :=
  match l with
  | [] => Ok acc
  | e :: l =>
      match u32_of (`acc + effective_instances e)%N with Some acc => sum_instances acc l | None => Panic end
  end.
Definition total_instances (r : Registry) : result u32 := sum_instances u32_0 (active_agents r).

Definition set_instances (n : u32) (e : RegistryEntry) : RegistryEntry :=
  mkEntry (en_id e) (enabled e) n (cli e) (model_backend e) (routing_key e) (github_token_env e) (en_allowed_domains e) (coder_module e).

Definition with_team_fleet (pairs : u32) (r : Registry) : Registry :=
  mkRegistry (default_cli r) (allowed_domains r)
    ((λ e, if bool_decide (en_id e = "forge") || bool_decide (en_id e = "sentinel")
           then set_instances pairs e else e) <$> team r).

(** [resolve_github_token]: [env] reads a variable, [global] is the token of Coder's
    external authentication. *)
Definition resolve_github_token (env : string → option string) (global : result string) (r : Registry)
  (agent : string) : result string :=
  let base := normalize_agent_id r agent in
  let stripped := from_option fst agent (rsplit_once "-" agent) in
  match reg_get r base with
  | Some e =>
      match github_token_env e with
      | Some var =>
          match env var with
          | Some t => Ok t
          | None => Err (var +:+ " not set for agent " +:+ agent)
          end
      | None =>
          match global with
          | Ok t => Ok t
          | Err _ => Err "no GitHub token available for agent without github_token_env"
          | Panic => Panic
          end
      end
  | None =>
      if existsb (λ e, bool_decide (en_id e = base) || bool_decide (en_id e = stripped)) (team r) then
        Err ("Agent '" +:+ (if bool_decide (base = agent) then stripped else base)
             +:+ "' exists but is inactive — set enabled: true in registry.json or remove agent from flow")
      else
        match global with
        | Ok t => Ok t
        | Err _ => Err ("Agent '" +:+ base +:+ "' not found in registry")
        | Panic => Panic
        end
  end.
