(* ===== verification/Identity.v ===== *)
(** * Agent identities

    Models [src/crates/config/src/identity.rs]: the roles, how an agent identifier
    is resolved to an entry of the registry, and the tokens an [IdentityManager]
    caches.  The environment is an argument. *)
From S2P Require Import Prelude Text Json Tickets VesselPost Registry.

Inductive AgentRole : Type := RNexus | RForge | RSentinel | RVessel | RLore.
#[export] Instance role_eq_dec : EqDecision AgentRole.
Proof. solve_decision. Defined.

Definition role_as_str (r : AgentRole) : string :=
  match r with
  | RNexus => "nexus"
  | RForge => "forge"
  | RSentinel => "sentinel"
  | RVessel => "vessel"
  | RLore => "lore"
  end.

Definition all_roles : list AgentRole := [RNexus; RForge; RSentinel; RVessel; RLore].

Definition role_from_str (s : string) : result AgentRole :=
  match List.find (λ r, bool_decide (role_as_str r = s)) all_roles with
  | Some r => Ok r
  | None => Err ("Unknown agent role: " +:+ s)
  end.

Record AgentIdentity : Type := mkIdentity {
  ai_id : string;
  ai_role : AgentRole;
  instance_num : option N;
  ai_model_backend : option string;
  ai_github_token : string;
  ai_routing_key : option string;
  ai_cli : string;
  active : bool;
}.

Definition is_forge_instance (i : AgentIdentity) : bool :=
  bool_decide (ai_role i = RForge) && is_some (instance_num i).

(** ** Resolving an identifier *)

(** One numbered instance of a role. *)
Definition resolve_instance (invalid missing exceeds : string) (r : Registry) (role : AgentRole)
  (number : string) : result (RegistryEntry * AgentRole * option N) :=
  match parse_u32 number with
  | None => Err (invalid +:+ number)
  | Some n =>
      match reg_get r (role_as_str role) with
      | None => Err missing
      | Some e =>
          if (effective_instances e <? n)%N
          then Err (exceeds +:+ " instance " +:+ pretty n +:+ " exceeds configured instances ("
                    +:+ pretty (effective_instances e) +:+ ")")
          else Ok (e, role, Some n)
      end
  end.

Fixpoint resolve_numbered (r : Registry) (agent : string) (roles : list AgentRole)
  : result (RegistryEntry * AgentRole * option N) :=
  match roles with
  | [] => Err ("Unknown agent ID format: " +:+ agent)
  | role :: roles =>
      match strip_prefix (role_as_str role +:+ "-") agent with
      | Some number =>
          resolve_instance ("Invalid instance number for " +:+ role_as_str role +:+ ": ")
            ("Base agent '" +:+ role_as_str role +:+ "' not found in registry or inactive") (role_as_str role) r role
            number
      | None => resolve_numbered r agent roles
      end
  end.

Definition resolve_entry (r : Registry) (agent : string) : result (RegistryEntry * AgentRole * option N) :=
  match role_from_str agent with
  | Ok role =>
      match reg_get r agent with
      | Some e => Ok (e, role, None)
      | None => Err ("Agent '" +:+ agent +:+ "' not found in registry or inactive")
      end
  | _ =>
      match strip_prefix "forge-" agent with
      | Some number =>
          resolve_instance "Invalid forge instance number: " "Base agent 'forge' not found in registry or inactive"
            "Forge" r RForge number
      | None => resolve_numbered r agent all_roles
      end
  end.

(** ** The manager *)

Record IdentityManager : Type := mkManager {
  im_registry : Registry;
  tokens : gmap string string;
}.

Definition from_registry (r : Registry) : IdentityManager := mkManager r ∅.

Section manager.
(** [env] reads a variable; [external] is the token of Coder's external
    authentication, as the configuration finds it. *)
Context (env : string → option string) (external : result (option string)).

Definition reload (loaded : result Registry) : St IdentityManager unit :=
  r ← st_lift loaded;
  st_modify (λ _, mkManager r ∅).

Definition clear_cache : St IdentityManager unit := st_modify (λ m, mkManager (im_registry m) ∅).

Definition find_token (e : RegistryEntry) : result string :=
  match github_token_env e with
  | Some var =>
      match env var with
      | Some t => Ok t
      | None => Err (var +:+ " not set for agent " +:+ en_id e)
      end
  | None =>
      match external with
      | Ok (Some t) =>
          if is_empty t
          then Err "no GitHub external-auth token for agent without github_token_env (set CODER_EXTERNAL_AUTH_*_TOKEN)"
          else Ok t
      | Ok None =>
          Err "no GitHub external-auth token for agent without github_token_env (set CODER_EXTERNAL_AUTH_*_TOKEN)"
      | Err e => Err ("GitHub config: " +:+ e)
      | Panic => Panic
      end
  end.

Definition resolve_token_for_entry (e : RegistryEntry) : St IdentityManager string :=
  m ← st_gets id;
  match tokens m !! en_id e with
  | Some t => mret t
  | None =>
      t ← st_lift (find_token e);
      _ ← st_modify (λ m, mkManager (im_registry m) (<[en_id e := t]> (tokens m)));
      mret t
  end.

Definition im_resolve_github_token (agent : string) : St IdentityManager string :=
  m ← st_gets im_registry;
  x ← st_lift (resolve_entry m agent);
  resolve_token_for_entry x.1.1.

Definition identity_of (id : string) (role : AgentRole) (num : option N) (e : RegistryEntry) (token : string)
  : AgentIdentity :=
  mkIdentity id role num (model_backend e) token (routing_key e) (cli e) (enabled e).

Definition get_identity (agent : string) : St IdentityManager AgentIdentity :=
  m ← st_gets im_registry;
  x ← st_lift (resolve_entry m agent);
  let '(e, role, num) := x in
  token ← resolve_token_for_entry e;
  mret (identity_of agent role num e token).

Fixpoint forge_identities (e : RegistryEntry) (numbers : list nat) : St IdentityManager (list AgentIdentity) :=
  match numbers with
  | [] => mret []
  | i :: numbers =>
      token ← resolve_token_for_entry e;
      rest ← forge_identities e numbers;
      mret (identity_of ("forge-" +:+ pretty (N.of_nat i)) RForge (Some (N.of_nat i)) e token :: rest)
  end.

Definition get_identities_for_role (role : AgentRole) : St IdentityManager (list AgentIdentity) :=
  m ← st_gets im_registry;
  match reg_get m (role_as_str role) with
  | None => mret []
  | Some e =>
      if bool_decide (role = RForge) then forge_identities e (seq 1 (N.to_nat (proj1_sig (max_instances e))))
      else token ← resolve_token_for_entry e; mret [identity_of (role_as_str role) role None e token]
  end.

Fixpoint identities_of (roles : list AgentRole) : St IdentityManager (list AgentIdentity) :=
  match roles with
  | [] => mret []
  | role :: roles =>
      here ← get_identities_for_role role;
      rest ← identities_of roles;
      mret (here ++ rest)
  end.

Definition all_identities : St IdentityManager (list AgentIdentity) := identities_of all_roles.

Definition get_model_backend (agent : string) : St IdentityManager (option string) :=
  m ← st_gets im_registry;
  x ← st_lift (resolve_entry m agent);
  mret (model_backend x.1.1).

Definition get_routing_key (agent : string) : St IdentityManager (option string) :=
  m ← st_gets im_registry;
  x ← st_lift (resolve_entry m agent);
  mret (routing_key x.1.1).
End manager.
