(* ===== verification/IdentityProps.v ===== *)
(** * What holds of agent identities

    The worker slots the registry names are the identifiers an [IdentityManager]
    resolves: each to its own entry, role and instance number. *)
From S2P Require Import Prelude Text Json Tickets VesselPost VesselActProps Registry Identity.

(** ** Printed numbers *)

Definition dec_step (n : N) (c : ascii) : N := (n * 10 + (N_of_ascii c - 48))%N.

Lemma pretty_char_value x : (x < 10)%N → (N_of_ascii (pretty_N_char x) - 48 = x)%N.
Proof. intros H. destruct x as [|[[[[]|[]|]|[[]|[]|]|]|[[[]|[]|]|[[]|[]|]|]|]]; try reflexivity; lia. Qed.

Lemma pretty_go_value x s : fold_left dec_step (chars (pretty_N_go x s)) 0%N = fold_left dec_step (chars s) x.
Proof.
  revert s. induction (N.lt_wf_0 x) as [x _ IH]. intros s. destruct (decide (x = 0)%N) as [->|Hx].
  - by rewrite pretty_N_go_0.
  - rewrite pretty_N_go_step by lia. rewrite IH by (apply N.div_lt; lia). cbn [chars String.list_ascii_of_string fold_left].
    unfold dec_step at 2. rewrite pretty_char_value by (apply N.mod_lt; lia). f_equal.
    pose proof (N.div_mod x 10 ltac:(lia)). lia.
Qed.

Lemma pretty_value (n : N) : fold_left dec_step (chars (pretty n)) 0%N = n.
Proof.
  unfold pretty, pretty_N. case_decide; [by subst|]. rewrite pretty_go_value. reflexivity.
Qed.

Lemma pretty_go_nonempty x s : s ≠ "" → pretty_N_go x s ≠ "".
Proof.
  revert s. induction (N.lt_wf_0 x) as [x _ IH]. intros s Hs. destruct (decide (x = 0)%N) as [->|Hx].
  - by rewrite pretty_N_go_0.
  - rewrite pretty_N_go_step by lia. apply IH; [apply N.div_lt; lia|done].
Qed.

Lemma pretty_nonempty (n : N) : pretty n ≠ "".
Proof.
  unfold pretty, pretty_N. case_decide; [done|]. rewrite pretty_N_go_step by lia. by apply pretty_go_nonempty.
Qed.

(** [parse] undoes [to_string]. *)
Lemma parse_u64_pretty (n : N) : (n < U64_MOD)%N → parse_u64 (pretty n) = Some n.
Proof.
  intros Hn. unfold parse_u64.
  assert (strip_prefix "+" (pretty n) = None) as ->.
  { pose proof (pretty_digits n) as H. destruct (strip_prefix "+" (pretty n)) eqn:E; [|done].
    apply strip_prefix_Some in E. rewrite E in H. discriminate H. }
  cbn [from_option]. rewrite pretty_digits. cbn [negb].
  assert (is_empty (pretty n) = false) as ->.
  { pose proof (pretty_nonempty n). by destruct (pretty n). }
  cbn [orb]. change (λ n c, (n * 10 + (N_of_ascii c - 48))%N) with dec_step. rewrite pretty_value.
  by apply N.ltb_lt in Hn as ->.
Qed.

Lemma parse_u32_pretty (n : N) : (n < 4294967296)%N → parse_u32 (pretty n) = Some n.
Proof.
  intros Hn. unfold parse_u32. rewrite parse_u64_pretty by (unfold U64_MOD; lia). cbn.
  by apply N.ltb_lt in Hn as ->.
Qed.

(** ** Slots and identifiers *)

Lemma role_from_str_Ok s role : role_from_str s = Ok role ↔ role_as_str role = s.
Proof.
  unfold role_from_str. split.
  - destruct (List.find _ _) as [r|] eqn:E; [|done]. intros [= <-].
    apply List.find_some in E as [_ E]. by apply bool_decide_eq_true in E.
  - intros <-. by destruct role.
Qed.

(** Entries of a team are told apart by their identifiers. *)
Definition distinct_team (r : Registry) : Prop := NoDup (en_id <$> active_agents r).

Lemma reg_get_active r e : distinct_team r → e ∈ active_agents r → reg_get r (en_id e) = Some e.
Proof.
  unfold distinct_team, reg_get, active_agents. induction (team r) as [|x l IH]; cbn.
  - intros _ H. by apply elem_of_nil in H.
  - destruct (enabled x) eqn:Ex; cbn.
    + intros Hnd He. apply NoDup_cons in Hnd as [Hx Hnd]. apply elem_of_cons in He as [->|He].
      * by rewrite bool_decide_eq_true_2.
      * rewrite bool_decide_eq_false_2; [by apply IH|]. intros E. apply Hx. rewrite E.
        by apply list_elem_of_fmap_2.
    + rewrite andb_false_r. auto.
Qed.

Lemma elem_numbered name count s :
  s ∈ numbered name count ↔ ∃ i, s = name +:+ "-" +:+ pretty i ∧ (1 <= i <= count)%N.
Proof.
  unfold numbered. rewrite list_elem_of_fmap. split.
  - intros (k & -> & Hk). apply elem_of_seq in Hk. exists (N.of_nat k). split; [done|lia].
  - intros (i & -> & Hi). exists (N.to_nat i). rewrite N2Nat.id. split; [done|]. apply elem_of_seq. lia.
Qed.

Lemma instances_u32 e : (effective_instances e < 4294967296)%N.
Proof. apply (proj2_dsig (max_instances e)). Qed.

(** The prefix of a numbered identifier picks its role. *)
Lemma resolve_numbered_id r role s :
  resolve_numbered r (role_as_str role +:+ "-" +:+ s) all_roles =
  resolve_instance ("Invalid instance number for " +:+ role_as_str role +:+ ": ")
    ("Base agent '" +:+ role_as_str role +:+ "' not found in registry or inactive") (role_as_str role) r role s.
Proof. by destruct role. Qed.

Lemma numbered_is_no_role role s : role_from_str (role_as_str role +:+ "-" +:+ s) = Err ("Unknown agent role: " +:+ role_as_str role +:+ "-" +:+ s).
Proof.
  unfold role_from_str. destruct (List.find _ _) as [x|] eqn:E; [|done].
  apply List.find_some in E as [_ E]. apply bool_decide_eq_true in E. by destruct role, x.
Qed.

Lemma resolve_instance_ok a b c r role e i :
  reg_get r (role_as_str role) = Some e → (i <= effective_instances e)%N →
  resolve_instance a b c r role (pretty i) = Ok (e, role, Some i).
Proof.
  intros He Hi. unfold resolve_instance. pose proof (instances_u32 e).
  rewrite parse_u32_pretty by lia. rewrite He. by rewrite (proj2 (N.ltb_ge _ _) Hi).
Qed.

Lemma resolve_numbered_slot r role e i :
  reg_get r (role_as_str role) = Some e → (i <= effective_instances e)%N →
  resolve_entry r (role_as_str role +:+ "-" +:+ pretty i) = Ok (e, role, Some i).
Proof.
  intros He Hi. unfold resolve_entry. rewrite numbered_is_no_role.
  destruct role; rewrite ?resolve_numbered_id; by apply resolve_instance_ok.
Qed.

(** Every worker slot the registry names resolves: for an enabled entry whose
    identifier is a role and is used once, each of its slots is an identifier of
    exactly that entry and role, with the instance number in its name, between one
    and the configured number of instances; a single worker that is not FORGE has
    no number.  So no slot of the fleet is left without a token to look up. *)
Theorem worker_slots_resolve r e role s :
  distinct_team r → e ∈ active_agents r → role_as_str role = en_id e → s ∈ entry_slots e →
  ∃ num, resolve_entry r s = Ok (e, role, num) ∧
    match num with
    | None => s = en_id e ∧ effective_instances e = 1%N ∧ role ≠ RForge
    | Some i => s = en_id e +:+ "-" +:+ pretty i ∧ (1 <= i <= effective_instances e)%N
    end.
Proof.
  intros Hnd He Hrole Hs. pose proof (reg_get_active _ _ Hnd He) as Hget. rewrite <- Hrole in Hget.
  assert (∀ i, s = role_as_str role +:+ "-" +:+ pretty i → (1 <= i <= effective_instances e)%N →
    resolve_entry r s = Ok (e, role, Some i)) as Hnum.
  { intros i -> Hi. apply resolve_numbered_slot; [done|lia]. }
  assert (s ∈ numbered (en_id e) (effective_instances e) →
    ∃ i, resolve_entry r s = Ok (e, role, Some i) ∧ s = en_id e +:+ "-" +:+ pretty i ∧
         (1 <= i <= effective_instances e)%N) as Hin.
  { intros H. apply elem_numbered in H as (i & -> & Hi). exists i. rewrite <- Hrole in *. auto. }
  unfold entry_slots in Hs. destruct (N.eqb_spec (effective_instances e) 0) as [|_]; [by apply elem_of_nil in Hs|].
  case_bool_decide as Hf.
  - rewrite <- Hf in Hs. destruct (Hin Hs) as (i & H). by exists (Some i).
  - destruct (N.eqb_spec (effective_instances e) 1) as [H1|_].
    + apply list_elem_of_singleton in Hs as ->. exists None. split; [|split_and!; [done|done|]].
      * unfold resolve_entry. by rewrite (proj2 (role_from_str_Ok _ _) Hrole), <- Hrole, Hget.
      * intros ->. by apply Hf.
    + destruct (Hin Hs) as (i & H). by exists (Some i).
Qed.

Module Team.
Definition two : u32 := dexist 2%N eq_refl.
Definition forge : RegistryEntry := mkEntry "forge" true two "" None None (Some "FORGE_TOKEN") None None.
Definition off : RegistryEntry := mkEntry "lore" false two "" None None None None None.
Definition registry : Registry := mkRegistry "claude" [] [off; forge].
End Team.

Lemma worker_slots_resolve_witness :
  resolve_entry Team.registry "forge-2" = Ok (Team.forge, RForge, Some 2%N) ∧
  ∃ num, resolve_entry Team.registry "forge-2" = Ok (Team.forge, RForge, num) ∧
    match num with
    | None => "forge-2" = en_id Team.forge ∧ effective_instances Team.forge = 1%N ∧ RForge ≠ RForge
    | Some i => "forge-2" = en_id Team.forge +:+ "-" +:+ pretty i ∧ (1 <= i <= effective_instances Team.forge)%N
    end.
Proof.
  split; [vm_compute; reflexivity|]. apply (worker_slots_resolve Team.registry Team.forge RForge "forge-2").
  - apply (bool_decide_unpack _). vm_compute. exact I.
  - apply list_elem_of_singleton. reflexivity.
  - reflexivity.
  - apply (bool_decide_unpack _). vm_compute. exact I.
Defined.

(** ** The token cache *)

(** A token that was found once is given again, whatever became of the environment,
    until the cache is cleared. *)
Lemma token_is_cached env env' external external' e m t m' :
  resolve_token_for_entry env external e m = (Ok t, m') →
  resolve_token_for_entry env' external' e m' = (Ok t, m').
Proof.
  unfold resolve_token_for_entry. cbn. unfold mbind, st_bind. cbn.
  destruct (tokens m !! en_id e) as [c|] eqn:E.
  - intros [= <- <-]. by rewrite E.
  - unfold st_lift. destruct (find_token env external e); [|done..]. cbn. intros [= <- <-]. cbn.
    by rewrite lookup_insert_eq.
Qed.

(** A failed lookup leaves the cache alone. *)
Lemma failed_lookup_is_not_cached env external e m msg m' :
  resolve_token_for_entry env external e m = (Err msg, m') → m' = m.
Proof.
  unfold resolve_token_for_entry. cbn. unfold mbind, st_bind. cbn.
  destruct (tokens m !! en_id e) as [c|]; [done|].
  unfold st_lift. destruct (find_token env external e); cbn; intros [=]; by subst.
Qed.
