(* ===== verification/Nexus.v ===== *)
(** * NEXUS: decisions of the controller

    Models the pure part of [src/crates/agent-nexus/src/lib.rs]: CI setup tickets,
    statuses that are not recognised, the reading of worker and ticket state, the
    choice of a reviewer, and the rules of [exec].  Iteration over a hash map takes
    its order from an argument. *)
From S2P Require Import Prelude Text Json Tickets Review Vessel VesselQueue VesselPost Registry Github Coder Flow.

(** ** Decisions *)

Record AgentDecision : Type := mkDecision {
  action : string;
  notes : string;
  assign_to : option string;
  dec_ticket : option string;
  dec_issue_url : option string;
}.

Definition KEY_NO_WORK_COUNT : string := "_no_work_count".
Definition KEY_CI_READINESS : string := "ci_readiness".
Definition HEARTBEAT_STALE_AFTER_SECS : N := 90.
Definition CI_SETUP_TICKET_ID : string := "T-CI-001".
Definition KEY_TICKET_STATUS : string := "status".
Definition KEY_TICKET_CHAT_ACTION : string := "chat_action".
Definition KEY_TICKET_DISPATCH : string := "dispatch".
Definition KEY_TICKET_RECOVERY_ATTEMPTS : string := "recovery_attempts".
Definition KEY_COMMAND_GATE : string := "command_gate".
Definition ACTION_MERGE_PRS : string := "merge_prs".
Definition ACTION_NO_WORK : string := "no_work".

Definition decide_to (action notes : string) : AgentDecision := mkDecision action notes None None None.

(** ** CI setup tickets *)

Inductive CiReadiness : Type := Ready | Missing | SetupInProgress.

#[export] Instance serde_readiness : Serde CiReadiness := {
  to_value r := VString (match r with
                         | Ready => "ready" | Missing => "missing" | SetupInProgress => "setup_in_progress"
                         end);
  from_value v :=
    name ← variant_name v;
    if bool_decide (name = "ready") then Ok Ready
    else if bool_decide (name = "missing") then Ok Missing
    else if bool_decide (name = "setup_in_progress") then Ok SetupInProgress
    else Err ("unknown variant `" +:+ name +:+ "`")
}.

Definition is_synthetic_ci_setup_ticket (t : Ticket) : bool :=
  bool_decide (tk_id t = CI_SETUP_TICKET_ID) || starts_with "T-CI-" (tk_id t).

Definition is_ci_setup_ticket (t : Ticket) : bool :=
  let title := to_lowercase (tk_title t) in
  (contains "ci" title && (contains "setup" title || contains "pipeline" title || contains "workflow" title))
  || bool_decide (tk_id t = CI_SETUP_TICKET_ID) || starts_with "T-CI-" (tk_id t).

Definition has_ci_setup_ticket (tickets : list Ticket) : bool := existsb is_ci_setup_ticket tickets.

Definition ci_setup_ticket_active (tickets : list Ticket) : bool :=
  existsb (λ t, is_ci_setup_ticket t && is_assignable t) tickets.

Definition CI_SETUP_BODY : string :=
  "This repository has no CI/CD workflows. Create `.github/workflows/ci.yml` with build, test, and lint checks before any other work proceeds. Without CI, VESSEL cannot validate PRs and the merge pipeline stalls.".

Definition ci_setup_ticket : Ticket :=
  mkTicket CI_SETUP_TICKET_ID "CI: Setup GitHub Actions workflows" CI_SETUP_BODY u32_0 None Open None u32_0.

Definition ensure_ci_setup_ticket (readiness : CiReadiness) (tickets : list Ticket) : list Ticket :=
  match readiness with
  | Missing => if has_ci_setup_ticket tickets then tickets else tickets ++ [ci_setup_ticket]
  | _ => tickets
  end.

Definition remove_stale_ci_setup_tickets (tickets : list Ticket) : list Ticket :=
  List.filter (λ t, negb (is_synthetic_ci_setup_ticket t)) tickets.

(** [sort_by]: stable, so an element goes before the first one that it does not
    exceed. *)
Fixpoint insert_sorted {A} (le : A → A → bool) (x : A) (l : list A) : list A :=
  match l with
  | [] => [x]
  | y :: l => if le x y then x :: y :: l else y :: insert_sorted le x l
  end.
Definition sort_by {A} (le : A → A → bool) (l : list A) : list A := fold_right (insert_sorted le) [] l.

(** CI tickets first, then by priority. *)
Definition ci_first_le (a b : Ticket) : bool :=
  match is_ci_setup_ticket a, is_ci_setup_ticket b with
  | true, false => true
  | false, true => false
  | _, _ => (proj1_sig (tk_priority a) <=? proj1_sig (tk_priority b))%N
  end.

Definition prioritize_ci_first (tickets : list Ticket) : list Ticket := sort_by ci_first_le tickets.

(** ** Statuses that were not recognised *)

Definition char_upper (c : ascii) : ascii :=
  if (97 <=? N_of_ascii c)%N && (N_of_ascii c <=? 122)%N then ascii_of_N (N_of_ascii c - 32) else c.
Fixpoint to_uppercase (s : string) : string :=
  match s with String c s => String (char_upper c) (to_uppercase s) | EmptyString => EmptyString end.

Definition contains_any (l : list string) (s : string) : bool := existsb (λ p, contains p s) l.

Definition remap_unrecognized_status (raw : string) : option string :=
  let upper := to_uppercase (trim raw) in
  let has l := contains_any l upper in
  let complete := has ["DONE"; "COMPLETE"; "FINISH"; "SUCCESS"] in
  if has ["PR"; "PULL_REQUEST"] && has ["OPEN"; "CREAT"; "SUBMIT"] then Some "PR_OPENED"
  else if has ["EXHAUST"; "FUEL"; "BUDGET"] then Some "FUEL_EXHAUSTED"
  else if has ["SENTINEL"] then Some "AWAITING_SENTINEL_REVIEW"
  else if has ["APPROVE"] || (has ["READY"] && negb (has ["PR"])) then Some "APPROVED_READY"
  else if negb complete && has ["REVIEW"; "WAIT"; "PAUSE"; "HOLD"] then Some "PENDING_REVIEW"
  else if complete then Some "COMPLETE"
  else if has ["BLOCK"; "FAIL"; "ERROR"; "STUCK"; "ABORT"; "ABANDON"; "CANNOT"] then Some "BLOCKED"
  else if has ["SEGMENT"] then Some "SEGMENT_N_DONE"
  else None.

(** [s.split(p).next()]. *)
Fixpoint before (p s : string) : string :=
  match s with
  | String c s' => if starts_with p s then EmptyString else String c (before p s')
  | EmptyString => EmptyString
  end.

Definition raw_status_of (reason : string) : string :=
  trim (from_option (before " (normalized:") "" (strip_prefix "Unrecognized STATUS.json status: " reason)).

Definition resolvable (t : Ticket) : bool :=
  match tk_status t with
  | Failed _ reason _ =>
      starts_with "Unrecognized STATUS.json status:" reason
      && is_some (remap_unrecognized_status (raw_status_of reason))
  | _ => false
  end.

(** The tickets with those resolved, and how many. *)
Definition auto_resolve_unrecognized_statuses (tickets : list Ticket) : list Ticket * nat :=
  ((λ t, if resolvable t then set_status Open t else t) <$> tickets, length (List.filter resolvable tickets)).

(** ** Workers *)

Definition ticket_worker_id (t : Ticket) : option string := status_worker (tk_status t).

Definition worker_index (worker : string) : option N := rsplit_once "-" worker ≫= λ x, parse_u32 x.2.

Definition paired_sentinel_slot (forge : string) : option string :=
  (λ i, "sentinel-" +:+ pretty i) <$> worker_index forge.

(** The ticket of a worker that is at work on it. *)
Definition busy_ticket (st : WorkerStatus) : option string :=
  match st with WAssigned t _ | Working t _ => Some t | _ => None end.

Definition is_idle (st : WorkerStatus) : bool := match st with Idle => true | _ => false end.

Definition is_sentinel (worker : string) : bool := bool_decide (worker_role worker = "sentinel").

(** [review_sentinel_for_ticket] on the slots in iteration order. *)
Definition review_sentinel_for_ticket (ticket forge : string) (live : list (string * WorkerSlot))
  : option (string * WorkerSlot) :=
  let idle_sentinels := List.filter (λ e, is_sentinel e.1 && is_idle (slot_status e.2)) live in
  match List.find (λ e, is_sentinel e.1 && bool_decide (busy_ticket (slot_status e.2) = Some ticket)) live with
  | Some e => Some e
  | None =>
      match paired_sentinel_slot forge ≫= λ i, List.find (λ e, bool_decide (e.1 = i)) live with
      | Some e => if is_idle (slot_status e.2) then Some e else head idle_sentinels
      | None => head idle_sentinels
      end
  end.

Definition should_resume_existing_chat (status : ChatStatus) (last_action : option string) : bool :=
  match status with
  | CError => true
  | CWaiting =>
      bool_decide (last_action ∈ [None; Some "completed"; Some "interrupted"; Some "resume_needed";
                                  Some "resume_failed"])
  | _ => false
  end.

(** ** Names and texts *)

Definition workspace_name_for_ticket (worker ticket : string) : string := worker_role worker +:+ "-" +:+ ticket.

Definition template_env_key (worker : string) : string :=
  "CODER_" +:+ replace "-" "_" (to_uppercase (worker_role worker)) +:+ "_TEMPLATE".
Definition template_name_for_worker (env : string → option string) (worker : string) : string :=
  from_option id ("openflows-" +:+ worker_role worker) (env (template_env_key worker)).

Definition resolve_workspace_branch (pending : list Value) (ticket : string) : string :=
  from_option id ""
    (List.find (λ p, bool_decide ((Json.get "ticket_id" p ≫= as_str) = Some ticket)) pending
     ≫= λ p, Json.get "head_branch" p ≫= as_str).

Definition managed_worker_request_key (worker ticket : string) : string :=
  "runtime:worker-request:" +:+ worker +:+ ":" +:+ ticket.

Definition rework_prompt (ticket directive : string) : string :=
  "You are resuming existing work on ticket " +:+ ticket +:+ "." +:+ nl +:+ nl +:+ directive +:+ nl +:+ nl
  +:+ "Address the rework directive above. Re-check `openflows-harness status get` and `openflows-harness dispatch read` for context." +:+ nl.

Definition resume_prompt (ticket : string) : string :=
  "Resume work on ticket " +:+ ticket +:+ ". Check your phase with `openflows-harness status get` and dispatch with `openflows-harness dispatch read`. Continue from there.".

Fixpoint find_map {A B} (f : A → option B) (l : list A) : option B :=
  match l with [] => None | a :: l => match f a with Some b => Some b | None => find_map f l end end.

Definition directive_pr_number (directive : string) : option u64 :=
  find_map (λ line,
    let line := trim line in
    (match strip_prefix "pr:" line with Some r => Some r | None => strip_prefix "pr :" line end)
    ≫= λ r, parse_u64 (trim r)) (lines directive).

(** [format!("T-{:03}", n)]. *)
Definition pad3 (n : u64) : string :=
  let s := pretty n in
  if (n <? 10)%N then "00" +:+ s else if (n <? 100)%N then "0" +:+ s else s.
Definition issue_ticket_id (n : u64) : string := "T-" +:+ pad3 n.

(** ** Consistency of tickets, workers and pull requests *)

Record FlowRecovery : Type := mkRecovery {
  unmerged_prs : list (u64 * option string);
  orphaned_tickets : list (string * string * string);
  stale_workers : list (string * string * string);
  completed_without_pr : list string;
  crashed_workspaces : list (string * string * string * string * u32);
  crashed_chats : list (string * string * string * string);
}.

(** The derived flags. *)
Definition needs_recovery (r : FlowRecovery) : bool :=
  negb (is_nil (unmerged_prs r)) || negb (is_nil (orphaned_tickets r)) || negb (is_nil (stale_workers r))
  || negb (is_nil (completed_without_pr r)) || negb (is_nil (crashed_workspaces r))
  || negb (is_nil (crashed_chats r)).

Definition unmerged_of (pr : Value) : option (u64 * option string) :=
  match pr with
  | VObject _ =>
      (λ n, (n, Json.get "ticket_id" pr ≫= as_str)) <$> (Json.get "number" pr ≫= as_u64)
  | _ => None
  end.

Definition orphan_of (slots : gmap string WorkerSlot) (t : Ticket) : option (string * string * string) :=
  match tk_status t with
  | Assigned w | InProgress w =>
      match slots !! w with
      | None => Some (tk_id t, w, "worker slot missing")
      | Some s =>
          if is_idle (slot_status s) then Some (tk_id t, w, "worker is idle but ticket still assigned") else None
      end
  | _ => None
  end.

Definition without_pr (pending : list Value) (t : Ticket) : option string :=
  match tk_status t with
  | Completed _ outcome =>
      if bool_decide (outcome = "pr_opened")
         && negb (existsb (λ p, bool_decide ((Json.get "ticket_id" p ≫= as_str) = Some (tk_id t))) pending)
      then Some (tk_id t) else None
  | _ => None
  end.

Definition find_ticket (ticket : string) (tickets : list Ticket) : option Ticket :=
  List.find (λ t, bool_decide (tk_id t = ticket)) tickets.

Definition terminal_ticket (tickets : list Ticket) (ticket : string) : bool :=
  existsb (λ t, bool_decide (tk_id t = ticket) && Tickets.is_terminal (tk_status t)) tickets.

Definition stale_of (tickets : list Ticket) (s : WorkerSlot) : option (string * string * string) :=
  match slot_status s with
  | WAssigned t _ | Working t _ =>
      match find_ticket t tickets with
      | None => Some (slot_id s, t, "ticket no longer exists")
      | Some x =>
          if Tickets.is_terminal (tk_status x)
          then Some (slot_id s, t, "ticket already completed/merged but worker still assigned/working")
          else None
      end
  | Suspended t _ _ =>
      if terminal_ticket tickets t
      then Some (slot_id s, t, "ticket already completed/merged but worker still suspended") else None
  | _ => None
  end.

Definition reconcile (tickets : list Ticket) (slots : gmap string WorkerSlot)
  (live : list (string * WorkerSlot)) (pending : list Value) : FlowRecovery :=
  mkRecovery (omap unmerged_of pending) (omap (orphan_of slots) tickets)
    (omap (λ e, stale_of tickets e.2) live) (omap (without_pr pending) tickets) [] [].

(** ** The rules of [exec] *)

Record Context : Type := mkContext {
  c_assignable : list Ticket;
  c_worker_slots : Value;
  c_open_prs : list Value;
  c_review_delivery_pending : bool;
  c_rework_provision : list (string * string);
}.

(** The slots of the context that parse, in the order of its map. *)
Definition context_slots (v : Value) : list WorkerSlot :=
  match v with VObject m => omap (λ e, ok (from_value e.2)) m | _ => [] end.

Definition is_forge (worker : string) : bool := bool_decide (worker_role worker = "forge").

Definition idle_forge_workers (v : Value) : list string :=
  slot_id <$> List.filter (λ s, is_idle (slot_status s) && is_forge (slot_id s)) (context_slots v).
Definition busy_forge_workers (v : Value) : list string :=
  slot_id <$> List.filter (λ s, is_some (busy_ticket (slot_status s)) && is_forge (slot_id s)) (context_slots v).

Definition exec (c : Context) : AgentDecision :=
  match c_rework_provision c with
  | (ticket, worker) :: _ =>
      mkDecision "rework_assigned" "Provisioning FORGE for persisted rework directive" (Some worker) (Some ticket) None
  | [] =>
      if c_review_delivery_pending c then
        decide_to "sentinel_spawned" "Review delivery pending — route to SENTINEL"
      else if negb (is_nil (c_open_prs c)) then
        decide_to ACTION_MERGE_PRS "Pending PRs found — route to vessel"
      else
        match c_assignable c, idle_forge_workers (c_worker_slots c) with
        | [], [] =>
            if is_nil (busy_forge_workers (c_worker_slots c)) then
              decide_to ACTION_NO_WORK "No assignable tickets, no idle or busy forge workers"
            else decide_to PAUSE_SIGNAL "No idle forge worker; workers will be checked on the next poll"
        | _, [] => decide_to PAUSE_SIGNAL "No idle forge worker; workers will be checked on the next poll"
        | [], _ => decide_to PAUSE_SIGNAL "Idle forge workers available but no assignable tickets"
        | ticket :: _, worker :: _ =>
            mkDecision "work_assigned" "Assignable ticket + idle forge worker — route to forge" (Some worker)
              (Some (tk_id ticket)) (tk_issue_url ticket)
        end
  end.
