(* ===== verification/NexusStore.v ===== *)
(** * NEXUS: operations on the shared store

    Models how [src/crates/agent-nexus/src/lib.rs] keeps tickets, worker slots and
    the pull request queue in the shared store, with other processes writing
    whenever NEXUS waits, as in VESSEL's model.  Answers of Coder, GitHub and the
    Manager depend on the moment they are asked for. *)
From S2P Require Import Prelude Text Json Lifecycle LifecycleCodec Store Tickets Review Vessel VesselQueue VesselPost.
From S2P Require Import Github Coder Flow Relay Registry Nexus.

(** ** The world outside *)

Record Issue : Type := mkIssue {
  i_number : u64;
  i_title : string;
  i_body : option string;
  i_html_url : string;
  i_is_pr : bool;
}.

(** What the Manager says of a worker, and of a chat it was asked for. *)
Record WorkerState : Type := mkWorkerState { desired_state : string; observed_state : string; has_heartbeat : bool }.
Record ManagedChat : Type := mkManagedChat { mc_chat_id : string; mc_workspace_id : string; mc_created : bool }.

Record World : Type := mkWorld {
  managed : bool;
  env_repository : option string;
  env_coder_url : option string;
  env_session_token : option string;
  env_api_token : option string;
  getenv : string → option string;
  hook_secret : option string;
  sha256 : string → string;
  uuid : nat → string;
  now_ms : nat → N;
  slot_order : gmap string WorkerSlot → list (string * WorkerSlot);
  gate_order : gmap string Value → list (string * Value);
  registry : result Registry;
  url_parse : string → result (option string * list string);
  external_token : result (option string);
  gh_token : nat → result unit;
  gh_user : nat → string → result string;
  gh_has_marker : nat → result bool;
  gh_comment : nat → result unit;
  gh_assign : nat → string → result unit;
  gh_issues : nat → result (list Issue);
  gh_open_prs : nat → result (list PrInfo);
  gh_reviews : nat → u64 → result (list PrReview);
  gh_has_workflows : nat → result bool;
  local_ci : bool;
  c_list_chats : nat → result (list Chat);
  c_get_chat : nat → string → result (option Chat);
  c_create_chat : nat → result Chat;
  c_send : nat → string → result unit;
  c_archive : nat → string → result unit;
  c_interrupt : nat → string → result unit;
  c_default_org : nat → result string;
  c_create_workspace : nat → result string;
  c_wait_ready : nat → string → result unit;
  c_wait_ssh : nat → string → result unit;
  c_get_workspace : nat → string → result CoderWorkspace;
  c_delete : nat → string → result unit;
  c_start : nat → string → result unit;
  c_stop : nat → string → result unit;
  c_provision_role : nat → string → result unit;
  assignment_prompt : string → Ticket → string;
  m_worker_status : nat → string → result WorkerState;
  m_request_worker : nat → result string;
  m_delete_worker : nat → string → result unit;
  m_create_chat : nat → result ManagedChat;
  m_send : nat → string → result unit;
}.

(** A failed step as a value; a panic stays one. *)
Definition v_try {A} (m : St VState A) : St VState (result A) :=
  λ v, match m v with
       | (Ok a, v') => (Ok (Ok a), v')
       | (Err e, v') => (Ok (Err e), v')
       | (Panic, v') => (Panic, v')
       end.

Definition as_bool (v : Value) : option bool := match v with VBool b => Some b | _ => None end.

Section nexus.
Context (others : nat → SharedStore → SharedStore) (clock : nat → u64) (w : World).

Local Notation v_get := (v_get others).
Local Notation v_write := (v_write others).
Local Notation v_slots := (v_slots others).
Local Notation v_tickets := (v_tickets others).
Local Notation set_slots := (set_slots others).
Local Notation set_tickets := (set_tickets others).
Local Notation get_attempts := (get_attempts others).

(** The answer to a request at the moment it is made. *)
Definition n_ask {A} (f : nat → A) : St VState A :=
  _ ← v_await others; v_step (λ v, (Ok (f (v_clock v)), v)).

Definition n_call {A} (f : nat → result A) : St VState A := r ← n_ask f; st_lift r.

Definition nonempty (o : option string) : bool := is_some_and (λ s, negb (is_empty s)) o.

(** [coder_client_from_store]: whether there is an address and a token. *)
Definition coder_client : St VState bool :=
  url ← v_get "coder_url";
  let url : option string := match url with Some u => Some u | None => env_coder_url w end in
  let token := match env_session_token w with Some t => Some t | None => env_api_token w end in
  token ← (if nonempty token then mret token else v_get "coder_session_token");
  mret (nonempty url && nonempty token).

(** ** Workspaces *)

Definition destroy_coder_workspace (ws : string) : St VState unit :=
  client ← coder_client;
  if (client : bool) then
    chats ← n_ask (c_list_chats w);
    _ ← v_for (List.filter (λ c, bool_decide (chat_workspace_id c = ws)) (or_none chats))
          (λ c, _ ← v_effect (ArchiveChat (chat_id c)); _ ← n_ask (λ n, c_archive w n (chat_id c)); mret tt);
    _ ← v_effect (DeleteWorkspace ws);
    _ ← n_call (λ n, c_delete w n ws);
    slots ← v_slots;
    set_slots ((λ s, if bool_decide (slot_workspace_id s = Some ws)
                     then mkSlot (slot_id s) (slot_status s) None else s) <$> slots)
  else mret tt.

Definition request_key_of (ws : string) (slots : gmap string WorkerSlot) : option string :=
  find_map (λ e,
    if bool_decide (slot_workspace_id e.2 = Some ws)
    then managed_worker_request_key e.1 <$> worker_ticket (slot_status e.2) else None) (slot_order w slots).

Definition destroy_worker_workspace (ws : string) : St VState unit :=
  if managed w then
    slots ← v_get KEY_WORKER_SLOTS;
    let key := slots ≫= request_key_of ws in
    _ ← v_effect (DeleteWorker ws ("runtime-delete:" +:+ ws));
    _ ← n_call (λ n, m_delete_worker w n ws);
    match key with Some k => v_write (λ s, del s k) | None => mret tt end
  else destroy_coder_workspace ws.

(** ** Escalation *)

Definition recovery_key (ticket : string) : string := full_ticket_key_flat ticket KEY_TICKET_RECOVERY_ATTEMPTS.

Definition reset_recovery_attempts (ticket : string) : St VState unit :=
  v_write (λ s, set s (recovery_key ticket) (VPosInt 0)).

Definition increment_recovery_attempts (ticket : string) : St VState u32 :=
  current ← get_attempts (recovery_key ticket);
  next ← st_lift (u32_succ current);
  _ ← v_write (λ s, set s (recovery_key ticket) (to_value next));
  mret next.

(** The slot after its workspace [held] was destroyed; a workspace assigned in the
    meantime is kept. *)
Definition released (held : option string) (s : WorkerSlot) : WorkerSlot :=
  if bool_decide (slot_workspace_id s = held) || (is_some held && is_none (slot_workspace_id s))
  then mkSlot (slot_id s) Idle None else s.

Definition release_worker_slot (worker : string) : St VState unit :=
  slots ← v_slots;
  match slots !! worker with
  | None => mret tt
  | Some slot =>
      if is_idle (slot_status slot) && is_none (slot_workspace_id slot) then mret tt
      else
        let held := slot_workspace_id slot in
        gone ← (match held with Some ws => v_try (destroy_worker_workspace ws) | None => mret (Ok tt) end);
        if is_ok gone then
          slots ← v_slots;
          set_slots (alter (released held) worker slots)
        else mret tt
  end.

Definition notify_awaiting_human (ticket worker why : string) (github_link : option string) : St VState unit :=
  link ← workspace_link_for_worker others (Some worker);
  v_effect (Notify ticket (worker_role worker) why link (from_option id "" github_link)).

Definition mark_ticket_awaiting_human (ticket worker why : string) : St VState unit :=
  tickets ← v_tickets;
  let mine := find_ticket ticket tickets in
  if is_some_and (λ t, match tk_status t with AwaitingHuman _ _ _ => true | _ => false end) mine
  then release_worker_slot worker
  else
    tickets ← st_lift (update_first (has_id ticket) (λ t,
      attempts ← u32_succ (tk_attempts t);
      Ok (set_status (AwaitingHuman worker why attempts) (set_attempts attempts t))) tickets);
    _ ← set_tickets tickets;
    _ ← v_write (λ s, set s (full_ticket_key_flat ticket KEY_TICKET_STATUS) (VString "awaiting_human"));
    _ ← reset_recovery_attempts ticket;
    _ ← release_worker_slot worker;
    notify_awaiting_human ticket worker why (mine ≫= tk_issue_url).

(** ** Orphans *)

Definition reopen_orphan (slots : gmap string WorkerSlot) (t : Ticket) : Ticket :=
  match tk_status t with
  | Assigned wk | InProgress wk => if is_none (slots !! wk) then set_status Open t else t
  | _ => t
  end.

Definition is_reopened (slots : gmap string WorkerSlot) (t : Ticket) : bool :=
  match tk_status t with Assigned wk | InProgress wk => is_none (slots !! wk) | _ => false end.

(** Whether a ticket is finished, by its status or its record. *)
Definition ticket_done (tickets : list Ticket) (ticket : string) : St VState bool :=
  if terminal_ticket tickets ticket then mret true
  else v_read others (λ s, Ok (is_some_and (λ lc, bool_decide (phase lc = Done)) (ok (lifecycle s ticket)))).

Definition is_open_ticket (tickets : list Ticket) (ticket : string) : bool :=
  existsb (λ t, bool_decide (tk_id t = ticket) && match tk_status t with Open => true | _ => false end) tickets.

(** A slot whose ticket is over: its workspace goes first; if that fails the slot
    stays reserved. *)
Definition recycle_stale (ticket : string) (slot : WorkerSlot) : St VState (option WorkerSlot) :=
  let idle := mkSlot (slot_id slot) Idle None in
  match slot_workspace_id slot with
  | None => mret (Some idle)
  | Some ws =>
      gone ← v_try (destroy_worker_workspace ws);
      if is_ok gone then
        _ ← v_write (λ s, del s (full_ticket_key ticket KEY_TICKET_WORKSPACE (worker_role (slot_id slot))));
        mret (Some idle)
      else mret None
  end.

Definition recover_slot (tickets : list Ticket) (slot : WorkerSlot) : St VState (option WorkerSlot) :=
  match slot_status slot with
  | Suspended t _ _ =>
      over ← ticket_done tickets t;
      if (over : bool) then recycle_stale t slot else mret None
  | WAssigned t _ | Working t _ =>
      over ← ticket_done tickets t;
      if (over : bool) || is_open_ticket tickets t then recycle_stale t slot else mret None
  | _ => mret None
  end.

(** The loop over the slots: their new values, and whether one changed. *)
Fixpoint recover_slots (tickets : list Ticket) (l : list (string * WorkerSlot))
  (acc : gmap string WorkerSlot) (changed : bool) : St VState (gmap string WorkerSlot * bool) :=
  match l with
  | [] => mret (acc, changed)
  | (k, slot) :: l =>
      r ← recover_slot tickets slot;
      match r with
      | Some s => recover_slots tickets l (<[k := s]> acc) true
      | None => recover_slots tickets l acc changed
      end
  end.

Definition remove_lingering (ticket role : string) : St VState unit :=
  let key := full_ticket_key ticket KEY_TICKET_WORKSPACE role in
  held ← v_get key;
  match held with
  | None => mret tt
  | Some ws =>
      gone ← v_try (destroy_worker_workspace ws);
      if is_ok gone then
        now ← v_get key;
        if bool_decide (now = Some ws) then v_write (λ s, del s key) else mret tt
      else mret tt
  end.

Definition lingering_workspaces (t : Ticket) : St VState unit :=
  over ← (if Tickets.is_terminal (tk_status t) then mret true else ticket_done [] (tk_id t));
  if (over : bool) then _ ← remove_lingering (tk_id t) "forge"; remove_lingering (tk_id t) "sentinel"
  else mret tt.

Definition recover_orphans : St VState unit :=
  tickets ← v_tickets;
  slots ← v_slots;
  let reopened := existsb (is_reopened slots) tickets in
  let tickets := reopen_orphan slots <$> tickets in
  r ← recover_slots tickets (slot_order w slots) slots false;
  _ ← (if reopened then set_tickets tickets else mret tt);
  _ ← (if (r.2 : bool) then set_slots r.1 else mret tt);
  v_for tickets lingering_workspaces.
End nexus.
