(* ===== verification/NexusSync.v ===== *)
(** * NEXUS: synchronisation

    Issues, open pull requests and the worker fleet are brought into the shared
    store, and pull requests are handed to VESSEL: [sync_issues], [sync_open_prs],
    [sync_registry], [check_ci_readiness] and [pending_prs_ready_for_vessel] of
    [src/crates/agent-nexus/src/lib.rs]. *)
From S2P Require Import Prelude Text Json Lifecycle LifecycleCodec Store Tickets Review Vessel VesselQueue VesselPost.
From S2P Require Import Github Registry Nexus NexusStore.

(** ** Issues *)

Definition track_issue (tickets : list Ticket) (i : Issue) : list Ticket :=
  let ticket := issue_ticket_id (i_number i) in
  if i_is_pr i || is_some (find_ticket ticket tickets) then tickets
  else tickets ++ [mkTicket ticket (i_title i) (from_option id "" (i_body i)) u32_0 None Open
                     (Some (i_html_url i)) u32_0].

(** ** Pull requests *)

(** The failures that rework, not the queue, takes care of. *)
Definition rework_failure (reason : string) : bool :=
  contains_any ["Merge conflicts"; "merge conflict"; "conflict rework"; "CI failed"; "CI timed out";
                "no worker available for fix"; "fix attempts"; "See blockers"] reason.

Definition pr_entry (pr : PrInfo) (ticket : option string) : Value :=
  VObject [("number", to_value (number pr)); ("ticket_id", to_value ticket);
           ("head_sha", to_value (head_sha pr)); ("head_branch", to_value (head_branch pr));
           ("base_branch", to_value (base_branch pr)); ("title", to_value (title pr));
           ("mergeable", match mergeable pr with Some b => VBool b | None => VNull end);
           ("has_conflicts", VBool (has_conflicts pr))].

(** The entry of a pull request that is tracked already. *)
Definition is_current (pr : PrInfo) (e : Value) : bool :=
  bool_decide (as_str (index "head_sha" e) = Some (head_sha pr))
  && bool_decide (as_bool (index "mergeable" e) = mergeable pr)
  && bool_decide (as_bool (index "has_conflicts" e) = Some (has_conflicts pr)).

Definition refresh (pr : PrInfo) (e : Value) : Value :=
  set_key "has_conflicts" (VBool (has_conflicts pr))
    (set_key "mergeable" (match mergeable pr with Some b => VBool b | None => VNull end)
       (set_key "head_sha" (to_value (head_sha pr)) e)).

Definition has_number (n : u64) (e : Value) : bool := bool_decide (entry_number e = Some n).
Definition tracks (ticket : string) (e : Value) : bool := bool_decide (as_str (index "ticket_id" e) = Some ticket).

(** An approval of the head, or of no head in particular, by someone who may give
    it, with no change request open. *)
Definition human_approved (reviews : list PrReview) (head : string) : bool :=
  bool_decide (effective_review_state reviews = Approved)
  && existsb (λ r, bool_decide (state_enum r = Approved) && is_authorized_reviewer r
                   && (bool_decide (r_commit_id r = Some head) || is_none (r_commit_id r)))
       (latest_review_per_user reviews).

(** What the loop over the open pull requests carries. *)
Record Discovery : Type := mkDiscovery {
  d_pending : list Value;
  d_new : list PrInfo;
  d_updated : bool;
}.

Definition add_entry (e : Value) (d : Discovery) : Discovery :=
  mkDiscovery (d_pending d ++ [e]) (d_new d) (d_updated d).
Definition add_new (pr : PrInfo) (d : Discovery) : Discovery :=
  mkDiscovery (d_pending d ++ [pr_entry pr (ticket_id pr)]) (d_new d ++ [pr]) (d_updated d).

Definition refresh_tracked (pr : PrInfo) (d : Discovery) : Discovery :=
  match list_find (λ e, has_number (number pr) e = true) (d_pending d) with
  | Some (i, e) =>
      if is_current pr e then d
      else mkDiscovery (<[i := refresh pr e]> (d_pending d)) (d_new d) true
  | None => d
  end.

Definition is_awaiting_human (t : Ticket) : bool :=
  match tk_status t with AwaitingHuman _ _ _ => true | _ => false end.

Definition completed_pr (t : Ticket) : Ticket :=
  set_status (Completed "nexus-reconciliation" "pr_opened") t.

(** The queue after pull requests that are no longer open are dropped. *)
Definition still_open (prs : list PrInfo) (e : Value) : bool :=
  match entry_number e with
  | Some n => negb (n =? 0)%N && existsb (λ pr, (number pr =? n)%N) prs
  | None => false
  end.

Section sync.
Context (others : nat → SharedStore → SharedStore) (w : World).

Local Notation v_get := (v_get others).
Local Notation v_write := (v_write others).
Local Notation v_slots := (v_slots others).
Local Notation v_tickets := (v_tickets others).
Local Notation set_slots := (set_slots others).
Local Notation set_tickets := (set_tickets others).
Local Notation get_attempts := (get_attempts others).
Local Notation n_ask := (n_ask others).

(** An answer that only a hosted controller insists on. *)
Definition hosted_or {A} (r : result A) (dflt : St VState unit) (k : A → St VState unit) : St VState unit :=
  match r with
  | Ok a => k a
  | Err e => if managed w then st_lift (Err e) else dflt
  | Panic => st_lift Panic
  end.

Definition sync_issues (owner repo : string) : St VState unit :=
  if is_empty owner || is_empty repo then mret tt
  else
    token ← n_ask (gh_token w);
    _ ← st_lift token;
    issues ← n_ask (gh_issues w);
    hosted_or issues (mret tt) (λ issues,
      tickets ← v_tickets;
      set_tickets (fold_left track_issue issues tickets)).

Definition should_discover_pr (n : u64) (ticket : option string) : St VState bool :=
  if is_some_and (λ t, negb (is_empty t)) ticket then mret true
  else v_read others (λ s, Ok (is_none (Store.get s ("pr:" +:+ pretty n +:+ ":unmanaged")))).

Definition in_submit (ticket : string) : St VState bool :=
  v_read others (λ s, Ok (is_some_and (λ lc, bool_decide (phase lc = Submit)) (ok (lifecycle s ticket)))).

(** A ticket handed to a human goes on only when a human has approved the head or
    pushed a new one.  [true]: the pull request may be considered further. *)
Definition resume_awaiting (pr : PrInfo) (ticket : string) : St VState bool :=
  reviews ← n_ask (λ n, gh_reviews w n (number pr));
  let approved := human_approved (or_none reviews) (head_sha pr) in
  last ← v_get (address_review_dispatched_key (number pr));
  let changed := is_some_and (λ sha, negb (bool_decide (sha = head_sha pr))) (last : option string) in
  if negb approved && negb changed then mret false
  else
    _ ← v_write (λ s, set s (address_review_attempts_key (number pr)) (VPosInt 0));
    _ ← (if approved then
           _ ← v_write (λ s, del s (address_review_dispatched_key (number pr)));
           v_write (λ s, del s (address_review_dispatched_at_key (number pr)))
         else mret tt);
    tickets ← v_tickets;
    let mine t := has_id ticket t && is_awaiting_human t in
    _ ← (if existsb mine tickets
         then set_tickets ((λ t, if mine t then set_status (InProgress "vessel") t else t) <$> tickets)
         else mret tt);
    mret true.

(** Whether the ticket's status lets its pull request back into the queue. *)
Definition status_allows (ticket : option Ticket) : St VState bool :=
  match ticket with
  | None => mret true
  | Some t =>
      match tk_status t with
      | Failed _ reason _ => mret (negb (rework_failure reason))
      | InProgress _ => in_submit (tk_id t)
      | _ => mret true
      end
  end.

Definition MAX_CI_FIX_ATTEMPTS_NEXUS : N := 3.

(** The counters that keep a pull request out: [true] when it may be added. *)
Definition counters_allow (pr : PrInfo) : St VState bool :=
  ci ← get_attempts (ci_fix_attempts_key (number pr));
  if (MAX_CI_FIX_ATTEMPTS_NEXUS <=? `ci)%N then mret false
  else if is_none (ticket_id pr) then
    conflicts ← get_attempts (conflict_attempts_key (number pr));
    blocked ← get_attempts (merge_blocked_key (number pr));
    mret (negb ((MAX_CONFLICT_RESOLUTION_ATTEMPTS <=? `conflicts)%N
                || (MAX_CONFLICT_RESOLUTION_ATTEMPTS <=? `blocked)%N))
  else mret true.

Definition add_if_allowed (pr : PrInfo) (d : Discovery) : St VState Discovery :=
  allowed ← counters_allow pr;
  mret (if (allowed : bool) then add_new pr d else d).

Definition discover_new (tickets : list Ticket) (pr : PrInfo) (d : Discovery) : St VState Discovery :=
  match ticket_id pr with
  | None => add_if_allowed pr d
  | Some tid =>
      if existsb (tracks tid) (d_pending d) then mret d
      else
        let ticket := find_ticket tid tickets in
        go ← (if is_some_and is_awaiting_human ticket then resume_awaiting pr tid else mret true);
        if negb go then mret d
        else
          dispatched ← v_read others (λ s, Ok (is_some (Store.get s (address_review_dispatched_key (number pr)))));
          if (dispatched : bool) then mret (add_entry (pr_entry pr (ticket_id pr)) d)
          else
            allowed ← status_allows ticket;
            if (allowed : bool) then add_if_allowed pr d else mret d
  end.

Definition discover (known : list u64) (tickets : list Ticket) (pr : PrInfo) (d : Discovery)
  : St VState Discovery :=
  wanted ← should_discover_pr (number pr) (ticket_id pr);
  if (wanted : bool) then
    if bool_decide (number pr ∈ known) then mret (refresh_tracked pr d) else discover_new tickets pr d
  else mret d.

Fixpoint discover_all (known : list u64) (tickets : list Ticket) (prs : list PrInfo) (d : Discovery)
  : St VState Discovery :=
  match prs with
  | [] => mret d
  | pr :: prs => d ← discover known tickets pr d; discover_all known tickets prs d
  end.

(** The status of the ticket of a newly queued pull request, corrected. *)
Definition correct_status (t : Ticket) : St VState (option Ticket) :=
  match tk_status t with
  | Failed _ reason _ => mret (if rework_failure reason then None else Some (completed_pr t))
  | Open | Assigned _ | Exhausted _ _ => mret (Some (completed_pr t))
  | InProgress _ => back ← in_submit (tk_id t); mret (if (back : bool) then Some (completed_pr t) else None)
  | _ => mret None
  end.

Fixpoint correct_tickets (prs : list PrInfo) (tickets : list Ticket) (changed : bool)
  : St VState (list Ticket * bool) :=
  match prs with
  | [] => mret (tickets, changed)
  | pr :: prs =>
      match ticket_id pr ≫= λ t, list_find (λ x, tk_id x = t) tickets with
      | Some (i, t) =>
          r ← correct_status t;
          match r with
          | Some t' => correct_tickets prs (<[i := t']> tickets) true
          | None => correct_tickets prs tickets changed
          end
      | None => correct_tickets prs tickets changed
      end
  end.

Definition sync_open_prs (owner repo : string) : St VState unit :=
  if is_empty owner || is_empty repo then mret tt
  else
    token ← n_ask (gh_token w);
    _ ← st_lift token;
    prs ← n_ask (gh_open_prs w);
    hosted_or prs (mret tt) (λ prs,
      pending ← v_get KEY_PENDING_PRS;
      let pending : list Value := from_option id [] pending in
      let known := omap entry_number pending in
      tickets ← v_tickets;
      d ← discover_all known tickets prs (mkDiscovery pending [] false);
      let kept := List.filter (still_open prs) (d_pending d) in
      let changed := negb (length kept =? length known) || negb (length kept =? length (d_pending d)) || d_updated d in
      _ ← (if changed then v_write (λ s, set s KEY_PENDING_PRS (VArray kept)) else mret tt);
      if is_nil (d_new d) then mret tt
      else
        tickets ← v_tickets;
        r ← correct_tickets (d_new d) tickets false;
        if (r.2 : bool) then set_tickets r.1 else mret tt).

(** ** The worker fleet *)

Definition fleet_slot (name : string) : WorkerSlot := mkSlot name Idle None.

(** The slots for the workers of the registry: those it no longer has are
    dropped, missing ones added, the others untouched. *)
Definition fleet (names : list string) (slots : gmap string WorkerSlot) : gmap string WorkerSlot :=
  filter (λ e, e.1 ∈ names) slots ∪ list_to_map ((λ n, (n, fleet_slot n)) <$> names).

Definition team_registry : result Registry :=
  r ← registry w;
  r ← (match getenv w "OPENFLOWS_FLEET_SIZE" with
       | None => Ok r
       | Some text =>
           match parse_u32 text ≫= u32_of with
           | Some pairs =>
               ensure! negb (proj1_sig pairs =? 0)%N or "OPENFLOWS_FLEET_SIZE must be positive" ;;
               Ok (with_team_fleet pairs r)
           | None => Err "OPENFLOWS_FLEET_SIZE must be a positive integer"
           end
       end : result Registry);
  ensure! negb (is_nil (forge_slots r))
    or "Worker fleet has no enabled FORGE slots; check enabled and max_instances" ;;
  ensure! is_some_and (λ e, (0 <? effective_instances e)%N) (reg_get r "sentinel")
    or "Worker fleet requires an enabled SENTINEL with max_instances > 0" ;;
  Ok r.

Definition sync_registry : St VState unit :=
  r ← st_lift team_registry;
  slots ← v_slots;
  let names := all_worker_slots r in
  if bool_decide (dom slots = list_to_set names) then mret tt else set_slots (fleet names slots).

(** ** CI *)

Definition set_readiness (r : CiReadiness) : St VState unit :=
  v_write (λ s, set s KEY_CI_READINESS (to_value r)).

Definition check_ci_readiness (owner repo : string) : St VState CiReadiness :=
  if is_empty owner || is_empty repo then mret Ready
  else if negb (managed w) && local_ci w then _ ← set_readiness Ready; mret Ready
  else
    token ← n_ask (gh_token w);
    match token with
    | Ok _ =>
        found ← n_ask (gh_has_workflows w);
        match found with
        | Ok true => _ ← set_readiness Ready; mret Ready
        | Ok false => mret Missing
        | Err e => if managed w then st_lift (Err e) else _ ← set_readiness Ready; mret Ready
        | Panic => st_lift Panic
        end
    | Err e => if managed w then st_lift (Err e) else mret Missing
    | Panic => st_lift Panic
    end.

(** ** What VESSEL may see *)

(** Whether a pull request is handed over: it names a ticket, no rework is waiting
    for it, and its ticket is in submit. *)
Definition ready_for_vessel (pr : Value) : St VState bool :=
  match as_str (index "ticket_id" pr) with
  | Some ticket =>
      if is_blank ticket then mret false
      else
        waiting ← v_read others (λ s,
          Ok (is_some (Store.get s (full_ticket_key ticket KEY_TICKET_REWORK_DIRECTIVE "forge"))));
        if (waiting : bool) then mret false else in_submit ticket
  | None => mret false
  end.

Fixpoint pending_prs_ready_for_vessel (pending : list Value) : St VState (list Value) :=
  match pending with
  | [] => mret []
  | pr :: pending =>
      go ← ready_for_vessel pr;
      rest ← pending_prs_ready_for_vessel pending;
      mret (if (go : bool) then pr :: rest else rest)
  end.

(** The end of [prep]: the queue for VESSEL. *)
Definition publish_merge_ready (pending : list Value) : St VState (list Value) :=
  ready ← pending_prs_ready_for_vessel pending;
  _ ← v_write (λ s, set s KEY_MERGE_READY_PRS (VArray ready));
  mret ready.
End sync.
