(* ===== verification/NexusAct.v ===== *)
(** * NEXUS: workspaces, chats, recovery and assignment

    Models the provisioning of workspaces, the one chat per ticket and role, crash
    recovery, and the [post] phase of [src/crates/agent-nexus/src/lib.rs], for
    controllers that drive Coder directly and for hosted ones that go through the
    Manager. *)
From S2P Require Import Prelude Text Json Lifecycle LifecycleCodec Store Tickets Review Vessel VesselQueue VesselPost.
From S2P Require Import Github Coder Flow Relay Registry Identity Nexus NexusStore NexusSync.

(** The record a harness refreshes while it runs. *)
Record HeartbeatRecord : Type := mkHeartbeat { hb_ts : u64; hb_ws_id : string; hb_status : string }.

#[export] Instance serde_heartbeat : Serde HeartbeatRecord := {
  to_value h := VObject [("ts", to_value (hb_ts h)); ("ws_id", to_value (hb_ws_id h)); ("status", to_value (hb_status h))];
  from_value v := ts ← field "ts" v; ws ← field "ws_id" v; st ← field "status" v; Ok (mkHeartbeat ts ws st)
}.

Definition heartbeat_key (role ticket : string) : string := "heartbeat:" +:+ role +:+ "-T-" +:+ ticket.
Definition instructions_key (ws : string) : string := "workspace:" +:+ ws +:+ ":instructions_pending".

Definition heartbeat_problem (now : N) (ws : string) (h : HeartbeatRecord) : option string :=
  let age := ((now - hb_ts h) / 1000)%N in
  if negb (bool_decide (hb_status h = "running")) then
    Some ("heartbeat status is " +:+ hb_status h +:+ " for ws " +:+ hb_ws_id h)
  else if (HEARTBEAT_STALE_AFTER_SECS <? age)%N then
    Some ("heartbeat stale after " +:+ pretty age +:+ "s for ws " +:+ hb_ws_id h)
  else if negb (bool_decide (hb_ws_id h = ws)) then
    Some ("heartbeat ws mismatch (heartbeat=" +:+ hb_ws_id h +:+ ", slot=" +:+ ws +:+ ")")
  else None.

(** The [Debug] form. *)
Definition agent_status_debug (s : AgentStatus) : string :=
  match s with
  | Connected => "Connected"
  | Disconnected => "Disconnected"
  | ATimeout => "Timeout"
  | AUnknown raw => "Unknown(" +:+ debug_str raw +:+ ")"
  end.

Definition workspace_problem (r : result CoderWorkspace) : option string :=
  match r with
  | Ok ws =>
      match workspace_status ws with
      | WsRunning => if bool_decide (agent_status ws = Connected) then None
                     else Some ("workspace agent status is " +:+ agent_status_debug (agent_status ws))
      | WsPending => Some "workspace is pending"
      | WsStarting => Some "workspace is starting"
      | WsStopping => Some "workspace is stopping"
      | WsStopped => Some "workspace is stopped"
      | WsFailed => Some "workspace failed"
      | WsDeleting => Some "workspace is deleting"
      | WsDeleted => Some "workspace is deleted"
      | WsUnknown raw =>
          if is_agent_ready ws then None else Some ("workspace status is " +:+ raw +:+ " (agent not ready)")
      end
  | Err e => Some ("workspace lookup failed: " +:+ e)
  | Panic => Some "workspace lookup failed"
  end.

(** [CrashedWorkspace]. *)
Record Crash : Type := mkCrash {
  cr_workspace : string;
  cr_worker : string;
  cr_ticket : string;
  cr_reason : string;
  cr_attempts : u32;
}.

Definition MAX_READY_ATTEMPTS : nat := 3.
Definition MAX_SSH_ATTEMPTS : nat := 3.
Definition CREATE_CHAT_MAX_ATTEMPTS : nat := 3.
Definition CHAT_RESUME_MAX_ATTEMPTS : nat := 3.

Section act.
Context (others : nat → SharedStore → SharedStore) (w : World).

Local Notation v_get := (v_get others).
Local Notation v_write := (v_write others).
Local Notation v_slots := (v_slots others).
Local Notation v_tickets := (v_tickets others).
Local Notation set_slots := (set_slots others).
Local Notation set_tickets := (set_tickets others).
Local Notation get_attempts := (get_attempts others).
Local Notation n_ask := (n_ask others).
Local Notation n_call := (n_call others).
Local Notation coder_client := (coder_client others w).

(** What needs no waiting: the time, a fresh identifier. *)
Definition n_local {A} (f : nat → A) : St VState A := v_step (λ v, (Ok (f (v_clock v)), v)).

(** ** Provisioning *)

(** [a2a_pair_token]. *)
Definition NUL : string := String "000"%char EmptyString.
Definition a2a_pair_token (ticket : string) : result string :=
  match hook_secret w with
  | Some secret =>
      if is_blank secret then Err "CODER_CHAT_HOOK_SECRET is required to derive A2A pair tokens"
      else Ok (sha256 w ("openflows-a2a-pair-token-v1" +:+ NUL +:+ secret +:+ NUL +:+ ticket))
  | None => Err "CODER_CHAT_HOOK_SECRET is required to derive A2A pair tokens"
  end.

Definition record_token (ticket : string) : St VState unit :=
  token ← st_lift (a2a_pair_token ticket);
  v_write (λ s, set s (pair_token_key ticket) (VString (sha256 w token))).

(** The slot of a worker with its workspace, in a map read earlier. *)
Definition with_workspace (worker : string) (ws : option string) (slots : gmap string WorkerSlot)
  : gmap string WorkerSlot :=
  alter (λ s, mkSlot (slot_id s) (slot_status s) ws) worker slots.

Definition ensure_workspace_instructions (ws worker : string) : St VState unit :=
  pending ← v_read others (λ s, Ok (is_some (Store.get s (instructions_key ws))));
  if (pending : bool) then
    _ ← n_call (λ n, c_provision_role w n (worker_role worker));
    v_write (λ s, del s (instructions_key ws))
  else mret tt.

Fixpoint wait_ready (attempts : nat) (ws : string) : St VState unit :=
  match attempts with
  | O => mret tt
  | S attempts =>
      r ← n_ask (λ n, c_wait_ready w n ws);
      match r, attempts with
      | Err e, O => st_lift (Err ("Coder workspace " +:+ ws +:+ " did not become ready after 3 attempts (180s each): " +:+ e))
      | Err _, S _ => wait_ready attempts ws
      | r, _ => st_lift r
      end
  end.

(** Waiting for SSH is given up silently. *)
Fixpoint wait_ssh (attempts : nat) (ws : string) : St VState unit :=
  match attempts with
  | O => mret tt
  | S attempts =>
      r ← n_ask (λ n, c_wait_ssh w n ws);
      if is_ok r then mret tt else wait_ssh attempts ws
  end.

Definition queue_branch (ticket : string) : St VState string :=
  pending ← v_get KEY_PENDING_PRS;
  mret (resolve_workspace_branch (from_option id [] pending) ticket).

Definition provision_managed_workspace (worker ticket : string) : St VState (option string) :=
  slots ← v_slots;
  match slots !! worker with
  | None => st_lift (Err "worker slot disappeared while provisioning")
  | Some slot =>
      match slot_workspace_id slot with
      | Some ws =>
          st ← n_call (λ n, m_worker_status w n ws);
          if bool_decide (desired_state st = "running") && bool_decide (observed_state st = "running")
             && has_heartbeat st
          then mret (Some ws)
          else st_lift (Err ("managed worker workspace " +:+ ws +:+ " is still " +:+ desired_state st +:+ " / "
                             +:+ observed_state st))
      | None =>
          branch ← queue_branch ticket;
          _ ← record_token ticket;
          let key := managed_worker_request_key worker ticket in
          held ← v_get key;
          fresh ← n_local (uuid w);
          let idem : string := from_option id fresh held in
          _ ← v_write (λ s, set s key (VString idem));
          _ ← v_effect (RequestWorker (worker_role worker) ticket branch idem);
          ws ← n_call (m_request_worker w);
          _ ← set_slots (with_workspace worker (Some ws) slots);
          st_lift (Err ("managed worker workspace " +:+ ws
                        +:+ " is queued; it will be adopted after Manager reports it ready"))
      end
  end.

Definition provision_coder_workspace (worker ticket : string) : St VState (option string) :=
  if managed w then provision_managed_workspace worker ticket
  else
    slots ← v_slots;
    match slots !! worker with
    | None => mret None
    | Some slot =>
        match slot_workspace_id slot with
        | Some ws =>
            client ← coder_client;
            if (client : bool) then
              r ← n_ask (λ n, c_wait_ready w n ws);
              match r with
              | Ok _ => mret (Some ws)
              | Err e =>
                  _ ← set_slots (with_workspace worker None slots);
                  st_lift (Err ("Coder workspace " +:+ ws +:+ " not ready on re-check: " +:+ e))
              | Panic => st_lift Panic
              end
            else mret (Some ws)
        | None =>
            client ← coder_client;
            if (client : bool) then
              branch ← queue_branch ticket;
              _ ← record_token ticket;
              _ ← v_effect (CreateWorkspace (template_name_for_worker (getenv w) worker)
                              (workspace_name_for_ticket worker ticket) ticket branch);
              ws ← n_call (c_create_workspace w);
              _ ← v_write (λ s, set s (instructions_key ws) (VBool true));
              _ ← set_slots (with_workspace worker (Some ws) slots);
              _ ← wait_ready MAX_READY_ATTEMPTS ws;
              _ ← wait_ssh MAX_SSH_ATTEMPTS ws;
              _ ← ensure_workspace_instructions ws worker;
              mret (Some ws)
            else mret None
        end
    end.

(** ** Chats *)

(** [ticket_phase] and the planning gate. *)
Definition ticket_phase (ticket : string) : St VState (option string) :=
  v_read others (λ s,
    Ok (Store.get s (full_ticket_key_flat ticket KEY_TICKET_STATUS) ≫= λ v,
          match as_str v with Some p => Some p | None => Json.get "phase" v ≫= as_str end)).

Definition gate_approved (ticket : string) : St VState bool :=
  v_read others (λ s,
    Ok (is_some_and (λ lc, is_some_and d_approved (plan_decision lc)) (ok (lifecycle s ticket)))).

Definition is_waiting_for_planning_gate (ticket : string) : St VState bool :=
  ph ← ticket_phase ticket;
  if bool_decide (ph = Some "plan_ready") then ok ← gate_approved ticket; mret (negb ok) else mret false.

Definition resume_chat (chat ticket : string) : St VState (result unit) :=
  _ ← v_effect (SendChat chat (resume_prompt ticket));
  n_ask (λ n, c_send w n chat).

Fixpoint create_chat_loop (attempts : nat) (ws ticket prompt : string) : St VState (option Chat) :=
  match attempts with
  | O => mret None
  | S attempts =>
      _ ← v_effect (CreateChat ws ticket prompt);
      r ← n_ask (c_create_chat w);
      match r with Ok c => mret (Some c) | _ => create_chat_loop attempts ws ticket prompt end
  end.

Fixpoint resume_loop (attempts : nat) (chat ticket : string) : St VState unit :=
  match attempts with
  | O => mret tt
  | S attempts =>
      r ← resume_chat chat ticket;
      if is_ok r then mret tt else resume_loop attempts chat ticket
  end.

Definition dispatch_payload (t : Ticket) : Value :=
  VObject [("ticket_id", to_value (tk_id t)); ("title", to_value (tk_title t)); ("body", to_value (tk_body t));
           ("branch", to_value (tk_branch t))].

(** The keys of a ticket's chat in a role. *)
Definition chat_key (ticket role : string) : string := full_ticket_key ticket KEY_TICKET_CHAT role.
Definition action_key (ticket role : string) : string := full_ticket_key ticket KEY_TICKET_CHAT_ACTION role.
Definition dispatch_key (ticket role : string) : string := full_ticket_key ticket KEY_TICKET_DISPATCH role.

Definition forget_chat (ticket role : string) : St VState unit :=
  _ ← v_write (λ s, del s (chat_key ticket role));
  v_write (λ s, del s (action_key ticket role)).

Definition remove_key (key : string) (v : Value) : Value :=
  match v with VObject m => VObject (List.filter (λ e, negb (bool_decide (e.1 = key))) m) | _ => v end.

(** Drops the chat from the dispatch record. *)
Definition forget_dispatch (ticket role : string) : St VState unit :=
  d ← v_get (dispatch_key ticket role);
  let d : Value := from_option id (VObject []) d in
  if is_some (Json.get "chat_id" d)
  then v_write (λ s, set s (dispatch_key ticket role) (remove_key "chat_id" d)) else mret tt.

(** What to do about the chat on record: [true] when a new one has to be made. *)
Definition settle_existing_chat (ticket role ws chat : string) : St VState bool :=
  r ← n_ask (λ n, c_get_chat w n chat);
  match r with
  | Ok None => _ ← forget_chat ticket role; mret true
  | Ok (Some c) =>
      if negb (bool_decide (chat_workspace_id c = ws)) then
        _ ← forget_chat ticket role; _ ← forget_dispatch ticket role; mret true
      else
        last ← v_get (action_key ticket role);
        gate ← is_waiting_for_planning_gate ticket;
        if negb gate && should_resume_existing_chat (chat_status c) last then
          r ← resume_chat (chat_id c) ticket;
          _ ← v_write (λ s, set s (action_key ticket role)
                (VString (if is_ok r then "follow_up_sent" else "resume_failed")));
          mret false
        else mret false
  | _ => mret false
  end.

Definition start_chat (worker ws : string) (t : Ticket) : St VState unit :=
  let role := worker_role worker in
  org ← n_ask (c_default_org w);
  if negb (is_ok org) then mret tt
  else
    let rework_key := full_ticket_key (tk_id t) KEY_TICKET_REWORK_DIRECTIVE role in
    directive ← v_get rework_key;
    let prompt := match directive with
                  | Some d => rework_prompt (tk_id t) d
                  | None => assignment_prompt w role t
                  end in
    ready ← v_try (ensure_workspace_instructions ws worker);
    if negb (is_ok ready) then mret tt
    else
      created ← create_chat_loop CREATE_CHAT_MAX_ATTEMPTS ws (tk_id t) prompt;
      match created with
      | None => mret tt
      | Some c =>
          _ ← (if is_some directive then v_write (λ s, del s rework_key) else mret tt);
          _ ← (if bool_decide (chat_status c = CError)
               then resume_loop CHAT_RESUME_MAX_ATTEMPTS (chat_id c) (tk_id t) else mret tt);
          _ ← v_write (λ s, set s (chat_key (tk_id t) role) (VString (chat_id c)));
          _ ← v_write (λ s, set s (action_key (tk_id t) role) (VString "started"));
          _ ← v_write (λ s, set s (dispatch_key (tk_id t) role)
                (set_key "chat_id" (VString (chat_id c)) (dispatch_payload t)));
          v_write (λ s, set s (full_ticket_key (tk_id t) KEY_TICKET_WORKSPACE role) (VString ws))
      end.

Definition managed_rework_message_key (ticket delivery : string) : string :=
  "rework:" +:+ sha256 w ("openflows-managed-rework-v2" +:+ NUL +:+ ticket +:+ NUL +:+ delivery).

Definition ensure_rework_delivery_id (ticket role : string) : St VState string :=
  let key := full_ticket_key ticket KEY_TICKET_REWORK_DELIVERY_ID role in
  held ← v_get key;
  match held with
  | Some i => mret i
  | None => i ← n_local (uuid w); _ ← v_write (λ s, set s key (VString i)); mret i
  end.

Definition managed_prompt (role : string) (t : Ticket) : string :=
  "You are the OpenFlows " +:+ role +:+ " agent for ticket " +:+ tk_id t +:+ "." +:+ nl +:+ nl +:+ "Title: "
  +:+ tk_title t +:+ nl +:+ nl +:+ tk_body t +:+ nl +:+ nl
  +:+ "Read /home/coder/workspace/AGENTS.md and /home/coder/workspace/" +:+ role
  +:+ ".agent.md if present. Read `openflows-harness dispatch read` and `openflows-harness status get`, then write a plan and report `plan_ready` before implementation.".

Definition create_managed_chat_for_assignment (worker : string) (t : Ticket) : St VState unit :=
  let role := worker_role worker in
  slots ← v_slots;
  match slots !! worker ≫= slot_workspace_id with
  | None => st_lift (Err "worker workspace is not assigned yet")
  | Some ws =>
      let rework_key := full_ticket_key (tk_id t) KEY_TICKET_REWORK_DIRECTIVE role in
      directive ← v_get rework_key;
      delivery ← (match directive : option string with
                  | Some _ => i ← ensure_rework_delivery_id (tk_id t) role; mret (Some i)
                  | None => mret None
                  end);
      let prompt := match directive with Some d => rework_prompt (tk_id t) d | None => managed_prompt role t end in
      _ ← v_effect (CreateChat ws (tk_id t) prompt);
      c ← n_call (m_create_chat w);
      _ ← v_ensure (bool_decide (mc_workspace_id c = ws)) "Manager returned a Chat for a different workspace";
      _ ← (match delivery with
           | Some i =>
               _ ← (if mc_created c then mret tt
                    else _ ← v_effect (SendChat (mc_chat_id c) prompt);
                         n_call (λ n, m_send w n (managed_rework_message_key (tk_id t) i)));
               v_write (λ s, del s rework_key)
           | None => mret tt
           end);
      _ ← v_write (λ s, set s (chat_key (tk_id t) role) (VString (mc_chat_id c)));
      client ← coder_client;
      live ← (if (client : bool) then n_ask (λ n, c_get_chat w n (mc_chat_id c)) else mret (Ok None));
      let stuck := match live with
                   | Ok (Some l) => bool_decide (chat_status l ∈ [CError; CRequiresAction; CWaiting])
                   | _ => false
                   end in
      _ ← v_write (λ s, set s (action_key (tk_id t) role) (VString (if stuck then "resume_needed" else "started")));
      _ ← v_write (λ s, set s (full_ticket_key (tk_id t) KEY_TICKET_WORKSPACE role) (VString ws));
      d ← v_get (dispatch_key (tk_id t) role);
      let d : Value := from_option id (dispatch_payload t) d in
      v_write (λ s, set s (dispatch_key (tk_id t) role) (set_key "chat_id" (VString (mc_chat_id c)) d))
  end.

Definition create_chat_for_assignment (worker : string) (t : Ticket) : St VState unit :=
  let role := worker_role worker in
  if bool_decide (role = "sentinel") then mret tt
  else if managed w then
    client ← coder_client;
    ready ← (if (client : bool) then
               slots ← v_slots;
               match slots !! worker ≫= slot_workspace_id with
               | Some ws => v_try (ensure_workspace_instructions ws worker)
               | None => mret (Ok tt)
               end
             else mret (Ok tt));
    if is_ok ready then _ ← v_try (create_managed_chat_for_assignment worker t); mret tt else mret tt
  else
    client ← coder_client;
    if negb client then mret tt
    else
      slots ← v_slots;
      match slots !! worker ≫= slot_workspace_id with
      | None => mret tt
      | Some ws =>
          existing ← v_get (chat_key (tk_id t) role);
          fresh ← (match existing with
                   | Some chat => settle_existing_chat (tk_id t) role ws chat
                   | None => mret true
                   end);
          if (fresh : bool) then start_chat worker ws t else mret tt
      end.

Definition create_chat_for_ticket_id (worker ticket : string) : St VState unit :=
  tickets ← v_tickets;
  match find_ticket ticket tickets with
  | Some t => create_chat_for_assignment worker t
  | None => mret tt
  end.

(** ** Crash recovery *)

Definition chat_worker (tickets : list Ticket) (ticket role : string) : string :=
  from_option id role (find_ticket ticket tickets ≫= ticket_worker_id).

(** One chat of the list: what its status says about the ticket's conversation. *)
Definition inspect_chat (c : Chat) : St VState unit :=
  if negb (bool_decide (label CHAT_LABEL_FLOW c = Some "openflows")) then mret tt
  else
    match label CHAT_LABEL_TICKET c with
    | None => mret tt
    | Some ticket =>
        let role := from_option id "unknown" (label CHAT_LABEL_ROLE c) in
        _ ← v_write (λ s, set s (full_ticket_key ticket "chat_status" role)
                       (VString (chat_as_str (chat_status c))));
        last ← v_get (action_key ticket role);
        match chat_status c with
        | CError => v_write (λ s, set s (action_key ticket role) (VString "resume_needed"))
        | CWaiting =>
            if bool_decide ((last : option string) = Some "interrupted")
            then v_write (λ s, set s (action_key ticket role) (VString "resume_needed"))
            else if bool_decide (last ∈ [Some "follow_up_sent"; Some "completed"]) then mret tt
            else v_write (λ s, set s (action_key ticket role) (VString "completed"))
        | _ => mret tt
        end
    end.

(** One slot: the crash of its workspace, if there is one.  A workspace that is
    well again gets its recovery budget back. *)
Definition inspect_slot (slot : WorkerSlot) : St VState (option Crash) :=
  match slot_workspace_id slot, worker_ticket (slot_status slot) with
  | Some ws, Some ticket =>
      if is_empty ticket then mret None
      else
        let role := worker_role (slot_id slot) in
        beat ← v_get (heartbeat_key role ticket);
        now ← n_local (now_ms w);
        attempts ← get_attempts (recovery_key ticket);
        let crash why := Some (mkCrash ws (slot_id slot) ticket why attempts) in
        match (beat : option HeartbeatRecord) ≫= heartbeat_problem now ws with
        | Some why => mret (crash why)
        | None =>
            r ← n_ask (λ n, c_get_workspace w n ws);
            match workspace_problem r with
            | Some why => mret (crash why)
            | None =>
                _ ← (if (0 <? `attempts)%N then reset_recovery_attempts others ticket else mret tt);
                mret None
            end
        end
  | _, _ => mret None
  end.

Fixpoint inspect_slots (slots : list (string * WorkerSlot)) : St VState (list Crash) :=
  match slots with
  | [] => mret []
  | e :: slots =>
      c ← inspect_slot e.2;
      rest ← inspect_slots slots;
      mret (match c with Some c => c :: rest | None => rest end)
  end.

Definition inspect_coder_recovery (slots : gmap string WorkerSlot) : St VState (list Crash) :=
  client ← coder_client;
  if negb client then mret []
  else
    chats ← n_ask (c_list_chats w);
    match chats with
    | Ok chats => _ ← v_for chats inspect_chat; inspect_slots (slot_order w slots)
    | _ => mret []
    end.

Definition recreate_workspace (c : Crash) : St VState unit :=
  slots ← v_slots;
  _ ← (if is_some (slots !! cr_worker c) then set_slots (with_workspace (cr_worker c) None slots) else mret tt);
  r ← v_try (provision_coder_workspace (cr_worker c) (cr_ticket c));
  if is_ok r then create_chat_for_ticket_id (cr_worker c) (cr_ticket c) else mret tt.

Definition restart (ws : string) : St VState unit :=
  _ ← v_effect (StartWorkspace ws); _ ← n_ask (λ n, c_start w n ws); mret tt.

Definition repair_crash (c : Crash) : St VState unit :=
  if is_empty (cr_ticket c) then mret tt
  else
    attempts ← increment_recovery_attempts others (cr_ticket c);
    if (MAX_ATTEMPTS <=? `attempts)%N then
      mark_ticket_awaiting_human others w (cr_ticket c) (cr_worker c)
        ("workspace " +:+ cr_workspace c +:+ " crashed " +:+ pretty (`attempts)
         +:+ " times and requires human intervention")
    else
      r ← n_ask (λ n, c_get_workspace w n (cr_workspace c));
      match r with
      | Ok ws =>
          match workspace_status ws with
          | WsStopped | WsStopping => restart (cr_workspace c)
          | WsRunning =>
              if negb (bool_decide (agent_status ws = Connected)) || contains "heartbeat" (cr_reason c) then
                _ ← v_effect (StopWorkspace (cr_workspace c));
                _ ← n_ask (λ n, c_stop w n (cr_workspace c));
                restart (cr_workspace c)
              else mret tt
          | WsUnknown _ =>
              if is_agent_ready ws then reset_recovery_attempts others (cr_ticket c) else recreate_workspace c
          | _ => recreate_workspace c
          end
      | _ => mret tt
      end.

(** A crashed chat: [(chat, worker, ticket, reason)]. *)
Definition repair_chat (c : string * string * string * string) : St VState unit :=
  let '(chat, worker, ticket, _) := c in
  let key := action_key ticket (worker_role worker) in
  r ← n_ask (λ n, c_get_chat w n chat);
  match r with
  | Ok (Some x) =>
      sent ← resume_chat (chat_id x) ticket;
      v_write (λ s, set s key (VString (if is_ok sent then "follow_up_sent" else "resume_failed")))
  | _ => v_write (λ s, set s key (VString "resume_failed"))
  end.

Definition repair_coder_recovery (chats : list (string * string * string * string)) (crashes : list Crash)
  : St VState unit :=
  client ← coder_client;
  if (client : bool) then _ ← v_for chats repair_chat; v_for crashes repair_crash else mret tt.

(** The loop over busy slots in [prep]: provisioning is retried, within the
    recovery budget, and the chat is looked after. *)
Definition attend_slot (worker : string) (slot : WorkerSlot) : St VState unit :=
  let ticket := match slot_status slot with WAssigned t _ | Working t _ | Suspended t _ _ => Some t | _ => None end in
  match ticket with
  | None => mret tt
  | Some ticket =>
      if is_some (slot_workspace_id slot) then create_chat_for_ticket_id worker ticket
      else
        attempts ← increment_recovery_attempts others ticket;
        if (MAX_ATTEMPTS <=? `attempts)%N then
          mark_ticket_awaiting_human others w ticket worker
            ("workspace provisioning failed " +:+ pretty (`attempts) +:+ " times for worker " +:+ worker)
        else
          r ← v_try (provision_coder_workspace worker ticket);
          match r with
          | Ok (Some _) =>
              _ ← reset_recovery_attempts others ticket;
              create_chat_for_ticket_id worker ticket
          | _ => mret tt
          end
  end.

(** ** The [post] phase *)

(** A slot handed a ticket; [true] when it still needs a workspace. *)
Definition occupy (worker ticket : string) (url : option string) : St VState bool :=
  slots ← v_slots;
  match slots !! worker with
  | Some slot =>
      _ ← set_slots (<[worker := mkSlot (slot_id slot) (WAssigned ticket url) (slot_workspace_id slot)]> slots);
      mret (is_none (slot_workspace_id slot))
  | None => mret false
  end.

Definition provision_and_chat (worker ticket : string) (needed : bool) : St VState unit :=
  _ ← (if needed then _ ← v_try (provision_coder_workspace worker ticket); mret tt else mret tt);
  create_chat_for_ticket_id worker ticket.

(** The ticket list with [ticket] given to [worker]. *)
Definition assign_ticket (d : AgentDecision) (worker ticket : string) (tickets : list Ticket) : list Ticket :=
  match list_find (λ t, tk_id t = ticket) tickets with
  | Some (i, t) =>
      let t := set_status (Assigned worker) t in
      <[i := match dec_issue_url d with
             | Some url => mkTicket (tk_id t) (tk_title t) (tk_body t) (tk_priority t) (tk_branch t) (tk_status t)
                             (Some url) (tk_attempts t)
             | None => t
             end]> tickets
  | None => tickets ++ [mkTicket ticket (notes d) "" u32_0 None (Assigned worker) (dec_issue_url d) u32_0]
  end.

(** *** The issue on GitHub *)

(** The repository and number an issue's address names; [url::Url::parse] is the
    world's. *)
Definition issue_of_url (url : string) : result (string * string * u64) :=
  u ← url_parse w url;
  host ← or_err u.1 "Missing host in URL";
  ensure! eq_ignore_case host "github.com" or ("URL host must be github.com, got: " +:+ host) ;;
  match u.2 with
  | owner :: repo :: kind :: number :: _ =>
      ensure! bool_decide (kind ∈ ["issues"; "pull"])
        or ("Expected URL path segment 3 to be 'issues' or 'pull', got: " +:+ kind) ;;
      let number := trim_end_matches (char_eqb "/") number in
      n ← or_err (parse_u64 number) ("Could not parse issue number from: " +:+ number);
      Ok (owner, repo, n)
  | _ => Err "Invalid GitHub issue URL path. Expected: /{owner}/{repo}/issues/{number}"
  end.

Definition ASSIGNMENT_FAILURE_MARKER : string := "<!-- openflows-assignment-failure -->".

(** The comment is skipped only when GitHub says the marker is there. *)
Definition post_comment_once (owner repo : string) (n : u64) (comment : string) : St VState unit :=
  there ← n_ask (gh_has_marker w);
  match there with
  | Ok true => mret tt
  | _ => _ ← v_effect (CommentIssue owner repo n comment); _ ← n_ask (gh_comment w); mret tt
  end.

Definition no_token_comment (worker var : string) : string :=
  ASSIGNMENT_FAILURE_MARKER +:+ nl +:+ "⚠️ **Could not assign this issue to `" +:+ worker
  +:+ "`** — the agent's GitHub token could not be resolved. Please check that `" +:+ var
  +:+ "` is configured in the environment (or set a `github_token_env` field for this agent in `registry.json`).".
Definition no_login_comment (worker why : string) : string :=
  ASSIGNMENT_FAILURE_MARKER +:+ nl +:+ "⚠️ **Could not assign this issue to `" +:+ worker
  +:+ "`** — failed to look up the agent's GitHub identity via the API. This usually means the agent's GitHub token is invalid or expired."
  +:+ nl +:+ nl +:+ "Error: " +:+ why.
Definition not_assignable_comment (login owner repo : string) : string :=
  ASSIGNMENT_FAILURE_MARKER +:+ nl +:+ "⚠️ **Could not assign this issue to `@" +:+ login
  +:+ "`** — this GitHub user is not a collaborator on `" +:+ owner +:+ "/" +:+ repo +:+ "`. To fix this, add `"
  +:+ login +:+ "` as a collaborator or adjust repository permissions.".

Definition assign_on_github (owner repo : string) (n : u64) (login : string) : St VState unit :=
  _ ← v_effect (AssignIssue owner repo n login);
  r ← n_ask (λ k, gh_assign w k login);
  match r with
  | Err e =>
      if starts_with "Validation failed (422)" e
      then post_comment_once owner repo n (not_assignable_comment login owner repo)
      else st_lift (Err e)
  | r => st_lift r
  end.

Definition sync_assignment_to_github (worker url : string) : St VState unit :=
  x ← st_lift (issue_of_url url);
  let '(owner, repo, n) := x in
  token ← n_ask (gh_token w);
  _ ← st_lift (match token with
               | Err e => Err ("GitHub token not configured for nexus: " +:+ e)
               | r => r
               end);
  r ← st_lift (registry w);
  match (im_resolve_github_token (getenv w) (external_token w) worker (from_registry r)).1 with
  | Ok token =>
      login ← n_ask (λ k, gh_user w k token);
      match login with
      | Ok login => assign_on_github owner repo n login
      | Err e => post_comment_once owner repo n (no_login_comment worker e)
      | Panic => st_lift Panic
      end
  | Err _ =>
      let var := from_option id "CODER_EXTERNAL_AUTH_*_TOKEN"
                   (reg_get r (normalize_agent_id r worker) ≫= github_token_env) in
      post_comment_once owner repo n (no_token_comment worker var)
  | Panic => st_lift Panic
  end.

Definition assign_rework (worker ticket : string) (tickets : list Ticket) : list Ticket :=
  match list_find (λ t, tk_id t = ticket) tickets with
  | Some (i, t) => <[i := set_status (Assigned worker) t]> tickets
  | None => tickets
  end.

Definition reset_no_work : St VState unit := v_write (λ s, set s KEY_NO_WORK_COUNT (VPosInt 0)).

Definition post_work_assigned (d : AgentDecision) : St VState unit :=
  _ ← reset_no_work;
  match assign_to d, dec_ticket d with
  | Some worker, Some ticket =>
      tickets ← v_tickets;
      _ ← set_tickets (assign_ticket d worker ticket tickets);
      _ ← (if starts_with "T-CI-" ticket then set_readiness others SetupInProgress else mret tt);
      needed ← occupy worker ticket (dec_issue_url d);
      _ ← provision_and_chat worker ticket needed;
      match dec_issue_url d with
      | Some url => if managed w then mret tt else _ ← v_try (sync_assignment_to_github worker url); mret tt
      | None => mret tt
      end
  | _, _ => mret tt
  end.

Definition post_rework_assigned (d : AgentDecision) : St VState unit :=
  _ ← reset_no_work;
  match assign_to d, dec_ticket d with
  | Some worker, Some ticket =>
      tickets ← v_tickets;
      _ ← set_tickets (assign_rework worker ticket tickets);
      needed ← occupy worker ticket None;
      provision_and_chat worker ticket needed
  | _, _ => mret tt
  end.

Definition settle_suspended (approve : bool) (s : WorkerSlot) : WorkerSlot :=
  if approve then
    match slot_status s with
    | Suspended t _ url => mkSlot (slot_id s) (WAssigned t url) (slot_workspace_id s)
    | _ => s
    end
  else mkSlot (slot_id s) Idle (slot_workspace_id s).

Definition post_command (approve : bool) : St VState unit :=
  gate ← v_get KEY_COMMAND_GATE;
  let gate : gmap string Value := from_option id ∅ gate in
  match gate_order w gate with
  | [] => mret tt
  | (worker, _) :: _ =>
      _ ← v_write (λ s, set s KEY_COMMAND_GATE (to_value (delete worker gate)));
      slots ← v_slots;
      set_slots (alter (settle_suspended approve) worker slots)
  end.

Definition post (d : AgentDecision) : St VState string :=
  _ ← recover_orphans others w;
  if bool_decide (action d = ACTION_MERGE_PRS) then
    _ ← reset_no_work;
    pending ← v_get KEY_PENDING_PRS;
    mret (if is_nil (from_option id [] (pending : option (list Value))) then ACTION_NO_WORK else ACTION_MERGE_PRS)
  else
    _ ← (if bool_decide (action d = "work_assigned") then post_work_assigned d else mret tt);
    _ ← (if bool_decide (action d = "rework_assigned") then post_rework_assigned d else mret tt);
    if bool_decide (action d = "no_work") then _ ← reset_no_work; mret PAUSE_SIGNAL
    else
      _ ← (if bool_decide (action d = "approve_command") then post_command true
           else if bool_decide (action d = "reject_command") then post_command false else mret tt);
      mret (action d).
End act.
