(* ===== verification/NexusReview.v ===== *)
(** * NEXUS: the review scheduler and a whole [prep]

    Models how [src/crates/agent-nexus/src/lib.rs] follows the lifecycle of active
    tickets: [poll_harness_status_and_spawn_agents] with its direct and hosted
    variants, the one reviewer conversation per ticket, the documentation agent for
    merged tickets, and [prep], which puts the parts together.  What the messages
    say is a parameter; when, to whom and under which key they are sent is not. *)
From S2P Require Import Prelude Text Json Lifecycle LifecycleCodec Store Tickets Review Vessel VesselQueue VesselPost.
From S2P Require Import Github Coder Flow Registry Nexus NexusStore NexusSync NexusAct.

(** ** Keys *)

Definition pr_review_namespace (revision : u64) (head : string) (round : u64) : string :=
  "pr_review:" +:+ pretty revision +:+ ":" +:+ head +:+ ":" +:+ pretty round.
Definition review_chat_key (ticket review_type : string) : string :=
  "ticket:" +:+ ticket +:+ ":chat:sentinel:" +:+ review_type.
Definition review_verdict_key (ticket review_type : string) : string :=
  "ticket:" +:+ ticket +:+ ":review:sentinel:" +:+ review_type.
Definition review_action_key (ticket review_type : string) : string :=
  "ticket:" +:+ ticket +:+ ":chat_action:sentinel:" +:+ review_type.
Definition session_key (ticket : string) : string := "ticket:" +:+ ticket +:+ ":sentinel_session".
Definition poll_lease_key (ticket : string) : string := "ticket:" +:+ ticket +:+ ":review_poll_lease".

(** [planning_gate:...] and [testing:...]. *)
Definition gate_namespace (testing : bool) (lc : Lifecycle) : string :=
  (if testing then "testing" else "planning_gate") +:+ ":" +:+ pretty (revision lc) +:+ ":"
  +:+ from_option id "plan" (Lifecycle.head lc) +:+ ":" +:+ pretty (review_round lc).

(** ** What there is to tell *)

Inductive Message : Type :=
  | GatePassed (testing : bool)
  | SubmitReady
  | PlanApproved (revision : u64)
  | Rejected (feedback : string)
  | BlockedNow (feedback : string)
  | ReviewPlan (ticket : string) (revision round : u64)
  | ReviewTesting (ticket : string) (revision : u64) (head : string) (round : u64)
  | ReviewPr (ticket title : string) (revision : u64) (head : string) (round : u64).

(** Tickets the scheduler looks at. *)
Definition is_ticket_active (t : Ticket) : bool :=
  match tk_status t with
  | Assigned _ | InProgress _ => true
  | Completed _ outcome => bool_decide (outcome = "pr_opened")
  | _ => false
  end.

(** The FORGE whose work is reviewed: the worker on record, or the one bound to
    the ticket when the record was only corrected. *)
Definition forge_of (t : Ticket) (live : list (string * WorkerSlot)) : string :=
  let bound :=
    from_option fst ""
      (List.find (λ e, is_forge e.1 && bool_decide (busy_ticket (slot_status e.2) = Some (tk_id t))) live) in
  match tk_status t with
  | Assigned k | InProgress k | Completed k _ => if bool_decide (k = "nexus-reconciliation") then bound else k
  | _ => bound
  end.

Definition gate_reviewed (testing : bool) (lc : Lifecycle) : bool :=
  is_some_and d_approved (if testing then test_decision lc else plan_decision lc).

Definition approved_plan (lc : Lifecycle) : option Decision :=
  match plan_decision lc with
  | Some d => if d_approved d && bool_decide (d_revision d = revision lc) then Some d else None
  | None => None
  end.

Definition busy_chat (s : ChatStatus) : bool := bool_decide (s ∈ [CRunning; CPending; CRequiresAction]).

(** The newest review alias first, by its round. *)
Definition alias_round (key : string) : N := from_option id 0%N (parse_u64 (rsplit_next (char_eqb ":") key)).
Definition newest_first (keys : list string) : list string :=
  sort_by (λ a b, (alias_round b <=? alias_round a)%N) keys.

(** [&key[offset..]] from the first occurrence of [p]. *)
Fixpoint from_first (p s : string) : option string :=
  if starts_with p s then Some s
  else match s with String _ s => from_first p s | EmptyString => None end.

Section review.
Context (others : nat → SharedStore → SharedStore) (clock : nat → u64) (w : World).
Context (wording : Message → string).

Local Notation v_get := (v_get others).
Local Notation v_write := (v_write others).
Local Notation v_slots := (v_slots others).
Local Notation v_tickets := (v_tickets others).
Local Notation set_slots := (set_slots others).
Local Notation set_tickets := (set_tickets others).
Local Notation n_ask := (n_ask others).
Local Notation n_call := (n_call others).
Local Notation coder_client := (coder_client others w).
Local Notation provision := (provision_coder_workspace others w).
Local Notation ensure_instructions := (ensure_workspace_instructions others w).

Definition has_key (key : string) : St VState bool :=
  v_read others (λ s, Ok (is_some (Store.get s key))).

(** ** Messages to FORGE *)

(** Tells FORGE once: the mark is set when the message was accepted. *)
Definition notify_once (ticket key : string) (m : Message) : St VState unit :=
  told ← has_key key;
  if (told : bool) then mret tt
  else
    chat ← v_get (chat_key ticket "forge");
    match (chat : option string) with
    | None => mret tt
    | Some c =>
        _ ← v_effect (SendChat c (wording m));
        r ← n_ask (λ n, c_send w n c);
        if is_ok r then v_write (λ s, set s key (VBool true)) else mret tt
    end.

Definition notify_managed_forge (ticket key : string) (m : Message) : St VState unit :=
  chat ← v_get (chat_key ticket "forge");
  match (chat : option string) with
  | None => mret tt
  | Some c => _ ← v_effect (SendChat c (wording m)); _ ← n_ask (λ n, m_send w n key); mret tt
  end.

(** ** The reviewer's conversation *)

(** An earlier review to adopt: the newest alias whose chat is in this workspace. *)
Fixpoint adopt (prefix ws : string) (aliases : list string) : St VState (option string) :=
  match aliases with
  | [] => mret None
  | key :: aliases =>
      match from_first prefix key with
      | None => adopt prefix ws aliases
      | Some key =>
          held ← v_get key;
          match (held : option string) with
          | None => adopt prefix ws aliases
          | Some c =>
              chat ← n_call (λ n, c_get_chat w n c);
              if is_some_and (λ x, bool_decide (chat_workspace_id x = ws)) chat
              then mret (Some c) else adopt prefix ws aliases
          end
      end
  end.

Definition new_session (ticket round_key ws prompt : string) : St VState Chat :=
  _ ← v_effect (CreateChat ws ticket prompt);
  c ← n_call (c_create_chat w);
  _ ← v_write (λ s, set s (session_key ticket) (VString (chat_id c)));
  _ ← v_write (λ s, set s round_key (VString (chat_id c)));
  mret c.

(** The session is in another workspace: the old reviewer has to stop first. *)
Definition replace_session (ticket round_key ws prompt : string) (old : string) (c : Chat) : St VState Chat :=
  _ ← (if busy_chat (chat_status c) then
         _ ← v_effect (InterruptChat old);
         _ ← n_call (λ n, c_interrupt w n old);
         now ← n_call (λ n, c_get_chat w n old);
         v_ensure (negb (is_some_and (λ x, busy_chat (chat_status x)) now))
           "Waiting for the old SENTINEL reviewer to stop before workspace replacement"
       else mret tt);
  _ ← v_effect (ArchiveChat old);
  _ ← n_call (λ n, c_archive w n old);
  _ ← v_write (λ s, del s (session_key ticket));
  new_session ticket round_key ws prompt.

Definition continue_session (ticket round_key prompt : string) (old : string) (c : Chat) : St VState Chat :=
  _ ← v_write (λ s, set s (session_key ticket) (VString old));
  _ ← v_ensure (negb (busy_chat (chat_status c)))
        "SENTINEL is still completing the previous review; wait before sending the next round";
  _ ← v_effect (SendChat old prompt);
  _ ← n_call (λ n, c_send w n old);
  _ ← v_write (λ s, set s round_key (VString old));
  mret c.

Definition continue_sentinel_review (ticket round_key ws prompt : string) : St VState Chat :=
  pending ← has_key (instructions_key ws);
  _ ← v_ensure (negb pending) "Workspace instructions are not ready";
  session ← v_get (session_key ticket);
  let prefix := "ticket:" +:+ ticket +:+ ":chat:sentinel:" in
  session ← (match (session : option string) with
             | Some c => mret (Some c)
             | None =>
                 aliases ← v_read others (λ s, Ok (Store.keys s (prefix +:+ "*")));
                 adopt prefix ws (newest_first aliases)
             end);
  match session with
  | None => new_session ticket round_key ws prompt
  | Some old =>
      chat ← n_call (λ n, c_get_chat w n old);
      match chat with
      | Some c =>
          if bool_decide (chat_workspace_id c = ws) then continue_session ticket round_key prompt old c
          else replace_session ticket round_key ws prompt old c
      | None =>
          _ ← v_write (λ s, del s (session_key ticket));
          new_session ticket round_key ws prompt
      end
  end.

(** ** Scheduling a review *)

Definition bind_reviewer (worker ws : string) (t : Ticket) : St VState unit :=
  slots ← v_slots;
  set_slots (alter (λ s, mkSlot (slot_id s) (WAssigned (tk_id t) (tk_issue_url t)) (Some ws)) worker slots).

(** The workspace of the reviewer, made if there is none. *)
Definition reviewer_workspace (worker : string) (slot : WorkerSlot) (ticket : string) : St VState (option string) :=
  match slot_workspace_id slot with
  | Some ws => mret (Some ws)
  | None => r ← v_try (provision worker ticket); mret (match r with Ok (Some ws) => Some ws | _ => None end)
  end.

Definition review_payload (t : Ticket) (more : list (string * Value)) : Value :=
  VObject ([("ticket_id", to_value (tk_id t)); ("title", to_value (tk_title t)); ("body", to_value (tk_body t));
            ("branch", to_value (tk_branch t))] ++ more).

(** The chat on record for this round: kept, forgotten when it is gone, or
    unknown; in the last case nothing more is done now. *)
Definition existing_review (chat_k action_k : string) : St VState (option (option string)) :=
  held ← v_get chat_k;
  match (held : option string) with
  | None => mret (Some None)
  | Some c =>
      r ← n_ask (λ n, c_get_chat w n c);
      match r with
      | Ok (Some _) => mret (Some (Some c))
      | Ok None =>
          _ ← v_write (λ s, del s chat_k);
          _ ← v_write (λ s, del s action_k);
          mret (Some None)
      | _ => mret None
      end
  end.

(** A review chat that exists already: [true] when it serves this workspace or
    cannot be checked now. *)
Definition review_in_progress (chat_k action_k worker ws : string) (t : Ticket) (c : string) : St VState bool :=
  r ← n_ask (λ n, c_get_chat w n c);
  match r with
  | Ok (Some x) =>
      if bool_decide (chat_workspace_id x = ws) then
        _ ← bind_reviewer worker ws t;
        _ ← v_write (λ s, set s action_k (VString "started"));
        mret true
      else _ ← v_write (λ s, del s chat_k); _ ← v_write (λ s, del s action_k); mret false
  | Ok None => _ ← v_write (λ s, del s chat_k); _ ← v_write (λ s, del s action_k); mret false
  | _ => mret true
  end.

(** Starts or continues the review in the reviewer's workspace. *)
Definition launch_review (t : Ticket) (worker ws chat_k : string) (action_k : option string)
  (payload : Value) (m : Message) : St VState unit :=
  _ ← v_write (λ s, set s (dispatch_key (tk_id t) "sentinel") payload);
  org ← n_ask (c_default_org w);
  if negb (is_ok org) then mret tt
  else
    ready ← v_try (ensure_instructions ws "sentinel");
    if negb (is_ok ready) then mret tt
    else
      r ← v_try (continue_sentinel_review (tk_id t) chat_k ws (wording m));
      match r with
      | Ok c =>
          _ ← bind_reviewer worker ws t;
          _ ← v_write (λ s, set s chat_k (VString (chat_id c)));
          match action_k with Some k => v_write (λ s, set s k (VString "started")) | None => mret tt end
      | _ => mret tt
      end.

Definition gate_message (testing : bool) (t : Ticket) (lc : Lifecycle) : Message :=
  if testing then ReviewTesting (tk_id t) (revision lc) (from_option id "" (Lifecycle.head lc)) (review_round lc)
  else ReviewPlan (tk_id t) (revision lc) (review_round lc).

Definition gate_notified_key (ticket : string) (lc : Lifecycle) : string :=
  "ticket:" +:+ ticket +:+ ":gate_notified:" +:+ phase_as_str (phase lc) +:+ ":" +:+ pretty (revision lc) +:+ ":"
  +:+ pretty (review_round lc).

(** The plan and testing gates. *)
Definition poll_gate (t : Ticket) (lc : Lifecycle) : St VState unit :=
  let testing := bool_decide (phase lc = Testing) in
  let ns := gate_namespace testing lc in
  if gate_reviewed testing lc then notify_once (tk_id t) (gate_notified_key (tk_id t) lc) (GatePassed testing)
  else
    let chat_k := review_chat_key (tk_id t) ns in
    let action_k := review_action_key (tk_id t) ns in
    _ ← v_write (λ s, del s ("ticket:" +:+ tk_id t +:+ ":planning_notified"));
    existing ← existing_review chat_k action_k;
    match existing with
    | None => mret tt
    | Some existing =>
        live ← v_slots;
        match review_sentinel_for_ticket (tk_id t) (forge_of t (slot_order w live)) (slot_order w live) with
        | None => mret tt
        | Some (worker, slot) =>
            ws ← reviewer_workspace worker slot (tk_id t);
            match ws with
            | None => mret tt
            | Some ws =>
                busy ← (match existing with
                        | Some c => review_in_progress chat_k action_k worker ws t c
                        | None => mret false
                        end);
                if (busy : bool) then mret tt
                else
                  launch_review t worker ws chat_k (Some action_k)
                    (review_payload t [("review_type", VString (if testing then "testing" else "planning_gate"));
                                       ("plan", to_value (plan lc))])
                    (gate_message testing t lc)
            end
        end
    end.

(** The review of a submitted pull request. *)
Definition poll_submit (t : Ticket) (lc : Lifecycle) : St VState unit :=
  if is_none (pr_number lc) then
    if is_some_and d_approved (test_decision lc)
    then notify_once (tk_id t) (gate_notified_key (tk_id t) lc) SubmitReady else mret tt
  else if is_some (pr_decision lc) then mret tt
  else
    let h := from_option id "" (Lifecycle.head lc) in
    let ns := pr_review_namespace (revision lc) h (review_round lc) in
    let chat_k := review_chat_key (tk_id t) ns in
    existing ← existing_review chat_k (review_action_key (tk_id t) ns);
    match existing with
    | Some None =>
        verdict ← has_key (review_verdict_key (tk_id t) ns);
        if (verdict : bool) then mret tt
        else
          live ← v_slots;
          match review_sentinel_for_ticket (tk_id t) (forge_of t (slot_order w live)) (slot_order w live) with
          | None => mret tt
          | Some (worker, slot) =>
              ws ← reviewer_workspace worker slot (tk_id t);
              match ws with
              | None => mret tt
              | Some ws =>
                  pr ← v_read others (λ s, Ok (Store.get s (full_ticket_key_flat (tk_id t) "pr")));
                  handoff ← v_read others (λ s, Ok (Store.get s (full_ticket_key_flat (tk_id t) "handoff")));
                  launch_review t worker ws chat_k None
                    (review_payload t [("review_type", VString "pr_review"); ("pr_info", from_option id VNull pr);
                                       ("handoff", from_option id VNull handoff)])
                    (ReviewPr (tk_id t) (tk_title t) (revision lc) h (review_round lc))
              end
          end
    | _ => mret tt
    end.

(** Approvals and rejections FORGE has to hear of. *)
Definition poll_building (t : Ticket) (lc : Lifecycle) : St VState unit :=
  _ ← (if bool_decide (phase lc = Building) && is_none (feedback lc) then
         match approved_plan lc with
         | Some d =>
             notify_once (tk_id t)
               ("ticket:" +:+ tk_id t +:+ ":plan_approved_notified:" +:+ pretty (d_revision d) +:+ ":"
                +:+ pretty (d_round d)) (PlanApproved (d_revision d))
         | None => mret tt
         end
       else mret tt);
  match feedback lc with
  | Some f =>
      notify_once (tk_id t)
        ("ticket:" +:+ tk_id t +:+ ":feedback_notified:" +:+ pretty (revision lc) +:+ ":"
         +:+ pretty (review_round lc)) (Rejected f)
  | None => mret tt
  end.

Definition poll_blocked (t : Ticket) (lc : Lifecycle) : St VState unit :=
  notify_once (tk_id t) ("ticket:" +:+ tk_id t +:+ ":blocked_notified:" +:+ pretty (version lc))
    (BlockedNow (from_option id "A blocker was recorded (see review.md / `status get`)." (feedback lc))).

(** The phase the harness wrote, from the raw value. *)
Definition raw_phase (ticket : string) : St VState (option string) :=
  v_read others (λ s, Ok (match Store.get s (status_key ticket) with
                           | Some v => match Json.get "phase" v with Some p => Json.as_str p | None => None end
                           | None => None
                           end)).

Definition poll_ticket (t : Ticket) : St VState unit :=
  if negb (is_ticket_active t) then mret tt
  else
    ph ← raw_phase (tk_id t);
    lc ← v_try (v_lifecycle others (tk_id t));
    match ph, lc with
    | Some p, Ok lc =>
        if negb (bool_decide (phase_as_str (phase lc) = p)) then mret tt
        else
          match phase lc with
          | PlanReady | Testing => poll_gate t lc
          | Submit => poll_submit t lc
          | PlanRejected | Building => poll_building t lc
          | Blocked => poll_blocked t lc
          | _ => mret tt
          end
    | _, _ => mret tt
    end.

(** ** Documentation of merged tickets *)

Definition is_merged_status (t : Ticket) : bool := match tk_status t with TMerged _ _ => true | _ => false end.

Definition spawn_lore (slots : gmap string WorkerSlot) (t : Ticket) : St VState unit :=
  if negb (is_merged_status t) then mret tt
  else
    held ← v_get (chat_key (tk_id t) "lore");
    if is_some (held : option string) then mret tt
    else
      written ← v_get (full_ticket_key_flat (tk_id t) "lore_done");
      if bool_decide ((written : option bool) = Some true) then mret tt
      else
        match List.find (λ e, bool_decide (worker_role e.1 = "lore") && is_idle (slot_status e.2))
                (slot_order w slots) with
        | None => mret tt
        | Some (worker, slot) =>
            ws ← reviewer_workspace worker slot (tk_id t);
            match ws with
            | None => mret tt
            | Some ws =>
                _ ← v_write (λ s, set s (dispatch_key (tk_id t) "lore")
                      (review_payload t [("action", VString "generate_documentation")]));
                _ ← bind_reviewer worker ws t;
                org ← n_ask (c_default_org w);
                if negb (is_ok org) then mret tt
                else
                  ready ← v_try (ensure_instructions ws worker);
                  if negb (is_ok ready) then mret tt
                  else
                    _ ← v_effect (CreateChat ws (tk_id t) "");
                    r ← n_ask (c_create_chat w);
                    match r with
                    | Ok c => v_write (λ s, set s (chat_key (tk_id t) "lore") (VString (chat_id c)))
                    | _ => mret tt
                    end
            end
        end.

(** ** Hosted reviews *)

Definition ensure_managed_sentinel_review (t : Ticket) (snapshot : gmap string WorkerSlot)
  (ns review_type : string) (m : Message) (lc : Lifecycle) : St VState unit :=
  let chat_k := review_chat_key (tk_id t) ns in
  held ← has_key chat_k;
  if (held : bool) then mret tt
  else
    live ← v_get KEY_WORKER_SLOTS;
    let live := slot_order w (from_option id snapshot live) in
    match review_sentinel_for_ticket (tk_id t) (forge_of t live) live with
    | None => mret tt
    | Some (worker, slot) =>
        ws ← (match slot_workspace_id slot with
              | Some i =>
                  st ← n_ask (λ n, m_worker_status w n i);
                  mret (match st with
                        | Ok st =>
                            if bool_decide (desired_state st = "running")
                               && bool_decide (observed_state st = "running") && has_heartbeat st
                            then Some i else None
                        | _ => None
                        end)
              | None => r ← v_try (provision worker (tk_id t)); mret (match r with Ok (Some i) => Some i | _ => None end)
              end);
        match ws with
        | None => mret tt
        | Some ws =>
            _ ← v_write (λ s, set s (dispatch_key (tk_id t) "sentinel")
                  (review_payload t [("review_type", VString review_type); ("plan", to_value (plan lc));
                                     ("revision", to_value (revision lc)); ("review_round", to_value (review_round lc));
                                     ("head", to_value (Lifecycle.head lc))]));
            _ ← v_effect (CreateChat ws (tk_id t) (wording m));
            r ← n_ask (m_create_chat w);
            match r with
            | Ok c =>
                sent ← (if mc_created c then mret (Ok tt)
                        else _ ← v_effect (SendChat (mc_chat_id c) (wording m));
                             n_ask (λ n, m_send w n ("sentinel:" +:+ ns)));
                if negb (is_ok sent) then mret tt
                else
                  _ ← bind_reviewer worker ws t;
                  _ ← v_write (λ s, set s chat_k (VString (mc_chat_id c)));
                  v_write (λ s, set s (session_key (tk_id t)) (VString (mc_chat_id c)))
            | _ => mret tt
            end
        end
    end.

Definition poll_managed_ticket (snapshot : gmap string WorkerSlot) (t : Ticket) : St VState unit :=
  if negb (is_ticket_active t) then mret tt
  else
    lc ← v_try (v_lifecycle others (tk_id t));
    match lc with
    | Ok lc =>
        let h := from_option id "" (Lifecycle.head lc) in
        let rev := pretty (revision lc) in
        let round := pretty (review_round lc) in
        match phase lc with
        | Building | PlanRejected =>
            match feedback lc with
            | Some f =>
                notify_managed_forge (tk_id t)
                  ("review-feedback:" +:+ phase_as_str (phase lc) +:+ ":" +:+ rev +:+ ":" +:+ round) (Rejected f)
            | None =>
                if bool_decide (phase lc = Building) then
                  match approved_plan lc with
                  | Some d =>
                      notify_managed_forge (tk_id t)
                        ("plan-approved:" +:+ pretty (d_revision d) +:+ ":" +:+ pretty (d_round d))
                        (PlanApproved (d_revision d))
                  | None => mret tt
                  end
                else mret tt
            end
        | PlanReady | Testing =>
            let testing := bool_decide (phase lc = Testing) in
            if gate_reviewed testing lc then
              notify_managed_forge (tk_id t)
                ("gate:" +:+ phase_as_str (phase lc) +:+ ":" +:+ rev +:+ ":" +:+ from_option id "plan" (Lifecycle.head lc)
                 +:+ ":" +:+ round) (GatePassed testing)
            else
              ensure_managed_sentinel_review t snapshot (gate_namespace testing lc)
                (if testing then "testing" else "planning_gate") (gate_message testing t lc) lc
        | Blocked =>
            notify_managed_forge (tk_id t) ("blocked:" +:+ pretty (version lc))
              (BlockedNow (from_option id "A blocker was recorded; inspect lifecycle status for details." (feedback lc)))
        | Submit =>
            if is_none (pr_number lc) then
              if is_some_and d_approved (test_decision lc) then
                notify_managed_forge (tk_id t) ("submit:" +:+ rev +:+ ":" +:+ h +:+ ":" +:+ round) SubmitReady
              else mret tt
            else if is_some (pr_decision lc) then mret tt
            else
              ensure_managed_sentinel_review t snapshot (pr_review_namespace (revision lc) h (review_round lc))
                "pr_review" (ReviewPr (tk_id t) (tk_title t) (revision lc) h (review_round lc)) lc
        | _ => mret tt
        end
    | _ => mret tt
    end.

(** ** Polling *)

Definition poll_inner (t : Ticket) : St VState unit :=
  if managed w then
    slots ← v_get KEY_WORKER_SLOTS;
    match (slots : option (gmap string WorkerSlot)) with
    | Some slots => poll_managed_ticket slots t
    | None => mret tt
    end
  else
    client ← coder_client;
    if negb client then mret tt
    else
      slots ← v_get KEY_WORKER_SLOTS;
      match (slots : option (gmap string WorkerSlot)) with
      | Some slots => _ ← poll_ticket t; spawn_lore slots t
      | None => mret tt
      end.

Definition POLL_LEASE_SECS : u64 := 900.

(** One ticket at a time, under its lease. *)
Definition poll_one (t : Ticket) : St VState unit :=
  token ← n_local (uuid w);
  _ ← v_await others;
  claimed ← v_step (λ v,
    match try_claim (v_store v) (poll_lease_key (tk_id t)) token POLL_LEASE_SECS (clock (v_clock v)) with
    | Ok (b, s) => (Ok b, set_v_store s v)
    | _ => (Ok false, v)
    end);
  if (claimed : bool) then
    _ ← poll_inner t;
    v_write (λ s, release_claim s (poll_lease_key (tk_id t)) token)
  else mret tt.

Definition poll_harness_status_and_spawn_agents (tickets : list Ticket) : St VState unit := v_for tickets poll_one.

(** ** [prep] *)

Definition warn_unless_hosted (m : St VState unit) : St VState unit :=
  r ← v_try m;
  match r with Err e => if managed w then st_lift (Err e) else mret tt | _ => mret tt end.

Definition split_repository (repository : string) : string * string :=
  match split_once "/" repository with Some (o, r) => (o, r) | None => (repository, "") end.

(** The ticket list as [prep] leaves it. *)
Definition prep_tickets (readiness : CiReadiness) : St VState (list Ticket) :=
  tickets ← v_tickets;
  let '(tickets, resolved) := auto_resolve_unrecognized_statuses tickets in
  _ ← (if 0 <? resolved then set_tickets tickets else mret tt);
  tickets ← (match readiness with
             | Ready =>
                 let kept := remove_stale_ci_setup_tickets tickets in
                 _ ← (if length kept <? length tickets then set_tickets kept else mret tt);
                 mret kept
             | _ => mret tickets
             end);
  _ ← set_tickets (prioritize_ci_first (ensure_ci_setup_ticket readiness tickets));
  v_tickets.

(** Workers that are done, or whose ticket is over, are released when there is
    work for them. *)
Definition to_recycle (tickets : list Ticket) (s : WorkerSlot) : bool :=
  match slot_status s with
  | WDone _ _ => true
  | WAssigned t _ | Working t _ => terminal_ticket tickets t
  | _ => false
  end.

Definition recycle_for_work (tickets : list Ticket) : St VState unit :=
  slots ← v_slots;
  if existsb is_assignable tickets then
    v_for (List.filter (λ e, to_recycle tickets e.2) (slot_order w slots))
      (λ e, release_worker_slot others w (slot_id e.2))
  else mret tt.

(** Tickets with a persisted directive and no chat that could take it. *)
Definition needs_rework (client : bool) (t : Ticket) : St VState bool :=
  if is_awaiting_human t then mret false
  else
    waiting ← has_key (full_ticket_key (tk_id t) KEY_TICKET_REWORK_DIRECTIVE "forge");
    if negb waiting then mret false
    else
      chat ← v_get (chat_key (tk_id t) "forge");
      match (chat : option string) with
      | None => mret true
      | Some c =>
          if client then
            r ← n_ask (λ n, c_get_chat w n c);
            match r with
            | Ok None => _ ← v_write (λ s, del s (chat_key (tk_id t) "forge")); mret true
            | _ => mret false
            end
          else mret false
      end.

Fixpoint rework_tickets (client : bool) (tickets : list Ticket) : St VState (list string) :=
  match tickets with
  | [] => mret []
  | t :: tickets =>
      wanted ← needs_rework client t;
      rest ← rework_tickets client tickets;
      mret (if (wanted : bool) then tk_id t :: rest else rest)
  end.

(** The worker for a rework: the FORGE bound to the ticket, else an idle one. *)
Definition rework_worker_for (live : list (string * WorkerSlot)) (ticket : string) : option string :=
  let bound := List.find (λ e, is_forge (slot_id e.2)
                               && bool_decide (busy_ticket (slot_status e.2) = Some ticket)) live in
  let idle := List.find (λ e, is_idle (slot_status e.2) && is_forge (slot_id e.2)) live in
  match bound with Some e => Some e.1 | None => fst <$> idle end.

Definition provisionable (live : list (string * WorkerSlot)) (tickets : list string) : list (string * string) :=
  omap (λ t, (λ k, (t, k)) <$> rework_worker_for live t) tickets.

(** The pull request a directive is about: the one it names, else the ticket's. *)
Definition rework_pr (directive : option string) (ticket : string) (prs : list PrInfo) : option PrInfo :=
  match directive ≫= directive_pr_number with
  | Some n => List.find (λ pr, (number pr =? n)%N) prs
  | None => List.find (λ pr, bool_decide (ticket_id pr = Some ticket)) prs
  end.

Fixpoint restore_prs (prs : list PrInfo) (tickets : list string) (pending : list Value) : St VState (list Value) :=
  match tickets with
  | [] => mret pending
  | t :: tickets =>
      directive ← v_get (full_ticket_key t KEY_TICKET_REWORK_DIRECTIVE "forge");
      restore_prs prs tickets
        (match rework_pr directive t prs with
         | Some pr => pending ++ [pr_entry pr (Some t)]
         | None => pending
         end)
  end.

Definition restore_rework_prs (work : list (string * string)) (pending : list Value) : St VState (list Value) :=
  let missing := List.filter (λ t, negb (existsb (tracks t) pending)) (fst <$> work) in
  if is_nil missing then mret pending
  else
    token ← n_ask (gh_token w);
    if negb (is_ok token) then mret pending
    else
      prs ← n_ask (gh_open_prs w);
      match prs with
      | Ok prs =>
          pending ← restore_prs prs missing pending;
          _ ← v_write (λ s, set s KEY_PENDING_PRS (VArray pending));
          mret pending
      | _ => mret pending
      end.

Fixpoint delivery_pending (tickets : list Ticket) : St VState bool :=
  match tickets with
  | [] => mret false
  | t :: tickets =>
      if Tickets.is_terminal (tk_status t) then delivery_pending tickets
      else
        lc ← v_lifecycle others (tk_id t);
        if is_some (deliverable_review lc) then mret true else delivery_pending tickets
  end.

Definition ci_must_go_first (readiness : CiReadiness) (tickets : list Ticket) : bool :=
  match readiness with Missing => true | SetupInProgress => ci_setup_ticket_active tickets | Ready => false end.

Definition assignable_tickets (readiness : CiReadiness) (tickets : list Ticket) : list Ticket :=
  if ci_must_go_first readiness tickets
  then List.filter (λ t, is_ci_setup_ticket t && is_assignable t) tickets
  else List.filter is_assignable tickets.

(** The first half: everything is brought up to date. *)
Definition prep_sync : St VState (list Ticket * CiReadiness) :=
  _ ← sync_registry others w;
  repository ← (match env_repository w with
                | Some r => mret r
                | None => r ← v_get "repository"; mret (from_option id "" r)
                end);
  _ ← (if is_empty repository then mret tt else v_write (λ s, set s "repository" (VString repository)));
  let '(owner, repo) := split_repository repository in
  _ ← warn_unless_hosted (sync_issues others w owner repo);
  _ ← warn_unless_hosted (sync_open_prs others w owner repo);
  readiness ← check_ci_readiness others w owner repo;
  _ ← set_readiness others readiness;
  tickets ← prep_tickets readiness;
  mret (tickets, readiness).

(** Crashes are repaired, busy workers looked after and reviews scheduled.  The
    inspection reports crashed workspaces only: no chat is ever put on the list of
    crashed ones.  The answer is the map of slots read after the repair
    ([worker_slots_map]): the rest of [prep] goes on using it, so it does not see
    what attending to the slots and scheduling reviews changed. *)
Definition prep_recover (tickets : list Ticket) : St VState (gmap string WorkerSlot) :=
  slots ← v_slots;
  crashes ← v_try (inspect_coder_recovery others w slots);
  _ ← (match crashes with
       | Ok (c :: l) => _ ← v_try (repair_coder_recovery others w [] (c :: l)); mret tt
       | _ => mret tt
       end);
  slots ← v_slots;
  _ ← v_for (slot_order w slots) (λ e, attend_slot others w e.1 e.2);
  _ ← poll_harness_status_and_spawn_agents tickets;
  mret slots.

Definition prep : St VState Context :=
  r ← prep_sync;
  let '(tickets, readiness) := r in
  _ ← recycle_for_work tickets;
  pending ← v_read others (λ s, Ok (Store.get s KEY_PENDING_PRS));
  let pending := from_option id [] (pending ≫= as_array) in
  slots ← prep_recover tickets;
  client ← coder_client;
  rework ← rework_tickets client tickets;
  let work := provisionable (slot_order w slots) rework in
  pending ← restore_rework_prs work pending;
  ready ← publish_merge_ready others pending;
  delivery ← delivery_pending tickets;
  raw ← v_read others (λ s, Ok (from_option id (VObject []) (Store.get s KEY_WORKER_SLOTS)));
  mret (mkContext (assignable_tickets readiness tickets) raw ready delivery work).
End review.
