(* ===== verification/NexusFacts.v ===== *)
(** * Invariants of NEXUS's store

    The store NEXUS works on is described by four things: slots are filed under
    their own names, escalated tickets stay with the human they were given to, the
    heads sent for rework are on record, and lifecycle records satisfy a predicate.
    [nexus_ok] states them; [gives] follows a computation that keeps them. *)
From S2P Require Import Prelude Text Json Lifecycle LifecycleCodec Store Tickets Review Hoare Vessel VesselQueue VesselFacts VesselPost VesselActProps.
From S2P Require Import Github Coder Flow Registry Identity Nexus NexusStore NexusSync NexusAct.

(** ** Keys *)

(** Keys that are no lifecycle record of a ticket with a well-formed identifier. *)
Definition off_record (k : string) : Prop := ∀ t, no_char ":" t = true → k ≠ status_key t.

Lemma split_once_suffix c a r : ∃ x p, split_once c (a +:+ String c r) = Some (x, p +:+ r).
Proof.
  induction a as [|d a (x & p & IH)]; rewrite ?string_app_nil_l, ?string_app_cons; simpl.
  - rewrite char_eqb_refl. by exists "", "".
  - destruct (char_eqb d c).
    + exists "", (a +:+ String c ""). by rewrite string_app_assoc.
    + rewrite IH. by eexists _, _.
Qed.

Lemma off_record_deep a b c : off_record ("ticket:" +:+ a +:+ ":" +:+ b +:+ ":" +:+ c).
Proof.
  intros t Ht E. unfold status_key in E. apply string_app_inv_l in E.
  apply (f_equal (split_once ":")) in E.
  destruct (split_once_suffix ":" a (b +:+ String ":" c)) as (x & p & Hx).
  change (split_once ":" (a +:+ String ":" (b +:+ String ":" c)) = split_once ":" (t +:+ String ":" "status")) in E.
  rewrite Hx, split_once_app in E by done. injection E as _ E.
  assert (no_char ":" (p +:+ b +:+ String ":" c) = true) as Hno by (rewrite E; reflexivity).
  unfold no_char in Hno. rewrite !all_chars_app in Hno. cbn in Hno.
  rewrite !andb_true_iff in Hno. naive_solver.
Qed.

Lemma off_record_flat a sub : plain sub → off_record ("ticket:" +:+ a +:+ ":" +:+ sub).
Proof.
  intros H t _.
  replace ("ticket:" +:+ a +:+ ":" +:+ sub) with (("ticket:" +:+ a) +:+ String ":" sub) by (by rewrite !string_app_assoc).
  by apply not_status_plain.
Qed.

(** Keys of neither tickets, slots, records nor rework dispatches. *)
Record side (k : string) : Prop := mkSide {
  side_tickets : k ≠ KEY_TICKETS;
  side_slots : k ≠ KEY_WORKER_SLOTS;
  side_record : off_record k;
  side_dispatch : ∀ n, k ≠ address_review_dispatched_key n;
}.

Lemma side_deep a b c : side ("ticket:" +:+ a +:+ ":" +:+ b +:+ ":" +:+ c).
Proof. split; [done|done|apply off_record_deep|done]. Qed.

Lemma side_flat a sub : plain sub → side ("ticket:" +:+ a +:+ ":" +:+ sub).
Proof. intros H. split; [done|done|by apply off_record_flat|done]. Qed.

(** A key whose middle, a literal, has two separators. *)
Lemma split_once_eq c s p q : split_once c s = Some (p, q) → s = p +:+ String c q.
Proof.
  revert p. induction s as [|d s IH]; intros p; simpl; [done|].
  destruct (char_eqb d c) eqn:Ed.
  - apply char_eqb_eq in Ed as ->. by intros [= <- <-].
  - destruct (split_once c s) as [[x y]|]; [|done]. intros [= <- <-]. by rewrite string_app_cons, <- IH.
Qed.

Lemma side_lit a lit r p q b d :
  split_once ":" lit = Some (p, q) → split_once ":" q = Some (b, d) → side ("ticket:" +:+ a +:+ lit +:+ r).
Proof.
  intros ->%split_once_eq ->%split_once_eq.
  replace ("ticket:" +:+ a +:+ (p +:+ String ":" (b +:+ String ":" d)) +:+ r)
    with ("ticket:" +:+ (a +:+ p) +:+ ":" +:+ b +:+ ":" +:+ d +:+ r); [apply side_deep|].
  change (String ":" (b +:+ String ":" d)) with (":" +:+ b +:+ ":" +:+ d). by rewrite !string_app_assoc.
Qed.

Lemma side_attempts n : side (address_review_attempts_key n).
Proof. split; [done|done|by intros t _|done]. Qed.

Lemma side_dispatched_at n : side (address_review_dispatched_at_key n).
Proof. split; [done|done|by intros t _|]. intros m E. symmetry in E. by apply rework_keys_distinct in E. Qed.

Create HintDb side.
#[export] Hint Resolve side_deep side_attempts side_dispatched_at : side.
#[export] Hint Extern 1 (side _) =>
  solve [apply side_flat; done | eapply side_lit; reflexivity | split; [done|done|by intros ? ?|done]] : side.

(** ** Escalated tickets *)

(** The list has the ticket, and every entry with its identifier awaits a human. *)
Definition waiting (l : list Ticket) (t : string) : Prop :=
  (∃ x, x ∈ l ∧ tk_id x = t) ∧ ∀ x, x ∈ l → tk_id x = t → is_awaiting_human x = true.

Lemma waiting_map f l t :
  (∀ x, tk_id (f x) = tk_id x) → (∀ x, tk_id x = t → is_awaiting_human x = true → is_awaiting_human (f x) = true) →
  waiting l t → waiting (f <$> l) t.
Proof.
  intros Hid Hf [(x & Hx & E) H]. split.
  - exists (f x). rewrite Hid. split; [by apply list_elem_of_fmap_2|done].
  - intros y Hy Ey. apply list_elem_of_fmap in Hy as (z & -> & Hz). rewrite Hid in Ey. auto.
Qed.

Lemma waiting_app l l' t : (∀ x, x ∈ l' → tk_id x ≠ t) → waiting l t → waiting (l ++ l') t.
Proof.
  intros Hl' [(x & Hx & E) H]. split.
  - exists x. rewrite elem_of_app. auto.
  - intros y Hy Ey. apply elem_of_app in Hy as [Hy|Hy]; [by apply H|by apply Hl' in Hy].
Qed.

Lemma waiting_perm l l' t : l ≡ₚ l' → waiting l t → waiting l' t.
Proof.
  intros Hp [(x & Hx & E) H]. split.
  - exists x. by rewrite <- Hp.
  - intros y Hy. rewrite <- Hp in Hy. auto.
Qed.

Lemma waiting_filter f l t : (∀ x, tk_id x = t → f x = true) → waiting l t → waiting (List.filter f l) t.
Proof.
  intros Hf [(x & Hx & E) H]. split.
  - exists x. rewrite list_elem_of_In, List.filter_In, <- list_elem_of_In. auto.
  - intros y Hy. rewrite list_elem_of_In, List.filter_In, <- list_elem_of_In in Hy. naive_solver.
Qed.

Lemma waiting_insert l i x y t :
  l !! i = Some x → tk_id y = tk_id x → (tk_id x = t → is_awaiting_human x = true → is_awaiting_human y = true) →
  waiting l t → waiting (<[i := y]> l) t.
Proof.
  intros Hi Hid Hy [(z & Hz & E) H]. split.
  - apply list_elem_of_lookup in Hz as [j Hj]. destruct (decide (j = i)) as [->|Hne].
    + exists y. split; [|congruence]. apply list_elem_of_lookup. exists i.
      apply list_lookup_insert_eq. by eapply lookup_lt_Some.
    + exists z. split; [|done]. apply list_elem_of_lookup. exists j. by rewrite list_lookup_insert_ne by done.
  - intros u Hu Eu. apply list_elem_of_lookup in Hu as [j Hj]. destruct (decide (j = i)) as [->|Hne].
    + rewrite list_lookup_insert_eq in Hj by (by eapply lookup_lt_Some). injection Hj as <-.
      assert (tk_id x = t) as Ex by congruence. apply Hy; [done|]. apply H; [|done]. by eapply list_elem_of_lookup_2.
    + rewrite list_lookup_insert_ne in Hj by done. apply H; [|done]. by eapply list_elem_of_lookup_2.
Qed.

Lemma find_ticket_Some t l x : find_ticket t l = Some x → x ∈ l ∧ tk_id x = t.
Proof.
  unfold find_ticket. intros H. apply List.find_some in H as [H1 H2].
  split; [by apply list_elem_of_In|]. unfold has_id in H2. by apply bool_decide_eq_true in H2.
Qed.

Lemma waiting_find l t : waiting l t → ∃ x, find_ticket t l = Some x ∧ is_awaiting_human x = true.
Proof.
  intros [(x & Hx & E) H]. destruct (find_ticket t l) as [y|] eqn:Hf.
  - apply find_ticket_Some in Hf as [??]. eauto.
  - exfalso. apply list_elem_of_In in Hx. eapply List.find_none in Hf; [|exact Hx].
    unfold has_id in Hf. by rewrite bool_decide_eq_true_2 in Hf.
Qed.

Lemma waiting_not l t x : waiting l t → x ∈ l → is_awaiting_human x = false → tk_id x ≠ t.
Proof. intros [_ H] Hx Hn E. rewrite (H x Hx E) in Hn. done. Qed.

(** ** Slots *)

(** Every slot is filed under its own name. *)
Definition slots_named (m : gmap string WorkerSlot) : Prop := ∀ k s, m !! k = Some s → slot_id s = k.

Lemma slots_named_alter f k m :
  (∀ s, slot_id (f s) = slot_id s) → slots_named m → slots_named (alter f k m).
Proof.
  intros Hf Hm j s. rewrite lookup_alter_Some. intros [(-> & x & Hx & ->)|[_ H]]; [rewrite Hf|]; auto.
Qed.

Lemma slots_named_fmap f m : (∀ s, slot_id (f s) = slot_id s) → slots_named m → slots_named (f <$> m).
Proof. intros Hf Hm j s. rewrite lookup_fmap_Some. intros (x & <- & Hx). rewrite Hf. auto. Qed.

Lemma slots_named_insert m k s s' :
  m !! k = Some s → slot_id s' = slot_id s → slots_named m → slots_named (<[k := s']> m).
Proof.
  intros Hk Hid Hm j x. rewrite lookup_insert_Some. intros [[<- <-]|[_ H]]; [|auto]. rewrite Hid. auto.
Qed.

Lemma slots_named_fleet names m : slots_named m → slots_named (fleet names m).
Proof.
  intros Hm k s. unfold fleet. rewrite lookup_union_Some_raw. intros [H|[_ H]].
  - apply map_lookup_filter_Some in H as [H _]. auto.
  - apply elem_of_list_to_map_2, list_elem_of_fmap in H as (n & [= -> ->] & _). done.
Qed.

#[export] Hint Resolve slots_named_alter slots_named_fmap slots_named_fleet : triple.

(** ** The invariant *)

Definition tickets_in (s : SharedStore) : list Ticket := from_option id [] (get_typed s KEY_TICKETS).

Lemma tickets_in_set s l : tickets_in (set s KEY_TICKETS (to_value l)) = l.
Proof. unfold tickets_in, get_typed. rewrite get_set_eq. cbn [mbind option_bind]. by rewrite from_to_value. Qed.

Lemma slots_in_ne s k x : k ≠ KEY_WORKER_SLOTS → slots_in (set s k x) = slots_in s.
Proof. intros Hk. unfold slots_in. by rewrite (get_typed_ext _ s) by (by rewrite get_set_ne). Qed.

Lemma tickets_in_ne s k x : k ≠ KEY_TICKETS → tickets_in (set s k x) = tickets_in s.
Proof. intros Hk. unfold tickets_in. by rewrite (get_typed_ext _ s) by (by rewrite get_set_ne). Qed.

(** [E] are the escalated tickets, [D] the heads of their pull requests, and [Rec]
    the predicate on lifecycle records. *)
Record nexus_ok (E : string → Prop) (D : u64 → option string) (Rec : string → option Value → Prop)
  (s : SharedStore) : Prop := mkOk {
  ok_slots : slots_named (slots_in s);
  ok_waiting : ∀ t, E t → waiting (tickets_in s) t;
  ok_heads : ∀ n h, D n = Some h →
    get_typed (A:=string) s (address_review_dispatched_key n) ∈ [None; Some h];
  ok_records : ∀ t, no_char ":" t = true → Rec t (Store.get s (status_key t));
}.

(** Two stores that agree on the keys of the invariant. *)
Lemma ok_ext E D Rec s s' :
  Store.get s' KEY_WORKER_SLOTS = Store.get s KEY_WORKER_SLOTS →
  Store.get s' KEY_TICKETS = Store.get s KEY_TICKETS →
  (∀ n, Store.get s' (address_review_dispatched_key n) = Store.get s (address_review_dispatched_key n) ∨
        Store.get s' (address_review_dispatched_key n) = None) →
  (∀ t, no_char ":" t = true → Store.get s' (status_key t) = Store.get s (status_key t)) →
  nexus_ok E D Rec s → nexus_ok E D Rec s'.
Proof.
  intros H1 H2 H3 H4 [O1 O2 O3 O4]. split.
  - unfold slots_in. by rewrite (get_typed_ext _ _ _ H1).
  - unfold tickets_in. by rewrite (get_typed_ext _ _ _ H2).
  - intros n h Hn. destruct (H3 n) as [Hg|Hg].
    + rewrite (get_typed_ext _ _ _ Hg). auto.
    + unfold get_typed. rewrite Hg. apply elem_of_cons. by left.
  - intros t Ht. rewrite H4 by done. auto.
Qed.

Lemma ok_set E D Rec s k x : side k → nexus_ok E D Rec s → nexus_ok E D Rec (set s k x).
Proof.
  intros [H1 H2 H3 H4]. apply ok_ext; intros; rewrite ?get_set_ne; auto.
Qed.

Lemma ok_del E D Rec s k : side k → nexus_ok E D Rec s → nexus_ok E D Rec (del s k).
Proof. intros [H1 H2 H3 H4]. apply ok_ext; intros; rewrite ?get_del_ne; auto. Qed.

Lemma ok_del_dispatched E D Rec s n : nexus_ok E D Rec s → nexus_ok E D Rec (del s (address_review_dispatched_key n)).
Proof.
  apply ok_ext; [by rewrite get_del_ne|by rewrite get_del_ne| |intros t _; by rewrite get_del_ne].
  intros m. destruct (decide (address_review_dispatched_key n = address_review_dispatched_key m)) as [->|Hne];
    [rewrite get_del_eq|rewrite get_del_ne]; auto.
Qed.

Lemma ok_set_slots E D Rec s m : slots_named m → nexus_ok E D Rec s → nexus_ok E D Rec (set s KEY_WORKER_SLOTS (to_value m)).
Proof.
  intros Hm [O1 O2 O3 O4]. split.
  - by rewrite slots_in_set.
  - by rewrite tickets_in_ne.
  - intros n h Hn. rewrite (get_typed_ext _ s) by (by rewrite get_set_ne). auto.
  - intros t Ht. rewrite get_set_ne by done. auto.
Qed.

Lemma ok_set_tickets E D Rec s l :
  (∀ t, E t → waiting l t) → nexus_ok E D Rec s → nexus_ok E D Rec (set s KEY_TICKETS (to_value l)).
Proof.
  intros Hl [O1 O2 O3 O4]. split.
  - by rewrite slots_in_ne.
  - by rewrite tickets_in_set.
  - intros n h Hn. rewrite (get_typed_ext _ s) by (by rewrite get_set_ne). auto.
  - intros t Ht. rewrite get_set_ne by done. auto.
Qed.

Lemma ok_record E D Rec s t x : Rec t (Some x) →
  nexus_ok E D Rec s → nexus_ok E D Rec (set s (status_key t) x).
Proof.
  intros Ht [O1 O2 O3 O4]. split.
  - by rewrite slots_in_ne.
  - by rewrite tickets_in_ne.
  - intros n h Hd. rewrite (get_typed_ext _ s) by (by rewrite get_set_ne). auto.
  - intros u Hu. destruct (decide (status_key t = status_key u)) as [Ek|Hne].
    + assert (t = u) as <-.
      { unfold status_key in Ek. apply string_app_inv_l in Ek. by apply string_app_inv_r in Ek. }
      by rewrite get_set_eq.
    + rewrite get_set_ne by done. auto.
Qed.

Lemma ok_erase E D Rec s t : ¬ E t → Rec t (Some (VString "awaiting_human")) →
  nexus_ok E D Rec s → nexus_ok E D Rec (set s (status_key t) (VString "awaiting_human")).
Proof. intros _. apply ok_record. Qed.

Lemma ok_claim E D Rec s k token ttl now b s' :
  side k → try_claim s k token ttl now = Ok (b, s') → nexus_ok E D Rec s → nexus_ok E D Rec s'.
Proof.
  unfold try_claim. intros Hk. cbn. repeat case_match; intros [= <- <-]; auto; try done.
  by apply (ok_set _ _ _ s k).
Qed.

Lemma ok_release E D Rec s k token : side k → nexus_ok E D Rec s → nexus_ok E D Rec (release_claim s k token).
Proof. intros Hk. unfold release_claim. cbn. case_match; [by apply (ok_del _ _ _ s k)|done]. Qed.
