(* ===== verification/NexusKeeps.v ===== *)
(** * NEXUS keeps its invariants

    Each operation of the controller keeps [nexus_ok], provided the other
    processes do; the rules follow the structure of the computations. *)
From S2P Require Import Prelude Text Json Lifecycle LifecycleCodec Store Tickets Review Hoare Vessel VesselQueue VesselFacts VesselPost VesselActProps.
From S2P Require Import Github Coder Flow Registry Identity Nexus NexusStore NexusSync NexusAct NexusReview NexusFacts.

Create HintDb gives.

Section keeps.
Context (others : nat → SharedStore → SharedStore) (clock : nat → u64) (w : World) (wording : Message → string).
Context (E : string → Prop) (D : u64 → option string) (Rec : string → option Value → Prop).
Context (Hothers : ∀ n s, nexus_ok E D Rec s → nexus_ok E D Rec (others n s)).
Context (Herase : ∀ t, ¬ E t → Rec t (Some (VString "awaiting_human"))).
Context (Horder : ∀ m e, e ∈ slot_order w m → m !! e.1 = Some e.2).

(** ** Rules *)

Definition J (v : VState) : Prop := nexus_ok E D Rec (v_store v).
Definition gives {A} (P : A → Prop) (m : St VState A) : Prop := triple J m (λ a v, J v ∧ P a) J.
Definition any {A} (a : A) : Prop := True.
Definition good (l : list Ticket) : Prop := ∀ t, E t → waiting l t.

Lemma gives_ret {A} (P : A → Prop) a : P a → gives P (mret a).
Proof. intros H. by apply triple_ret. Qed.

Lemma gives_bind {A B} (P : A → Prop) (Q : B → Prop) m f :
  gives P m → (∀ a, P a → gives Q (f a)) → gives Q (m ≫= f).
Proof.
  intros Hm Hf. eapply triple_bind; [exact Hm|]. intros a v [Hv Ha]. by apply (Hf a Ha).
Qed.

Lemma gives_weaken {A} (P Q : A → Prop) m : gives P m → (∀ a, P a → Q a) → gives Q m.
Proof. intros H HPQ. eapply triple_conseq; [exact H|done|]. intros a v [??]. auto. Qed.

Lemma gives_any {A} (P : A → Prop) m : gives P m → gives any m.
Proof. intros H. by eapply gives_weaken. Qed.

Lemma gives_lift {A} (r : result A) : gives (λ a, r = Ok a) (st_lift r).
Proof. by apply triple_lift. Qed.

Lemma gives_await : gives any (v_await others).
Proof. intros v Hv. split; [|done]. apply Hothers, Hv. Qed.

Lemma gives_step {A} (f : VState → result A) : gives any (v_step (λ v, (f v, v))).
Proof. intros v Hv. unfold v_step. by destruct (f v). Qed.

Lemma gives_read {A} (f : SharedStore → result A) : gives any (v_read others f).
Proof. eapply gives_bind; [apply gives_await|]. intros _ _ v Hv. unfold v_step. by destruct (f (v_store v)). Qed.

Lemma gives_get {A} `{Serde A} k : gives any (v_get others (A:=A) k).
Proof. apply gives_read. Qed.

Lemma gives_modify (f : SharedStore → SharedStore) :
  (∀ s, nexus_ok E D Rec s → nexus_ok E D Rec (f s)) → gives any (v_write others f).
Proof.
  intros Hf. eapply gives_bind; [apply gives_await|]. intros _ _. apply triple_modify.
  intros v Hv. split; [|done]. apply Hf, Hv.
Qed.

Lemma gives_set k x : side k → gives any (v_write others (λ s, set s k x)).
Proof. intros Hk. apply gives_modify. intros s. by apply ok_set. Qed.

Lemma gives_del k : side k → gives any (v_write others (λ s, del s k)).
Proof. intros Hk. apply gives_modify. intros s. by apply ok_del. Qed.

Lemma gives_slots : gives slots_named (v_slots others).
Proof.
  unfold v_slots. eapply (triple_bind _ _ _ (λ o v, J v ∧ slots_named (from_option id ∅ o))).
  - eapply triple_bind; [apply gives_await|]. intros _ v [Hv _]. split; [done|]. apply Hv.
  - intros o v [Hv Ho]. by split.
Qed.

Lemma gives_get_slots : gives (λ o, slots_named (from_option id ∅ o)) (v_get others KEY_WORKER_SLOTS).
Proof. eapply triple_bind; [apply gives_await|]. intros _ v [Hv _]. split; [done|]. apply Hv. Qed.

Lemma gives_tickets : gives good (v_tickets others).
Proof.
  unfold v_tickets. eapply (triple_bind _ _ _ (λ o v, J v ∧ good (from_option id [] o))).
  - eapply triple_bind; [apply gives_await|]. intros _ v [Hv _]. split; [done|]. exact (ok_waiting _ _ _ _ Hv).
  - intros o v [Hv Ho]. by split.
Qed.

Lemma gives_head n :
  gives (λ o, ∀ h, D n = Some h → o ∈ [None; Some h]) (v_get others (A:=string) (address_review_dispatched_key n)).
Proof.
  eapply triple_bind; [apply gives_await|]. intros _ v [Hv _]. split; [done|]. intros h Hh. by apply (ok_heads _ _ _ _ Hv).
Qed.

Lemma gives_set_slots m : slots_named m → gives any (set_slots others m).
Proof. intros Hm. apply gives_modify. intros s. by apply ok_set_slots. Qed.

Lemma gives_set_tickets l : good l → gives any (set_tickets others l).
Proof. intros Hl. apply gives_modify. intros s. by apply ok_set_tickets. Qed.

Lemma gives_effect e : gives any (v_effect e).
Proof. apply triple_modify. by intros v Hv. Qed.

Lemma gives_ensure b msg : gives any (v_ensure b msg).
Proof. eapply gives_any, gives_lift. Qed.

Lemma gives_ask {A} (f : nat → A) : gives (λ a, ∃ n, a = f n) (n_ask others f).
Proof.
  eapply gives_bind; [apply gives_await|]. intros _ _ v Hv. split; [done|]. by eexists.
Qed.

Lemma gives_call {A} (f : nat → result A) : gives (λ a, ∃ n, f n = Ok a) (n_call others f).
Proof.
  eapply gives_bind; [apply gives_ask|]. intros r [n ->]. eapply gives_weaken; [apply gives_lift|]. intros a Ha. by exists n.
Qed.

Lemma gives_local {A} (f : nat → A) : gives any (n_local f).
Proof. apply (gives_step (λ v, Ok (f (v_clock v)))). Qed.

Lemma gives_try {A} (P : A → Prop) m : gives P m → gives (λ r, ∀ a, r = Ok a → P a) (v_try m).
Proof.
  intros Hm v Hv. specialize (Hm v Hv). unfold v_try. destruct (m v) as [[a|e|] v'].
  - destruct Hm as [??]. split; [done|]. by intros ? [= <-].
  - by split.
  - done.
Qed.

Lemma gives_for {A} (l : list A) f : (∀ a, a ∈ l → gives any (f a)) → gives any (v_for l f).
Proof.
  induction l as [|a l IH]; intros H; cbn [v_for]; [by apply gives_ret|].
  eapply gives_bind; [apply H, elem_of_cons; by left|]. intros _ _. apply IH. intros b Hb. apply H, elem_of_cons. by right.
Qed.

Lemma gives_attempts k : gives any (get_attempts others k).
Proof. eapply gives_bind; [apply gives_get|]. intros; by apply gives_ret. Qed.

#[local] Hint Resolve gives_lift gives_await gives_read gives_slots gives_get_slots gives_tickets gives_head gives_get
  gives_set gives_del gives_set_slots gives_set_tickets gives_effect gives_ensure gives_ask gives_call gives_local
  gives_attempts gives_try : gives.
#[local] Hint Extern 3 (any _) => exact I : gives.
#[local] Hint Extern 2 (side _) => solve [eauto with side] : gives.
#[local] Hint Extern 2 (slots_named _) => solve [eauto with triple] : gives.
#[local] Hint Extern 1 (∀ s, slot_id _ = slot_id s) =>
  intros s; cbv beta; unfold released, settle_suspended; repeat case_match; reflexivity : triple.

(** One step along a computation: a leaf is closed by the hints, the first part
    of a sequence gives what its lemma says. *)
Ltac gives_leaf := solve [eauto 4 with gives | eapply gives_any; eauto 4 with gives].
Ltac gives_step_tac :=
  match goal with
  | |- gives _ (mret _) => apply gives_ret; try exact I
  | |- gives _ (_ ≫= _) =>
      first [eapply gives_bind; [gives_leaf|intros ? ?; cbv beta in *] | apply (gives_bind any); [|intros ? _]]
  | |- gives _ (v_for _ _) => apply gives_for; [..|intros ? ?]
  | |- gives _ (let _ := _ in _) => cbv zeta
  | |- gives _ (match ?x with _ => _ end) => destruct x eqn:?
  | |- gives _ _ => gives_leaf
  end.
Ltac gives_auto := repeat gives_step_tac.

(** ** Workspaces and escalation *)

Lemma gives_client : gives any (coder_client others w).
Proof. unfold coder_client. gives_auto. Qed.
#[local] Hint Resolve gives_client : gives.

Lemma gives_destroy_coder ws : gives any (destroy_coder_workspace others w ws).
Proof.
  unfold destroy_coder_workspace. gives_auto.
Qed.
#[local] Hint Resolve gives_destroy_coder : gives.

Lemma request_key_side ws (slots : option (gmap string WorkerSlot)) k : slots ≫= request_key_of w ws = Some k → side k.
Proof.
  destruct slots as [m|]; [|done]. cbn. unfold request_key_of. induction (slot_order w m) as [|e l IH]; cbn; [done|].
  case_bool_decide; [|done]. destruct (worker_ticket _); cbn; [|done]. intros [= <-].
  unfold managed_worker_request_key. eauto with side.
Qed.

Lemma gives_destroy ws : gives any (destroy_worker_workspace others w ws).
Proof. unfold destroy_worker_workspace. gives_auto. eapply gives_del, request_key_side. eassumption. Qed.
#[local] Hint Resolve gives_destroy : gives.

Lemma gives_reset t : gives any (reset_recovery_attempts others t).
Proof. unfold reset_recovery_attempts, recovery_key, full_ticket_key_flat. gives_auto. Qed.
#[local] Hint Resolve gives_reset : gives.

Lemma gives_increment t : gives any (increment_recovery_attempts others t).
Proof. unfold increment_recovery_attempts, recovery_key, full_ticket_key_flat. gives_auto. Qed.
#[local] Hint Resolve gives_increment : gives.

Lemma gives_release worker : gives any (release_worker_slot others w worker).
Proof. unfold release_worker_slot. gives_auto. Qed.
#[local] Hint Resolve gives_release : gives.

Lemma gives_link x : gives any (workspace_link_for_worker others x).
Proof. unfold workspace_link_for_worker. gives_auto. Qed.
#[local] Hint Resolve gives_link : gives.

Lemma gives_notify t worker why l : gives any (notify_awaiting_human others t worker why l).
Proof. unfold notify_awaiting_human. gives_auto. Qed.
#[local] Hint Resolve gives_notify : gives.

Lemma update_first_waiting t u f l l' :
  (∀ x y, f x = Ok y → tk_id y = tk_id x) → u ≠ t →
  update_first (has_id u) f l = Ok l' → waiting l t → waiting l' t.
Proof.
  intros Hf Hut. assert (update_first (has_id u) f l = Ok l' →
    (∀ x, x ∈ l' → tk_id x = t → x ∈ l) ∧ (∀ x, x ∈ l → tk_id x = t → x ∈ l')) as H.
  { revert l'. induction l as [|x l IH]; intros l'; cbn [update_first]; [by intros [= <-]|].
    destruct (has_id u x) eqn:Hx.
    - unfold has_id in Hx. apply bool_decide_eq_true in Hx. cbn. destruct (f x) as [y|e|] eqn:Hy; cbn; [|done..].
      intros [= <-]. apply Hf in Hy. split; intros z Hz Ez; apply elem_of_cons in Hz as [->|Hz];
        rewrite ?elem_of_cons; auto; congruence.
    - cbn. destruct (update_first _ f l) as [l2|e|]; cbn; [|done..]. intros [= <-].
      destruct (IH l2 eq_refl) as [IH1 IH2].
      split; intros z Hz Ez; apply elem_of_cons in Hz as [->|Hz]; rewrite ?elem_of_cons; auto. }
  intros Hu [(x & Hx & Ex) Hall]. destruct (H Hu) as [H1 H2]. split; [by exists x; auto|]. auto.
Qed.

Lemma gives_mark t worker why : gives any (mark_ticket_awaiting_human others w t worker why).
Proof.
  unfold mark_ticket_awaiting_human. eapply gives_bind; [apply gives_tickets|]. intros l Hl. cbv zeta.
  destruct (is_some_and _ (find_ticket t l)) eqn:Haw; [gives_auto|].
  assert (¬ E t) as HnE.
  { intros Ht. destruct (waiting_find _ _ (Hl t Ht)) as (x & Hx & Hw). rewrite Hx in Haw. cbn in Haw.
    unfold is_awaiting_human in Hw. congruence. }
  eapply gives_bind; [apply gives_lift|]. intros l' Hl'. cbv beta in Hl'.
  assert (good l') as Hg.
  { intros u Hu. eapply update_first_waiting; [| |exact Hl'|by apply Hl].
    - intros x y. cbn. by destruct (u32_succ (tk_attempts x)); intros [= <-].
    - by intros <-. }
  eapply gives_bind; [by apply gives_set_tickets|]. intros _ _.
  eapply gives_bind; [|intros _ _; gives_auto].
  apply gives_modify. intros s. by apply ok_erase; auto.
Qed.
#[local] Hint Resolve gives_mark : gives.

(** ** Orphans *)

Lemma slot_order_named m : slots_named m → ∀ e, e ∈ slot_order w m → slot_id e.2 = e.1.
Proof. intros Hm e He. by apply Hm, Horder. Qed.

Lemma gives_recycle_stale t slot :
  gives (λ r, ∀ s, r = Some s → slot_id s = slot_id slot) (recycle_stale others w t slot).
Proof.
  unfold recycle_stale, full_ticket_key. gives_auto; cbv beta; intros ? ?; by simplify_eq.
Qed.
#[local] Hint Resolve gives_recycle_stale : gives.

Lemma gives_recover_slot tickets slot :
  gives (λ r, ∀ s, r = Some s → slot_id s = slot_id slot) (recover_slot others w tickets slot).
Proof. unfold recover_slot, ticket_done. gives_auto; by cbv beta. Qed.
#[local] Hint Resolve gives_recover_slot : gives.

Lemma gives_recover_slots tickets l : ∀ acc changed,
  (∀ e, e ∈ l → slot_id e.2 = e.1) → slots_named acc →
  gives (λ r, slots_named r.1) (recover_slots others w tickets l acc changed).
Proof.
  induction l as [|[k slot] l IH]; intros acc changed Hl Hacc; cbn [recover_slots]; [by apply gives_ret|].
  eapply gives_bind; [apply gives_recover_slot|]. intros r Hr. cbv beta in Hr.
  assert (∀ e, e ∈ l → slot_id e.2 = e.1) as Hl' by (intros e He; apply Hl, elem_of_cons; by right).
  destruct r as [s|]; apply IH; auto. intros j x. rewrite lookup_insert_Some. intros [[<- <-]|[_ H]]; [|auto].
  rewrite (Hr s eq_refl). apply (Hl (k, slot)), elem_of_cons. by left.
Qed.

Lemma good_reopen slots l : good l → good (reopen_orphan slots <$> l).
Proof.
  intros Hl t Ht. apply waiting_map; [| |by apply Hl].
  - intros x. unfold reopen_orphan. by destruct (tk_status x); try case_match.
  - intros x _. unfold reopen_orphan, is_awaiting_human. destruct (tk_status x) eqn:Ex; rewrite ?Ex; done.
Qed.

Lemma gives_lingering t : gives any (lingering_workspaces others w t).
Proof. unfold lingering_workspaces, ticket_done, remove_lingering, full_ticket_key. gives_auto. Qed.
#[local] Hint Resolve gives_lingering : gives.

Lemma gives_recover_orphans : gives any (recover_orphans others w).
Proof.
  unfold recover_orphans. eapply gives_bind; [apply gives_tickets|]. intros l Hl.
  eapply gives_bind; [apply gives_slots|]. intros m Hm. cbv zeta.
  eapply gives_bind; [apply gives_recover_slots; [by apply slot_order_named|done]|].
  intros [m' changed] Hm'. pose proof (good_reopen m l Hl). gives_auto.
Qed.
#[local] Hint Resolve gives_recover_orphans : gives.

(** ** Synchronisation *)

Lemma gives_hosted {A} (P : A → Prop) (r : result A) k :
  (∀ a, r = Ok a → P a) → (∀ a, P a → gives any (k a)) → gives any (hosted_or w r (mret tt) k).
Proof. intros Hr Hk. unfold hosted_or. destruct r; [by apply Hk, Hr|gives_auto..]. Qed.

Lemma good_track l i : good l → good (track_issue l i).
Proof.
  intros Hl t Ht. unfold track_issue. cbv zeta.
  destruct (i_is_pr i || _) eqn:Hb; [by apply Hl|]. apply waiting_app; [|by apply Hl].
  intros x Hx. apply list_elem_of_singleton in Hx as ->. cbn [tk_id]. intros Et.
  apply orb_false_iff in Hb as [_ Hb]. rewrite Et in Hb.
  destruct (waiting_find _ _ (Hl t Ht)) as (x & Hx & _). by rewrite Hx in Hb.
Qed.

Lemma good_tracks issues l : good l → good (fold_left track_issue issues l).
Proof. revert l. induction issues as [|i issues IH]; intros l Hl; cbn; [done|]. by apply IH, good_track. Qed.

Lemma gives_sync_issues owner repo : gives any (sync_issues others w owner repo).
Proof.
  unfold sync_issues. destruct (is_empty owner || is_empty repo); [by apply gives_ret|].
  eapply gives_bind; [apply gives_ask|]. intros r _. eapply gives_bind; [apply gives_lift|]. intros _ _.
  eapply gives_bind; [apply gives_ask|]. intros issues _. apply (gives_hosted any); [done|]. intros l _.
  eapply gives_bind; [apply gives_tickets|]. intros tickets Ht. apply gives_set_tickets. by apply good_tracks.
Qed.
#[local] Hint Resolve gives_sync_issues : gives.

(** No human has approved the pull request of an escalated ticket, and its head is
    the one on record. *)
Definition untouched (pr : PrInfo) : Prop := ∀ t, ticket_id pr = Some t → E t →
  (∀ n, human_approved (or_none (gh_reviews w n (number pr))) (head_sha pr) = false) ∧ D (number pr) = Some (head_sha pr).

Lemma gives_resume pr t : untouched pr → ticket_id pr = Some t → gives any (resume_awaiting others w pr t).
Proof.
  intros Hpr Ht. unfold resume_awaiting. eapply gives_bind; [apply gives_ask|]. intros revs [n ->].
  eapply gives_bind; [apply gives_head|]. intros last Hlast. cbv beta zeta in *.
  destruct (negb _ && negb _) eqn:Hgo; [by apply gives_ret|].
  assert (¬ E t) as HnE.
  { intros HE. destruct (Hpr t Ht HE) as [Happ HD]. rewrite Happ in Hgo. cbn in Hgo.
    apply negb_false_iff in Hgo. specialize (Hlast _ HD). rewrite elem_of_cons, list_elem_of_singleton in Hlast.
    destruct Hlast as [->| ->]; [done|]. cbn in Hgo. by rewrite bool_decide_eq_true_2 in Hgo. }
  eapply gives_bind; [by apply gives_set, side_attempts|]. intros _ _.
  apply (gives_bind any).
  { case_match; [|by apply gives_ret]. eapply gives_bind; [apply gives_modify; intros s; apply ok_del_dispatched|].
    intros _ _. by apply gives_del, side_dispatched_at. }
  intros _ _. eapply gives_bind; [apply gives_tickets|]. intros l Hl. apply (gives_bind any); [|intros _ _; gives_auto].
  case_match; [|by apply gives_ret]. apply gives_set_tickets. intros u Hu. apply waiting_map; [| |by apply Hl].
  - intros x. by case_match.
  - intros x Hx Hw. unfold has_id. rewrite bool_decide_eq_false_2; [done|]. by intros <-; rewrite Hx in *.
Qed.
#[local] Hint Resolve gives_resume : gives.

Lemma gives_counters pr : gives any (counters_allow others pr).
Proof. unfold counters_allow. gives_auto. Qed.
Lemma gives_status_allows t : gives any (status_allows others t).
Proof. unfold status_allows, in_submit. gives_auto. Qed.
Lemma gives_should_discover n t : gives any (should_discover_pr others n t).
Proof. unfold should_discover_pr. gives_auto. Qed.
#[local] Hint Resolve gives_counters gives_status_allows gives_should_discover : gives.

Lemma gives_add_if_allowed pr d : gives any (add_if_allowed others pr d).
Proof. unfold add_if_allowed. gives_auto. Qed.
#[local] Hint Resolve gives_add_if_allowed : gives.

Lemma gives_discover known tickets pr d : untouched pr → gives any (discover others w known tickets pr d).
Proof. intros Hpr. unfold discover, discover_new. gives_auto. Qed.

Lemma gives_discover_all known tickets prs : ∀ d,
  Forall untouched prs → gives any (discover_all others w known tickets prs d).
Proof.
  induction prs as [|pr prs IH]; intros d Hprs; cbn [discover_all]; [by apply gives_ret|].
  apply Forall_cons in Hprs as [Hpr Hprs]. eapply gives_bind; [by apply gives_discover|]. intros d' _. by apply IH.
Qed.

Lemma gives_correct_status t :
  gives (λ r, ∀ t', r = Some t' → tk_id t' = tk_id t ∧ is_awaiting_human t = false) (correct_status others t).
Proof.
  unfold correct_status, in_submit, is_awaiting_human. gives_auto; cbv beta; intros ? ?; repeat case_match; by simplify_eq.
Qed.

Lemma gives_correct prs : ∀ l changed, good l → gives (λ r, good r.1) (correct_tickets others prs l changed).
Proof.
  induction prs as [|pr prs IH]; intros l changed Hl; cbn [correct_tickets]; [by apply gives_ret|].
  destruct (ticket_id pr ≫= _) as [[i t]|] eqn:Hf; [|by apply IH].
  destruct (ticket_id pr) as [tid|]; [|done]. cbn in Hf. apply list_find_Some in Hf as (Hi & Ht & _).
  eapply gives_bind; [apply gives_correct_status|]. intros [t'|] Hr; apply IH; [|done].
  destruct (Hr t' eq_refl) as [Hid Haw]. intros u Hu.
  eapply waiting_insert; [exact Hi|done| |by apply Hl]. intros _. congruence.
Qed.

Context (Huntouched : ∀ n prs, gh_open_prs w n = Ok prs → Forall untouched prs).

Lemma gives_sync_open_prs owner repo : gives any (sync_open_prs others w owner repo).
Proof.
  unfold sync_open_prs. destruct (is_empty owner || is_empty repo); [by apply gives_ret|].
  eapply gives_bind; [apply gives_ask|]. intros r _. eapply gives_bind; [apply gives_lift|]. intros _ _.
  eapply gives_bind; [apply gives_ask|]. intros prs [n ->]. apply (gives_hosted (Forall untouched)); [eauto|].
  intros l Hl. eapply gives_bind; [apply gives_get|]. intros pending _. cbv zeta.
  eapply gives_bind; [apply gives_tickets|]. intros tickets _.
  eapply gives_bind; [by apply gives_discover_all|]. intros d _.
  apply (gives_bind any); [gives_auto|]. intros _ _. case_match; [by apply gives_ret|].
  eapply gives_bind; [apply gives_tickets|]. intros tickets' Ht'.
  eapply gives_bind; [by apply gives_correct|]. intros [l' c'] Hr. gives_auto.
Qed.
#[local] Hint Resolve gives_sync_open_prs : gives.

Lemma gives_sync_registry : gives any (sync_registry others w).
Proof. unfold sync_registry. gives_auto. Qed.

Lemma gives_readiness owner repo : gives any (check_ci_readiness others w owner repo).
Proof. unfold check_ci_readiness, set_readiness. gives_auto. Qed.
#[local] Hint Resolve gives_sync_registry gives_readiness : gives.

(** ** Workspaces and chats *)

Lemma gives_token t : gives any (record_token others w t).
Proof. unfold record_token, Relay.pair_token_key. gives_auto. Qed.
Lemma gives_instructions ws worker : gives any (ensure_workspace_instructions others w ws worker).
Proof. unfold ensure_workspace_instructions, instructions_key. gives_auto. Qed.
Lemma gives_wait_ready n ws : gives any (wait_ready others w n ws).
Proof. induction n; cbn [wait_ready]; gives_auto. Qed.
Lemma gives_wait_ssh n ws : gives any (wait_ssh others w n ws).
Proof. induction n; cbn [wait_ssh]; gives_auto. Qed.
Lemma gives_branch t : gives any (queue_branch others t).
Proof. unfold queue_branch. gives_auto. Qed.
#[local] Hint Resolve gives_token gives_instructions gives_wait_ready gives_wait_ssh gives_branch : gives.

Lemma slots_named_workspace worker ws m : slots_named m → slots_named (with_workspace worker ws m).
Proof. unfold with_workspace. eauto with triple. Qed.
#[local] Hint Resolve slots_named_workspace : triple.

Lemma gives_provision worker t : gives any (provision_coder_workspace others w worker t).
Proof.
  unfold provision_coder_workspace, provision_managed_workspace, managed_worker_request_key, instructions_key. gives_auto.
Qed.
#[local] Hint Resolve gives_provision : gives.

Lemma gives_gate t : gives any (is_waiting_for_planning_gate others t).
Proof. unfold is_waiting_for_planning_gate, ticket_phase, gate_approved. gives_auto. Qed.
Lemma gives_resume_chat c t : gives any (resume_chat others w c t).
Proof. unfold resume_chat. gives_auto. Qed.
#[local] Hint Resolve gives_gate gives_resume_chat : gives.
Lemma gives_create_loop n ws t p : gives any (create_chat_loop others w n ws t p).
Proof. induction n; cbn [create_chat_loop]; gives_auto. Qed.
Lemma gives_resume_loop n c t : gives any (resume_loop others w n c t).
Proof. induction n; cbn [resume_loop]; gives_auto. Qed.
Lemma gives_forget_chat t role : gives any (forget_chat others t role).
Proof. unfold forget_chat, chat_key, action_key, full_ticket_key. gives_auto. Qed.
Lemma gives_forget_dispatch t role : gives any (forget_dispatch others t role).
Proof. unfold forget_dispatch, dispatch_key, full_ticket_key. gives_auto. Qed.
Lemma gives_delivery t role : gives any (ensure_rework_delivery_id others w t role).
Proof. unfold ensure_rework_delivery_id, full_ticket_key. gives_auto. Qed.
#[local] Hint Resolve gives_create_loop gives_resume_loop gives_forget_chat gives_forget_dispatch gives_delivery : gives.

Lemma gives_settle t role ws c : gives any (settle_existing_chat others w t role ws c).
Proof. unfold settle_existing_chat, action_key, full_ticket_key. gives_auto. Qed.
Lemma gives_start_chat worker ws t : gives any (start_chat others w worker ws t).
Proof. unfold start_chat, chat_key, action_key, dispatch_key, full_ticket_key. gives_auto. Qed.
Lemma gives_managed_chat worker t : gives any (create_managed_chat_for_assignment others w worker t).
Proof. unfold create_managed_chat_for_assignment, chat_key, action_key, dispatch_key, full_ticket_key. gives_auto. Qed.
#[local] Hint Resolve gives_settle gives_start_chat gives_managed_chat : gives.

Lemma gives_chat worker t : gives any (create_chat_for_assignment others w worker t).
Proof. unfold create_chat_for_assignment. gives_auto. Qed.
#[local] Hint Resolve gives_chat : gives.

Lemma gives_chat_id worker t : gives any (create_chat_for_ticket_id others w worker t).
Proof. unfold create_chat_for_ticket_id. gives_auto. Qed.
#[local] Hint Resolve gives_chat_id : gives.

(** ** Recovery and [post] *)

Lemma gives_inspect_chat c : gives any (inspect_chat others c).
Proof. unfold inspect_chat, action_key, full_ticket_key. gives_auto. Qed.
Lemma gives_inspect_slot slot : gives any (inspect_slot others w slot).
Proof. unfold inspect_slot. gives_auto. Qed.
#[local] Hint Resolve gives_inspect_chat gives_inspect_slot : gives.
Lemma gives_inspect_slots l : gives any (inspect_slots others w l).
Proof. induction l; cbn [inspect_slots]; gives_auto. Qed.
#[local] Hint Resolve gives_inspect_slots : gives.
Lemma gives_inspect slots : gives any (inspect_coder_recovery others w slots).
Proof. unfold inspect_coder_recovery. gives_auto. Qed.

Lemma gives_restart ws : gives any (restart others w ws).
Proof. unfold restart. gives_auto. Qed.
Lemma gives_recreate c : gives any (recreate_workspace others w c).
Proof. unfold recreate_workspace. gives_auto. Qed.
#[local] Hint Resolve gives_inspect gives_restart gives_recreate : gives.

Lemma gives_repair_crash c : gives any (repair_crash others w c).
Proof. unfold repair_crash. gives_auto. Qed.
#[local] Hint Resolve gives_repair_crash : gives.
Lemma gives_repair_chat c : gives any (repair_chat others w c).
Proof. unfold repair_chat, action_key, full_ticket_key. gives_auto. Qed.
#[local] Hint Resolve gives_repair_chat : gives.
Lemma gives_repair chats l : gives any (repair_coder_recovery others w chats l).
Proof. unfold repair_coder_recovery. gives_auto. Qed.
Lemma gives_attend worker slot : gives any (attend_slot others w worker slot).
Proof. unfold attend_slot. gives_auto. Qed.
#[local] Hint Resolve gives_repair gives_attend : gives.

Lemma gives_occupy worker t url : gives any (occupy others worker t url).
Proof.
  unfold occupy. eapply gives_bind; [apply gives_slots|]. intros m Hm.
  destruct (m !! worker) as [slot|] eqn:Hs; [|by apply gives_ret].
  eapply gives_bind; [|intros _ _; by apply gives_ret]. apply gives_set_slots. by eapply slots_named_insert.
Qed.
Lemma gives_comment o r n text : gives any (post_comment_once others w o r n text).
Proof. unfold post_comment_once. gives_auto. Qed.
#[local] Hint Resolve gives_occupy gives_comment : gives.

Lemma gives_github worker url : gives any (sync_assignment_to_github others w worker url).
Proof. unfold sync_assignment_to_github, assign_on_github. gives_auto. Qed.
#[local] Hint Resolve gives_github : gives.

Lemma good_assign d worker t l : ¬ E t → good l → good (assign_ticket d worker t l).
Proof.
  intros HnE Hl u Hu. unfold assign_ticket. destruct (list_find _ l) as [[i x]|] eqn:Hf.
  - apply list_find_Some in Hf as (Hi & Ht & _). eapply waiting_insert; [exact Hi| | |by apply Hl].
    + by destruct (dec_issue_url d).
    + intros Ex. by rewrite Ex in Ht; subst.
  - apply waiting_app; [|by apply Hl]. intros x Hx. apply list_elem_of_singleton in Hx as ->. cbn. by intros ->.
Qed.

Lemma good_rework worker t l : ¬ E t → good l → good (assign_rework worker t l).
Proof.
  intros HnE Hl u Hu. unfold assign_rework. destruct (list_find _ l) as [[i x]|] eqn:Hf; [|by apply Hl].
  apply list_find_Some in Hf as (Hi & Ht & _). eapply waiting_insert; [exact Hi|done| |by apply Hl].
  intros Ex. by rewrite Ex in Ht; subst.
Qed.

(** A decision about no escalated ticket. *)
Definition spares (d : AgentDecision) : Prop := ∀ t, dec_ticket d = Some t → ¬ E t.

Lemma gives_work d : spares d → gives any (post_work_assigned others w d).
Proof.
  intros Hd. unfold post_work_assigned, reset_no_work, set_readiness, provision_and_chat.
  eapply gives_bind; [apply gives_set; eauto with side|]. intros _ _.
  destruct (assign_to d) as [worker|]; [|by apply gives_ret]. destruct (dec_ticket d) as [t|] eqn:Ht; [|by apply gives_ret].
  eapply gives_bind; [apply gives_tickets|]. intros l Hl.
  eapply gives_bind; [apply gives_set_tickets, good_assign; auto|]. intros _ _. gives_auto.
Qed.

Lemma gives_rework d : spares d → gives any (post_rework_assigned others w d).
Proof.
  intros Hd. unfold post_rework_assigned, reset_no_work, provision_and_chat.
  eapply gives_bind; [apply gives_set; eauto with side|]. intros _ _.
  destruct (assign_to d) as [worker|]; [|by apply gives_ret]. destruct (dec_ticket d) as [t|] eqn:Ht; [|by apply gives_ret].
  eapply gives_bind; [apply gives_tickets|]. intros l Hl.
  eapply gives_bind; [apply gives_set_tickets, good_rework; auto|]. intros _ _. gives_auto.
Qed.

Lemma gives_command b : gives any (post_command others w b).
Proof.
  unfold post_command. gives_auto. apply gives_set_slots, slots_named_alter; [|done].
  intros []. unfold settle_suspended. by repeat case_match.
Qed.
#[local] Hint Resolve gives_work gives_rework gives_command : gives.

Lemma gives_post d : spares d → gives any (post others w d).
Proof. intros Hd. unfold post, reset_no_work. gives_auto. Qed.
#[local] Hint Resolve gives_post : gives.

(** ** Reviews *)

Lemma gives_has_key k : gives any (has_key others k).
Proof. apply gives_read. Qed.
#[local] Hint Resolve gives_has_key : gives.

Lemma gives_notify_once t k m : side k → gives any (notify_once others w wording t k m).
Proof. intros Hk. unfold notify_once. gives_auto. Qed.
Lemma gives_notify_managed t k m : gives any (notify_managed_forge others w wording t k m).
Proof. unfold notify_managed_forge. gives_auto. Qed.
Lemma gives_adopt prefix ws l : gives any (adopt others w prefix ws l).
Proof. induction l; cbn [adopt]; gives_auto. Qed.
Lemma gives_new_session t k ws p : side k → gives any (new_session others w t k ws p).
Proof. intros Hk. unfold new_session, session_key. gives_auto. Qed.
#[local] Hint Resolve gives_notify_once gives_notify_managed gives_adopt gives_new_session : gives.
Lemma gives_replace t k ws p old c : side k → gives any (replace_session others w t k ws p old c).
Proof. intros Hk. unfold replace_session, session_key. gives_auto. Qed.
Lemma gives_continue t k p old c : side k → gives any (continue_session others w t k p old c).
Proof. intros Hk. unfold continue_session, session_key. gives_auto. Qed.
#[local] Hint Resolve gives_replace gives_continue : gives.
Lemma gives_continue_review t k ws p : side k → gives any (continue_sentinel_review others w t k ws p).
Proof. intros Hk. unfold continue_sentinel_review, session_key. gives_auto. Qed.
#[local] Hint Resolve gives_continue_review : gives.

Lemma gives_bind_reviewer worker ws t : gives any (bind_reviewer others worker ws t).
Proof. unfold bind_reviewer. gives_auto. Qed.
Lemma gives_reviewer_workspace worker slot t : gives any (reviewer_workspace others w worker slot t).
Proof. unfold reviewer_workspace. gives_auto. Qed.
Lemma gives_existing k a : side k → side a → gives any (existing_review others w k a).
Proof. intros Hk Ha. unfold existing_review. gives_auto. Qed.
#[local] Hint Resolve gives_bind_reviewer gives_reviewer_workspace gives_existing : gives.
Lemma gives_in_progress k a worker ws t c : side k → side a → gives any (review_in_progress others w k a worker ws t c).
Proof. intros Hk Ha. unfold review_in_progress. gives_auto. Qed.
Lemma gives_launch t worker ws k a p m :
  side k → side a → gives any (launch_review others w wording t worker ws k (Some a) p m).
Proof. intros Hk Ha. unfold launch_review, dispatch_key, full_ticket_key. gives_auto. Qed.
Lemma gives_launch_plain t worker ws k p m :
  side k → gives any (launch_review others w wording t worker ws k None p m).
Proof. intros Hk. unfold launch_review, dispatch_key, full_ticket_key. gives_auto. Qed.
#[local] Hint Resolve gives_in_progress gives_launch gives_launch_plain : gives.

Lemma side_review_chat t ns : side (review_chat_key t ns).
Proof. eapply side_lit; reflexivity. Qed.
Lemma side_review_action t ns : side (review_action_key t ns).
Proof. eapply side_lit; reflexivity. Qed.
Lemma side_gate_notified t lc : side (gate_notified_key t lc).
Proof. eapply side_lit; reflexivity. Qed.
#[local] Hint Resolve side_review_chat side_review_action side_gate_notified : gives side.

Lemma gives_poll_gate t lc : gives any (poll_gate others w wording t lc).
Proof. unfold poll_gate. gives_auto. Qed.
Lemma gives_poll_submit t lc : gives any (poll_submit others w wording t lc).
Proof. unfold poll_submit. gives_auto. Qed.
Lemma gives_poll_building t lc : gives any (poll_building others w wording t lc).
Proof. unfold poll_building. gives_auto. Qed.
Lemma gives_poll_blocked t lc : gives any (poll_blocked others w wording t lc).
Proof. unfold poll_blocked. gives_auto. Qed.
#[local] Hint Resolve gives_poll_gate gives_poll_submit gives_poll_building gives_poll_blocked : gives.
Lemma gives_v_lifecycle t : gives any (v_lifecycle others t).
Proof. apply gives_read. Qed.
#[local] Hint Resolve gives_v_lifecycle : gives.
Lemma gives_poll_ticket t : gives any (poll_ticket others w wording t).
Proof. unfold poll_ticket, raw_phase. gives_auto. Qed.
Lemma gives_lore slots t : gives any (spawn_lore others w slots t).
Proof. unfold spawn_lore, dispatch_key, chat_key, full_ticket_key. gives_auto. Qed.
Lemma gives_managed_review t m ns rt msg lc :
  gives any (ensure_managed_sentinel_review others w wording t m ns rt msg lc).
Proof. unfold ensure_managed_sentinel_review, dispatch_key, session_key, full_ticket_key. gives_auto. Qed.
#[local] Hint Resolve gives_poll_ticket gives_lore gives_managed_review : gives.
Lemma gives_poll_managed m t : gives any (poll_managed_ticket others w wording m t).
Proof. unfold poll_managed_ticket. gives_auto. Qed.
#[local] Hint Resolve gives_poll_managed : gives.
Lemma gives_poll_inner t : gives any (poll_inner others w wording t).
Proof. unfold poll_inner. gives_auto. Qed.
#[local] Hint Resolve gives_poll_inner : gives.

Lemma side_lease t : side (poll_lease_key t).
Proof. apply side_flat. done. Qed.

Lemma gives_poll_one t : gives any (poll_one others clock w wording t).
Proof.
  unfold poll_one. eapply gives_bind; [apply gives_local|]. intros token _.
  eapply gives_bind; [apply gives_await|]. intros _ _. apply (gives_bind any).
  - intros v Hv. unfold v_step. destruct (try_claim _ _ _ _ _) as [[b s]|e|] eqn:Hc; [|done..].
    split; [|done]. cbn. by eapply ok_claim; [apply side_lease|exact Hc|].
  - intros b _. destruct b; [|by apply gives_ret]. eapply gives_bind; [apply gives_poll_inner|]. intros _ _.
    apply gives_modify. intros s. apply ok_release, side_lease.
Qed.
#[local] Hint Resolve gives_poll_one : gives.

(** ** [prep] and a whole pass *)

Lemma gives_hosted_warn m : gives any m → gives any (warn_unless_hosted w m).
Proof. intros Hm. unfold warn_unless_hosted. gives_auto. Qed.
#[local] Hint Resolve gives_hosted_warn : gives.

Lemma sort_by_perm {A} (le : A → A → bool) l : sort_by le l ≡ₚ l.
Proof.
  unfold sort_by. induction l as [|x l IH]; cbn; [done|]. rewrite <- IH at 2. clear IH.
  induction (fold_right (insert_sorted le) [] l) as [|y m IH]; cbn; [done|].
  case_match; [done|]. rewrite IH. apply Permutation_swap.
Qed.

(** The synthetic CI tickets come and go with the workflows; no other does. *)
Context (Hci : ∀ t, E t → starts_with "T-CI-" t = false).

Lemma good_resolve l : good l → good (auto_resolve_unrecognized_statuses l).1.
Proof.
  intros Hl t Ht. cbn. apply waiting_map; [| |by apply Hl].
  - intros x. by case_match.
  - intros x _ Hx. unfold resolvable, is_awaiting_human in *. destruct (tk_status x) eqn:Ex; try done. by rewrite Ex.
Qed.

Lemma good_stale l : good l → good (remove_stale_ci_setup_tickets l).
Proof.
  intros Hl t Ht. apply waiting_filter; [|by apply Hl]. intros x Hx. unfold is_synthetic_ci_setup_ticket.
  rewrite Hx, (Hci t Ht). rewrite bool_decide_eq_false_2; [done|]. intros ->. by apply Hci in Ht.
Qed.

Lemma good_ci r l : good l → good (prioritize_ci_first (ensure_ci_setup_ticket r l)).
Proof.
  intros Hl t Ht. eapply waiting_perm; [symmetry; apply sort_by_perm|]. unfold ensure_ci_setup_ticket.
  destruct r; try by apply Hl. case_match; [by apply Hl|]. apply waiting_app; [|by apply Hl].
  intros x Hx. apply list_elem_of_singleton in Hx as ->. intros <-. by apply Hci in Ht.
Qed.

Lemma gives_prep_tickets r : gives good (prep_tickets others r).
Proof.
  unfold prep_tickets. eapply gives_bind; [apply gives_tickets|]. intros l Hl.
  destruct (auto_resolve_unrecognized_statuses l) as [l1 n] eqn:E1.
  assert (good l1) as Hl1 by (change l1 with (l1, n).1; rewrite <- E1; by apply good_resolve).
  apply (gives_bind any); [gives_auto|]. intros _ _. apply (gives_bind good).
  - pose proof (good_stale l1 Hl1). destruct r; try by apply gives_ret.
    apply (gives_bind any); [gives_auto|]. intros _ _. by apply gives_ret.
  - intros l2 Hl2. eapply gives_bind; [by apply gives_set_tickets, good_ci|]. intros _ _. apply gives_tickets.
Qed.

Lemma gives_prep_sync : gives (λ r, good r.1) (prep_sync others w).
Proof.
  unfold prep_sync. eapply gives_bind; [apply gives_sync_registry|]. intros _ _.
  apply (gives_bind any); [gives_auto|]. intros repository _. apply (gives_bind any); [gives_auto|]. intros _ _.
  destruct (split_repository repository) as [owner repo].
  apply (gives_bind any); [gives_auto|]. intros _ _. apply (gives_bind any); [gives_auto|]. intros _ _.
  eapply gives_bind; [apply gives_readiness|]. intros r _.
  apply (gives_bind any); [unfold set_readiness; gives_auto|]. intros _ _.
  eapply gives_bind; [apply gives_prep_tickets|]. intros l Hl. by apply gives_ret.
Qed.

Lemma gives_recycle l : gives any (recycle_for_work others w l).
Proof. unfold recycle_for_work. gives_auto. Qed.

Lemma gives_prep_recover l : gives any (prep_recover others clock w wording l).
Proof. unfold prep_recover, poll_harness_status_and_spawn_agents. gives_auto. Qed.

Lemma gives_needs_rework c t : gives (λ b, b = true → is_awaiting_human t = false) (needs_rework others w c t).
Proof.
  unfold needs_rework, chat_key, full_ticket_key. destruct (is_awaiting_human t); gives_auto; by intros.
Qed.

Lemma gives_rework_tickets c l : good l →
  gives (λ r, ∀ t, t ∈ r → ¬ E t) (rework_tickets others w c l).
Proof.
  intros Hl. assert (∀ l', (∀ x, x ∈ l' → x ∈ l) → gives (λ r, ∀ t, t ∈ r → ¬ E t) (rework_tickets others w c l')) as H;
    [|by apply H].
  induction l' as [|x l' IH]; intros Hsub; cbn [rework_tickets].
  - apply gives_ret. intros t Ht. by apply elem_of_nil in Ht.
  - eapply gives_bind; [apply gives_needs_rework|]. intros b Hb.
    eapply gives_bind; [apply IH; intros y Hy; apply Hsub, elem_of_cons; by right|]. intros rest Hrest.
    apply gives_ret. intros t Ht HE. destruct b; [|by eapply Hrest].
    apply elem_of_cons in Ht as [->|Ht]; [|by eapply Hrest].
    eapply (waiting_not l (tk_id x) x); [by apply Hl|apply Hsub, elem_of_cons; by left|by apply Hb|done].
Qed.

(** A context whose tickets are none of the escalated ones. *)
Definition spares_context (c : Context) : Prop :=
  (∀ x, x ∈ c_assignable c → ¬ E (tk_id x)) ∧ (∀ p, p ∈ c_rework_provision c → ¬ E p.1).

Lemma assignable_spared r l x : good l → x ∈ assignable_tickets r l → ¬ E (tk_id x).
Proof.
  intros Hl Hx HE. assert (x ∈ l ∧ is_assignable x = true) as [Hin Has].
  { unfold assignable_tickets in Hx. destruct (ci_must_go_first r l);
      rewrite list_elem_of_In, List.filter_In, <- list_elem_of_In in Hx; destruct Hx as [? H]; split; auto.
    by apply andb_true_iff in H as [_ ?]. }
  eapply (waiting_not l (tk_id x) x); [by apply Hl|done| |done].
  unfold is_assignable, is_awaiting_human in *. by destruct (tk_status x).
Qed.

Lemma provisionable_spared live l p : (∀ t, t ∈ l → ¬ E t) → p ∈ provisionable live l → ¬ E p.1.
Proof.
  intros Hl Hp. unfold provisionable in Hp. apply list_elem_of_omap in Hp as (t & Ht & Hp).
  destruct (rework_worker_for live t); [|done]. injection Hp as <-. by apply Hl.
Qed.

Lemma gives_restore prs l : ∀ pending, gives any (restore_prs others prs l pending).
Proof. induction l; intros pending; cbn [restore_prs]; gives_auto. Qed.
#[local] Hint Resolve gives_restore : gives.
Lemma gives_restore_rework work pending : gives any (restore_rework_prs others w work pending).
Proof. unfold restore_rework_prs. gives_auto. Qed.
Lemma gives_ready_for_vessel pr : gives any (ready_for_vessel others pr).
Proof. unfold ready_for_vessel, in_submit. gives_auto. Qed.
#[local] Hint Resolve gives_ready_for_vessel : gives.
Lemma gives_pending_ready l : gives any (pending_prs_ready_for_vessel others l).
Proof. induction l; cbn [pending_prs_ready_for_vessel]; gives_auto. Qed.
#[local] Hint Resolve gives_pending_ready : gives.
Lemma gives_publish l : gives any (publish_merge_ready others l).
Proof. unfold publish_merge_ready. gives_auto. Qed.
Lemma gives_delivery_pending l : gives any (delivery_pending others l).
Proof. induction l; cbn [delivery_pending]; gives_auto. Qed.

Lemma gives_prep : gives spares_context (prep others clock w wording).
Proof.
  unfold prep. eapply gives_bind; [apply gives_prep_sync|]. intros [l r] Hl. cbn in Hl.
  eapply gives_bind; [apply gives_recycle|]. intros _ _. eapply gives_bind; [apply gives_read|]. intros pending _.
  cbv zeta. eapply gives_bind; [apply gives_prep_recover|]. intros slots _.
  eapply gives_bind; [apply gives_client|]. intros c _.
  eapply gives_bind; [by apply gives_rework_tickets|]. intros rework Hrework.
  eapply gives_bind; [apply gives_restore_rework|]. intros pending' _.
  eapply gives_bind; [apply gives_publish|]. intros ready _.
  eapply gives_bind; [apply gives_delivery_pending|]. intros delivery _.
  eapply gives_bind; [apply gives_read|]. intros raw _. apply gives_ret. split; cbn.
  - intros x. by apply assignable_spared.
  - intros p. by apply provisionable_spared.
Qed.

Lemma exec_spares c : spares_context c → spares (exec c).
Proof.
  intros [H1 H2] t. unfold exec. destruct (c_rework_provision c) as [|[t' k] l].
  - destruct (c_review_delivery_pending c); [done|]. destruct (negb _); [done|].
    destruct (c_assignable c) as [|x l]; [by repeat case_match|].
    destruct (idle_forge_workers _); [done|]. intros [= <-]. apply H1, elem_of_cons. by left.
  - intros [= <-]. apply (H2 (t', k)), elem_of_cons. by left.
Qed.

(** A pass of the controller: [prep], [exec] and [post], as the flow runs a node. *)
Definition nexus_pass : St VState string := c ← prep others clock w wording; post others w (exec c).

Lemma gives_pass : gives any nexus_pass.
Proof.
  unfold nexus_pass. eapply gives_bind; [apply gives_prep|]. intros c Hc. by apply gives_post, exec_spares.
Qed.
End keeps.
