(* ===== verification/NexusProps.v ===== *)
(** * What a pass of the controller does and does not do *)
From S2P Require Import Prelude Text Json ValueCodec Lifecycle LifecycleFacts LifecycleCodec Store StoreProps Tickets Review Hoare Vessel VesselQueue VesselFacts VesselProps VesselPost VesselActProps.
From S2P Require Import Github Coder Flow Registry Identity IdentityProps Nexus NexusStore NexusSync NexusAct NexusReview NexusFacts NexusKeeps.
Import MergeRun(quiet, clock).

Definition unconstrained : string → option Value → Prop := λ _ _, True.
Definition nobody : string → Prop := λ _, False.
Definition no_heads : u64 → option string := λ _, None.

(** What the controller relies on from a process next to it: it leaves escalated
    tickets waiting, slots under their names, and at no pull request of an escalated
    ticket records a dispatch for another head than [D]'s. *)
Definition spares_escalated (E : string → Prop) (D : u64 → option string) (f : SharedStore → SharedStore) : Prop :=
  ∀ s, nexus_ok E D unconstrained s → nexus_ok E D unconstrained (f s).

(** The agents that only make lifecycle transitions are such processes. *)
Lemma transitions_spare_escalated E D s t ver actor e now lc s' :
  Store.transition s t ver actor e now = Ok (lc, s') →
  nexus_ok E D unconstrained s → nexus_ok E D unconstrained s'.
Proof.
  unfold Store.transition. intros H. apply result_bind_Ok in H as (cur & _ & H). apply ensure_Ok in H as [_ H].
  apply result_bind_Ok in H as (next & _ & [= <- <-]). by apply ok_record.
Qed.

(** C7. The controller leaves escalated tickets with the human: whatever one of its
    passes does - issues and pull requests synchronised, crashes repaired, reviews
    scheduled, orphans reopened, work assigned, failing anywhere, in any iteration
    order of the map of slots - a ticket that awaited a human before it awaits one
    after it.  [E] are the escalated tickets, [D] the heads of their pull requests.
    It is a statement about the controller: the processes that run next to it are
    assumed to leave escalated tickets, the names of slots and the dispatched heads
    alone themselves ([spares_escalated]).  No authorised human may approve the head
    of the pull request of an escalated ticket, and that head must be the one last
    sent for rework.  Synthetic CI tickets ([T-CI-]) are excluded: they are removed
    when workflows appear. *)
Theorem escalated_tickets_stay_with_the_human others clk w wording E D v t :
  (∀ n, spares_escalated E D (others n)) →
  (∀ m e, e ∈ slot_order w m → m !! e.1 = Some e.2) →
  (∀ n prs, gh_open_prs w n = Ok prs → Forall (untouched w E D) prs) →
  (∀ u, E u → starts_with "T-CI-" u = false) →
  nexus_ok E D unconstrained (v_store v) → E t →
  waiting (tickets_in (v_store (nexus_pass others clk w wording v).2)) t.
Proof.
  intros Hothers Horder Hprs Hci Hv Ht.
  assert (nexus_ok E D unconstrained (v_store (nexus_pass others clk w wording v).2)) as [_ H _ _]; [|by apply H].
  apply (keeps_run (J E D unconstrained)); [|done].
  eapply triple_conseq; [apply gives_pass; done|done|]. by intros a s [? _].
Qed.

(** A pass when nobody is escalated and [Rec] holds of the records. *)
Lemma pass_keeps others clk w wording Rec v :
  (∀ n s, nexus_ok nobody no_heads Rec s → nexus_ok nobody no_heads Rec (others n s)) →
  (∀ t, Rec t (Some (VString "awaiting_human"))) →
  (∀ m e, e ∈ slot_order w m → m !! e.1 = Some e.2) →
  nexus_ok nobody no_heads Rec (v_store v) →
  nexus_ok nobody no_heads Rec (v_store (nexus_pass others clk w wording v).2).
Proof.
  intros Hothers Herase Horder Hv. apply (keeps_run (J nobody no_heads Rec)); [|done].
  eapply triple_conseq; [apply gives_pass; try done| done |by intros a s [? _]].
  intros n prs _. apply Forall_true. by intros pr t _ [].
Qed.

(** C38. The map of worker slots keeps its shape: every slot is filed under its own
    identifier before a pass of the controller and after it, whether slots are
    added or dropped with the registry, bound to tickets, given workspaces,
    released, recovered or suspended, and whether or not the pass fails, provided
    the processes next to it keep slots under their names as well. *)
Theorem slots_stay_under_their_names others clk w wording v :
  (∀ n s, slots_named (slots_in s) → slots_named (slots_in (others n s))) →
  (∀ m e, e ∈ slot_order w m → m !! e.1 = Some e.2) →
  slots_named (slots_in (v_store v)) →
  slots_named (slots_in (v_store (nexus_pass others clk w wording v).2)).
Proof.
  intros Hothers Horder Hv. eapply (ok_slots nobody no_heads unconstrained), pass_keeps; [|done|done|done].
  intros n s [H _ _ _]. split; [by apply Hothers|done|done|done].
Qed.

(** The controller schedules but does not decide: when nobody else writes, the
    lifecycle record of a ticket after a pass is the one before it, unless the
    ticket was escalated in between, which overwrites the record.  So no phase is
    advanced, no verdict given and no merge reserved by NEXUS. *)
Theorem nexus_gives_no_verdict clk w wording v t :
  (∀ m e, e ∈ slot_order w m → m !! e.1 = Some e.2) →
  slots_named (slots_in (v_store v)) → no_char ":" t = true →
  let s' := v_store (nexus_pass quiet clk w wording v).2 in
  lifecycle s' t = lifecycle (v_store v) t ∨ Store.get s' (status_key t) = Some (VString "awaiting_human").
Proof.
  intros Horder Hv Ht s'.
  set (Rec := λ u o, o = Store.get (v_store v) (status_key u) ∨ o = Some (VString "awaiting_human")).
  assert (nexus_ok nobody no_heads Rec s') as [_ _ _ H].
  { apply pass_keeps; [done|by right|done|]. split; [done|done|done|]. by left. }
  destruct (H t Ht) as [E|E]; [left|by right]. unfold lifecycle. unfold Store.get in E. by rewrite E.
Qed.

(** ** Handing over to VESSEL *)

(** The gate, on a store that nobody else changes. *)
Definition handed_over (s : SharedStore) (pr : Value) : bool :=
  match as_str (index "ticket_id" pr) with
  | Some t =>
      negb (is_blank t) && is_none (Store.get s (full_ticket_key t KEY_TICKET_REWORK_DIRECTIVE "forge"))
      && match lifecycle s t with Ok lc => bool_decide (phase lc = Submit) | _ => false end
  | None => false
  end.

Lemma ready_run pr v : ∃ k, ready_for_vessel quiet pr v = (Ok (handed_over (v_store v) pr), tick k v).
Proof.
  unfold ready_for_vessel, handed_over. destruct (as_str _) as [t|]; [|by exists 0; destruct v].
  destruct (is_blank t); [by exists 0; destruct v|]. unfold in_submit, v_read, v_await, quiet, mbind, st_bind, v_step. cbn.
  destruct (Store.get (v_store v) (full_ticket_key t KEY_TICKET_REWORK_DIRECTIVE "forge")) as [d|] eqn:Ed; cbn.
  - exists 1. by destruct v.
  - exists 2. destruct v. cbn. by destruct (lifecycle _ t).
Qed.

Lemma pending_ready_run l : ∀ v, ∃ k,
  pending_prs_ready_for_vessel quiet l v = (Ok (List.filter (handed_over (v_store v)) l), tick k v).
Proof.
  induction l as [|pr l IH]; intros v; cbn [pending_prs_ready_for_vessel]; [by exists 0; destruct v|].
  destruct (ready_run pr v) as [k Hk]. unfold mbind at 1, st_bind at 1. rewrite Hk.
  destruct (IH (tick k v)) as [k' Hk']. unfold mbind at 1, st_bind at 1. rewrite Hk'. cbn [v_store tick].
  exists (k' + k). cbn. unfold tick. cbn. rewrite Nat.add_assoc. by destruct (handed_over _ pr).
Qed.

(** C27. Only submitted work reaches VESSEL: with nobody else writing, the queue NEXUS
    publishes is exactly the pending pull requests, in their order, that name a
    ticket which is in its submit phase and for which no rework is waiting to be
    delivered; a record that cannot be read hands nothing over, and nothing else in
    the store changes. *)
Theorem only_submitted_work_reaches_vessel pending v :
  ∃ v', publish_merge_ready quiet pending v = (Ok (List.filter (handed_over (v_store v)) pending), v') ∧
  v_store v' = set (v_store v) KEY_MERGE_READY_PRS (VArray (List.filter (handed_over (v_store v)) pending)) ∧
  v_log v' = v_log v ∧
  ∀ pr, pr ∈ List.filter (handed_over (v_store v)) pending ↔
    pr ∈ pending ∧ ∃ t lc, as_str (index "ticket_id" pr) = Some t ∧ is_blank t = false ∧
      Store.get (v_store v) (full_ticket_key t KEY_TICKET_REWORK_DIRECTIVE "forge") = None ∧
      lifecycle (v_store v) t = Ok lc ∧ phase lc = Submit.
Proof.
  destruct (pending_ready_run pending v) as [k Hk]. unfold publish_merge_ready.
  unfold mbind at 1, st_bind at 1. rewrite Hk. eexists. split; [reflexivity|]. split; [done|]. split; [done|].
  intros pr. rewrite !list_elem_of_In, List.filter_In, <- !list_elem_of_In. unfold handed_over.
  split.
  - intros [Hin H]. split; [done|]. destruct (as_str _) as [t|]; [|done].
    apply andb_true_iff in H as [H Hlc]. apply andb_true_iff in H as [Hb Hd].
    destruct (lifecycle (v_store v) t) as [lc|e|] eqn:El; [|done..]. apply bool_decide_eq_true in Hlc.
    exists t, lc. apply negb_true_iff in Hb. by destruct (Store.get _ _).
  - intros [Hin (t & lc & -> & -> & -> & -> & Hph)]. cbn. by rewrite bool_decide_eq_true_2.
Qed.

(** ** Escalation and the lifecycle record *)

(** What [decode] makes of the text an escalation writes. *)
Definition forgotten : Lifecycle :=
  default ▷ set_phase Planning ▷ set_feedback (Some "Legacy state requires a new plan review").

Lemma decode_awaiting : decode (Some (VString "awaiting_human")) = Ok forgotten.
Proof. reflexivity. Qed.

Section escalation.
Context (w : World) (t worker why : string).

(** The slots are in order and the record of [t] is the text. *)
Definition overwritten (v : VState) : Prop :=
  J nobody no_heads (λ u o, u = t → o = Some (VString "awaiting_human")) v.

Lemma overwritten_lifecycle v : no_char ":" t = true → overwritten v → lifecycle (v_store v) t = Ok forgotten.
Proof. intros Ht [_ _ _ H]. unfold lifecycle. specialize (H t Ht eq_refl). unfold Store.get in H. by rewrite H. Qed.

Lemma triple_mark :
  triple (λ v, slots_named (slots_in (v_store v)) ∧
               ∀ x, find_ticket t (tickets_in (v_store v)) = Some x → is_awaiting_human x = false)
    (mark_ticket_awaiting_human quiet w t worker why) (λ _, overwritten) (λ _, True).
Proof.
  unfold mark_ticket_awaiting_human.
  eapply (triple_bind _ _ _ (λ l v, slots_named (slots_in (v_store v)) ∧
    ∀ x, find_ticket t l = Some x → is_awaiting_human x = false)); [by intros v H|].
  intros l. apply (triple_conseq _ (λ v, (∀ x, find_ticket t l = Some x → is_awaiting_human x = false) ∧
    slots_named (slots_in (v_store v))) _ _ (λ _, overwritten)); [|by intros v []|done].
  apply triple_pure. intros Hl. cbv zeta.
  assert (is_some_and (λ x, match tk_status x with AwaitingHuman _ _ _ => true | _ => false end)
            (find_ticket t l) = false) as ->.
  { destruct (find_ticket t l) as [x|]; [|done]. by apply Hl. }
  eapply triple_bind; [apply (triple_lift _ _ (λ _ v, slots_named (slots_in (v_store v)))); [by intros|done]|].
  intros l'. eapply (triple_bind _ _ _ (λ _ v, slots_named (slots_in (v_store v)))).
  { intros v Hv. change (slots_named (slots_in (set (v_store v) KEY_TICKETS (to_value l')))). by rewrite slots_in_ne. }
  intros _. eapply (triple_bind _ _ _ (λ _, overwritten)).
  { intros v Hv. split; [|done|done|].
    - change (slots_named (slots_in (set (v_store v) (status_key t) (VString "awaiting_human")))). by rewrite slots_in_ne.
    - intros u _ ->. apply get_set_eq. }
  intros _. apply (triple_fail _ _ _ overwritten); [|done].
  assert (∀ (m : St VState unit), gives nobody no_heads (λ u o, u = t → o = Some (VString "awaiting_human")) any m →
    triple overwritten m (λ _, overwritten) overwritten) as Hg.
  { intros m Hm. eapply triple_conseq; [exact Hm|done|]. by intros a s [? _]. }
  apply (triple_bind _ _ _ (λ _, overwritten)); [by apply Hg, gives_reset|intros _].
  apply (triple_bind _ _ _ (λ _, overwritten)); [by apply Hg, gives_release|intros _]. by apply Hg, gives_notify.
Qed.
End escalation.

(** C39. Escalation throws the evidence away: when NEXUS gives a ticket to a human it
    overwrites the ticket's lifecycle record with a bare text.  Whatever the record
    said - an approved plan, passed tests, a submitted head, a merge in progress -
    it then reads as a fresh ticket in planning at version zero, and no pull
    request of the ticket is handed to VESSEL, even once a human approves it. *)
Theorem escalation_erases_the_record w t worker why v v' :
  no_char ":" t = true → is_blank t = false → slots_named (slots_in (v_store v)) →
  (∀ x, find_ticket t (tickets_in (v_store v)) = Some x → is_awaiting_human x = false) →
  mark_ticket_awaiting_human quiet w t worker why v = (Ok tt, v') →
  lifecycle (v_store v') t = Ok forgotten ∧
  (phase forgotten = Planning ∧ version forgotten = 0%N ∧ plan_decision forgotten = None ∧
   test_decision forgotten = None ∧ pr_decision forgotten = None ∧ pr_number forgotten = None ∧
   merge_pending forgotten = false) ∧
  ∀ pr, as_str (index "ticket_id" pr) = Some t → (ready_for_vessel quiet pr v').1 = Ok false.
Proof.
  intros Ht Hb Hslots Hfind Hrun.
  pose proof (triple_run _ _ _ _ _ _ _ (triple_mark w t worker why) (conj Hslots Hfind) Hrun) as Ho. cbn in Ho.
  pose proof (overwritten_lifecycle t v' Ht Ho) as Hlc. split; [done|]. split; [done|].
  intros pr Hpr. destruct (ready_run pr v') as [k ->]. cbn. unfold handed_over. rewrite Hpr, Hlc. by rewrite andb_false_r.
Qed.

(** ** One conversation per ticket and role *)

Definition opens (e : Effect) : bool := match e with CreateChat _ _ _ => true | _ => false end.
Definition opened (l : list Effect) : list Effect := List.filter opens l.

(** The store is [s] and the log satisfies [L]. *)
Definition at_store (s : SharedStore) (L : list Effect → Prop) (v : VState) : Prop := v_store v = s ∧ L (v_log v).

Lemma at_read {A} s L (f : SharedStore → result A) :
  triple (at_store s L) (v_read quiet f) (λ a v, f s = Ok a ∧ at_store s L v) (at_store s L).
Proof.
  intros v [<- HL]. unfold v_read, v_await, mbind, st_bind, v_step. cbn. unfold quiet.
  by destruct (f (v_store v)).
Qed.

Lemma at_get {A} `{Serde A} s L k :
  triple (at_store s L) (v_get quiet (A:=A) k) (λ o v, o = get_typed s k ∧ at_store s L v) (at_store s L).
Proof. eapply triple_conseq; [apply at_read|done|]. cbn. by intros a v [[= <-] ?]. Qed.

Lemma at_ask {A} s L (f : nat → A) :
  triple (at_store s L) (n_ask quiet f) (λ a v, (∃ n, a = f n) ∧ at_store s L v) (at_store s L).
Proof. intros v [<- HL]. unfold n_ask, mbind, st_bind, v_step. cbn. split; [by eexists|by split]. Qed.

Lemma at_client s L w : triple (at_store s L) (coder_client quiet w) (λ _, at_store s L) (at_store s L).
Proof.
  unfold coder_client. eapply triple_bind; [apply at_get|]. intros url. apply triple_pure. intros _.
  apply (triple_bind _ _ _ (λ _, at_store s L)).
  - case_match; [by apply triple_ret|]. eapply triple_conseq; [apply at_get|done|]. by intros a v [_ ?].
  - intros token. by apply triple_ret.
Qed.

Lemma at_slots s L :
  triple (at_store s L) (v_slots quiet) (λ m v, m = slots_in s ∧ at_store s L v) (at_store s L).
Proof.
  unfold v_slots. eapply triple_bind; [apply at_get|]. intros o. apply triple_pure. intros ->. by apply triple_ret.
Qed.

(** After the store was left at [s] but for one key. *)
Definition near (s : SharedStore) (k : string) (L : list Effect → Prop) (v : VState) : Prop :=
  (v_store v = s ∨ ∃ x, v_store v = set s k x) ∧ L (v_log v).

(** The chats opened so far are those of [l]. *)
Definition opened_as (l : list Effect) : list Effect → Prop := λ l', opened l' = opened l.

Lemma settle_keeps_chat w t role ws chat s l (L := opened_as l) :
  (∀ n, match c_get_chat w n chat with Ok (Some c) => chat_workspace_id c = ws | Ok None => False | _ => True end) →
  triple (at_store s L) (settle_existing_chat quiet w t role ws chat)
    (λ b v, b = false ∧ near s (action_key t role) L v) (near s (action_key t role) L).
Proof.
  intros Hget. assert (∀ v, at_store s L v → near s (action_key t role) L v) as Hnear by (intros v []; split; auto).
  unfold settle_existing_chat. eapply triple_bind; [eapply triple_fail; [apply at_ask|done]|].
  intros r. apply triple_pure. intros [n ->]. specialize (Hget n).
  destruct (c_get_chat w n chat) as [[c|]|e|]; [|done|apply triple_ret; by auto..].
  rewrite bool_decide_eq_true_2 by done. cbn [negb].
  eapply triple_bind; [eapply triple_fail; [apply at_get|done]|]. intros last. apply triple_pure. intros _.
  apply (triple_bind _ _ _ (λ _, at_store s L)).
  { unfold is_waiting_for_planning_gate, ticket_phase, gate_approved. eapply triple_fail; [|done].
    eapply triple_bind; [apply at_read|]. intros ph. apply triple_pure. intros _.
    case_bool_decide; [|by apply triple_ret]. eapply triple_bind; [apply at_read|]. intros b.
    apply triple_pure. intros _. by apply triple_ret. }
  intros gate. destruct (negb gate && _); [|apply triple_ret; by auto].
  intros v [<- HL]. unfold resume_chat, n_ask, mbind, st_bind, v_step. cbn. split; [done|]. split.
  - right. by eexists.
  - cbn. unfold L, opened_as, opened in *. rewrite List.filter_app. cbn. by rewrite app_nil_r.
Qed.

(** A ticket has one chat per role: as long as Coder does not report the chat on
    record gone or in another workspace - it answers with that chat, or fails to
    answer - looking after the assignment opens no second chat and keeps the record,
    however often lookups fail. *)
Theorem a_recorded_chat_is_not_duplicated w worker t slot chat ws v :
  managed w = false → slots_in (v_store v) !! worker = Some slot → slot_workspace_id slot = Some ws →
  get_typed (v_store v) (chat_key (tk_id t) (worker_role worker)) = Some chat →
  (∀ n, match c_get_chat w n chat with Ok (Some c) => chat_workspace_id c = ws | Ok None => False | _ => True end) →
  let v' := (create_chat_for_assignment quiet w worker t v).2 in
  opened (v_log v') = opened (v_log v) ∧
  get_typed (v_store v') (chat_key (tk_id t) (worker_role worker)) = Some chat.
Proof.
  intros Hm Hslot Hws Hchat Hget v'.
  set (role := worker_role worker). set (k := action_key (tk_id t) role).
  assert (near (v_store v) k (opened_as (v_log v)) v') as [Hs HL].
  { assert (∀ u, at_store (v_store v) (opened_as (v_log v)) u → near (v_store v) k (opened_as (v_log v)) u) as Hnear
      by (intros u []; split; auto).
    assert (triple (at_store (v_store v) (opened_as (v_log v))) (create_chat_for_assignment quiet w worker t)
      (λ _, near (v_store v) k (opened_as (v_log v))) (near (v_store v) k (opened_as (v_log v)))) as H;
      [|specialize (H v (conj eq_refl eq_refl)); subst v'; by destruct (create_chat_for_assignment _ _ _ _ _) as [[] ?]].
    unfold create_chat_for_assignment. fold role. cbv zeta. case_bool_decide; [apply triple_ret; by auto|]. rewrite Hm.
    eapply triple_bind; [eapply triple_fail; [apply at_client|done]|]. intros client.
    destruct client; [cbn [negb]|apply triple_ret; by auto].
    eapply triple_bind; [eapply triple_fail; [apply at_slots|done]|]. intros m. apply triple_pure. intros ->.
    rewrite Hslot. cbn [mbind option_bind]. rewrite Hws.
    eapply triple_bind; [eapply triple_fail; [apply at_get|done]|]. intros held. apply triple_pure. intros ->.
    fold role in Hchat. rewrite Hchat.
    eapply triple_bind; [by apply settle_keeps_chat|]. intros b. apply triple_pure. intros ->. by apply triple_ret. }
  split; [done|]. destruct Hs as [->|[x ->]]; [done|]. rewrite (get_typed_ext _ (v_store v)); [done|].
  apply get_set_ne. unfold k, action_key, chat_key, full_ticket_key. intros E.
  apply string_app_inv_l, string_app_inv_l in E. discriminate E.
Qed.

(** *** Reviewers *)

(** [l] continues [L] without a new chat. *)
Definition quietly (L l : list Effect) : Prop := ∃ m, l = L ++ m ∧ opened m = [].
(** [l] continues [L] with the end of [old] before any new chat. *)
Definition ended (old : string) (L l : list Effect) : Prop :=
  ∃ m r, l = L ++ m ++ r ∧ ArchiveChat old ∈ m ∧ opened m = [].

Lemma quietly_snoc L l e : opens e = false → quietly L l → quietly L (l ++ [e]).
Proof.
  intros He (m & -> & Hm). exists (m ++ [e]). rewrite app_assoc. split; [done|].
  unfold opened in *. rewrite List.filter_app, Hm. cbn. by rewrite He.
Qed.

Lemma ended_snoc old L l e : ended old L l → ended old L (l ++ [e]).
Proof. intros (m & r & -> & H). exists m, (r ++ [e]). by rewrite <- !app_assoc. Qed.

Lemma quietly_archive old L l : quietly L l → ended old L (l ++ [ArchiveChat old]).
Proof.
  intros (m & -> & Hm). exists (m ++ [ArchiveChat old]), []. rewrite app_nil_r, app_assoc. split; [done|].
  split; [apply elem_of_app; right; by apply list_elem_of_singleton|].
  unfold opened in *. by rewrite List.filter_app, Hm.
Qed.

(** Steps that leave the log alone. *)
Section logs.
Context (L : list Effect → Prop).
Let I (v : VState) : Prop := L (v_log v).

Lemma log_read {A} (f : SharedStore → result A) : keeps I (v_read quiet f).
Proof. intros v Hv. unfold v_read, mbind, st_bind, v_step. cbn. by destruct (f _). Qed.
Lemma log_write f : keeps I (v_write quiet f).
Proof. by intros v Hv. Qed.
Lemma log_call {A} (f : nat → result A) :
  triple I (n_call quiet f) (λ a v, (∃ n, f n = Ok a) ∧ I v) I.
Proof.
  intros v Hv. unfold n_call, n_ask, mbind, st_bind, v_step, st_lift. cbn. destruct (f _) eqn:Ef; [|done..]. eauto.
Qed.
Lemma log_call_keeps {A} (f : nat → result A) : keeps I (n_call quiet f).
Proof. eapply triple_conseq; [apply log_call|done|]. by intros a v [_ ?]. Qed.
Lemma log_effect e : (∀ l, L l → L (l ++ [e])) → keeps I (v_effect e).
Proof. intros He v Hv. apply He, Hv. Qed.
Lemma log_ensure b msg : keeps I (v_ensure b msg).
Proof. apply keeps_lift. Qed.
End logs.
#[local] Hint Resolve log_read log_write log_call_keeps log_ensure quietly_snoc ended_snoc : triple.
#[local] Hint Extern 2 (keeps _ (v_effect _)) => apply log_effect; intros ? ?; by eauto with triple : triple.

Lemma log_new_session w t k ws p old L :
  keeps (λ v, ended old L (v_log v)) (new_session quiet w t k ws p).
Proof. unfold new_session. keeps_auto. Qed.

Lemma log_continue w t k p old c L :
  keeps (λ v, quietly L (v_log v)) (continue_session quiet w t k p old c).
Proof. unfold continue_session. keeps_auto. Qed.

(** The outcome of replacing or continuing a reviewer. *)
Definition succeeded (w : World) (old : string) (L : list Effect) (v : VState) : Prop :=
  quietly L (v_log v) ∨ ended old L (v_log v) ∧ (∃ n, c_archive w n old = Ok tt).

Lemma triple_replace w t k ws p old c L :
  triple (λ v, quietly L (v_log v)) (replace_session quiet w t k ws p old c)
    (λ _, succeeded w old L)
    (λ v, succeeded w old L v ∨ ended old L (v_log v) ∧ opened (v_log v) = opened L).
Proof.
  unfold replace_session.
  set (Err' := λ v, succeeded w old L v ∨ ended old L (v_log v) ∧ opened (v_log v) = opened L).
  apply (triple_bind _ _ _ (λ _ v, quietly L (v_log v))).
  { apply (triple_fail _ _ _ (λ v, quietly L (v_log v))); [|by intros v; left; left].
    change (keeps (λ v, quietly L (v_log v)) (if busy_chat (chat_status c) then _ ← v_effect (InterruptChat old);
         _ ← n_call quiet (λ n, c_interrupt w n old);
         now ← n_call quiet (λ n, c_get_chat w n old);
         v_ensure (negb (is_some_and (λ x, busy_chat (chat_status x)) now))
           "Waiting for the old SENTINEL reviewer to stop before workspace replacement"
       else mret tt)). keeps_auto. }
  intros _. set (fresh := λ l, ended old L l ∧ opened l = opened L).
  apply (triple_bind _ _ _ (λ _ v, fresh (v_log v))).
  { intros v Hv. split; [by apply quietly_archive|]. destruct Hv as (m & Hm & Ho). cbn. rewrite Hm.
    unfold opened in *. rewrite !List.filter_app, Ho. cbn. by rewrite !app_nil_r. }
  intros _. eapply triple_bind.
  { apply (triple_fail _ _ _ (λ v, fresh (v_log v))); [apply log_call|]. by intros v H; right. }
  intros []. apply triple_pure. intros Harch.
  apply (triple_conseq _ (λ v, ended old L (v_log v)) _ _ (λ _ v, ended old L (v_log v))).
  - apply (triple_fail _ _ _ (λ v, ended old L (v_log v))); [|intros v H; left; right; by split].
    apply keeps_bind; [apply (log_write (ended old L))|intros _]. apply log_new_session.
  - by intros v [].
  - intros a v H. right. by split.
Qed.

(** A ticket has one reviewer at a time: once a reviewer conversation is on record
    and Coder does not report it gone, the next round either continues that
    conversation, or, when the reviewer was given another workspace, opens a new one
    only after asking Coder to archive the old one; a round that succeeds with a new
    conversation had that request confirmed.  When Coder cannot be asked, the round
    fails without opening anything. *)
Theorem one_reviewer_at_a_time w t k ws prompt old v r v' :
  get_typed (v_store v) (session_key t) = Some old → (∀ n, c_get_chat w n old ≠ Ok None) →
  continue_sentinel_review quiet w t k ws prompt v = (r, v') →
  (is_ok r = true → succeeded w old (v_log v) v') ∧
  (opened (v_log v') ≠ opened (v_log v) → ended old (v_log v) (v_log v') ∧ ∃ n, c_archive w n old = Ok tt).
Proof.
  intros Hsession Hget Hrun. set (L := v_log v). set (s := v_store v) in *.
  set (Er := λ v, succeeded w old L v ∨ ended old L (v_log v) ∧ opened (v_log v) = opened L).
  assert (triple (at_store s (quietly L)) (continue_sentinel_review quiet w t k ws prompt)
    (λ _, succeeded w old L) Er) as H.
  { assert (∀ v, at_store s (quietly L) v → Er v) as Hq by (intros u [_ Hu]; left; by left).
    unfold continue_sentinel_review.
    eapply triple_bind; [eapply triple_fail; [apply at_read|done]|]. intros pending. apply triple_pure. intros _.
    apply (triple_bind _ _ _ (λ _, at_store s (quietly L))); [by apply triple_lift|]. intros _.
    eapply triple_bind; [eapply triple_fail; [apply at_get|done]|]. intros held. apply triple_pure. intros ->.
    rewrite Hsession. cbv zeta. apply (triple_bind _ _ _ (λ o v, o = Some old ∧ at_store s (quietly L) v)).
    { by apply triple_ret. }
    intros o. apply triple_pure. intros ->.
    apply (triple_conseq _ (λ v, quietly L (v_log v)) _ _ (λ _, succeeded w old L)); [|by intros u [_ ?]|done].
    eapply triple_bind; [eapply triple_fail; [apply log_call|by intros u Hu; left; left]|].
    intros chat. apply triple_pure. intros [n Hn]. destruct chat as [c|]; [|by apply Hget in Hn].
    case_bool_decide; [|apply triple_replace].
    apply (triple_fail _ _ _ (λ v, quietly L (v_log v))); [|by intros u Hu; left; left].
    eapply triple_conseq; [apply log_continue|done|]. intros a u Hu. by left. }
  assert (at_store s (quietly L) v) as Hstart by (split; [done|exists []; by rewrite app_nil_r]).
  specialize (H v Hstart). rewrite Hrun in H.
  assert (Er v') as HEr by (destruct r; [by left|done..]). split.
  - intros Hr. by destruct r.
  - intros Hne. destruct HEr as [[(m & Hm & Ho)|H']|[_ H']]; [|done|done].
    exfalso. apply Hne. rewrite Hm. unfold L, opened in *. rewrite List.filter_app, Ho. apply app_nil_r.
Qed.

(** ** Issues and tickets *)

Definition dec_value (s : string) : N := fold_left dec_step (chars s) 0%N.

Lemma pad3_value n : dec_value (pad3 n) = n.
Proof. unfold dec_value, pad3. repeat case_match; cbn [chars]; apply pretty_value. Qed.

Lemma issue_ticket_id_inj n m : issue_ticket_id n = issue_ticket_id m → n = m.
Proof.
  unfold issue_ticket_id. intros E. apply string_app_inv_l in E. by rewrite <- (pad3_value n), E, pad3_value.
Qed.

Lemma pad3_digits n : all_chars is_ascii_digit (pad3 n) = true.
Proof. unfold pad3. repeat case_match; rewrite ?all_chars_app, ?pretty_digits; reflexivity. Qed.

Lemma parse_pad3 n : (n < U64_MOD)%N → parse_u64 (pad3 n) = Some n.
Proof.
  intros Hn. unfold parse_u64.
  assert (strip_prefix "+" (pad3 n) = None) as ->.
  { pose proof (pad3_digits n) as H. destruct (strip_prefix "+" (pad3 n)) eqn:E; [|done].
    apply strip_prefix_Some in E. rewrite E in H. discriminate H. }
  cbn [from_option]. rewrite pad3_digits. cbn [negb].
  assert (is_empty (pad3 n) = false) as ->.
  { unfold pad3. pose proof (pretty_nonempty n). repeat case_match; [done..|]. by destruct (pretty n). }
  cbn [orb]. change (fold_left _ _ 0%N) with (dec_value (pad3 n)). rewrite pad3_value. by apply N.ltb_lt in Hn as ->.
Qed.

(** Tickets and issues correspond: the ticket NEXUS makes of an issue determines
    the issue, and closing the ticket's issue after the merge closes exactly that
    issue of the configured repository. *)
Theorem the_issue_of_a_ticket_is_closed n m owner repo v :
  (n < U64_MOD)%N → parse_repository (get_typed (v_store v) "repository") = (owner, repo) →
  owner ≠ "" → repo ≠ "" →
  (issue_ticket_id n = issue_ticket_id m → n = m) ∧
  v_log (close_github_issue quiet (issue_ticket_id n) v).2 = v_log v ++ [CloseIssue owner repo n].
Proof.
  intros Hn Hrepo Ho Hr. split; [apply issue_ticket_id_inj|]. unfold close_github_issue, issue_ticket_id.
  rewrite strip_prefix_app. cbn [mbind option_bind]. rewrite parse_pad3 by done.
  unfold v_get, v_read, v_await, mbind, st_bind, v_step, quiet. cbn. rewrite Hrepo.
  assert (is_empty owner || is_empty repo = false) as ->; [|done].
  by destruct owner, repo.
Qed.

Lemma find_ticket_None t l : find_ticket t l = None ↔ t ∉ (tk_id <$> l).
Proof.
  unfold find_ticket. split.
  - intros H Hin. apply list_elem_of_fmap in Hin as (x & -> & Hx). apply list_elem_of_In in Hx.
    eapply List.find_none in H; [|exact Hx]. unfold has_id in H. by rewrite bool_decide_eq_true_2 in H.
  - intros H. destruct (List.find _ l) as [x|] eqn:E; [|done]. apply find_ticket_Some in E as [Hx Ex].
    exfalso. apply H. rewrite <- Ex. by apply list_elem_of_fmap_2.
Qed.

Lemma track_keeps i l t : t ∈ (tk_id <$> l) → t ∈ (tk_id <$> track_issue l i).
Proof. intros H. unfold track_issue. cbv zeta. case_match; [done|]. rewrite fmap_app. apply elem_of_app. by left. Qed.

Lemma tracks_keep issues : ∀ l t, t ∈ (tk_id <$> l) → t ∈ (tk_id <$> fold_left track_issue issues l).
Proof. induction issues as [|i rest IH]; intros l t H; cbn; [done|]. by apply IH, track_keeps. Qed.

Lemma track_fixed i l : (i_is_pr i = false → issue_ticket_id (i_number i) ∈ (tk_id <$> l)) → track_issue l i = l.
Proof.
  intros H. unfold track_issue. cbv zeta. destruct (i_is_pr i); [done|]. cbn.
  destruct (find_ticket _ l) eqn:E; [done|]. apply find_ticket_None in E. by destruct (E (H eq_refl)).
Qed.

Lemma track_new i l : i_is_pr i = false → issue_ticket_id (i_number i) ∈ (tk_id <$> track_issue l i).
Proof.
  intros Hp. unfold track_issue. cbv zeta. rewrite Hp. cbn [orb].
  destruct (find_ticket _ l) eqn:E.
  - apply find_ticket_Some in E as [Hx <-]. by apply list_elem_of_fmap_2.
  - change (is_some None) with false. cbv iota. rewrite fmap_app. apply elem_of_app. right. by apply list_elem_of_singleton.
Qed.

Lemma tracks_all issues : ∀ l i, i ∈ issues → i_is_pr i = false →
  issue_ticket_id (i_number i) ∈ (tk_id <$> fold_left track_issue issues l).
Proof.
  induction issues as [|j rest IH]; intros l i Hi Hp; [by apply elem_of_nil in Hi|]. cbn.
  apply elem_of_cons in Hi as [->|Hi]; [|by apply IH]. by apply tracks_keep, track_new.
Qed.

(** Issues become tickets once: synchronising the open issues appends to the
    ticket list and changes none of its entries; the new entries are open, have
    distinct identifiers that no entry had, and stand for open issues that are not
    pull requests; afterwards every such issue has its ticket, and synchronising the
    same issues again changes nothing. *)
Theorem issues_become_tickets_once issues tickets (l := fold_left track_issue issues tickets) :
  (∃ new, l = tickets ++ new ∧ NoDup (tk_id <$> new) ∧
    ∀ x, x ∈ new → tk_status x = Open ∧ tk_id x ∉ (tk_id <$> tickets) ∧
      ∃ i, i ∈ issues ∧ i_is_pr i = false ∧ tk_id x = issue_ticket_id (i_number i)) ∧
  (∀ i, i ∈ issues → i_is_pr i = false → issue_ticket_id (i_number i) ∈ (tk_id <$> l)) ∧
  fold_left track_issue issues l = l.
Proof.
  split; [|split; [intros; by apply tracks_all|]].
  - subst l. revert tickets. induction issues as [|i rest IH]; intros l; cbn.
    + exists []. rewrite app_nil_r. split_and!; [done|constructor|]. intros x Hx. by apply elem_of_nil in Hx.
    + destruct (IH (track_issue l i)) as (new & Hnew & Hnd & Hall). unfold track_issue in Hnew, Hall |- *. cbv zeta in *.
      destruct (i_is_pr i || _) eqn:Hb.
      * exists new. split; [done|]. split; [done|]. intros x Hx. destruct (Hall x Hx) as (? & ? & j & ? & ?).
        split_and!; [done|done|]. exists j. rewrite elem_of_cons. auto.
      * apply orb_false_iff in Hb as [Hp Hf]. destruct (find_ticket _ l) eqn:Ef; [done|]. apply find_ticket_None in Ef.
        eexists (_ :: new). rewrite Hnew, <- app_assoc. split; [done|]. split.
        -- rewrite fmap_cons. apply NoDup_cons. split; [|done]. intros Hin.
           apply list_elem_of_fmap in Hin as (x & Ex & Hx). destruct (Hall x Hx) as (_ & Hx' & _). apply Hx'.
           rewrite <- Ex, fmap_app. apply elem_of_app. right. by apply list_elem_of_singleton.
        -- intros x Hx. apply elem_of_cons in Hx as [->|Hx].
           ++ cbn. split_and!; [done|done|]. exists i. rewrite elem_of_cons. auto.
           ++ destruct (Hall x Hx) as (? & Hx' & j & ? & ?). rewrite fmap_app, not_elem_of_app in Hx'.
              split_and!; [done|tauto|]. exists j. rewrite elem_of_cons. auto.
  - assert (∀ some, (∀ i, i ∈ some → i_is_pr i = false → issue_ticket_id (i_number i) ∈ (tk_id <$> l)) →
      fold_left track_issue some l = l) as H; [|apply H; intros; by apply tracks_all].
    induction some as [|i rest IH]; intros Hi; cbn; [done|].
    rewrite track_fixed by (apply Hi, elem_of_cons; by left). apply IH. intros j Hj. apply Hi, elem_of_cons. by right.
Qed.

Lemma pad3_length n : 3 <= String.length (pad3 n).
Proof.
  assert (∀ x s, String.length s <= String.length (pretty_N_go x s)) as Hgo.
  { intros x. induction (N.lt_wf_0 x) as [x _ IH]. intros s. destruct (decide (x = 0)%N) as [->|Hx].
    - by rewrite pretty_N_go_0.
    - rewrite pretty_N_go_step by lia. etrans; [|apply IH, N.div_lt; lia]. cbn. lia. }
  assert (∀ a k : N, (10 * k <= a)%N → (k <= a / 10)%N) as Hdiv by (intros; by apply N.div_le_lower_bound).
  pose proof (pretty_nonempty n) as Hne. unfold pad3. destruct (N.ltb_spec n 10); [|destruct (N.ltb_spec n 100)].
  - rewrite string_length_app. destruct (pretty n); [done|]. cbn [String.length]. lia.
  - rewrite string_length_app. unfold pretty, pretty_N. rewrite decide_False by lia.
    pose proof (Hdiv n 1%N). rewrite (pretty_N_go_step n), (pretty_N_go_step (n / 10)) by lia.
    pose proof (Hgo (n / 10 / 10)%N (String (pretty_N_char ((n / 10) `mod` 10)) (String (pretty_N_char (n `mod` 10)) ""))) as H2.
    cbn [String.length] in *. lia.
  - unfold pretty, pretty_N. rewrite decide_False by lia. pose proof (Hdiv n 10%N). pose proof (Hdiv (n / 10)%N 1%N).
    rewrite (pretty_N_go_step n), (pretty_N_go_step (n / 10)), (pretty_N_go_step (n / 10 / 10)) by lia.
    etrans; [|apply Hgo]. cbn [String.length]. lia.
Qed.

Lemma short_pretty n : (n < 100)%N → String.length (pretty n) <= 2.
Proof.
  intros Hn. assert (∀ k : nat, k < 100 → String.length (pretty (N.of_nat k)) <= 2) as H.
  { intros k Hk. assert (Forall (λ k, String.length (pretty (N.of_nat k)) <= 2) (seq 0 100)) as HF.
    { apply (bool_decide_unpack _). vm_compute. exact I. }
    rewrite Forall_forall in HF. apply HF, elem_of_seq. lia. }
  rewrite <- (N2Nat.id n). apply H. lia.
Qed.

(** A pull request that names its issue only as [#n], with [n] below one hundred,
    belongs to no ticket: the client makes the identifier [T-n] of it, while tickets
    of issues are numbered with three digits, so the identifier is nobody's.  Such a
    pull request is never linked to the ticket it was opened for. *)
Theorem short_issue_references_are_lost title body branch n :
  (n < 100)%N →
  capture_digits "T-" title = None → body ≫= capture_digits "T-" = None → capture_digits "T-" branch = None →
  capture_digits "#" title = Some (pretty n) →
  extract_ticket_id title body branch = Some ("T-" +:+ pretty n) ∧ ∀ m, issue_ticket_id m ≠ "T-" +:+ pretty n.
Proof.
  intros Hn H1 H2 H3 H4. split.
  - unfold extract_ticket_id, first_some. rewrite H1, H2, H3, H4. reflexivity.
  - intros m E. unfold issue_ticket_id in E. apply string_app_inv_l in E.
    pose proof (pad3_length m) as Hm. rewrite E in Hm. pose proof (short_pretty n Hn). lia.
Qed.

(** * Passes of the controller on concrete stores

    A small team, a ticket handed to a human whose pull request is still open, and a
    ticket that can be worked on. *)

Module Office.
Definition one : u32 := dexist 1%N eq_refl.
Definition team : Registry :=
  mkRegistry "claude" [] [mkEntry "forge" true one "" None None None None None;
                          mkEntry "sentinel" true one "" None None None None None].

Definition pr70 : PrInfo := mkPr 70 "abc" "forge-1/T-007" "main" (Some "T-007") "Fix T-007" None (Some true).
Definition complaint : PrReview :=
  mkReview "CHANGES_REQUESTED" (Some "alice") (Some "2026-01-01T00:00:00Z") None (Some "abc") (Some "MEMBER").
Definition chat1 : Chat := mkChat "chat-1" "ws-1" "running" [].

(** GitHub answers; of Coder only the chats are there. *)
Definition world : World := {|
  managed := false; env_repository := Some "acme/app"; env_coder_url := Some "https://coder";
  env_session_token := Some "token"; env_api_token := None; getenv := λ _, None; hook_secret := Some "s";
  sha256 := λ s, s; uuid := λ n, pretty (N.of_nat n); now_ms := λ n, N.of_nat n;
  slot_order := map_to_list; gate_order := map_to_list; registry := Ok team;
  url_parse := λ _, Err "no url"; external_token := Ok None; gh_token := λ _, Ok tt;
  gh_user := λ _ _, Err "offline"; gh_has_marker := λ _, Ok false; gh_comment := λ _, Ok tt;
  gh_assign := λ _ _, Ok tt; gh_issues := λ _, Ok [mkIssue 8 "Add login" None "https://github.com/acme/app/issues/8" false];
  gh_open_prs := λ _, Ok [pr70]; gh_reviews := λ _ _, Ok [complaint]; gh_has_workflows := λ _, Ok true;
  local_ci := false; c_list_chats := λ _, Ok []; c_get_chat := λ _ _, Ok (Some chat1);
  c_create_chat := λ _, Ok chat1; c_send := λ _ _, Ok tt; c_archive := λ _ _, Ok tt; c_interrupt := λ _ _, Ok tt;
  c_default_org := λ _, Ok "org"; c_create_workspace := λ _, Ok "ws-1"; c_wait_ready := λ _ _, Ok tt; c_wait_ssh := λ _ _, Ok tt;
  c_get_workspace := λ _ _, Err "offline"; c_delete := λ _ _, Ok tt; c_start := λ _ _, Ok tt; c_stop := λ _ _, Ok tt;
  c_provision_role := λ _ _, Ok tt; assignment_prompt := λ _ _, "work"; m_worker_status := λ _ _, Err "none";
  m_request_worker := λ _, Err "none"; m_delete_worker := λ _ _, Err "none"; m_create_chat := λ _, Err "none";
  m_send := λ _ _, Err "none" |}.

Definition wording : Message → string := λ _, "news".

Definition escalated : Ticket :=
  mkTicket "T-007" "Crash" "" u32_0 None (AwaitingHuman "forge-1" "stuck" one) None one.
Definition forge1 : WorkerSlot := mkSlot "forge-1" Idle None.

Definition store : SharedStore :=
  set (set (set new_in_memory KEY_TICKETS (to_value [escalated]))
         KEY_WORKER_SLOTS (to_value ({[ "forge-1" := forge1 ]} : gmap string WorkerSlot)))
    (address_review_dispatched_key 70) (VString "abc").
Definition start : VState := mkVState store 0 [].

Definition E (t : string) : Prop := t = "T-007".
Definition D (n : u64) : option string := if (n =? 70)%N then Some "abc" else None.

Lemma order_ok m e : e ∈ slot_order world m → m !! e.1 = Some e.2.
Proof. destruct e. apply elem_of_map_to_list. Qed.

Lemma store_tickets : tickets_in store = [escalated].
Proof. unfold store. rewrite 2!tickets_in_ne by done. apply tickets_in_set. Qed.

Lemma store_slots : slots_in store = {[ "forge-1" := forge1 ]}.
Proof. unfold store. rewrite slots_in_ne by done. apply slots_in_set. Qed.

Lemma store_named : slots_named (slots_in store).
Proof. rewrite store_slots. intros k s H. apply lookup_singleton_Some in H as [<- <-]. reflexivity. Qed.

Lemma store_ok : nexus_ok E D unconstrained store.
Proof.
  split.
  - apply store_named.
  - intros t ->. rewrite store_tickets. split.
    + exists escalated. split; [by apply list_elem_of_singleton|reflexivity].
    + intros x Hx _. apply list_elem_of_singleton in Hx as ->. reflexivity.
  - intros n h. unfold D. destruct (N.eqb_spec n 70) as [->|]; [|done]. intros [= <-].
    apply (bool_decide_unpack _). vm_compute. exact I.
  - done.
Qed.

Definition run : result string * VState := nexus_pass quiet clock world wording start.
End Office.

Lemma escalated_tickets_stay_with_the_human_witness :
  Office.run.1 = Ok "work_assigned" ∧
  waiting (tickets_in (v_store (nexus_pass quiet clock Office.world Office.wording Office.start).2)) "T-007".
Proof.
  split; [vm_compute; reflexivity|].
  apply (escalated_tickets_stay_with_the_human quiet clock Office.world Office.wording Office.E Office.D Office.start "T-007").
  - intros n s H. exact H.
  - exact Office.order_ok.
  - intros n prs [= <-]. apply Forall_singleton. intros t [= <-] _. split; [|reflexivity].
    intros k. vm_compute. reflexivity.
  - intros u ->. reflexivity.
  - exact Office.store_ok.
  - reflexivity.
Defined.

Lemma slots_stay_under_their_names_witness :
  dom (slots_in (v_store Office.run.2)) = {["forge-1"; "sentinel"]} ∧
  slots_named (slots_in (v_store (nexus_pass quiet clock Office.world Office.wording Office.start).2)).
Proof.
  split; [vm_compute; reflexivity|].
  apply (slots_stay_under_their_names quiet clock Office.world Office.wording Office.start).
  - intros n s H. exact H.
  - exact Office.order_ok.
  - exact Office.store_named.
Defined.

Lemma nexus_gives_no_verdict_witness :
  let s' := v_store (nexus_pass quiet clock Office.world Office.wording Office.start).2 in
  lifecycle s' "T-008" = lifecycle (v_store Office.start) "T-008" ∨
  Store.get s' (status_key "T-008") = Some (VString "awaiting_human").
Proof.
  apply (nexus_gives_no_verdict clock Office.world Office.wording Office.start "T-008").
  - exact Office.order_ok.
  - exact Office.store_named.
  - reflexivity.
Defined.

(** A ticket whose head is reviewed and mergeable, at the moment it is escalated. *)
Module Escalation.
Definition submitted : Ticket := mkTicket "T-42" "Add login" "" u32_0 None (InProgress "forge-1") None u32_0.
Definition busy : WorkerSlot := mkSlot "forge-1" (Working "T-42" None) (Some "ws-1").
Definition store : SharedStore :=
  set (set (set new_in_memory (status_key "T-42") (to_value LifecycleProps.mergeable))
         KEY_TICKETS (to_value [submitted]))
    KEY_WORKER_SLOTS (to_value ({[ "forge-1" := busy ]} : gmap string WorkerSlot)).
Definition start : VState := mkVState store 0 [].
Definition after : VState := (mark_ticket_awaiting_human quiet Office.world "T-42" "forge-1" "crashed" start).2.
Definition pr : Value := VObject [("number", VPosInt 42); ("ticket_id", VString "T-42")].

Lemma ran : mark_ticket_awaiting_human quiet Office.world "T-42" "forge-1" "crashed" start = (Ok tt, after).
Proof.
  unfold after. destruct (mark_ticket_awaiting_human quiet Office.world "T-42" "forge-1" "crashed" start) as [r v] eqn:Er.
  assert (r = (mark_ticket_awaiting_human quiet Office.world "T-42" "forge-1" "crashed" start).1) as -> by (by rewrite Er).
  cbn [snd]. f_equal.
Qed.

Lemma submitted_tickets : tickets_in store = [submitted].
Proof. unfold store. rewrite tickets_in_ne by done. apply tickets_in_set. Qed.
Lemma submitted_named : slots_named (slots_in store).
Proof.
  unfold store. rewrite slots_in_set. intros k s H. apply lookup_singleton_Some in H as [<- <-]. reflexivity.
Qed.
End Escalation.

Lemma escalation_erases_the_record_witness :
  (ready_for_vessel quiet Escalation.pr Escalation.start).1 = Ok true ∧
  lifecycle (v_store Escalation.after) "T-42" = Ok forgotten ∧
  (ready_for_vessel quiet Escalation.pr Escalation.after).1 = Ok false.
Proof.
  split; [vm_compute; reflexivity|].
  destruct (escalation_erases_the_record Office.world "T-42" "forge-1" "crashed" Escalation.start Escalation.after)
    as (H1 & _ & H3).
  - reflexivity.
  - reflexivity.
  - exact Escalation.submitted_named.
  - change (v_store Escalation.start) with Escalation.store. rewrite Escalation.submitted_tickets. intros x [= <-]. reflexivity.
  - exact Escalation.ran.
  - split; [exact H1|]. apply H3. reflexivity.
Defined.

(** A chat on record while Coder does not answer. *)
Module Outage.
Definition world : World := {|
  managed := false; env_repository := None; env_coder_url := Some "https://coder";
  env_session_token := Some "token"; env_api_token := None; getenv := λ _, None; hook_secret := None;
  sha256 := λ s, s; uuid := λ _, ""; now_ms := λ _, 0%N; slot_order := map_to_list; gate_order := map_to_list;
  registry := Ok Office.team; url_parse := λ _, Err "no url"; external_token := Ok None; gh_token := λ _, Ok tt;
  gh_user := λ _ _, Err "offline"; gh_has_marker := λ _, Ok false; gh_comment := λ _, Ok tt; gh_assign := λ _ _, Ok tt;
  gh_issues := λ _, Ok []; gh_open_prs := λ _, Ok []; gh_reviews := λ _ _, Ok []; gh_has_workflows := λ _, Ok true;
  local_ci := false; c_list_chats := λ _, Ok [];
  c_get_chat := λ n _, if Nat.even n then Err "offline" else Ok (Some (mkChat "chat-1" "ws-2" "waiting" []));
  c_create_chat := λ _, Ok (mkChat "chat-2" "ws-1" "running" []); c_send := λ _ _, Ok tt; c_archive := λ _ _, Ok tt;
  c_interrupt := λ _ _, Ok tt; c_default_org := λ _, Ok "org"; c_create_workspace := λ _, Ok "ws-1";
  c_wait_ready := λ _ _, Ok tt; c_wait_ssh := λ _ _, Ok tt; c_get_workspace := λ _ _, Err "offline"; c_delete := λ _ _, Ok tt;
  c_start := λ _ _, Ok tt; c_stop := λ _ _, Ok tt; c_provision_role := λ _ _, Ok tt;
  assignment_prompt := λ _ _, "work"; m_worker_status := λ _ _, Err "none"; m_request_worker := λ _, Err "none";
  m_delete_worker := λ _ _, Err "none"; m_create_chat := λ _, Err "none"; m_send := λ _ _, Err "none" |}.

Definition slot : WorkerSlot := mkSlot "forge-1" (WAssigned "T-008" None) (Some "ws-2").
Definition ticket : Ticket := mkTicket "T-008" "Add login" "" u32_0 None (Assigned "forge-1") None u32_0.
Definition store : SharedStore :=
  set (set new_in_memory KEY_WORKER_SLOTS (to_value ({[ "forge-1" := slot ]} : gmap string WorkerSlot)))
    (chat_key "T-008" "forge") (VString "chat-1").
Definition start : VState := mkVState store 0 [].

(** The reviewer's session, in another workspace than the one it is given now. *)
Definition review : VState := mkVState (set new_in_memory (session_key "T-008") (VString "chat-1")) 0 [].
Definition reviewed : result Chat * VState := continue_sentinel_review quiet world "T-008" "round" "ws-1" "again" review.
End Outage.

Lemma a_recorded_chat_is_not_duplicated_witness :
  let v' := (create_chat_for_assignment quiet Outage.world "forge-1" Outage.ticket Outage.start).2 in
  opened (v_log v') = [] ∧ get_typed (v_store v') (chat_key "T-008" "forge") = Some "chat-1".
Proof.
  apply (a_recorded_chat_is_not_duplicated Outage.world "forge-1" Outage.ticket Outage.slot "chat-1" "ws-2" Outage.start).
  - reflexivity.
  - change (v_store Outage.start) with Outage.store. unfold Outage.store. rewrite slots_in_ne by done.
    rewrite slots_in_set. apply lookup_singleton_eq.
  - reflexivity.
  - vm_compute. reflexivity.
  - intros n. cbn. destruct (Nat.even n); done.
Defined.

Lemma one_reviewer_at_a_time_witness :
  v_log Outage.reviewed.2 = [ArchiveChat "chat-1"; CreateChat "ws-1" "T-008" "again"] ∧
  ended "chat-1" [] (v_log Outage.reviewed.2).
Proof.
  split; [vm_compute; reflexivity|].
  apply (one_reviewer_at_a_time Outage.world "T-008" "round" "ws-1" "again" "chat-1" Outage.review
    Outage.reviewed.1 Outage.reviewed.2).
  - vm_compute. reflexivity.
  - intros n. cbn. by destruct (Nat.even n).
  - unfold Outage.reviewed. by destruct (continue_sentinel_review _ _ _ _ _ _ _).
  - vm_compute. discriminate.
Defined.

Lemma the_issue_of_a_ticket_is_closed_witness :
  issue_ticket_id 7 = "T-007" ∧
  v_log (close_github_issue quiet "T-007" (mkVState (set new_in_memory "repository" (VString "acme/app")) 0 [])).2
  = [CloseIssue "acme" "app" 7].
Proof.
  split; [vm_compute; reflexivity|].
  exact (proj2 (the_issue_of_a_ticket_is_closed 7 7 "acme" "app"
    (mkVState (set new_in_memory "repository" (VString "acme/app")) 0 []) eq_refl eq_refl ltac:(done) ltac:(done))).
Defined.

Lemma short_issue_references_are_lost_witness :
  extract_ticket_id "Fix login (#5)" None "feature" = Some "T-5" ∧ issue_ticket_id 5 ≠ "T-5".
Proof.
  destruct (short_issue_references_are_lost "Fix login (#5)" None "feature" 5) as [H1 H2]; try reflexivity.
  split; [exact H1|apply (H2 5%N)].
Defined.
