(* ===== verification/Schema.v ===== *)
(** * The manager's database

    The rows of the tables the manager's services use, with one update function
    per column, and the database as a record of tables.  A table is a finite map
    from its primary key; [tenant_quotas], the credentials of a tenant and
    similar tables are keyed by the column their unique index is on.  Columns
    that no modelled statement reads or writes are left out.  A [TEXT] column
    with a fixed set of values is a [string], as in the code; a time stamp is a
    count of microseconds.  A UUID is its canonical text, whose order is the
    order of the bytes. *)
From S2P Require Import Prelude Text Json.

Abbreviation uuid := string (only parsing).

(** A human user. *)
Record User := {
  u_display_name : string;
  u_status : string;
  u_created_at : Z;
  u_updated_at : Z;
}.

(** A provider identity of a user. *)
Record Identity := {
  i_user_id : uuid;
  i_provider : string;
  i_subject : string;
  i_login_snapshot : option string;
}.
Definition i_set_login_snapshot (v : option string) (x : Identity) : Identity :=
  {| i_user_id := i_user_id x; i_provider := i_provider x; i_subject := i_subject x;
     i_login_snapshot := v |}.

(** An organization. *)
Record Organization := {
  o_slug : string;
  o_display_name : string;
  o_owner_user_id : uuid;
  o_status : string;
  o_coder_organization_id : option string;
  o_provisioner_status : option string;
  o_model_capability_ok : option bool;
  o_last_readiness_error : option string;
  o_updated_at : Z;
}.
Definition o_set_display_name (v : string) (x : Organization) : Organization :=
  {| o_slug := o_slug x; o_display_name := v; o_owner_user_id := o_owner_user_id x;
     o_status := o_status x; o_coder_organization_id := o_coder_organization_id x;
     o_provisioner_status := o_provisioner_status x; o_model_capability_ok :=
     o_model_capability_ok x; o_last_readiness_error := o_last_readiness_error x;
     o_updated_at := o_updated_at x |}.
Definition o_set_owner_user_id (v : uuid) (x : Organization) : Organization :=
  {| o_slug := o_slug x; o_display_name := o_display_name x; o_owner_user_id := v;
     o_status := o_status x; o_coder_organization_id := o_coder_organization_id x;
     o_provisioner_status := o_provisioner_status x; o_model_capability_ok :=
     o_model_capability_ok x; o_last_readiness_error := o_last_readiness_error x;
     o_updated_at := o_updated_at x |}.
Definition o_set_status (v : string) (x : Organization) : Organization :=
  {| o_slug := o_slug x; o_display_name := o_display_name x; o_owner_user_id :=
     o_owner_user_id x; o_status := v; o_coder_organization_id :=
     o_coder_organization_id x; o_provisioner_status := o_provisioner_status x;
     o_model_capability_ok := o_model_capability_ok x; o_last_readiness_error :=
     o_last_readiness_error x; o_updated_at := o_updated_at x |}.
Definition o_set_coder_organization_id (v : option string) (x : Organization) : Organization :=
  {| o_slug := o_slug x; o_display_name := o_display_name x; o_owner_user_id :=
     o_owner_user_id x; o_status := o_status x; o_coder_organization_id := v;
     o_provisioner_status := o_provisioner_status x; o_model_capability_ok :=
     o_model_capability_ok x; o_last_readiness_error := o_last_readiness_error x;
     o_updated_at := o_updated_at x |}.
Definition o_set_model_capability_ok (v : option bool) (x : Organization) : Organization :=
  {| o_slug := o_slug x; o_display_name := o_display_name x; o_owner_user_id :=
     o_owner_user_id x; o_status := o_status x; o_coder_organization_id :=
     o_coder_organization_id x; o_provisioner_status := o_provisioner_status x;
     o_model_capability_ok := v; o_last_readiness_error := o_last_readiness_error x;
     o_updated_at := o_updated_at x |}.
Definition o_set_last_readiness_error (v : option string) (x : Organization) : Organization :=
  {| o_slug := o_slug x; o_display_name := o_display_name x; o_owner_user_id :=
     o_owner_user_id x; o_status := o_status x; o_coder_organization_id :=
     o_coder_organization_id x; o_provisioner_status := o_provisioner_status x;
     o_model_capability_ok := o_model_capability_ok x; o_last_readiness_error := v;
     o_updated_at := o_updated_at x |}.
Definition o_set_updated_at (v : Z) (x : Organization) : Organization :=
  {| o_slug := o_slug x; o_display_name := o_display_name x; o_owner_user_id :=
     o_owner_user_id x; o_status := o_status x; o_coder_organization_id :=
     o_coder_organization_id x; o_provisioner_status := o_provisioner_status x;
     o_model_capability_ok := o_model_capability_ok x; o_last_readiness_error :=
     o_last_readiness_error x; o_updated_at := v |}.

(** A membership, keyed by organization and user. *)
Record MembershipRow := {
  m_role : string;
  m_status : string;
  m_updated_at : Z;
}.
Definition m_set_role (v : string) (x : MembershipRow) : MembershipRow :=
  {| m_role := v; m_status := m_status x; m_updated_at := m_updated_at x |}.
Definition m_set_status (v : string) (x : MembershipRow) : MembershipRow :=
  {| m_role := m_role x; m_status := v; m_updated_at := m_updated_at x |}.
Definition m_set_updated_at (v : Z) (x : MembershipRow) : MembershipRow :=
  {| m_role := m_role x; m_status := m_status x; m_updated_at := v |}.

(** An invitation. *)
Record Invitation := {
  inv_organization_id : uuid;
  inv_invitee_github_user_id : Z;
  inv_invitee_login : option string;
  inv_role : string;
  inv_token_hash : string;
  inv_invited_by : option uuid;
  inv_expires_at : Z;
  inv_accepted_at : option Z;
  inv_revoked_at : option Z;
  inv_created_at : Z;
}.
Definition inv_set_invitee_login (v : option string) (x : Invitation) : Invitation :=
  {| inv_organization_id := inv_organization_id x; inv_invitee_github_user_id :=
     inv_invitee_github_user_id x; inv_invitee_login := v; inv_role := inv_role x;
     inv_token_hash := inv_token_hash x; inv_invited_by := inv_invited_by x;
     inv_expires_at := inv_expires_at x; inv_accepted_at := inv_accepted_at x;
     inv_revoked_at := inv_revoked_at x; inv_created_at := inv_created_at x |}.
Definition inv_set_accepted_at (v : option Z) (x : Invitation) : Invitation :=
  {| inv_organization_id := inv_organization_id x; inv_invitee_github_user_id :=
     inv_invitee_github_user_id x; inv_invitee_login := inv_invitee_login x; inv_role :=
     inv_role x; inv_token_hash := inv_token_hash x; inv_invited_by := inv_invited_by x;
     inv_expires_at := inv_expires_at x; inv_accepted_at := v; inv_revoked_at :=
     inv_revoked_at x; inv_created_at := inv_created_at x |}.
Definition inv_set_revoked_at (v : option Z) (x : Invitation) : Invitation :=
  {| inv_organization_id := inv_organization_id x; inv_invitee_github_user_id :=
     inv_invitee_github_user_id x; inv_invitee_login := inv_invitee_login x; inv_role :=
     inv_role x; inv_token_hash := inv_token_hash x; inv_invited_by := inv_invited_by x;
     inv_expires_at := inv_expires_at x; inv_accepted_at := inv_accepted_at x;
     inv_revoked_at := v; inv_created_at := inv_created_at x |}.

(** A browser or CLI session. *)
Record Session := {
  s_user_id : uuid;
  s_kind : string;
  s_access_hash : string;
  s_access_expires_at : Z;
  s_refresh_hash : string;
  s_refresh_expires_at : Z;
  s_family_id : uuid;
  s_revoked_at : option Z;
  s_last_used_at : option Z;
  s_last_authenticated_at : option Z;
  s_created_at : Z;
}.
Definition s_set_access_hash (v : string) (x : Session) : Session :=
  {| s_user_id := s_user_id x; s_kind := s_kind x; s_access_hash := v;
     s_access_expires_at := s_access_expires_at x; s_refresh_hash := s_refresh_hash x;
     s_refresh_expires_at := s_refresh_expires_at x; s_family_id := s_family_id x;
     s_revoked_at := s_revoked_at x; s_last_used_at := s_last_used_at x;
     s_last_authenticated_at := s_last_authenticated_at x; s_created_at := s_created_at
     x |}.
Definition s_set_access_expires_at (v : Z) (x : Session) : Session :=
  {| s_user_id := s_user_id x; s_kind := s_kind x; s_access_hash := s_access_hash x;
     s_access_expires_at := v; s_refresh_hash := s_refresh_hash x; s_refresh_expires_at
     := s_refresh_expires_at x; s_family_id := s_family_id x; s_revoked_at :=
     s_revoked_at x; s_last_used_at := s_last_used_at x; s_last_authenticated_at :=
     s_last_authenticated_at x; s_created_at := s_created_at x |}.
Definition s_set_refresh_hash (v : string) (x : Session) : Session :=
  {| s_user_id := s_user_id x; s_kind := s_kind x; s_access_hash := s_access_hash x;
     s_access_expires_at := s_access_expires_at x; s_refresh_hash := v;
     s_refresh_expires_at := s_refresh_expires_at x; s_family_id := s_family_id x;
     s_revoked_at := s_revoked_at x; s_last_used_at := s_last_used_at x;
     s_last_authenticated_at := s_last_authenticated_at x; s_created_at := s_created_at
     x |}.
Definition s_set_refresh_expires_at (v : Z) (x : Session) : Session :=
  {| s_user_id := s_user_id x; s_kind := s_kind x; s_access_hash := s_access_hash x;
     s_access_expires_at := s_access_expires_at x; s_refresh_hash := s_refresh_hash x;
     s_refresh_expires_at := v; s_family_id := s_family_id x; s_revoked_at :=
     s_revoked_at x; s_last_used_at := s_last_used_at x; s_last_authenticated_at :=
     s_last_authenticated_at x; s_created_at := s_created_at x |}.
Definition s_set_revoked_at (v : option Z) (x : Session) : Session :=
  {| s_user_id := s_user_id x; s_kind := s_kind x; s_access_hash := s_access_hash x;
     s_access_expires_at := s_access_expires_at x; s_refresh_hash := s_refresh_hash x;
     s_refresh_expires_at := s_refresh_expires_at x; s_family_id := s_family_id x;
     s_revoked_at := v; s_last_used_at := s_last_used_at x; s_last_authenticated_at :=
     s_last_authenticated_at x; s_created_at := s_created_at x |}.
Definition s_set_last_used_at (v : option Z) (x : Session) : Session :=
  {| s_user_id := s_user_id x; s_kind := s_kind x; s_access_hash := s_access_hash x;
     s_access_expires_at := s_access_expires_at x; s_refresh_hash := s_refresh_hash x;
     s_refresh_expires_at := s_refresh_expires_at x; s_family_id := s_family_id x;
     s_revoked_at := s_revoked_at x; s_last_used_at := v; s_last_authenticated_at :=
     s_last_authenticated_at x; s_created_at := s_created_at x |}.
Definition s_set_last_authenticated_at (v : option Z) (x : Session) : Session :=
  {| s_user_id := s_user_id x; s_kind := s_kind x; s_access_hash := s_access_hash x;
     s_access_expires_at := s_access_expires_at x; s_refresh_hash := s_refresh_hash x;
     s_refresh_expires_at := s_refresh_expires_at x; s_family_id := s_family_id x;
     s_revoked_at := s_revoked_at x; s_last_used_at := s_last_used_at x;
     s_last_authenticated_at := v; s_created_at := s_created_at x |}.

(** A consumed refresh credential, keyed by its hash. *)
Record RefreshHistory := {
  rh_family_id : uuid;
  rh_consumed_at : Z;
  rh_expires_at : Z;
}.

(** A login transaction. *)
Record AuthTransaction := {
  at_purpose : string;
  at_state_hash : string;
  at_encrypted_pkce_verifier : option string;
  at_pkce_key_version : option Z;
  at_expires_at : Z;
  at_consumed_at : option Z;
}.
Definition at_set_consumed_at (v : option Z) (x : AuthTransaction) : AuthTransaction :=
  {| at_purpose := at_purpose x; at_state_hash := at_state_hash x;
     at_encrypted_pkce_verifier := at_encrypted_pkce_verifier x; at_pkce_key_version :=
     at_pkce_key_version x; at_expires_at := at_expires_at x; at_consumed_at := v |}.

(** A device login request. *)
Record CliLogin := {
  cl_device_secret_hash : string;
  cl_user_code_hash : string;
  cl_status : string;
  cl_approved_user_id : option uuid;
  cl_approved_authenticated_at : option Z;
  cl_expires_at : Z;
  cl_last_poll_at : option Z;
}.
Definition cl_set_status (v : string) (x : CliLogin) : CliLogin :=
  {| cl_device_secret_hash := cl_device_secret_hash x; cl_user_code_hash :=
     cl_user_code_hash x; cl_status := v; cl_approved_user_id := cl_approved_user_id x;
     cl_approved_authenticated_at := cl_approved_authenticated_at x; cl_expires_at :=
     cl_expires_at x; cl_last_poll_at := cl_last_poll_at x |}.
Definition cl_set_approved_user_id (v : option uuid) (x : CliLogin) : CliLogin :=
  {| cl_device_secret_hash := cl_device_secret_hash x; cl_user_code_hash :=
     cl_user_code_hash x; cl_status := cl_status x; cl_approved_user_id := v;
     cl_approved_authenticated_at := cl_approved_authenticated_at x; cl_expires_at :=
     cl_expires_at x; cl_last_poll_at := cl_last_poll_at x |}.
Definition cl_set_approved_authenticated_at (v : option Z) (x : CliLogin) : CliLogin :=
  {| cl_device_secret_hash := cl_device_secret_hash x; cl_user_code_hash :=
     cl_user_code_hash x; cl_status := cl_status x; cl_approved_user_id :=
     cl_approved_user_id x; cl_approved_authenticated_at := v; cl_expires_at :=
     cl_expires_at x; cl_last_poll_at := cl_last_poll_at x |}.
Definition cl_set_last_poll_at (v : option Z) (x : CliLogin) : CliLogin :=
  {| cl_device_secret_hash := cl_device_secret_hash x; cl_user_code_hash :=
     cl_user_code_hash x; cl_status := cl_status x; cl_approved_user_id :=
     cl_approved_user_id x; cl_approved_authenticated_at := cl_approved_authenticated_at
     x; cl_expires_at := cl_expires_at x; cl_last_poll_at := v |}.

(** A durable operation with its lease. *)
Record OperationRecord := {
  op_organization_id : uuid;
  op_resource_type : string;
  op_resource_id : option uuid;
  op_kind : string;
  op_idempotency_ref : option string;
  op_state : string;
  op_current_step : option string;
  op_attempt_count : Z;
  op_retry_at : option Z;
  op_lease_owner : option string;
  op_lease_expires_at : option Z;
  op_lease_token : option uuid;
  op_error_code : option string;
  op_sanitized_result : option Value;
  op_created_at : Z;
  op_updated_at : Z;
}.
Definition op_set_state (v : string) (x : OperationRecord) : OperationRecord :=
  {| op_organization_id := op_organization_id x; op_resource_type := op_resource_type x;
     op_resource_id := op_resource_id x; op_kind := op_kind x; op_idempotency_ref :=
     op_idempotency_ref x; op_state := v; op_current_step := op_current_step x;
     op_attempt_count := op_attempt_count x; op_retry_at := op_retry_at x;
     op_lease_owner := op_lease_owner x; op_lease_expires_at := op_lease_expires_at x;
     op_lease_token := op_lease_token x; op_error_code := op_error_code x;
     op_sanitized_result := op_sanitized_result x; op_created_at := op_created_at x;
     op_updated_at := op_updated_at x |}.
Definition op_set_current_step (v : option string) (x : OperationRecord) : OperationRecord :=
  {| op_organization_id := op_organization_id x; op_resource_type := op_resource_type x;
     op_resource_id := op_resource_id x; op_kind := op_kind x; op_idempotency_ref :=
     op_idempotency_ref x; op_state := op_state x; op_current_step := v;
     op_attempt_count := op_attempt_count x; op_retry_at := op_retry_at x;
     op_lease_owner := op_lease_owner x; op_lease_expires_at := op_lease_expires_at x;
     op_lease_token := op_lease_token x; op_error_code := op_error_code x;
     op_sanitized_result := op_sanitized_result x; op_created_at := op_created_at x;
     op_updated_at := op_updated_at x |}.
Definition op_set_attempt_count (v : Z) (x : OperationRecord) : OperationRecord :=
  {| op_organization_id := op_organization_id x; op_resource_type := op_resource_type x;
     op_resource_id := op_resource_id x; op_kind := op_kind x; op_idempotency_ref :=
     op_idempotency_ref x; op_state := op_state x; op_current_step := op_current_step x;
     op_attempt_count := v; op_retry_at := op_retry_at x; op_lease_owner :=
     op_lease_owner x; op_lease_expires_at := op_lease_expires_at x; op_lease_token :=
     op_lease_token x; op_error_code := op_error_code x; op_sanitized_result :=
     op_sanitized_result x; op_created_at := op_created_at x; op_updated_at :=
     op_updated_at x |}.
Definition op_set_retry_at (v : option Z) (x : OperationRecord) : OperationRecord :=
  {| op_organization_id := op_organization_id x; op_resource_type := op_resource_type x;
     op_resource_id := op_resource_id x; op_kind := op_kind x; op_idempotency_ref :=
     op_idempotency_ref x; op_state := op_state x; op_current_step := op_current_step x;
     op_attempt_count := op_attempt_count x; op_retry_at := v; op_lease_owner :=
     op_lease_owner x; op_lease_expires_at := op_lease_expires_at x; op_lease_token :=
     op_lease_token x; op_error_code := op_error_code x; op_sanitized_result :=
     op_sanitized_result x; op_created_at := op_created_at x; op_updated_at :=
     op_updated_at x |}.
Definition op_set_lease_owner (v : option string) (x : OperationRecord) : OperationRecord :=
  {| op_organization_id := op_organization_id x; op_resource_type := op_resource_type x;
     op_resource_id := op_resource_id x; op_kind := op_kind x; op_idempotency_ref :=
     op_idempotency_ref x; op_state := op_state x; op_current_step := op_current_step x;
     op_attempt_count := op_attempt_count x; op_retry_at := op_retry_at x;
     op_lease_owner := v; op_lease_expires_at := op_lease_expires_at x; op_lease_token
     := op_lease_token x; op_error_code := op_error_code x; op_sanitized_result :=
     op_sanitized_result x; op_created_at := op_created_at x; op_updated_at :=
     op_updated_at x |}.
Definition op_set_lease_expires_at (v : option Z) (x : OperationRecord) : OperationRecord :=
  {| op_organization_id := op_organization_id x; op_resource_type := op_resource_type x;
     op_resource_id := op_resource_id x; op_kind := op_kind x; op_idempotency_ref :=
     op_idempotency_ref x; op_state := op_state x; op_current_step := op_current_step x;
     op_attempt_count := op_attempt_count x; op_retry_at := op_retry_at x;
     op_lease_owner := op_lease_owner x; op_lease_expires_at := v; op_lease_token :=
     op_lease_token x; op_error_code := op_error_code x; op_sanitized_result :=
     op_sanitized_result x; op_created_at := op_created_at x; op_updated_at :=
     op_updated_at x |}.
Definition op_set_lease_token (v : option uuid) (x : OperationRecord) : OperationRecord :=
  {| op_organization_id := op_organization_id x; op_resource_type := op_resource_type x;
     op_resource_id := op_resource_id x; op_kind := op_kind x; op_idempotency_ref :=
     op_idempotency_ref x; op_state := op_state x; op_current_step := op_current_step x;
     op_attempt_count := op_attempt_count x; op_retry_at := op_retry_at x;
     op_lease_owner := op_lease_owner x; op_lease_expires_at := op_lease_expires_at x;
     op_lease_token := v; op_error_code := op_error_code x; op_sanitized_result :=
     op_sanitized_result x; op_created_at := op_created_at x; op_updated_at :=
     op_updated_at x |}.
Definition op_set_error_code (v : option string) (x : OperationRecord) : OperationRecord :=
  {| op_organization_id := op_organization_id x; op_resource_type := op_resource_type x;
     op_resource_id := op_resource_id x; op_kind := op_kind x; op_idempotency_ref :=
     op_idempotency_ref x; op_state := op_state x; op_current_step := op_current_step x;
     op_attempt_count := op_attempt_count x; op_retry_at := op_retry_at x;
     op_lease_owner := op_lease_owner x; op_lease_expires_at := op_lease_expires_at x;
     op_lease_token := op_lease_token x; op_error_code := v; op_sanitized_result :=
     op_sanitized_result x; op_created_at := op_created_at x; op_updated_at :=
     op_updated_at x |}.
Definition op_set_sanitized_result (v : option Value) (x : OperationRecord) : OperationRecord :=
  {| op_organization_id := op_organization_id x; op_resource_type := op_resource_type x;
     op_resource_id := op_resource_id x; op_kind := op_kind x; op_idempotency_ref :=
     op_idempotency_ref x; op_state := op_state x; op_current_step := op_current_step x;
     op_attempt_count := op_attempt_count x; op_retry_at := op_retry_at x;
     op_lease_owner := op_lease_owner x; op_lease_expires_at := op_lease_expires_at x;
     op_lease_token := op_lease_token x; op_error_code := op_error_code x;
     op_sanitized_result := v; op_created_at := op_created_at x; op_updated_at :=
     op_updated_at x |}.
Definition op_set_updated_at (v : Z) (x : OperationRecord) : OperationRecord :=
  {| op_organization_id := op_organization_id x; op_resource_type := op_resource_type x;
     op_resource_id := op_resource_id x; op_kind := op_kind x; op_idempotency_ref :=
     op_idempotency_ref x; op_state := op_state x; op_current_step := op_current_step x;
     op_attempt_count := op_attempt_count x; op_retry_at := op_retry_at x;
     op_lease_owner := op_lease_owner x; op_lease_expires_at := op_lease_expires_at x;
     op_lease_token := op_lease_token x; op_error_code := op_error_code x;
     op_sanitized_result := op_sanitized_result x; op_created_at := op_created_at x;
     op_updated_at := v |}.

(** An outbox event with its lease. *)
Record OutboxEvent := {
  ob_organization_id : option uuid;
  ob_event_type : string;
  ob_payload : option Value;
  ob_attempts : Z;
  ob_lease_owner : option string;
  ob_lease_expires_at : option Z;
  ob_lease_token : option uuid;
  ob_delivered_at : option Z;
  ob_retry_at : option Z;
  ob_failed_at : option Z;
  ob_created_at : Z;
}.
Definition ob_set_attempts (v : Z) (x : OutboxEvent) : OutboxEvent :=
  {| ob_organization_id := ob_organization_id x; ob_event_type := ob_event_type x;
     ob_payload := ob_payload x; ob_attempts := v; ob_lease_owner := ob_lease_owner x;
     ob_lease_expires_at := ob_lease_expires_at x; ob_lease_token := ob_lease_token x;
     ob_delivered_at := ob_delivered_at x; ob_retry_at := ob_retry_at x; ob_failed_at :=
     ob_failed_at x; ob_created_at := ob_created_at x |}.
Definition ob_set_lease_owner (v : option string) (x : OutboxEvent) : OutboxEvent :=
  {| ob_organization_id := ob_organization_id x; ob_event_type := ob_event_type x;
     ob_payload := ob_payload x; ob_attempts := ob_attempts x; ob_lease_owner := v;
     ob_lease_expires_at := ob_lease_expires_at x; ob_lease_token := ob_lease_token x;
     ob_delivered_at := ob_delivered_at x; ob_retry_at := ob_retry_at x; ob_failed_at :=
     ob_failed_at x; ob_created_at := ob_created_at x |}.
Definition ob_set_lease_expires_at (v : option Z) (x : OutboxEvent) : OutboxEvent :=
  {| ob_organization_id := ob_organization_id x; ob_event_type := ob_event_type x;
     ob_payload := ob_payload x; ob_attempts := ob_attempts x; ob_lease_owner :=
     ob_lease_owner x; ob_lease_expires_at := v; ob_lease_token := ob_lease_token x;
     ob_delivered_at := ob_delivered_at x; ob_retry_at := ob_retry_at x; ob_failed_at :=
     ob_failed_at x; ob_created_at := ob_created_at x |}.
Definition ob_set_lease_token (v : option uuid) (x : OutboxEvent) : OutboxEvent :=
  {| ob_organization_id := ob_organization_id x; ob_event_type := ob_event_type x;
     ob_payload := ob_payload x; ob_attempts := ob_attempts x; ob_lease_owner :=
     ob_lease_owner x; ob_lease_expires_at := ob_lease_expires_at x; ob_lease_token :=
     v; ob_delivered_at := ob_delivered_at x; ob_retry_at := ob_retry_at x; ob_failed_at
     := ob_failed_at x; ob_created_at := ob_created_at x |}.
Definition ob_set_delivered_at (v : option Z) (x : OutboxEvent) : OutboxEvent :=
  {| ob_organization_id := ob_organization_id x; ob_event_type := ob_event_type x;
     ob_payload := ob_payload x; ob_attempts := ob_attempts x; ob_lease_owner :=
     ob_lease_owner x; ob_lease_expires_at := ob_lease_expires_at x; ob_lease_token :=
     ob_lease_token x; ob_delivered_at := v; ob_retry_at := ob_retry_at x; ob_failed_at
     := ob_failed_at x; ob_created_at := ob_created_at x |}.
Definition ob_set_retry_at (v : option Z) (x : OutboxEvent) : OutboxEvent :=
  {| ob_organization_id := ob_organization_id x; ob_event_type := ob_event_type x;
     ob_payload := ob_payload x; ob_attempts := ob_attempts x; ob_lease_owner :=
     ob_lease_owner x; ob_lease_expires_at := ob_lease_expires_at x; ob_lease_token :=
     ob_lease_token x; ob_delivered_at := ob_delivered_at x; ob_retry_at := v;
     ob_failed_at := ob_failed_at x; ob_created_at := ob_created_at x |}.
Definition ob_set_failed_at (v : option Z) (x : OutboxEvent) : OutboxEvent :=
  {| ob_organization_id := ob_organization_id x; ob_event_type := ob_event_type x;
     ob_payload := ob_payload x; ob_attempts := ob_attempts x; ob_lease_owner :=
     ob_lease_owner x; ob_lease_expires_at := ob_lease_expires_at x; ob_lease_token :=
     ob_lease_token x; ob_delivered_at := ob_delivered_at x; ob_retry_at := ob_retry_at
     x; ob_failed_at := v; ob_created_at := ob_created_at x |}.

(** An idempotency record, keyed by actor, organization, route and key. *)
Record IdempotencyKey := {
  ik_id : uuid;
  ik_request_hash : string;
  ik_response_reference : option string;
  ik_created_at : Z;
  ik_expires_at : Z;
}.
Definition ik_set_response_reference (v : option string) (x : IdempotencyKey) : IdempotencyKey :=
  {| ik_id := ik_id x; ik_request_hash := ik_request_hash x; ik_response_reference := v;
     ik_created_at := ik_created_at x; ik_expires_at := ik_expires_at x |}.

(** The ceilings of an organization. *)
Record TenantQuota := {
  tq_max_tenants : Z;
  tq_max_workers_per_tenant : Z;
  tq_max_concurrent_provisioning_ops : Z;
}.

(** A tenant. *)
Record Tenant := {
  t_organization_id : uuid;
  t_slug : string;
  t_connection_id : uuid;
  t_github_repository_id : Z;
  t_fleet_size : Z;
  t_desired_state : string;
  t_observed_state : string;
  t_error_code : option string;
  t_owner_user_id : option uuid;
  t_reserved_worker_capacity : Z;
  t_created_at : Z;
  t_updated_at : Z;
}.
Definition t_set_desired_state (v : string) (x : Tenant) : Tenant :=
  {| t_organization_id := t_organization_id x; t_slug := t_slug x; t_connection_id :=
     t_connection_id x; t_github_repository_id := t_github_repository_id x; t_fleet_size
     := t_fleet_size x; t_desired_state := v; t_observed_state := t_observed_state x;
     t_error_code := t_error_code x; t_owner_user_id := t_owner_user_id x;
     t_reserved_worker_capacity := t_reserved_worker_capacity x; t_created_at :=
     t_created_at x; t_updated_at := t_updated_at x |}.
Definition t_set_observed_state (v : string) (x : Tenant) : Tenant :=
  {| t_organization_id := t_organization_id x; t_slug := t_slug x; t_connection_id :=
     t_connection_id x; t_github_repository_id := t_github_repository_id x; t_fleet_size
     := t_fleet_size x; t_desired_state := t_desired_state x; t_observed_state := v;
     t_error_code := t_error_code x; t_owner_user_id := t_owner_user_id x;
     t_reserved_worker_capacity := t_reserved_worker_capacity x; t_created_at :=
     t_created_at x; t_updated_at := t_updated_at x |}.
Definition t_set_error_code (v : option string) (x : Tenant) : Tenant :=
  {| t_organization_id := t_organization_id x; t_slug := t_slug x; t_connection_id :=
     t_connection_id x; t_github_repository_id := t_github_repository_id x; t_fleet_size
     := t_fleet_size x; t_desired_state := t_desired_state x; t_observed_state :=
     t_observed_state x; t_error_code := v; t_owner_user_id := t_owner_user_id x;
     t_reserved_worker_capacity := t_reserved_worker_capacity x; t_created_at :=
     t_created_at x; t_updated_at := t_updated_at x |}.
Definition t_set_owner_user_id (v : option uuid) (x : Tenant) : Tenant :=
  {| t_organization_id := t_organization_id x; t_slug := t_slug x; t_connection_id :=
     t_connection_id x; t_github_repository_id := t_github_repository_id x; t_fleet_size
     := t_fleet_size x; t_desired_state := t_desired_state x; t_observed_state :=
     t_observed_state x; t_error_code := t_error_code x; t_owner_user_id := v;
     t_reserved_worker_capacity := t_reserved_worker_capacity x; t_created_at :=
     t_created_at x; t_updated_at := t_updated_at x |}.
Definition t_set_reserved_worker_capacity (v : Z) (x : Tenant) : Tenant :=
  {| t_organization_id := t_organization_id x; t_slug := t_slug x; t_connection_id :=
     t_connection_id x; t_github_repository_id := t_github_repository_id x; t_fleet_size
     := t_fleet_size x; t_desired_state := t_desired_state x; t_observed_state :=
     t_observed_state x; t_error_code := t_error_code x; t_owner_user_id :=
     t_owner_user_id x; t_reserved_worker_capacity := v; t_created_at := t_created_at x;
     t_updated_at := t_updated_at x |}.
Definition t_set_updated_at (v : Z) (x : Tenant) : Tenant :=
  {| t_organization_id := t_organization_id x; t_slug := t_slug x; t_connection_id :=
     t_connection_id x; t_github_repository_id := t_github_repository_id x; t_fleet_size
     := t_fleet_size x; t_desired_state := t_desired_state x; t_observed_state :=
     t_observed_state x; t_error_code := t_error_code x; t_owner_user_id :=
     t_owner_user_id x; t_reserved_worker_capacity := t_reserved_worker_capacity x;
     t_created_at := t_created_at x; t_updated_at := v |}.

(** A workspace of a tenant. *)
Record Workspace := {
  w_organization_id : uuid;
  w_tenant_id : uuid;
  w_role : string;
  w_slot : option Z;
  w_ticket_id : option string;
  w_branch : option string;
  w_coder_workspace_id : option string;
  w_desired_state : string;
  w_observed_state : string;
  w_credential_generation : Z;
  w_runtime_secret_ref : option string;
  w_a2a_pair_token : option string;
  w_registered_at : option Z;
  w_last_heartbeat_at : option Z;
  w_created_at : Z;
  w_updated_at : Z;
}.
Definition w_set_ticket_id (v : option string) (x : Workspace) : Workspace :=
  {| w_organization_id := w_organization_id x; w_tenant_id := w_tenant_id x; w_role :=
     w_role x; w_slot := w_slot x; w_ticket_id := v; w_branch := w_branch x;
     w_coder_workspace_id := w_coder_workspace_id x; w_desired_state := w_desired_state
     x; w_observed_state := w_observed_state x; w_credential_generation :=
     w_credential_generation x; w_runtime_secret_ref := w_runtime_secret_ref x;
     w_a2a_pair_token := w_a2a_pair_token x; w_registered_at := w_registered_at x;
     w_last_heartbeat_at := w_last_heartbeat_at x; w_created_at := w_created_at x;
     w_updated_at := w_updated_at x |}.
Definition w_set_branch (v : option string) (x : Workspace) : Workspace :=
  {| w_organization_id := w_organization_id x; w_tenant_id := w_tenant_id x; w_role :=
     w_role x; w_slot := w_slot x; w_ticket_id := w_ticket_id x; w_branch := v;
     w_coder_workspace_id := w_coder_workspace_id x; w_desired_state := w_desired_state
     x; w_observed_state := w_observed_state x; w_credential_generation :=
     w_credential_generation x; w_runtime_secret_ref := w_runtime_secret_ref x;
     w_a2a_pair_token := w_a2a_pair_token x; w_registered_at := w_registered_at x;
     w_last_heartbeat_at := w_last_heartbeat_at x; w_created_at := w_created_at x;
     w_updated_at := w_updated_at x |}.
Definition w_set_coder_workspace_id (v : option string) (x : Workspace) : Workspace :=
  {| w_organization_id := w_organization_id x; w_tenant_id := w_tenant_id x; w_role :=
     w_role x; w_slot := w_slot x; w_ticket_id := w_ticket_id x; w_branch := w_branch x;
     w_coder_workspace_id := v; w_desired_state := w_desired_state x; w_observed_state
     := w_observed_state x; w_credential_generation := w_credential_generation x;
     w_runtime_secret_ref := w_runtime_secret_ref x; w_a2a_pair_token :=
     w_a2a_pair_token x; w_registered_at := w_registered_at x; w_last_heartbeat_at :=
     w_last_heartbeat_at x; w_created_at := w_created_at x; w_updated_at := w_updated_at
     x |}.
Definition w_set_desired_state (v : string) (x : Workspace) : Workspace :=
  {| w_organization_id := w_organization_id x; w_tenant_id := w_tenant_id x; w_role :=
     w_role x; w_slot := w_slot x; w_ticket_id := w_ticket_id x; w_branch := w_branch x;
     w_coder_workspace_id := w_coder_workspace_id x; w_desired_state := v;
     w_observed_state := w_observed_state x; w_credential_generation :=
     w_credential_generation x; w_runtime_secret_ref := w_runtime_secret_ref x;
     w_a2a_pair_token := w_a2a_pair_token x; w_registered_at := w_registered_at x;
     w_last_heartbeat_at := w_last_heartbeat_at x; w_created_at := w_created_at x;
     w_updated_at := w_updated_at x |}.
Definition w_set_observed_state (v : string) (x : Workspace) : Workspace :=
  {| w_organization_id := w_organization_id x; w_tenant_id := w_tenant_id x; w_role :=
     w_role x; w_slot := w_slot x; w_ticket_id := w_ticket_id x; w_branch := w_branch x;
     w_coder_workspace_id := w_coder_workspace_id x; w_desired_state := w_desired_state
     x; w_observed_state := v; w_credential_generation := w_credential_generation x;
     w_runtime_secret_ref := w_runtime_secret_ref x; w_a2a_pair_token :=
     w_a2a_pair_token x; w_registered_at := w_registered_at x; w_last_heartbeat_at :=
     w_last_heartbeat_at x; w_created_at := w_created_at x; w_updated_at := w_updated_at
     x |}.
Definition w_set_credential_generation (v : Z) (x : Workspace) : Workspace :=
  {| w_organization_id := w_organization_id x; w_tenant_id := w_tenant_id x; w_role :=
     w_role x; w_slot := w_slot x; w_ticket_id := w_ticket_id x; w_branch := w_branch x;
     w_coder_workspace_id := w_coder_workspace_id x; w_desired_state := w_desired_state
     x; w_observed_state := w_observed_state x; w_credential_generation := v;
     w_runtime_secret_ref := w_runtime_secret_ref x; w_a2a_pair_token :=
     w_a2a_pair_token x; w_registered_at := w_registered_at x; w_last_heartbeat_at :=
     w_last_heartbeat_at x; w_created_at := w_created_at x; w_updated_at := w_updated_at
     x |}.
Definition w_set_runtime_secret_ref (v : option string) (x : Workspace) : Workspace :=
  {| w_organization_id := w_organization_id x; w_tenant_id := w_tenant_id x; w_role :=
     w_role x; w_slot := w_slot x; w_ticket_id := w_ticket_id x; w_branch := w_branch x;
     w_coder_workspace_id := w_coder_workspace_id x; w_desired_state := w_desired_state
     x; w_observed_state := w_observed_state x; w_credential_generation :=
     w_credential_generation x; w_runtime_secret_ref := v; w_a2a_pair_token :=
     w_a2a_pair_token x; w_registered_at := w_registered_at x; w_last_heartbeat_at :=
     w_last_heartbeat_at x; w_created_at := w_created_at x; w_updated_at := w_updated_at
     x |}.
Definition w_set_a2a_pair_token (v : option string) (x : Workspace) : Workspace :=
  {| w_organization_id := w_organization_id x; w_tenant_id := w_tenant_id x; w_role :=
     w_role x; w_slot := w_slot x; w_ticket_id := w_ticket_id x; w_branch := w_branch x;
     w_coder_workspace_id := w_coder_workspace_id x; w_desired_state := w_desired_state
     x; w_observed_state := w_observed_state x; w_credential_generation :=
     w_credential_generation x; w_runtime_secret_ref := w_runtime_secret_ref x;
     w_a2a_pair_token := v; w_registered_at := w_registered_at x; w_last_heartbeat_at :=
     w_last_heartbeat_at x; w_created_at := w_created_at x; w_updated_at := w_updated_at
     x |}.
Definition w_set_registered_at (v : option Z) (x : Workspace) : Workspace :=
  {| w_organization_id := w_organization_id x; w_tenant_id := w_tenant_id x; w_role :=
     w_role x; w_slot := w_slot x; w_ticket_id := w_ticket_id x; w_branch := w_branch x;
     w_coder_workspace_id := w_coder_workspace_id x; w_desired_state := w_desired_state
     x; w_observed_state := w_observed_state x; w_credential_generation :=
     w_credential_generation x; w_runtime_secret_ref := w_runtime_secret_ref x;
     w_a2a_pair_token := w_a2a_pair_token x; w_registered_at := v; w_last_heartbeat_at
     := w_last_heartbeat_at x; w_created_at := w_created_at x; w_updated_at :=
     w_updated_at x |}.
Definition w_set_last_heartbeat_at (v : option Z) (x : Workspace) : Workspace :=
  {| w_organization_id := w_organization_id x; w_tenant_id := w_tenant_id x; w_role :=
     w_role x; w_slot := w_slot x; w_ticket_id := w_ticket_id x; w_branch := w_branch x;
     w_coder_workspace_id := w_coder_workspace_id x; w_desired_state := w_desired_state
     x; w_observed_state := w_observed_state x; w_credential_generation :=
     w_credential_generation x; w_runtime_secret_ref := w_runtime_secret_ref x;
     w_a2a_pair_token := w_a2a_pair_token x; w_registered_at := w_registered_at x;
     w_last_heartbeat_at := v; w_created_at := w_created_at x; w_updated_at :=
     w_updated_at x |}.
Definition w_set_updated_at (v : Z) (x : Workspace) : Workspace :=
  {| w_organization_id := w_organization_id x; w_tenant_id := w_tenant_id x; w_role :=
     w_role x; w_slot := w_slot x; w_ticket_id := w_ticket_id x; w_branch := w_branch x;
     w_coder_workspace_id := w_coder_workspace_id x; w_desired_state := w_desired_state
     x; w_observed_state := w_observed_state x; w_credential_generation :=
     w_credential_generation x; w_runtime_secret_ref := w_runtime_secret_ref x;
     w_a2a_pair_token := w_a2a_pair_token x; w_registered_at := w_registered_at x;
     w_last_heartbeat_at := w_last_heartbeat_at x; w_created_at := w_created_at x;
     w_updated_at := v |}.

(** A runtime credential of a workspace. *)
Record RuntimeCredential := {
  rc_workspace_id : uuid;
  rc_credential_hash : string;
  rc_audience : string;
  rc_expires_at : Z;
  rc_revoked_at : option Z;
  rc_generation : Z;
  rc_family_id : uuid;
  rc_family_expires_at : Z;
}.
Definition rc_set_revoked_at (v : option Z) (x : RuntimeCredential) : RuntimeCredential :=
  {| rc_workspace_id := rc_workspace_id x; rc_credential_hash := rc_credential_hash x;
     rc_audience := rc_audience x; rc_expires_at := rc_expires_at x; rc_revoked_at := v;
     rc_generation := rc_generation x; rc_family_id := rc_family_id x;
     rc_family_expires_at := rc_family_expires_at x |}.

(** A single-use bootstrap credential. *)
Record BootstrapCredential := {
  bc_workspace_id : uuid;
  bc_credential_hash : string;
  bc_secret_ref : string;
  bc_expires_at : Z;
  bc_consumed_at : option Z;
  bc_revoked_at : option Z;
  bc_created_at : Z;
}.
Definition bc_set_consumed_at (v : option Z) (x : BootstrapCredential) : BootstrapCredential :=
  {| bc_workspace_id := bc_workspace_id x; bc_credential_hash := bc_credential_hash x;
     bc_secret_ref := bc_secret_ref x; bc_expires_at := bc_expires_at x; bc_consumed_at
     := v; bc_revoked_at := bc_revoked_at x; bc_created_at := bc_created_at x |}.
Definition bc_set_revoked_at (v : option Z) (x : BootstrapCredential) : BootstrapCredential :=
  {| bc_workspace_id := bc_workspace_id x; bc_credential_hash := bc_credential_hash x;
     bc_secret_ref := bc_secret_ref x; bc_expires_at := bc_expires_at x; bc_consumed_at
     := bc_consumed_at x; bc_revoked_at := v; bc_created_at := bc_created_at x |}.

(** A lease of a GitHub token. *)
Record LeaseRow := {
  cr_organization_id : uuid;
  cr_connection_id : uuid;
  cr_tenant_id : option uuid;
  cr_workspace_id : option uuid;
  cr_installation_id : Z;
  cr_repository_id : Z;
  cr_permission_profile_hash : string;
  cr_connection_generation : Z;
  cr_workspace_generation : Z;
  cr_purpose : option string;
  cr_token_fingerprint : string;
  cr_encrypted_ref : option string;
  cr_expires_at : Z;
  cr_revoked_at : option Z;
}.
Definition cr_set_encrypted_ref (v : option string) (x : LeaseRow) : LeaseRow :=
  {| cr_organization_id := cr_organization_id x; cr_connection_id := cr_connection_id x;
     cr_tenant_id := cr_tenant_id x; cr_workspace_id := cr_workspace_id x;
     cr_installation_id := cr_installation_id x; cr_repository_id := cr_repository_id x;
     cr_permission_profile_hash := cr_permission_profile_hash x;
     cr_connection_generation := cr_connection_generation x; cr_workspace_generation :=
     cr_workspace_generation x; cr_purpose := cr_purpose x; cr_token_fingerprint :=
     cr_token_fingerprint x; cr_encrypted_ref := v; cr_expires_at := cr_expires_at x;
     cr_revoked_at := cr_revoked_at x |}.
Definition cr_set_revoked_at (v : option Z) (x : LeaseRow) : LeaseRow :=
  {| cr_organization_id := cr_organization_id x; cr_connection_id := cr_connection_id x;
     cr_tenant_id := cr_tenant_id x; cr_workspace_id := cr_workspace_id x;
     cr_installation_id := cr_installation_id x; cr_repository_id := cr_repository_id x;
     cr_permission_profile_hash := cr_permission_profile_hash x;
     cr_connection_generation := cr_connection_generation x; cr_workspace_generation :=
     cr_workspace_generation x; cr_purpose := cr_purpose x; cr_token_fingerprint :=
     cr_token_fingerprint x; cr_encrypted_ref := cr_encrypted_ref x; cr_expires_at :=
     cr_expires_at x; cr_revoked_at := v |}.

(** The Redis credential of a tenant, keyed by tenant. *)
Record RedisCredentialRow := {
  rd_organization_id : uuid;
  rd_username : string;
  rd_namespace : string;
  rd_credential_hash : string;
  rd_secret_ref : string;
  rd_generation : Z;
  rd_revoked_at : option Z;
}.
Definition rd_set_credential_hash (v : string) (x : RedisCredentialRow) : RedisCredentialRow :=
  {| rd_organization_id := rd_organization_id x; rd_username := rd_username x;
     rd_namespace := rd_namespace x; rd_credential_hash := v; rd_secret_ref :=
     rd_secret_ref x; rd_generation := rd_generation x; rd_revoked_at := rd_revoked_at x |}.
Definition rd_set_secret_ref (v : string) (x : RedisCredentialRow) : RedisCredentialRow :=
  {| rd_organization_id := rd_organization_id x; rd_username := rd_username x;
     rd_namespace := rd_namespace x; rd_credential_hash := rd_credential_hash x;
     rd_secret_ref := v; rd_generation := rd_generation x; rd_revoked_at :=
     rd_revoked_at x |}.
Definition rd_set_generation (v : Z) (x : RedisCredentialRow) : RedisCredentialRow :=
  {| rd_organization_id := rd_organization_id x; rd_username := rd_username x;
     rd_namespace := rd_namespace x; rd_credential_hash := rd_credential_hash x;
     rd_secret_ref := rd_secret_ref x; rd_generation := v; rd_revoked_at :=
     rd_revoked_at x |}.
Definition rd_set_revoked_at (v : option Z) (x : RedisCredentialRow) : RedisCredentialRow :=
  {| rd_organization_id := rd_organization_id x; rd_username := rd_username x;
     rd_namespace := rd_namespace x; rd_credential_hash := rd_credential_hash x;
     rd_secret_ref := rd_secret_ref x; rd_generation := rd_generation x; rd_revoked_at
     := v |}.

(** The hook key of a tenant, keyed by tenant. *)
Record HookKeyRow := {
  hk_organization_id : uuid;
  hk_key_hash : string;
  hk_secret_ref : option string;
  hk_generation : Z;
  hk_revoked_at : option Z;
}.
Definition hk_set_key_hash (v : string) (x : HookKeyRow) : HookKeyRow :=
  {| hk_organization_id := hk_organization_id x; hk_key_hash := v; hk_secret_ref :=
     hk_secret_ref x; hk_generation := hk_generation x; hk_revoked_at := hk_revoked_at x |}.
Definition hk_set_secret_ref (v : option string) (x : HookKeyRow) : HookKeyRow :=
  {| hk_organization_id := hk_organization_id x; hk_key_hash := hk_key_hash x;
     hk_secret_ref := v; hk_generation := hk_generation x; hk_revoked_at :=
     hk_revoked_at x |}.
Definition hk_set_generation (v : Z) (x : HookKeyRow) : HookKeyRow :=
  {| hk_organization_id := hk_organization_id x; hk_key_hash := hk_key_hash x;
     hk_secret_ref := hk_secret_ref x; hk_generation := v; hk_revoked_at :=
     hk_revoked_at x |}.
Definition hk_set_revoked_at (v : option Z) (x : HookKeyRow) : HookKeyRow :=
  {| hk_organization_id := hk_organization_id x; hk_key_hash := hk_key_hash x;
     hk_secret_ref := hk_secret_ref x; hk_generation := hk_generation x; hk_revoked_at
     := v |}.

(** The Coder owner of a tenant, keyed by tenant. *)
Record RuntimeIdentity := {
  ri_organization_id : uuid;
  ri_coder_owner_id : string;
  ri_status : string;
}.
Definition ri_set_status (v : string) (x : RuntimeIdentity) : RuntimeIdentity :=
  {| ri_organization_id := ri_organization_id x; ri_coder_owner_id := ri_coder_owner_id
     x; ri_status := v |}.

(** A GitHub connection. *)
Record Connection := {
  c_organization_id : uuid;
  c_app_id : Z;
  c_installation_id : Z;
  c_status : string;
  c_access_generation : Z;
}.

(** A repository, keyed by connection and GitHub id. *)
Record Repository := {
  r_organization_id : uuid;
  r_full_name : string;
  r_accessible : bool;
}.

(** A pending hook. *)
Record HookDelivery := {
  hd_tenant_id : uuid;
  hd_organization_id : uuid;
  hd_workspace_id : uuid;
}.

(** A chat, keyed by workspace and ticket. *)
Record RuntimeChat := {
  ch_coder_workspace_id : string;
  ch_coder_chat_id : string;
}.

(** The Coder account of a user, keyed by user. *)
Record CoderUserLink := {
  cul_coder_url : string;
  cul_coder_user_id : string;
}.

(** A published template, keyed by organization, release and role. *)
Record OrgTemplateVersion := {
  ov_coder_template_id : option string;
  ov_coder_version_id : option string;
  ov_status : string;
}.

(** An audit row; the trail is append-only. *)
Record AuditRow := {
  au_id : uuid;
  au_organization_id : option uuid;
  au_actor_type : string;
  au_actor_id : option uuid;
  au_action : string;
  au_resource_type : option string;
  au_resource_id : option uuid;
  au_result : string;
  au_request_id : option string;
  au_occurred_at : Z;
}.

(** The database. *)
Record Db := {
  users : gmap uuid User;
  identities : gmap uuid Identity;
  organizations : gmap uuid Organization;
  memberships : gmap (uuid * uuid) MembershipRow;
  invitations : gmap uuid Invitation;
  sessions : gmap uuid Session;
  refresh_history : gmap string RefreshHistory;
  auth_transactions : gmap uuid AuthTransaction;
  cli_login_requests : gmap uuid CliLogin;
  operations : gmap uuid OperationRecord;
  outbox_events : gmap uuid OutboxEvent;
  idempotency_keys : gmap (uuid * option uuid * string * string) IdempotencyKey;
  tenant_quotas : gmap uuid TenantQuota;
  tenants : gmap uuid Tenant;
  workspaces : gmap uuid Workspace;
  runtime_credentials : gmap uuid RuntimeCredential;
  workspace_bootstrap_credentials : gmap uuid BootstrapCredential;
  credential_leases : gmap uuid LeaseRow;
  tenant_redis_credentials : gmap uuid RedisCredentialRow;
  tenant_hook_keys : gmap uuid HookKeyRow;
  runtime_identities : gmap uuid RuntimeIdentity;
  github_connections : gmap uuid Connection;
  github_repositories : gmap (uuid * Z) Repository;
  tenant_hook_deliveries : gmap uuid HookDelivery;
  runtime_chats : gmap (uuid * string) RuntimeChat;
  coder_user_links : gmap uuid CoderUserLink;
  organization_template_versions : gmap (uuid * uuid * string) OrgTemplateVersion;
  rate_limit_ledger : gmap (string * string * Z) Z;
  template_releases : gmap uuid string;
  organization_current_releases : gmap uuid uuid;
  template_release_roles : gmap (uuid * string) (option string);
  audit_events : list AuditRow;
}.
Definition empty_db : Db :=
  {| users := ∅; identities := ∅; organizations := ∅; memberships := ∅; invitations :=
     ∅; sessions := ∅; refresh_history := ∅; auth_transactions := ∅; cli_login_requests
     := ∅; operations := ∅; outbox_events := ∅; idempotency_keys := ∅; tenant_quotas :=
     ∅; tenants := ∅; workspaces := ∅; runtime_credentials := ∅;
     workspace_bootstrap_credentials := ∅; credential_leases := ∅;
     tenant_redis_credentials := ∅; tenant_hook_keys := ∅; runtime_identities := ∅;
     github_connections := ∅; github_repositories := ∅; tenant_hook_deliveries := ∅;
     runtime_chats := ∅; coder_user_links := ∅; organization_template_versions := ∅;
     rate_limit_ledger := ∅; template_releases := ∅; organization_current_releases := ∅;
     template_release_roles := ∅; audit_events := [] |}.
Definition on_users (f : gmap uuid User → gmap uuid User) (d : Db) : Db :=
  {| users := f (users d); identities := identities d; organizations := organizations d;
     memberships := memberships d; invitations := invitations d; sessions := sessions d;
     refresh_history := refresh_history d; auth_transactions := auth_transactions d;
     cli_login_requests := cli_login_requests d; operations := operations d;
     outbox_events := outbox_events d; idempotency_keys := idempotency_keys d;
     tenant_quotas := tenant_quotas d; tenants := tenants d; workspaces := workspaces d;
     runtime_credentials := runtime_credentials d; workspace_bootstrap_credentials :=
     workspace_bootstrap_credentials d; credential_leases := credential_leases d;
     tenant_redis_credentials := tenant_redis_credentials d; tenant_hook_keys :=
     tenant_hook_keys d; runtime_identities := runtime_identities d; github_connections
     := github_connections d; github_repositories := github_repositories d;
     tenant_hook_deliveries := tenant_hook_deliveries d; runtime_chats := runtime_chats
     d; coder_user_links := coder_user_links d; organization_template_versions :=
     organization_template_versions d; rate_limit_ledger := rate_limit_ledger d;
     template_releases := template_releases d; organization_current_releases :=
     organization_current_releases d; template_release_roles := template_release_roles
     d; audit_events := audit_events d |}.
Definition on_identities (f : gmap uuid Identity → gmap uuid Identity) (d : Db) : Db :=
  {| users := users d; identities := f (identities d); organizations := organizations d;
     memberships := memberships d; invitations := invitations d; sessions := sessions d;
     refresh_history := refresh_history d; auth_transactions := auth_transactions d;
     cli_login_requests := cli_login_requests d; operations := operations d;
     outbox_events := outbox_events d; idempotency_keys := idempotency_keys d;
     tenant_quotas := tenant_quotas d; tenants := tenants d; workspaces := workspaces d;
     runtime_credentials := runtime_credentials d; workspace_bootstrap_credentials :=
     workspace_bootstrap_credentials d; credential_leases := credential_leases d;
     tenant_redis_credentials := tenant_redis_credentials d; tenant_hook_keys :=
     tenant_hook_keys d; runtime_identities := runtime_identities d; github_connections
     := github_connections d; github_repositories := github_repositories d;
     tenant_hook_deliveries := tenant_hook_deliveries d; runtime_chats := runtime_chats
     d; coder_user_links := coder_user_links d; organization_template_versions :=
     organization_template_versions d; rate_limit_ledger := rate_limit_ledger d;
     template_releases := template_releases d; organization_current_releases :=
     organization_current_releases d; template_release_roles := template_release_roles
     d; audit_events := audit_events d |}.
Definition on_organizations (f : gmap uuid Organization → gmap uuid Organization) (d : Db) : Db :=
  {| users := users d; identities := identities d; organizations := f (organizations d);
     memberships := memberships d; invitations := invitations d; sessions := sessions d;
     refresh_history := refresh_history d; auth_transactions := auth_transactions d;
     cli_login_requests := cli_login_requests d; operations := operations d;
     outbox_events := outbox_events d; idempotency_keys := idempotency_keys d;
     tenant_quotas := tenant_quotas d; tenants := tenants d; workspaces := workspaces d;
     runtime_credentials := runtime_credentials d; workspace_bootstrap_credentials :=
     workspace_bootstrap_credentials d; credential_leases := credential_leases d;
     tenant_redis_credentials := tenant_redis_credentials d; tenant_hook_keys :=
     tenant_hook_keys d; runtime_identities := runtime_identities d; github_connections
     := github_connections d; github_repositories := github_repositories d;
     tenant_hook_deliveries := tenant_hook_deliveries d; runtime_chats := runtime_chats
     d; coder_user_links := coder_user_links d; organization_template_versions :=
     organization_template_versions d; rate_limit_ledger := rate_limit_ledger d;
     template_releases := template_releases d; organization_current_releases :=
     organization_current_releases d; template_release_roles := template_release_roles
     d; audit_events := audit_events d |}.
Definition on_memberships (f : gmap (uuid * uuid) MembershipRow → gmap (uuid * uuid) MembershipRow) (d : Db) : Db :=
  {| users := users d; identities := identities d; organizations := organizations d;
     memberships := f (memberships d); invitations := invitations d; sessions :=
     sessions d; refresh_history := refresh_history d; auth_transactions :=
     auth_transactions d; cli_login_requests := cli_login_requests d; operations :=
     operations d; outbox_events := outbox_events d; idempotency_keys :=
     idempotency_keys d; tenant_quotas := tenant_quotas d; tenants := tenants d;
     workspaces := workspaces d; runtime_credentials := runtime_credentials d;
     workspace_bootstrap_credentials := workspace_bootstrap_credentials d;
     credential_leases := credential_leases d; tenant_redis_credentials :=
     tenant_redis_credentials d; tenant_hook_keys := tenant_hook_keys d;
     runtime_identities := runtime_identities d; github_connections :=
     github_connections d; github_repositories := github_repositories d;
     tenant_hook_deliveries := tenant_hook_deliveries d; runtime_chats := runtime_chats
     d; coder_user_links := coder_user_links d; organization_template_versions :=
     organization_template_versions d; rate_limit_ledger := rate_limit_ledger d;
     template_releases := template_releases d; organization_current_releases :=
     organization_current_releases d; template_release_roles := template_release_roles
     d; audit_events := audit_events d |}.
Definition on_invitations (f : gmap uuid Invitation → gmap uuid Invitation) (d : Db) : Db :=
  {| users := users d; identities := identities d; organizations := organizations d;
     memberships := memberships d; invitations := f (invitations d); sessions :=
     sessions d; refresh_history := refresh_history d; auth_transactions :=
     auth_transactions d; cli_login_requests := cli_login_requests d; operations :=
     operations d; outbox_events := outbox_events d; idempotency_keys :=
     idempotency_keys d; tenant_quotas := tenant_quotas d; tenants := tenants d;
     workspaces := workspaces d; runtime_credentials := runtime_credentials d;
     workspace_bootstrap_credentials := workspace_bootstrap_credentials d;
     credential_leases := credential_leases d; tenant_redis_credentials :=
     tenant_redis_credentials d; tenant_hook_keys := tenant_hook_keys d;
     runtime_identities := runtime_identities d; github_connections :=
     github_connections d; github_repositories := github_repositories d;
     tenant_hook_deliveries := tenant_hook_deliveries d; runtime_chats := runtime_chats
     d; coder_user_links := coder_user_links d; organization_template_versions :=
     organization_template_versions d; rate_limit_ledger := rate_limit_ledger d;
     template_releases := template_releases d; organization_current_releases :=
     organization_current_releases d; template_release_roles := template_release_roles
     d; audit_events := audit_events d |}.
Definition on_sessions (f : gmap uuid Session → gmap uuid Session) (d : Db) : Db :=
  {| users := users d; identities := identities d; organizations := organizations d;
     memberships := memberships d; invitations := invitations d; sessions := f (sessions
     d); refresh_history := refresh_history d; auth_transactions := auth_transactions d;
     cli_login_requests := cli_login_requests d; operations := operations d;
     outbox_events := outbox_events d; idempotency_keys := idempotency_keys d;
     tenant_quotas := tenant_quotas d; tenants := tenants d; workspaces := workspaces d;
     runtime_credentials := runtime_credentials d; workspace_bootstrap_credentials :=
     workspace_bootstrap_credentials d; credential_leases := credential_leases d;
     tenant_redis_credentials := tenant_redis_credentials d; tenant_hook_keys :=
     tenant_hook_keys d; runtime_identities := runtime_identities d; github_connections
     := github_connections d; github_repositories := github_repositories d;
     tenant_hook_deliveries := tenant_hook_deliveries d; runtime_chats := runtime_chats
     d; coder_user_links := coder_user_links d; organization_template_versions :=
     organization_template_versions d; rate_limit_ledger := rate_limit_ledger d;
     template_releases := template_releases d; organization_current_releases :=
     organization_current_releases d; template_release_roles := template_release_roles
     d; audit_events := audit_events d |}.
Definition on_refresh_history (f : gmap string RefreshHistory → gmap string RefreshHistory) (d : Db) : Db :=
  {| users := users d; identities := identities d; organizations := organizations d;
     memberships := memberships d; invitations := invitations d; sessions := sessions d;
     refresh_history := f (refresh_history d); auth_transactions := auth_transactions d;
     cli_login_requests := cli_login_requests d; operations := operations d;
     outbox_events := outbox_events d; idempotency_keys := idempotency_keys d;
     tenant_quotas := tenant_quotas d; tenants := tenants d; workspaces := workspaces d;
     runtime_credentials := runtime_credentials d; workspace_bootstrap_credentials :=
     workspace_bootstrap_credentials d; credential_leases := credential_leases d;
     tenant_redis_credentials := tenant_redis_credentials d; tenant_hook_keys :=
     tenant_hook_keys d; runtime_identities := runtime_identities d; github_connections
     := github_connections d; github_repositories := github_repositories d;
     tenant_hook_deliveries := tenant_hook_deliveries d; runtime_chats := runtime_chats
     d; coder_user_links := coder_user_links d; organization_template_versions :=
     organization_template_versions d; rate_limit_ledger := rate_limit_ledger d;
     template_releases := template_releases d; organization_current_releases :=
     organization_current_releases d; template_release_roles := template_release_roles
     d; audit_events := audit_events d |}.
Definition on_auth_transactions (f : gmap uuid AuthTransaction → gmap uuid AuthTransaction) (d : Db) : Db :=
  {| users := users d; identities := identities d; organizations := organizations d;
     memberships := memberships d; invitations := invitations d; sessions := sessions d;
     refresh_history := refresh_history d; auth_transactions := f (auth_transactions d);
     cli_login_requests := cli_login_requests d; operations := operations d;
     outbox_events := outbox_events d; idempotency_keys := idempotency_keys d;
     tenant_quotas := tenant_quotas d; tenants := tenants d; workspaces := workspaces d;
     runtime_credentials := runtime_credentials d; workspace_bootstrap_credentials :=
     workspace_bootstrap_credentials d; credential_leases := credential_leases d;
     tenant_redis_credentials := tenant_redis_credentials d; tenant_hook_keys :=
     tenant_hook_keys d; runtime_identities := runtime_identities d; github_connections
     := github_connections d; github_repositories := github_repositories d;
     tenant_hook_deliveries := tenant_hook_deliveries d; runtime_chats := runtime_chats
     d; coder_user_links := coder_user_links d; organization_template_versions :=
     organization_template_versions d; rate_limit_ledger := rate_limit_ledger d;
     template_releases := template_releases d; organization_current_releases :=
     organization_current_releases d; template_release_roles := template_release_roles
     d; audit_events := audit_events d |}.
Definition on_cli_login_requests (f : gmap uuid CliLogin → gmap uuid CliLogin) (d : Db) : Db :=
  {| users := users d; identities := identities d; organizations := organizations d;
     memberships := memberships d; invitations := invitations d; sessions := sessions d;
     refresh_history := refresh_history d; auth_transactions := auth_transactions d;
     cli_login_requests := f (cli_login_requests d); operations := operations d;
     outbox_events := outbox_events d; idempotency_keys := idempotency_keys d;
     tenant_quotas := tenant_quotas d; tenants := tenants d; workspaces := workspaces d;
     runtime_credentials := runtime_credentials d; workspace_bootstrap_credentials :=
     workspace_bootstrap_credentials d; credential_leases := credential_leases d;
     tenant_redis_credentials := tenant_redis_credentials d; tenant_hook_keys :=
     tenant_hook_keys d; runtime_identities := runtime_identities d; github_connections
     := github_connections d; github_repositories := github_repositories d;
     tenant_hook_deliveries := tenant_hook_deliveries d; runtime_chats := runtime_chats
     d; coder_user_links := coder_user_links d; organization_template_versions :=
     organization_template_versions d; rate_limit_ledger := rate_limit_ledger d;
     template_releases := template_releases d; organization_current_releases :=
     organization_current_releases d; template_release_roles := template_release_roles
     d; audit_events := audit_events d |}.
Definition on_operations (f : gmap uuid OperationRecord → gmap uuid OperationRecord) (d : Db) : Db :=
  {| users := users d; identities := identities d; organizations := organizations d;
     memberships := memberships d; invitations := invitations d; sessions := sessions d;
     refresh_history := refresh_history d; auth_transactions := auth_transactions d;
     cli_login_requests := cli_login_requests d; operations := f (operations d);
     outbox_events := outbox_events d; idempotency_keys := idempotency_keys d;
     tenant_quotas := tenant_quotas d; tenants := tenants d; workspaces := workspaces d;
     runtime_credentials := runtime_credentials d; workspace_bootstrap_credentials :=
     workspace_bootstrap_credentials d; credential_leases := credential_leases d;
     tenant_redis_credentials := tenant_redis_credentials d; tenant_hook_keys :=
     tenant_hook_keys d; runtime_identities := runtime_identities d; github_connections
     := github_connections d; github_repositories := github_repositories d;
     tenant_hook_deliveries := tenant_hook_deliveries d; runtime_chats := runtime_chats
     d; coder_user_links := coder_user_links d; organization_template_versions :=
     organization_template_versions d; rate_limit_ledger := rate_limit_ledger d;
     template_releases := template_releases d; organization_current_releases :=
     organization_current_releases d; template_release_roles := template_release_roles
     d; audit_events := audit_events d |}.
Definition on_outbox_events (f : gmap uuid OutboxEvent → gmap uuid OutboxEvent) (d : Db) : Db :=
  {| users := users d; identities := identities d; organizations := organizations d;
     memberships := memberships d; invitations := invitations d; sessions := sessions d;
     refresh_history := refresh_history d; auth_transactions := auth_transactions d;
     cli_login_requests := cli_login_requests d; operations := operations d;
     outbox_events := f (outbox_events d); idempotency_keys := idempotency_keys d;
     tenant_quotas := tenant_quotas d; tenants := tenants d; workspaces := workspaces d;
     runtime_credentials := runtime_credentials d; workspace_bootstrap_credentials :=
     workspace_bootstrap_credentials d; credential_leases := credential_leases d;
     tenant_redis_credentials := tenant_redis_credentials d; tenant_hook_keys :=
     tenant_hook_keys d; runtime_identities := runtime_identities d; github_connections
     := github_connections d; github_repositories := github_repositories d;
     tenant_hook_deliveries := tenant_hook_deliveries d; runtime_chats := runtime_chats
     d; coder_user_links := coder_user_links d; organization_template_versions :=
     organization_template_versions d; rate_limit_ledger := rate_limit_ledger d;
     template_releases := template_releases d; organization_current_releases :=
     organization_current_releases d; template_release_roles := template_release_roles
     d; audit_events := audit_events d |}.
Definition on_idempotency_keys (f : gmap (uuid * option uuid * string * string) IdempotencyKey → gmap (uuid * option uuid * string * string) IdempotencyKey) (d : Db) : Db :=
  {| users := users d; identities := identities d; organizations := organizations d;
     memberships := memberships d; invitations := invitations d; sessions := sessions d;
     refresh_history := refresh_history d; auth_transactions := auth_transactions d;
     cli_login_requests := cli_login_requests d; operations := operations d;
     outbox_events := outbox_events d; idempotency_keys := f (idempotency_keys d);
     tenant_quotas := tenant_quotas d; tenants := tenants d; workspaces := workspaces d;
     runtime_credentials := runtime_credentials d; workspace_bootstrap_credentials :=
     workspace_bootstrap_credentials d; credential_leases := credential_leases d;
     tenant_redis_credentials := tenant_redis_credentials d; tenant_hook_keys :=
     tenant_hook_keys d; runtime_identities := runtime_identities d; github_connections
     := github_connections d; github_repositories := github_repositories d;
     tenant_hook_deliveries := tenant_hook_deliveries d; runtime_chats := runtime_chats
     d; coder_user_links := coder_user_links d; organization_template_versions :=
     organization_template_versions d; rate_limit_ledger := rate_limit_ledger d;
     template_releases := template_releases d; organization_current_releases :=
     organization_current_releases d; template_release_roles := template_release_roles
     d; audit_events := audit_events d |}.
Definition on_tenant_quotas (f : gmap uuid TenantQuota → gmap uuid TenantQuota) (d : Db) : Db :=
  {| users := users d; identities := identities d; organizations := organizations d;
     memberships := memberships d; invitations := invitations d; sessions := sessions d;
     refresh_history := refresh_history d; auth_transactions := auth_transactions d;
     cli_login_requests := cli_login_requests d; operations := operations d;
     outbox_events := outbox_events d; idempotency_keys := idempotency_keys d;
     tenant_quotas := f (tenant_quotas d); tenants := tenants d; workspaces :=
     workspaces d; runtime_credentials := runtime_credentials d;
     workspace_bootstrap_credentials := workspace_bootstrap_credentials d;
     credential_leases := credential_leases d; tenant_redis_credentials :=
     tenant_redis_credentials d; tenant_hook_keys := tenant_hook_keys d;
     runtime_identities := runtime_identities d; github_connections :=
     github_connections d; github_repositories := github_repositories d;
     tenant_hook_deliveries := tenant_hook_deliveries d; runtime_chats := runtime_chats
     d; coder_user_links := coder_user_links d; organization_template_versions :=
     organization_template_versions d; rate_limit_ledger := rate_limit_ledger d;
     template_releases := template_releases d; organization_current_releases :=
     organization_current_releases d; template_release_roles := template_release_roles
     d; audit_events := audit_events d |}.
Definition on_tenants (f : gmap uuid Tenant → gmap uuid Tenant) (d : Db) : Db :=
  {| users := users d; identities := identities d; organizations := organizations d;
     memberships := memberships d; invitations := invitations d; sessions := sessions d;
     refresh_history := refresh_history d; auth_transactions := auth_transactions d;
     cli_login_requests := cli_login_requests d; operations := operations d;
     outbox_events := outbox_events d; idempotency_keys := idempotency_keys d;
     tenant_quotas := tenant_quotas d; tenants := f (tenants d); workspaces :=
     workspaces d; runtime_credentials := runtime_credentials d;
     workspace_bootstrap_credentials := workspace_bootstrap_credentials d;
     credential_leases := credential_leases d; tenant_redis_credentials :=
     tenant_redis_credentials d; tenant_hook_keys := tenant_hook_keys d;
     runtime_identities := runtime_identities d; github_connections :=
     github_connections d; github_repositories := github_repositories d;
     tenant_hook_deliveries := tenant_hook_deliveries d; runtime_chats := runtime_chats
     d; coder_user_links := coder_user_links d; organization_template_versions :=
     organization_template_versions d; rate_limit_ledger := rate_limit_ledger d;
     template_releases := template_releases d; organization_current_releases :=
     organization_current_releases d; template_release_roles := template_release_roles
     d; audit_events := audit_events d |}.
Definition on_workspaces (f : gmap uuid Workspace → gmap uuid Workspace) (d : Db) : Db :=
  {| users := users d; identities := identities d; organizations := organizations d;
     memberships := memberships d; invitations := invitations d; sessions := sessions d;
     refresh_history := refresh_history d; auth_transactions := auth_transactions d;
     cli_login_requests := cli_login_requests d; operations := operations d;
     outbox_events := outbox_events d; idempotency_keys := idempotency_keys d;
     tenant_quotas := tenant_quotas d; tenants := tenants d; workspaces := f (workspaces
     d); runtime_credentials := runtime_credentials d; workspace_bootstrap_credentials
     := workspace_bootstrap_credentials d; credential_leases := credential_leases d;
     tenant_redis_credentials := tenant_redis_credentials d; tenant_hook_keys :=
     tenant_hook_keys d; runtime_identities := runtime_identities d; github_connections
     := github_connections d; github_repositories := github_repositories d;
     tenant_hook_deliveries := tenant_hook_deliveries d; runtime_chats := runtime_chats
     d; coder_user_links := coder_user_links d; organization_template_versions :=
     organization_template_versions d; rate_limit_ledger := rate_limit_ledger d;
     template_releases := template_releases d; organization_current_releases :=
     organization_current_releases d; template_release_roles := template_release_roles
     d; audit_events := audit_events d |}.
Definition on_runtime_credentials (f : gmap uuid RuntimeCredential → gmap uuid RuntimeCredential) (d : Db) : Db :=
  {| users := users d; identities := identities d; organizations := organizations d;
     memberships := memberships d; invitations := invitations d; sessions := sessions d;
     refresh_history := refresh_history d; auth_transactions := auth_transactions d;
     cli_login_requests := cli_login_requests d; operations := operations d;
     outbox_events := outbox_events d; idempotency_keys := idempotency_keys d;
     tenant_quotas := tenant_quotas d; tenants := tenants d; workspaces := workspaces d;
     runtime_credentials := f (runtime_credentials d); workspace_bootstrap_credentials
     := workspace_bootstrap_credentials d; credential_leases := credential_leases d;
     tenant_redis_credentials := tenant_redis_credentials d; tenant_hook_keys :=
     tenant_hook_keys d; runtime_identities := runtime_identities d; github_connections
     := github_connections d; github_repositories := github_repositories d;
     tenant_hook_deliveries := tenant_hook_deliveries d; runtime_chats := runtime_chats
     d; coder_user_links := coder_user_links d; organization_template_versions :=
     organization_template_versions d; rate_limit_ledger := rate_limit_ledger d;
     template_releases := template_releases d; organization_current_releases :=
     organization_current_releases d; template_release_roles := template_release_roles
     d; audit_events := audit_events d |}.
Definition on_workspace_bootstrap_credentials (f : gmap uuid BootstrapCredential → gmap uuid BootstrapCredential) (d : Db) : Db :=
  {| users := users d; identities := identities d; organizations := organizations d;
     memberships := memberships d; invitations := invitations d; sessions := sessions d;
     refresh_history := refresh_history d; auth_transactions := auth_transactions d;
     cli_login_requests := cli_login_requests d; operations := operations d;
     outbox_events := outbox_events d; idempotency_keys := idempotency_keys d;
     tenant_quotas := tenant_quotas d; tenants := tenants d; workspaces := workspaces d;
     runtime_credentials := runtime_credentials d; workspace_bootstrap_credentials := f
     (workspace_bootstrap_credentials d); credential_leases := credential_leases d;
     tenant_redis_credentials := tenant_redis_credentials d; tenant_hook_keys :=
     tenant_hook_keys d; runtime_identities := runtime_identities d; github_connections
     := github_connections d; github_repositories := github_repositories d;
     tenant_hook_deliveries := tenant_hook_deliveries d; runtime_chats := runtime_chats
     d; coder_user_links := coder_user_links d; organization_template_versions :=
     organization_template_versions d; rate_limit_ledger := rate_limit_ledger d;
     template_releases := template_releases d; organization_current_releases :=
     organization_current_releases d; template_release_roles := template_release_roles
     d; audit_events := audit_events d |}.
Definition on_credential_leases (f : gmap uuid LeaseRow → gmap uuid LeaseRow) (d : Db) : Db :=
  {| users := users d; identities := identities d; organizations := organizations d;
     memberships := memberships d; invitations := invitations d; sessions := sessions d;
     refresh_history := refresh_history d; auth_transactions := auth_transactions d;
     cli_login_requests := cli_login_requests d; operations := operations d;
     outbox_events := outbox_events d; idempotency_keys := idempotency_keys d;
     tenant_quotas := tenant_quotas d; tenants := tenants d; workspaces := workspaces d;
     runtime_credentials := runtime_credentials d; workspace_bootstrap_credentials :=
     workspace_bootstrap_credentials d; credential_leases := f (credential_leases d);
     tenant_redis_credentials := tenant_redis_credentials d; tenant_hook_keys :=
     tenant_hook_keys d; runtime_identities := runtime_identities d; github_connections
     := github_connections d; github_repositories := github_repositories d;
     tenant_hook_deliveries := tenant_hook_deliveries d; runtime_chats := runtime_chats
     d; coder_user_links := coder_user_links d; organization_template_versions :=
     organization_template_versions d; rate_limit_ledger := rate_limit_ledger d;
     template_releases := template_releases d; organization_current_releases :=
     organization_current_releases d; template_release_roles := template_release_roles
     d; audit_events := audit_events d |}.
Definition on_tenant_redis_credentials (f : gmap uuid RedisCredentialRow → gmap uuid RedisCredentialRow) (d : Db) : Db :=
  {| users := users d; identities := identities d; organizations := organizations d;
     memberships := memberships d; invitations := invitations d; sessions := sessions d;
     refresh_history := refresh_history d; auth_transactions := auth_transactions d;
     cli_login_requests := cli_login_requests d; operations := operations d;
     outbox_events := outbox_events d; idempotency_keys := idempotency_keys d;
     tenant_quotas := tenant_quotas d; tenants := tenants d; workspaces := workspaces d;
     runtime_credentials := runtime_credentials d; workspace_bootstrap_credentials :=
     workspace_bootstrap_credentials d; credential_leases := credential_leases d;
     tenant_redis_credentials := f (tenant_redis_credentials d); tenant_hook_keys :=
     tenant_hook_keys d; runtime_identities := runtime_identities d; github_connections
     := github_connections d; github_repositories := github_repositories d;
     tenant_hook_deliveries := tenant_hook_deliveries d; runtime_chats := runtime_chats
     d; coder_user_links := coder_user_links d; organization_template_versions :=
     organization_template_versions d; rate_limit_ledger := rate_limit_ledger d;
     template_releases := template_releases d; organization_current_releases :=
     organization_current_releases d; template_release_roles := template_release_roles
     d; audit_events := audit_events d |}.
Definition on_tenant_hook_keys (f : gmap uuid HookKeyRow → gmap uuid HookKeyRow) (d : Db) : Db :=
  {| users := users d; identities := identities d; organizations := organizations d;
     memberships := memberships d; invitations := invitations d; sessions := sessions d;
     refresh_history := refresh_history d; auth_transactions := auth_transactions d;
     cli_login_requests := cli_login_requests d; operations := operations d;
     outbox_events := outbox_events d; idempotency_keys := idempotency_keys d;
     tenant_quotas := tenant_quotas d; tenants := tenants d; workspaces := workspaces d;
     runtime_credentials := runtime_credentials d; workspace_bootstrap_credentials :=
     workspace_bootstrap_credentials d; credential_leases := credential_leases d;
     tenant_redis_credentials := tenant_redis_credentials d; tenant_hook_keys := f
     (tenant_hook_keys d); runtime_identities := runtime_identities d;
     github_connections := github_connections d; github_repositories :=
     github_repositories d; tenant_hook_deliveries := tenant_hook_deliveries d;
     runtime_chats := runtime_chats d; coder_user_links := coder_user_links d;
     organization_template_versions := organization_template_versions d;
     rate_limit_ledger := rate_limit_ledger d; template_releases := template_releases d;
     organization_current_releases := organization_current_releases d;
     template_release_roles := template_release_roles d; audit_events := audit_events d |}.
Definition on_runtime_identities (f : gmap uuid RuntimeIdentity → gmap uuid RuntimeIdentity) (d : Db) : Db :=
  {| users := users d; identities := identities d; organizations := organizations d;
     memberships := memberships d; invitations := invitations d; sessions := sessions d;
     refresh_history := refresh_history d; auth_transactions := auth_transactions d;
     cli_login_requests := cli_login_requests d; operations := operations d;
     outbox_events := outbox_events d; idempotency_keys := idempotency_keys d;
     tenant_quotas := tenant_quotas d; tenants := tenants d; workspaces := workspaces d;
     runtime_credentials := runtime_credentials d; workspace_bootstrap_credentials :=
     workspace_bootstrap_credentials d; credential_leases := credential_leases d;
     tenant_redis_credentials := tenant_redis_credentials d; tenant_hook_keys :=
     tenant_hook_keys d; runtime_identities := f (runtime_identities d);
     github_connections := github_connections d; github_repositories :=
     github_repositories d; tenant_hook_deliveries := tenant_hook_deliveries d;
     runtime_chats := runtime_chats d; coder_user_links := coder_user_links d;
     organization_template_versions := organization_template_versions d;
     rate_limit_ledger := rate_limit_ledger d; template_releases := template_releases d;
     organization_current_releases := organization_current_releases d;
     template_release_roles := template_release_roles d; audit_events := audit_events d |}.
Definition on_github_connections (f : gmap uuid Connection → gmap uuid Connection) (d : Db) : Db :=
  {| users := users d; identities := identities d; organizations := organizations d;
     memberships := memberships d; invitations := invitations d; sessions := sessions d;
     refresh_history := refresh_history d; auth_transactions := auth_transactions d;
     cli_login_requests := cli_login_requests d; operations := operations d;
     outbox_events := outbox_events d; idempotency_keys := idempotency_keys d;
     tenant_quotas := tenant_quotas d; tenants := tenants d; workspaces := workspaces d;
     runtime_credentials := runtime_credentials d; workspace_bootstrap_credentials :=
     workspace_bootstrap_credentials d; credential_leases := credential_leases d;
     tenant_redis_credentials := tenant_redis_credentials d; tenant_hook_keys :=
     tenant_hook_keys d; runtime_identities := runtime_identities d; github_connections
     := f (github_connections d); github_repositories := github_repositories d;
     tenant_hook_deliveries := tenant_hook_deliveries d; runtime_chats := runtime_chats
     d; coder_user_links := coder_user_links d; organization_template_versions :=
     organization_template_versions d; rate_limit_ledger := rate_limit_ledger d;
     template_releases := template_releases d; organization_current_releases :=
     organization_current_releases d; template_release_roles := template_release_roles
     d; audit_events := audit_events d |}.
Definition on_github_repositories (f : gmap (uuid * Z) Repository → gmap (uuid * Z) Repository) (d : Db) : Db :=
  {| users := users d; identities := identities d; organizations := organizations d;
     memberships := memberships d; invitations := invitations d; sessions := sessions d;
     refresh_history := refresh_history d; auth_transactions := auth_transactions d;
     cli_login_requests := cli_login_requests d; operations := operations d;
     outbox_events := outbox_events d; idempotency_keys := idempotency_keys d;
     tenant_quotas := tenant_quotas d; tenants := tenants d; workspaces := workspaces d;
     runtime_credentials := runtime_credentials d; workspace_bootstrap_credentials :=
     workspace_bootstrap_credentials d; credential_leases := credential_leases d;
     tenant_redis_credentials := tenant_redis_credentials d; tenant_hook_keys :=
     tenant_hook_keys d; runtime_identities := runtime_identities d; github_connections
     := github_connections d; github_repositories := f (github_repositories d);
     tenant_hook_deliveries := tenant_hook_deliveries d; runtime_chats := runtime_chats
     d; coder_user_links := coder_user_links d; organization_template_versions :=
     organization_template_versions d; rate_limit_ledger := rate_limit_ledger d;
     template_releases := template_releases d; organization_current_releases :=
     organization_current_releases d; template_release_roles := template_release_roles
     d; audit_events := audit_events d |}.
Definition on_tenant_hook_deliveries (f : gmap uuid HookDelivery → gmap uuid HookDelivery) (d : Db) : Db :=
  {| users := users d; identities := identities d; organizations := organizations d;
     memberships := memberships d; invitations := invitations d; sessions := sessions d;
     refresh_history := refresh_history d; auth_transactions := auth_transactions d;
     cli_login_requests := cli_login_requests d; operations := operations d;
     outbox_events := outbox_events d; idempotency_keys := idempotency_keys d;
     tenant_quotas := tenant_quotas d; tenants := tenants d; workspaces := workspaces d;
     runtime_credentials := runtime_credentials d; workspace_bootstrap_credentials :=
     workspace_bootstrap_credentials d; credential_leases := credential_leases d;
     tenant_redis_credentials := tenant_redis_credentials d; tenant_hook_keys :=
     tenant_hook_keys d; runtime_identities := runtime_identities d; github_connections
     := github_connections d; github_repositories := github_repositories d;
     tenant_hook_deliveries := f (tenant_hook_deliveries d); runtime_chats :=
     runtime_chats d; coder_user_links := coder_user_links d;
     organization_template_versions := organization_template_versions d;
     rate_limit_ledger := rate_limit_ledger d; template_releases := template_releases d;
     organization_current_releases := organization_current_releases d;
     template_release_roles := template_release_roles d; audit_events := audit_events d |}.
Definition on_runtime_chats (f : gmap (uuid * string) RuntimeChat → gmap (uuid * string) RuntimeChat) (d : Db) : Db :=
  {| users := users d; identities := identities d; organizations := organizations d;
     memberships := memberships d; invitations := invitations d; sessions := sessions d;
     refresh_history := refresh_history d; auth_transactions := auth_transactions d;
     cli_login_requests := cli_login_requests d; operations := operations d;
     outbox_events := outbox_events d; idempotency_keys := idempotency_keys d;
     tenant_quotas := tenant_quotas d; tenants := tenants d; workspaces := workspaces d;
     runtime_credentials := runtime_credentials d; workspace_bootstrap_credentials :=
     workspace_bootstrap_credentials d; credential_leases := credential_leases d;
     tenant_redis_credentials := tenant_redis_credentials d; tenant_hook_keys :=
     tenant_hook_keys d; runtime_identities := runtime_identities d; github_connections
     := github_connections d; github_repositories := github_repositories d;
     tenant_hook_deliveries := tenant_hook_deliveries d; runtime_chats := f
     (runtime_chats d); coder_user_links := coder_user_links d;
     organization_template_versions := organization_template_versions d;
     rate_limit_ledger := rate_limit_ledger d; template_releases := template_releases d;
     organization_current_releases := organization_current_releases d;
     template_release_roles := template_release_roles d; audit_events := audit_events d |}.
Definition on_rate_limit_ledger (f : gmap (string * string * Z) Z → gmap (string * string * Z) Z) (d : Db) : Db :=
  {| users := users d; identities := identities d; organizations := organizations d;
     memberships := memberships d; invitations := invitations d; sessions := sessions d;
     refresh_history := refresh_history d; auth_transactions := auth_transactions d;
     cli_login_requests := cli_login_requests d; operations := operations d;
     outbox_events := outbox_events d; idempotency_keys := idempotency_keys d;
     tenant_quotas := tenant_quotas d; tenants := tenants d; workspaces := workspaces d;
     runtime_credentials := runtime_credentials d; workspace_bootstrap_credentials :=
     workspace_bootstrap_credentials d; credential_leases := credential_leases d;
     tenant_redis_credentials := tenant_redis_credentials d; tenant_hook_keys :=
     tenant_hook_keys d; runtime_identities := runtime_identities d; github_connections
     := github_connections d; github_repositories := github_repositories d;
     tenant_hook_deliveries := tenant_hook_deliveries d; runtime_chats := runtime_chats
     d; coder_user_links := coder_user_links d; organization_template_versions :=
     organization_template_versions d; rate_limit_ledger := f (rate_limit_ledger d);
     template_releases := template_releases d; organization_current_releases :=
     organization_current_releases d; template_release_roles := template_release_roles
     d; audit_events := audit_events d |}.
Definition on_audit_events (f : list AuditRow → list AuditRow) (d : Db) : Db :=
  {| users := users d; identities := identities d; organizations := organizations d;
     memberships := memberships d; invitations := invitations d; sessions := sessions d;
     refresh_history := refresh_history d; auth_transactions := auth_transactions d;
     cli_login_requests := cli_login_requests d; operations := operations d;
     outbox_events := outbox_events d; idempotency_keys := idempotency_keys d;
     tenant_quotas := tenant_quotas d; tenants := tenants d; workspaces := workspaces d;
     runtime_credentials := runtime_credentials d; workspace_bootstrap_credentials :=
     workspace_bootstrap_credentials d; credential_leases := credential_leases d;
     tenant_redis_credentials := tenant_redis_credentials d; tenant_hook_keys :=
     tenant_hook_keys d; runtime_identities := runtime_identities d; github_connections
     := github_connections d; github_repositories := github_repositories d;
     tenant_hook_deliveries := tenant_hook_deliveries d; runtime_chats := runtime_chats
     d; coder_user_links := coder_user_links d; organization_template_versions :=
     organization_template_versions d; rate_limit_ledger := rate_limit_ledger d;
     template_releases := template_releases d; organization_current_releases :=
     organization_current_releases d; template_release_roles := template_release_roles
     d; audit_events := f (audit_events d) |}.
