(* ===== verification/Database.v ===== *)
(** * Errors, statements and transactions of the manager

    [error.rs] of [src/crates/openflows-manager/src], and how the services talk to
    PostgreSQL.  A service function is a computation [M] on the database, a count
    of the clock readings and a count of the random draws made so far.

    A statement reads the clock once ([clock_timestamp()]); [now()] is the start
    of the enclosing transaction.  A transaction that locks the rows it depends on
    is one step: other clients ([others]) act when a transaction, or a statement
    outside of one, begins.  A transaction that fails, or that returns without
    committing, leaves the database as it found it. *)
From S2P Require Import Prelude Text Json Schema.

(** ** Errors *)

Record ApiError := {
  api_code : string;
  api_message : string;
  api_retryable : bool;
}.

(** What a statement can be refused for: no row where one is required, a violated
    constraint with its name, a number out of its column's range, or no value where the
    code expects one. *)
Inductive SqlError :=
  | RowNotFound
  | Violates (constraint : string)
  | OutOfRange
  | UnexpectedNull.

Inductive ManagerError :=
  | Config (msg : string)
  | Io
  | Service (msg : string)
  | Api (e : ApiError)
  | Database (e : SqlError)
  | Migration (msg : string)
  | NotFound
  | Conflict (msg : string)
  | InvalidInput (msg : string).

Definition api (code message : string) : ManagerError :=
  Api {| api_code := code; api_message := message; api_retryable := false |}.

Definition not_found (resource : string) : ManagerError :=
  api "RESOURCE_NOT_FOUND" (resource +:+ " not found or outside your organization").

Definition retryable (b : bool) (e : ManagerError) : ManagerError :=
  match e with
  | Api a => Api {| api_code := api_code a; api_message := api_message a; api_retryable := b |}
  | other => other
  end.

(** The codes of a list, as an or-pattern. *)
Definition one_of (codes : list string) (c : string) : bool := bool_decide (c ∈ codes).

Definition api_status (code : string) : Z :=
  if one_of ["NOT_FOUND"; "RESOURCE_NOT_FOUND"] code then 404
  else if one_of ["CONFLICT"; "INSTALLATION_ALREADY_BOUND"; "CODER_SCOPE_MISMATCH"] code then 409
  else if one_of ["INVALID_INPUT"; "DEVICE_CODE_INVALID"] code then 422
  else if one_of ["UNAUTHORIZED"; "MISSING_AUTH"; "AUTH_FAILED"; "CSRF_FAILED";
                  "GITHUB_REAUTH_REQUIRED"] code then 401
  else if one_of ["FORBIDDEN"; "ORG_ADMIN_REQUIRED"; "GITHUB_OWNER_REQUIRED"; "MEMBER_SUSPENDED";
                  "OWNER_REQUIRED"; "INVITATION_WRONG_USER"; "REAUTH_REQUIRED"; "ORG_UNAVAILABLE";
                  "PLATFORM_OPERATOR_REQUIRED"; "TENANT_UNAVAILABLE"; "WORKSPACE_UNAVAILABLE";
                  "CONNECTION_UNAVAILABLE"; "REPOSITORY_UNAVAILABLE"; "AUTH_CHANGED"] code then 403
  else if one_of ["CODER_REAUTH_REQUIRED"; "CODER_CHAT_FORBIDDEN"] code then 403
  else if one_of ["RATE_LIMITED"; "TOO_MANY_REQUESTS"; "TENANT_LIMIT_REACHED";
                  "WORKER_LIMIT_REACHED"] code then 429
  else if one_of ["GITHUB_LIST_TOO_LARGE"; "SERVICE_UNAVAILABLE"; "GITHUB_UNAVAILABLE";
                  "CODER_UNAVAILABLE"; "CODER_CHAT_UNAVAILABLE"; "TEMPLATE_PROMOTION_DB_FAILED"] code
       then 503
  else if one_of ["CODER_TEMPLATE_ACCESS_DENIED"; "CODER_TEMPLATE_API_NOT_FOUND";
                  "CODER_TEMPLATE_REJECTED"; "CODER_INVALID_RESPONSE"] code then 502
  else if one_of ["GITHUB_OAUTH_ERROR"] code then 401
  else 500.

(** Status and envelope of the response; [request_id] is the request's. *)
Definition to_http_response (request_id : string) (error : ManagerError) : Z * Value :=
  let '(status, code, message, retry) :=
    match error with
    | Api a => (api_status (api_code a), api_code a, api_message a, api_retryable a)
    | NotFound => (404%Z, "RESOURCE_NOT_FOUND",
                   "resource not found or outside your organization", false)
    | Conflict msg => (409%Z, "CONFLICT", msg, false)
    | InvalidInput msg => (422%Z, "INVALID_INPUT", msg, false)
    | Config _ | Io | Migration _ => (503%Z, "INTERNAL", "internal service error", false)
    | Service _ | Database _ => (503%Z, "INTERNAL", "internal service error", false)
    end in
  (status,
   VObject [("error", VObject [("code", VString code); ("message", VString message);
                               ("request_id", VString request_id); ("retryable", VBool retry)])]).

(** ** Computations *)

Inductive reply (A : Type) :=
  | Done (a : A)
  | Refused (e : ManagerError)
  | Panicked.
Arguments Done {A} a.
Arguments Refused {A} e.
Arguments Panicked {A}.

(** What the manager takes back outside, on GitHub and on Coder. *)
Inductive Request :=
  | RevokeInstallationToken (installation_id : Z) (token : string)
  | DeleteWorkspace (organization_id workspace_id : string).

Record MState := {
  db : Db;
  moment : nat;      (* readings of the clocks so far *)
  draws : nat;       (* random values drawn so far *)
  tx_now : Z;        (* now(): when the transaction began *)
  vault : gmap string string;   (* what the secret provider holds *)
  asked : list Request;         (* oldest first *)
}.

(** The state with the first four fields replaced. *)
Definition restate (d : Db) (m k : nat) (now : Z) (s : MState) : MState :=
  {| db := d; moment := m; draws := k; tx_now := now; vault := vault s; asked := asked s |}.

Definition M (A : Type) : Type := MState → reply A * MState.

#[global] Instance m_ret : MRet M := λ A a s, (Done a, s).
#[global] Instance m_bind : MBind M := λ A B f m s,
  match m s with
  | (Done a, s') => f a s'
  | (Refused e, s') => (Refused e, s')
  | (Panicked, s') => (Panicked, s')
  end.
#[global] Instance m_fmap : FMap M := λ A B f m, a ← m; mret (f a).

Definition refuse {A} (e : ManagerError) : M A := λ s, (Refused e, s).
Definition panic {A} : M A := λ s, (Panicked, s).

(** [require b e;; k] is [if !b { return Err(e) } k]. *)
Definition require (b : bool) (e : ManagerError) : M unit := if b then mret tt else refuse e.

(** [option.ok_or_else(e)?]. *)
Definition ok_or {A} (o : option A) (e : ManagerError) : M A :=
  match o with Some a => mret a | None => refuse e end.

(** A pure check, [f(..)?]. *)
Definition check {A} (r : ManagerError + A) : M A :=
  match r with inl e => refuse e | inr a => mret a end.

(** [match m.await { Ok(a) => .., Err(e) => .. }]. *)
Definition attempt {A} (m : M A) : M (ManagerError + A) := λ s,
  match m s with
  | (Done a, s') => (Done (inr a), s')
  | (Refused e, s') => (Done (inl e), s')
  | (Panicked, s') => (Panicked, s')
  end.

(** A transaction body ends by committing or by dropping the transaction. *)
Inductive Tx (A : Type) :=
  | Commit (a : A)
  | Rollback (a : A).
Arguments Commit {A} a.
Arguments Rollback {A} a.

(** Secrets under their references: [SecretProvider] of [secrets.rs].  An operation
    is given the moment, since a provider can be unavailable, and what is held. *)
Inductive SecretError :=
  | SecretNotFound (name : string)
  | AlreadyExists (name : string)
  | Unavailable (msg : string)
  | Rejected (msg : string).

Record SecretProvider := {
  put_secret : nat → string → string → gmap string string → (SecretError + string) * gmap string string;
  replace_secret : nat → string → string → gmap string string → (SecretError + unit) * gmap string string;
  get_secret : nat → string → gmap string string → SecretError + string;
  delete_secret : nat → string → gmap string string → (SecretError + unit) * gmap string string;
  canonical_reference : string → SecretError + string;
}.

(** Everything the manager is given from outside. *)
Record Env := {
  clock : nat → Z;                 (* clock_timestamp() *)
  utc : nat → Z;                   (* chrono::Utc::now() *)
  new_uuid : nat → uuid;           (* Uuid::new_v4() *)
  new_secret : nat → string;       (* Secret::generate().encode() *)
  sha256_hex : string → string;
  print_json : Value → string;
  parse_json : string → option Value;
  secrets : SecretProvider;
  parse_uuid : string → option uuid;
  others : nat → Db → Db;          (* what other clients did before a transaction *)
  locked : nat → uuid → bool;      (* rows other clients hold, for SKIP LOCKED *)
}.

Definition SECOND : Z := 1000000.
Definition MINUTE : Z := 60 * SECOND.
Definition HOUR : Z := 60 * MINUTE.
Definition DAY : Z := 24 * HOUR.

Definition I32_MAX : Z := 2147483647.
Definition I64_MAX : Z := 9223372036854775807.

Section statements.
Context (env : Env).

Definition tick (s : MState) : MState :=
  restate (db s) (S (moment s)) (draws s) (tx_now s) s.
Definition with_db (d : Db) (s : MState) : MState :=
  restate d (moment s) (draws s) (tx_now s) s.

(** A statement: [f now clock] on the database, refused or with a result. *)
Definition sql {A} (f : Z → Z → Db → SqlError + A * Db) : M A := λ s,
  match f (tx_now s) (clock env (moment s)) (db s) with
  | inl e => (Refused (Database e), tick s)
  | inr (a, d) => (Done a, tick (with_db d s))
  end.

Definition query {A} (f : Z → Z → Db → A) : M A := sql (λ now t d, inr (f now t d, d)).
Definition execute {A} (f : Z → Z → Db → A * Db) : M A := sql (λ now t d, inr (f now t d)).

(** [fetch_one] refuses an empty result. *)
Definition fetch_one {A} (o : option A) : M A := ok_or o (Database RowNotFound).

Definition uuid_v4 : M uuid := λ s,
  (Done (new_uuid env (draws s)),
   restate (db s) (moment s) (S (draws s)) (tx_now s) s).
Definition generate_secret : M string := λ s,
  (Done (new_secret env (draws s)),
   restate (db s) (moment s) (S (draws s)) (tx_now s) s).
Definition utc_now : M Z := λ s, (Done (utc env (moment s)), tick s).

(** A call of the secret provider; what it stores is not undone with a transaction. *)
Definition with_vault {A} (f : nat → gmap string string → A * gmap string string) : M A := λ s,
  let '(a, v) := f (moment s) (vault s) in
  (Done a, {| db := db s; moment := S (moment s); draws := draws s; tx_now := tx_now s;
              vault := v; asked := asked s |}).

Definition ask (r : Request) : M unit := λ s,
  (Done tt, {| db := db s; moment := S (moment s); draws := draws s; tx_now := tx_now s;
               vault := vault s; asked := asked s ++ [r] |}).

(** Other clients act, and [now()] is fixed. *)
Definition begin : M unit := λ s,
  (Done tt, restate (others env (moment s) (db s)) (S (moment s)) (draws s) (clock env (moment s)) s).

(** A statement on the pool is a transaction of its own. *)
Definition on_pool {A} (m : M A) : M A := begin;; m.

(** The body of a transaction, undone unless it commits. *)
Definition atomically {A} (body : M (Tx A)) : M A := λ s,
  match body s with
  | (Done (Commit a), s') => (Done a, s')
  | (Done (Rollback a), s') => (Done a, with_db (db s) s')
  | (Refused e, s') => (Refused e, with_db (db s) s')
  | (Panicked, s') => (Panicked, with_db (db s) s')
  end.

Definition transaction {A} (body : M (Tx A)) : M A := begin;; atomically body.

End statements.

(** ** Tables *)

(** [INSERT] of a row under a primary key. *)
Definition insert_row {K V} `{Countable K} (pk : string) (k : K) (v : V) (tab : gmap K V) :
    SqlError + gmap K V :=
  match tab !! k with
  | Some _ => inl (Violates pk)
  | None => inr (<[k := v]> tab)
  end.

(** Rows that satisfy a condition, in the order of their keys. *)
Definition rows {K V} `{Countable K} (p : K → V → bool) (tab : gmap K V) : list (K * V) :=
  map_to_list (filter (λ kv, p kv.1 kv.2 = true) tab).

Definition exists_row {K V} `{Countable K} (p : K → V → bool) (tab : gmap K V) : bool :=
  bool_decide (rows p tab ≠ []).

Definition count {K V} `{Countable K} (p : K → V → bool) (tab : gmap K V) : Z :=
  Z.of_nat (length (rows p tab)).

(** [UPDATE .. WHERE]: every row that satisfies [p] is replaced by [f] of it. *)
Definition update {K V} `{Countable K} (p : K → V → bool) (f : V → V) (tab : gmap K V) : gmap K V :=
  map_imap (λ k v, Some (if p k v then f v else v)) tab.

(** [UPDATE .. WHERE id = k AND p]: the number of rows changed. *)
Definition update_one {K V} `{Countable K} (k : K) (p : V → bool) (f : V → V) (tab : gmap K V) :
    Z * gmap K V :=
  match tab !! k with
  | Some v => if p v then (1%Z, <[k := f v]> tab) else (0%Z, tab)
  | None => (0%Z, tab)
  end.

(** [DELETE .. WHERE]. *)
Definition delete_rows {K V} `{Countable K} (p : K → V → bool) (tab : gmap K V) : gmap K V :=
  filter (λ kv, p kv.1 kv.2 = false) tab.

(** [ORDER BY]: insertion sort on a comparison; where rows compare equal the
    database is free, and the order of the keys is kept. *)
Fixpoint insert_by {A} (le : A → A → bool) (x : A) (l : list A) : list A :=
  match l with
  | [] => [x]
  | y :: l' => if le x y then x :: y :: l' else y :: insert_by le x l'
  end.
Definition order_by {A} (le : A → A → bool) (l : list A) : list A :=
  foldr (insert_by le) [] l.

(** [IS NULL OR <], and comparisons with a nullable column, which are not true of
    [NULL]. *)
Definition null_or {A} (f : A → bool) (o : option A) : bool :=
  match o with None => true | Some a => f a end.

(** ** The provider that keeps secrets in memory *)

Definition in_memory : SecretProvider := {|
  put_secret _ name value held :=
    match held !! name with
    | Some _ => (inl (AlreadyExists name), held)
    | None => (inr name, <[name := value]> held)
    end;
  replace_secret _ name value held :=
    match held !! name with
    | Some _ => (inr tt, <[name := value]> held)
    | None => (inl (SecretNotFound name), held)
    end;
  get_secret _ name held :=
    match held !! name with Some v => inr v | None => inl (SecretNotFound name) end;
  delete_secret _ name held :=
    match held !! name with
    | Some _ => (inr tt, base.delete name held)
    | None => (inl (SecretNotFound name), held)
    end;
  canonical_reference name := inr name;
|}.
