(* ===== verification/Operations.v ===== *)
(** * Durable operations

    [operations.rs] of the manager: creating operations, claiming them under a
    lease, and what the holder of a lease may do.  A lease is an owner, a fresh
    token and an expiry in the operation's row; a [LeaseGuard] is the holder's copy
    of owner and token. *)
From S2P Require Import Prelude Text Json Schema Database.

Definition LEASE_DURATION : Z := 30 * SECOND.
Definition MAX_AUTOMATIC_ATTEMPTS : Z := 8.

Inductive OperationState :=
  Queued | Running | Succeeded | Failed | Cancelled | RetryableFailed.

Definition as_str (s : OperationState) : string :=
  match s with
  | Queued => "queued"
  | Running => "running"
  | Succeeded => "succeeded"
  | Failed => "failed"
  | Cancelled => "cancelled"
  | RetryableFailed => "retryable_failed"
  end.

Record LeaseGuard := {
  g_operation_id : uuid;
  g_organization_id : uuid;
  g_owner : string;
  g_token : uuid;
}.

Record NewOperation := {
  no_organization_id : uuid;
  no_resource_type : string;
  no_resource_id : option uuid;
  no_kind : string;
  no_idempotency_ref : option string;
}.

(** The kinds whose idempotency reference is unique per organization
    ([operations_runtime_idempotency]). *)
Definition RUNTIME_KINDS : list string := ["tenant.workspace"; "workspace.stop"; "workspace.delete"].

Definition duplicate_runtime_request (op : NewOperation) (tab : gmap uuid OperationRecord) : bool :=
  match no_idempotency_ref op with
  | Some ref =>
      one_of RUNTIME_KINDS (no_kind op) &&
      exists_row (λ _ o, bool_decide (op_organization_id o = no_organization_id op) &&
                         bool_decide (op_kind o = no_kind op) &&
                         bool_decide (op_idempotency_ref o = Some ref)) tab
  | None => false
  end.

Definition new_row (op : NewOperation) (now : Z) : OperationRecord :=
  {| op_organization_id := no_organization_id op; op_resource_type := no_resource_type op;
     op_resource_id := no_resource_id op; op_kind := no_kind op;
     op_idempotency_ref := no_idempotency_ref op; op_state := "queued"; op_current_step := None;
     op_attempt_count := 0; op_retry_at := None; op_lease_owner := None;
     op_lease_expires_at := None; op_lease_token := None; op_error_code := None;
     op_sanitized_result := None; op_created_at := now; op_updated_at := now |}.

(** The [INSERT], with the constraints of the table. *)
Definition insert_operation (id : uuid) (op : NewOperation) (now : Z) (d : Db) : SqlError + unit * Db :=
  match organizations d !! no_organization_id op with
  | None => inl (Violates "operations_organization_id_fkey")
  | Some _ =>
      if duplicate_runtime_request op (operations d)
      then inl (Violates "operations_runtime_idempotency")
      else match insert_row "operations_pkey" id (new_row op now) (operations d) with
           | inl e => inl e
           | inr tab => inr (tt, on_operations (λ _, tab) d)
           end
  end.

(** ** Claiming *)

Definition free_at (now : Z) (o : OperationRecord) : bool :=
  null_or (λ e, e <? now)%Z (op_lease_expires_at o) && null_or (λ r, r <=? now)%Z (op_retry_at o).

Definition pending (o : OperationRecord) : bool :=
  one_of ["queued"; "running"] (op_state o) ||
  (bool_decide (op_state o = "retryable_failed") && is_some (op_retry_at o)).

Definition claimable (now : Z) (kind : option string) (o : OperationRecord) : bool :=
  pending o && free_at now o && null_or (λ k, bool_decide (op_kind o = k)) kind.

Definition by_creation (a b : uuid * OperationRecord) : bool :=
  (op_created_at a.2 <=? op_created_at b.2)%Z.

(** The row under a new lease; the attempt counter is a 32 bit column. *)
Definition lease_to (owner : string) (token : uuid) (now t : Z) (o : OperationRecord) :
    option OperationRecord :=
  if (op_attempt_count o <? I32_MAX)%Z then
    Some (o ▷ op_set_lease_owner (Some owner)
            ▷ op_set_lease_expires_at (Some (t + LEASE_DURATION)%Z)
            ▷ op_set_lease_token (Some token)
            ▷ op_set_attempt_count (op_attempt_count o + 1)%Z
            ▷ op_set_state "running"
            ▷ op_set_updated_at now)
  else None.

(** [UPDATE .. WHERE id = (SELECT .. ORDER BY created_at LIMIT 1 FOR UPDATE SKIP
    LOCKED)]. *)
Definition claim_oldest (owner : string) (token : uuid) (p : Z → uuid → OperationRecord → bool)
    (now t : Z) (d : Db) : SqlError + option LeaseGuard * Db :=
  match order_by by_creation (rows (p now) (operations d)) with
  | [] => inr (None, d)
  | (id, o) :: _ =>
      match lease_to owner token now t o with
      | None => inl OutOfRange
      | Some o' =>
          inr (Some {| g_operation_id := id; g_organization_id := op_organization_id o;
                       g_owner := owner; g_token := token |},
               on_operations (<[id := o']>) d)
      end
  end.

(** ** What a lease holder does *)

(** [lease_owner = .. AND lease_token = .. AND lease_expires_at > clock_timestamp()]. *)
Definition holds (g : LeaseGuard) (t : Z) (o : OperationRecord) : bool :=
  bool_decide (op_lease_owner o = Some (g_owner g)) &&
  bool_decide (op_lease_token o = Some (g_token g)) &&
  is_some_and (λ e, t <? e)%Z (op_lease_expires_at o).

Definition holds_running (g : LeaseGuard) (t : Z) (o : OperationRecord) : bool :=
  holds g t o && bool_decide (op_state o = "running").

Definition unlease (o : OperationRecord) : OperationRecord :=
  o ▷ op_set_lease_owner None ▷ op_set_lease_token None ▷ op_set_lease_expires_at None.

Definition retry_delay (attempt : Z) : Z :=
  (Z.min (Z.shiftl 1 (Z.max 1 (Z.min attempt 6))) 60 * SECOND)%Z.

Section operations.
Context (env : Env).

Definition create_in_tx (op : NewOperation) : M uuid :=
  id ← uuid_v4 env;
  sql env (λ now _ d, insert_operation id op now d);;
  mret id.

Definition create (op : NewOperation) : M uuid := on_pool env (create_in_tx op).

(** Rows other clients hold locked. *)
Definition locked_rows : M (uuid → bool) := λ s, (Done (locked env (moment s)), s).

Definition claim_kind (owner : string) (kind : option string) : M (option LeaseGuard) :=
  token ← uuid_v4 env;
  on_pool env (
    skip ← locked_rows;
    sql env (claim_oldest owner token (λ now id o, claimable now kind o && negb (skip id)))).

Definition claim (owner : string) : M (option LeaseGuard) := claim_kind owner None.

Definition claim_promote (owner : string) (release_id : uuid) : M (option LeaseGuard) :=
  token ← uuid_v4 env;
  on_pool env (
    skip ← locked_rows;
    sql env (claim_oldest owner token (λ now id o,
      bool_decide (op_kind o = "template.promote") &&
      bool_decide (op_resource_id o = Some release_id) &&
      pending o && free_at now o && negb (skip id)))).

(** *** Claiming within the organization's slot *)

(** An abandoned deletion of a tenant that is still to be deleted is taken up again
    after five minutes. *)
Definition abandoned_deletion (now : Z) (d : Db) (o : OperationRecord) : bool :=
  bool_decide (op_kind o = "tenant.delete") && bool_decide (op_state o = "retryable_failed") &&
  is_none (op_retry_at o) && (op_updated_at o <? now - 5 * MINUTE)%Z &&
  match op_resource_id o ≫= λ t, tenants d !! t with
  | Some t => bool_decide (t_organization_id t = op_organization_id o) &&
              bool_decide (t_desired_state t = "deleting")
  | None => false
  end.

Definition slot_claimable (kinds : list string) (now : Z) (d : Db) (o : OperationRecord) : bool :=
  (pending o || abandoned_deletion now d o) && free_at now o && one_of kinds (op_kind o).

Definition deletion_rank (o : OperationRecord) : Z :=
  if bool_decide (op_kind o = "tenant.delete") then 0 else 1.

Definition by_org_and_rank (a b : uuid * OperationRecord) : bool :=
  if bool_decide (op_organization_id a.2 = op_organization_id b.2) then
    if (deletion_rank a.2 =? deletion_rank b.2)%Z then by_creation a b
    else (deletion_rank a.2 <? deletion_rank b.2)%Z
  else String.leb (op_organization_id a.2) (op_organization_id b.2).

(** [DISTINCT ON (organization_id)] of rows sorted by it. *)
Fixpoint distinct_on_org (l : list (uuid * OperationRecord)) : list (uuid * OperationRecord) :=
  match l with
  | [] => []
  | a :: l' => a :: filter (λ x, op_organization_id x.2 ≠ op_organization_id a.2) (distinct_on_org l')
  end.

Definition candidates (kinds : list string) (now : Z) (d : Db) : list (uuid * uuid) :=
  (λ x, (x.1, op_organization_id x.2)) <$>
  order_by by_creation
    (distinct_on_org
       (order_by by_org_and_rank (rows (λ _ o, slot_claimable kinds now d o) (operations d)))).

(** A live operation of the kinds, which occupies a slot of its organization. *)
Definition occupies (org : uuid) (kinds : list string) (t : Z) (o : OperationRecord) : bool :=
  bool_decide (op_organization_id o = org) && bool_decide (op_state o = "running") &&
  is_some_and (λ e, t <? e)%Z (op_lease_expires_at o) && one_of kinds (op_kind o).

(** The transaction for one candidate, under the organization's advisory lock. *)
Definition claim_candidate (owner : string) (kinds : list string) (id token : uuid) :
    M (Tx (option LeaseGuard)) :=
  found ← query env (λ now _ d,
    match operations d !! id with
    | Some o => if slot_claimable kinds now d o then Some (op_organization_id o) else None
    | None => None
    end);
  match found with
  | None => mret (Commit None)
  | Some org =>
      max ← query env (λ _ _ d,
        default 1%Z (tq_max_concurrent_provisioning_ops <$> tenant_quotas d !! org));
      active ← query env (λ _ t d,
        count (λ k o, negb (bool_decide (k = id)) && occupies org kinds t o) (operations d));
      if (max <=? active)%Z then mret (Commit None)
      else
        sql env (λ now t d,
          match operations d !! id with
          | None => inr (tt, d)
          | Some o =>
              match lease_to owner token now t o with
              | None => inl OutOfRange
              | Some o' => inr (tt, on_operations (<[id := o']>) d)
              end
          end);;
        mret (Commit (Some {| g_operation_id := id; g_organization_id := org;
                              g_owner := owner; g_token := token |}))
  end.

Definition claim_slot (owner : string) (kinds : list string) (id : uuid) : M (option LeaseGuard) :=
  token ← uuid_v4 env;
  transaction env (claim_candidate owner kinds id token).

Fixpoint claim_candidates (owner : string) (kinds : list string) (l : list (uuid * uuid)) :
    M (option LeaseGuard) :=
  match l with
  | [] => mret None
  | (id, _) :: l' =>
      got ← claim_slot owner kinds id;
      match got with
      | Some g => mret (Some g)
      | None => claim_candidates owner kinds l'
      end
  end.

Definition claim_kinds_with_org_slot (owner : string) (kinds : list string) :
    M (option LeaseGuard) :=
  match kinds with
  | [] => mret None
  | _ =>
      l ← on_pool env (query env (λ now _ d, candidates kinds now d));
      claim_candidates owner kinds l
  end.

(** *** Under the lease *)

(** [UPDATE operations SET .. WHERE id = .. AND ..]; the answer says whether a row
    was changed. *)
Definition update_held (g : LeaseGuard) (p : Z → OperationRecord → bool)
    (f : Z → Z → OperationRecord → OperationRecord) : M bool :=
  execute env (λ now t d,
    let '(n, tab) := update_one (g_operation_id g) (p t) (f now t) (operations d) in
    (bool_decide (n = 1%Z), on_operations (λ _, tab) d)).

Definition lock_in_tx (g : LeaseGuard) : M bool :=
  query env (λ _ t d,
    is_some_and (λ o, holds_running g t o &&
                      bool_decide (op_organization_id o = g_organization_id g))
                (operations d !! g_operation_id g)).

Definition complete_in_tx (g : LeaseGuard) (result : Value) : M bool :=
  update_held g (holds_running g) (λ now _ o,
    unlease o ▷ op_set_state "succeeded" ▷ op_set_sanitized_result (Some result)
              ▷ op_set_error_code None ▷ op_set_retry_at None ▷ op_set_updated_at now).

Definition heartbeat (g : LeaseGuard) : M bool :=
  on_pool env (update_held g (holds g) (λ now t o,
    o ▷ op_set_lease_expires_at (Some (t + LEASE_DURATION)%Z) ▷ op_set_updated_at now)).

(** [delay] in seconds. *)
Definition requeue_after (g : LeaseGuard) (waiting_step : string) (delay : Z) : M bool :=
  on_pool env (update_held g (holds_running g) (λ now t o,
    unlease o ▷ op_set_state "queued" ▷ op_set_current_step (Some waiting_step)
              ▷ op_set_attempt_count (Z.max (op_attempt_count o - 1) 0)
              ▷ op_set_retry_at (Some (t + Z.max delay 0 * SECOND)%Z)
              ▷ op_set_updated_at now)).

Definition requeue (g : LeaseGuard) (waiting_step : string) : M bool :=
  requeue_after g waiting_step 0.

Definition complete (g : LeaseGuard) (sanitized_result : option Value) : M bool :=
  on_pool env (update_held g (holds g) (λ now _ o,
    unlease o ▷ op_set_state "succeeded" ▷ op_set_sanitized_result sanitized_result
              ▷ op_set_error_code None ▷ op_set_updated_at now)).

(** The failure is recorded by the holder of a live lease. *)
Definition settle (g : LeaseGuard) (state : string) (retry_at : option Z)
    (error_code : option string) : M bool :=
  on_pool env (update_held g (holds g) (λ now _ o,
    unlease o ▷ op_set_state state ▷ op_set_retry_at retry_at ▷ op_set_error_code error_code
              ▷ op_set_updated_at now)).

Definition fail (g : LeaseGuard) (retryable : bool) (error_code : option string) : M bool :=
  attempts ← on_pool env (query env (λ _ _ d,
    match operations d !! g_operation_id g with
    | Some o =>
        if bool_decide (op_lease_owner o = Some (g_owner g)) &&
           bool_decide (op_lease_token o = Some (g_token g))
        then op_attempt_count o else MAX_AUTOMATIC_ATTEMPTS
    | None => MAX_AUTOMATIC_ATTEMPTS
    end));
  '(state, retry_at) ←
    (if retryable then
       if (attempts <? MAX_AUTOMATIC_ATTEMPTS)%Z then
         n ← utc_now env;
         mret (as_str RetryableFailed, Some (n + retry_delay attempts)%Z)
       else mret (as_str RetryableFailed, None)
     else mret (as_str Failed, None));
  settle g state retry_at error_code.

Definition set_step (g : LeaseGuard) (step : string) : M bool :=
  on_pool env (update_held g (holds g) (λ now _ o,
    o ▷ op_set_current_step (Some step) ▷ op_set_updated_at now)).

(** ** By hand, and reading *)

Definition retriable (t : Z) (o : OperationRecord) : bool :=
  (bool_decide (op_state o = "retryable_failed") ||
   (bool_decide (op_state o = "failed") && bool_decide (op_kind o = "org.provision") &&
    bool_decide (op_error_code o = Some "IMPORT_FAILED")) ||
   (bool_decide (op_state o = "failed") && bool_decide (op_kind o = "template.promote"))) &&
  null_or (λ e, e <? t)%Z (op_lease_expires_at o).

Definition retry_in_tx (id organization_id : uuid) : M unit :=
  affected ← execute env (λ now t d,
    let '(n, tab) := update_one id
      (λ o, bool_decide (op_organization_id o = organization_id) && retriable t o)
      (λ o, unlease o ▷ op_set_state "queued" ▷ op_set_retry_at None ▷ op_set_error_code None
                      ▷ op_set_attempt_count 0 ▷ op_set_updated_at now) (operations d) in
    (n, on_operations (λ _, tab) d));
  require (bool_decide (affected = 1%Z)) (Conflict "operation is not available for retry").

Definition get_scoped (organization_id id : uuid) : M (option OperationRecord) :=
  on_pool env (query env (λ _ _ d,
    match operations d !! id with
    | Some o => if bool_decide (op_organization_id o = organization_id) then Some o else None
    | None => None
    end)).

(** Through the caller's active membership. *)
Definition get_for_user (id caller : uuid) : M (option OperationRecord) :=
  on_pool env (query env (λ _ _ d,
    match operations d !! id with
    | Some o =>
        match memberships d !! (op_organization_id o, caller), users d !! caller,
              organizations d !! op_organization_id o with
        | Some m, Some u, Some org =>
            if bool_decide (m_status m = "active") && bool_decide (u_status u = "active") &&
               negb (bool_decide (o_status org = "deleted"))
            then Some o else None
        | _, _, _ => None
        end
    | None => None
    end)).

Definition is_leased_to (id : uuid) (owner : string) : M bool :=
  found ← on_pool env (query env (λ _ _ d, operations d !! id));
  o ← fetch_one found;
  n ← utc_now env;
  mret (bool_decide (op_lease_owner o = Some owner) &&
        is_some_and (λ e, n <? e)%Z (op_lease_expires_at o)).

End operations.
