(* ===== verification/Outbox.v ===== *)
(** * Audit trail and outbox

    [audit.rs] and [outbox.rs] of the manager.  Audit rows and outbox events are
    written in the transaction of the change they record; leased workers deliver
    the events. *)
From S2P Require Import Prelude Text Json Schema Database.

(** ** Audit *)

Inductive AuditResult := Success | Denied | Failure.

Definition audit_result_str (r : AuditResult) : string :=
  match r with Success => "success" | Denied => "denied" | Failure => "failure" end.

Record AuditEvent := {
  ae_organization_id : option uuid;
  ae_actor_type : string;
  ae_actor_id : option uuid;
  ae_action : string;
  ae_resource_type : option string;
  ae_resource_id : option uuid;
  ae_result : AuditResult;
  ae_request_id : option string;
}.

Definition audit_new (action : string) : AuditEvent :=
  {| ae_organization_id := None; ae_actor_type := "user"; ae_actor_id := None;
     ae_action := action; ae_resource_type := None; ae_resource_id := None;
     ae_result := Success; ae_request_id := None |}.
Definition organization (id : uuid) (e : AuditEvent) : AuditEvent :=
  {| ae_organization_id := Some id; ae_actor_type := ae_actor_type e; ae_actor_id := ae_actor_id e;
     ae_action := ae_action e; ae_resource_type := ae_resource_type e;
     ae_resource_id := ae_resource_id e; ae_result := ae_result e; ae_request_id := ae_request_id e |}.
Definition actor (id : uuid) (e : AuditEvent) : AuditEvent :=
  {| ae_organization_id := ae_organization_id e; ae_actor_type := ae_actor_type e;
     ae_actor_id := Some id; ae_action := ae_action e; ae_resource_type := ae_resource_type e;
     ae_resource_id := ae_resource_id e; ae_result := ae_result e; ae_request_id := ae_request_id e |}.
Definition actor_type (t : string) (e : AuditEvent) : AuditEvent :=
  {| ae_organization_id := ae_organization_id e; ae_actor_type := t; ae_actor_id := ae_actor_id e;
     ae_action := ae_action e; ae_resource_type := ae_resource_type e;
     ae_resource_id := ae_resource_id e; ae_result := ae_result e; ae_request_id := ae_request_id e |}.
Definition resource (t : string) (id : uuid) (e : AuditEvent) : AuditEvent :=
  {| ae_organization_id := ae_organization_id e; ae_actor_type := ae_actor_type e;
     ae_actor_id := ae_actor_id e; ae_action := ae_action e; ae_resource_type := Some t;
     ae_resource_id := Some id; ae_result := ae_result e; ae_request_id := ae_request_id e |}.
Definition with_result (r : AuditResult) (e : AuditEvent) : AuditEvent :=
  {| ae_organization_id := ae_organization_id e; ae_actor_type := ae_actor_type e;
     ae_actor_id := ae_actor_id e; ae_action := ae_action e; ae_resource_type := ae_resource_type e;
     ae_resource_id := ae_resource_id e; ae_result := r; ae_request_id := ae_request_id e |}.
Definition request_id (r : string) (e : AuditEvent) : AuditEvent :=
  {| ae_organization_id := ae_organization_id e; ae_actor_type := ae_actor_type e;
     ae_actor_id := ae_actor_id e; ae_action := ae_action e; ae_resource_type := ae_resource_type e;
     ae_resource_id := ae_resource_id e; ae_result := ae_result e; ae_request_id := Some r |}.

Definition audit_row (id : uuid) (now : Z) (e : AuditEvent) : AuditRow :=
  {| au_id := id; au_organization_id := ae_organization_id e; au_actor_type := ae_actor_type e;
     au_actor_id := ae_actor_id e; au_action := ae_action e; au_resource_type := ae_resource_type e;
     au_resource_id := ae_resource_id e; au_result := audit_result_str (ae_result e);
     au_request_id := ae_request_id e; au_occurred_at := now |}.

(** ** Outbox *)

Definition OUTBOX_LEASE : Z := 30 * SECOND.

Record OutboxClaim := {
  oc_id : uuid;
  oc_organization_id : option uuid;
  oc_event_type : string;
  oc_payload : option Value;
  oc_attempts : Z;
  oc_owner : string;
  oc_token : uuid;
}.

Definition event_row (organization_id : option uuid) (event_type : string) (payload : option Value)
    (now : Z) : OutboxEvent :=
  {| ob_organization_id := organization_id; ob_event_type := event_type; ob_payload := payload;
     ob_attempts := 0; ob_lease_owner := None; ob_lease_expires_at := None; ob_lease_token := None;
     ob_delivered_at := None; ob_retry_at := None; ob_failed_at := None; ob_created_at := now |}.

Definition deliverable (types : option (list string)) (now t : Z) (e : OutboxEvent) : bool :=
  is_none (ob_delivered_at e) && is_none (ob_failed_at e) &&
  null_or (λ r, r <=? t)%Z (ob_retry_at e) &&
  null_or (λ l, one_of l (ob_event_type e)) types &&
  null_or (λ x, x <? now)%Z (ob_lease_expires_at e).

Definition event_by_creation (a b : uuid * OutboxEvent) : bool :=
  (ob_created_at a.2 <=? ob_created_at b.2)%Z.

Definition lease_event (owner : string) (token : uuid) (t : Z) (e : OutboxEvent) : OutboxEvent :=
  e ▷ ob_set_lease_owner (Some owner) ▷ ob_set_lease_expires_at (Some (t + OUTBOX_LEASE)%Z)
    ▷ ob_set_lease_token (Some token) ▷ ob_set_attempts (ob_attempts e + 1)%Z.

Definition claim_of (owner : string) (token : uuid) (x : uuid * OutboxEvent) : OutboxClaim :=
  {| oc_id := x.1; oc_organization_id := ob_organization_id x.2; oc_event_type := ob_event_type x.2;
     oc_payload := ob_payload x.2; oc_attempts := ob_attempts x.2; oc_owner := owner;
     oc_token := token |}.

(** Lease the chosen rows, oldest first; a counter that leaves its range refuses the
    whole statement. *)
Definition claim_events (owner : string) (token : uuid) (limit : Z) (types : option (list string))
    (skip : uuid → bool) (now t : Z) (d : Db) : SqlError + list OutboxClaim * Db :=
  let chosen := take (Z.to_nat limit)
    (order_by event_by_creation
       (rows (λ k e, deliverable types now t e && negb (skip k)) (outbox_events d))) in
  if forallb (λ x, ob_attempts x.2 <? I32_MAX)%Z chosen then
    let leased := (λ x, (x.1, lease_event owner token t x.2)) <$> chosen in
    inr (claim_of owner token <$> leased,
         on_outbox_events (λ tab, foldr (λ x tab, <[x.1 := x.2]> tab) tab leased) d)
  else inl OutOfRange.

(** The claim is the live one of an event that is still to be delivered. *)
Definition live_claim (c : OutboxClaim) (t : Z) (e : OutboxEvent) : bool :=
  bool_decide (ob_lease_owner e = Some (oc_owner c)) &&
  bool_decide (ob_lease_token e = Some (oc_token c)) &&
  is_some_and (λ x, t <? x)%Z (ob_lease_expires_at e) && is_none (ob_delivered_at e).

Definition unlease_event (e : OutboxEvent) : OutboxEvent :=
  e ▷ ob_set_lease_owner None ▷ ob_set_lease_expires_at None ▷ ob_set_lease_token None.

(** [2_i32.pow(attempts.clamp(1, 8))] seconds. *)
Definition backoff (attempts : Z) : Z := (2 ^ Z.max 1 (Z.min attempts 8))%Z.

(** The operation an event belongs to is finished by its delivery: it has to be
    queued, of the event's kind and organization, and not leased. *)
Definition owned_operation (c : OutboxClaim) (o : OperationRecord) : bool :=
  bool_decide (Some (op_organization_id o) = oc_organization_id c) &&
  bool_decide (op_kind o = oc_event_type c) && bool_decide (op_state o = "queued") &&
  is_none (op_lease_owner o).

Definition operation_text (c : OutboxClaim) : option string :=
  (oc_payload c ≫= λ p, Json.get "operation_id" p) ≫= λ v, Json.as_str v.

Section outbox.
Context (env : Env).

Definition audit (e : AuditEvent) : M unit :=
  id ← uuid_v4 env;
  sql env (λ now _ d,
    if match ae_organization_id e with
       | Some org => is_some (organizations d !! org)
       | None => true
       end
    then inr (tt, on_audit_events (λ l, l ++ [audit_row id now e]) d)
    else inl (Violates "audit_events_organization_id_fkey")).

Definition insert_in_tx (organization_id : option uuid) (event_type : string)
    (payload : option Value) : M uuid :=
  id ← uuid_v4 env;
  sql env (λ now _ d,
    if match organization_id with Some org => is_some (organizations d !! org) | None => true end
    then match insert_row "outbox_events_pkey" id (event_row organization_id event_type payload now)
                 (outbox_events d) with
         | inl e => inl e
         | inr tab => inr (tt, on_outbox_events (λ _, tab) d)
         end
    else inl (Violates "outbox_events_organization_id_fkey"));;
  mret id.

Definition claim_filtered (owner : string) (limit : Z) (types : option (list string)) :
    M (list OutboxClaim) :=
  token ← uuid_v4 env;
  on_pool env (λ s,
    sql env (claim_events owner token limit types (locked env (moment s))) s).

Definition claim (owner : string) (limit : Z) : M (list OutboxClaim) :=
  claim_filtered owner limit None.

(** [UPDATE outbox_events SET .. WHERE id = .. AND ..]. *)
Definition update_claimed (c : OutboxClaim) (p : Z → OutboxEvent → bool)
    (f : Z → Z → OutboxEvent → OutboxEvent) : M bool :=
  execute env (λ now t d,
    let '(n, tab) := update_one (oc_id c) (p t) (f now t) (outbox_events d) in
    (bool_decide (n = 1%Z), on_outbox_events (λ _, tab) d)).

Definition heartbeat (c : OutboxClaim) : M bool :=
  on_pool env (update_claimed c (live_claim c) (λ _ t e,
    ob_set_lease_expires_at (Some (t + OUTBOX_LEASE)%Z) e)).

Definition deliver (c : OutboxClaim) : M bool :=
  update_claimed c (live_claim c) (λ now _ e, unlease_event e ▷ ob_set_delivered_at (Some now)).

Definition mark_delivered (c : OutboxClaim) : M bool := on_pool env (deliver c).

Definition complete_operation_delivery (c : OutboxClaim) : M bool :=
  operation ←
    match operation_text c with
    | None => mret None
    | Some text =>
        id ← ok_or (parse_uuid env text) (InvalidInput "invalid operation id in outbox");
        mret (Some id)
    end;
  transaction env (
    delivered ← deliver c;
    if negb delivered then mret (Rollback false)
    else
      match operation with
      | None => mret (Commit true)
      | Some id =>
          updated ← execute env (λ now _ d,
            let '(n, tab) := update_one id (owned_operation c)
              (λ o, o ▷ op_set_state "succeeded" ▷ op_set_updated_at now) (operations d) in
            (n, on_operations (λ _, tab) d));
          require (bool_decide (updated = 1%Z))
            (Service "outbox operation is not queued or scope mismatched");;
          mret (Commit true)
      end).

Definition release_lease (c : OutboxClaim) : M bool :=
  on_pool env (update_claimed c (live_claim c) (λ _ _ e, unlease_event e)).

Definition fail_delivery (c : OutboxClaim) (permanent : bool) : M bool :=
  transaction env (
    changed ← update_claimed c (λ t e, live_claim c t e && is_none (ob_failed_at e)) (λ _ t e,
      unlease_event e
      ▷ ob_set_retry_at (if permanent then None else Some (t + backoff (oc_attempts c) * SECOND)%Z)
      ▷ ob_set_failed_at (if permanent then Some t else None));
    match (if changed && permanent then operation_text c ≫= parse_uuid env else None) with
    | None => mret tt
    | Some id =>
        execute env (λ now _ d,
          let '(_, tab) := update_one id (owned_operation c)
            (λ o, o ▷ op_set_state "failed" ▷ op_set_error_code (Some "CONNECTION_JOB_FAILED")
                    ▷ op_set_updated_at now) (operations d) in
          (tt, on_operations (λ _, tab) d))
    end;;
    mret (Commit changed)).

Definition pending_count (owner : string) : M Z :=
  on_pool env (query env (λ now _ d,
    count (λ _ e, is_none (ob_delivered_at e) && is_none (ob_failed_at e) &&
                  (null_or (λ x, x <? now)%Z (ob_lease_expires_at e) ||
                   bool_decide (ob_lease_owner e = Some owner))) (outbox_events d))).

Definition event_leased_to (id : uuid) (owner : string) : M bool :=
  found ← on_pool env (query env (λ _ _ d, outbox_events d !! id));
  e ← fetch_one found;
  n ← utc_now env;
  mret (bool_decide (ob_lease_owner e = Some owner) &&
        is_some_and (λ x, n <? x)%Z (ob_lease_expires_at e)).

End outbox.
