(* ===== verification/Idempotency.v ===== *)
(** * Idempotency, quotas and rate limits

    [idempotency.rs], [quotas.rs] and [rate_limit.rs] of the manager. *)
From S2P Require Import Prelude Text Json Schema Database.

(** ** Idempotency *)

Inductive IdempotencyOutcome :=
  | New (response_reference : string)
  | Replay (response_reference : string).

Definition reference_of (o : IdempotencyOutcome) : string :=
  match o with New r => r | Replay r => r end.

(** [organization_id] is absent when an organization is created. *)
Record IdempotencyRequest := {
  ir_actor_id : uuid;
  ir_organization_id : option uuid;
  ir_route : string;
  ir_key : string;
  ir_request_hash : string;
}.

Definition row_key (r : IdempotencyRequest) : uuid * option uuid * string * string :=
  (ir_actor_id r, ir_organization_id r, ir_route r, ir_key r).

Definition RETENTION : Z := 7 * DAY.

(** [reference.filter(|r| !r.trim().is_empty())]. *)
Definition completed (reference : option string) : option string :=
  match reference with
  | Some r => if is_blank r then None else Some r
  | None => None
  end.

Definition fresh_key (id : uuid) (r : IdempotencyRequest) (created t : Z) : IdempotencyKey :=
  {| ik_id := id; ik_request_hash := ir_request_hash r; ik_response_reference := None;
     ik_created_at := created; ik_expires_at := (t + RETENTION)%Z |}.

(** [INSERT .. ON CONFLICT DO UPDATE .. WHERE expires_at <= clock_timestamp()]: whether a
    row was written. *)
Definition reserve_key (id : uuid) (r : IdempotencyRequest) (now t : Z) (d : Db) :
    SqlError + bool * Db :=
  if match ir_organization_id r with Some org => is_none (organizations d !! org) | None => false end
  then inl (Violates "idempotency_keys_organization_id_fkey")
  else
    match idempotency_keys d !! row_key r with
    | None =>
        if exists_row (λ _ k, bool_decide (ik_id k = id)) (idempotency_keys d)
        then inl (Violates "idempotency_keys_pkey")
        else inr (true, on_idempotency_keys (<[row_key r := fresh_key id r now t]>) d)
    | Some k =>
        if (ik_expires_at k <=? t)%Z
        then if exists_row (λ kk k', bool_decide (ik_id k' = id) && negb (bool_decide (kk = row_key r)))
                  (idempotency_keys d)
             then inl (Violates "idempotency_keys_pkey")
             else inr (true, on_idempotency_keys (<[row_key r := fresh_key id r t t]>) d)
        else inr (false, d)
    end.

Definition REUSED : ManagerError :=
  Conflict "idempotency key reused with a different request body".

Section idempotency.
Context (env : Env).

Definition hash_request (body : Value) : string := sha256_hex env (print_json env body).

Definition replay (r : IdempotencyRequest) : M (option string) :=
  row ← on_pool env (query env (λ _ t d,
    match idempotency_keys d !! row_key r with
    | Some k => if (t <? ik_expires_at k)%Z then Some k else None
    | None => None
    end));
  match row with
  | Some k =>
      if bool_decide (ik_request_hash k = ir_request_hash r)
      then mret (completed (ik_response_reference k))
      else refuse REUSED
  | None => mret None
  end.

(** [execute] and [execute_orgless]; the organization, where there is one, is locked
    first, which takes no part in the result. *)
Definition execute_once (r : IdempotencyRequest) (mutation : M string) : M IdempotencyOutcome :=
  require (negb (is_blank (ir_key r)) && (String.length (ir_key r) <=? 255)%nat)
    (InvalidInput "invalid idempotency key");;
  transaction env (
    id ← uuid_v4 env;
    inserted ← sql env (reserve_key id r);
    if negb inserted then
      found ← query env (λ _ _ d, idempotency_keys d !! row_key r);
      k ← fetch_one found;
      require (bool_decide (ik_request_hash k = ir_request_hash r)) REUSED;;
      reference ← ok_or (completed (ik_response_reference k))
        (Conflict "legacy idempotency request has no completed result");
      mret (Commit (Replay reference))
    else
      reference ← mutation;
      require (negb (is_blank reference)) (InvalidInput "empty idempotency result reference");;
      execute env (λ _ _ d,
        (tt, on_idempotency_keys
               (update (λ _ k, bool_decide (ik_id k = id)) (ik_set_response_reference (Some reference)))
               d));;
      mret (Commit (New reference))).

End idempotency.

(** ** Quotas *)

Record TenantLimits := {
  max_tenants_per_org : Z;
  max_workers_per_tenant : Z;
  max_concurrent_provisioning_ops : Z;
}.

Definition TENANT_LIMIT_REACHED : string := "TENANT_LIMIT_REACHED".
Definition WORKER_LIMIT_REACHED : string := "WORKER_LIMIT_REACHED".

(** Tenants that count against the ceiling. *)
Definition active_tenant (org : uuid) (t : Tenant) : bool :=
  bool_decide (t_organization_id t = org) &&
  one_of ["provisioning"; "running"; "paused"] (t_desired_state t).

(** Worker workspaces of a tenant. *)
Definition worker_workspace (tenant : uuid) (w : Workspace) : bool :=
  bool_decide (w_tenant_id w = tenant) && negb (bool_decide (w_role w = "nexus")) &&
  negb (bool_decide (w_desired_state w = "deleted")).

Definition provisioning_kinds : list string := ["tenant.provision"; "tenant.delete"; "tenant.clean"].

Section quotas.
Context (env : Env) (limits : TenantLimits).

Definition ensure_org_row_in_tx (org : uuid) : M unit :=
  found ← query env (λ _ _ d, organizations d !! org);
  ok_or found (not_found "organization");;
  sql env (λ _ _ d,
    match tenant_quotas d !! org with
    | Some _ => inr (tt, d)
    | None =>
        if (1 <=? max_tenants_per_org limits)%Z && (1 <=? max_workers_per_tenant limits)%Z &&
           (1 <=? max_concurrent_provisioning_ops limits)%Z
        then inr (tt, on_tenant_quotas (<[org :=
               {| tq_max_tenants := max_tenants_per_org limits;
                  tq_max_workers_per_tenant := max_workers_per_tenant limits;
                  tq_max_concurrent_provisioning_ops := max_concurrent_provisioning_ops limits |}]>) d)
        else inl (Violates "tenant_quotas_check")
    end).

Definition check_and_reserve_tenant_in_tx (org : uuid) : M unit :=
  found ← query env (λ _ _ d, tenant_quotas d !! org);
  q ← ok_or found (not_found "organization");
  active ← query env (λ _ _ d, count (λ _ t, active_tenant org t) (tenants d));
  require (active <? tq_max_tenants q)%Z
    (api TENANT_LIMIT_REACHED
       ("this organization has reached its limit of " +:+ pretty (tq_max_tenants q) +:+
        " active tenants")).

Definition reserve_worker_capacity_in_tx (org tenant : uuid) (additional : Z) : M unit :=
  found ← query env (λ _ _ d, tenant_quotas d !! org);
  q ← ok_or found (not_found "organization");
  row ← query env (λ _ _ d,
    match tenants d !! tenant with
    | Some t => if bool_decide (t_organization_id t = org)
                then Some (count (λ _ w, worker_workspace tenant w) (workspaces d),
                           t_reserved_worker_capacity t)
                else None
    | None => None
    end);
  '(existing, reserved) ← fetch_one row;
  require (Z.max existing reserved + additional <=? tq_max_workers_per_tenant q)%Z
    (api WORKER_LIMIT_REACHED
       ("this tenant has reached its limit of " +:+ pretty (tq_max_workers_per_tenant q) +:+
        " workers"));;
  sql env (λ now _ d,
    match tenants d !! tenant with
    | Some t =>
        if bool_decide (t_organization_id t = org) then
          let n := (t_reserved_worker_capacity t + additional)%Z in
          if (0 <=? n)%Z && (n <=? I32_MAX)%Z
          then inr (tt, on_tenants (<[tenant := t ▷ t_set_reserved_worker_capacity n
                                                  ▷ t_set_updated_at now]>) d)
          else inl OutOfRange
        else inr (tt, d)
    | None => inr (tt, d)
    end).

Definition release_worker_capacity_in_tx (org tenant : uuid) (amount : Z) : M unit :=
  execute env (λ now _ d,
    let '(_, tab) := update_one tenant (λ t, bool_decide (t_organization_id t = org))
      (λ t, t ▷ t_set_reserved_worker_capacity (Z.max (t_reserved_worker_capacity t - amount) 0)
              ▷ t_set_updated_at now) (tenants d) in
    (tt, on_tenants (λ _, tab) d)).

Definition provisioning_slot_available_for (org : uuid) (current : option uuid) : M bool :=
  found ← on_pool env (query env (λ _ _ d, tenant_quotas d !! org));
  q ← fetch_one found;
  active ← on_pool env (query env (λ _ t d,
    count (λ id o, bool_decide (op_organization_id o = org) &&
                   null_or (λ c, negb (bool_decide (id = c))) current &&
                   bool_decide (op_state o = "running") &&
                   is_some_and (λ e, t <? e)%Z (op_lease_expires_at o) &&
                   one_of provisioning_kinds (op_kind o)) (operations d)));
  mret (active <? tq_max_concurrent_provisioning_ops q)%Z.

Definition provisioning_slot_available (org : uuid) : M bool :=
  provisioning_slot_available_for org None.

End quotas.

(** ** Rate limits *)

Inductive LimitScope :=
  GithubStart | DeviceStart | Verify | Poll | InvitationScope | Refresh | RuntimeBroker.

Definition scope_str (s : LimitScope) : string :=
  match s with
  | GithubStart => "start"
  | DeviceStart => "device_start"
  | Verify => "verify"
  | Poll => "poll"
  | InvitationScope => "invitation"
  | Refresh => "refresh"
  | RuntimeBroker => "runtime_broker"
  end.

Definition U32_MAX : Z := 4294967295.

(** [i32::try_from(limit).unwrap_or(i32::MAX - 1).saturating_add(1)]. *)
Definition clamp_limit (limit : Z) : Z :=
  let n := if (limit <=? I32_MAX)%Z then limit else (I32_MAX - 1)%Z in
  Z.min (n + 1) I32_MAX.

(** [date_trunc('minute', ..)]. *)
Definition minute_of (t : Z) : Z := (t / MINUTE * MINUTE)%Z.

Section rate_limit.
Context (env : Env).

(** [prune] is the draw that decides on cleaning up, [doomed] the rows of the clean-up:
    at most a thousand of those older than an hour. *)
Definition allow (bucket : string) (scope : LimitScope) (limit : Z) (prune : bool) : M bool :=
  n ← on_pool env (execute env (λ _ t d,
    let k := (sha256_hex env bucket, scope_str scope, minute_of t) in
    let n := match rate_limit_ledger d !! k with
             | None => 1%Z
             | Some c => Z.max c (Z.min (c + 1) (clamp_limit limit))
             end in
    (n, on_rate_limit_ledger (<[k := n]>) d)));
  (if prune then
     on_pool env (execute env (λ _ t d,
       let old := take 1000 (order_by (λ a b, a.1.2 <=? b.1.2)%Z
                    (rows (λ k _, k.2 <? t - HOUR)%Z (rate_limit_ledger d))) in
       (tt, on_rate_limit_ledger (λ tab, foldr (λ x tab, base.delete x.1 tab) tab old) d)))
   else mret tt);;
  mret (n <=? limit)%Z.

End rate_limit.
