(* ===== verification/DatabaseFacts.v ===== *)
(** * Lemmas on statements, transactions and tables

    Inversion of computations, the rows a condition selects, and the invariants a
    transaction keeps. *)
From S2P Require Import Prelude Text Json Schema Database.

(** ** Runs *)

Lemma m_bind_Done {A B} (f : A → M B) (m : M A) s b s' :
  (m ≫= f) s = (Done b, s') ↔ ∃ a s1, m s = (Done a, s1) ∧ f a s1 = (Done b, s').
Proof. unfold mbind, m_bind. destruct (m s) as [[] ?]; naive_solver. Qed.

Lemma m_bind_cases {A B} (f : A → M B) (m : M A) s res s' :
  (m ≫= f) s = (res, s') →
  (∃ a s1, m s = (Done a, s1) ∧ f a s1 = (res, s')) ∨ ((∀ b, res ≠ Done b) ∧ (m s).2 = s').
Proof. unfold mbind, m_bind. destruct (m s) as [[] ?]; naive_solver. Qed.

Lemma require_Done b e s u s' : require b e s = (Done u, s') ↔ b = true ∧ s' = s.
Proof. destruct u. unfold require, refuse, mret, m_ret. destruct b; naive_solver. Qed.

Lemma ok_or_Done {A} (o : option A) e s a s' : ok_or o e s = (Done a, s') ↔ o = Some a ∧ s' = s.
Proof. unfold ok_or, refuse, mret, m_ret. destruct o; naive_solver. Qed.

Lemma check_Done {A} (r : ManagerError + A) s a s' : check r s = (Done a, s') ↔ r = inr a ∧ s' = s.
Proof. unfold check, refuse, mret, m_ret. destruct r; naive_solver. Qed.

Lemma sql_Done env {A} (f : Z → Z → Db → SqlError + A * Db) s a s' :
  sql env f s = (Done a, s') ↔
  ∃ d, f (tx_now s) (clock env (moment s)) (db s) = inr (a, d) ∧ s' = tick (with_db d s).
Proof. unfold sql. destruct (f _ _ _) as [|[]]; naive_solver. Qed.

Lemma query_Done env {A} (f : Z → Z → Db → A) s a s' :
  query env f s = (Done a, s') ↔ a = f (tx_now s) (clock env (moment s)) (db s) ∧ s' = tick s.
Proof. destruct s. unfold query, sql. cbn. naive_solver. Qed.

Lemma execute_Done env {A} (f : Z → Z → Db → A * Db) s a s' :
  execute env f s = (Done a, s') ↔
  a = (f (tx_now s) (clock env (moment s)) (db s)).1 ∧
  s' = tick (with_db (f (tx_now s) (clock env (moment s)) (db s)).2 s).
Proof. unfold execute, sql. destruct (f _ _ _) as []. naive_solver. Qed.

Lemma m_ret_Done {A} (a b : A) s s' : (mret a : M A) s = (Done b, s') ↔ a = b ∧ s' = s.
Proof. unfold mret, m_ret. naive_solver. Qed.

(** [m_inv H] runs [H : m s = (Done _, _)] step by step, through binds, guards and
    statements. *)
Ltac m_inv1 H :=
  lazymatch type of H with
  | (_ ≫= _) _ = (Done _, _) =>
      let a := fresh "a" in let s := fresh "s" in let E := fresh "E" in
      apply m_bind_Done in H as (a & s & E & H); m_inv1 E
  | require _ _ _ = (Done _, _) => apply require_Done in H as [H ->]
  | ok_or _ _ _ = (Done _, _) => apply ok_or_Done in H as [H ->]
  | fetch_one _ _ = (Done _, _) => unfold fetch_one in H; apply ok_or_Done in H as [H ->]
  | check _ _ = (Done _, _) => apply check_Done in H as [H ->]
  | query _ _ _ = (Done _, _) => apply query_Done in H as [-> ->]
  | mret _ _ = (Done _, _) => apply m_ret_Done in H as [H ->]
  | refuse _ _ = (Done _, _) => discriminate H
  | _ => idtac
  end.
Ltac m_inv H := repeat (progress m_inv1 H).

(** [m_cases H] also splits on the conditions the run meets. *)
Ltac m_cases H :=
  repeat (progress m_inv1 H ||
    lazymatch type of H with
    | (match ?x with _ => _ end) _ = _ => destruct x eqn:?
    end); try discriminate H.

(** ** Transactions and invariants of the database *)

Lemma transaction_Done env {A} (body : M (Tx A)) s a s' :
  transaction env body s = (Done a, s') ↔
  let s0 := (begin env s).2 in
  body s0 = (Done (Commit a), s') ∨
  ∃ s1, body s0 = (Done (Rollback a), s1) ∧ s' = with_db (db s0) s1.
Proof.
  unfold transaction, atomically, mbind, m_bind, begin. cbn.
  destruct (body _) as [[[]| |] ?]; naive_solver.
Qed.

(** A transaction commits, or the database is as it began. *)
Lemma transaction_cases env {A} (body : M (Tx A)) s res s' :
  transaction env body s = (res, s') →
  (∃ a, res = Done a ∧ body (begin env s).2 = (Done (Commit a), s')) ∨
  (db s' = others env (moment s) (db s) ∧
   ∀ a, res = Done a → ∃ s1, body (begin env s).2 = (Done (Rollback a), s1)).
Proof.
  unfold transaction, atomically, mbind, m_bind, begin. cbn.
  destruct (body _) as [[[]| |] ?]; naive_solver.
Qed.

Lemma require_cases b e {A} (m : M A) s res s' :
  (require b e;; m) s = (res, s') →
  (b = true ∧ m s = (res, s')) ∨ (b = false ∧ res = Refused e ∧ s' = s).
Proof. destruct b; unfold require, refuse, mbind, m_bind, mret, m_ret; naive_solver. Qed.

(** [m] takes the state along [R], however it ends. *)
Definition runs {A} (R : relation MState) (m : M A) : Prop := ∀ s, R s (m s).2.

Lemma runs_to {A} R (m : M A) s r s' : runs R m → m s = (r, s') → R s s'.
Proof. intros H E. specialize (H s). by rewrite E in H. Qed.

(** Relations that a computation without effect on the tables, and one that is
    undone, stay within. *)
Class Settled (R : relation MState) : Prop := {
  settled_preorder :: PreOrder R;
  settled_quiet s s' :
    db s = db s' → draws s ≤ draws s' → moment s ≤ moment s' → asked s' = asked s → R s s';
  settled_undo s s' : R s s' → R s (with_db (db s) s');
}.

(** A preorder on databases, and the count of draws. *)
Definition at_db (R : relation Db) : relation MState := λ s s', R (db s) (db s').
#[export] Instance at_db_settled R `{!PreOrder R} : Settled (at_db R).
Proof.
  split; unfold at_db.
  - split; [by intros ?|intros ? ? ?; by etrans].
  - by intros s s' -> _ _ _.
  - by intros s s' _.
Qed.

Definition draws_le : relation MState := λ s s', draws s ≤ draws s'.
#[export] Instance draws_le_settled : Settled draws_le.
Proof. split; [|done..]. split; repeat intros ?; unfold draws_le in *; lia. Qed.

Abbreviation moves R m := (runs (at_db R) m).

Definition along (I : Db → Prop) (d d' : Db) : Prop := I d → I d'.
#[export] Instance along_preorder I : PreOrder (along I).
Proof. split; [by intros ? ?|intros ? ? ? H1 H2 ?; by apply H2, H1]. Qed.

(** [m] keeps [I]. *)
Abbreviation preserves I m := (runs (at_db (along I)) m) (only parsing).

Section runs.
Context (env : Env) (R : relation MState) {HR : Settled R}.

Lemma runs_quiet {A} (m : M A) :
  (∀ s, db s = db (m s).2 ∧ draws s ≤ draws (m s).2 ∧ moment s ≤ moment (m s).2 ∧ asked (m s).2 = asked s) →
  runs R m.
Proof. intros H s. destruct (H s) as (?&?&?&?). by apply settled_quiet. Qed.

Lemma runs_ret {A} (a : A) : runs R (mret a).
Proof. apply runs_quiet. intros s. cbn. auto with lia. Qed.
Lemma runs_refuse {A} e : runs R (refuse (A := A) e).
Proof. apply runs_quiet. intros s. cbn. auto with lia. Qed.
Lemma runs_panic {A} : runs R (panic (A := A)).
Proof. apply runs_quiet. intros s. cbn. auto with lia. Qed.
Lemma runs_require b e : runs R (require b e).
Proof. destruct b; [apply runs_ret|apply runs_refuse]. Qed.
Lemma runs_ok_or {A} (o : option A) e : runs R (ok_or o e).
Proof. destruct o; [apply runs_ret|apply runs_refuse]. Qed.
Lemma runs_check {A} (r : ManagerError + A) : runs R (check r).
Proof. destruct r; [apply runs_refuse|apply runs_ret]. Qed.
Lemma runs_query {A} (f : Z → Z → Db → A) : runs R (query env f).
Proof. apply runs_quiet. intros []. cbn. auto with lia. Qed.
Lemma runs_uuid : runs R (uuid_v4 env).
Proof. apply runs_quiet. intros s. cbn. auto with lia. Qed.
Lemma runs_secret : runs R (generate_secret env).
Proof. apply runs_quiet. intros s. cbn. auto with lia. Qed.
Lemma runs_utc : runs R (utc_now env).
Proof. apply runs_quiet. intros s. cbn. auto with lia. Qed.

Lemma runs_vault {A} (f : nat → gmap string string → A * gmap string string) : runs R (with_vault f).
Proof. apply runs_quiet. intros s. unfold with_vault. destruct (f _ _). cbn. auto with lia. Qed.

Lemma runs_bind {A B} (m : M A) (f : A → M B) :
  runs R m → (∀ a, runs R (f a)) → runs R (m ≫= f).
Proof.
  intros Hm Hf s. specialize (Hm s). unfold mbind, m_bind.
  destruct (m s) as [[a| |] s']; [|done..]. cbn in Hm. etrans; [apply Hm|apply Hf].
Qed.

Lemma runs_fmap {A B} (f : A → B) (m : M A) : runs R m → runs R (f <$> m).
Proof. intros H. apply runs_bind; [done|]. intros a. apply runs_ret. Qed.

Lemma runs_attempt {A} (m : M A) : runs R m → runs R (attempt m).
Proof. intros H s. specialize (H s). unfold attempt. by destruct (m s) as [[] ?]. Qed.

(** What the others do stays within [R]. *)
Context (stable : ∀ s, R s (begin env s).2).

Lemma runs_pool {A} (m : M A) : runs R m → runs R (on_pool env m).
Proof. intros H. by apply runs_bind. Qed.

Lemma runs_transaction {A} (body : M (Tx A)) : runs R body → runs R (transaction env body).
Proof.
  intros H. apply runs_bind; [done|]. intros _ s. specialize (H s). unfold atomically.
  destruct (body s) as [[[a|a]| |] s']; cbn in *; by try apply settled_undo.
Qed.
End runs.

Section moves.
Context (env : Env) (R : relation Db) {HR : PreOrder R}.

Lemma moves_sql {A} (f : Z → Z → Db → SqlError + A * Db) :
  (∀ now t d a d', f now t d = inr (a, d') → R d d') → moves R (sql env f).
Proof using HR.
  intros H s. unfold sql, at_db. destruct (f _ _ _) as [|[a d']] eqn:E; [done|]. cbn. by eapply H.
Qed.

Lemma moves_execute {A} (f : Z → Z → Db → A * Db) :
  (∀ now t d, R d (f now t d).2) → moves R (execute env f).
Proof using HR.
  intros H. apply moves_sql. intros now t d a d' [= E]. specialize (H now t d). by rewrite E in H.
Qed.

Lemma moves_begin : (∀ n d, R d (others env n d)) → ∀ s, at_db R s (begin env s).2.
Proof using. intros H s. apply H. Qed.

Lemma moves_ask r : moves R (ask r).
Proof using HR. intros s. unfold at_db. cbn. reflexivity. Qed.

(** Only the committed runs of a transaction count. *)
Lemma moves_transaction {A} (body : M (Tx A)) :
  (∀ n d, R d (others env n d)) →
  (∀ s a s', body s = (Done (Commit a), s') → R (db s) (db s')) →
  moves R (transaction env body).
Proof using HR.
  intros Ho H. apply runs_bind; [apply _|by intros s; apply moves_begin|]. intros _ s.
  unfold atomically, at_db. destruct (body s) as [[[a|a]| |] s'] eqn:E; cbn; try done. by eapply H.
Qed.
End moves.

(** Only the runs that return count. *)
Definition commits {A} (R : relation Db) (m : M A) : Prop :=
  ∀ s a s', m s = (Done a, s') → R (db s) (db s').

Lemma commits_runs {A} R (m : M A) : moves R m → commits R m.
Proof. intros H s a s' E. by apply (runs_to _ _ _ _ _ H) in E. Qed.

Lemma commits_bind {A B} R `{!PreOrder R} (m : M A) (f : A → M B) :
  commits R m → (∀ a, commits R (f a)) → commits R (m ≫= f).
Proof. intros Hm Hf s b s' (a & s1 & E1 & E2)%m_bind_Done. etrans; [by eapply Hm|by eapply Hf]. Qed.

Lemma moves_committed env {A} R `{!PreOrder R} (body : M (Tx A)) :
  (∀ n d, R d (others env n d)) → commits R body → moves R (transaction env body).
Proof. intros Ho H. apply moves_transaction; [done..|]. intros s a s' E. by eapply H. Qed.

Lemma moves_mono {A} (R R' : relation Db) (m : M A) :
  (∀ d d', R d d' → R' d d') → moves R m → moves R' m.
Proof. intros H Hm s. apply H, Hm. Qed.

Definition moment_le : relation MState := λ s s', moment s ≤ moment s'.
#[export] Instance moment_le_settled : Settled moment_le.
Proof. split; [|done..]. split; repeat intros ?; unfold moment_le in *; lia. Qed.
Lemma moment_sql env {A} (f : Z → Z → Db → SqlError + A * Db) : runs moment_le (sql env f).
Proof. intros s. unfold sql, moment_le. destruct (f _ _ _) as [|[]]; cbn; lia. Qed.
Lemma moment_execute env {A} (f : Z → Z → Db → A * Db) : runs moment_le (execute env f).
Proof. apply moment_sql. Qed.
Lemma moment_begin env s : moment_le s (begin env s).2.
Proof. unfold moment_le. cbn. lia. Qed.

Lemma draws_sql env {A} (f : Z → Z → Db → SqlError + A * Db) : runs draws_le (sql env f).
Proof. intros s. unfold sql, draws_le. by destruct (f _ _ _) as [|[]]. Qed.
Lemma draws_execute env {A} (f : Z → Z → Db → A * Db) : runs draws_le (execute env f).
Proof. apply draws_sql. Qed.
Lemma draws_begin env s : draws_le s (begin env s).2.
Proof. unfold draws_le. cbn. lia. Qed.

(** Nothing is asked of GitHub. *)
Definition asks_nothing : relation MState := λ s s', asked s' = asked s.
#[export] Instance asks_nothing_settled : Settled asks_nothing.
Proof. split; [split; unfold asks_nothing; [done|intros s1 s2 s3; congruence]|done..]. Qed.
Lemma asks_nothing_sql env {A} (f : Z → Z → Db → SqlError + A * Db) : runs asks_nothing (sql env f).
Proof. intros s. unfold sql, asks_nothing. by destruct (f _ _ _) as [|[]]. Qed.
Lemma asks_nothing_execute env {A} (f : Z → Z → Db → A * Db) : runs asks_nothing (execute env f).
Proof. apply asks_nothing_sql. Qed.
Lemma asks_nothing_begin env s : asks_nothing s (begin env s).2.
Proof. done. Qed.

Create HintDb runs.
#[export] Hint Resolve runs_ret runs_refuse runs_panic runs_require runs_ok_or runs_check runs_query
  runs_uuid runs_secret runs_utc runs_vault moves_ask draws_sql draws_execute draws_begin moment_sql moment_execute moment_begin moves_begin
  asks_nothing_sql asks_nothing_execute asks_nothing_begin : runs.

(** [runs_auto] descends through the shape of a computation. *)
Ltac runs_step :=
  lazymatch goal with
  | |- runs _ (_ ≫= _) => apply runs_bind; [typeclasses eauto| |intros ?]
  | |- runs _ (_ <$> _) => apply runs_fmap; [typeclasses eauto|]
  | |- runs _ (on_pool _ _) => apply runs_pool; [typeclasses eauto|solve [auto with runs]|]
  | |- runs _ (transaction _ _) => apply runs_transaction; [typeclasses eauto|solve [auto with runs]|]
  | |- runs _ (attempt _) => apply runs_attempt
  | |- runs _ (fetch_one _) => apply runs_ok_or; typeclasses eauto
  | |- runs _ (if ?b then _ else _) => destruct b
  | |- runs _ (match ?x with _ => _ end) => destruct x
  end.
Ltac runs_auto := repeat (runs_step || solve [auto with runs typeclass_instances]).

(** ** Rows *)

Section tables.
Context {K V : Type} `{Countable K}.
Implicit Types (p q : K → V → bool) (tab : gmap K V).

Lemma elem_rows p tab k v : (k, v) ∈ rows p tab ↔ tab !! k = Some v ∧ p k v = true.
Proof. unfold rows. by rewrite elem_of_map_to_list, map_lookup_filter_Some. Qed.

Lemma exists_row_true p tab : exists_row p tab = true ↔ ∃ k v, tab !! k = Some v ∧ p k v = true.
Proof.
  unfold exists_row. rewrite bool_decide_eq_true. split.
  - intros Hne. destruct (rows p tab) as [|[k v] l] eqn:E; [done|].
    exists k, v. apply elem_rows. rewrite E. by left.
  - intros (k & v & Hkv%elem_rows) E. rewrite E in Hkv. by apply elem_of_nil in Hkv.
Qed.

Lemma exists_row_false p tab : exists_row p tab = false ↔ ∀ k v, tab !! k = Some v → p k v = false.
Proof.
  split.
  - intros E k v Hk. destruct (p k v) eqn:Hp; [|done].
    assert (exists_row p tab = true) by (apply exists_row_true; eauto). congruence.
  - intros Hall. destruct (exists_row p tab) eqn:E; [|done].
    apply exists_row_true in E as (k & v & Hk & Hp). by rewrite (Hall k v Hk) in Hp.
Qed.

Lemma count_size p tab : count p tab = Z.of_nat (size (filter (λ kv, p kv.1 kv.2 = true) tab)).
Proof. unfold count, rows. by rewrite length_map_to_list. Qed.

(** Fewer rows qualify. *)
Lemma count_le p q (tab tab' : gmap K V) :
  (∀ k v, tab !! k = Some v → p k v = true → ∃ v', tab' !! k = Some v' ∧ q k v' = true) →
  (count p tab ≤ count q tab')%Z.
Proof.
  intros Hle. rewrite !count_size. apply inj_le. rewrite <-!size_dom.
  apply subseteq_size. intros k (v & Hv)%elem_of_dom. apply map_lookup_filter_Some in Hv as [Hv Hp].
  destruct (Hle k v Hv Hp) as (v' & Hv' & Hq). apply elem_of_dom. exists v'.
  by apply map_lookup_filter_Some.
Qed.

Lemma count_ext p q tab tab' :
  (∀ k, (∃ v, tab !! k = Some v ∧ p k v = true) ↔ (∃ v, tab' !! k = Some v ∧ q k v = true)) →
  count p tab = count q tab'.
Proof. intros E. apply Z.le_antisymm; apply count_le; intros k v Hk Hp; apply E; eauto. Qed.

(** One row apart from the others. *)
Lemma count_split p tab k :
  count p tab = (count (λ i v, negb (bool_decide (i = k)) && p i v) tab +
                 if is_some_and (p k) (tab !! k) then 1 else 0)%Z.
Proof.
  assert (E : count (λ i v, negb (bool_decide (i = k)) && p i v) tab = count p (base.delete k tab)).
  { apply count_ext. intros i. split; intros (v & Hv & Hp); exists v.
    - apply andb_true_iff in Hp as [Hne Hp]. apply negb_true_iff, bool_decide_eq_false in Hne.
      by rewrite lookup_delete_ne.
    - apply lookup_delete_Some in Hv as [Hne Hv]. split; [done|].
      apply andb_true_iff. split; [by apply negb_true_iff, bool_decide_eq_false|done]. }
  rewrite E, !count_size. destruct (tab !! k) as [v|] eqn:Hk; cbn.
  - rewrite <-(insert_delete_id tab k v Hk) at 1. destruct (p k v) eqn:Hp.
    + rewrite map_filter_insert_True by done.
      rewrite map_size_insert_None; [lia|].
      apply map_lookup_filter_None. left. by rewrite lookup_delete_eq.
    + rewrite map_filter_insert_False by (cbn; congruence).
      rewrite delete_delete_eq. lia.
  - rewrite delete_id by done. lia.
Qed.

Lemma count_some p tab : count p tab ≠ 0%Z → ∃ k v, tab !! k = Some v ∧ p k v = true.
Proof.
  unfold count. destruct (rows p tab) as [|[k v] l] eqn:E; [done|]. intros _. exists k, v.
  apply elem_rows. rewrite E. by left.
Qed.

Lemma count_nonneg p tab : (0 ≤ count p tab)%Z.
Proof. unfold count. lia. Qed.

Lemma lookup_update p (f : V → V) tab k :
  update p f tab !! k = (λ v, if p k v then f v else v) <$> tab !! k.
Proof. unfold update. rewrite map_lookup_imap. by destruct (tab !! k). Qed.

Lemma lookup_delete_rows p tab k :
  delete_rows p tab !! k = match tab !! k with
                           | Some v => if p k v then None else Some v
                           | None => None
                           end.
Proof.
  unfold delete_rows. destruct (tab !! k) as [v|] eqn:Hk.
  - destruct (p k v) eqn:Hp.
    + apply map_lookup_filter_None. right. intros v' Hv'. cbn. congruence.
    + by apply map_lookup_filter_Some.
  - apply map_lookup_filter_None. by left.
Qed.

Lemma insert_row_inr pk k (v : V) tab tab' :
  insert_row pk k v tab = inr tab' ↔ tab !! k = None ∧ tab' = <[k := v]> tab.
Proof. unfold insert_row. destruct (tab !! k); naive_solver. Qed.

(** The effect of [update_one] at every key. *)
Lemma lookup_update_one k (p : V → bool) (f : V → V) tab i :
  (update_one k p f tab).2 !! i =
  if bool_decide (i = k) then (λ v, if p v then f v else v) <$> tab !! k else tab !! i.
Proof.
  unfold update_one. case_bool_decide as E; subst.
  - destruct (tab !! k) as [v|] eqn:Hk; cbn; [|done].
    destruct (p v); cbn; [by rewrite lookup_insert_eq|by rewrite Hk].
  - destruct (tab !! k) as [v|] eqn:Hk; cbn; [|done]. destruct (p v); cbn; [|done].
    by rewrite lookup_insert_ne.
Qed.

Lemma update_one_1 k (p : V → bool) (f : V → V) tab :
  (update_one k p f tab).1 = 1%Z ↔ ∃ v, tab !! k = Some v ∧ p v = true.
Proof.
  unfold update_one. destruct (tab !! k) as [v|]; [destruct (p v) eqn:E|]; cbn; split;
    try done; try (by eauto); intros (v' & [=] & Hv'); congruence.
Qed.

Lemma update_one_idle k (p : V → bool) (f : V → V) tab :
  (∀ v, tab !! k = Some v → p v = false) → update_one k p f tab = (0%Z, tab).
Proof. intros Hp. unfold update_one. destruct (tab !! k) as [v|]; [|done]. by rewrite (Hp v). Qed.
End tables.

(** ** Sorting *)

Section order_by.
Context {A : Type} (le : A → A → bool).

Lemma elem_insert_by x y l : x ∈ insert_by le y l ↔ x = y ∨ x ∈ l.
Proof.
  induction l as [|z l IH]; cbn; [set_solver|]. destruct (le y z); [set_solver|].
  rewrite !elem_of_cons, IH. set_solver.
Qed.

Lemma elem_order_by x l : x ∈ order_by le l ↔ x ∈ l.
Proof.
  induction l as [|y l IH]; cbn; [set_solver|]. unfold order_by in IH.
  rewrite elem_insert_by, IH. set_solver.
Qed.
End order_by.

(** ** Time *)

(** Readings of the clock do not go back. *)
Definition ordered_clock (env : Env) : Prop := ∀ n, (clock env n ≤ clock env (S n))%Z.

Lemma clock_le env n m : ordered_clock env → n ≤ m → (clock env n ≤ clock env m)%Z.
Proof. intros Ho. induction 1; [lia|]. specialize (Ho m). lia. Qed.
