(* ===== verification/OperationsProps.v ===== *)
(** * Leases of operations

    Clients of the operations table as a transition system: every transaction that
    touches the table is a step, in any order, by any number of workers.  A worker
    that lost its lease changes nothing, and an organization never has more live
    operations than its slots. *)
From S2P Require Import Prelude Text Json Schema Database DatabaseFacts Operations Outbox Idempotency.

(** One transaction of some client. *)
Inductive OpCall :=
  | CallCreate (op : NewOperation)
  | CallClaim (owner : string) (kind : option string)
  | CallPromote (owner : string) (release : uuid)
  | CallSlot (owner : string) (kinds : list string) (id : uuid)
  | CallHeartbeat (g : LeaseGuard)
  | CallStep (g : LeaseGuard) (step : string)
  | CallComplete (g : LeaseGuard) (res : option Value)
  | CallCompleteTx (g : LeaseGuard) (res : Value)
  | CallRequeue (g : LeaseGuard) (step : string) (delay : Z)
  | CallSettle (g : LeaseGuard) (state : OperationState) (retry_at : option Z) (code : option string)
  | CallRetry (id org : uuid)
  | CallDeliver (c : OutboxClaim)
  | CallFailDelivery (c : OutboxClaim) (permanent : bool)
  | CallQuota (limits : TenantLimits) (org : uuid).

Section calls.
Context (env : Env).

(** The transaction, with the lease it issued. *)
Definition perform (c : OpCall) : M (option LeaseGuard) :=
  match c with
  | CallCreate op => create env op;; mret None
  | CallClaim owner kind => claim_kind env owner kind
  | CallPromote owner release => claim_promote env owner release
  | CallSlot owner kinds id => claim_slot env owner kinds id
  | CallHeartbeat g => Operations.heartbeat env g;; mret None
  | CallStep g step => set_step env g step;; mret None
  | CallComplete g res => complete env g res;; mret None
  | CallCompleteTx g res =>
      transaction env (b ← complete_in_tx env g res;
                       mret (if b : bool then Commit None else Rollback None))
  | CallRequeue g step delay => requeue_after env g step delay;; mret None
  | CallSettle g state retry_at code => settle env g (Operations.as_str state) retry_at code;; mret None
  | CallRetry id org => transaction env (retry_in_tx env id org;; mret (Commit None))
  | CallDeliver c => complete_operation_delivery env c;; mret None
  | CallFailDelivery c permanent => fail_delivery env c permanent;; mret None
  | CallQuota limits org =>
      transaction env (ensure_org_row_in_tx env limits org;; mret (Commit None))
  end.

Definition op_step (s s' : MState) : Prop := ∃ c, s' = (perform c s).2.
Definition issues (s : MState) (g : LeaseGuard) (s' : MState) : Prop :=
  ∃ c, perform c s = (Done (Some g), s').

(** What the holder of [g] can do with it. *)
Inductive uses (g : LeaseGuard) : M bool → Prop :=
  | use_heartbeat : uses g (Operations.heartbeat env g)
  | use_set_step step : uses g (set_step env g step)
  | use_complete res : uses g (complete env g res)
  | use_complete_in_tx res : uses g (complete_in_tx env g res)
  | use_requeue step delay : uses g (requeue_after env g step delay)
  | use_fail retry code : uses g (fail env g retry code)
  | use_lock : uses g (lock_in_tx env g).

(** ** What a call does to the table *)

(** Tokens are kept, dropped or drawn. *)
Definition token_step (k : nat) (tab tab' : gmap uuid OperationRecord) : Prop :=
  ∀ id o', tab' !! id = Some o' → ∀ tok, op_lease_token o' = Some tok →
    (∃ o, tab !! id = Some o ∧ op_lease_token o = Some tok) ∨ tok = new_uuid env k.

#[local] Instance token_preorder k : PreOrder (token_step k).
Proof.
  split.
  - intros tab id o' Ho tok Ht. left. eauto.
  - intros t1 t2 t3 H12 H23 id o3 H3 tok Ht.
    destruct (H23 id o3 H3 tok Ht) as [(o2 & H2 & Ht2)|]; [|by right].
    exact (H12 id o2 H2 tok Ht2).
Qed.

Lemma token_insert k tab id o' :
  (∀ tok, op_lease_token o' = Some tok →
     (∃ o, tab !! id = Some o ∧ op_lease_token o = Some tok) ∨ tok = new_uuid env k) →
  token_step k tab (<[id := o']> tab).
Proof.
  intros Hnew i o [[<- <-]|[Hne Ho]]%lookup_insert_Some tok Ht; [by apply Hnew|]. left. eauto.
Qed.

Lemma token_update_one k tab id (p : OperationRecord → bool) f :
  (∀ o tok, op_lease_token (f o) = Some tok → op_lease_token o = Some tok) →
  token_step k tab (update_one id p f tab).2.
Proof.
  intros Hf i o' Ho' tok Ht. rewrite lookup_update_one in Ho'. case_bool_decide; subst.
  - destruct (tab !! id) as [o|] eqn:E; simplify_eq/=. left. exists o. split; [done|].
    destruct (p o); [by apply Hf|done].
  - left. eauto.
Qed.

(** Nobody draws between the start of a call and its claim. *)
Definition fresh_token (k : nat) (d d' : Db) : Prop := token_step k (operations d) (operations d').
#[local] Instance fresh_preorder k : PreOrder (fresh_token k).
Proof.
  unfold fresh_token. split; [intros d; reflexivity|]. intros d1 d2 d3 H1 H2. by etrans.
Qed.

Context (alone : ∀ n d, others env n d = d).

Lemma begin_alone s : db (begin env s).2 = db s.
Proof. cbn. apply alone. Qed.

Lemma fresh_others k n d : fresh_token k d (others env n d).
Proof. rewrite alone. reflexivity. Qed.
#[local] Hint Resolve fresh_others : runs.

Lemma fresh_same {A} k (f : Z → Z → Db → A * Db) :
  (∀ now t d, operations (f now t d).2 = operations d) → moves (fresh_token k) (execute env f).
Proof.
  intros H. apply moves_execute; [apply _|]. intros now t d. unfold fresh_token. rewrite H. reflexivity.
Qed.

Lemma lease_to_token owner token now t o o' :
  lease_to owner token now t o = Some o' → op_lease_token o' = Some token.
Proof. unfold lease_to. case_match; naive_solver. Qed.

(** A claim under a given token. *)
Lemma fresh_claim_oldest k owner p :
  moves (fresh_token k) (sql env (claim_oldest owner (new_uuid env k) p)).
Proof.
  apply moves_sql; [apply _|]. intros now t d a d'. unfold claim_oldest.
  destruct (order_by _ _) as [|[id o] l]; [intros [= <- <-]; reflexivity|].
  destruct (lease_to _ _ _ _ _) as [o'|] eqn:E; intros [= <- <-].
  apply token_insert. intros tok Ht. right. rewrite (lease_to_token _ _ _ _ _ _ E) in Ht. congruence.
Qed.
(** Any [UPDATE] of one operation that gives out no token. *)
Lemma fresh_update_one {A} k id p g (h : Z → A) :
  (∀ now t o tok, op_lease_token (g now t o) = Some tok → op_lease_token o = Some tok) →
  moves (fresh_token k) (execute env (λ now t d,
    let '(n, tab) := update_one id (p now t) (g now t) (operations d) in
    (h n, on_operations (λ _, tab) d))).
Proof.
  intros Hg. apply moves_execute; [apply _|]. intros now t d.
  destruct (update_one _ _ _ _) as [n tab] eqn:E. unfold fresh_token. cbn.
  change tab with (n, tab).2. rewrite <-E. apply token_update_one. apply Hg.
Qed.

Lemma fresh_update_held k g p f :
  (∀ now t o tok, op_lease_token (f now t o) = Some tok → op_lease_token o = Some tok) →
  moves (fresh_token k) (update_held env g p f).
Proof. apply (fresh_update_one k _ (λ _, p)). Qed.

Lemma fresh_insert k id op :
  moves (fresh_token k) (sql env (λ now _ d, insert_operation id op now d)).
Proof.
  apply moves_sql; [apply _|]. intros now t d a d'. unfold insert_operation.
  destruct (organizations d !! _); [|done]. destruct (duplicate_runtime_request _ _); [done|].
  destruct (insert_row _ _ _ _) as [|tab] eqn:E; [done|]. intros [= <- <-].
  apply insert_row_inr in E as [_ ->]. by apply token_insert.
Qed.

Lemma fresh_candidate k owner kinds id :
  moves (fresh_token k) (claim_candidate env owner kinds id (new_uuid env k)).
Proof.
  unfold claim_candidate. runs_auto. apply moves_sql; [apply _|]. intros now t d a' d'.
  destruct (operations d !! id) as [o|]; [|intros [= <- <-]; reflexivity].
  destruct (lease_to _ _ _ _ _) as [o'|] eqn:E; intros [= <- <-].
  apply token_insert. intros tok Ht. right. rewrite (lease_to_token _ _ _ _ _ _ E) in Ht. congruence.
Qed.

Lemma runs_locked (R : relation MState) `{!Settled R} : runs R (locked_rows env).
Proof. apply runs_quiet; [done|]. intros s. cbn. auto with lia. Qed.
#[local] Hint Resolve runs_locked : runs.

Lemma fresh_drawn {A} s (f : uuid → M A) :
  moves (fresh_token (draws s)) (f (new_uuid env (draws s))) →
  fresh_token (draws s) (db s) (db ((uuid_v4 env ≫= f) s).2).
Proof. intros H. apply (H (restate (db s) _ _ _ s)). Qed.

#[local] Hint Resolve fresh_insert fresh_claim_oldest fresh_candidate : runs.
#[local] Hint Extern 1 (runs _ (update_held _ _ _ _)) => apply fresh_update_held; by intros : runs.
#[local] Hint Extern 1 (runs _ (update_claimed _ _ _ _)) =>
  apply fresh_same; intros; by destruct (update_one _ _ _ _) : runs.
#[local] Hint Extern 2 (runs _ (execute _ _)) => apply fresh_update_one; by intros : runs.

Lemma fresh_quota k limits org : moves (fresh_token k) (ensure_org_row_in_tx env limits org).
Proof.
  unfold ensure_org_row_in_tx. runs_auto. apply moves_sql; [apply _|]. intros now t d u d'.
  repeat case_match; intros [= <- <-]; unfold fresh_token; cbn; reflexivity.
Qed.
#[local] Hint Resolve fresh_quota : runs.

Definition claims (c : OpCall) : bool :=
  match c with CallClaim _ _ | CallPromote _ _ | CallSlot _ _ _ => true | _ => false end.

Lemma fresh_other c k : claims c = false → moves (fresh_token k) (perform c).
Proof.
  intros Hc. destruct c; try discriminate Hc; cbn [perform];
    unfold create, create_in_tx, Operations.heartbeat, set_step, complete, complete_in_tx,
      requeue_after, settle, retry_in_tx, complete_operation_delivery, fail_delivery, deliver;
    runs_auto.
Qed.

Lemma fresh_call c s : fresh_token (draws s) (db s) (db (perform c s).2).
Proof.
  destruct (claims c) eqn:Hc; [|by apply (fresh_other c (draws s))].
  destruct c; try discriminate Hc; cbn [perform]; apply fresh_drawn; runs_auto.
Qed.

Lemma draws_call c : runs draws_le (perform c).
Proof.
  destruct c; cbn [perform];
    unfold create, create_in_tx, claim_kind, claim_promote, claim_slot, claim_candidate,
      Operations.heartbeat, set_step, complete, complete_in_tx, requeue_after, settle, retry_in_tx,
      complete_operation_delivery, fail_delivery, deliver, ensure_org_row_in_tx, update_held,
      update_claimed; runs_auto.
Qed.

(** *** The claimed row *)

(** What a claim by the reading [t] of the clock under [token] took and left. *)
Definition claimed (token : uuid) (t : Z) (g : LeaseGuard) (d d' : Db) : Prop :=
  g_token g = token ∧
  ∃ o o', operations d !! g_operation_id g = Some o ∧ free_at t o = true ∧
          operations d' !! g_operation_id g = Some o' ∧
          op_lease_token o' = Some token ∧ op_lease_owner o' = Some (g_owner g) ∧
          op_organization_id o' = g_organization_id g ∧ op_state o' = "running".

Lemma lease_to_row owner token now t o o' :
  lease_to owner token now t o = Some o' →
  op_lease_token o' = Some token ∧ op_lease_owner o' = Some owner ∧
  op_organization_id o' = op_organization_id o ∧ op_state o' = "running".
Proof. unfold lease_to. case_match; naive_solver. Qed.

Lemma claimed_oldest owner token p now t d g d' :
  (∀ id o, p now id o = true → free_at now o = true) →
  claim_oldest owner token p now t d = inr (Some g, d') → claimed token now g d d'.
Proof.
  intros Hp. unfold claim_oldest. destruct (order_by _ _) as [|[id o] l] eqn:E; [done|].
  assert (Hin : (id, o) ∈ order_by by_creation (rows (p now) (operations d))) by (rewrite E; left).
  apply elem_order_by, elem_rows in Hin as [Ho Hpo].
  destruct (lease_to _ _ _ _ _) as [o'|] eqn:El; intros [= <- <-]. split; [done|].
  exists o, o'. cbn. rewrite lookup_insert_eq. destruct (lease_to_row _ _ _ _ _ _ El) as (?&?&?&?).
  repeat split; try done. by apply (Hp id).
Qed.

Lemma claimed_candidate owner kinds id token s g s' :
  claim_candidate env owner kinds id token s = (Done (Commit (Some g)), s') →
  claimed token (tx_now s) g (db s) (db s').
Proof.
  unfold claim_candidate. intros H. m_inv H. cbn in H.
  destruct (operations (db s) !! id) as [o|] eqn:Ho; [|m_inv H; discriminate H].
  destruct (slot_claimable _ _ _ _) eqn:Hc; [|m_inv H; discriminate H].
  m_inv H. destruct (_ <=? _)%Z; m_inv H; [discriminate H|].
  apply sql_Done in E as (d' & E & ->). cbn in E. rewrite Ho in E.
  destruct (lease_to _ _ _ _ _) as [o'|] eqn:El; simplify_eq. split; [done|].
  exists o, o'. cbn. rewrite lookup_insert_eq. destruct (lease_to_row _ _ _ _ _ _ El) as (?&?&?&?).
  repeat split; try done. by apply andb_true_iff in Hc as [[_ Hf]%andb_true_iff _].
Qed.

(** A computation that draws first. *)
Lemma drawn_first {A} (f : uuid → M A) s a s' :
  (uuid_v4 env ≫= f) s = (Done a, s') → (∀ u, runs draws_le (f u)) →
  draws s < draws s' ∧
  f (new_uuid env (draws s)) (restate (db s) (moment s) (S (draws s)) (tx_now s) s) = (Done a, s').
Proof.
  intros E Hf. split; [|done]. apply m_bind_Done in E as (u & s1 & [= <- <-] & E).
  match type of E with ?m ?s1 = _ => pose proof (Hf _ s1 : draws_le s1 (m s1).2) as Hle end.
  rewrite E in Hle. exact Hle.
Qed.

Lemma claimed_pool owner token s (p : (uuid → bool) → Z → uuid → OperationRecord → bool) g s' :
  (∀ skip now id o, p skip now id o = true → free_at now o = true) →
  on_pool env (skip ← locked_rows env; sql env (claim_oldest owner token (p skip))) s = (Done (Some g), s') →
  claimed token (clock env (moment s)) g (db s) (db s').
Proof.
  intros Hp H. unfold on_pool in H.
  apply m_bind_Done in H as (? & ? & [= <- <-] & H).
  apply m_bind_Done in H as (? & ? & [= <- <-] & H).
  apply sql_Done in H as (d' & H & ->). cbn in H. rewrite alone in H.
  eapply claimed_oldest; [|exact H]. apply Hp.
Qed.

(** A lease is issued under the next random value, and only where there was none
    or it had expired. *)
Lemma issued s g s' :
  issues s g s' → draws s < draws s' ∧
                  claimed (new_uuid env (draws s)) (clock env (moment s)) g (db s) (db s').
Proof.
  intros [c Hc].
  assert (Hcl : claims c = true).
  { destruct c; try done; cbn [perform] in Hc; m_inv Hc; try discriminate Hc;
      apply transaction_Done in Hc as [Hc|(s1 & Hc & _)]; m_inv Hc; by repeat case_match. }
  destruct c; try discriminate Hcl; cbn [perform] in Hc;
    apply drawn_first in Hc as [Hlt Hc];
    try (intros ?; unfold claim_candidate; runs_auto; fail); (split; [done|]).
  - apply claimed_pool in Hc; [done|]. unfold claimable. intros ? ? ? ?. rewrite !andb_true_iff. tauto.
  - apply claimed_pool in Hc; [done|]. intros ? ? ? ?. rewrite !andb_true_iff. tauto.
  - apply transaction_Done in Hc as [Hc|(s1 & Hc & _)].
    + apply claimed_candidate in Hc. cbn in Hc. by rewrite alone in Hc.
    + unfold claim_candidate in Hc. m_cases Hc.
Qed.

(** ** Fencing *)

(** The operation no longer carries the token of [g], and never will. *)
Definition fenced (g : LeaseGuard) (s : MState) : Prop :=
  (∃ i, i < draws s ∧ g_token g = new_uuid env i) ∧
  ∀ o, operations (db s) !! g_operation_id g = Some o → op_lease_token o ≠ Some (g_token g).

Context (unique : Inj (=) (=) (new_uuid env)).

Lemma fenced_step g s s' : op_step s s' → fenced g s → fenced g s'.
Proof.
  intros [c ->] [(i & Hi & Hg) Hno]. pose proof (draws_call c s) as Hd. unfold draws_le in Hd.
  split; [exists i; split; [lia|done]|]. intros o Ho Ht.
  destruct (fresh_call c s _ _ Ho _ Ht) as [(o0 & Ho0 & Ht0)|E]; [by eapply Hno|].
  rewrite Hg in E. apply unique in E. lia.
Qed.

Lemma fenced_steps g s s' : rtc op_step s s' → fenced g s → fenced g s'.
Proof. induction 1; [done|]. intros Hf. eauto using fenced_step. Qed.

Lemma steps_draws s s' : rtc op_step s s' → draws s ≤ draws s'.
Proof.
  induction 1 as [|s1 s2 s3 [c ->] _ IH]; [done|]. pose proof (draws_call c s1) as Hd.
  unfold draws_le in Hd. lia.
Qed.

(** [m] says no and changes nothing. *)
Definition idle (m : M bool) (s : MState) : Prop := ∃ s', m s = (Done false, s') ∧ db s' = db s.

Lemma idle_update_held g p f s :
  (∀ t o, operations (db s) !! g_operation_id g = Some o → p t o = false) →
  idle (update_held env g p f) s.
Proof.
  intros Hp. unfold idle, update_held, execute, sql. rewrite update_one_idle by eauto. cbn.
  eexists. split; [done|]. cbn. by destruct (db s).
Qed.

Lemma idle_pool m s : (∀ s', db s' = db s → idle m s') → idle (on_pool env m) s.
Proof.
  intros Hm. destruct (Hm (begin env s).2 (begin_alone s)) as (s' & E & Hdb).
  exists s'. split; [exact E|]. rewrite Hdb. apply begin_alone.
Qed.

Lemma idle_after {A} (m : M A) (f : A → M bool) s a s1 :
  m s = (Done a, s1) → db s1 = db s → idle (f a) s1 → idle (m ≫= f) s.
Proof.
  intros E Hdb (s' & Ef & Hdb'). exists s'. split; [|congruence].
  unfold mbind, m_bind. by rewrite E.
Qed.

Lemma fenced_holds g s t o :
  fenced g s → operations (db s) !! g_operation_id g = Some o →
  holds g t o = false ∧ holds_running g t o = false.
Proof.
  intros [_ Hno] Ho. unfold holds_running, holds.
  rewrite (bool_decide_eq_false_2 (op_lease_token o = _)) by auto. by rewrite andb_false_r.
Qed.

Lemma fenced_settle g state retry code s : fenced g s → idle (settle env g state retry code) s.
Proof.
  intros Hf. apply idle_pool. intros s' Hdb. apply idle_update_held. rewrite Hdb.
  intros t o Ho. by apply (fenced_holds g s t o).
Qed.

Lemma fenced_fail g retry code s : fenced g s → idle (fail env g retry code) s.
Proof.
  intros Hf. unfold fail.
  assert (Hs : ∀ s', draws s ≤ draws s' → db s' = db s → ∀ state at_ c, idle (settle env g state at_ c) s').
  { intros s' Hd Hdb state at_ c. apply fenced_settle. destruct Hf as [(i & Hi & Hg) Hno].
    split; [exists i; split; [lia|done]|]. by rewrite Hdb. }
  eapply idle_after; [reflexivity|apply begin_alone|].
  destruct retry; [destruct (_ <? _)%Z|]; (eapply idle_after; [reflexivity|done|]);
    (apply Hs; [done|apply begin_alone]).
Qed.

Lemma fenced_use g m s : fenced g s → uses g m → idle m s.
Proof.
  intros Hf Hu. pose proof (λ t o, fenced_holds g s t o Hf) as Hh.
  assert (Hupd : ∀ p f, p = holds g ∨ p = holds_running g →
            ∀ s', db s' = db s → idle (update_held env g p f) s').
  { intros p f Hp s' Hdb. apply idle_update_held. rewrite Hdb. intros t o Ho.
    destruct (Hh t o Ho). by destruct Hp as [-> | ->]. }
  destruct Hu; [by apply idle_pool, Hupd; auto..|by apply Hupd; auto|by apply idle_pool, Hupd; auto|
    by apply fenced_fail|].
  exists (tick s). split; [|done]. unfold lock_in_tx, query, sql.
  destruct (operations (db s) !! g_operation_id g) as [o|] eqn:Ho; cbn; [|by destruct s].
  destruct (Hh (clock env (moment s)) o eq_refl) as [_ ->]. by destruct s.
Qed.

(** C4. Fencing of leases.  A lease [g] of an operation is issued, other workers do
    what they like with the table, another lease [g'] of the same operation is
    issued, and again anything happens.  Then the second lease was only issued when
    the operation carried none or an expired one, and from there on whatever the
    holder of the first one tries (heartbeat, step, complete, fail, requeue, or
    locking the operation for a write of its own) is answered [false] and changes
    nothing in the database. *)
Theorem superseded_lease_is_fenced s g s1 s2 g' s3 s4 :
  issues s g s1 → rtc op_step s1 s2 →
  issues s2 g' s3 → g_operation_id g' = g_operation_id g → rtc op_step s3 s4 →
  (∃ o, operations (db s2) !! g_operation_id g = Some o ∧
        null_or (λ e, e <? clock env (moment s2))%Z (op_lease_expires_at o) = true) ∧
  ∀ m, uses g m → ∃ s5, m s4 = (Done false, s5) ∧ db s5 = db s4.
Proof.
  intros [Hd1 [Hg _]]%issued Hs12%steps_draws [Hd2 [Hg' (o & o' & Ho & Hfree & Ho' & Ht & _)]]%issued Hid Hs34.
  rewrite Hid in Ho, Ho'. split.
  - exists o. split; [done|]. unfold free_at in Hfree. by apply andb_true_iff in Hfree as [? _].
  - intros m Hu. apply (fenced_use g); [|done]. eapply fenced_steps; [done|]. split.
    + exists (draws s). split; [lia|done].
    + intros o1 Ho1 Ht1. assert (E : new_uuid env (draws s) = new_uuid env (draws s2)) by congruence.
      apply unique in E. lia.
Qed.
End calls.

(** ** Slots of an organization *)

Section slots.
Context (env : Env) (K : list string).

(** How many operations of the kinds [K] an organization may have running at once. *)
Definition slots (d : Db) (org : uuid) : Z :=
  default 1%Z (tq_max_concurrent_provisioning_ops <$> tenant_quotas d !! org).

(** From now on, whatever the time, no more than that are live. *)
Definition within_slots (s : MState) : Prop :=
  ∀ org t, (clock env (moment s) ≤ t)%Z →
    (count (λ _ o, occupies org K t o) (operations (db s)) ≤ slots (db s) org)%Z.

(** The claims that go around the slots are for other kinds. *)
Definition through_slots (c : OpCall) : Prop :=
  match c with
  | CallClaim _ kind => ∃ k, kind = Some k ∧ k ∉ K
  | CallPromote _ _ => "template.promote" ∉ K
  | CallSlot _ kinds _ => kinds = K
  | _ => True
  end.

Definition slot_step (s s' : MState) : Prop := ∃ c, through_slots c ∧ s' = (perform env c s).2.

(** Every live operation was live before, and slots do not get fewer. *)
Definition shrinks (s s' : MState) : Prop :=
  moment s ≤ moment s' ∧ (∀ org, slots (db s) org ≤ slots (db s') org)%Z ∧
  ∀ org t id o', (clock env (moment s') ≤ t)%Z → operations (db s') !! id = Some o' →
    occupies org K t o' = true →
    ∃ o, operations (db s) !! id = Some o ∧ occupies org K (clock env (moment s)) o = true.

Lemma occupies_later org t t' o :
  (t ≤ t')%Z → occupies org K t' o = true → occupies org K t o = true.
Proof.
  intros Ht. unfold occupies. rewrite !andb_true_iff. intros [[[? ?] He] ?]. repeat split; try done.
  destruct (op_lease_expires_at o); [|done]. cbn in *. lia.
Qed.

Context (Hclock : ordered_clock env).

#[local] Instance shrinks_settled : Settled shrinks.
Proof.
  split; [split|..]; unfold shrinks.
  - intros s. repeat split; [lia..|]. intros org t id o' Ht Ho Hocc. exists o'. split; [done|].
    by eapply occupies_later.
  - intros s1 s2 s3 (M1 & S1 & O1) (M2 & S2 & O2). split; [lia|]. split; [intros org; etrans; eauto|].
    intros org t id o3 Ht Ho3 Hocc3. destruct (O2 _ _ _ _ Ht Ho3 Hocc3) as (o2 & Ho2 & Hocc2).
    by eapply O1; [|exact Ho2|exact Hocc2].
  - intros s s' Hdb _ Hm. rewrite <-Hdb. repeat split; [lia..|]. intros org t id o' Ht Ho Hocc.
    exists o'. split; [done|]. eapply occupies_later, Hocc. etrans; [|exact Ht]. by apply clock_le.
  - intros s s' (Hm & _ & _). cbn. repeat split; [lia..|]. intros org t id o' Ht Ho Hocc.
    exists o'. split; [done|]. eapply occupies_later, Hocc. etrans; [|exact Ht]. by apply clock_le.
Qed.

Lemma shrinks_within s s' : shrinks s s' → within_slots s → within_slots s'.
Proof.
  intros (_ & Hq & Ho) Hw org t Ht. etrans; [|apply Hq]. etrans; [|by apply (Hw org (clock env (moment s)))].
  apply count_le. intros id o' Ho' Hocc. eauto.
Qed.

(** Statements, by their effect at the time [t] they read. *)
Lemma shrinks_sql {A} (f : Z → Z → Db → SqlError + A * Db) :
  (∀ now t d a d', f now t d = inr (a, d') →
     (∀ org, slots d org ≤ slots d' org)%Z ∧
     ∀ org id o', operations d' !! id = Some o' → occupies org K t o' = true →
       ∃ o, operations d !! id = Some o ∧ occupies org K t o = true) →
  runs shrinks (sql env f).
Proof.
  intros H s. unfold sql. destruct (f _ _ _) as [|[a d']] eqn:E.
  - apply settled_quiet; cbn; auto with lia.
  - destruct (H _ _ _ _ _ E) as [Hq Ho]. unfold shrinks. cbn. repeat split; [lia|done|].
    intros org t id o' Ht Ho' Hocc. apply (Ho org id o' Ho'). eapply occupies_later, Hocc.
    etrans; [|exact Ht]. apply Hclock.
Qed.

Context (alone : ∀ n d, others env n d = d).

Lemma shrinks_begin s : shrinks s (begin env s).2.
Proof. apply settled_quiet; cbn; auto with lia. Qed.
#[local] Hint Resolve shrinks_begin runs_locked : runs.

(** An [UPDATE] of one operation, after which the row is live only if it was. *)
Lemma shrinks_update_one {A} id p g (h : Z → A) :
  (∀ now t o org, p now t o = true → occupies org K t (g now t o) = true → occupies org K t o = true) →
  runs shrinks (execute env (λ now t d,
    let '(n, tab) := update_one id (p now t) (g now t) (operations d) in
    (h n, on_operations (λ _, tab) d))).
Proof.
  intros Hg. apply shrinks_sql. intros now t d a d' E.
  destruct (update_one _ _ _ _) as [n tab] eqn:Eu. injection E as <- <-. cbn.
  split; [intros org; done|]. intros org i o' Ho' Hocc.
  change tab with (n, tab).2 in Ho'. rewrite <-Eu, lookup_update_one in Ho'.
  case_bool_decide; subst; [|eauto].
  destruct (operations d !! id) as [o|] eqn:Ho; [|done]. injection Ho' as <-. exists o.
  split; [done|]. destruct (p now t o) eqn:Hp; eauto.
Qed.

Lemma occupies_idle org t o :
  op_state o ≠ "running" ∨ op_lease_expires_at o = None → occupies org K t o = false.
Proof.
  unfold occupies. intros [Hs| ->]; cbn; rewrite ?andb_false_r; [|done].
  by rewrite (bool_decide_eq_false_2 (op_state o = _)), andb_false_r.
Qed.

(** Under a live lease, an operation that keeps its organization, state and kind. *)
Lemma holds_occupies g t o o' org :
  op_organization_id o' = op_organization_id o → op_state o' = op_state o → op_kind o' = op_kind o →
  holds g t o = true → occupies org K t o' = true → occupies org K t o = true.
Proof.
  unfold holds, occupies. intros -> -> ->. rewrite !andb_true_iff. tauto.
Qed.

Lemma shrinks_same {A} (f : Z → Z → Db → A * Db) :
  (∀ now t d, operations (f now t d).2 = operations d ∧ tenant_quotas (f now t d).2 = tenant_quotas d) →
  runs shrinks (execute env f).
Proof.
  intros H. apply shrinks_sql. intros now t d a d' [= E]. destruct (H now t d) as [Ho Hq].
  rewrite E in Ho, Hq. cbn in Ho, Hq. unfold slots. rewrite Ho, Hq. split; [done|eauto].
Qed.

(** An operation replaced by one that is not live. *)
Lemma shrinks_insert (d : Db) id o' t :
  (∀ org, occupies org K t o' = false) →
  ∀ org i o1, <[id := o']> (operations d) !! i = Some o1 → occupies org K t o1 = true →
    ∃ o, operations d !! i = Some o ∧ occupies org K t o = true.
Proof.
  intros Hidle org i o1 [[<- <-]|[_ Ho]]%lookup_insert_Some Hocc; [|eauto].
  by rewrite Hidle in Hocc.
Qed.

Lemma shrinks_create id op : runs shrinks (sql env (λ now _ d, insert_operation id op now d)).
Proof.
  apply shrinks_sql. intros now t d a d'. unfold insert_operation.
  destruct (organizations d !! _); [|done]. destruct (duplicate_runtime_request _ _); [done|].
  destruct (insert_row _ _ _ _) as [|tab] eqn:E; [done|]. intros [= <- <-].
  apply insert_row_inr in E as [_ ->]. split; [intros org; done|]. apply shrinks_insert.
  intros org. by apply occupies_idle; left.
Qed.

Lemma shrinks_quota limits org : runs shrinks (ensure_org_row_in_tx env limits org).
Proof.
  unfold ensure_org_row_in_tx. runs_auto. apply shrinks_sql. intros now t d u d'.
  destruct (tenant_quotas d !! org) as [q|] eqn:Hq; [intros [= <- <-]; split; [done|eauto]|].
  match goal with |- context [if ?b then _ else _] => destruct b eqn:Hl end; intros [= <- <-].
  split; [|cbn; eauto]. intros org'. unfold slots. cbn.
  destruct (decide (org' = org)) as [->|Hne]; [rewrite Hq, lookup_insert_eq|by rewrite lookup_insert_ne].
  cbn. rewrite !andb_true_iff in Hl. lia.
Qed.

(** A lease of an operation of another kind. *)
Lemma shrinks_claim_oldest owner token p :
  (∀ now id o, p now id o = true → op_kind o ∉ K) →
  runs shrinks (sql env (claim_oldest owner token p)).
Proof.
  intros Hp. apply shrinks_sql. intros now t d a d'. unfold claim_oldest.
  destruct (order_by _ _) as [|[id o] l] eqn:E; [intros [= <- <-]; split; [done|eauto]|].
  assert (Hin : (id, o) ∈ order_by by_creation (rows (p now) (operations d))) by (rewrite E; left).
  apply elem_order_by, elem_rows in Hin as [Ho Hpo].
  destruct (lease_to _ _ _ _ _) as [o'|] eqn:El; intros [= <- <-]. split; [intros org; done|].
  apply shrinks_insert. intros org. unfold occupies, one_of.
  rewrite (bool_decide_eq_false_2 (op_kind o' ∈ K)), andb_false_r; [done|].
  apply Hp in Hpo. unfold lease_to in El. destruct (_ <? _)%Z; [|done]. by injection El as <-.
Qed.

#[local] Hint Resolve shrinks_create shrinks_quota : runs.
#[local] Hint Extern 1 (runs _ (update_claimed _ _ _ _)) =>
  apply shrinks_same; intros; by destruct (update_one _ _ _ _) : runs.
#[local] Hint Extern 1 (runs _ (execute _ _)) =>
  apply shrinks_update_one; intros ? ? ? ? ? Hocc; exfalso; revert Hocc;
  rewrite occupies_idle by (first [by left|by right]); done : runs.

Lemma shrinks_call c :
  through_slots c → (∀ owner kinds id, c ≠ CallSlot owner kinds id) → runs shrinks (perform env c).
Proof.
  intros Hc Hns. destruct c; cbn [perform]; try (by edestruct Hns);
    unfold create, create_in_tx, Operations.heartbeat, set_step, complete, complete_in_tx,
      requeue_after, settle, retry_in_tx, complete_operation_delivery, fail_delivery, deliver,
      update_held, claim_kind, claim_promote; runs_auto.
  - apply shrinks_claim_oldest. intros now id o. unfold claimable. rewrite !andb_true_iff.
    destruct Hc as (k & -> & Hk). cbn. rewrite bool_decide_eq_true. by intros [[_ ->] _].
  - apply shrinks_claim_oldest. intros now id o. rewrite !andb_true_iff, !bool_decide_eq_true.
    by intros [[[[-> _] _] _] _].
  - apply shrinks_update_one. intros now t o org. by apply holds_occupies.
  - apply shrinks_update_one. intros now t o org. by apply holds_occupies.
Qed.

(** The state after one more lease, when at the time [t] the others left room. *)
Lemma leased_within (d : Db) id o' t s' :
  db s' = on_operations (<[id := o']>) d → (t ≤ clock env (moment s'))%Z →
  (∀ org, (count (λ k o, negb (bool_decide (k = id)) && occupies org K t o) (operations d) +
           (if bool_decide (op_organization_id o' = org) then 1 else 0) ≤ slots d org)%Z) →
  within_slots s'.
Proof.
  intros Hdb Ht Hroom org t' Ht'. rewrite Hdb. unfold slots. cbn. etrans; [|apply (Hroom org)].
  rewrite (count_split _ _ id). rewrite lookup_insert_eq. cbn. apply Z.add_le_mono.
  - apply count_le. intros k o Ho Hocc. apply andb_true_iff in Hocc as [Hk Hocc].
    apply negb_true_iff, bool_decide_eq_false in Hk. rewrite lookup_insert_ne in Ho by done.
    exists o. split; [done|]. rewrite (bool_decide_eq_false_2 (k = id)) by done. cbn.
    eapply occupies_later, Hocc. lia.
  - unfold occupies. case_bool_decide; cbn; [|lia]. by repeat case_match.
Qed.

Lemma candidate_within owner id token s :
  within_slots s →
  within_slots (atomically (claim_candidate env owner K id token) s).2.
Proof.
  intros Hw.
  assert (Hsame : ∀ s', db s' = db s → moment s ≤ moment s' → within_slots s').
  { intros s' Hdb Hm org t Ht. rewrite Hdb. apply Hw. etrans; [|exact Ht]. by apply clock_le. }
  unfold atomically, claim_candidate, mbind, m_bind, query, sql. cbn.
  destruct (operations (db s) !! id) as [o|] eqn:Ho; [|apply Hsame; cbn; auto with lia].
  destruct (slot_claimable K (tx_now s) (db s) o); [|apply Hsame; cbn; auto with lia]. cbn.
  destruct (_ <=? _)%Z eqn:Hfull; [apply Hsame; cbn; auto with lia|]. cbn. rewrite Ho.
  destruct (lease_to _ _ _ _ _) as [o'|] eqn:El; [|apply Hsame; cbn; auto with lia]. cbn.
  apply (leased_within (db s) id o' (clock env (S (S (moment s))))); [done|cbn; apply clock_le; [done|lia]|].
  destruct (lease_to_row _ _ _ _ _ _ El) as (_ & _ & Horg & _). intros org. rewrite Horg.
  case_bool_decide as E.
  - subst org. unfold slots. lia.
  - rewrite Z.add_0_r. etrans; [|apply (Hw org (clock env (moment s))); done].
    apply count_le. intros k o1 Ho1 [_ Hocc]%andb_true_iff. exists o1. split; [done|].
    eapply occupies_later, Hocc. apply clock_le; [done|lia].
Qed.

Lemma slot_step_within s s' : slot_step s s' → within_slots s → within_slots s'.
Proof.
  intros (c & Hc & ->) Hw.
  destruct c as [| | |owner kinds id| | | | | | | | | |];
    try (eapply shrinks_within; [apply shrinks_call; [exact Hc|done]|done]).
  cbn in Hc. subst kinds. apply candidate_within. eapply shrinks_within, Hw.
  apply settled_quiet; cbn; auto with lia.
Qed.

(** C16. The provisioning slots of an organization.  Start from a table in which no
    organization has more live operations of the kinds [K] than its quota row allows
    (one, where it has none).  Let any number of workers create, claim, heartbeat,
    finish, fail, requeue, retry and deliver in any order, where claims of the kinds
    [K] go through [claim_kinds_with_org_slot].  Then at every later time no
    organization has more live operations of those kinds than its quota. *)
Theorem slot_ceiling s s' :
  rtc slot_step s s' → within_slots s →
  ∀ org t, (clock env (moment s') ≤ t)%Z →
    (count (λ _ o, occupies org K t o) (operations (db s')) ≤
     default 1 (tq_max_concurrent_provisioning_ops <$> tenant_quotas (db s') !! org))%Z.
Proof.
  intros Hs Hw. assert (Hw' : within_slots s') by (induction Hs; eauto using slot_step_within).
  exact Hw'.
Qed.
End slots.
