(* ===== verification/IdempotencyProps.v ===== *)
(** * Idempotent requests and rate limits

    A mutation runs once per key while the key is retained, whatever happens in
    between; and a bucket is allowed no more calls per minute than its limit. *)
From S2P Require Import Prelude Text Json Schema Database DatabaseFacts Idempotency.

(** An idempotent request stays within what its mutation stays within when it
    succeeds. *)
Lemma moves_once env R `{!PreOrder R} r m :
  (∀ n d, R d (others env n d)) → (∀ f d, R d (on_idempotency_keys f d)) →
  commits R m → moves R (execute_once env r m).
Proof.
  intros Ho Hk Hm. unfold execute_once. apply runs_bind; [apply _|apply runs_require, _|]. intros _.
  apply moves_committed; [apply _|done|].
  apply commits_bind; [apply _|apply commits_runs, runs_uuid, _|]. intros id.
  apply commits_bind; [apply _| |intros []; cbn].
  - apply commits_runs, moves_sql; [apply _|]. intros now t d b d'. unfold reserve_key.
    repeat case_match; intros; simplify_eq/=; first [reflexivity|apply Hk].
  - apply commits_bind; [apply _|done|]. intros ref. apply commits_runs. runs_auto.
    apply moves_execute; [apply _|]. intros now t d. apply Hk.
  - apply commits_runs. runs_auto.
Qed.

Section idempotency.
Context (env : Env).

(** A mutation leaves the keys of requests alone. *)
Definition keeps_keys : relation MState := λ s s',
  idempotency_keys (db s) = idempotency_keys (db s') ∧ moment s ≤ moment s'.
#[export] Instance keeps_keys_settled : Settled keeps_keys.
Proof.
  split; [split|..]; unfold keeps_keys.
  - done.
  - intros s1 s2 s3 [-> ?] [-> ?]. auto with lia.
  - intros s s' -> _ ?. done.
  - intros s s' [_ ?]. done.
Qed.

(** One request of some client. *)
Definition request_step (s s' : MState) : Prop :=
  ∃ r m, runs keeps_keys m ∧ s' = (execute_once env r m s).2.

(** The key of [r] is taken until [until] by a request that answered [reference]. *)
Definition answered (r : IdempotencyRequest) (until : Z) (reference : string) (d : Db) : Prop :=
  ∃ k, idempotency_keys d !! row_key r = Some k ∧ ik_request_hash k = ir_request_hash r ∧
       ik_response_reference k = Some reference ∧ ik_expires_at k = until.

Context (alone : ∀ n d, others env n d = d) (Hclock : ordered_clock env).

(** The organization a request names is there. *)
Definition scope_exists (r : IdempotencyRequest) (d : Db) : Prop :=
  match ir_organization_id r with Some org => is_Some (organizations d !! org) | None => True end.

Definition valid_key (r : IdempotencyRequest) : bool :=
  negb (is_blank (ir_key r)) && (String.length (ir_key r) <=? 255)%nat.

(** A key that is taken is answered without running the mutation. *)
Lemma reserve_taken id r now t d k :
  scope_exists r d → idempotency_keys d !! row_key r = Some k → (t < ik_expires_at k)%Z →
  reserve_key id r now t d = inr (false, d).
Proof.
  unfold scope_exists, reserve_key. intros Hs Hk Ht.
  replace (match ir_organization_id r with Some org => _ | None => false end) with false
    by (destruct (ir_organization_id r); [by destruct Hs as [? ->]|done]).
  rewrite Hk. by rewrite (proj2 (Z.leb_gt _ _) Ht).
Qed.

Lemma answered_again r r' m until reference s :
  answered r until reference (db s) → is_blank reference = false → valid_key r' = true →
  row_key r' = row_key r → (clock env (S (moment s)) < until)%Z → scope_exists r' (db s) →
  ∃ s', execute_once env r' m s =
          (if bool_decide (ir_request_hash r' = ir_request_hash r) then Done (Replay reference)
           else Refused REUSED, s') ∧ db s' = db s.
Proof.
  intros (k & Hk & Hh & Hr & Hu) Hblank Hvalid Hkey Ht Hs.
  unfold execute_once, transaction, atomically, mbind, m_bind, require, sql.
  unfold valid_key in Hvalid. rewrite Hvalid. cbn. rewrite !alone.
  rewrite (reserve_taken _ r' _ _ _ k) by (rewrite ?Hkey, ?Hu; done). cbn.
  rewrite ?alone, Hkey, Hk. cbn. rewrite Hh, Hr.
  rewrite (bool_decide_ext (ir_request_hash r = ir_request_hash r') (ir_request_hash r' = ir_request_hash r))
    by done.
  case_bool_decide; cbn; [rewrite Hblank; cbn|]; eexists; (split; [reflexivity|]); cbn; by rewrite ?alone.
Qed.

(** What a reservation leaves at every key. *)
Lemma reserve_written id r now t d b d' :
  reserve_key id r now t d = inr (b, d') →
  (b = false ∧ d' = d) ∨
  (b = true ∧ ∃ created, idempotency_keys d' = <[row_key r := fresh_key id r created t]> (idempotency_keys d) ∧
     (∀ kk k, kk ≠ row_key r → idempotency_keys d !! kk = Some k → ik_id k ≠ id) ∧
     (∀ k, idempotency_keys d !! row_key r = Some k → (ik_expires_at k ≤ t)%Z)).
Proof.
  unfold reserve_key. match goal with |- context [if ?b then inl _ else _] => destruct b; [done|] end.
  destruct (idempotency_keys d !! row_key r) as [k|] eqn:Hk.
  - destruct (_ <=? _)%Z eqn:Ht; [|naive_solver]. destruct (exists_row _ _) eqn:Hex; [done|].
    intros [= <- <-]. right. split; [done|]. exists t. split; [done|].
    pose proof (proj1 (exists_row_false _ _) Hex) as Hn. split.
    + intros kk k' Hne Hk' <-. specialize (Hn kk k' Hk'). rewrite andb_false_iff in Hn.
      destruct Hn as [Hn|Hn]; [by apply bool_decide_eq_false in Hn|].
      apply negb_false_iff, bool_decide_eq_true in Hn. done.
    + intros k' [= <-]. lia.
  - destruct (exists_row _ _) eqn:Hex; [done|]. intros [= <- <-]. right. split; [done|].
    exists now. split; [done|]. split; [|done]. intros kk k' _ Hk' <-.
    pose proof (proj1 (exists_row_false _ _) Hex kk k' Hk') as Hn. by apply bool_decide_eq_false in Hn.
Qed.

(** A request that ran its mutation, in terms of the rows of the keys. *)
Lemma ran_once r m s reference s' :
  runs keeps_keys m → execute_once env r m s = (Done (New reference), s') →
  valid_key r = true ∧ is_blank reference = false ∧ moment s ≤ moment s' ∧
  ∃ id created,
    idempotency_keys (db s') =
      update (λ _ k, bool_decide (ik_id k = id)) (ik_set_response_reference (Some reference))
        (<[row_key r := fresh_key id r created (clock env (S (moment s)))]> (idempotency_keys (db s))) ∧
    (∀ kk k, kk ≠ row_key r → idempotency_keys (db s) !! kk = Some k → ik_id k ≠ id) ∧
    (∀ k, idempotency_keys (db s) !! row_key r = Some k → (ik_expires_at k ≤ clock env (S (moment s)))%Z).
Proof.
  intros Hm H. unfold execute_once in H. m_inv H.
  apply transaction_Done in H as [H|(s1 & H & _)]; m_inv H.
  - injection E0 as <- <-. apply sql_Done in E1 as (d & E1 & ->). cbn in E1. rewrite alone in E1.
    apply reserve_written in E1 as [[-> ->]|[-> (created & Hd & Hids & Hexp)]]; [by m_cases H|].
    cbn in H. m_inv H. injection H as <-. apply execute_Done in E2 as [_ ->].
    apply (runs_to _ _ _ _ _ Hm) in E0 as [Hk Hmo]. cbn in Hk, Hmo. cbn. rewrite <-Hk, Hd.
    repeat split; [done|by apply negb_true_iff|lia|]. eauto 10.
  - injection E0 as <- <-. apply sql_Done in E1 as (d & E1 & ->). m_cases H.
Qed.

(** Otherwise the rows stay as they were. *)
Lemma not_ran r m s res s' :
  execute_once env r m s = (res, s') → (∀ reference, res ≠ Done (New reference)) →
  idempotency_keys (db s') = idempotency_keys (db s).
Proof.
  intros H Hres. unfold execute_once in H.
  apply require_cases in H as [[_ H]|(_ & _ & ->)]; [|done].
  apply transaction_cases in H as [(a & -> & H)|[-> _]]; [|by rewrite alone].
  m_inv H. injection E as <- <-. apply sql_Done in E0 as (d & E0 & ->). cbn in E0.
  rewrite alone in E0.
  apply reserve_written in E0 as [[-> ->]|[-> _]]; cbn in H; m_inv H;
    [cbn; done|].
  injection H as <-. by edestruct Hres.
Qed.

Lemma execute_once_moment r m : runs keeps_keys m → runs moment_le (execute_once env r m).
Proof.
  intros Hm. unfold execute_once. runs_auto. intros s. by destruct (Hm s).
Qed.

(** The row of another request, and the row of this one while it is retained. *)
Lemma answered_step r until reference s s' :
  request_step s s' → (clock env (S (moment s)) < until)%Z → answered r until reference (db s) →
  answered r until reference (db s').
Proof.
  intros (r' & m & Hm & ->) Ht Hans.
  destruct (execute_once env r' m s) as [res s'] eqn:E. cbn.
  assert (Hres : (∃ ref, res = Done (New ref)) ∨ ∀ ref, res ≠ Done (New ref))
    by (destruct res as [[]| |]; eauto).
  destruct Hres as [[ref ->]|Hres]; unfold answered; [|by rewrite (not_ran _ _ _ _ _ E Hres)].
  destruct (ran_once _ _ _ _ _ Hm E) as (_ & _ & _ & id & created & Hd & Hids & Hexp). rewrite Hd.
  destruct Hans as (k & Hk & Hh & Hr & Hu). exists k.
  destruct (decide (row_key r = row_key r')) as [Hkey|Hkey].
  - rewrite Hkey in Hk. specialize (Hexp k Hk). lia.
  - rewrite lookup_update, lookup_insert_ne by done. rewrite Hk. cbn.
    by rewrite (bool_decide_eq_false_2 (ik_id k = id)) by eauto.
Qed.

Lemma answered_steps r until reference s s' :
  rtc request_step s s' → (clock env (S (moment s')) < until)%Z →
  answered r until reference (db s) → answered r until reference (db s') ∧ moment s ≤ moment s'.
Proof.
  induction 1 as [|s1 s2 s3 H12 Hs IH]; [auto|]. intros Ht Hans.
  assert (Hmo : ∀ a b, rtc request_step a b → moment a ≤ moment b).
  { clear. induction 1 as [|a b c (r & m & Hm & ->) _ IH]; [lia|].
    pose proof (execute_once_moment r m Hm a) as Hle. unfold moment_le in Hle. lia. }
  pose proof (Hmo _ _ Hs). assert (moment s1 ≤ moment s2) by (apply Hmo; by apply rtc_once).
  assert (answered r until reference (db s2)).
  { eapply answered_step; [done| |done]. eapply Z.le_lt_trans; [|exact Ht]. apply clock_le; [done|lia]. }
  destruct IH; [done..|]. split; [done|lia].
Qed.

(** C13. Idempotent requests.  A request ran its mutation and answered [reference];
    any requests follow.  While the key is retained (seven days from the moment it
    was taken), a request of the same actor, organization, route and key does not run
    its mutation, whatever it is, and changes nothing: with the same request hash it
    is answered with the first one's reference, with another hash it is refused. *)
Theorem mutation_runs_once r m s reference s1 s2 r' m' :
  runs keeps_keys m → execute_once env r m s = (Done (New reference), s1) →
  rtc request_step s1 s2 →
  (clock env (S (moment s2)) < clock env (S (moment s)) + RETENTION)%Z →
  row_key r' = row_key r → scope_exists r' (db s2) →
  ∃ s3, execute_once env r' m' s2 =
          (if bool_decide (ir_request_hash r' = ir_request_hash r) then Done (Replay reference)
           else Refused REUSED, s3) ∧ db s3 = db s2.
Proof.
  intros Hm E Hs Ht Hkey Hsc. destruct (ran_once _ _ _ _ _ Hm E) as (Hv & Hb & _ & id & created & Hd & _).
  apply (answered_again r r' m' (clock env (S (moment s)) + RETENTION)); [|done| |done..].
  - eapply answered_steps; [done..|]. eexists. split.
    + rewrite Hd, lookup_update, lookup_insert_eq. reflexivity.
    + cbn. by rewrite bool_decide_eq_true_2.
  - unfold valid_key. unfold row_key in Hkey. by injection Hkey as _ _ _ ->.
Qed.
End idempotency.

(** ** Rate limits *)

Section rate_limits.
Context (env : Env).

Record RateCall := {
  rc_bucket : string;
  rc_scope : LimitScope;
  rc_limit : Z;
  rc_prune : bool;
}.

Definition subject (c : RateCall) : string * string := (sha256_hex env (rc_bucket c), scope_str (rc_scope c)).

(** The calls in turn: whom each was counted for, in which minute, and whether it was
    let through. *)
Fixpoint serve (calls : list RateCall) (s : MState) : list (string * string * Z * bool) :=
  match calls with
  | [] => []
  | c :: calls' =>
      let '(r, s') := allow env (rc_bucket c) (rc_scope c) (rc_limit c) (rc_prune c) s in
      ((subject c, minute_of (clock env (S (moment s)))),
       match r with Done b => b | _ => false end) :: serve calls' s'
  end.

Definition allowed_in (k : string * string * Z) (l : list (string * string * Z * bool)) : Z :=
  Z.of_nat (length (filter (λ x, x = (k, true)) l)).

Definition counter (k : string * string * Z) (d : Db) : Z := default 0%Z (rate_limit_ledger d !! k).

Context (alone : ∀ n d, others env n d = d) (Hclock : ordered_clock env).

Definition bumped (limit c : Z) : Z := Z.max c (Z.min (c + 1) (clamp_limit limit)).

Lemma bumped_spec L c :
  (0 ≤ L < I32_MAX)%Z → (c ≤ bumped L c)%Z ∧ ((bumped L c ≤ L)%Z → bumped L c = (c + 1)%Z).
Proof.
  unfold bumped, clamp_limit. intros HL. rewrite (proj2 (Z.leb_le L I32_MAX)) by lia. lia.
Qed.

(** The counter after the first statement of a call. *)
Definition bump (k : string * string * Z) (limit : Z) (d : Db) : Db :=
  on_rate_limit_ledger (<[k := bumped limit (counter k d)]>) d.

Lemma counter_bump k k' limit d :
  counter k' (bump k limit d) = if bool_decide (k' = k) then bumped limit (counter k d) else counter k' d.
Proof.
  unfold counter at 1, bump. cbn. case_bool_decide; subst; [by rewrite lookup_insert_eq|].
  by rewrite lookup_insert_ne.
Qed.

Lemma deleted_keys {K V W} `{Countable K} (l : list (K * W)) (tab : gmap K V) k :
  foldr (λ x tab, base.delete x.1 tab) tab l !! k = tab !! k ∨ k ∈ l.*1.
Proof.
  induction l as [|[k0 w] l IH]; cbn; [by left|]. destruct (decide (k = k0)) as [->|Hne].
  - right. by left.
  - rewrite lookup_delete_ne by done. destruct IH; [by left|]. right. by right.
Qed.

(** One call: what it answers, and what it leaves of a counter that is not an hour
    old. *)
Lemma allow_run c s :
  (0 ≤ rc_limit c)%Z →
  let k := (subject c, minute_of (clock env (S (moment s)))) in
  ∃ s', allow env (rc_bucket c) (rc_scope c) (rc_limit c) (rc_prune c) s =
          (Done (bumped (rc_limit c) (counter k (db s)) <=? rc_limit c)%Z, s') ∧
        S (moment s) ≤ moment s' ∧
        ∀ k', (k'.2 < clock env (moment s') - HOUR)%Z ∨ counter k' (db s') = counter k' (bump k (rc_limit c) (db s)).
Proof.
  intros HL k. unfold allow, on_pool, mbind, m_bind, begin, execute, sql. cbn. rewrite !alone.
  fold (subject c). fold k.
  replace (match rate_limit_ledger (db s) !! k with None => 1%Z | Some c0 => _ end)
    with (bumped (rc_limit c) (counter k (db s))); last first.
  { unfold bumped, counter. destruct (rate_limit_ledger (db s) !! k); [done|]. cbn.
    unfold clamp_limit, I32_MAX. destruct (_ <=? _)%Z; lia. }
  fold (bump k (rc_limit c) (db s)). destruct (rc_prune c); cbn.
  - eexists. split; [reflexivity|]. split; [cbn; lia|]. intros k'. cbn. rewrite alone. unfold counter at 1. cbn.
    match goal with |- context [foldr _ ?tab ?old !! _] =>
      destruct (deleted_keys old tab k') as [->|Hin]; [by right|] end.
    left. apply list_elem_of_fmap in Hin as ([k1 n1] & -> & Hin). apply elem_of_take in Hin as (i & Hi & _).
    apply list_elem_of_lookup_2, elem_order_by, elem_rows in Hi as [_ Hi]. cbn in *.
    specialize (Hclock (S (S (S (moment s))))). lia.
  - eexists. split; [reflexivity|]. split; [cbn; lia|]. auto.
Qed.

Lemma minute_bounds t : (minute_of t ≤ t < minute_of t + MINUTE)%Z.
Proof.
  assert (Hp : (0 < MINUTE)%Z) by (unfold MINUTE, SECOND; lia). unfold minute_of.
  pose proof (Z.div_mod t MINUTE) as Hdm. pose proof (Z.mod_pos_bound t MINUTE Hp). lia.
Qed.

Lemma hour_minute : (MINUTE ≤ HOUR)%Z.
Proof. by vm_compute. Qed.

(** Later minutes do not count for an earlier one. *)
Lemma served_later k calls s :
  (∀ c, c ∈ calls → 0 ≤ rc_limit c)%Z → (k.2 + MINUTE ≤ clock env (moment s))%Z →
  allowed_in k (serve calls s) = 0%Z.
Proof.
  revert s. induction calls as [|c calls IH]; intros s HL Hk; [done|]. cbn [serve].
  destruct (allow_run c s) as (s' & -> & Hmo & _); [apply HL; by left|].
  unfold allowed_in. rewrite filter_cons_False.
  - apply IH; [intros; apply HL; by right|]. etrans; [exact Hk|]. apply clock_le; [done|lia].
  - intros [= E _]. subst k. cbn in Hk. pose proof (minute_bounds (clock env (S (moment s)))).
    specialize (Hclock (moment s)). lia.
Qed.

Lemma served_within k L calls s :
  (0 ≤ L < I32_MAX)%Z → (∀ c, c ∈ calls → 0 ≤ rc_limit c)%Z →
  (∀ c, c ∈ calls → subject c = k.1 → rc_limit c = L) →
  (allowed_in k (serve calls s) ≤ Z.max 0 (L - counter k (db s)))%Z.
Proof.
  intros HL. revert s. induction calls as [|c calls IH]; intros s Hpos Hlim;
    [change (0 ≤ Z.max 0 (L - counter k (db s)))%Z; lia|]. cbn [serve].
  destruct (allow_run c s) as (s' & -> & Hmo & Hc); [apply Hpos; by left|].
  specialize (IH s' ltac:(intros; apply Hpos; by right) ltac:(intros; apply Hlim; [by right|done])).
  set (k1 := (subject c, minute_of (clock env (S (moment s))))) in *.
  assert (Hrest : (allowed_in k (serve calls s') ≤
                   Z.max 0 (L - counter k (bump k1 (rc_limit c) (db s))))%Z).
  { destruct (Hc k) as [Hold|E]; [|by rewrite <-E].
    rewrite served_later; [lia|intros; apply Hpos; by right|].
    pose proof hour_minute. lia. }
  clear IH Hc. rewrite counter_bump in Hrest. unfold allowed_in in *.
  destruct (decide (k = k1)) as [E|Hne].
  - rewrite (bool_decide_eq_true_2 (k = k1)) in Hrest by done. subst k.
    rewrite (Hlim c) in * by (by try left). destruct (bumped_spec L (counter k1 (db s)) HL) as [Hle1 Hle2].
    destruct (_ <=? L)%Z eqn:Hle.
    + rewrite filter_cons_True by done. cbn [length]. lia.
    + rewrite filter_cons_False by naive_solver. lia.
  - rewrite (bool_decide_eq_false_2 (k = k1)) in Hrest by done.
    rewrite filter_cons_False by naive_solver. lia.
Qed.

(** Rate limits.  Calls of any buckets and scopes come in any order, with the
    clean-up of old rows whenever it is drawn.  Where every call of a bucket and scope
    carries the limit [L], no more than [L] of them are let through in one minute. *)
Theorem rate_limit_holds k L calls s :
  (0 ≤ L < I32_MAX)%Z → (∀ c, c ∈ calls → 0 ≤ rc_limit c)%Z →
  (∀ c, c ∈ calls → subject c = k.1 → rc_limit c = L) → (0 ≤ counter k (db s))%Z →
  (allowed_in k (serve calls s) ≤ L)%Z.
Proof. intros HL Hpos Hlim Hc. pose proof (served_within k L calls s HL Hpos Hlim). lia. Qed.
End rate_limits.
