(* ===== verification/OutboxProps.v ===== *)
(** * Delivery of outbox events

    An event and the operation it stands for are finished in one transaction, and an
    event that was delivered, or given up, is never handed out or changed again. *)
From S2P Require Import Prelude Text Json Schema Database DatabaseFacts Operations Outbox.

Section outbox.
Context (env : Env).

(** A transaction on the outbox. *)
Inductive outbox_call : M bool → Prop :=
  | out_insert org event_type payload :
      outbox_call (transaction env (insert_in_tx env org event_type payload;; mret (Commit true)))
  | out_claim owner limit types : outbox_call (claim_filtered env owner limit types;; mret true)
  | out_heartbeat c : outbox_call (Outbox.heartbeat env c)
  | out_mark c : outbox_call (mark_delivered env c)
  | out_complete c : outbox_call (complete_operation_delivery env c)
  | out_release c : outbox_call (release_lease env c)
  | out_fail c permanent : outbox_call (fail_delivery env c permanent).

Definition outbox_step (s s' : MState) : Prop := ∃ m, outbox_call m ∧ s' = (m s).2.

(** Delivered or given up, and under no lease. *)
Definition closed (e : OutboxEvent) : Prop :=
  (is_Some (ob_delivered_at e) ∨ is_Some (ob_failed_at e)) ∧ ob_lease_token e = None.

(** Closed events stay as they are. *)
Definition keeps_closed (d d' : Db) : Prop :=
  ∀ id e, outbox_events d !! id = Some e → closed e → outbox_events d' !! id = Some e.
#[export] Instance keeps_closed_preorder : PreOrder keeps_closed.
Proof. split; [by intros d id e|]. intros d1 d2 d3 H1 H2 id e He Hc. eauto. Qed.

Lemma closed_not_live c t e : closed e → live_claim c t e = false.
Proof.
  intros [_ Ht]. unfold live_claim. rewrite Ht. rewrite (bool_decide_eq_false_2 (None = _)) by done.
  by rewrite andb_false_r.
Qed.

Lemma closed_not_deliverable types now t e : closed e → deliverable types now t e = false.
Proof.
  intros [[[? Hd]|[? Hf]] _]; unfold deliverable; [by rewrite Hd|]. by rewrite Hf, andb_false_r.
Qed.

Context (alone : ∀ n d, others env n d = d).

Lemma keeps_others n d : keeps_closed d (others env n d).
Proof. by rewrite alone. Qed.
#[local] Hint Resolve keeps_others : runs.

Lemma keeps_update_claimed c p f :
  (∀ t e, closed e → p t e = false) → moves keeps_closed (update_claimed env c p f).
Proof.
  intros Hp. apply moves_execute; [apply _|]. intros now t d.
  destruct (update_one _ _ _ _) as [n tab] eqn:E. intros id e He Hc. cbn.
  change tab with (n, tab).2. rewrite <-E, lookup_update_one. case_bool_decide; subst; [|done].
  rewrite He. cbn. by rewrite Hp.
Qed.

Lemma keeps_same {A} (f : Z → Z → Db → A * Db) :
  (∀ now t d, outbox_events (f now t d).2 = outbox_events d) → moves keeps_closed (execute env f).
Proof. intros H. apply moves_execute; [apply _|]. intros now t d id e He _. by rewrite H. Qed.

Lemma foldr_insert_lookup {K V} `{Countable K} (l : list (K * V)) (tab : gmap K V) k :
  k ∉ l.*1 → foldr (λ x tab, <[x.1 := x.2]> tab) tab l !! k = tab !! k.
Proof.
  induction l as [|[k0 v] l IH]; cbn; [done|]. rewrite not_elem_of_cons. intros [Hne Hin].
  by rewrite lookup_insert_ne, IH.
Qed.

(** The events a claim hands out were to be delivered. *)
Definition chosen_events (limit : Z) types (skip : uuid → bool) now t d : list (uuid * OutboxEvent) :=
  take (Z.to_nat limit)
    (order_by event_by_creation
       (rows (λ k e, deliverable types now t e && negb (skip k)) (outbox_events d))).

Lemma chosen_open limit types skip now t d id e :
  (id, e) ∈ chosen_events limit types skip now t d → outbox_events d !! id = Some e ∧ ¬ closed e.
Proof.
  intros Hin. apply elem_of_take in Hin as (i & Hi & _).
  apply list_elem_of_lookup_2, elem_order_by, elem_rows in Hi as [He Hp]. split; [done|].
  intros Hc. by rewrite (closed_not_deliverable types now t e Hc) in Hp.
Qed.

Lemma chosen_keys limit types skip now t d id e (f : uuid * OutboxEvent → OutboxEvent) :
  outbox_events d !! id = Some e → closed e →
  id ∉ ((λ x, (x.1, f x)) <$> chosen_events limit types skip now t d).*1.
Proof.
  intros He Hc Hin. rewrite <-list_fmap_compose in Hin. apply list_elem_of_fmap in Hin as ([i e'] & -> & Hin).
  cbn in He. apply chosen_open in Hin as [He' Ho]. congruence.
Qed.

Lemma keeps_claim owner token limit types skip :
  moves keeps_closed (sql env (claim_events owner token limit types skip)).
Proof.
  apply moves_sql; [apply _|]. intros now t d a d'. unfold claim_events.
  fold (chosen_events limit types skip now t d). destruct (forallb _ _); [|done]. intros [= <- <-] id e He Hc.
  cbn. rewrite foldr_insert_lookup; [done|]. by eapply (chosen_keys _ _ _ _ _ _ _ _ (λ x, _)).
Qed.

Lemma keeps_insert org event_type payload : moves keeps_closed (insert_in_tx env org event_type payload).
Proof.
  unfold insert_in_tx. runs_auto. apply moves_sql; [apply _|]. intros now t d u d'.
  match goal with |- context [if ?b then _ else _] => destruct b; [|done] end.
  destruct (insert_row _ _ _ _) as [|tab] eqn:E; [done|]. intros [= <- <-] id e He Hc.
  apply insert_row_inr in E as [Hnone ->]. cbn. rewrite lookup_insert_ne; [done|]. congruence.
Qed.

#[local] Hint Resolve keeps_insert : runs.
#[local] Hint Extern 1 (runs _ (update_claimed _ _ _ _)) =>
  apply keeps_update_claimed; intros; by rewrite closed_not_live : runs.
#[local] Hint Extern 1 (runs _ (execute _ _)) =>
  apply keeps_same; intros; by destruct (update_one _ _ _ _) : runs.

Lemma keeps_call m : outbox_call m → moves keeps_closed m.
Proof.
  intros Hm. destruct Hm; unfold claim_filtered, Outbox.heartbeat, mark_delivered, deliver,
    complete_operation_delivery, release_lease, fail_delivery, deliver; runs_auto.
  intros s. apply keeps_claim.
Qed.

Lemma keeps_steps s s' : rtc outbox_step s s' → keeps_closed (db s) (db s').
Proof.
  induction 1 as [|s1 s2 s3 (m & Hm & ->) _ IH]; [done|]. etrans; [apply (keeps_call m Hm)|done].
Qed.

(** ** Finishing an event *)

Lemma update_claimed_Done c p f s b s' :
  update_claimed env c p f s = (Done b, s') →
  operations (db s') = operations (db s) ∧
  if b then ∃ e, outbox_events (db s) !! oc_id c = Some e ∧ p (clock env (moment s)) e = true ∧
                 outbox_events (db s') !! oc_id c = Some (f (tx_now s) (clock env (moment s)) e)
  else db s' = db s.
Proof.
  unfold update_claimed. intros [-> ->]%execute_Done. unfold update_one.
  destruct (outbox_events (db s) !! oc_id c) as [e|] eqn:He; cbn; [|by destruct (db s)].
  destruct (p _ e) eqn:Hp; cbn; [|by destruct (db s)]. split; [done|]. exists e. by rewrite lookup_insert_eq.
Qed.

(** The answers that close an event. *)
Inductive closes (c : OutboxClaim) : M bool → Prop :=
  | closes_mark : closes c (mark_delivered env c)
  | closes_complete : closes c (complete_operation_delivery env c)
  | closes_fail : closes c (fail_delivery env c true).

(** Only a live claim closes its event. *)
Lemma closed_by c m s s' :
  closes c m → m s = (Done true, s') →
  (∃ t e0, outbox_events (db s) !! oc_id c = Some e0 ∧ live_claim c t e0 = true) ∧
  ∃ e, outbox_events (db s') !! oc_id c = Some e ∧ closed e.
Proof.
  intros Hm H. destruct Hm.
  - apply m_bind_Done in H as (? & ? & [= _ <-] & H).
    apply update_claimed_Done in H as [_ (e & He & Hl & ->)]. cbn in He. rewrite alone in He.
    split; [by eauto|]. eexists. split; [done|]. split; [left; by eexists|done].
  - unfold complete_operation_delivery in H. apply m_bind_Done in H as (op & s1 & Eop & H).
    assert (s1 = s) as -> by (destruct (operation_text c); m_inv Eop; done).
    apply transaction_Done in H as [H|(s2 & H & _)]; m_inv H; destruct a; cbn in H; try (by m_cases H).
    apply update_claimed_Done in E as [_ (e & He & Hl & He')]. cbn in He. rewrite alone in He.
    split; [by eauto|]. exists (unlease_event e ▷ ob_set_delivered_at (Some (tx_now (begin env s).2))).
    split; [|split; [left; by eexists|done]].
    destruct op; m_inv H; [|done]. apply execute_Done in E as [_ ->]. cbn.
    by destruct (update_one _ _ _ _).
  - unfold fail_delivery in H. apply transaction_Done in H as [H|(s2 & H & _)]; m_inv H; [|done].
    injection H as ->. apply update_claimed_Done in E as [_ (e & He & [Hl _]%andb_true_iff & He')].
    cbn in He. rewrite alone in He. split; [by eauto|].
    match type of He' with _ = Some ?x => exists x end.
    split; [|split; [right; by eexists|done]]. cbn in E0.
    destruct (operation_text c ≫= parse_uuid env); [|m_inv E0; subst; exact He'].
    apply execute_Done in E0 as [_ ->]. cbn. by destruct (update_one _ _ _ _).
Qed.

(** C21. An outbox event is settled once.  After a worker was told that it delivered
    the event, or that it gave it up for good, and whatever else happens to the
    outbox, the event's row stays as it is, no claim hands the event out again, and
    no other claim of it can deliver it or give it up. *)
Theorem event_is_settled_once c m s s1 s2 :
  closes c m → m s = (Done true, s1) → rtc outbox_step s1 s2 →
  outbox_events (db s2) !! oc_id c = outbox_events (db s1) !! oc_id c ∧
  (∀ owner limit types got s3, claim_filtered env owner limit types s2 = (Done got, s3) →
     ∀ c', c' ∈ got → oc_id c' ≠ oc_id c) ∧
  ∀ c' m' s3, oc_id c' = oc_id c → closes c' m' → m' s2 ≠ (Done true, s3).
Proof.
  intros Hm H Hs. destruct (closed_by _ _ _ _ Hm H) as [_ (e & He & Hc)].
  pose proof (keeps_steps _ _ Hs _ _ He Hc) as He2. split; [congruence|]. split.
  - intros owner limit types got s3 Hcl c' Hin Hid.
    apply m_bind_Done in Hcl as (tok & s4 & [= <- <-] & Hcl).
    apply m_bind_Done in Hcl as (? & ? & [= <- <-] & Hcl).
    apply sql_Done in Hcl as (d & Hcl & _). cbn in Hcl. rewrite alone in Hcl. unfold claim_events in Hcl.
    fold (chosen_events limit types (locked env (S (moment s2))) (clock env (moment s2))
            (clock env (S (moment s2))) (db s2)) in Hcl.
    destruct (forallb _ _); [|done]. injection Hcl as <- _.
    rewrite <-list_fmap_compose in Hin. apply list_elem_of_fmap in Hin as ([i e'] & -> & Hin).
    apply chosen_open in Hin as [He' Ho]. cbn in Hid. congruence.
  - intros c' m' s3 Hid Hm' H'. destruct (closed_by _ _ _ _ Hm' H') as [(t & e0 & He0 & Hl) _].
    rewrite Hid in He0. assert (e0 = e) as -> by congruence. by rewrite closed_not_live in Hl.
Qed.

(** Delivery and completion are one transaction.  When delivering an event that
    carries an operation is answered [true], the event was open under a live lease of
    this worker and is now delivered, and the operation was queued, of the event's
    organization and kind and under no lease, and has now succeeded.  In every other
    case (a lost lease, an operation that is not there or does not match, a malformed
    operation id) the database is unchanged. *)
Theorem delivery_is_atomic c s res s' :
  complete_operation_delivery env c s = (res, s') →
  match res with
  | Done true =>
      (∃ t e, outbox_events (db s) !! oc_id c = Some e ∧ live_claim c t e = true) ∧
      (∃ e, outbox_events (db s') !! oc_id c = Some e ∧ ob_delivered_at e = Some (clock env (moment s))) ∧
      ∀ text, operation_text c = Some text →
        ∃ id o o', parse_uuid env text = Some id ∧ operations (db s) !! id = Some o ∧
          owned_operation c o = true ∧ operations (db s') !! id = Some o' ∧ op_state o' = "succeeded"
  | _ => db s' = db s
  end.
Proof.
  intros H. assert (res = Done true ∨ res ≠ Done true) as [->|Hres] by (destruct res as [[]| |]; auto).
  - destruct (closed_by c _ _ _ (closes_complete c) H) as [Hlive _]. split; [done|].
    unfold complete_operation_delivery in H. apply m_bind_Done in H as (op & s1 & Eop & H).
    assert (s1 = s) as -> by (destruct (operation_text c); m_inv Eop; done).
    apply transaction_Done in H as [H|(s2 & H & _)]; m_inv H; destruct a; cbn in H; try (by m_cases H).
    apply update_claimed_Done in E as [Hops (e & _ & _ & He')]. cbn in Hops. rewrite alone in Hops.
    destruct op as [id|]; m_inv H.
    + apply execute_Done in E as [Hn ->]. apply bool_decide_eq_true in E0. subst.
      rewrite Hops in *. destruct (update_one id _ _ (operations (db s))) as [n tab] eqn:Eu.
      cbn in E0. subst n.
      match type of Eu with update_one _ ?p ?f ?t = _ =>
        pose proof (proj1 (update_one_1 id p f t)) as (o & Ho & Hp); [by rewrite Eu|];
        pose proof (lookup_update_one id p f t id) as Hl
      end.
      rewrite Eu, bool_decide_eq_true_2, Ho in Hl by done. cbn in Hl. rewrite Hp in Hl.
      split; [eexists; split; [exact He'|reflexivity]|]. intros text Ht. rewrite Ht in Eop. m_inv Eop.
      exists id, o. eexists. repeat split; try done. by injection Eop as ->.
    + split; [by eexists|]. intros text Ht. rewrite Ht in Eop. by m_inv Eop.
  - assert (Hdb : db s' = db s); [|by destruct res as [[]| |]].
    unfold complete_operation_delivery in H.
    apply m_bind_cases in H as [(op & s1 & Eop & H)|[_ <-]];
      [|destruct (operation_text c); [by destruct (parse_uuid env _)|done]].
    assert (s1 = s) as -> by (destruct (operation_text c); m_inv Eop; done).
    apply transaction_cases in H as [(b & -> & H)|[-> _]]; [|apply alone].
    m_inv H. destruct a, op; cbn in H; m_inv H; congruence.
Qed.
End outbox.
