(* ===== verification/Pagination.v ===== *)
(** * Pages and cursors

    [pagination.rs] of the manager.  Base64, the JSON printer and parser and the range
    of [chrono]'s timestamps are parameters. *)
From S2P Require Import Prelude Text Json Schema Database.

Definition DEFAULT_LIMIT : Z := 50.
Definition MAX_LIMIT : Z := 100.

(** [PageLimit::new]. *)
Definition page_limit (limit : option Z) : Z :=
  match limit with
  | None => DEFAULT_LIMIT
  | Some n => Z.max 1 (Z.min n MAX_LIMIT)
  end.

Record Cursor := {
  cu_created_at : Z;
  cu_tiebreaker : string;
}.

Definition I64_MAX : Z := 9223372036854775807.

Definition json_i64 (z : Z) : Value :=
  if (0 <=? z)%Z then VPosInt (Z.to_N z) else VNegInt z.
Definition as_i64 (v : Value) : option Z :=
  match v with
  | VPosInt n => if (Z.of_N n <=? I64_MAX)%Z then Some (Z.of_N n) else None
  | VNegInt z => Some z
  | _ => None
  end.

Record Page (T : Type) := {
  items : list T;
  next_cursor : option string;
}.
Arguments items {T} p.
Arguments next_cursor {T} p.

(** The libraries a cursor goes through. *)
Record Codec := {
  b64_encode : string → string;
  b64_decode : string → option string;
  json_to_string : Value → string;
  json_from_str : string → option Value;
  micros_in_range : Z → bool;
}.

Section pages.
Context (codec : Codec).

Definition cursor_for (created_at : Z) (id : string) : Cursor :=
  {| cu_created_at := created_at; cu_tiebreaker := id |}.

Definition encode (c : Cursor) : string :=
  b64_encode codec (json_to_string codec
    (VObject [("i", VString (cu_tiebreaker c)); ("t", json_i64 (cu_created_at c))])).

Definition MALFORMED : ManagerError := InvalidInput "malformed cursor".

Definition decode (raw : string) : ManagerError + Cursor :=
  match b64_decode codec raw with
  | None => inl MALFORMED
  | Some decoded =>
      match json_from_str codec decoded with
      | None => inl MALFORMED
      | Some value =>
          match Json.get "t" value ≫= as_i64, Json.get "i" value ≫= Json.as_str with
          | Some ts, Some tiebreaker =>
              if micros_in_range codec ts
              then inr {| cu_created_at := ts; cu_tiebreaker := tiebreaker |}
              else inl MALFORMED
          | _, _ => inl MALFORMED
          end
      end
  end.

Definition map_items {T U} (f : T → U) (p : Page T) : Page U :=
  {| items := f <$> items p; next_cursor := next_cursor p |}.

Definition from_fetch {T} (fetched : list T) (limit : Z) (cursor_of : T → Cursor) : Page T :=
  let kept := take (Z.to_nat limit) fetched in
  {| items := kept;
     next_cursor := if (Z.to_nat limit <? length fetched)%nat
                    then (λ l, encode (cursor_of l)) <$> last kept else None |}.

(** The rows of a list endpoint, newest first: those behind the cursor, one more than
    the page holds. *)
Definition newer_first (a b : Z * string) : bool :=
  (b.1 <? a.1)%Z || ((a.1 =? b.1)%Z && String.leb b.2 a.2).

Definition behind (after : option Cursor) (k : Z * string) : bool :=
  null_or (λ c, (k.1 <? cu_created_at c)%Z ||
                ((k.1 =? cu_created_at c)%Z && String.ltb k.2 (cu_tiebreaker c))) after.

Definition keyset {T} (key : T → Z * string) (after : option Cursor) (limit : Z) (rows : list T) :
    list T :=
  take (Z.to_nat (limit + 1))
    (order_by (λ a b, newer_first (key a) (key b)) (filter (λ r, behind after (key r) = true) rows)).

End pages.
