(* ===== verification/PaginationProps.v ===== *)
(** * Walking through the pages

    A cursor survives its encoding, and a client that follows the cursors sees every
    row once, newest first. *)
From stdpp Require Import sorting.
From S2P Require Import Prelude Text Json Schema Database DatabaseFacts Pagination.

(** ** The order of the pages *)

Definition newer (a b : Z * string) : Prop := newer_first a b = true.

Lemma newer_spec a b : newer a b ↔ (b.1 < a.1)%Z ∨ (a.1 = b.1 ∧ String.le b.2 a.2).
Proof.
  unfold newer, newer_first, String.le. rewrite orb_true_iff, andb_true_iff, Z.ltb_lt, Z.eqb_eq.
  by rewrite Is_true_true.
Qed.

#[local] Instance newer_trans : Transitive newer.
Proof.
  intros a b c. rewrite !newer_spec. intros [?|[? H1]] [?|[? H2]]; try (left; lia).
  right. split; [lia|]. by etrans.
Qed.

Lemma newer_total a b : newer a b ∨ newer b a.
Proof.
  rewrite !newer_spec. destruct (Z.lt_trichotomy a.1 b.1) as [?|[?|?]]; [by right; left| |by left; left].
  destruct (String.le_total a.2 b.2); [right; right|left; right]; split; try done; lia.
Qed.

Lemma newer_antisym a b : newer a b → newer b a → a = b.
Proof.
  rewrite !newer_spec. destruct a as [a1 a2], b as [b1 b2]. cbn. intros [?|[? H1]] [?|[? H2]]; try lia.
  f_equal; [done|]. by apply (anti_symm String.le).
Qed.

(** Behind a row is what is not at least as new. *)
Lemma ltb_leb (a b : string) : String.ltb a b = negb (String.leb b a).
Proof.
  unfold String.ltb, String.leb. rewrite String.compare_antisym. by destruct (String.compare b a).
Qed.

Lemma behind_row k k0 : behind (Some (cursor_for k0.1 k0.2)) k = negb (newer_first k k0).
Proof.
  unfold behind, newer_first. cbn. rewrite ltb_leb.
  destruct (Z.lt_trichotomy k.1 k0.1) as [?|[?|?]].
  - rewrite (proj2 (Z.ltb_lt k.1 k0.1)), (proj2 (Z.ltb_ge k0.1 k.1)), (proj2 (Z.eqb_neq k.1 k0.1)) by lia. done.
  - rewrite (proj2 (Z.ltb_ge k.1 k0.1)), (proj2 (Z.ltb_ge k0.1 k.1)), (proj2 (Z.eqb_eq k.1 k0.1)) by lia. done.
  - rewrite (proj2 (Z.ltb_ge k.1 k0.1)), (proj2 (Z.ltb_lt k0.1 k.1)), (proj2 (Z.eqb_neq k.1 k0.1)) by lia. done.
Qed.

Lemma filter_all {A} (P : A → Prop) `{!∀ x, Decision (P x)} (l : list A) :
  (∀ x, x ∈ l → P x) → filter P l = l.
Proof.
  induction l as [|x l IH]; intros Hl; [done|]. rewrite filter_cons_True by (apply Hl; by left).
  f_equal. apply IH. intros y Hy. apply Hl. by right.
Qed.
Lemma filter_none {A} (P : A → Prop) `{!∀ x, Decision (P x)} (l : list A) :
  (∀ x, x ∈ l → ¬ P x) → filter P l = [].
Proof.
  induction l as [|x l IH]; intros Hl; [done|]. rewrite filter_cons_False by (apply Hl; by left).
  apply IH. intros y Hy. apply Hl. by right.
Qed.

Section sorted.
Context {T : Type} (key : T → Z * string).
Let le (a b : T) : bool := newer_first (key a) (key b).
Let R (a b : T) : Prop := newer (key a) (key b).

Lemma insert_by_sorted x l : StronglySorted R l → StronglySorted R (insert_by le x l).
Proof.
  induction 1 as [|y l Hl IH Hy]; cbn; [repeat constructor|].
  destruct (le x y) eqn:E.
  - constructor; [by constructor|]. constructor; [done|]. eapply Forall_impl; [done|].
    intros z Hz. unfold R in *. by etrans.
  - constructor; [done|]. apply Forall_forall. intros z Hz.
    apply elem_insert_by in Hz as [->|Hz]; [|by eapply Forall_forall in Hz].
    destruct (newer_total (key x) (key y)) as [?|?]; [|done]. unfold le, newer in *. congruence.
Qed.

Lemma order_by_sorted l : StronglySorted R (order_by le l).
Proof. induction l; cbn; [constructor|]. by apply insert_by_sorted. Qed.

Lemma insert_by_perm x l : insert_by le x l ≡ₚ x :: l.
Proof. induction l as [|y l IH]; cbn; [done|]. destruct (le x y); [done|]. rewrite IH. apply Permutation_swap. Qed.

Lemma order_by_perm l : order_by le l ≡ₚ l.
Proof. induction l as [|x l IH]; cbn; [done|]. unfold order_by in IH. by rewrite insert_by_perm, IH. Qed.

Context (rows : list T) (Hkeys : NoDup (key <$> rows)).

Lemma same_key x y : x ∈ rows → y ∈ rows → key x = key y → x = y.
Proof.
  intros Hx Hy E. apply list_elem_of_lookup in Hx as [i Hi]. apply list_elem_of_lookup in Hy as [j Hj].
  assert (i = j) as ->; [|congruence].
  eapply NoDup_lookup; [exact Hkeys|..]; rewrite list_lookup_fmap, ?Hi, ?Hj; cbn; [done|congruence].
Qed.

(** Sorting what a condition selects is selecting from what is sorted. *)
Lemma order_by_filter (P : T → Prop) `{!∀ x, Decision (P x)} :
  order_by le (filter P rows) = filter P (order_by le rows).
Proof.
  apply (StronglySorted_unique_strong R).
  - intros x y Hx Hy Hxy Hyx. apply same_key.
    + by apply elem_order_by, list_elem_of_filter in Hx as [_ ?].
    + by apply list_elem_of_filter in Hy as [_ Hy%elem_order_by].
    + by apply newer_antisym.
  - apply order_by_sorted.
  - pose proof (order_by_sorted rows) as Hs. induction Hs as [|x l Hl IH Hx]; [constructor|].
    rewrite filter_cons. destruct (decide (P x)); [|done]. constructor; [done|].
    apply Forall_forall. intros y [_ Hy]%list_elem_of_filter. by eapply Forall_forall in Hx.
  - rewrite order_by_perm. f_equiv. symmetry. apply order_by_perm.
Qed.

(** Behind a row are the rows after it. *)
Lemma behind_suffix l1 x l2 :
  order_by le rows = l1 ++ x :: l2 →
  filter (λ y, behind (Some (cursor_for (key x).1 (key x).2)) (key y) = true) (order_by le rows) = l2.
Proof.
  intros E. pose proof (order_by_sorted rows) as Hs. pose proof (order_by_perm rows) as Hp.
  assert (Hnd : NoDup (key <$> order_by le rows)) by (by rewrite Hp). rewrite E in *.
  assert (Hle : ∀ y, y ∈ l1 ++ [x] → behind (Some (cursor_for (key x).1 (key x).2)) (key y) ≠ true).
  { intros y Hy. rewrite behind_row, not_true_iff_false, negb_false_iff.
    apply elem_of_app in Hy as [Hy|Hy%list_elem_of_singleton].
    - eapply (StronglySorted_app_1_elem_of R) in Hs; [exact Hs|done|by left].
    - subst. destruct (newer_total (key x) (key x)); done. }
  assert (Hgt : ∀ y, y ∈ l2 → behind (Some (cursor_for (key x).1 (key x).2)) (key y) = true).
  { intros y Hy. rewrite behind_row, negb_true_iff. destruct (newer_first _ _) eqn:Hn; [|done].
    apply StronglySorted_app_1_r, StronglySorted_cons in Hs as [Hs _].
    rewrite fmap_app, fmap_cons in Hnd. apply NoDup_app in Hnd as (_ & _ & [Hnx _]%NoDup_cons).
    destruct Hnx. apply list_elem_of_fmap. exists y. split; [|done].
    apply newer_antisym; [|done]. rewrite Forall_forall in Hs. by apply Hs. }
  replace (l1 ++ x :: l2) with ((l1 ++ [x]) ++ l2) by (by rewrite <-app_assoc).
  by rewrite filter_app, (filter_none _ (l1 ++ [x])), (filter_all _ l2).
Qed.
End sorted.

(** ** Cursors and pages *)

Section walk.
Context (codec : Codec).

Definition cursor_value (t : Z) (i : string) : Value :=
  VObject [("i", VString i); ("t", json_i64 t)].

(** What the libraries promise: decoding undoes encoding, parsing undoes printing. *)
Class CodecLaws : Prop := {
  b64_roundtrip s : b64_decode codec (b64_encode codec s) = Some s;
  json_roundtrip t i :
    json_from_str codec (json_to_string codec (cursor_value t i)) = Some (cursor_value t i);
}.
Context `{!CodecLaws}.

Definition cursor_ok (c : Cursor) : Prop :=
  micros_in_range codec (cu_created_at c) = true ∧ (cu_created_at c ≤ I64_MAX)%Z.

Lemma as_i64_json z : (z ≤ I64_MAX)%Z → as_i64 (json_i64 z) = Some z.
Proof.
  intros Hz. unfold json_i64. destruct (0 <=? z)%Z eqn:E; [|done]. unfold as_i64.
  rewrite Z2N.id by lia. by rewrite (proj2 (Z.leb_le _ _)).
Qed.

Lemma decode_encode c : cursor_ok c → decode codec (encode codec c) = inr c.
Proof.
  intros [Hr Hm]. unfold decode, encode. fold (cursor_value (cu_created_at c) (cu_tiebreaker c)).
  rewrite b64_roundtrip, json_roundtrip.
  replace (Json.get "t" _ ≫= as_i64) with (Some (cu_created_at c)) by (symmetry; by apply as_i64_json).
  cbn. rewrite Hr. by destruct c.
Qed.

(** The client: from page to page by the cursor it was given. *)
Fixpoint walk {T} (fuel : nat) (endpoint : option Cursor → Page T) (after : option Cursor) :
    option (list (list T)) :=
  match fuel with
  | 0 => None
  | S fuel =>
      let p := endpoint after in
      match next_cursor p with
      | None => Some [items p]
      | Some raw =>
          match decode codec raw with
          | inl _ => None
          | inr c => cons (items p) <$> walk fuel endpoint (Some c)
          end
      end
  end.

Context {T : Type} (key : T → Z * string) (rows : list T) (limit : Z).

Definition endpoint (after : option Cursor) : Page T :=
  from_fetch codec (keyset key after limit rows) limit (λ r, cursor_for (key r).1 (key r).2).

Lemma walk_suffix fuel (l1 l2 : list T) after :
  NoDup (key <$> rows) → (1 ≤ limit)%Z → (∀ r, r ∈ rows → cursor_ok (cursor_for (key r).1 (key r).2)) →
  order_by (λ a b, newer_first (key a) (key b)) rows = l1 ++ l2 →
  filter (λ r, behind after (key r) = true) (l1 ++ l2) = l2 → length l2 < fuel →
  ∃ pages, walk fuel endpoint after = Some pages ∧ concat pages = l2 ∧
           Forall (λ p, (Z.of_nat (length p) ≤ limit)%Z) pages.
Proof.
  intros Hnd Hlim Hok. revert l1 l2 after. induction fuel as [|fuel IH]; intros l1 l2 after Hl Hf Hfuel; [lia|].
  set (n := Z.to_nat limit).
  assert (Hp : endpoint after =
            {| items := take n l2;
               next_cursor := if (n <? S n `min` length l2)
                              then (λ r, encode codec (cursor_for (key r).1 (key r).2)) <$> last (take n l2)
                              else None |}).
  { unfold endpoint, from_fetch, keyset. rewrite order_by_filter by done. rewrite Hl, Hf. fold n.
    replace (Z.to_nat (limit + 1)) with (S n) by lia. rewrite take_take, length_take.
    by replace (n `min` S n) with n by lia. }
  cbn [walk]. rewrite Hp. cbn [next_cursor items]. clear Hp.
  destruct (n <? S n `min` length l2) eqn:Hmore.
  - apply Nat.ltb_lt in Hmore.
    destruct (last (take n l2)) as [x|] eqn:Hx;
      [|by apply last_None, (f_equal length) in Hx; rewrite length_take in Hx; cbn in Hx; lia].
    apply last_Some in Hx as [l0 Hx]. cbn [fmap option_fmap option_map].
    assert (E2 : l2 = l0 ++ x :: drop n l2) by (rewrite <-(take_drop n l2) at 1; rewrite Hx; by rewrite <-app_assoc).
    assert (E : order_by (λ a b, newer_first (key a) (key b)) rows = (l1 ++ l0) ++ x :: drop n l2)
      by (rewrite Hl, E2 at 1; by rewrite app_assoc).
    assert (Hin : x ∈ rows) by (eapply elem_order_by; rewrite E; set_solver).
    rewrite decode_encode by auto.
    destruct (IH ((l1 ++ l0) ++ [x]) (drop n l2) (Some (cursor_for (key x).1 (key x).2))) as (pages & Hw & Hc & Hle).
    + rewrite E, <-!app_assoc. done.
    + replace (((l1 ++ l0) ++ [x]) ++ drop n l2) with ((l1 ++ l0) ++ x :: drop n l2) by (by rewrite <-!app_assoc).
      rewrite <-E. by eapply behind_suffix.
    + rewrite length_drop. lia.
    + rewrite Hw. cbn. eexists. split; [done|]. cbn. rewrite Hc. split; [apply take_drop|].
      constructor; [rewrite length_take; lia|done].
  - apply Nat.ltb_ge in Hmore. exists [take n l2]. split; [done|]. cbn. rewrite app_nil_r.
    rewrite take_ge by lia. split; [done|]. constructor; [lia|constructor].
Qed.

End walk.
