(* ===== verification/Organizations.v ===== *)
(** * Organizations, members and invitations

    [organizations/policy.rs], the roles of [dto.rs], and what the statements of the
    repositories share.  The repositories are in [OrgRepo], the service in
    [OrgService].  Every mutation locks the organization's row first, so it is one step
    of the model. *)
From S2P Require Import Prelude Text Json Schema Database Operations Outbox Idempotency Pagination.

(** ** Roles *)

Inductive MembershipRole := Admin | Developer | Viewer.
Inductive MembershipStatus := Active | Suspended | Removed.
#[global] Instance role_eq : EqDecision MembershipRole.
Proof. solve_decision. Defined.
#[global] Instance status_eq : EqDecision MembershipStatus.
Proof. solve_decision. Defined.

Definition role_str (r : MembershipRole) : string :=
  match r with Admin => "admin" | Developer => "developer" | Viewer => "viewer" end.
Definition status_str (s : MembershipStatus) : string :=
  match s with Active => "active" | Suspended => "suspended" | Removed => "removed" end.

Definition parse_role (s : string) : option MembershipRole :=
  if bool_decide (s = "admin") then Some Admin
  else if bool_decide (s = "developer") then Some Developer
  else if bool_decide (s = "viewer") then Some Viewer else None.
Definition parse_status (s : string) : option MembershipStatus :=
  if bool_decide (s = "active") then Some Active
  else if bool_decide (s = "suspended") then Some Suspended
  else if bool_decide (s = "removed") then Some Removed else None.

Record Membership := {
  mb_organization_id : uuid;
  mb_user_id : uuid;
  mb_role : MembershipRole;
  mb_status : MembershipStatus;
}.

Record OrganizationState := {
  os_organization_id : uuid;
  os_status : string;
  os_owner_user_id : uuid;
}.

Record MembershipDto := {
  md_organization_id : uuid;
  md_role : MembershipRole;
  md_status : MembershipStatus;
}.

(** ** Policy *)

Module Policy.

Definition ADMIN_REQUIRED : ManagerError :=
  api "ORG_ADMIN_REQUIRED" "an organization admin is required for this action".

Definition require_mutable (org : option OrganizationState) : M unit :=
  require (is_some_and (λ o, one_of ["ready"; "provisioning"] (os_status o)) org)
    (api "ORG_UNAVAILABLE" "organization does not accept mutations").

Definition require_member (membership : option Membership) (org : option OrganizationState) : M unit :=
  match org with
  | None => refuse (not_found "organization")
  | Some o =>
      match membership with
      | None => refuse (not_found "organization")
      | Some m =>
          if negb (bool_decide (os_organization_id o = mb_organization_id m)) ||
             bool_decide (os_status o = "deleted")
          then refuse (not_found "organization")
          else if bool_decide (os_status o = "suspended")
          then refuse (api "ORG_UNAVAILABLE" "organization is suspended")
          else
            match mb_status m with
            | Active => mret tt
            | Suspended =>
                refuse (api "MEMBER_SUSPENDED" "your membership in this organization is suspended")
            | Removed => refuse (not_found "organization")
            end
      end
  end.

(** [membership.expect(..)]. *)
Definition the_membership (membership : option Membership) : M Membership :=
  match membership with Some m => mret m | None => panic end.

Definition require_admin_role (m : Membership) : M unit :=
  match mb_status m, mb_role m with
  | Active, Admin => mret tt
  | _, _ => refuse ADMIN_REQUIRED
  end.

Definition require_admin (membership : option Membership) (org : option OrganizationState) : M unit :=
  require_member membership org;;
  require_mutable org;;
  m ← the_membership membership;
  require_admin_role m.

Definition require_admin_view (membership : option Membership) (org : option OrganizationState) :
    M unit :=
  require_member membership org;;
  m ← the_membership membership;
  require_admin_role m.

Definition require_developer (membership : option Membership) (org : option OrganizationState) :
    M unit :=
  require_member membership org;;
  require_mutable org;;
  m ← the_membership membership;
  if bool_decide (mb_status m = Active) then
    match mb_role m with
    | Admin | Developer => mret tt
    | Viewer => refuse (api "FORBIDDEN" "a developer or admin is required for this action")
    end
  else refuse (api "FORBIDDEN" "an active developer or admin is required for this action").

Definition require_owner (membership : option Membership) (org : option OrganizationState) : M unit :=
  require_member membership org;;
  match org with
  | None => refuse (not_found "organization")
  | Some state =>
      m ← the_membership membership;
      require (bool_decide (mb_status m = Active))
        (api "OWNER_REQUIRED" "an active owner is required for this action");;
      require (bool_decide (mb_user_id m = os_owner_user_id state))
        (api "OWNER_REQUIRED" "only the organization owner can perform this action")
  end.

End Policy.

(** ** Statements *)

(** [.map_err(f)?] on a statement. *)
Definition translate {A} (f : SqlError → ManagerError) (m : M A) : M A := λ s,
  match m s with
  | (Refused (Database e), s') => (Refused (f e), s')
  | r => r
  end.

Definition active_user (d : Db) (user : uuid) : bool :=
  is_some_and (λ u, bool_decide (u_status u = "active")) (users d !! user).

Definition active_admin (org : uuid) (k : uuid * uuid) (m : MembershipRow) : bool :=
  bool_decide (k.1 = org) && bool_decide (m_role m = "admin") && bool_decide (m_status m = "active").

Definition live_invitation (i : Invitation) : bool :=
  is_none (inv_accepted_at i) && is_none (inv_revoked_at i).

(** The membership of an active user, of [memberships m JOIN users u]. *)
Definition member_row (org user : uuid) (d : Db) : option MembershipRow :=
  if active_user d user then memberships d !! (org, user) else None.

Definition parse_membership (org user : uuid) (bad_role bad_status : string) (m : MembershipRow) :
    ManagerError + Membership :=
  match parse_role (m_role m) with
  | None => inl (Service bad_role)
  | Some role =>
      match parse_status (m_status m) with
      | None => inl (Service bad_status)
      | Some status =>
          inr {| mb_organization_id := org; mb_user_id := user; mb_role := role; mb_status := status |}
      end
  end.

Definition org_state (org : uuid) (o : Organization) : OrganizationState :=
  {| os_organization_id := org; os_status := o_status o; os_owner_user_id := o_owner_user_id o |}.

Definition set_organization (org : uuid) (f : Organization → Organization) (d : Db) : Z * Db :=
  let '(n, tab) := update_one org (λ _, true) f (organizations d) in (n, on_organizations (λ _, tab) d).

(** [INSERT INTO organizations]; [UNIQUE (slug)]. *)
Definition insert_organization (id : uuid) (slug display_name : string) (owner : uuid) (now : Z) (d : Db) :
    SqlError + unit * Db :=
  if exists_row (λ _ o, bool_decide (o_slug o = slug)) (organizations d)
  then inl (Violates "organizations_slug_key")
  else
    match users d !! owner with
    | None => inl (Violates "organizations_owner_user_id_fkey")
    | Some _ =>
        match insert_row "organizations_pkey" id
                {| o_slug := slug; o_display_name := display_name; o_owner_user_id := owner;
                   o_status := "provisioning"; o_coder_organization_id := None;
                   o_provisioner_status := None; o_model_capability_ok := None;
                   o_last_readiness_error := None; o_updated_at := now |} (organizations d) with
        | inl e => inl e
        | inr tab => inr (tt, on_organizations (λ _, tab) d)
        end
    end.

Definition insert_membership (org user : uuid) (role : string) (now : Z) (d : Db) :
    SqlError + unit * Db :=
  match insert_row "memberships_pkey" (org, user)
          {| m_role := role; m_status := "active"; m_updated_at := now |} (memberships d) with
  | inl e => inl e
  | inr tab => inr (tt, on_memberships (λ _, tab) d)
  end.

Definition slug_taken (slug : string) (e : SqlError) : ManagerError :=
  match e with
  | Violates "organizations_slug_key" => Conflict ("organization slug already exists: " +:+ slug)
  | e => Database e
  end.
