(* ===== verification/OrgRepo.v ===== *)
(** * The organizations' repositories

    [organizations/repository.rs] and [repositories/organizations.rs] of the manager:
    members, ownership, invitations and the columns of an organization. *)
From S2P Require Import Prelude Text Json Schema Database Organizations.

Section repo.
Context (env : Env).

Definition membership_and_org (org user : uuid) :
    M (option Membership * option OrganizationState) :=
  row ← on_pool env (query env (λ _ _ d,
    match organizations d !! org, member_row org user d with
    | Some o, Some m => Some (o, m)
    | _, _ => None
    end));
  match row with
  | None => mret (None, None)
  | Some (o, m) =>
      mb ← check (parse_membership org user "invalid role in db" "invalid status in db" m);
      mret (Some mb, Some (org_state org o))
  end.

Definition lock_policy (org caller : uuid) : M (option Membership * option OrganizationState) :=
  o ← query env (λ _ _ d, organizations d !! org);
  m ← query env (λ _ _ d, member_row org caller d);
  mb ← match m with
       | None => mret None
       | Some m => Some <$> check (parse_membership org caller "invalid role" "invalid membership status" m)
       end;
  mret (mb, org_state org <$> o).

(** [ORDER BY m.user_id LIMIT ..]. *)
Definition list_members (org : uuid) (limit : Z) (after_user : option uuid) :
    M (list (uuid * string * string * string)) :=
  on_pool env (query env (λ _ _ d,
    take (Z.to_nat limit)
      (order_by (λ a b, String.leb a.1.1.1 b.1.1.1)
         (omap (λ x, (λ u, (x.1.2, u_display_name u, m_role x.2, m_status x.2)) <$> users d !! x.1.2)
            (rows (λ k _, bool_decide (k.1 = org) && null_or (λ a, String.ltb a k.2) after_user)
               (memberships d)))))).

Definition update_member_in_tx (org target : uuid) (new_role : MembershipRole)
    (new_status : MembershipStatus) : M unit :=
  o ← query env (λ _ _ d, organizations d !! org);
  o ← ok_or o (not_found "organization");
  m ← query env (λ _ _ d, memberships d !! (org, target));
  m ← ok_or m (not_found "member");
  require (negb (bool_decide (o_owner_user_id o = target) && negb (bool_decide (new_status = Active))))
    (Conflict "transfer ownership before removing or suspending the owner");;
  (if bool_decide (m_role m = "admin") && bool_decide (m_status m = "active") &&
      negb (bool_decide (new_role = Admin) && bool_decide (new_status = Active))
   then
     other_admins ← query env (λ _ _ d,
       count (λ k m, active_admin org k m && negb (bool_decide (k.2 = target)) && active_user d k.2)
         (memberships d));
     require (negb (bool_decide (other_admins = 0%Z)))
       (Conflict "cannot demote, suspend, or remove the last active admin")
   else mret tt);;
  execute env (λ now _ d,
    let '(_, tab) := update_one (org, target) (λ _, true)
      (λ m, m ▷ m_set_role (role_str new_role) ▷ m_set_status (status_str new_status)
              ▷ m_set_updated_at now) (memberships d) in
    (tt, on_memberships (λ _, tab) d)).

Definition update_member (org target : uuid) (new_role : MembershipRole)
    (new_status : MembershipStatus) : M unit :=
  transaction env (update_member_in_tx org target new_role new_status;; mret (Commit tt)).

Definition remove_member (org target : uuid) : M unit := update_member org target Viewer Removed.

Definition transfer_ownership_in_tx (org new_owner : uuid) : M unit :=
  o ← query env (λ _ _ d, organizations d !! org);
  ok_or o (not_found "organization");;
  m ← query env (λ _ _ d, member_row org new_owner d);
  m ← ok_or m (not_found "member");
  require (bool_decide (m_status m = "active")) (Conflict "the new owner must be an active member");;
  execute env (λ now _ d,
    (tt, (set_organization org (λ o, o ▷ o_set_owner_user_id new_owner ▷ o_set_updated_at now) d).2)).

Definition transfer_ownership (org new_owner : uuid) : M unit :=
  transaction env (transfer_ownership_in_tx org new_owner;; mret (Commit tt)).

Definition insert_invitation (id org : uuid) (invitee : Z) (role token_hash : string) (invited_by : uuid)
    (now t : Z) (d : Db) : SqlError + unit * Db :=
  if exists_row (λ _ i, bool_decide (inv_token_hash i = token_hash)) (invitations d)
  then inl (Violates "invitations_token_hash_key")
  else if exists_row (λ _ i, bool_decide (inv_organization_id i = org) &&
                             bool_decide (inv_invitee_github_user_id i = invitee) && live_invitation i)
            (invitations d)
  then inl (Violates "one_live_invitation_per_org_subject")
  else if is_none (organizations d !! org) then inl (Violates "invitations_organization_id_fkey")
  else
    match insert_row "invitations_pkey" id
            {| inv_organization_id := org; inv_invitee_github_user_id := invitee;
               inv_invitee_login := None; inv_role := role; inv_token_hash := token_hash;
               inv_invited_by := Some invited_by; inv_expires_at := (t + 7 * DAY)%Z;
               inv_accepted_at := None; inv_revoked_at := None; inv_created_at := now |}
            (invitations d) with
    | inl e => inl e
    | inr tab => inr (tt, on_invitations (λ _, tab) d)
    end.

Definition translate_invite_insert (e : SqlError) : ManagerError :=
  match e with
  | Violates "one_live_invitation_per_org_subject" =>
      Conflict "an active invitation already exists for this person"
  | e => Database e
  end.

Definition create_invitation_in_tx (org : uuid) (invitee : Z) (role : MembershipRole)
    (token_hash : string) (invited_by : uuid) : M uuid :=
  execute env (λ now t d,
    (tt, on_invitations (update (λ _ i,
           bool_decide (inv_organization_id i = org) &&
           bool_decide (inv_invitee_github_user_id i = invitee) &&
           live_invitation i && (inv_expires_at i <=? t)%Z) (inv_set_revoked_at (Some now))) d));;
  id ← uuid_v4 env;
  translate translate_invite_insert
    (sql env (insert_invitation id org invitee (role_str role) token_hash invited_by));;
  mret id.

Definition create_invitation (org : uuid) (invitee : Z) (role : MembershipRole)
    (token_hash : string) (invited_by : uuid) : M uuid :=
  transaction env (id ← create_invitation_in_tx org invitee role token_hash invited_by; mret (Commit id)).

Definition set_invitee_login_in_tx (id : uuid) (login : string) : M unit :=
  execute env (λ _ _ d,
    let '(_, tab) := update_one id (λ _, true) (inv_set_invitee_login (Some login)) (invitations d) in
    (tt, on_invitations (λ _, tab) d)).

Definition revoke_invitation_in_tx (org id : uuid) : M bool :=
  execute env (λ now _ d,
    let '(n, tab) := update_one id
      (λ i, bool_decide (inv_organization_id i = org) && live_invitation i)
      (inv_set_revoked_at (Some now)) (invitations d) in
    (bool_decide (n = 1%Z), on_invitations (λ _, tab) d)).

Definition revoke_invitation (org id : uuid) : M bool := on_pool env (revoke_invitation_in_tx org id).

(** The hash is unique. *)
Definition invitation_by_token (token_hash : string) : M (option (uuid * Invitation)) :=
  on_pool env (query env (λ _ _ d,
    head (rows (λ _ i, bool_decide (inv_token_hash i = token_hash)) (invitations d)))).

Definition github_identity (d : Db) (user : uuid) (github_user_id : Z) : bool :=
  exists_row (λ _ i, bool_decide (i_user_id i = user) && bool_decide (i_provider i = "github") &&
                     bool_decide (i_subject i = pretty github_user_id)) (identities d) &&
  active_user d user.

(** [INSERT INTO memberships .. ON CONFLICT DO UPDATE .. WHERE]: the rows written. *)
Definition join_organization (invitation org user : uuid) (role : string) (now : Z) (d : Db) :
    SqlError + Z * Db :=
  if is_none (organizations d !! org) then inl (Violates "memberships_organization_id_fkey")
  else
    let joined := on_memberships (<[(org, user) :=
      {| m_role := role; m_status := "active"; m_updated_at := now |}]>) d in
    match memberships d !! (org, user) with
    | None => inr (1%Z, joined)
    | Some m =>
        if bool_decide (m_status m = "removed") &&
           is_some_and (λ i, m_updated_at m <=? inv_created_at i)%Z (invitations d !! invitation)
        then inr (1%Z, joined)
        else inr (0%Z, d)
    end.

Definition accept_invitation_in_tx (invitation : uuid) (auth_github_user_id : Z) (user : uuid) : M unit :=
  row ← query env (λ _ _ d, invitations d !! invitation);
  i ← ok_or row (not_found "invitation");
  identity_ok ← query env (λ _ _ d, github_identity d user auth_github_user_id);
  require identity_ok (api "UNAUTHORIZED" "active GitHub identity required");;
  require (bool_decide (inv_invitee_github_user_id i = auth_github_user_id))
    (api "INVITATION_WRONG_USER" "this invitation is not for your GitHub identity");;
  n ← utc_now env;
  require (n <? inv_expires_at i)%Z (Conflict "invitation expired");;
  consumed ← execute env (λ now _ d,
    let '(n, tab) := update_one invitation (λ i, live_invitation i && (now <? inv_expires_at i)%Z)
      (inv_set_accepted_at (Some now)) (invitations d) in
    (n, on_invitations (λ _, tab) d));
  require (negb (bool_decide (consumed = 0%Z))) (Conflict "invitation already used");;
  inserted ← sql env (λ now _ d, join_organization invitation (inv_organization_id i) user (inv_role i) now d);
  require (bool_decide (inserted = 1%Z))
    (Conflict "membership already exists; an admin must change its role or status").

Definition accept_invitation (invitation : uuid) (auth_github_user_id : Z) (user : uuid) : M unit :=
  transaction env (accept_invitation_in_tx invitation auth_github_user_id user;; mret (Commit tt)).

(** *** [repositories/organizations.rs] *)

Definition create_with_owner (org : uuid) (slug display_name : string) (owner : uuid) : M unit :=
  translate (slug_taken slug)
    (sql env (λ now _ d, insert_organization org slug display_name owner now d));;
  sql env (λ now _ d, insert_membership org owner "admin" now d).

Definition get_scoped (scope id : uuid) : M (option Organization) :=
  on_pool env (query env (λ _ _ d,
    if bool_decide (id = scope) then organizations d !! id else None)).

Definition list_for_user (user : uuid) : M (list MembershipDto) :=
  found ← on_pool env (query env (λ _ _ d,
    order_by (λ a b, String.leb a.1.1 b.1.1)
      (rows (λ k m, bool_decide (k.2 = user) && bool_decide (m_status m = "active") &&
                    is_some_and (λ o, negb (bool_decide (o_status o = "deleted"))) (organizations d !! k.1))
         (memberships d))));
  mapM (λ x, mb ← check (parse_membership x.1.1 user "invalid membership role in database"
                           "invalid membership status in database" x.2);
             mret {| md_organization_id := mb_organization_id mb; md_role := mb_role mb;
                     md_status := mb_status mb |}) found.

Definition owner_user (scope id : uuid) : M (option (uuid * User)) :=
  on_pool env (query env (λ _ _ d,
    if bool_decide (id = scope)
    then o ← organizations d !! id; (λ u, (o_owner_user_id o, u)) <$> users d !! o_owner_user_id o
    else None)).

Definition count_active_admins (scope id : uuid) : M Z :=
  on_pool env (query env (λ _ _ d,
    count (λ k m, active_admin id k m && bool_decide (k.1 = scope)) (memberships d))).

(** The setters of single columns; [false] outside of the scope. *)
Definition set_column (scope id : uuid) (f : Organization → Organization) : M bool :=
  on_pool env (execute env (λ now _ d,
    let '(n, d') := if bool_decide (id = scope)
                    then set_organization id (λ o, o_set_updated_at now (f o)) d else (0%Z, d) in
    (bool_decide (n = 1%Z), d'))).

Definition set_coder_organization_id (scope id : uuid) (coder_org_id : string) : M bool :=
  on_pool env (sql env (λ now _ d,
    if bool_decide (id = scope) then
      if exists_row (λ k o, negb (bool_decide (k = id)) &&
                            bool_decide (o_coder_organization_id o = Some coder_org_id)) (organizations d)
      then inl (Violates "organizations_coder_organization_id_key")
      else
        let '(n, d') := set_organization id
          (λ o, o ▷ o_set_coder_organization_id (Some coder_org_id) ▷ o_set_updated_at now) d in
        inr (bool_decide (n = 1%Z), d')
    else inr (false, d))).

(** [CHECK (status IN (..))]. *)
Definition set_status (scope id : uuid) (status : string) : M bool :=
  on_pool env (sql env (λ now _ d,
    if bool_decide (id = scope) then
      let '(n, d') := set_organization id (λ o, o ▷ o_set_status status ▷ o_set_updated_at now) d in
      if bool_decide (n = 1%Z) &&
         negb (one_of ["provisioning"; "ready"; "suspended"; "deleting"; "deleted"] status)
      then inl (Violates "organizations_status_check")
      else inr (bool_decide (n = 1%Z), d')
    else inr (false, d))).

Definition set_model_capability_ok (scope id : uuid) (b : bool) : M bool :=
  set_column scope id (o_set_model_capability_ok (Some b)).

Definition set_last_readiness_error (scope id : uuid) (error_code : option string) : M bool :=
  set_column scope id (o_set_last_readiness_error error_code).

End repo.
