(* ===== verification/OrgService.v ===== *)
(** * The organizations' service

    [organizations/service.rs] of the manager: every request of a member, from the
    policy check to the audit row. *)
From S2P Require Import Prelude Text Json Schema Database Operations Outbox Idempotency Pagination.
From S2P Require Import Organizations OrgRepo.

Definition slug_char (c : ascii) : bool :=
  ((97 <=? nat_of_ascii c)%nat && (nat_of_ascii c <=? 122)%nat) || is_ascii_digit c.

Definition validate_slug (slug : string) : ManagerError + unit :=
  let cs := chars slug in
  if (3 <=? length cs)%nat && (length cs <=? 63)%nat &&
     is_some_and slug_char (head cs) && is_some_and slug_char (last cs) &&
     forallb (λ c, slug_char c || char_eqb c "-") cs
  then inr tt
  else inl (InvalidInput
    "slug must be 3-63 chars of lowercase letters, digits, or hyphens, and start/end alphanumeric").

(** [chars().count()]: the bytes that do not continue a character. *)
Definition char_count (s : string) : nat :=
  length (filter (λ c, negb ((128 <=? nat_of_ascii c)%nat && (nat_of_ascii c <=? 191)%nat) = true) (chars s)).

Definition validate_display_name (name : string) : ManagerError + unit :=
  if is_blank name || (100 <? char_count name)%nat
  then inl (InvalidInput "display name must be 1-100 characters") else inr tt.

Record OrgOperationResponse := {
  or_operation_id : uuid;
  or_resource_id : uuid;
  or_status : string;
}.

(** A GitHub account, as the lookup of a login answers. *)
Record GithubLookup := {
  gl_id : Z;
  gl_login : string;
}.

Section service.
Context (env : Env) (codec : Codec) (resolve_login : string → ManagerError + GithubLookup).

(** [splitn(2, ':')]. *)
Definition split_ref (reference : string) : ManagerError + uuid * uuid :=
  let '(org, op) := match split_once ":" reference with
                    | Some (a, b) => (a, Some b)
                    | None => (reference, None)
                    end in
  match parse_uuid env org with
  | None => inl (Service "invalid org id in reference")
  | Some org =>
      match op with
      | None => inl (Service "invalid operation reference")
      | Some op =>
          match parse_uuid env op with
          | None => inl (Service "invalid operation id in reference")
          | Some op => inr (org, op)
          end
      end
  end.

Definition record (action : string) (org caller : uuid) (kind : string) (id : uuid) (request : string) :
    M unit :=
  audit env (audit_new action ▷ organization org ▷ actor caller ▷ resource kind id ▷ request_id request).

(** The mutation of [create_org]. *)
Definition found_organization (org actor : uuid) (slug display_name key request : string) : M string :=
  active ← query env (λ _ _ d, active_user d actor);
  require active (api "UNAUTHORIZED" "active user required");;
  translate (slug_taken slug)
    (sql env (λ now _ d, insert_organization org slug display_name actor now d));;
  sql env (λ now _ d, insert_membership org actor "admin" now d);;
  op ← create_in_tx env
    {| no_organization_id := org; no_resource_type := "organization"; no_resource_id := Some org;
       no_kind := "org.provision"; no_idempotency_ref := Some key |};
  record "org.create" org actor "organization" org request;;
  insert_in_tx env (Some org) "org.provision_requested"
    (Some (VObject [("organization_id", VString org)]));;
  mret (org +:+ ":" +:+ op).

Definition create_org (actor : uuid) (slug display_name key request : string) : M OrgOperationResponse :=
  check (validate_slug slug);;
  check (validate_display_name display_name);;
  let hash := hash_request env (VObject [("display_name", VString display_name); ("slug", VString slug)]) in
  org ← uuid_v4 env;
  outcome ← execute_once env
    {| ir_actor_id := actor; ir_organization_id := None; ir_route := "/api/v1/organizations";
       ir_key := key; ir_request_hash := hash |}
    (found_organization org actor slug display_name key request);
  '(resource_id, op_id) ← check (split_ref (reference_of outcome));
  mret {| or_operation_id := op_id; or_resource_id := resource_id; or_status := "queued" |}.

Definition list_orgs (user : uuid) : M (list MembershipDto) := OrgRepo.list_for_user env user.

Definition get_org (caller org : uuid) : M Organization :=
  '(membership, state) ← OrgRepo.membership_and_org env org caller;
  Policy.require_member membership state;;
  o ← OrgRepo.get_scoped env org org;
  ok_or o (not_found "organization").

Definition update_org (caller org : uuid) (display_name : option string) (request : string) :
    M Organization :=
  match display_name with Some name => check (validate_display_name name) | None => mret tt end;;
  transaction env (
    '(membership, state) ← OrgRepo.lock_policy env org caller;
    Policy.require_admin membership state;;
    match display_name with
    | Some name => execute env (λ now _ d,
        (tt, (set_organization org (λ o, o ▷ o_set_display_name name ▷ o_set_updated_at now) d).2))
    | None => mret tt
    end;;
    record "org.update" org caller "organization" org request;;
    mret (Commit tt));;
  get_org caller org.

Definition list_members (caller org : uuid) (limit : Z) (after_user : option string) : M (Page Value) :=
  '(membership, state) ← OrgRepo.membership_and_org env org caller;
  Policy.require_member membership state;;
  after ← match after_user with
          | Some a =>
              c ← check (decode codec a);
              u ← ok_or (parse_uuid env (cu_tiebreaker c)) MALFORMED;
              mret (Some u)
          | None => mret None
          end;
  found ← OrgRepo.list_members env org (limit + 1) after;
  mret (map_items (λ r, VObject [("display_name", VString r.1.1.2); ("role", VString r.1.2);
                                 ("status", VString r.2); ("user_id", VString r.1.1.1)])
          (from_fetch codec found limit (λ r, cursor_for 0 r.1.1.1))).

Definition update_member (caller org target : uuid) (role : option MembershipRole)
    (status : option MembershipStatus) (request : string) : M MembershipDto :=
  transaction env (
    '(membership, state) ← OrgRepo.lock_policy env org caller;
    Policy.require_admin membership state;;
    current ← query env (λ _ _ d, memberships d !! (org, target));
    current ← ok_or current (not_found "member");
    let new_role := default (default Viewer (parse_role (m_role current))) role in
    let new_status := default (default Active (parse_status (m_status current))) status in
    OrgRepo.update_member_in_tx env org target new_role new_status;;
    record "member.update" org caller "membership" target request;;
    mret (Commit {| md_organization_id := org; md_role := new_role; md_status := new_status |})).

Definition remove_member (caller org target : uuid) (request : string) : M unit :=
  (λ _, tt) <$> update_member caller org target (Some Viewer) (Some Removed) request.

(** What both ways of inviting do in their transaction. *)
Definition invite (caller org : uuid) (lookup : GithubLookup) (role : MembershipRole) (token_hash request : string) :
    M uuid :=
  '(membership, state) ← OrgRepo.lock_policy env org caller;
  Policy.require_admin membership state;;
  id ← OrgRepo.create_invitation_in_tx env org (gl_id lookup) role token_hash caller;
  OrgRepo.set_invitee_login_in_tx env id (gl_login lookup);;
  record "invitation.create" org caller "invitation" id request;;
  mret id.

Definition create_invitation (caller org : uuid) (github_login : string) (role : MembershipRole)
    (request : string) : M (uuid * string) :=
  '(membership, state) ← OrgRepo.membership_and_org env org caller;
  Policy.require_admin membership state;;
  lookup ← check (resolve_login github_login);
  token ← generate_secret env;
  id ← transaction env (id ← invite caller org lookup role (sha256_hex env token) request;
                        mret (Commit id));
  mret (id, token).

Definition INVALID_INVITATION : ManagerError := Service "invalid invitation reference".

Definition create_invitation_idempotent (caller org : uuid) (github_login : string)
    (role : MembershipRole) (key request : string) : M (uuid * option string) :=
  '(membership, state) ← OrgRepo.membership_and_org env org caller;
  Policy.require_admin membership state;;
  let req := {| ir_actor_id := caller; ir_organization_id := Some org;
                ir_route := "POST /organizations/invitations"; ir_key := key;
                ir_request_hash := hash_request env
                  (VObject [("login", VString (to_lowercase github_login));
                            ("role", VString (role_str role))]) |} in
  replayed ← replay env req;
  match replayed with
  | Some reference =>
      id ← ok_or (parse_uuid env reference) INVALID_INVITATION;
      mret (id, None)
  | None =>
      lookup ← check (resolve_login github_login);
      token ← generate_secret env;
      result ← execute_once env req (invite caller org lookup role (sha256_hex env token) request);
      let raw := match result with New _ => Some token | Replay _ => None end in
      id ← ok_or (parse_uuid env (reference_of result)) INVALID_INVITATION;
      mret (id, raw)
  end.

Definition revoke_invitation (caller org invitation : uuid) (request : string) : M unit :=
  transaction env (
    '(membership, state) ← OrgRepo.lock_policy env org caller;
    Policy.require_admin membership state;;
    revoked ← OrgRepo.revoke_invitation_in_tx env org invitation;
    require revoked (not_found "invitation");;
    record "invitation.revoke" org caller "invitation" invitation request;;
    mret (Commit tt)).

(** The outstanding invitations of an organization. *)
Definition outstanding (org : uuid) (d : Db) : list (uuid * Invitation) :=
  rows (λ _ i, bool_decide (inv_organization_id i = org) && live_invitation i) (invitations d).

(** [COALESCE(idn.login_snapshot, i.invitee_login)]; a GitHub account has one identity. *)
Definition invitee_login (d : Db) (i : Invitation) : option string :=
  match head (rows (λ _ n, bool_decide (i_provider n = "github") &&
                           bool_decide (i_subject n = pretty (inv_invitee_github_user_id i)))
                (identities d)) with
  | Some (_, n) =>
      match i_login_snapshot n with Some l => Some l | None => inv_invitee_login i end
  | None => inv_invitee_login i
  end.

Definition nullable (o : option string) : Value :=
  match o with Some s => VString s | None => VNull end.

Definition invitation_json (now : Z) (x : uuid * Invitation * option string) : Value :=
  let '(id, i, login) := x in
  VObject [("created_at", json_i64 (inv_created_at i)); ("expires_at", json_i64 (inv_expires_at i));
           ("invitation_id", VString id); ("invited_by", nullable (inv_invited_by i));
           ("invitee_github_user_id", json_i64 (inv_invitee_github_user_id i));
           ("invitee_login", nullable login); ("role", VString (inv_role i));
           ("status", VString (if (inv_expires_at i <=? now)%Z then "expired" else "pending"))].

Definition invitation_key (x : uuid * Invitation * option string) : Z * string :=
  (inv_created_at x.1.2, x.1.1).

Definition list_invitations (caller org : uuid) (limit : Z) (after : option Cursor) : M (Page Value) :=
  '(membership, state) ← OrgRepo.membership_and_org env org caller;
  Policy.require_admin_view membership state;;
  match after with
  | Some c => require (is_some (parse_uuid env (cu_tiebreaker c))) MALFORMED
  | None => mret tt
  end;;
  found ← on_pool env (query env (λ _ _ d,
    keyset invitation_key after limit ((λ x, (x, invitee_login d x.2)) <$> outstanding org d)));
  now ← utc_now env;
  mret (map_items (invitation_json now)
          (from_fetch codec found limit (λ x, cursor_for (invitation_key x).1 (invitation_key x).2))).

Definition accept_invitation (caller : uuid) (github_user_id : Z) (raw_token request : string) : M uuid :=
  found ← OrgRepo.invitation_by_token env (sha256_hex env raw_token);
  inv ← ok_or found (not_found "invitation");
  let '(id, i) := inv in
  let org := inv_organization_id i in
  transaction env (
    '(_, state) ← OrgRepo.lock_policy env org caller;
    Policy.require_mutable state;;
    OrgRepo.accept_invitation_in_tx env id github_user_id caller;;
    record "invitation.accept" org caller "invitation" id request;;
    mret (Commit org)).

Definition transfer_ownership (caller org new_owner : uuid) (has_recent_auth : bool) (request : string) :
    M unit :=
  require has_recent_auth (api "REAUTH_REQUIRED"
    "recent authentication (within 10 minutes) is required to transfer ownership");;
  transaction env (
    '(membership, state) ← OrgRepo.lock_policy env org caller;
    Policy.require_owner membership state;;
    Policy.require_mutable state;;
    OrgRepo.transfer_ownership_in_tx env org new_owner;;
    record "org.transfer_ownership" org caller "organization" org request;;
    mret (Commit tt)).

Definition request_deletion_in_tx (caller org : uuid) (request : string) : M uuid :=
  '(membership, state) ← OrgRepo.lock_policy env org caller;
  Policy.require_owner membership state;;
  if is_some_and (λ o, bool_decide (os_status o = "deleting")) state then
    found ← query env (λ _ _ d,
      head (order_by by_creation
        (rows (λ _ o, bool_decide (op_organization_id o = org) && bool_decide (op_kind o = "org.delete"))
           (operations d))));
    x ← fetch_one found;
    mret x.1
  else
    Policy.require_mutable state;;
    execute env (λ now _ d,
      (tt, (set_organization org (λ o, o ▷ o_set_status "deleting" ▷ o_set_updated_at now) d).2));;
    op ← create_in_tx env
      {| no_organization_id := org; no_resource_type := "organization"; no_resource_id := Some org;
         no_kind := "org.delete"; no_idempotency_ref := None |};
    record "org.delete_request" org caller "organization" org request;;
    insert_in_tx env (Some org) "org.deletion_requested"
      (Some (VObject [("organization_id", VString org)]));;
    mret op.

Definition request_deletion (caller org : uuid) (has_recent_auth : bool) (request : string) : M uuid :=
  require has_recent_auth (api "REAUTH_REQUIRED"
    "recent authentication (within 10 minutes) is required to delete the organization");;
  transaction env (id ← request_deletion_in_tx caller org request; mret (Commit id)).

Definition request_deletion_idempotent (caller org : uuid) (recent : bool) (key request : string) : M uuid :=
  '(membership, state) ← OrgRepo.membership_and_org env org caller;
  Policy.require_owner membership state;;
  require recent (api "REAUTH_REQUIRED" "sign in again before deleting the organization");;
  outcome ← execute_once env
    {| ir_actor_id := caller; ir_organization_id := Some org; ir_route := "DELETE /organizations";
       ir_key := key; ir_request_hash := hash_request env (VObject []) |}
    (request_deletion_in_tx caller org request);
  ok_or (parse_uuid env (reference_of outcome)) (Service "invalid operation reference").

End service.

(** ** The audit log, [list_for_org] of [audit.rs] *)

Record AuditEntry := {
  en_row : AuditRow;
  en_actor_name : option string;
}.

Definition entry_of (d : Db) (a : AuditRow) : AuditEntry :=
  {| en_row := a;
     en_actor_name := au_actor_id a ≫= λ u, u_display_name <$> users d !! u |}.

Definition entry_key (e : AuditEntry) : Z * string := (au_occurred_at (en_row e), au_id (en_row e)).

Definition list_for_org (env : Env) (codec : Codec) (org : uuid) (limit : Z) (after : option Cursor) :
    M (Page AuditEntry) :=
  match after with
  | Some c => require (is_some (parse_uuid env (cu_tiebreaker c))) MALFORMED
  | None => mret tt
  end;;
  found ← on_pool env (query env (λ _ _ d,
    keyset entry_key after limit
      (entry_of d <$> filter (λ a, au_organization_id a = Some org) (audit_events d))));
  mret (from_fetch codec found limit (λ e, cursor_for (entry_key e).1 (entry_key e).2)).
