(* ===== verification/OrganizationsProps.v ===== *)
(** * Who governs an organization

    Every organization keeps an active owner and an active admin, only its admins and
    its owner change it, and an invitation is good for one person, once. *)
From S2P Require Import Prelude Text Json Schema Database DatabaseFacts Operations Outbox.
From S2P Require Import Idempotency IdempotencyProps Pagination Organizations OrgRepo OrgService.

(** The owner is an active member, and some admin is. *)
Definition governed_org (d : Db) (org : uuid) (o : Organization) : Prop :=
  (∃ m, memberships d !! (org, o_owner_user_id o) = Some m ∧ m_status m = "active") ∧
  ∃ user m, memberships d !! (org, user) = Some m ∧ m_role m = "admin" ∧ m_status m = "active".

Definition governed (d : Db) : Prop :=
  ∀ org o, organizations d !! org = Some o → governed_org d org o.

(** Organizations keep their owners and active members stay. *)
Definition steady (d d' : Db) : Prop :=
  (∀ org o', organizations d' !! org = Some o' →
     ∃ o, organizations d !! org = Some o ∧ o_owner_user_id o = o_owner_user_id o') ∧
  ∀ k m, memberships d !! k = Some m → m_status m = "active" → memberships d' !! k = Some m.

#[export] Instance steady_preorder : PreOrder steady.
Proof.
  split.
  - split; eauto.
  - intros d1 d2 d3 [O1 M1] [O2 M2]. split; [|eauto]. intros org o3 H3.
    destruct (O2 org o3 H3) as (o2 & H2 & E2). destruct (O1 org o2 H2) as (o1 & H1 & E1).
    exists o1. split; [done|congruence].
Qed.

Lemma steady_governed d d' : steady d d' → governed d → governed d'.
Proof.
  intros [Ho Hm] Hg org o' Ho'. destruct (Ho org o' Ho') as (o & Hoo & Eo).
  destruct (Hg org o Hoo) as [(m & Hmm & Hs) (u & m' & Hm' & Hr' & Hs')]. rewrite Eo in Hmm.
  split; [eauto|]. exists u, m'. eauto.
Qed.

(** ** What the statements do *)

Section statements.
Context (env : Env).

Lemma steady_same {A} (f : Z → Z → Db → SqlError + A * Db) :
  (∀ now t d a d', f now t d = inr (a, d') →
     organizations d' = organizations d ∧ memberships d' = memberships d) →
  moves steady (sql env f).
Proof.
  intros H. apply moves_sql; [apply _|]. intros now t d a d' E. destruct (H _ _ _ _ _ E) as [Eo Em].
  unfold steady. rewrite Eo, Em. split; eauto.
Qed.

Lemma steady_same_execute {A} (f : Z → Z → Db → A * Db) :
  (∀ now t d, organizations (f now t d).2 = organizations d ∧ memberships (f now t d).2 = memberships d) →
  moves steady (execute env f).
Proof. intros H. apply steady_same. intros now t d a d' [= E]. specialize (H now t d). by rewrite E in H. Qed.

(** A column of an organization other than its owner. *)
Lemma steady_set_organization org f d :
  (∀ o, o_owner_user_id (f o) = o_owner_user_id o) → steady d (set_organization org f d).2.
Proof.
  intros Hf. unfold set_organization. destruct (update_one _ _ _ _) as [n tab] eqn:E. cbn.
  split; [|eauto]. cbn. intros org' o' Ho'. change tab with (n, tab).2 in Ho'.
  rewrite <-E, lookup_update_one in Ho'. case_bool_decide; subst; [|eauto].
  destruct (organizations d !! org) as [o|]; [|done]. injection Ho' as <-. eauto.
Qed.

Lemma translate_Done {A} f (m : M A) s a s' : translate f m s = (Done a, s') ↔ m s = (Done a, s').
Proof. unfold translate. destruct (m s) as [[|[]|] ?]; naive_solver. Qed.

Lemma steady_translate {A} f (m : M A) : moves steady m → moves steady (translate f m).
Proof. intros H s. specialize (H s). unfold translate. by destruct (m s) as [[|[]|] s']. Qed.

(** Statements on other tables. *)
Definition untouched (d d' : Db) : Prop :=
  organizations d' = organizations d ∧ memberships d' = memberships d ∧ invitations d' = invitations d.
#[export] Instance untouched_preorder : PreOrder untouched.
Proof. split; [done|]. intros d1 d2 d3 (?&?&?) (?&?&?). repeat split; congruence. Qed.

Lemma untouched_steady d d' : untouched d d' → steady d d'.
Proof. intros (Eo & Em & _). unfold steady. rewrite Eo, Em. split; eauto. Qed.

Lemma untouched_audit e : moves untouched (audit env e).
Proof.
  unfold audit. runs_auto. apply moves_sql; [apply _|]. intros now t d a' d'.
  by case_match; intros [= <- <-].
Qed.

Lemma untouched_create_op op : moves untouched (create_in_tx env op).
Proof.
  unfold create_in_tx. runs_auto. apply moves_sql; [apply _|]. intros now t d a' d'.
  unfold insert_operation. repeat case_match; by intros [= <- <-].
Qed.

Lemma untouched_outbox org event_type payload : moves untouched (insert_in_tx env org event_type payload).
Proof.
  unfold insert_in_tx. runs_auto. apply moves_sql; [apply _|]. intros now t d a' d'.
  repeat case_match; by intros [= <- <-].
Qed.

Lemma untouched_reserve id r : moves untouched (sql env (reserve_key id r)).
Proof.
  apply moves_sql; [apply _|]. intros now t d b d'. unfold reserve_key.
  repeat case_match; by intros [= <- <-].
Qed.

Lemma steady_create_op op : moves steady (create_in_tx env op).
Proof. apply (moves_mono _ _ _ untouched_steady), untouched_create_op. Qed.
Lemma steady_outbox org event_type payload : moves steady (insert_in_tx env org event_type payload).
Proof. apply (moves_mono _ _ _ untouched_steady), untouched_outbox. Qed.
Lemma steady_record action org caller kind id request :
  moves steady (OrgService.record env action org caller kind id request).
Proof. apply (moves_mono _ _ _ untouched_steady), untouched_audit. Qed.

Lemma steady_create_invitation org invitee role hash by_ :
  moves steady (OrgRepo.create_invitation_in_tx env org invitee role hash by_).
Proof.
  unfold OrgRepo.create_invitation_in_tx. runs_auto; [by apply steady_same_execute|].
  apply steady_translate, steady_same. intros now t d a' d'. unfold OrgRepo.insert_invitation.
  repeat case_match; by intros [= <- <-].
Qed.

Lemma steady_invitee_login id login : moves steady (OrgRepo.set_invitee_login_in_tx env id login).
Proof. apply steady_same_execute. intros now t d. by destruct (update_one _ _ _ _). Qed.

Lemma steady_revoke org id : moves steady (OrgRepo.revoke_invitation_in_tx env org id).
Proof. apply steady_same_execute. intros now t d. by destruct (update_one _ _ _ _). Qed.
End statements.

Lemma runs_policy R `{!Settled R} m o :
  runs R (Policy.require_member m o) ∧ runs R (Policy.require_mutable o) ∧
  runs R (Policy.require_admin m o) ∧ runs R (Policy.require_admin_view m o) ∧
  runs R (Policy.require_owner m o).
Proof.
  unfold Policy.require_member, Policy.require_mutable, Policy.require_admin, Policy.require_admin_view,
    Policy.require_owner, Policy.require_member, Policy.require_mutable, Policy.the_membership,
    Policy.require_admin_role. repeat split; runs_auto.
Qed.

(** ** The mutations *)

Section mutations.
Context (env : Env) (codec : Codec) (resolve_login : string → ManagerError + GithubLookup).

Lemma runs_lock_policy R `{!Settled R} org caller : runs R (OrgRepo.lock_policy env org caller).
Proof. unfold OrgRepo.lock_policy. runs_auto. Qed.

Lemma runs_membership_and_org R `{!Settled R} (stable : ∀ s, R s (begin env s).2) org caller :
  runs R (OrgRepo.membership_and_org env org caller).
Proof. unfold OrgRepo.membership_and_org. runs_auto; by apply runs_pool; runs_auto. Qed.

(** A change of one membership. *)
Lemma governed_membership d org user m' :
  governed d →
  (∀ o, organizations d !! org = Some o → o_owner_user_id o = user → m_status m' = "active") →
  (∀ o, organizations d !! org = Some o →
     (m_role m' = "admin" ∧ m_status m' = "active") ∨
     ∃ u m, u ≠ user ∧ memberships d !! (org, u) = Some m ∧ m_role m = "admin" ∧ m_status m = "active") →
  governed (on_memberships (<[(org, user) := m']>) d).
Proof.
  intros Hg Hown Hadm org' o Ho. cbn in Ho. destruct (Hg org' o Ho) as [(mo & Hmo & Hmos) (u & m & Hm & Hr & Hs)].
  unfold governed_org. cbn. destruct (decide (org' = org)) as [->|Hne].
  - split.
    + destruct (decide (o_owner_user_id o = user)) as [E|E].
      * exists m'. rewrite E, lookup_insert_eq. eauto.
      * exists mo. rewrite lookup_insert_ne by congruence. done.
    + destruct (Hadm o Ho) as [[? ?]|(u' & m1 & Hu' & Hm1 & ? & ?)].
      * exists user, m'. by rewrite lookup_insert_eq.
      * exists u', m1. rewrite lookup_insert_ne by congruence. done.
  - split; [exists mo|exists u, m]; by rewrite lookup_insert_ne by congruence.
Qed.

Lemma governed_update_member org target role status :
  commits (along governed) (OrgRepo.update_member_in_tx env org target role status).
Proof.
  intros s [] s' H Hg. unfold OrgRepo.update_member_in_tx in H. m_inv H.
  apply execute_Done in H as [_ ->]. cbn in E0.
  assert (Hs0 : db s0 = db s ∧ ((m_role a0 = "admin" ∧ m_status a0 = "active" →
            role = Admin ∧ status = Active ∨
            ∃ u m, u ≠ target ∧ memberships (db s) !! (org, u) = Some m ∧ m_role m = "admin" ∧
                   m_status m = "active"))).
  { destruct (_ && _ && _) eqn:Hc in E2; m_inv E2.
    - split; [done|]. intros _. right. apply negb_true_iff, bool_decide_eq_false in E2.
      apply count_some in E2 as ([k1 k2] & m & Hm & Hp). cbn in Hm, Hp. unfold active_admin in Hp. cbn in Hp.
      rewrite !andb_true_iff, negb_true_iff, bool_decide_eq_false, !bool_decide_eq_true in Hp.
      destruct Hp as [[[[-> ?] ?] ?] _]. eauto 10.
    - split; [done|]. intros [Hr Hst]. left. rewrite Hr, Hst in Hc. cbn in Hc.
      apply negb_false_iff, andb_true_iff in Hc. by rewrite !bool_decide_eq_true in Hc. }
  destruct Hs0 as [-> Hadm]. cbn. unfold update_one. rewrite E0. cbn.
  apply governed_membership; [done|..]; cbn.
  - intros o Ho Hown. rewrite E in Ho. injection Ho as <-.
    apply negb_true_iff, andb_false_iff in E1. rewrite bool_decide_eq_false, negb_false_iff, bool_decide_eq_true in E1.
    by destruct E1 as [?| ->].
  - intros o Ho. destruct (Hg org o Ho) as [_ (u & m & Hm & Hr & Hst)].
    destruct (decide (u = target)) as [->|Hne]; [|right; eauto 10].
    rewrite E0 in Hm. injection Hm as <-. destruct (Hadm (conj Hr Hst)) as [[-> ->]|?]; [by left|by right].
Qed.

Lemma governed_transfer org new_owner :
  commits (along governed) (OrgRepo.transfer_ownership_in_tx env org new_owner).
Proof.
  intros s [] s' H Hg. unfold OrgRepo.transfer_ownership_in_tx in H. m_inv H.
  apply execute_Done in H as [_ ->]. cbn in *. unfold member_row in E0.
  destruct (active_user _ _); [|done]. apply bool_decide_eq_true in E1.
  unfold set_organization, update_one. rewrite E. cbn. intros org' o' Ho'. cbn in Ho'.
  apply lookup_insert_Some in Ho' as [[<- <-]|[_ Ho']]; [|by apply (Hg org' o')]. cbn.
  destruct (Hg org _ E) as [_ Hadm]. split; [eauto|done].
Qed.

Lemma steady_join invitation org user role :
  moves steady (sql env (λ now _ d, OrgRepo.join_organization invitation org user role now d)).
Proof.
  apply moves_sql; [apply _|]. intros now t d a d'. unfold OrgRepo.join_organization.
  destruct (is_none _); [done|].
  assert (Hj : ∀ m', (∀ m, memberships d !! (org, user) = Some m → m_status m ≠ "active") →
            steady d (on_memberships (<[(org, user) := m']>) d)).
  { intros m' Hna. split; [eauto|]. intros k m Hm Hs. cbn. rewrite lookup_insert_ne; [done|].
    intros <-. by eapply Hna. }
  destruct (memberships d !! (org, user)) as [m|] eqn:Hm.
  - destruct (_ && _) eqn:Hc; intros [= <- <-]; [|reflexivity]. apply Hj. intros m1 [= <-].
    apply andb_true_iff in Hc as [->%bool_decide_eq_true _]. done.
  - intros [= <- <-]. by apply Hj.
Qed.

Lemma steady_accept invitation gh user :
  moves steady (OrgRepo.accept_invitation_in_tx env invitation gh user).
Proof.
  unfold OrgRepo.accept_invitation_in_tx. runs_auto; [|apply steady_join].
  apply steady_same_execute. intros now t d. by destruct (update_one _ _ _ _).
Qed.

(** A new organization is governed by its founder. *)
Lemma governed_found org actor slug name key request :
  commits (along governed) (OrgService.found_organization env org actor slug name key request).
Proof.
  intros s ref s' H Hg. unfold OrgService.found_organization in H.
  apply m_bind_Done in H as (b & s0 & [_ ->]%query_Done & H).
  apply m_bind_Done in H as (? & s1 & [_ ->]%require_Done & H).
  apply m_bind_Done in H as (? & s2 & E2 & H). apply m_bind_Done in H as (? & s3 & E3 & H).
  apply (steady_governed (db s3)).
  { revert H. apply (commits_runs steady).
    pose proof (steady_create_op env). pose proof (steady_record env). pose proof (steady_outbox env).
    runs_auto; auto. }
  clear H. apply translate_Done, sql_Done in E2 as (d2 & E2 & ->). apply sql_Done in E3 as (d3 & E3 & ->).
  cbn in *. unfold insert_organization in E2. destruct (exists_row _ _); [done|].
  destruct (users _ !! _); [|done]. destruct (insert_row _ _ _ _) as [|tab] eqn:Ei in E2; [done|].
  apply insert_row_inr in Ei as [Hnone ->]. injection E2 as _ <-.
  unfold insert_membership in E3. destruct (insert_row _ _ _ _) as [|tab] eqn:Ei in E3; [done|].
  apply insert_row_inr in Ei as [Hmnone ->]. injection E3 as _ <-. cbn in *.
  intros org' o Ho. cbn in Ho. apply lookup_insert_Some in Ho as [[<- <-]|[Hne Ho]]; unfold governed_org; cbn.
  - split; [|exists actor]; eexists; rewrite lookup_insert_eq; done.
  - destruct (Hg org' o Ho) as [(m & Hm & Hs) (admin & m' & Hm' & Hr & Hs')].
    split; [exists m|exists admin, m']; by rewrite lookup_insert_ne by congruence.
Qed.

Context (alone : ∀ n d, others env n d = d).

Lemma along_others n d : along governed d (others env n d).
Proof. by rewrite alone. Qed.

(** An idempotent request keeps what its mutation keeps when it succeeds. *)
Lemma governed_once r m : commits (along governed) m → moves (along governed) (execute_once env r m).
Proof. intros Hm. apply moves_once; [apply _|apply along_others| |done]. by intros f d Hg. Qed.

(** *** Everything a member can ask for *)

Inductive OrgCall :=
  | CallCreateOrg (actor : uuid) (slug name key request : string)
  | CallUpdateOrg (caller org : uuid) (name : option string) (request : string)
  | CallUpdateMember (caller org target : uuid) (role : option MembershipRole)
      (status : option MembershipStatus) (request : string)
  | CallRemoveMember (caller org target : uuid) (request : string)
  | CallInvite (caller org : uuid) (login : string) (role : MembershipRole) (request : string)
  | CallInviteOnce (caller org : uuid) (login : string) (role : MembershipRole) (key request : string)
  | CallRevoke (caller org invitation : uuid) (request : string)
  | CallAccept (caller : uuid) (github_user_id : Z) (token request : string)
  | CallTransfer (caller org new_owner : uuid) (recent : bool) (request : string)
  | CallDelete (caller org : uuid) (recent : bool) (request : string)
  | CallDeleteOnce (caller org : uuid) (recent : bool) (key request : string).

Definition org_perform (c : OrgCall) : M unit :=
  match c with
  | CallCreateOrg actor slug name key request =>
      OrgService.create_org env actor slug name key request;; mret tt
  | CallUpdateOrg caller org name request => OrgService.update_org env caller org name request;; mret tt
  | CallUpdateMember caller org target role status request =>
      OrgService.update_member env caller org target role status request;; mret tt
  | CallRemoveMember caller org target request => OrgService.remove_member env caller org target request
  | CallInvite caller org login role request =>
      OrgService.create_invitation env resolve_login caller org login role request;; mret tt
  | CallInviteOnce caller org login role key request =>
      OrgService.create_invitation_idempotent env resolve_login caller org login role key request;; mret tt
  | CallRevoke caller org invitation request => OrgService.revoke_invitation env caller org invitation request
  | CallAccept caller gh token request => OrgService.accept_invitation env caller gh token request;; mret tt
  | CallTransfer caller org new_owner recent request =>
      OrgService.transfer_ownership env caller org new_owner recent request
  | CallDelete caller org recent request => OrgService.request_deletion env caller org recent request;; mret tt
  | CallDeleteOnce caller org recent key request =>
      OrgService.request_deletion_idempotent env caller org recent key request;; mret tt
  end.

Definition org_step (s s' : MState) : Prop := ∃ c, s' = (org_perform c s).2.

Lemma steady_others n d : steady d (others env n d).
Proof. by rewrite alone. Qed.
#[local] Hint Resolve steady_others along_others : runs.
#[local] Hint Extern 1 (runs _ (Policy.require_member _ _)) => apply runs_policy; apply _ : runs.
#[local] Hint Extern 1 (runs _ (Policy.require_mutable _)) => apply (runs_policy _ None); apply _ : runs.
#[local] Hint Extern 1 (runs _ (Policy.require_admin _ _)) => apply runs_policy; apply _ : runs.
#[local] Hint Extern 1 (runs _ (Policy.require_owner _ _)) => apply runs_policy; apply _ : runs.
#[local] Hint Resolve steady_record steady_create_op steady_outbox steady_create_invitation
  steady_invitee_login steady_revoke steady_accept runs_lock_policy runs_membership_and_org : runs.
#[local] Hint Extern 1 (runs _ (execute _ (λ _ _ _, (_, (set_organization _ _ _).2)))) =>
  apply moves_execute; [apply _|intros; by apply steady_set_organization] : runs.

Lemma steady_invite caller org lookup role hash request :
  moves steady (OrgService.invite env caller org lookup role hash request).
Proof. unfold OrgService.invite. runs_auto. Qed.

Lemma steady_request_deletion caller org request :
  moves steady (OrgService.request_deletion_in_tx env caller org request).
Proof. unfold OrgService.request_deletion_in_tx. runs_auto. Qed.

Lemma governed_steady {A} (m : M A) : moves steady m → moves (along governed) m.
Proof. apply moves_mono. intros d d' ? ?. by eapply steady_governed. Qed.

Lemma runs_replay R `{!Settled R} (stable : ∀ s, R s (begin env s).2) r : runs R (replay env r).
Proof. unfold replay. apply runs_bind; [done|by apply runs_pool; runs_auto|]. intros x. runs_auto. Qed.

Lemma steady_get_org caller org : moves steady (OrgService.get_org env caller org).
Proof. unfold OrgService.get_org, OrgRepo.get_scoped. runs_auto. Qed.

Lemma governed_update_member_call caller org target role status request :
  moves (along governed) (OrgService.update_member env caller org target role status request).
Proof.
  apply moves_committed; [apply _|apply along_others|].
  apply commits_bind; [apply _|apply commits_runs, runs_lock_policy, _|]. intros [mb o].
  apply commits_bind; [apply _|apply commits_runs; runs_auto|]. intros _.
  apply commits_bind; [apply _|apply commits_runs; runs_auto|]. intros row.
  apply commits_bind; [apply _|apply commits_runs; runs_auto|]. intros m.
  apply commits_bind; [apply _|apply governed_update_member|]. intros _.
  apply commits_runs, governed_steady. runs_auto.
Qed.

Lemma governed_transfer_call caller org new_owner recent request :
  moves (along governed) (OrgService.transfer_ownership env caller org new_owner recent request).
Proof.
  unfold OrgService.transfer_ownership. apply runs_bind; [apply _|runs_auto|]. intros _.
  apply moves_committed; [apply _|apply along_others|].
  apply commits_bind; [apply _|apply commits_runs, runs_lock_policy, _|]. intros [mb o].
  apply commits_bind; [apply _|apply commits_runs; runs_auto|]. intros _.
  apply commits_bind; [apply _|apply commits_runs; runs_auto|]. intros _.
  apply commits_bind; [apply _|apply governed_transfer|]. intros _.
  apply commits_runs, governed_steady. runs_auto.
Qed.

#[local] Hint Resolve steady_invite steady_request_deletion steady_get_org runs_replay governed_found : runs.
#[local] Hint Extern 3 (runs _ (execute_once _ _ _)) =>
  apply governed_once; first [apply governed_found|apply commits_runs, governed_steady; auto with runs] : runs.
#[local] Hint Extern 1 (∀ s, at_db _ s _) => apply moves_begin : runs.

Lemma governed_call c : moves (along governed) (org_perform c).
Proof.
  pose proof governed_update_member_call as Hu. pose proof governed_transfer_call as Ht.
  destruct c; cbn [org_perform]; unfold OrgService.remove_member.
  3,4,9: runs_auto; auto.
  2,3,5-7: apply governed_steady.
  all: unfold OrgService.create_org, OrgService.update_org, OrgService.create_invitation,
    OrgService.create_invitation_idempotent, OrgService.revoke_invitation, OrgService.accept_invitation,
    OrgService.request_deletion, OrgService.request_deletion_idempotent, OrgRepo.invitation_by_token.
  all: runs_auto.
Qed.

(** C6. Every organization is governed.  Whatever members ask for, in whatever order
    (founding, settings, roles, suspensions, removals, invitations and their
    acceptance, transfers of ownership, deletion), every organization keeps an owner
    who is an active member and at least one active admin. *)
Theorem organizations_stay_governed s s' :
  rtc org_step s s' → governed (db s) → governed (db s').
Proof.
  induction 1 as [|s1 s2 s3 [c ->] _ IH]; [done|]. intros Hg. apply IH. by apply (governed_call c).
Qed.

(** ** Invitations *)

(** An invitation that was accepted or revoked stays so. *)
Definition spent (d d' : Db) : Prop :=
  ∀ id i, invitations d !! id = Some i → live_invitation i = false →
    ∃ i', invitations d' !! id = Some i' ∧ live_invitation i' = false.
#[local] Instance spent_preorder : PreOrder spent.
Proof.
  split; [intros d id i; eauto|]. intros d1 d2 d3 H1 H2 id i Hi Hl.
  destruct (H1 id i Hi Hl) as (i2 & Hi2 & Hl2). eauto.
Qed.

Lemma untouched_spent d d' : untouched d d' → spent d d'.
Proof. intros (_ & _ & E) id i Hi Hl. rewrite E. eauto. Qed.

Lemma spent_same d d' : invitations d' = invitations d → spent d d'.
Proof. intros E id i Hi Hl. rewrite E. eauto. Qed.

Lemma spent_others n d : spent d (others env n d).
Proof. by rewrite alone. Qed.

(** An [UPDATE] of one invitation that brings none back. *)
Lemma spent_update_one {A} id p f (h : Z → A) :
  (∀ now t i, live_invitation i = false → live_invitation (f now t i) = false) →
  moves spent (execute env (λ now t d,
    let '(n, tab) := update_one id (p now t) (f now t) (invitations d) in
    (h n, on_invitations (λ _, tab) d))).
Proof.
  intros Hf. apply moves_execute; [apply _|]. intros now t d id' i Hi Hl.
  destruct (update_one _ _ _ _) as [n tab] eqn:E. cbn. change tab with (n, tab).2.
  rewrite <-E, lookup_update_one. case_bool_decide; subst; [|eauto].
  rewrite Hi. cbn. destruct (p now t i); eauto.
Qed.

Lemma spent_create_invitation org invitee role hash by_ :
  moves spent (OrgRepo.create_invitation_in_tx env org invitee role hash by_).
Proof.
  unfold OrgRepo.create_invitation_in_tx. runs_auto.
  - apply moves_execute; [apply _|]. intros now t d id i Hi Hl. cbn. rewrite lookup_update, Hi. cbn.
    rewrite Hl, andb_false_r. eauto.
  - intros s. unfold translate.
    assert (Hs : moves spent (sql env (OrgRepo.insert_invitation a0 org invitee (role_str role) hash by_))).
    { apply moves_sql; [apply _|]. intros now t d u d'. unfold OrgRepo.insert_invitation.
      do 3 (case_match; [done|]). destruct (insert_row _ _ _ _) as [|tab] eqn:E; [done|].
      intros [= <- <-] id i Hi Hl. apply insert_row_inr in E as [Hn ->]. cbn.
      rewrite lookup_insert_ne by congruence. eauto. }
    specialize (Hs s). by destruct (sql env _ s) as [[|[]|] s'].
Qed.

Lemma live_revoked now i : live_invitation (inv_set_revoked_at (Some now) i) = false.
Proof. unfold live_invitation. cbn. apply andb_false_r. Qed.
Lemma live_accepted now i : live_invitation (inv_set_accepted_at (Some now) i) = false.
Proof. done. Qed.

Lemma spent_accept id gh user : moves spent (OrgRepo.accept_invitation_in_tx env id gh user).
Proof.
  unfold OrgRepo.accept_invitation_in_tx. runs_auto; [apply spent_update_one; done|].
  apply moves_sql; [apply _|]. intros now t d n d'. unfold OrgRepo.join_organization.
  repeat case_match; intros [= <- <-]; by apply spent_same.
Qed.

#[local] Hint Resolve spent_others spent_create_invitation spent_accept : runs.
#[local] Hint Extern 1 (runs (at_db spent) (OrgService.record _ _ _ _ _ _ _)) =>
  apply (moves_mono _ _ _ untouched_spent), untouched_audit : runs.
#[local] Hint Extern 1 (runs (at_db spent) (create_in_tx _ _)) =>
  apply (moves_mono _ _ _ untouched_spent), untouched_create_op : runs.
#[local] Hint Extern 1 (runs (at_db spent) (insert_in_tx _ _ _ _)) =>
  apply (moves_mono _ _ _ untouched_spent), untouched_outbox : runs.
#[local] Hint Extern 1 (runs (at_db spent) (sql _ (reserve_key _ _))) =>
  apply (moves_mono _ _ _ untouched_spent), untouched_reserve : runs.
#[local] Hint Extern 1 (runs (at_db spent) (OrgRepo.revoke_invitation_in_tx _ _ _)) =>
  apply spent_update_one; intros; apply live_revoked : runs.
#[local] Hint Extern 1 (runs (at_db spent) (OrgRepo.set_invitee_login_in_tx _ _ _)) =>
  apply spent_update_one; done : runs.
#[local] Hint Extern 2 (runs (at_db spent) (execute _ _)) =>
  apply moves_execute; [apply _|]; intros; apply spent_same; unfold set_organization;
  by try destruct (update_one _ _ _ _) : runs.

Lemma spent_founding org actor slug name key request :
  moves spent (OrgService.found_organization env org actor slug name key request).
Proof.
  unfold OrgService.found_organization. runs_auto.
  - intros s. unfold translate, sql, insert_organization, at_db.
    repeat case_match; simplify_eq/=; try done; by apply spent_same.
  - apply moves_sql; [apply _|]. intros now t d u d'. unfold insert_membership.
    repeat case_match; intros [= <- <-]; by apply spent_same.
Qed.
#[local] Hint Resolve spent_founding : runs.

Lemma spent_call c : moves spent (org_perform c).
Proof.
  destruct c; cbn [org_perform];
    unfold OrgService.remove_member, OrgService.update_member, OrgService.create_org, OrgService.update_org,
      OrgService.create_invitation, OrgService.create_invitation_idempotent, OrgService.revoke_invitation,
      OrgService.accept_invitation, OrgService.transfer_ownership, OrgService.request_deletion,
      OrgService.request_deletion_idempotent, OrgService.request_deletion_in_tx, OrgService.invite,
      OrgService.get_org, OrgRepo.get_scoped, OrgRepo.transfer_ownership_in_tx,
      OrgRepo.update_member_in_tx, OrgRepo.invitation_by_token, execute_once.
  all: runs_auto.
Qed.

Lemma spent_steps s s' : rtc org_step s s' → spent (db s) (db s').
Proof. induction 1 as [|s1 s2 s3 [c ->] _ IH]; [done|]. etrans; [apply (spent_call c)|done]. Qed.

(** What an acceptance found and did. *)
Definition admitted (id : uuid) (gh : Z) (user : uuid) (now : Z) (d d' : Db) : Prop :=
  ∃ i, invitations d !! id = Some i ∧ live_invitation i = true ∧ (now < inv_expires_at i)%Z ∧
    inv_invitee_github_user_id i = gh ∧ OrgRepo.github_identity d user gh = true ∧
    (∀ m, memberships d !! (inv_organization_id i, user) = Some m →
       m_status m = "removed" ∧ (m_updated_at m ≤ inv_created_at i)%Z) ∧
    invitations d' = <[id := inv_set_accepted_at (Some now) i]> (invitations d) ∧
    memberships d' = <[(inv_organization_id i, user) :=
      {| m_role := inv_role i; m_status := "active"; m_updated_at := now |}]> (memberships d).

Lemma join_Done invitation org user role s n s' :
  sql env (λ now _ d, OrgRepo.join_organization invitation org user role now d) s = (Done n, s') → n = 1%Z →
  (∀ m, memberships (db s) !! (org, user) = Some m → m_status m = "removed" ∧
     is_some_and (λ i, m_updated_at m <=? inv_created_at i)%Z (invitations (db s) !! invitation) = true) ∧
  invitations (db s') = invitations (db s) ∧
  memberships (db s') = <[(org, user) :=
    {| m_role := role; m_status := "active"; m_updated_at := tx_now s |}]> (memberships (db s)).
Proof.
  intros (d & E & ->)%sql_Done ->. unfold OrgRepo.join_organization in E. destruct (is_none _); [done|].
  destruct (memberships (db s) !! (org, user)) as [m|] eqn:Hm.
  - destruct (_ && _) eqn:Hc; [|done]. injection E as <-. apply andb_true_iff in Hc as [Hr Hu].
    apply bool_decide_eq_true in Hr. split; [|done]. intros m' [= <-]. done.
  - injection E as <-. split; [done|]. done.
Qed.

Lemma accepted id gh user s s' :
  OrgRepo.accept_invitation_in_tx env id gh user s = (Done tt, s') → admitted id gh user (tx_now s) (db s) (db s').
Proof.
  intros H. unfold OrgRepo.accept_invitation_in_tx in H. m_inv H.
  injection E2 as _ <-. apply execute_Done in E4 as [-> ->]. cbn in E5, E6, E0. unfold update_one in *.
  rewrite E in E5, E6. destruct (live_invitation a && _) eqn:Hl; [|done]. cbn in E6.
  apply bool_decide_eq_true in H, E1. destruct (join_Done _ _ _ _ _ _ _ E6 H) as (Hm & Hi & Hmm). cbn in *.
  apply andb_true_iff in Hl as [Hl Hx]. exists a. repeat split; try done.
  - lia.
  - by destruct (Hm m H0).
  - destruct (Hm m H0) as [_ Hu]. rewrite lookup_insert_eq in Hu. cbn in Hu. lia.
Qed.

(** C18. An invitation admits one person, once.  Accepting succeeds only for a live
    invitation that has not expired, by an active user who has the very GitHub
    identity it was made out to, and who is not a member already: was never one, or
    was removed before the invitation was written.  It marks the invitation as
    accepted and gives that user, and nobody else, an active membership with the
    invitation's role.  Afterwards, whatever members ask for, nobody can accept the
    invitation again. *)
Theorem invitation_admits_once id gh user s s' :
  OrgRepo.accept_invitation_in_tx env id gh user s = (Done tt, s') →
  admitted id gh user (tx_now s) (db s) (db s') ∧
  ∀ s2, rtc org_step s' s2 → ∀ gh' user' s3, OrgRepo.accept_invitation_in_tx env id gh' user' s2 ≠ (Done tt, s3).
Proof.
  intros H. apply accepted in H. split; [done|]. intros s2 Hs gh' user' s3 H3.
  destruct H as (i & Hi & _ & _ & _ & _ & _ & E & _).
  destruct (spent_steps _ _ Hs id (inv_set_accepted_at (Some (tx_now s)) i)) as (i2 & Hi2 & Hl2).
  - by rewrite E, lookup_insert_eq.
  - done.
  - apply accepted in H3 as (i3 & Hi3 & Hl3 & _). congruence.
Qed.

(** ** Authority *)

(** An active user with an active membership: an admin of an organization that takes
    changes, or the owner. *)
Definition admin_of (org caller : uuid) (d : Db) : Prop :=
  ∃ o m, organizations d !! org = Some o ∧ active_user d caller = true ∧
    memberships d !! (org, caller) = Some m ∧ m_status m = "active" ∧ m_role m = "admin" ∧
    (o_status o = "ready" ∨ o_status o = "provisioning").

Definition owner_of (org caller : uuid) (d : Db) : Prop :=
  ∃ o m, organizations d !! org = Some o ∧ active_user d caller = true ∧
    memberships d !! (org, caller) = Some m ∧ m_status m = "active" ∧ o_owner_user_id o = caller ∧
    o_status o ≠ "deleted" ∧ o_status o ≠ "suspended".

Lemma parse_role_Some r x : parse_role r = Some x → r = role_str x.
Proof. unfold parse_role. repeat case_bool_decide; naive_solver. Qed.
Lemma parse_status_Some r x : parse_status r = Some x → r = status_str x.
Proof. unfold parse_status. repeat case_bool_decide; naive_solver. Qed.

Lemma lock_policy_Done org caller s mb st s1 :
  OrgRepo.lock_policy env org caller s = (Done (mb, st), s1) →
  db s1 = db s ∧ st = org_state org <$> organizations (db s) !! org ∧
  ∀ b, mb = Some b → active_user (db s) caller = true ∧ mb_organization_id b = org ∧ mb_user_id b = caller ∧
    ∃ m, memberships (db s) !! (org, caller) = Some m ∧ m_role m = role_str (mb_role b) ∧
         m_status m = status_str (mb_status b).
Proof.
  intros H. unfold OrgRepo.lock_policy in H. m_inv H. injection H as -> <-. unfold member_row in E. cbn in E.
  destruct (active_user (db s) caller) eqn:Hu; [|by m_inv E; subst].
  destruct (memberships (db s) !! (org, caller)) as [m|] eqn:Hm; [|by m_inv E; subst].
  apply m_bind_Done in E as (b & s1 & [Ep ->]%check_Done & [<- ->]%m_ret_Done).
  split; [done|]. split; [done|]. intros b' [= <-]. split; [done|]. unfold parse_membership in Ep.
  destruct (parse_role (m_role m)) as [r|] eqn:Er; [|done].
  destruct (parse_status (m_status m)) as [t|] eqn:Et; [|done]. injection Ep as <-. cbn.
  split; [done|]. split; [done|]. exists m. auto using parse_role_Some, parse_status_Some.
Qed.

Lemma require_member_Done mb st s s' :
  Policy.require_member mb st s = (Done tt, s') →
  s' = s ∧ ∃ b o, mb = Some b ∧ st = Some o ∧ mb_status b = Active ∧ os_status o ≠ "deleted" ∧
                  os_status o ≠ "suspended".
Proof.
  unfold Policy.require_member. intros H. m_cases H. m_inv H. split; [congruence|].
  rewrite orb_false_iff, !bool_decide_eq_false in *. naive_solver.
Qed.

Lemma admin_granted org caller s mb st s1 s2 :
  OrgRepo.lock_policy env org caller s = (Done (mb, st), s1) →
  Policy.require_admin mb st s1 = (Done tt, s2) → admin_of org caller (db s).
Proof.
  intros (_ & Est & Hmb)%lock_policy_Done H. unfold Policy.require_admin in H.
  apply m_bind_Done in H as ([] & s3 & (-> & b & o & -> & -> & Hact & _)%require_member_Done & H).
  apply m_bind_Done in H as ([] & s4 & [Hst ->]%require_Done & H). cbn in H.
  destruct (Hmb b eq_refl) as (Hu & _ & _ & m & Hm & Hr & Hs).
  destruct (organizations (db s) !! org) as [o'|] eqn:Ho; [|done]. injection Est as ->.
  exists o', m. rewrite Hact in Hs. repeat split; try done.
  - unfold mbind, m_bind, mret, m_ret, Policy.require_admin_role in H. rewrite Hact in H.
    destruct (mb_role b); [done|discriminate H..].
  - unfold one_of in Hst. cbn in Hst. apply bool_decide_eq_true in Hst. set_solver.
Qed.

Lemma owner_granted org caller s mb st s1 s2 :
  OrgRepo.lock_policy env org caller s = (Done (mb, st), s1) →
  Policy.require_owner mb st s1 = (Done tt, s2) → owner_of org caller (db s).
Proof.
  intros (_ & Est & Hmb)%lock_policy_Done H. unfold Policy.require_owner in H.
  apply m_bind_Done in H as ([] & s3 & (-> & b & o & -> & -> & Hact & Hd & Hsu)%require_member_Done & H).
  apply m_bind_Done in H as (b' & s4 & Eb & H). cbn in Eb. injection Eb as <- <-. m_inv H.
  apply bool_decide_eq_true in H. destruct (Hmb b eq_refl) as (Hu & _ & Hid & m & Hm & Hr & Hs).
  destruct (organizations (db s) !! org) as [o'|] eqn:Ho; [|done]. injection Est as ->.
  exists o', m. rewrite Hact in Hs. cbn in *. repeat split; try done. congruence.
Qed.

(** The database changes only where [P] holds. *)
Definition only_if (P : Db → Prop) (d d' : Db) : Prop := d' = d ∨ P d.
#[local] Instance only_if_preorder P : PreOrder (only_if P).
Proof. split; [by left|]. intros d1 d2 d3 [->|?] [->|?]; unfold only_if; auto. Qed.

Lemma only_if_others P n d : only_if P d (others env n d).
Proof. left. apply alone. Qed.
#[local] Hint Resolve only_if_others : runs.

Lemma only_if_committed {A} P (body : M (Tx A)) :
  (∀ s a s', body s = (Done a, s') → P (db s)) → moves (only_if P) (transaction env body).
Proof.
  intros H. apply moves_committed; [apply _|apply only_if_others|]. intros s a s' E. right. by eapply H.
Qed.

(** An idempotent request whose mutation needs [P], which says nothing of the keys. *)
Lemma only_if_once P r m :
  (∀ d d', untouched d d' → users d' = users d → identities d' = identities d → P d' → P d) →
  (∀ s a s', m s = (Done a, s') → P (db s)) → moves (only_if P) (execute_once env r m).
Proof.
  intros Hkeys Hm. unfold execute_once. apply runs_bind; [apply _|runs_auto|]. intros _.
  apply moves_committed; [apply _|apply only_if_others|]. intros s a s' H.
  apply m_bind_Done in H as (id & s1 & [= <- <-] & H). apply m_bind_Done in H as (b & s2 & E & H).
  pose proof (runs_to _ _ _ _ _ (untouched_reserve env _ _) E) as Hu. unfold at_db in Hu. cbn in Hu.
  apply sql_Done in E as (d & E & ->). destruct b; cbn in H.
  - apply m_bind_Done in H as (ref & s3 & E3 & _). right. eapply Hkeys; [exact Hu|..|by eapply Hm].
    all: cbn in *; clear -E; unfold reserve_key in E; repeat case_match; by simplify_eq/=.
  - left. m_inv H. cbn. clear -E. unfold reserve_key in E. repeat case_match; by simplify_eq/=.
Qed.

Lemma admin_of_keys org caller d d' :
  untouched d d' → users d' = users d → identities d' = identities d →
  admin_of org caller d' → admin_of org caller d.
Proof.
  intros (Eo & Em & _) Eu _ (o & m & H). exists o, m. unfold active_user in *. by rewrite Eo, Em, Eu in H.
Qed.
Lemma owner_of_keys org caller d d' :
  untouched d d' → users d' = users d → identities d' = identities d →
  owner_of org caller d' → owner_of org caller d.
Proof.
  intros (Eo & Em & _) Eu _ (o & m & H). exists o, m. unfold active_user in *. by rewrite Eo, Em, Eu in H.
Qed.

(** Who has to ask. *)
Definition entitled (c : OrgCall) : Db → Prop :=
  match c with
  | CallCreateOrg actor _ _ _ _ => λ d, active_user d actor = true
  | CallUpdateOrg caller org _ _ | CallUpdateMember caller org _ _ _ _ | CallRemoveMember caller org _ _
  | CallInvite caller org _ _ _ | CallInviteOnce caller org _ _ _ _ | CallRevoke caller org _ _ =>
      admin_of org caller
  | CallAccept caller gh _ _ => λ d, OrgRepo.github_identity d caller gh = true ∧
      ∃ id i, invitations d !! id = Some i ∧ live_invitation i = true ∧ inv_invitee_github_user_id i = gh
  | CallTransfer caller org _ recent _ | CallDelete caller org recent _ | CallDeleteOnce caller org recent _ _ =>
      λ d, recent = true ∧ owner_of org caller d
  end.

(** What is required first holds when anything changes. *)
Lemma only_if_required {A} P b e (m : M A) : (b = true → moves (only_if P) m) → moves (only_if P) (require b e;; m).
Proof. intros H. destruct b; [exact (H eq_refl)|]. intros s. by left. Qed.

(** A body that begins by locking the policy rows and asking for an admin. *)
Lemma admin_body {A} org caller (k : option Membership → option OrganizationState → M A) s a s' :
  ('(mb, st) ← OrgRepo.lock_policy env org caller; Policy.require_admin mb st;; k mb st) s = (Done a, s') →
  admin_of org caller (db s).
Proof.
  intros ([mb st] & s1 & E1 & ([] & s2 & E2 & _)%m_bind_Done)%m_bind_Done. by eapply admin_granted.
Qed.
Lemma owner_body {A} org caller (k : option Membership → option OrganizationState → M A) s a s' :
  ('(mb, st) ← OrgRepo.lock_policy env org caller; Policy.require_owner mb st;; k mb st) s = (Done a, s') →
  owner_of org caller (db s).
Proof.
  intros ([mb st] & s1 & E1 & ([] & s2 & E2 & _)%m_bind_Done)%m_bind_Done. by eapply owner_granted.
Qed.

Lemma invite_admin caller org lookup role hash request s a s' :
  OrgService.invite env caller org lookup role hash request s = (Done a, s') → admin_of org caller (db s).
Proof. apply admin_body. Qed.
Lemma deletion_owner caller org request s a s' :
  OrgService.request_deletion_in_tx env caller org request s = (Done a, s') → owner_of org caller (db s).
Proof. apply owner_body. Qed.

Lemma founder_active org actor slug name key request s a s' :
  OrgService.found_organization env org actor slug name key request s = (Done a, s') →
  active_user (db s) actor = true.
Proof. intros H. unfold OrgService.found_organization in H. m_inv H. done. Qed.

Lemma acceptor_identity id gh user s s' :
  OrgRepo.accept_invitation_in_tx env id gh user s = (Done tt, s') →
  OrgRepo.github_identity (db s) user gh = true ∧
  ∃ id i, invitations (db s) !! id = Some i ∧ live_invitation i = true ∧ inv_invitee_github_user_id i = gh.
Proof. intros (i & Hi & Hl & _ & Hg & H & _)%accepted. eauto 6. Qed.

Ltac guarded :=
  repeat (lazymatch goal with
          | |- runs _ (require _ _;; _) => apply only_if_required; intros ?Hb
          | |- runs _ (transaction _ _) => apply only_if_committed; intros ? ? ? ?H
          | |- runs _ (execute_once _ _ _) => apply only_if_once; [|intros ? ? ? ?H]
          | _ => runs_step || solve [auto with runs typeclass_instances]
          end).

Lemma only_if_call c : moves (only_if (entitled c)) (org_perform c).
Proof.
  destruct c; cbn [org_perform entitled];
    unfold OrgService.remove_member, OrgService.update_member, OrgService.create_org, OrgService.update_org,
      OrgService.create_invitation, OrgService.create_invitation_idempotent, OrgService.revoke_invitation,
      OrgService.accept_invitation, OrgService.transfer_ownership, OrgService.request_deletion,
      OrgService.request_deletion_idempotent, OrgService.get_org, OrgRepo.get_scoped, OrgRepo.invitation_by_token;
    guarded;
    lazymatch goal with
    | H : ?b = true |- ?b = true ∧ _ => split; [exact H|]
    | H : ?b = true |- ∀ d d', _ → _ → _ → ?b = true ∧ _ → _ => intros d d' Hu1 Hu2 Hu3 [_ Ho]; split; [exact H|revert Ho]
    | _ => idtac
    end;
    try (by eapply owner_of_keys); try (eapply admin_body; exact H); try (eapply owner_body; exact H); try apply admin_of_keys;
    try apply owner_of_keys; try (by eapply invite_admin); try (by eapply deletion_owner);
    try (apply m_bind_Done in H as (? & ? & H & _); first [by eapply invite_admin|by eapply deletion_owner]).
  - intros d d' _ Hu _. unfold active_user. by rewrite Hu.
  - by eapply founder_active.
  - apply m_bind_Done in H as ([mb st] & s2 & E & H). apply m_bind_Done in H as (? & s3 & E3 & H).
    apply m_bind_Done in H as ([] & s4 & E4 & _).
    apply lock_policy_Done in E as (Hdb & _). apply require_Done in E3 as [_ ->].
    rewrite <-Hdb. by eapply acceptor_identity.
Qed.

(** C22. Authority.  When a request of the organization service changes anything in the
    database, the one who asked was entitled to it at that moment: settings, members
    and invitations are changed by an active admin of an organization that takes
    changes, ownership and deletion are decided by the active owner, who signed in
    recently, an organization is founded by an active user, and an invitation is accepted
    by the active user who has the GitHub identity presented, to which a live invitation
    is made out.  Every other request changes nothing. *)
Theorem changes_need_authority c s s' r :
  org_perform c s = (r, s') → db s' ≠ db s → entitled c (db s).
Proof. intros E Hne. destruct (runs_to _ _ _ _ _ (only_if_call c) E) as [?|?]; done. Qed.
End mutations.
