(* ===== verification/Auth.v ===== *)
(** * Authentication

    [auth/repository.rs], [auth/sessions.rs], [auth/device.rs], [auth/oauth.rs] and
    [auth/csrf.rs].  Secrets are stored as hashes; the columns of a session hold the
    hashes of its current access and refresh tokens, and [refresh_history] those of
    the refresh tokens it has used up. *)
From S2P Require Import Prelude Text Json Schema Database Outbox Organizations.

Record SessionCredentials := {
  sc_session_id : uuid;
  sc_family_id : uuid;
  sc_access_token : string;
  sc_refresh_token : string;
  sc_access_expires_at : Z;
  sc_refresh_expires_at : Z;
}.

Record SessionPrincipal := {
  sp_session_id : uuid;
  sp_user_id : uuid;
  sp_kind : string;
  sp_access_expires_at : Z;
}.

Definition ACCESS_LIFETIME : Z := 15 * MINUTE.
Definition BROWSER_LIFETIME : Z := 12 * HOUR.
Definition REFRESH_LIFETIME : Z := 30 * DAY.
Definition RECENT_AUTH_WINDOW : Z := 10 * MINUTE.

(** ** Statements on the sessions *)

Definition new_session (user : uuid) (kind access_hash : string) (access_expires : Z)
    (refresh_hash : string) (refresh_expires : Z) (family : uuid) (last_used : option Z)
    (last_authenticated now : Z) : Session :=
  {| s_user_id := user; s_kind := kind; s_access_hash := access_hash;
     s_access_expires_at := access_expires; s_refresh_hash := refresh_hash;
     s_refresh_expires_at := refresh_expires; s_family_id := family; s_revoked_at := None;
     s_last_used_at := last_used; s_last_authenticated_at := Some last_authenticated;
     s_created_at := now |}.

(** [UNIQUE (access_hash), UNIQUE (refresh_hash)], for the session with this id. *)
Definition hashes_taken (id : uuid) (access_hash refresh_hash : string) (tab : gmap uuid Session) :
    option SqlError :=
  if exists_row (λ k s, negb (bool_decide (k = id)) && bool_decide (s_access_hash s = access_hash)) tab
  then Some (Violates "sessions_access_hash_key")
  else if exists_row (λ k s, negb (bool_decide (k = id)) && bool_decide (s_refresh_hash s = refresh_hash)) tab
  then Some (Violates "sessions_refresh_hash_key")
  else None.

(** [INSERT INTO sessions .. SELECT .. FROM users WHERE id = .. AND status = 'active'].
    The answer says whether a row was inserted. *)
Definition insert_session_row (id : uuid) (s : Session) (d : Db) : SqlError + bool * Db :=
  if active_user d (s_user_id s) then
    match hashes_taken id (s_access_hash s) (s_refresh_hash s) (sessions d) with
    | Some e => inl e
    | None =>
        match insert_row "sessions_pkey" id s (sessions d) with
        | inl e => inl e
        | inr tab => inr (true, on_sessions (λ _, tab) d)
        end
    end
  else inr (false, d).

(** A session that is good for its user. *)
Definition usable (kind : string) (lifetime now t : Z) (d : Db) (s : Session) : bool :=
  bool_decide (s_kind s = kind) && (t <? s_created_at s + lifetime)%Z && is_none (s_revoked_at s) &&
  (now <? s_access_expires_at s)%Z && active_user d (s_user_id s).

Definition refreshable (refresh_hash : string) (d : Db) (s : Session) : bool :=
  bool_decide (s_refresh_hash s = refresh_hash) && bool_decide (s_kind s = "cli") &&
  is_none (s_revoked_at s) && active_user d (s_user_id s).

Definition principal (x : uuid * Session) : SessionPrincipal :=
  {| sp_session_id := x.1; sp_user_id := s_user_id x.2; sp_kind := s_kind x.2;
     sp_access_expires_at := s_access_expires_at x.2 |}.

Section repository.
Context (env : Env).

(** *** Users *)

Definition find_by_provider_subject (provider subject : string) : M (option (uuid * string)) :=
  on_pool env (query env (λ _ _ d,
    '(_, i) ← head (rows (λ _ i, bool_decide (i_provider i = provider) && bool_decide (i_subject i = subject))
                      (identities d));
    (λ u, (i_user_id i, u_status u)) <$> users d !! i_user_id i)).

Definition identity_of (provider subject : string) (_ : uuid) (i : Identity) : bool :=
  bool_decide (i_provider i = provider) && bool_decide (i_subject i = subject).

Definition find_or_create_user (provider subject login_snapshot display_name : string) : M (uuid * bool) :=
  transaction env (
    existing ← query env (λ _ _ d, head (rows (identity_of provider subject) (identities d)));
    match existing with
    | Some (_, i) =>
        execute env (λ _ _ d,
          (tt, on_identities (update (identity_of provider subject)
                                (i_set_login_snapshot (Some login_snapshot))) d));;
        mret (Commit (i_user_id i, false))
    | None =>
        user ← uuid_v4 env;
        identity ← uuid_v4 env;
        translate (λ _, Service "failed to create user")
          (sql env (λ now _ d,
             match insert_row "users_pkey" user
                     {| u_display_name := display_name; u_status := "active"; u_created_at := now;
                        u_updated_at := now |} (users d) with
             | inl e => inl e
             | inr tab => inr (tt, on_users (λ _, tab) d)
             end));;
        translate (λ _, Conflict "identity already exists")
          (sql env (λ _ _ d,
             if exists_row (identity_of provider subject) (identities d)
             then inl (Violates "identities_provider_subject_key")
             else
               match insert_row "identities_pkey" identity
                       {| i_user_id := user; i_provider := provider; i_subject := subject;
                          i_login_snapshot := Some login_snapshot |} (identities d) with
               | inl e => inl e
               | inr tab => inr (tt, on_identities (λ _, tab) d)
               end));;
        mret (Commit (user, true))
    end).

Definition user_status (user : uuid) : M (option string) :=
  on_pool env (query env (λ _ _ d, u_status <$> users d !! user)).

Definition user_dto (user : uuid) : M (option User) :=
  on_pool env (query env (λ _ _ d, users d !! user)).

(** *** Login transactions *)

Definition create_login (state_hash encrypted_verifier : string) (verifier_version : Z) : M uuid :=
  id ← uuid_v4 env;
  translate (λ e, match e with
                  | Violates "auth_transactions_state_hash_key" => Conflict "OAuth transaction already exists"
                  | e => Database e
                  end)
    (on_pool env (sql env (λ _ t d,
       if exists_row (λ _ a, bool_decide (at_state_hash a = state_hash)) (auth_transactions d)
       then inl (Violates "auth_transactions_state_hash_key")
       else
         match insert_row "auth_transactions_pkey" id
                 {| at_purpose := "login"; at_state_hash := state_hash;
                    at_encrypted_pkce_verifier := Some encrypted_verifier;
                    at_pkce_key_version := Some verifier_version;
                    at_expires_at := (t + 10 * MINUTE)%Z; at_consumed_at := None |}
                 (auth_transactions d) with
         | inl e => inl e
         | inr tab => inr (tt, on_auth_transactions (λ _, tab) d)
         end)));;
  mret id.

Definition open_login (state_hash : string) (t : Z) (a : AuthTransaction) : bool :=
  bool_decide (at_state_hash a = state_hash) && bool_decide (at_purpose a = "login") &&
  is_none (at_consumed_at a) && (t <? at_expires_at a)%Z.

(** The state hash is unique. *)
Definition consume_login (state_hash : string) : M (option (uuid * string * Z)) :=
  on_pool env (execute env (λ now t d,
    match rows (λ _ a, open_login state_hash t a) (auth_transactions d) with
    | [] => (None, d)
    | (id, a) :: _ =>
        (Some (id, default EmptyString (at_encrypted_pkce_verifier a), default 1%Z (at_pkce_key_version a)),
         on_auth_transactions (update (λ _ a, open_login state_hash t a) (at_set_consumed_at (Some now))) d)
    end)).

Definition state_exists (state_hash : string) : M bool :=
  n ← on_pool env (query env (λ _ _ d,
    count (λ _ a, bool_decide (at_state_hash a = state_hash)) (auth_transactions d)));
  mret (0 <? n)%Z.

(** *** Sessions *)

Definition NOT_ACTIVE : ManagerError := api "UNAUTHORIZED" "user is not active".

Definition insert_session (id user : uuid) (kind : string) (family : uuid) (access_hash : string)
    (access_expires : Z) (refresh_hash : string) (refresh_expires now : Z) : M unit :=
  transaction env (
    inserted ← sql env (λ tx _ d, insert_session_row id
      (new_session user kind access_hash access_expires refresh_hash refresh_expires family (Some now) now tx) d);
    require inserted NOT_ACTIVE;;
    audit env (audit_new "auth.session_created" ▷ actor user ▷ resource "session" id);;
    mret (Commit tt)).

(** What the two ways of signing in share. *)
Definition create_session (user : uuid) (kind : string) (access_lifetime refresh_lifetime : Z) :
    M SessionCredentials :=
  access ← generate_secret env;
  refresh ← generate_secret env;
  id ← uuid_v4 env;
  family ← uuid_v4 env;
  now ← utc_now env;
  insert_session id user kind family (sha256_hex env access) (now + access_lifetime)
    (sha256_hex env refresh) (now + refresh_lifetime) now;;
  mret {| sc_session_id := id; sc_family_id := family; sc_access_token := access;
          sc_refresh_token := refresh; sc_access_expires_at := (now + access_lifetime)%Z;
          sc_refresh_expires_at := (now + refresh_lifetime)%Z |}.

Definition create_cli_session (user : uuid) : M SessionCredentials :=
  create_session user "cli" ACCESS_LIFETIME REFRESH_LIFETIME.
Definition create_browser_session (user : uuid) : M SessionCredentials :=
  create_session user "browser" BROWSER_LIFETIME BROWSER_LIFETIME.

Definition create_cli_session_in_tx (user : uuid) : M SessionCredentials :=
  access ← generate_secret env;
  refresh ← generate_secret env;
  now ← utc_now env;
  id ← uuid_v4 env;
  family ← uuid_v4 env;
  inserted ← sql env (λ tx t d, insert_session_row id
    (new_session user "cli" (sha256_hex env access) (now + ACCESS_LIFETIME) (sha256_hex env refresh)
       (now + REFRESH_LIFETIME) family None t tx) d);
  require inserted NOT_ACTIVE;;
  audit env (audit_new "auth.cli_session_created" ▷ actor user ▷ resource "session" id);;
  mret {| sc_session_id := id; sc_family_id := family; sc_access_token := access;
          sc_refresh_token := refresh; sc_access_expires_at := (now + ACCESS_LIFETIME)%Z;
          sc_refresh_expires_at := (now + REFRESH_LIFETIME)%Z |}.

(** The access hash is unique. *)
Definition validate (kind : string) (lifetime : Z) (access_hash : string) : M (option SessionPrincipal) :=
  on_pool env (query env (λ now t d,
    principal <$> head (rows (λ _ s, bool_decide (s_access_hash s = access_hash) &&
                                     usable kind lifetime now t d s) (sessions d)))).

Definition validate_browser_session (access_hash : string) : M (option SessionPrincipal) :=
  validate "browser" BROWSER_LIFETIME access_hash.
Definition validate_cli_session (access_hash : string) : M (option SessionPrincipal) :=
  validate "cli" REFRESH_LIFETIME access_hash.

Definition revoke_rows (p : Session → bool) (now : Z) (d : Db) : Db :=
  on_sessions (update (λ _ s, p s && is_none (s_revoked_at s)) (s_set_revoked_at (Some now))) d.

Definition revoke_family_in_tx (family : uuid) : M unit :=
  execute env (λ now _ d, (tt, revoke_rows (λ s, bool_decide (s_family_id s = family)) now d)).

(** [INSERT INTO refresh_history]. *)
Definition use_up (refresh_hash : string) (family : uuid) (family_max now : Z) (d : Db) :
    SqlError + unit * Db :=
  match insert_row "refresh_history_pkey" refresh_hash
          {| rh_family_id := family; rh_consumed_at := now; rh_expires_at := family_max |}
          (refresh_history d) with
  | inl e => inl e
  | inr tab => inr (tt, on_refresh_history (λ _, tab) d)
  end.

Definition rotate (id : uuid) (access_hash : string) (access_expires : Z) (refresh_hash : string)
    (refresh_expires now : Z) (d : Db) : SqlError + unit * Db :=
  match sessions d !! id with
  | None => inr (tt, d)
  | Some s =>
      match hashes_taken id access_hash refresh_hash (sessions d) with
      | Some e => inl e
      | None =>
          inr (tt, on_sessions (<[id := s ▷ s_set_access_hash access_hash
                                          ▷ s_set_access_expires_at access_expires
                                          ▷ s_set_refresh_hash refresh_hash
                                          ▷ s_set_refresh_expires_at refresh_expires
                                          ▷ s_set_last_used_at (Some now)]>) d)
      end
  end.

Definition refresh_cli_session (refresh_hash : string) : M (option SessionCredentials) :=
  transaction env (
    reused ← query env (λ _ _ d, rh_family_id <$> refresh_history d !! refresh_hash);
    match reused with
    | Some family =>
        revoke_family_in_tx family;;
        audit env (audit_new "auth.refresh_reuse" ▷ resource "session_family" family
                   ▷ with_result Denied);;
        mret (Commit None)
    | None =>
        row ← query env (λ _ _ d, head (rows (λ _ s, refreshable refresh_hash d s) (sessions d)));
        match row with
        | None => mret (Commit None)
        | Some (id, s) =>
            let family_max := (s_created_at s + REFRESH_LIFETIME)%Z in
            now ← utc_now env;
            if (s_refresh_expires_at s <=? now)%Z || (family_max <=? now)%Z then mret (Commit None)
            else
              sql env (λ tx _ d, use_up refresh_hash (s_family_id s) family_max tx d);;
              new_access ← generate_secret env;
              new_refresh ← generate_secret env;
              let access_expires := Z.min (now + ACCESS_LIFETIME) family_max in
              let refresh_expires := Z.min (now + REFRESH_LIFETIME) family_max in
              sql env (λ tx _ d, rotate id (sha256_hex env new_access) access_expires
                                   (sha256_hex env new_refresh) refresh_expires tx d);;
              audit env (audit_new "auth.refresh_rotated" ▷ actor (s_user_id s) ▷ resource "session" id);;
              mret (Commit (Some
                {| sc_session_id := id; sc_family_id := s_family_id s; sc_access_token := new_access;
                   sc_refresh_token := new_refresh; sc_access_expires_at := access_expires;
                   sc_refresh_expires_at := refresh_expires |}))
        end
    end).

Definition revoke_session (id : uuid) : M bool :=
  transaction env (
    user ← execute env (λ now _ d,
      let '(n, tab) := update_one id (λ s, is_none (s_revoked_at s)) (s_set_revoked_at (Some now))
        (sessions d) in
      (if bool_decide (n = 1%Z) then s_user_id <$> sessions d !! id else None, on_sessions (λ _, tab) d));
    match user with
    | Some u => audit env (audit_new "auth.logout" ▷ actor u ▷ resource "session" id)
    | None => mret tt
    end;;
    mret (Commit (is_some user))).

Definition revoke_all_for_user (user : uuid) : M unit :=
  on_pool env (execute env (λ now _ d, (tt, revoke_rows (λ s, bool_decide (s_user_id s = user)) now d))).

Definition set_authenticated (id : uuid) (at_ : Z) (d : Db) : Db :=
  on_sessions (λ tab, (update_one id (λ _, true) (s_set_last_authenticated_at (Some at_)) tab).2) d.

Definition record_recent_auth (id : uuid) : M unit :=
  on_pool env (execute env (λ now _ d, (tt, set_authenticated id now d))).

Definition has_recent_auth (id : uuid) : M (option bool) :=
  row ← on_pool env (query env (λ _ _ d, sessions d !! id));
  match row with
  | None => mret None
  | Some s =>
      match s_last_authenticated_at s with
      | None => mret (Some false)
      | Some t => now ← utc_now env; mret (Some (now <? t + RECENT_AUTH_WINDOW)%Z)
      end
  end.

(** *** [SessionManager], on raw tokens *)

Definition validate_browser (raw : string) : M (option SessionPrincipal) :=
  validate_browser_session (sha256_hex env raw).
Definition validate_cli (raw : string) : M (option SessionPrincipal) :=
  validate_cli_session (sha256_hex env raw).
Definition refresh_cli (raw : string) : M (option SessionCredentials) :=
  refresh_cli_session (sha256_hex env raw).

End repository.

(** ** Device approval *)

(** [USER_CODE_ALPHABET]. *)
Definition USER_CODE_ALPHABET : list ascii := chars "ABCDEFGHJKLMNPQRSTUVWXYZ23456789".

Fixpoint format_from (i : nat) (code : list ascii) : list ascii :=
  match code with
  | [] => []
  | c :: code' => (if (i =? 4)%nat then ["-"%char; c] else [c]) ++ format_from (S i) code'
  end.
Definition format_user_code (code : string) : string := of_chars (format_from 0 (chars code)).

Definition upper (c : ascii) : ascii :=
  if ((97 <=? nat_of_ascii c)%nat && (nat_of_ascii c <=? 122)%nat)%bool
  then ascii_of_nat (nat_of_ascii c - 32) else c.

(** [replace('-', "")]. *)
Definition without_hyphens (s : string) : string :=
  of_chars (filter (λ c, char_eqb c "-" = false) (chars s)).

(** [trim().to_ascii_uppercase().replace('-', "")]. *)
Definition normalize_code (user_code : string) : string :=
  without_hyphens (of_chars (upper <$> chars (trim user_code))).

Record DeviceRequest := {
  dr_device_secret : string;
  dr_user_code : string;
  dr_verification_url : string;
  dr_expires_in_seconds : Z;
  dr_polling_interval_seconds : Z;
}.

Inductive Poll :=
  | PollPending
  | PollExpired
  | PollDenied
  | PollCredentials (c : SessionCredentials).

Definition CODE_INVALID : ManagerError :=
  api "DEVICE_CODE_INVALID" "verification code is invalid or expired".
Definition POLLED_TOO_SOON : ManagerError :=
  retryable true (api "RATE_LIMITED" "wait five seconds before polling again").

Definition pending_code (code_hash : string) (now : Z) (c : CliLogin) : bool :=
  bool_decide (cl_user_code_hash c = code_hash) && bool_decide (cl_status c = "pending") &&
  (now <? cl_expires_at c)%Z.

Definition by_device (hash : string) (c : CliLogin) : bool := bool_decide (cl_device_secret_hash c = hash).

(** [UPDATE cli_login_requests .. WHERE ..]: the rows changed. *)
Definition set_logins (p : CliLogin → bool) (f : CliLogin → CliLogin) (d : Db) : Z * Db :=
  (count (λ _ c, p c) (cli_login_requests d), on_cli_login_requests (update (λ _ c, p c) f) d).

Section device.
(** [random_indices n]: eight numbers below 32. *)
Context (env : Env) (public_url : string) (random_indices : nat → list nat).

Definition generate_human_code : M string := λ s,
  (Done (of_chars (omap (λ i, USER_CODE_ALPHABET !! i) (random_indices (draws s)))),
   restate (db s) (moment s) (S (draws s)) (tx_now s) s).

Definition start : M DeviceRequest :=
  device_secret ← generate_secret env;
  user_code ← generate_human_code;
  id ← uuid_v4 env;
  on_pool env (sql env (λ _ t d,
    if exists_row (λ _ c, by_device (sha256_hex env device_secret) c) (cli_login_requests d)
    then inl (Violates "cli_login_requests_device_secret_hash_key")
    else if exists_row (λ _ c, bool_decide (cl_user_code_hash c = sha256_hex env user_code))
              (cli_login_requests d)
    then inl (Violates "cli_login_requests_user_code_hash_key")
    else
      match insert_row "cli_login_requests_pkey" id
              {| cl_device_secret_hash := sha256_hex env device_secret;
                 cl_user_code_hash := sha256_hex env user_code; cl_status := "pending";
                 cl_approved_user_id := None; cl_approved_authenticated_at := None;
                 cl_expires_at := (t + 10 * MINUTE)%Z; cl_last_poll_at := None |}
              (cli_login_requests d) with
      | inl e => inl e
      | inr tab => inr (tt, on_cli_login_requests (λ _, tab) d)
      end));;
  mret {| dr_device_secret := device_secret; dr_user_code := format_user_code user_code;
          dr_verification_url := public_url +:+ "/auth/cli/verify"; dr_expires_in_seconds := 600;
          dr_polling_interval_seconds := 5 |}.

Definition approve_authenticated (user_code : string) (approver : uuid) (authenticated_at : Z) : M unit :=
  let code_hash := sha256_hex env (normalize_code user_code) in
  affected ← on_pool env (sql env (λ now _ d,
    let '(n, d') := set_logins (pending_code code_hash now)
      (λ c, c ▷ cl_set_status "approved" ▷ cl_set_approved_user_id (Some approver)
              ▷ cl_set_approved_authenticated_at (Some authenticated_at)) d in
    if negb (bool_decide (n = 0%Z)) && is_none (users d !! approver)
    then inl (Violates "cli_login_requests_approved_user_id_fkey")
    else inr (n, d')));
  require (negb (bool_decide (affected = 0%Z))) CODE_INVALID.

Definition approve (user_code : string) (approver : uuid) : M unit :=
  now ← utc_now env;
  approve_authenticated user_code approver now.

Definition poll (device_secret : string) : M Poll :=
  let hash := sha256_hex env device_secret in
  transaction env (
    row ← query env (λ _ t d,
      (λ x, (x.2, (cl_expires_at x.2 <=? t)%Z,
             is_some_and (λ p, t - 5 * SECOND <? p)%Z (cl_last_poll_at x.2))) <$>
      head (rows (λ _ c, by_device hash c) (cli_login_requests d)));
    match row with
    | None => mret (Commit PollExpired)
    | Some (c, expired, too_soon) =>
        if expired : bool then
          execute env (λ _ _ d,
            set_logins (λ c, by_device hash c && negb (bool_decide (cl_status c = "consumed")))
              (cl_set_status "expired") d);;
          mret (Commit PollExpired)
        else if one_of ["consumed"; "expired"] (cl_status c) then mret (Rollback PollExpired)
        else
          require (negb too_soon) POLLED_TOO_SOON;;
          if bool_decide (cl_status c = "pending") then
            execute env (λ now _ d, set_logins (by_device hash) (cl_set_last_poll_at (Some now)) d);;
            mret (Commit PollPending)
          else if bool_decide (cl_status c = "approved") then
            match cl_approved_user_id c, cl_approved_authenticated_at c with
            | Some approver, Some authenticated_at =>
                delivered ← execute env (λ _ _ d,
                  set_logins (λ c, by_device hash c && bool_decide (cl_status c = "approved"))
                    (cl_set_status "consumed") d);
                if bool_decide (delivered = 0%Z) then mret (Commit PollExpired)
                else
                  creds ← create_cli_session_in_tx env approver;
                  execute env (λ _ _ d, (tt, set_authenticated (sc_session_id creds) authenticated_at d));;
                  mret (Commit (PollCredentials creds))
            | _, _ => mret (Commit PollExpired)
            end
          else mret (Commit PollExpired)
    end).

Definition is_pending_code (user_code : string) : M bool :=
  n ← on_pool env (query env (λ now _ d,
    count (λ _ c, pending_code (sha256_hex env (without_hyphens user_code)) now c) (cli_login_requests d)));
  mret (0 <? n)%Z.

End device.

(** ** Signing in with GitHub *)

Record UserToken := {
  ut_access_token : string;
}.
Record GithubUser := {
  gu_id : Z;
  gu_login : string;
  gu_display_name : option string;
}.

(** The configuration, GitHub and the cipher, as the login uses them: [seal] draws a
    nonce, [open_with] fails for an unknown key version and on what was not sealed. *)
Record LoginDeps := {
  client_id : string;
  public_url : string;
  validate_origin : string + unit;
  code_challenge : string → string;
  seal : nat → string → ManagerError + string;
  open_with : Z → ManagerError + (string → option string);
  to_vec : Value → string;
  from_slice : string → option Value;
  authorize_url : string → string → string → string → string;
  exchange_code : string → string → ManagerError + UserToken;
  fetch_user : string → ManagerError + GithubUser;
}.

(** [char::is_control]: C0, DEL and C1. *)
Fixpoint has_control (cs : list ascii) : bool :=
  match cs with
  | [] => false
  | c :: cs' =>
      let n := nat_of_ascii c in
      (n <? 32)%nat || (n =? 127)%nat ||
      ((n =? 194)%nat && is_some_and (λ c', (nat_of_ascii c' <? 160)%nat) (head cs')) || has_control cs'
  end.

Definition UNSAFE : ManagerError := InvalidInput "unsafe redirect target".

Definition safe_redirect_target (raw : string) : ManagerError + string :=
  if (2048 <? String.length raw)%nat || has_control (chars raw) ||
     negb (no_char (ascii_of_nat 92) raw)
  then inl UNSAFE
  else
    let path := match split_once "?" raw with Some (p, _) => p | None => raw end in
    if one_of ["/"; "/api/v1/me"; "/auth/cli/verify"; "/invitations/accept"] path
    then inr raw else inl UNSAFE.

Definition AUTH_FAILED (message : string) : ManagerError := api "AUTH_FAILED" message.

Section login.
Context (env : Env) (deps : LoginDeps).

Definition sealed (payload : string) : M string := λ s,
  (match seal deps (draws s) payload with inl e => Refused e | inr x => Done x end,
   restate (db s) (moment s) (S (draws s)) (tx_now s) s).

Definition start_with_next (next : string) : M (string * string) :=
  require (negb (is_blank (client_id deps))) (Config "GitHub authentication is not configured");;
  match validate_origin deps with inl e => refuse (Config e) | inr _ => mret tt end;;
  target ← check (safe_redirect_target next);
  state ← generate_secret env;
  verifier ← generate_secret env;
  encrypted ← sealed (to_vec deps (VObject [("target", VString target); ("verifier", VString verifier)]));
  create_login env (sha256_hex env state) encrypted 1;;
  mret (authorize_url deps (client_id deps) (public_url deps +:+ "/auth/github/callback") state
          (code_challenge deps verifier), state).

Definition text_field (k : string) (v : Value) : option string := Json.get k v ≫= Json.as_str.

Definition callback (raw_state cookie_state code next : string) : M (string * string) :=
  (if is_empty next then mret tt else safe_redirect_target next ▷ check;; mret tt);;
  require (bool_decide (raw_state = cookie_state)) (AUTH_FAILED "login state mismatch");;
  consumed ← consume_login env (sha256_hex env raw_state);
  x ← ok_or consumed (AUTH_FAILED "login transaction invalid, expired, or already used");
  let '(_, encrypted_verifier, version) := x in
  open_ ← check (open_with deps version);
  bytes ← ok_or (open_ encrypted_verifier) (AUTH_FAILED "login verifier could not be decrypted");
  payload ← ok_or (from_slice deps bytes) (AUTH_FAILED "login verifier invalid");
  verifier ← ok_or (text_field "verifier" payload) (AUTH_FAILED "login verifier invalid");
  target ← ok_or (text_field "target" payload) (AUTH_FAILED "login return path invalid");
  token ← check (exchange_code deps code verifier);
  github_user ← check (fetch_user deps (ut_access_token token));
  '(user, _) ← find_or_create_user env "github" (pretty (gu_id github_user)) (gu_login github_user)
                 (default (gu_login github_user) (gu_display_name github_user));
  creds ← create_browser_session env user;
  record_recent_auth env (sc_session_id creds);;
  target ← check (safe_redirect_target target);
  mret (target, sc_access_token creds).

Definition principal_for_browser (access_token : string) : M (option (uuid * uuid)) :=
  p ← validate_browser_session env (sha256_hex env access_token);
  mret ((λ p, (sp_session_id p, sp_user_id p)) <$> p).

End login.

(** ** CSRF *)

Definition csrf_validate (presented cookie : string) : ManagerError + unit :=
  if is_blank presented || is_blank cookie then inl (api "CSRF_FAILED" "missing CSRF token")
  else if bool_decide (presented = cookie) then inr tt
  else inl (api "CSRF_FAILED" "CSRF token mismatch").

Definition for_session (env : Env) (session : string) : string :=
  sha256_hex env ("openflows-csrf:" +:+ session).

(** [session] is the session cookie, where there is one. *)
Definition validate_session (env : Env) (session : option string) (presented : string) :
    ManagerError + unit :=
  match session with
  | None => inl (api "CSRF_FAILED" "missing session")
  | Some s => csrf_validate presented (for_session env s)
  end.
