(* ===== verification/AuthProps.v ===== *)
(** * Sessions and device approval

    A session keeps its user, its family and its birth, and once revoked it stays
    revoked; a refresh token that comes back closes its family for good; a device
    request yields one pair of credentials. *)
From S2P Require Import Prelude Text Json Schema Database DatabaseFacts Outbox Organizations.
From S2P Require Import OrganizationsProps Auth.

Section auth.
Context (env : Env) (public_url : string) (random_indices : nat → list nat).

(** Everything that touches users, sessions and login requests. *)
Inductive auth_call : M unit → Prop :=
  | auth_user provider subject login name :
      auth_call (find_or_create_user env provider subject login name;; mret tt)
  | auth_create_login state verifier version : auth_call (create_login env state verifier version;; mret tt)
  | auth_consume_login state : auth_call (consume_login env state;; mret tt)
  | auth_browser user : auth_call (create_browser_session env user;; mret tt)
  | auth_cli user : auth_call (create_cli_session env user;; mret tt)
  | auth_refresh hash : auth_call (refresh_cli_session env hash;; mret tt)
  | auth_revoke id : auth_call (revoke_session env id;; mret tt)
  | auth_revoke_all user : auth_call (revoke_all_for_user env user)
  | auth_recent id : auth_call (record_recent_auth env id)
  | auth_device : auth_call (start env public_url random_indices;; mret tt)
  | auth_approve code user at_ : auth_call (approve_authenticated env code user at_)
  | auth_poll secret : auth_call (poll env secret;; mret tt).

Definition auth_step (s s' : MState) : Prop := ∃ m, auth_call m ∧ s' = (m s).2.

(** ** Sessions over time *)

Definition later (x x' : Session) : Prop :=
  s_user_id x' = s_user_id x ∧ s_kind x' = s_kind x ∧ s_family_id x' = s_family_id x ∧
  s_created_at x' = s_created_at x ∧ (s_revoked_at x ≠ None → s_revoked_at x' ≠ None).

(** Sessions go on, and used refresh tokens are remembered. *)
Definition ages (d d' : Db) : Prop :=
  (∀ id x, sessions d !! id = Some x → ∃ x', sessions d' !! id = Some x' ∧ later x x') ∧
  ∀ h r, refresh_history d !! h = Some r → refresh_history d' !! h = Some r.

#[local] Instance later_preorder : PreOrder later.
Proof.
  split; [by intros x1|]. intros x1 x2 x3 (?&?&?&?&?) (?&?&?&?&?). unfold later.
  repeat split; try congruence. auto.
Qed.
#[local] Instance ages_preorder : PreOrder ages.
Proof.
  split.
  - intros d. split; [|done]. intros id x Hx. exists x. split; [done|reflexivity].
  - intros d1 d2 d3 [S1 R1] [S2 R2]. split; [|eauto]. intros id x Hx.
    destruct (S1 id x Hx) as (y & Hy & Hxy). destruct (S2 id y Hy) as (z & Hz & Hyz).
    exists z. split; [done|]. by etrans.
Qed.

Lemma ages_same d d' :
  sessions d' = sessions d → refresh_history d' = refresh_history d → ages d d'.
Proof.
  intros Es Er. unfold ages. rewrite Es, Er. split; [|done]. intros id x Hx. exists x. split; [done|reflexivity].
Qed.

Lemma ages_update p f d :
  (∀ x, later x (f x)) → ages d (on_sessions (update p f) d).
Proof.
  intros Hf. split; [|done]. intros id x Hx. cbn. rewrite lookup_update, Hx. cbn. eexists. split; [done|].
  destruct (p id x); [apply Hf|reflexivity].
Qed.

Lemma ages_update_one id p f d :
  (∀ x, later x (f x)) → ages d (on_sessions (λ tab, (update_one id p f tab).2) d).
Proof.
  intros Hf. split; [|done]. intros i x Hx. cbn. rewrite lookup_update_one.
  case_bool_decide; subst; [|by exists x; split; [|reflexivity]].
  rewrite Hx. cbn. eexists. split; [done|]. destruct (p x); [apply Hf|reflexivity].
Qed.

Lemma later_revoked now x : later x (s_set_revoked_at (Some now) x).
Proof. by destruct x. Qed.
Lemma later_authenticated now x : later x (s_set_last_authenticated_at (Some now) x).
Proof. by destruct x. Qed.

Lemma ages_insert id x : moves ages (sql env (λ tx t d, insert_session_row id (x tx t) d)).
Proof.
  apply moves_sql; [apply _|]. intros now t d b d'. unfold insert_session_row.
  destruct (active_user _ _); [|intros [= <- <-]; reflexivity].
  destruct (hashes_taken _ _ _ _); [done|]. destruct (insert_row _ _ _ _) as [|tab] eqn:E; [done|].
  intros [= <- <-]. apply insert_row_inr in E as [Hn ->]. split; [|done]. intros i y Hy. cbn. exists y.
  split; [|reflexivity]. rewrite lookup_insert_ne; [done|congruence].
Qed.

Lemma ages_use_up h family max : moves ages (sql env (λ tx _ d, use_up h family max tx d)).
Proof.
  apply moves_sql; [apply _|]. intros now t d u d'. unfold use_up.
  destruct (insert_row _ _ _ _) as [|tab] eqn:E; [done|]. intros [= <- <-].
  apply insert_row_inr in E as [Hn ->]. split.
  - intros id x Hx. exists x. split; [done|reflexivity].
  - intros h' r Hr. cbn. rewrite lookup_insert_ne; [done|congruence].
Qed.

Lemma ages_rotate id ah ae rh re : moves ages (sql env (λ tx _ d, rotate id ah ae rh re tx d)).
Proof.
  apply moves_sql; [apply _|]. intros now t d u d'. unfold rotate.
  destruct (sessions d !! id) as [x|] eqn:Hx; [|intros [= <- <-]; reflexivity].
  destruct (hashes_taken _ _ _ _); [done|]. intros [= <- <-]. split; [|done]. intros i y Hy. cbn.
  destruct (decide (i = id)) as [->|Hne].
  - rewrite lookup_insert_eq. eexists. split; [done|]. assert (y = x) as -> by congruence. done.
  - exists y. rewrite lookup_insert_ne by done. split; [done|reflexivity].
Qed.

Lemma ages_audit e : moves ages (audit env e).
Proof.
  unfold audit. runs_auto. apply moves_sql; [apply _|]. intros now t d u d'.
  case_match; intros [= <- <-]; by apply ages_same.
Qed.

Context (alone : ∀ n d, others env n d = d).

Lemma ages_others n d : ages d (others env n d).
Proof. rewrite alone. reflexivity. Qed.

Lemma moves_translate {A} R f (m : M A) : moves R m → moves R (translate f m).
Proof. intros H s. specialize (H s). unfold translate. by destruct (m s) as [[|[]|] s']. Qed.

Lemma runs_human_code R `{!Settled R} : runs R (generate_human_code random_indices).
Proof. apply runs_quiet; [done|]. intros s. cbn. auto with lia. Qed.

#[local] Hint Resolve ages_others ages_insert ages_use_up ages_rotate ages_audit runs_human_code : runs.
#[local] Hint Extern 1 (runs (at_db ages) (revoke_family_in_tx _ _)) =>
  apply moves_execute; [apply _|]; intros; apply ages_update, later_revoked : runs.
#[local] Hint Extern 2 (runs (at_db ages) (sql _ _)) =>
  apply moves_sql; [apply _|]; intros ? ? ? ? ?; repeat case_match; intros; simplify_eq/=;
  by apply ages_same : runs.
#[local] Hint Extern 3 (runs (at_db ages) (execute _ _)) =>
  apply moves_execute; [apply _|]; intros; cbn;
  first [by apply ages_same | apply ages_update, later_revoked
        |apply ages_update_one, later_authenticated
        |repeat case_match; by apply ages_same] : runs.

Lemma ages_call m : auth_call m → moves ages m.
Proof.
  intros Hm. destruct Hm; unfold find_or_create_user, create_login, consume_login, create_browser_session,
    create_cli_session, create_session, insert_session, refresh_cli_session, revoke_session,
    revoke_all_for_user, record_recent_auth, start, approve_authenticated, poll, create_cli_session_in_tx;
    repeat (runs_step || apply moves_translate || solve [auto with runs typeclass_instances]).
  - apply moves_execute; [apply _|]. intros now t d.
    pose proof (ages_update_one id (λ x, is_none (s_revoked_at x)) _ d (later_revoked now)) as Ha.
    unfold on_sessions in Ha. cbn in Ha. by destruct (update_one _ _ _ _).
  - apply moves_sql; [apply _|]. intros now t d n d'. unfold set_logins.
    case_match; intros; simplify_eq/=; by apply ages_same.
Qed.

Lemma ages_steps s s' : rtc auth_step s s' → ages (db s) (db s').
Proof.
  induction 1 as [|s1 s2 s3 (m & Hm & ->) _ IH]; [reflexivity|]. etrans; [apply (ages_call m Hm)|done].
Qed.

(** *** Who gets in *)

Lemma validate_Done kind lifetime h s p s' :
  validate env kind lifetime h s = (Done (Some p), s') →
  ∃ x, sessions (db s) !! sp_session_id p = Some x ∧ s_revoked_at x = None ∧ sp_user_id p = s_user_id x ∧
       active_user (db s) (s_user_id x) = true ∧
       (clock env (S (moment s)) < s_created_at x + lifetime)%Z.
Proof.
  intros H. unfold validate in H. apply m_bind_Done in H as ([] & s1 & [= <-] & H).
  apply query_Done in H as [H _]. cbn in H. rewrite alone in H.
  destruct (rows _ _) as [|[id x] l] eqn:E; [done|]. injection H as ->.
  assert (Hin : (id, x) ∈ (id, x) :: l) by left. rewrite <-E in Hin. apply elem_rows in Hin as [Hx Hp].
  unfold usable in Hp. rewrite !andb_true_iff in Hp. destruct Hp as [_ [[[[_ Ht] Hr] _] Hu]].
  exists x. cbn. repeat split; try done; [by destruct (s_revoked_at x)|lia].
Qed.

Lemma refresh_Done h s c s' :
  refresh_cli_session env h s = (Done (Some c), s') →
  refresh_history (db s) !! h = None ∧
  (∃ x, sessions (db s) !! sc_session_id c = Some x ∧ s_revoked_at x = None ∧ sc_family_id c = s_family_id x ∧
        s_refresh_hash x = h ∧ s_kind x = "cli" ∧ active_user (db s) (s_user_id x) = true ∧
        (sc_access_expires_at c ≤ s_created_at x + REFRESH_LIFETIME)%Z ∧
        (sc_refresh_expires_at c ≤ s_created_at x + REFRESH_LIFETIME)%Z) ∧
  ∃ r, refresh_history (db s') !! h = Some r ∧ rh_family_id r = sc_family_id c.
Proof.
  intros H. unfold refresh_cli_session in H.
  apply transaction_Done in H as [H|(s1 & H & _)].
  - apply m_bind_Done in H as (o & s1 & [-> ->]%query_Done & H). cbn in H. rewrite alone in H.
    destruct (refresh_history (db s) !! h) as [r|] eqn:Hh; cbn in H; [by m_cases H|].
    apply m_bind_Done in H as (o & s1 & [-> ->]%query_Done & H). cbn in H. rewrite ?alone in H.
    destruct (rows _ _) as [|[id x] l] eqn:E; cbn in H; [by m_cases H|].
    assert (Hin : (id, x) ∈ (id, x) :: l) by left. rewrite <-E in Hin. apply elem_rows in Hin as [Hx Hp].
    unfold refreshable in Hp. rewrite !andb_true_iff, !bool_decide_eq_true in Hp. destruct Hp as [[[Hrh Hk] Hr] Hu].
    apply m_bind_Done in H as (now & s1 & [= <- <-] & H).
    destruct (_ || _); [by m_cases H|]. apply m_bind_Done in H as (u & s1 & E1 & H).
    assert (Ha : ages (db s1) (db s')).
    { match type of H with ?m s1 = _ =>
        assert (Hm : moves ages m) by (repeat (runs_step || solve [auto with runs typeclass_instances])) end.
      exact (runs_to _ _ _ _ _ Hm H). }
    apply sql_Done in E1 as (d1 & E1 & ->). cbn in E1. unfold use_up in E1.
    destruct (insert_row _ _ _ _) as [|tab] eqn:Ei in E1; [done|]. injection E1 as _ <-.
    apply insert_row_inr in Ei as [_ ->].
    repeat (let E' := fresh in apply m_bind_Done in H as (? & ? & E' & H)). m_inv H. injection H as <-. cbn.
    split; [done|]. split.
    + exists x. repeat split; try done; [by destruct (s_revoked_at x)|lia..].
    + eexists. split; [apply Ha; cbn; apply lookup_insert_eq|done].
  - by m_cases H.
Qed.

(** C8. A refresh token that comes back.  A refresh token was exchanged for new
    credentials; then anyone signs in, refreshes, signs out and approves devices as they
    like.  When the same token is presented once more, the answer is [Ok(None)], no
    credentials are handed out, and from then on no session of its family is accepted again: neither its access tokens
    nor its refresh tokens, whatever happens later. *)
Theorem reused_refresh_closes_family h s creds s1 s2 :
  refresh_cli_session env h s = (Done (Some creds), s1) → rtc auth_step s1 s2 →
  ∃ s3, refresh_cli_session env h s2 = (Done None, s3) ∧
    ∀ s4 id x, rtc auth_step s3 s4 → sessions (db s3) !! id = Some x → s_family_id x = sc_family_id creds →
      (∀ kind lifetime t p s5, validate env kind lifetime t s4 = (Done (Some p), s5) → sp_session_id p ≠ id) ∧
      (∀ h' c s5, refresh_cli_session env h' s4 = (Done (Some c), s5) → sc_session_id c ≠ id).
Proof.
  intros (_ & _ & r & Hr & Hf)%refresh_Done Hs. apply ages_steps in Hs as [_ Hh]. apply Hh in Hr.
  eexists. split.
  { unfold refresh_cli_session, transaction, atomically, mbind, m_bind, query, sql. cbn.
    rewrite !alone, Hr. cbn. reflexivity. }
  intros s4 id x Hs4 Hx Hfam. apply ages_steps in Hs4 as [Hses _].
  assert (Hrev : s_revoked_at x ≠ None).
  { cbn in Hx. rewrite ?alone, lookup_update in Hx. destruct (sessions (db s2) !! id) as [y|]; [|done].
    cbn in Hx. injection Hx as <-. revert Hfam. case_match eqn:Hc; [done|]. intros Hfam.
    rewrite andb_false_iff, bool_decide_eq_false in Hc. destruct Hc as [Hc|Hc]; [congruence|].
    by destruct (s_revoked_at y). }
  destruct (Hses id x Hx) as (x' & Hx' & _ & _ & _ & _ & Hrev').
  split.
  - intros kind lifetime t p s5 (y & Hy & Hn & _)%validate_Done <-. rewrite Hx' in Hy. injection Hy as <-. by apply Hrev'.
  - intros h' c s5 (_ & (y & Hy & Hn & _) & _)%refresh_Done <-. rewrite Hx' in Hy. injection Hy as <-. by apply Hrev'.
Qed.

(** C26. No session outlives its family.  Whatever happens after a command line session
    was made, refreshing included, no token of it is accepted thirty days after its
    creation, a browser session is not accepted twelve hours after, and every pair of
    credentials handed out by refreshing expires within the thirty days. *)
Theorem sessions_do_not_outlive_family s s' id x :
  sessions (db s) !! id = Some x → rtc auth_step s s' →
  (∀ h p s2, validate_cli_session env h s' = (Done (Some p), s2) → sp_session_id p = id →
     (clock env (S (moment s')) < s_created_at x + REFRESH_LIFETIME)%Z) ∧
  (∀ h p s2, validate_browser_session env h s' = (Done (Some p), s2) → sp_session_id p = id →
     (clock env (S (moment s')) < s_created_at x + BROWSER_LIFETIME)%Z) ∧
  (∀ h c s2, refresh_cli_session env h s' = (Done (Some c), s2) → sc_session_id c = id →
     (sc_access_expires_at c ≤ s_created_at x + REFRESH_LIFETIME)%Z ∧
     (sc_refresh_expires_at c ≤ s_created_at x + REFRESH_LIFETIME)%Z ∧ sc_family_id c = s_family_id x).
Proof.
  intros Hx Hs. apply ages_steps in Hs as [Hses _].
  destruct (Hses id x Hx) as (x' & Hx' & _ & _ & Hfam & Hborn & _). rewrite <-Hborn, <-Hfam.
  split; [|split].
  - intros h p s2 H <-. destruct (validate_Done _ _ _ _ _ _ H) as (y & Hy & _ & _ & _ & Ht).
    rewrite Hx' in Hy. injection Hy as <-. exact Ht.
  - intros h p s2 H <-. destruct (validate_Done _ _ _ _ _ _ H) as (y & Hy & _ & _ & _ & Ht).
    rewrite Hx' in Hy. injection Hy as <-. exact Ht.
  - intros h c s2 H <-. destruct (refresh_Done _ _ _ _ H) as (_ & (y & Hy & _ & Hf & _ & _ & _ & Ha & Hr) & _).
    rewrite Hx' in Hy. injection Hy as <-. done.
Qed.

(** ** Device approval *)

(** The requests with this secret have been consumed. *)
Definition spent_device (h : string) (d : Db) : Prop :=
  (∃ id r, cli_login_requests d !! id = Some r ∧ by_device h r = true) ∧
  ∀ id r, cli_login_requests d !! id = Some r → by_device h r = true → cl_status r = "consumed".

Lemma spent_same_logins h d d' :
  cli_login_requests d' = cli_login_requests d → along (spent_device h) d d'.
Proof. intros E [He Ha]. unfold spent_device. by rewrite E. Qed.

(** An [UPDATE] that leaves consumed requests consumed. *)
Lemma spent_set_logins h p f d :
  (∀ r, cl_device_secret_hash (f r) = cl_device_secret_hash r) →
  (∀ r, cl_status r = "consumed" → p r = true → cl_status (f r) = "consumed") →
  along (spent_device h) d (set_logins p f d).2.
Proof.
  intros Hd Hc [(id & r & Hr & Hb) Ha]. split.
  - exists id. cbn. rewrite lookup_update, Hr. cbn. eexists. split; [done|].
    unfold by_device in *. destruct (p r); [by rewrite Hd|done].
  - intros i r' Hr' Hb'. cbn in Hr'. rewrite lookup_update in Hr'.
    destruct (cli_login_requests d !! i) as [r0|] eqn:E; [|done]. injection Hr' as <-.
    assert (Hb0 : by_device h r0 = true) by (unfold by_device in *; destruct (p r0); [by rewrite Hd in Hb'|done]).
    specialize (Ha i r0 E Hb0). destruct (p r0) eqn:Hp; auto.
Qed.

Lemma along_spent_others h n d : along (spent_device h) d (others env n d).
Proof. by rewrite alone. Qed.
#[local] Hint Resolve along_spent_others : runs.
#[local] Hint Extern 2 (runs (at_db (along (spent_device _))) (sql _ _)) =>
  apply moves_sql; [apply _|]; intros ? ? ? ? ?; unfold insert_session_row, use_up, rotate;
  repeat case_match; intros; simplify_eq/=; by apply spent_same_logins : runs.
#[local] Hint Extern 2 (runs (at_db (along (spent_device _))) (execute _ _)) =>
  apply moves_execute; [apply _|]; intros; cbn;
  first [by apply spent_same_logins | repeat case_match; by apply spent_same_logins] : runs.

Lemma spent_audit h e : moves (along (spent_device h)) (audit env e).
Proof. unfold audit. runs_auto. Qed.

Lemma spent_poll_updates h h' :
  (∀ d, along (spent_device h) d (set_logins (λ c, by_device h' c && negb (bool_decide (cl_status c = "consumed")))
                                    (cl_set_status "expired") d).2) ∧
  (∀ now d, along (spent_device h) d (set_logins (by_device h') (cl_set_last_poll_at (Some now)) d).2) ∧
  (∀ d, along (spent_device h) d (set_logins (λ c, by_device h' c && bool_decide (cl_status c = "approved"))
                                    (cl_set_status "consumed") d).2).
Proof.
  split; [|split]; intros; apply spent_set_logins; try done.
  intros r Hc Hp. rewrite Hc in Hp. cbn in Hp. by rewrite andb_false_r in Hp.
Qed.

Lemma spent_device_call h m : auth_call m → moves (along (spent_device h)) m.
Proof.
  pose proof (spent_audit h). destruct 1; unfold find_or_create_user, create_login, consume_login, create_browser_session,
    create_cli_session, create_session, insert_session, refresh_cli_session, revoke_family_in_tx, revoke_session,
    revoke_all_for_user, record_recent_auth, start, approve_authenticated, poll, create_cli_session_in_tx;
    repeat (runs_step || apply moves_translate || solve [auto with runs typeclass_instances]).
  - apply moves_sql; [apply _|]. intros now t d u d'. destruct (exists_row _ _) eqn:Hex; [done|].
    destruct (exists_row _ _) in |- *; [done|]. destruct (insert_row _ _ _ _) as [|tab] eqn:E; [done|].
    intros [= <- <-] [(id & r & Hr & Hb) Ha]. apply insert_row_inr in E as [Hn ->]. split; cbn.
    + exists id, r. rewrite lookup_insert_ne; [done|congruence].
    + intros i r' Hr' Hb'. apply lookup_insert_Some in Hr' as [[<- <-]|[_ Hr']]; [|eauto].
      unfold by_device in Hb'. cbn in Hb'. apply bool_decide_eq_true in Hb'. subst h.
      by rewrite (proj1 (exists_row_false _ _) Hex id r Hr) in Hb.
  - apply moves_sql; [apply _|]. intros now t d n d'.
    destruct (set_logins _ _ _) as [n0 d0] eqn:E.
    match goal with |- (if ?b then _ else _) = _ → _ => destruct b; [done|] end. intros [= -> ->].
    change d' with (n, d').2. rewrite <-E. apply spent_set_logins; [done|].
    intros r Hc Hp. unfold pending_code in Hp. rewrite Hc in Hp. cbn in Hp. by rewrite andb_false_r in Hp.
  - destruct (spent_poll_updates h (sha256_hex env secret)) as (Hp & _ & _).
    apply moves_execute; [apply _|]. intros now t d. exact (Hp d).
  - destruct (spent_poll_updates h (sha256_hex env secret)) as (_ & Hp & _).
    apply moves_execute; [apply _|]. intros now t d. exact (Hp now d).
  - destruct (spent_poll_updates h (sha256_hex env secret)) as (_ & _ & Hp).
    apply moves_execute; [apply _|]. intros now t d. exact (Hp d).
Qed.

Lemma spent_device_steps h s s' : rtc auth_step s s' → spent_device h (db s) → spent_device h (db s').
Proof.
  induction 1 as [|s1 s2 s3 (m & Hm & ->) _ IH]; [done|]. intros Hsp. apply IH.
  by apply (spent_device_call h m Hm).
Qed.

Lemma audit_logins e s u s' :
  audit env e s = (Done u, s') →
  cli_login_requests (db s') = cli_login_requests (db s) ∧ sessions (db s') = sessions (db s).
Proof.
  intros H. unfold audit in H. apply m_bind_Done in H as (id & s1 & [= <- <-] & (d & E & ->)%sql_Done).
  revert E. by case_match; intros [= _ <-].
Qed.

Lemma cli_session_Done u s c s' :
  create_cli_session_in_tx env u s = (Done c, s') →
  active_user (db s) u = true ∧ cli_login_requests (db s') = cli_login_requests (db s) ∧
  ∃ x, sessions (db s') !! sc_session_id c = Some x ∧ s_user_id x = u ∧ s_kind x = "cli" ∧
       s_access_hash x = sha256_hex env (sc_access_token c) ∧
       s_refresh_hash x = sha256_hex env (sc_refresh_token c).
Proof.
  intros H. unfold create_cli_session_in_tx in H.
  do 5 apply m_bind_Done in H as (? & ? & [= <- <-] & H).
  apply m_bind_Done in H as (b & s1 & (d & E & ->)%sql_Done & H). cbn in E.
  apply m_bind_Done in H as (? & s1 & [-> ->]%require_Done & H).
  apply m_bind_Done in H as (? & s1 & [Hl Hss]%audit_logins & H). m_inv H. subst c. cbn in *.
  unfold insert_session_row in E. cbn in E. destruct (active_user (db s) u) eqn:Hu; [|done].
  destruct (hashes_taken _ _ _ _); [done|]. destruct (insert_row _ _ _ _) as [|tab] eqn:Ei; [done|].
  apply insert_row_inr in Ei as [_ ->]. injection E as <-. cbn in *. rewrite Hl, Hss, lookup_insert_eq.
  split; [done|]. split; [done|]. by eexists.
Qed.

(** What a delivery found and left. *)
Lemma poll_Done secret s c s' :
  poll env secret s = (Done (PollCredentials c), s') →
  let h := sha256_hex env secret in
  (∃ id r u t x, cli_login_requests (db s) !! id = Some r ∧ by_device h r = true ∧ cl_status r = "approved" ∧
     (clock env (S (moment s)) < cl_expires_at r)%Z ∧ cl_approved_user_id r = Some u ∧
     cl_approved_authenticated_at r = Some t ∧ active_user (db s) u = true ∧
     sessions (db s') !! sc_session_id c = Some x ∧ s_user_id x = u ∧ s_kind x = "cli" ∧
     s_last_authenticated_at x = Some t ∧
     s_access_hash x = sha256_hex env (sc_access_token c) ∧
     s_refresh_hash x = sha256_hex env (sc_refresh_token c)) ∧
  cli_login_requests (db s') =
    update (λ _ r, by_device h r && bool_decide (cl_status r = "approved")) (cl_set_status "consumed")
      (cli_login_requests (db s)).
Proof.
  intros H h. unfold poll in H. fold h in H. apply transaction_Done in H as [H|(s1 & H & _)]; [|by m_cases H].
  apply m_bind_Done in H as (o & s1 & [-> ->]%query_Done & H). cbn in H. rewrite alone in H.
  destruct (rows _ _) as [|[id r] l] eqn:E; cbn in H; [by m_cases H|].
  assert (Hin : (id, r) ∈ (id, r) :: l) by left. rewrite <-E in Hin. apply elem_rows in Hin as [Hr Hb].
  destruct (cl_expires_at r <=? _)%Z eqn:Hexp; [by m_cases H|]. destruct (one_of _ _); [by m_cases H|].
  apply m_bind_Done in H as ([] & s1 & [_ ->]%require_Done & H).
  destruct (bool_decide (cl_status r = "pending")); [by m_cases H|].
  destruct (bool_decide (cl_status r = "approved")) eqn:Hap; [|by m_cases H]. apply bool_decide_eq_true in Hap.
  destruct (cl_approved_user_id r) as [u|] eqn:Hu; [|by m_cases H].
  destruct (cl_approved_authenticated_at r) as [t|] eqn:Ht; [|by m_cases H].
  apply m_bind_Done in H as (n & s1 & [-> ->]%execute_Done & H).
  destruct (bool_decide _); [by m_cases H|]. cbn in H.
  apply m_bind_Done in H as (c' & s1 & (Hact & Hl & x & Hx & Hxu & Hxk & Hxa & Hxr)%cli_session_Done & H).
  apply m_bind_Done in H as (? & s2 & [_ ->]%execute_Done & H). m_inv H. injection H as ->. cbn in *.
  split; [|exact Hl]. exists id, r, u, t, (s_set_last_authenticated_at (Some t) x).
  repeat split; try done; [lia|]. by rewrite lookup_update_one, bool_decide_eq_true_2, Hx by done.
Qed.

(** C24. Device approval.  Polling hands out credentials only for a request that is not
    expired and that a user approved, and they are a command line session of that user,
    who is active, authenticated when the approval was.  However long the client goes on
    polling with the secret, and whatever else happens, it never gets credentials again.
    (Requests have distinct secrets, which the table ensures.) *)
Theorem device_delivers_once secret s c s1 :
  poll env secret s = (Done (PollCredentials c), s1) →
  (∀ i j r r', cli_login_requests (db s) !! i = Some r → cli_login_requests (db s) !! j = Some r' →
     cl_device_secret_hash r = cl_device_secret_hash r' → i = j) →
  (∃ id r u t x, cli_login_requests (db s) !! id = Some r ∧
     cl_device_secret_hash r = sha256_hex env secret ∧ cl_status r = "approved" ∧
     (clock env (S (moment s)) < cl_expires_at r)%Z ∧ cl_approved_user_id r = Some u ∧
     cl_approved_authenticated_at r = Some t ∧ active_user (db s) u = true ∧
     sessions (db s1) !! sc_session_id c = Some x ∧ s_user_id x = u ∧ s_kind x = "cli" ∧
     s_last_authenticated_at x = Some t) ∧
  ∀ s2 c' s3, rtc auth_step s1 s2 → poll env secret s2 ≠ (Done (PollCredentials c'), s3).
Proof.
  intros H Huniq. pose proof (poll_Done _ _ _ _ H) as [(id & r & u & t & x & Hr & Hb & Hap & ?&?&?&?&?&?&?&?&_) Hl].
  unfold by_device in Hb. apply bool_decide_eq_true in Hb. split; [exists id, r, u, t, x; repeat split; done|].
  intros s2 c' s3 Hs Hagain.
  assert (Hsp : spent_device (sha256_hex env secret) (db s1)).
  { split.
    - exists id. rewrite Hl, lookup_update, Hr. cbn. eexists. split; [done|]. unfold by_device.
      by case_match; apply bool_decide_eq_true_2.
    - intros i r' Hr' Hb'. rewrite Hl, lookup_update in Hr'.
      destruct (cli_login_requests (db s) !! i) as [r0|] eqn:E0; [|done]. injection Hr' as <-.
      assert (i = id) as ->.
      { eapply Huniq; [exact E0|exact Hr|]. unfold by_device in Hb'. case_match; apply bool_decide_eq_true in Hb';
          cbn in Hb'; congruence. }
      rewrite E0 in Hr. injection Hr as <-. unfold by_device. rewrite Hb, Hap, !bool_decide_eq_true_2 by done. done. }
  apply (spent_device_steps _ _ _ Hs) in Hsp as [_ Hall].
  apply poll_Done in Hagain as [(id2 & r2 & ? & ? & ? & Hr2 & Hb2 & Hap2 & _) _].
  specialize (Hall id2 r2 Hr2 Hb2). congruence.
Qed.
End auth.
