(* ===== verification/Runtime.v ===== *)
(** * Runtime credentials

    [permissions.rs], [repository.rs], [credentials.rs] and [broker.rs] of
    [src/crates/openflows-manager/src/runtime]: what a workspace may do on GitHub,
    how it gets its credentials (a bootstrap that is used once, then pairs of access
    and refresh credentials that rotate), and how a presented credential is resolved
    to the workspace, tenant, organization, connection and repository behind it; and
    the broker of [broker.rs], which exchanges such a scope for a GitHub token. *)
From S2P Require Import Prelude Text Json Schema Database Outbox.

(** ** Permissions *)

Inductive Permission :=
  Contents | Issues | PullRequests | Checks | Statuses | Actions | Workflows | Metadata.
Inductive PermissionLevel := Read | Write.

(** The names of the wire format ([snake_case] and [lowercase]). *)
Definition permission_name (p : Permission) : string :=
  match p with
  | Contents => "contents"
  | Issues => "issues"
  | PullRequests => "pull_requests"
  | Checks => "checks"
  | Statuses => "statuses"
  | Actions => "actions"
  | Workflows => "workflows"
  | Metadata => "metadata"
  end.
Definition level_name (l : PermissionLevel) : string :=
  match l with Read => "read" | Write => "write" end.

#[export] Instance permission_eq_dec : EqDecision Permission.
Proof. solve_decision. Defined.
#[export] Instance level_eq_dec : EqDecision PermissionLevel.
Proof. solve_decision. Defined.

(** The code of a permission is its name. *)
Definition permission_of_name (s : string) : option Permission :=
  head (filter (λ p, permission_name p = s)
          [Contents; Issues; PullRequests; Checks; Statuses; Actions; Workflows; Metadata]).
#[export] Instance permission_countable : Countable Permission.
Proof. by apply (inj_countable permission_name permission_of_name); intros []. Defined.

Abbreviation Permissions := (gmap Permission PermissionLevel).

Definition to_wire (p : Permissions) : gmap string string := kmap permission_name (level_name <$> p).

(** GitHub adds read access to the metadata; nothing else may be in excess. *)
Definition grants_match (actual expected : gmap string string) : bool :=
  let implicit := bool_decide (actual !! "metadata" = Some "read") && is_none (expected !! "metadata") in
  bool_decide ((if implicit then base.delete "metadata" actual else actual) = expected).

Inductive RuntimePurpose := Git | Api.

Definition purpose_str (p : RuntimePurpose) : string :=
  match p with Git => "git" | Api => "api" end.

Definition parse_purpose (raw : string) : ManagerError + RuntimePurpose :=
  if bool_decide (raw = "git") then inr Git
  else if bool_decide (raw = "api") then inr Api
  else inl (api "INVALID_INPUT"
              ("invalid runtime purpose '" +:+ raw +:+ "': expected 'git' or 'api'")).

Record PermissionProfile := {
  pp_name : string;
  pp_permissions : Permissions;
  pp_profile_hash : string;
}.

(** [map(&[..])]. *)
Definition profile_map (pairs : list (Permission * PermissionLevel)) : Permissions :=
  foldl (λ m p, <[p.1 := p.2]> m) ∅ pairs.

Definition profile_of (role : string) (purpose : RuntimePurpose) : option Permissions :=
  match purpose with
  | Git =>
      if one_of ["nexus"; "sentinel"] role then Some (profile_map [(Contents, Read)])
      else if bool_decide (role = "forge")
      then Some (profile_map [(Contents, Write); (Workflows, Write)])
      else if one_of ["vessel"; "lore"] role then Some (profile_map [(Contents, Write)])
      else None
  | Api =>
      if bool_decide (role = "nexus")
      then Some (profile_map [(Contents, Read); (Issues, Write); (PullRequests, Write)])
      else if bool_decide (role = "forge")
      then Some (profile_map [(Contents, Write); (PullRequests, Write)])
      else if bool_decide (role = "sentinel")
      then Some (profile_map [(Contents, Read); (PullRequests, Write); (Checks, Read)])
      else if bool_decide (role = "vessel")
      then Some (profile_map [(Contents, Write); (PullRequests, Write); (Checks, Read);
                              (Statuses, Read); (Actions, Read)])
      else if bool_decide (role = "lore")
      then Some (profile_map [(Contents, Write); (PullRequests, Write)])
      else None
  end.

(** A [BTreeMap] is walked in the order of its keys. *)
Definition canonical (wire : gmap string string) : string :=
  foldr (λ kv acc, (kv.1 +:+ "=" +:+ kv.2 +:+ ";") +:+ acc) ""
    (order_by (λ a b : string * string, String.leb a.1 b.1) (map_to_list wire)).

Section permissions.
Context (env : Env).

Definition profile_hash (wire : gmap string string) : string := sha256_hex env (canonical wire).

Definition build_profile (role : string) (purpose : RuntimePurpose) (p : Permissions) :
    PermissionProfile :=
  {| pp_name := role +:+ "." +:+ purpose_str purpose; pp_permissions := p;
     pp_profile_hash := profile_hash (to_wire p) |}.

Definition resolve_profile (role : string) (purpose : RuntimePurpose) :
    ManagerError + PermissionProfile :=
  match profile_of role purpose with
  | Some p => inr (build_profile role purpose p)
  | None => inl (api "INVALID_INPUT"
                   ("no permission profile for role '" +:+ role +:+ "' and purpose '" +:+
                    purpose_str purpose +:+ "'"))
  end.
End permissions.

(** ** The repository *)

Definition WORKSPACE_AUDIENCE : string := "openflows-workspace".
Definition WORKSPACE_REFRESH_AUDIENCE : string := "openflows-workspace-refresh".

Record ConsumedBootstrap := {
  cb_workspace_id : uuid;
  cb_generation : Z;
  cb_bootstrap_secret_ref : string;
  cb_runtime_secret_ref : option string;
}.

Record RuntimeScope := {
  sc_credential_id : uuid;
  sc_workspace_id : uuid;
  sc_workspace_role : string;
  sc_workspace_generation : Z;
  sc_workspace_observed_state : string;
  sc_workspace_desired_state : string;
  sc_workspace_registered_at : option Z;
  sc_tenant_id : uuid;
  sc_tenant_desired_state : string;
  sc_tenant_observed_state : string;
  sc_organization_id : uuid;
  sc_organization_status : string;
  sc_connection_id : uuid;
  sc_connection_status : string;
  sc_connection_generation : Z;
  sc_installation_id : Z;
  sc_repository_id : Z;
  sc_repository_accessible : bool;
  sc_credential_generation : Z;
  sc_credential_expires_at : Z;
  sc_credential_revoked_at : option Z;
  sc_credential_audience : string;
  sc_credential_family_id : uuid;
  sc_credential_family_expires_at : Z;
}.

Definition NIL_UUID : uuid := "00000000-0000-0000-0000-000000000000".

Definition gone (state : string) : bool := one_of ["deleting"; "deleted"] state.

(** A workspace with everything it hangs on:
    [workspaces w JOIN tenants t JOIN organizations o JOIN github_connections c JOIN
    github_repositories r]. *)
Record Chain := {
  ch_workspace : Workspace;
  ch_tenant : Tenant;
  ch_organization : Organization;
  ch_connection : Connection;
  ch_repository : Repository;
}.

Definition chain_of (workspace_id : uuid) (d : Db) : option Chain :=
  w ← workspaces d !! workspace_id;
  t ← tenants d !! w_tenant_id w;
  if bool_decide (t_organization_id t = w_organization_id w) then
    o ← organizations d !! t_organization_id t;
    c ← github_connections d !! t_connection_id t;
    if bool_decide (c_organization_id c = t_organization_id t) then
      r ← github_repositories d !! (t_connection_id t, t_github_repository_id t);
      if bool_decide (r_organization_id r = c_organization_id c)
      then Some {| ch_workspace := w; ch_tenant := t; ch_organization := o; ch_connection := c;
                   ch_repository := r |}
      else None
    else None
  else None.

Definition scope_of (credential_id : uuid) (rc : RuntimeCredential) (h : Chain) : RuntimeScope :=
  {| sc_credential_id := credential_id;
     sc_workspace_id := rc_workspace_id rc;
     sc_workspace_role := w_role (ch_workspace h);
     sc_workspace_generation := w_credential_generation (ch_workspace h);
     sc_workspace_observed_state := w_observed_state (ch_workspace h);
     sc_workspace_desired_state := w_desired_state (ch_workspace h);
     sc_workspace_registered_at := w_registered_at (ch_workspace h);
     sc_tenant_id := w_tenant_id (ch_workspace h);
     sc_tenant_desired_state := t_desired_state (ch_tenant h);
     sc_tenant_observed_state := t_observed_state (ch_tenant h);
     sc_organization_id := t_organization_id (ch_tenant h);
     sc_organization_status := o_status (ch_organization h);
     sc_connection_id := t_connection_id (ch_tenant h);
     sc_connection_status := c_status (ch_connection h);
     sc_connection_generation := c_access_generation (ch_connection h);
     sc_installation_id := c_installation_id (ch_connection h);
     sc_repository_id := t_github_repository_id (ch_tenant h);
     sc_repository_accessible := r_accessible (ch_repository h);
     sc_credential_generation := rc_generation rc;
     sc_credential_expires_at := rc_expires_at rc;
     sc_credential_revoked_at := rc_revoked_at rc;
     sc_credential_audience := rc_audience rc;
     sc_credential_family_id := rc_family_id rc;
     sc_credential_family_expires_at := rc_family_expires_at rc |}.

(** [INSERT INTO runtime_credentials]; the hash is unique. *)
Definition insert_credential_row (id : uuid) (rc : RuntimeCredential) (d : Db) : SqlError + unit * Db :=
  match workspaces d !! rc_workspace_id rc with
  | None => inl (Violates "runtime_credentials_workspace_id_fkey")
  | Some _ =>
      if exists_row (λ _ x, bool_decide (rc_credential_hash x = rc_credential_hash rc))
           (runtime_credentials d)
      then inl (Violates "runtime_credentials_credential_hash_key")
      else match insert_row "runtime_credentials_pkey" id rc (runtime_credentials d) with
           | inl e => inl e
           | inr tab => inr (tt, on_runtime_credentials (λ _, tab) d)
           end
  end.

Definition new_credential (workspace_id : uuid) (hash audience : string) (expires_at generation : Z)
    (family_id : uuid) (family_expires_at : Z) : RuntimeCredential :=
  {| rc_workspace_id := workspace_id; rc_credential_hash := hash; rc_audience := audience;
     rc_expires_at := expires_at; rc_revoked_at := None; rc_generation := generation;
     rc_family_id := family_id; rc_family_expires_at := family_expires_at |}.

Definition open_bootstrap (b : BootstrapCredential) : bool :=
  is_none (bc_consumed_at b) && is_none (bc_revoked_at b).

(** [INSERT INTO workspace_bootstrap_credentials] with its unique indexes. *)
Definition insert_bootstrap_row (id : uuid) (b : BootstrapCredential) (d : Db) : SqlError + unit * Db :=
  match workspaces d !! bc_workspace_id b with
  | None => inl (Violates "workspace_bootstrap_credentials_workspace_id_fkey")
  | Some _ =>
      let tab := workspace_bootstrap_credentials d in
      if exists_row (λ _ x, bool_decide (bc_credential_hash x = bc_credential_hash b)) tab
      then inl (Violates "workspace_bootstrap_credentials_credential_hash_key")
      else if exists_row (λ _ x, bool_decide (bc_secret_ref x = bc_secret_ref b)) tab
      then inl (Violates "workspace_bootstrap_credentials_secret_ref_key")
      else if exists_row (λ _ x, open_bootstrap x &&
                                 bool_decide (bc_workspace_id x = bc_workspace_id b)) tab
      then inl (Violates "workspace_bootstrap_one_live")
      else match insert_row "workspace_bootstrap_credentials_pkey" id b tab with
           | inl e => inl e
           | inr tab => inr (tt, on_workspace_bootstrap_credentials (λ _, tab) d)
           end
  end.

(** [SET revoked_at = clock_timestamp() WHERE .. AND revoked_at IS NULL]. *)
Definition revoke_credentials (p : RuntimeCredential → bool) (t : Z) (d : Db) : Db :=
  on_runtime_credentials
    (update (λ _ rc, p rc && is_none (rc_revoked_at rc)) (rc_set_revoked_at (Some t))) d.

Definition revoke_leases (p : LeaseRow → bool) (t : Z) (d : Db) : Db :=
  on_credential_leases
    (update (λ _ l, p l && is_none (cr_revoked_at l))
       (λ l, l ▷ cr_set_revoked_at (Some t) ▷ cr_set_encrypted_ref None)) d.

Definition of_workspace (workspace_id : uuid) (rc : RuntimeCredential) : bool :=
  bool_decide (rc_workspace_id rc = workspace_id).

(** The generation is a 64 bit column. *)
Definition bump (workspace_id : uuid) (w : Workspace) (now : Z) (d : Db) : SqlError + option Z * Db :=
  let g := (w_credential_generation w + 1)%Z in
  if (g <=? I64_MAX)%Z
  then inr (Some g, on_workspaces (<[workspace_id := w ▷ w_set_credential_generation g
                                                       ▷ w_set_updated_at now]>) d)
  else inl OutOfRange.

(** The refresh credential with which a pair is rotated. *)
Definition presented (hash : string) (workspace_id : uuid) (generation t : Z) (rc : RuntimeCredential) : bool :=
  of_workspace workspace_id rc && bool_decide (rc_credential_hash rc = hash) &&
  bool_decide (rc_audience rc = WORKSPACE_REFRESH_AUDIENCE) && is_none (rc_revoked_at rc) &&
  (t <? rc_expires_at rc)%Z && (rc_generation rc =? generation)%Z.

Section repository.
Context (env : Env).

Definition insert_credential (id : uuid) (rc : RuntimeCredential) : M unit :=
  on_pool env (sql env (λ _ _ d, insert_credential_row id rc d)).

Definition insert_bootstrap (id workspace_id : uuid) (hash secret_ref : string) (expires_at : Z) : M unit :=
  transaction env (
    execute env (λ _ t d,
      (tt, on_workspace_bootstrap_credentials
             (update (λ _ b, bool_decide (bc_workspace_id b = workspace_id) && open_bootstrap b)
                (bc_set_revoked_at (Some t))) d));;
    sql env (λ now _ d,
      insert_bootstrap_row id
        {| bc_workspace_id := workspace_id; bc_credential_hash := hash; bc_secret_ref := secret_ref;
           bc_expires_at := expires_at; bc_consumed_at := None; bc_revoked_at := None;
           bc_created_at := now |} d);;
    mret (Commit tt)).

Definition live_bootstrap_ref (workspace_id : uuid) : M (option (string * Z)) :=
  on_pool env (query env (λ _ t d,
    match rows (λ _ b, bool_decide (bc_workspace_id b = workspace_id) && open_bootstrap b &&
                       (t <? bc_expires_at b)%Z) (workspace_bootstrap_credentials d) with
    | (_, b) :: _ => Some (bc_secret_ref b, bc_expires_at b)
    | [] => None
    end)).

(** A bootstrap that admits its workspace now. *)
Definition admitting (hash : string) (t : Z) (d : Db) (b : BootstrapCredential) : bool :=
  bool_decide (bc_credential_hash b = hash) && open_bootstrap b && (t <? bc_expires_at b)%Z &&
  match workspaces d !! bc_workspace_id b with
  | Some w =>
      negb (gone (w_desired_state w)) &&
      match tenants d !! w_tenant_id w with
      | Some te => bool_decide (t_organization_id te = w_organization_id w) &&
                   negb (gone (t_desired_state te))
      | None => false
      end
  | None => false
  end.

Definition consume_bootstrap_and_insert_session (bootstrap_hash : string)
    (access_id : uuid) (access_hash : string) (access_expires_at : Z)
    (refresh_id : uuid) (refresh_hash : string) (family_id : uuid) (family_expires_at : Z) :
    M (option ConsumedBootstrap) :=
  transaction env (
    row ← query env (λ _ t d,
      match rows (λ _ b, admitting bootstrap_hash t d b) (workspace_bootstrap_credentials d) with
      | (_, b) :: _ =>
          w ← workspaces d !! bc_workspace_id b;
          Some {| cb_workspace_id := bc_workspace_id b; cb_generation := w_credential_generation w;
                  cb_bootstrap_secret_ref := bc_secret_ref b;
                  cb_runtime_secret_ref := w_runtime_secret_ref w |}
      | [] => None
      end);
    match row with
    | None => mret (Rollback None)
    | Some c =>
        execute env (λ _ t d,
          (tt, on_workspace_bootstrap_credentials
                 (update (λ _ b, bool_decide (bc_credential_hash b = bootstrap_hash) &&
                                 is_none (bc_consumed_at b)) (bc_set_consumed_at (Some t))) d));;
        sql env (λ _ _ d, insert_credential_row access_id
          (new_credential (cb_workspace_id c) access_hash WORKSPACE_AUDIENCE access_expires_at
             (cb_generation c) family_id family_expires_at) d);;
        sql env (λ _ _ d, insert_credential_row refresh_id
          (new_credential (cb_workspace_id c) refresh_hash WORKSPACE_REFRESH_AUDIENCE family_expires_at
             (cb_generation c) family_id family_expires_at) d);;
        execute env (λ now t d,
          (tt, on_workspaces (λ tab, (update_one (cb_workspace_id c) (λ _, true)
             (λ w, w ▷ w_set_registered_at (Some t) ▷ w_set_updated_at now) tab).2) d));;
        mret (Commit (Some c))
    end).

Definition revoke_credential (id : uuid) : M bool :=
  on_pool env (execute env (λ _ t d,
    let '(n, tab) := update_one id (λ rc, is_none (rc_revoked_at rc)) (rc_set_revoked_at (Some t))
                       (runtime_credentials d) in
    (bool_decide (n = 1%Z), on_runtime_credentials (λ _, tab) d))).

Definition revoke_workspace_credentials (workspace_id : uuid) : M Z :=
  on_pool env (execute env (λ _ t d,
    (count (λ _ rc, of_workspace workspace_id rc && is_none (rc_revoked_at rc)) (runtime_credentials d),
     revoke_credentials (of_workspace workspace_id) t d))).

Definition bump_workspace_generation (workspace_id : uuid) : M Z :=
  row ← on_pool env (sql env (λ now _ d,
    match workspaces d !! workspace_id with
    | Some w => bump workspace_id w now d
    | None => inr (None, d)
    end));
  ok_or row (not_found "workspace").

Definition rotate_credential_pair (access_id workspace_id : uuid) (presented_refresh_hash : option string)
    (access_hash : string) (access_expires_at : Z) (refresh_id : uuid) (refresh_hash : string)
    (family_id : uuid) (family_expires_at : Z) : M Z :=
  transaction env (
    row ← sql env (λ now t d,
      match workspaces d !! workspace_id with
      | Some w =>
          if null_or (λ h, exists_row (λ _ rc, presented h workspace_id (w_credential_generation w) t rc)
                             (runtime_credentials d)) presented_refresh_hash
          then bump workspace_id w now d
          else inr (None, d)
      | None => inr (None, d)
      end);
    generation ← ok_or row (not_found "workspace");
    execute env (λ _ t d, (tt, revoke_credentials (of_workspace workspace_id) t d));;
    execute env (λ _ t d, (tt, revoke_leases (λ l, bool_decide (cr_workspace_id l = Some workspace_id)) t d));;
    sql env (λ _ _ d, insert_credential_row access_id
      (new_credential workspace_id access_hash WORKSPACE_AUDIENCE access_expires_at generation
         family_id family_expires_at) d);;
    sql env (λ _ _ d, insert_credential_row refresh_id
      (new_credential workspace_id refresh_hash WORKSPACE_REFRESH_AUDIENCE family_expires_at generation
         family_id family_expires_at) d);;
    mret (Commit generation)).

Definition workspace_generation (workspace_id : uuid) : M (option Z) :=
  on_pool env (query env (λ _ _ d, w_credential_generation <$> workspaces d !! workspace_id)).

Definition resolve_runtime_scope (credential_hash : string) : M (option RuntimeScope) :=
  on_pool env (query env (λ _ _ d,
    match rows (λ _ rc, bool_decide (rc_credential_hash rc = credential_hash)) (runtime_credentials d) with
    | (id, rc) :: _ => scope_of id rc <$> chain_of (rc_workspace_id rc) d
    | [] => None
    end)).

(** Without a credential. *)
Definition resolve_workspace_scope (workspace_id : uuid) : M (option RuntimeScope) :=
  on_pool env (query env (λ _ _ d,
    scope_of NIL_UUID (new_credential workspace_id "" "" 0 0 NIL_UUID 0) <$> chain_of workspace_id d)).

Definition credential_is_current (credential_id workspace_id : uuid) (generation : Z) : M bool :=
  on_pool env (query env (λ _ t d,
    match runtime_credentials d !! credential_id, workspaces d !! workspace_id with
    | Some rc, Some w =>
        of_workspace workspace_id rc && is_none (rc_revoked_at rc) && (t <? rc_expires_at rc)%Z &&
        (rc_generation rc =? generation)%Z && (w_credential_generation w =? generation)%Z
    | _, _ => false
    end)).

Definition revoke_lease (lease_id : uuid) : M bool :=
  on_pool env (execute env (λ _ t d,
    let '(n, tab) := update_one lease_id (λ l, is_none (cr_revoked_at l))
                       (λ l, l ▷ cr_set_revoked_at (Some t) ▷ cr_set_encrypted_ref None)
                       (credential_leases d) in
    (bool_decide (n = 1%Z), on_credential_leases (λ _, tab) d))).

Definition revoke_counted (p : LeaseRow → bool) (t : Z) (d : Db) : Z * Db :=
  (count (λ _ l, p l && is_none (cr_revoked_at l)) (credential_leases d), revoke_leases p t d).

Definition revoke_leases_for_connection (organization_id connection_id : uuid) : M Z :=
  on_pool env (execute env (λ _ t d,
    revoke_counted (λ l, bool_decide (cr_organization_id l = organization_id) &&
                         bool_decide (cr_connection_id l = connection_id)) t d)).

Definition revoke_leases_for_workspace (workspace_id : uuid) : M Z :=
  on_pool env (execute env (λ _ t d,
    revoke_counted (λ l, bool_decide (cr_workspace_id l = Some workspace_id)) t d)).

End repository.

(** ** The credential service *)

Definition BOOTSTRAP_TTL : Z := 60 * MINUTE.
Definition ACCESS_TTL : Z := 15 * MINUTE.
Definition REFRESH_FAMILY_TTL : Z := 24 * HOUR.

Record RuntimeBootstrapIssue := {
  bi_secret_ref : string;
  bi_raw_secret : string;
  bi_expires_at : Z;
}.

Record RuntimeSessionIssue := {
  si_workspace_id : uuid;
  si_access_secret : string;
  si_access_expires_at : Z;
  si_refresh_secret : string;
  si_refresh_expires_at : Z;
  si_generation : Z;
}.

Record RuntimeCredentialIssue := {
  ci_credential_id : uuid;
  ci_raw_secret : string;
  ci_expires_at : Z;
  ci_generation : Z;
}.

Definition secret_error_text (e : SecretError) : string :=
  match e with
  | SecretNotFound n => "secret " +:+ n +:+ " not found"
  | AlreadyExists n => "secret already exists: " +:+ n
  | Unavailable m => "secret provider unavailable: " +:+ m
  | Rejected m => "secret provider rejected operation: " +:+ m
  end.

(** [Map::insert] of serde_json, whose objects are kept in the order of the keys. *)
Fixpoint object_insert (k : string) (v : Value) (m : list (string * Value)) : list (string * Value) :=
  match m with
  | [] => [(k, v)]
  | (k', v') :: m' =>
      if bool_decide (k = k') then (k, v) :: m'
      else if String.ltb k k' then (k, v) :: m
      else (k', v') :: object_insert k v m'
  end.

Definition AUTH_FAILED (message : string) : ManagerError := api "AUTH_FAILED" message.

Definition validate_presented_secret (raw : string) : M unit :=
  require (negb (bool_decide (raw = "")) && (String.length raw <=? 4096))
    (AUTH_FAILED "runtime credential is invalid").

(** The checks on a resolved credential, in the order of the code. *)
Definition check_scope (expected_audience : string) (now : Z) (scope : RuntimeScope) : M unit :=
  require (bool_decide (sc_credential_audience scope = expected_audience))
    (AUTH_FAILED "runtime credential audience mismatch");;
  require (now <? sc_credential_expires_at scope)%Z (AUTH_FAILED "runtime credential has expired");;
  require (is_none (sc_credential_revoked_at scope)) (AUTH_FAILED "runtime credential has been revoked");;
  require (sc_credential_generation scope =? sc_workspace_generation scope)%Z
    (AUTH_FAILED "runtime credential is stale (rotated)");;
  require (bool_decide (sc_organization_status scope = "ready") &&
           bool_decide (sc_connection_status scope = "active") &&
           sc_repository_accessible scope &&
           negb (gone (sc_tenant_desired_state scope)) &&
           negb (gone (sc_workspace_desired_state scope)))
    (AUTH_FAILED "runtime scope is no longer active").

Section credentials.
Context (env : Env).

Definition put (name value : string) : M (SecretError + string) :=
  with_vault (λ n v, put_secret (secrets env) n name value v).
Definition get_ref (name : string) : M (SecretError + string) :=
  with_vault (λ n v, (get_secret (secrets env) n name v, v)).
Definition replace_ref (name value : string) : M (SecretError + unit) :=
  with_vault (λ n v, replace_secret (secrets env) n name value v).
Definition delete_ref (name : string) : M (SecretError + unit) :=
  with_vault (λ n v, delete_secret (secrets env) n name v).

Definition issue_for_workspace (workspace_id : uuid) : M RuntimeCredentialIssue :=
  found ← workspace_generation env workspace_id;
  generation ← ok_or found (not_found "workspace");
  secret ← generate_secret env;
  id ← uuid_v4 env;
  now ← utc_now env;
  family_id ← uuid_v4 env;
  now' ← utc_now env;
  insert_credential env id
    (new_credential workspace_id (sha256_hex env secret) WORKSPACE_AUDIENCE (now + ACCESS_TTL)
       generation family_id (now' + REFRESH_FAMILY_TTL));;
  mret {| ci_credential_id := id; ci_raw_secret := secret; ci_expires_at := (now + ACCESS_TTL)%Z;
          ci_generation := generation |}.

Definition issue_bootstrap (workspace_id : uuid) : M RuntimeBootstrapIssue :=
  found ← workspace_generation env workspace_id;
  ok_or found (not_found "workspace");;
  secret ← generate_secret env;
  id ← uuid_v4 env;
  now ← utc_now env;
  stored ← put ("workspace-bootstrap-" +:+ workspace_id +:+ "-" +:+ id) secret;
  match stored with
  | inl e => refuse (Config ("cannot inject runtime bootstrap: " +:+ secret_error_text e))
  | inr reference =>
      done ← attempt (insert_bootstrap env id workspace_id (sha256_hex env secret) reference
                        (now + BOOTSTRAP_TTL));
      match done with
      | inl error => delete_ref reference;; refuse error
      | inr _ => mret {| bi_secret_ref := reference; bi_raw_secret := secret;
                         bi_expires_at := (now + BOOTSTRAP_TTL)%Z |}
      end
  end.

Definition ensure_bootstrap_ref (workspace_id : uuid) : M string :=
  live ← live_bootstrap_ref env workspace_id;
  match live with
  | Some (reference, _) =>
      held ← get_ref reference;
      match held with
      | inr _ => mret reference
      | inl (SecretNotFound _) => bi_secret_ref <$> issue_bootstrap workspace_id
      | inl e => refuse (Config ("cannot verify runtime bootstrap: " +:+ secret_error_text e))
      end
  | None => bi_secret_ref <$> issue_bootstrap workspace_id
  end.

(** The value that was used is taken out of the provider; failures are only logged. *)
Definition retire_bootstrap (consumed : ConsumedBootstrap) : M unit :=
  delete_ref (cb_bootstrap_secret_ref consumed);;
  match cb_runtime_secret_ref consumed with
  | None => mret tt
  | Some reference =>
      held ← get_ref reference;
      match held with
      | inl _ => mret tt
      | inr raw =>
          match parse_json env raw with
          | None => mret tt
          | Some payload =>
              let payload := match payload with
                             | VObject m => VObject (object_insert "bootstrap_token" (VString "") m)
                             | other => other
                             end in
              replace_ref reference (print_json env payload);; mret tt
          end
      end
  end.

Definition register (raw_bootstrap : string) : M RuntimeSessionIssue :=
  validate_presented_secret raw_bootstrap;;
  access ← generate_secret env;
  refresh ← generate_secret env;
  access_id ← uuid_v4 env;
  refresh_id ← uuid_v4 env;
  family_id ← uuid_v4 env;
  now ← utc_now env;
  now' ← utc_now env;
  let access_expires_at := (now + ACCESS_TTL)%Z in
  let family_expires_at := (now' + REFRESH_FAMILY_TTL)%Z in
  found ← consume_bootstrap_and_insert_session env (sha256_hex env raw_bootstrap)
            access_id (sha256_hex env access) access_expires_at
            refresh_id (sha256_hex env refresh) family_id family_expires_at;
  consumed ← ok_or found (AUTH_FAILED "runtime bootstrap is invalid");
  retire_bootstrap consumed;;
  mret {| si_workspace_id := cb_workspace_id consumed; si_access_secret := access;
          si_access_expires_at := access_expires_at; si_refresh_secret := refresh;
          si_refresh_expires_at := family_expires_at; si_generation := cb_generation consumed |}.

Definition rotate (workspace_id : uuid) : M RuntimeCredentialIssue :=
  secret ← generate_secret env;
  refresh ← generate_secret env;
  id ← uuid_v4 env;
  refresh_id ← uuid_v4 env;
  family_id ← uuid_v4 env;
  now ← utc_now env;
  now' ← utc_now env;
  generation ← rotate_credential_pair env id workspace_id None (sha256_hex env secret)
                 (now + ACCESS_TTL) refresh_id (sha256_hex env refresh) family_id
                 (now' + REFRESH_FAMILY_TTL);
  mret {| ci_credential_id := id; ci_raw_secret := secret; ci_expires_at := (now + ACCESS_TTL)%Z;
          ci_generation := generation |}.

Definition authenticate_for_audience (raw_bearer expected_audience : string) : M RuntimeScope :=
  validate_presented_secret raw_bearer;;
  found ← resolve_runtime_scope env (sha256_hex env raw_bearer);
  scope ← ok_or found (AUTH_FAILED "runtime credential is invalid");
  now ← utc_now env;
  check_scope expected_audience now scope;;
  mret scope.

Definition authenticate (raw_bearer : string) : M RuntimeScope :=
  authenticate_for_audience raw_bearer WORKSPACE_AUDIENCE.

Definition authenticate_refresh (raw_bearer : string) : M RuntimeScope :=
  authenticate_for_audience raw_bearer WORKSPACE_REFRESH_AUDIENCE.

Definition refresh_session (raw_refresh : string) : M RuntimeSessionIssue :=
  scope ← authenticate_refresh raw_refresh;
  now ← utc_now env;
  require (now <? sc_credential_family_expires_at scope)%Z
    (AUTH_FAILED "runtime refresh family has expired");;
  access ← generate_secret env;
  refresh ← generate_secret env;
  access_id ← uuid_v4 env;
  refresh_id ← uuid_v4 env;
  now ← utc_now env;
  let family_expires_at := (now + REFRESH_FAMILY_TTL)%Z in
  now' ← utc_now env;
  let access_expires_at := Z.min (now' + ACCESS_TTL) family_expires_at in
  generation ← rotate_credential_pair env access_id (sc_workspace_id scope)
                 (Some (sha256_hex env raw_refresh)) (sha256_hex env access) access_expires_at
                 refresh_id (sha256_hex env refresh) (sc_credential_family_id scope) family_expires_at;
  mret {| si_workspace_id := sc_workspace_id scope; si_access_secret := access;
          si_access_expires_at := access_expires_at; si_refresh_secret := refresh;
          si_refresh_expires_at := family_expires_at; si_generation := generation |}.

Definition revoke (workspace_id : uuid) : M unit :=
  bump_workspace_generation env workspace_id;;
  revoke_workspace_credentials env workspace_id;;
  revoke_leases_for_workspace env workspace_id;;
  mret tt.

End credentials.

(** * The GitHub credential broker

    [broker.rs] of the manager's runtime, with the leases of [repository.rs]: a
    workspace that has authenticated gets a token of the GitHub App installation for
    its tenant's repository, with the permissions of its role.  No transaction is
    open while GitHub is asked; before a token is handed out its lease is recorded
    under the locks of everything the authorization rests on. *)

Definition MIN_TOKEN_VALIDITY : Z := 30 * MINUTE.
Definition INSTALLATION_TOKEN_USERNAME : string := "x-access-token".
Definition SINGLE_FLIGHT_SHARDS : nat := 64.

Record InstallationToken := {
  it_token : string;
  it_expires_at : Z;
  it_repository_ids : list Z;
  it_permissions : gmap string string;
}.

Record NewCredentialLease := {
  nl_organization_id : uuid;
  nl_connection_id : uuid;
  nl_tenant_id : option uuid;
  nl_workspace_id : option uuid;
  nl_installation_id : Z;
  nl_repository_id : Z;
  nl_permission_profile_hash : string;
  nl_connection_generation : Z;
  nl_workspace_generation : Z;
  nl_purpose : string;
  nl_token_fingerprint : string;
  nl_encrypted_ref : option string;
  nl_expires_at : Z;
}.

Record BrokerKey := {
  bk_workspace_id : uuid;
  bk_credential_id : uuid;
  bk_app_id : Z;
  bk_installation_id : Z;
  bk_repository_id : Z;
  bk_profile_hash : string;
  bk_connection_generation : Z;
  bk_workspace_generation : Z;
}.
#[export] Instance broker_key_eq_dec : EqDecision BrokerKey.
Proof. solve_decision. Defined.

(** The last exchange of a shard. *)
Record Cached := {
  ca_key : BrokerKey;
  ca_token : InstallationToken;
  ca_lease : uuid;
}.

Record BrokerCredential := {
  br_token : string;
  br_expires_at : Z;
  br_repository_id : Z;
  br_username : string;
  br_permissions : gmap string string;
}.

(** ** Checks *)

Definition validate_resource_state (scope : RuntimeScope) : M unit :=
  require (one_of ["ready"; "provisioning"] (sc_organization_status scope))
    (api "ORG_UNAVAILABLE" "organization is not available");;
  require (negb (one_of ["deleting"; "deleted"; "paused"] (sc_tenant_desired_state scope) ||
                 gone (sc_tenant_observed_state scope)))
    (api "TENANT_UNAVAILABLE" "tenant is not available");;
  let wanted := one_of ["running"; "provisioning"] (sc_workspace_desired_state scope) in
  let workspace_is_running := bool_decide (sc_workspace_observed_state scope = "running") && wanted in
  let workspace_is_registering :=
    is_some (sc_workspace_registered_at scope) && wanted &&
    one_of ["provisioning"; "stopped"] (sc_workspace_observed_state scope) in
  require (workspace_is_running || workspace_is_registering)
    (api "WORKSPACE_UNAVAILABLE" "workspace is not available for runtime access");;
  require (bool_decide (sc_connection_status scope = "active"))
    (api "CONNECTION_UNAVAILABLE" "GitHub connection is not active");;
  require (sc_repository_accessible scope)
    (api "REPOSITORY_UNAVAILABLE" "repository is not accessible").

Definition validate_token (token : InstallationToken) (profile : PermissionProfile) (repository_id now : Z) :
    M unit :=
  require (bool_decide ((list_to_set (it_repository_ids token) : gset Z) = {[ repository_id ]}))
    (api "GITHUB_UNAVAILABLE" "GitHub returned a different repository scope than requested");;
  require (grants_match (it_permissions token) (to_wire (pp_permissions profile)))
    (api "GITHUB_UNAVAILABLE" "GitHub returned different permissions than requested");;
  require (MIN_TOKEN_VALIDITY <=? it_expires_at token - now)%Z
    (api "GITHUB_UNAVAILABLE" "GitHub returned an invalid token expiry").

(** ** Leases *)

(** The condition under which a lease is recorded, on the rows as they are now. *)
Definition workspace_open (w : Workspace) : bool :=
  one_of ["running"; "provisioning"] (w_desired_state w) &&
  (bool_decide (w_observed_state w = "running") ||
   (one_of ["provisioning"; "stopped"] (w_observed_state w) && is_some (w_registered_at w))).

Definition credential_live (scope : RuntimeScope) (t : Z) (rc : RuntimeCredential) : bool :=
  of_workspace (sc_workspace_id scope) rc &&
  (rc_generation rc =? sc_workspace_generation scope)%Z &&
  bool_decide (rc_audience rc = WORKSPACE_AUDIENCE) && is_none (rc_revoked_at rc) &&
  (t <? rc_expires_at rc)%Z.

Definition chain_open (scope : RuntimeScope) (h : Chain) : bool :=
  bool_decide (t_organization_id (ch_tenant h) = sc_organization_id scope) &&
  bool_decide (w_tenant_id (ch_workspace h) = sc_tenant_id scope) &&
  bool_decide (t_connection_id (ch_tenant h) = sc_connection_id scope) &&
  (t_github_repository_id (ch_tenant h) =? sc_repository_id scope)%Z &&
  (c_installation_id (ch_connection h) =? sc_installation_id scope)%Z &&
  (c_access_generation (ch_connection h) =? sc_connection_generation scope)%Z &&
  (w_credential_generation (ch_workspace h) =? sc_workspace_generation scope)%Z &&
  one_of ["ready"; "provisioning"] (o_status (ch_organization h)) &&
  bool_decide (c_status (ch_connection h) = "active") &&
  one_of ["running"; "provisioning"] (t_desired_state (ch_tenant h)) &&
  negb (gone (t_observed_state (ch_tenant h))) &&
  workspace_open (ch_workspace h) &&
  bool_decide (w_role (ch_workspace h) = sc_workspace_role scope) &&
  r_accessible (ch_repository h).

Definition still_authorized (scope : RuntimeScope) (t : Z) (d : Db) : bool :=
  is_some_and (chain_open scope) (chain_of (sc_workspace_id scope) d) &&
  is_some_and (credential_live scope t) (runtime_credentials d !! sc_credential_id scope).

(** The lease under which a cached token was handed out. *)
Definition lease_live (scope : RuntimeScope) (fingerprint : string) (t : Z) (l : LeaseRow) : bool :=
  bool_decide (cr_workspace_id l = Some (sc_workspace_id scope)) &&
  bool_decide (cr_connection_id l = sc_connection_id scope) && is_none (cr_revoked_at l) &&
  (t <? cr_expires_at l)%Z && bool_decide (cr_token_fingerprint l = fingerprint).

Definition lease_row (l : NewCredentialLease) : LeaseRow :=
  {| cr_organization_id := nl_organization_id l; cr_connection_id := nl_connection_id l;
     cr_tenant_id := nl_tenant_id l; cr_workspace_id := nl_workspace_id l;
     cr_installation_id := nl_installation_id l; cr_repository_id := nl_repository_id l;
     cr_permission_profile_hash := nl_permission_profile_hash l;
     cr_connection_generation := nl_connection_generation l;
     cr_workspace_generation := nl_workspace_generation l; cr_purpose := Some (nl_purpose l);
     cr_token_fingerprint := nl_token_fingerprint l; cr_encrypted_ref := nl_encrypted_ref l;
     cr_expires_at := nl_expires_at l; cr_revoked_at := None |}.

Definition AUTH_CHANGED (message : string) : ManagerError := api "AUTH_CHANGED" message.

Section leases.
Context (env : Env).

Definition insert_lease_in_tx (l : NewCredentialLease) : M uuid :=
  id ← uuid_v4 env;
  sql env (λ _ _ d,
    match organizations d !! nl_organization_id l with
    | None => inl (Violates "credential_leases_organization_id_fkey")
    | Some _ =>
        match insert_row "credential_leases_pkey" id (lease_row l) (credential_leases d) with
        | inl e => inl e
        | inr tab => inr (tt, on_credential_leases (λ _, tab) d)
        end
    end);;
  mret id.

Definition insert_lease (l : NewCredentialLease) : M uuid :=
  transaction env (id ← insert_lease_in_tx l; mret (Commit id)).

(** The rows of the organization, the connection, the tenant, the workspace and the
    credential are locked first. *)
Definition record_authorized_lease (scope : RuntimeScope) (l : NewCredentialLease) (existing : option uuid) :
    M uuid :=
  transaction env (
    valid ← query env (λ _ t d, still_authorized scope t d);
    require valid (AUTH_CHANGED "runtime authorization changed");;
    match existing with
    | Some id =>
        valid ← query env (λ _ t d,
          is_some_and (lease_live scope (nl_token_fingerprint l) t) (credential_leases d !! id));
        require valid (AUTH_CHANGED "credential lease is no longer valid");;
        mret (Commit id)
    | None => id ← insert_lease_in_tx l; mret (Commit id)
    end).

Definition lease_generations_current (lease_id : uuid) (connection_generation workspace_generation : Z) :
    M bool :=
  on_pool env (query env (λ _ _ d,
    match credential_leases d !! lease_id with
    | None => false
    | Some l =>
        match github_connections d !! cr_connection_id l, cr_workspace_id l ≫= λ w, workspaces d !! w with
        | Some c, Some w =>
            (c_access_generation c =? connection_generation)%Z &&
            (w_credential_generation w =? workspace_generation)%Z &&
            bool_decide (c_status c = "active") && bool_decide (w_observed_state w = "running") &&
            one_of ["running"; "provisioning"] (w_desired_state w) &&
            is_none (cr_revoked_at l) && (cr_connection_generation l =? connection_generation)%Z &&
            (cr_workspace_generation l =? workspace_generation)%Z
        | _, _ => false
        end
    end)).

End leases.

(** ** Exchange *)

(** GitHub and the cipher, by the moment they are asked, and the standard hasher. *)
Record BrokerDeps := {
  sign : nat → ManagerError + string;
  exchange_installation_token : nat → string → Z → list Z → gmap string string →
                                ManagerError + InstallationToken;
  seal_token : nat → string → ManagerError + string;
  hash_key : BrokerKey → nat;
}.

Section exchange.
Context (env : Env) (deps : BrokerDeps) (app_id : Z).

Definition shard_for (key : BrokerKey) : nat := Nat.modulo (hash_key deps key) SINGLE_FLIGHT_SHARDS.

(** An answer from outside. *)
Definition outside {A} (f : nat → ManagerError + A) : M A := λ s,
  (match f (moment s) with inl e => Refused e | inr a => Done a end, tick s).

Definition record_lease (scope : RuntimeScope) (profile : PermissionProfile) (purpose : RuntimePurpose)
    (token : InstallationToken) (existing : option uuid) : M uuid :=
  encrypted ← outside (λ n, seal_token deps n (it_token token));
  record_authorized_lease env scope
    {| nl_organization_id := sc_organization_id scope; nl_connection_id := sc_connection_id scope;
       nl_tenant_id := Some (sc_tenant_id scope); nl_workspace_id := Some (sc_workspace_id scope);
       nl_installation_id := sc_installation_id scope; nl_repository_id := sc_repository_id scope;
       nl_permission_profile_hash := pp_profile_hash profile;
       nl_connection_generation := sc_connection_generation scope;
       nl_workspace_generation := sc_workspace_generation scope;
       nl_purpose := purpose_str purpose;
       nl_token_fingerprint := sha256_hex env (it_token token);
       nl_encrypted_ref := Some encrypted; nl_expires_at := it_expires_at token |} existing.

Definition broker_key (scope : RuntimeScope) (profile : PermissionProfile) : BrokerKey :=
  {| bk_workspace_id := sc_workspace_id scope; bk_credential_id := sc_credential_id scope;
     bk_app_id := app_id; bk_installation_id := sc_installation_id scope;
     bk_repository_id := sc_repository_id scope; bk_profile_hash := pp_profile_hash profile;
     bk_connection_generation := sc_connection_generation scope;
     bk_workspace_generation := sc_workspace_generation scope |}.

(** The cached exchange, when it is of this key and its token lasts. *)
Definition reusable (key : BrokerKey) (guard : option Cached) : M (option Cached) :=
  match guard with
  | Some c =>
      if bool_decide (ca_key c = key) then
        now ← utc_now env;
        mret (if (MIN_TOKEN_VALIDITY <? it_expires_at (ca_token c) - now)%Z then Some c else None)
      else mret None
  | None => mret None
  end.

(** From a token to its lease and the audit row. *)
Definition issue_lease (scope : RuntimeScope) (profile : PermissionProfile) (purpose : RuntimePurpose)
    (token : InstallationToken) (existing : option uuid) (rid : string) : M uuid :=
  now ← utc_now env;
  validate_token token profile (sc_repository_id scope) now;;
  lease ← record_lease scope profile purpose token existing;
  on_pool env (audit env (audit_new "runtime.github_credential_issued"
                            ▷ organization (sc_organization_id scope) ▷ actor_type "runtime"
                            ▷ resource "workspace" (sc_workspace_id scope) ▷ with_result Success
                            ▷ request_id rid));;
  mret lease.

(** With the shard's lock held: the shard's new content and the answer.  What fails
    before a token is there leaves the shard as it was. *)
Definition exchange_locked (guard : option Cached) (scope : RuntimeScope) (profile : PermissionProfile)
    (purpose : RuntimePurpose) (rid : string) : M (option Cached * (ManagerError + BrokerCredential)) :=
  let key := broker_key scope profile in
  cached ← reusable key guard;
  jwt ← outside (sign deps);
  '(token, existing) ←
    match cached with
    | Some c => mret (ca_token c, Some (ca_lease c))
    | None =>
        token ← outside (λ n, exchange_installation_token deps n jwt (sc_installation_id scope)
                                [sc_repository_id scope] (to_wire (pp_permissions profile)));
        mret (token, None)
    end;
  result ← attempt (issue_lease scope profile purpose token existing rid);
  match result with
  | inr lease =>
      mret (Some {| ca_key := key; ca_token := token; ca_lease := lease |},
            inr {| br_token := it_token token; br_expires_at := it_expires_at token;
                   br_repository_id := sc_repository_id scope; br_username := INSTALLATION_TOKEN_USERNAME;
                   br_permissions := it_permissions token |})
  | inl error =>
      (match existing with
       | None => ask (RevokeInstallationToken (sc_installation_id scope) (it_token token))
       | Some _ => mret tt
       end);;
      mret (None, inl error)
  end.

Abbreviation Shards := (gmap nat Cached) (only parsing).

Definition exchange (inflight : Shards) (scope : RuntimeScope) (purpose : RuntimePurpose) (rid : string) :
    M (Shards * (ManagerError + BrokerCredential)) :=
  validate_resource_state scope;;
  profile ← check (resolve_profile env (sc_workspace_role scope) purpose);
  let shard := shard_for (broker_key scope profile) in
  '(guard, answer) ← exchange_locked (inflight !! shard) scope profile purpose rid;
  mret (match guard with Some c => <[shard := c]> inflight | None => base.delete shard inflight end, answer).

End exchange.
