(* ===== verification/Tenants.v ===== *)
(** * Tenants and their workers

    [tenants/service.rs], [repositories/tenants.rs] and [runtime/workspaces.rs] of the
    manager: founding a tenant on a repository, starting, stopping, cleaning and
    deleting it, and the worker workspaces its controller asks for. *)
From S2P Require Import Prelude Text Json Schema Database Operations Outbox Idempotency Pagination.
From S2P Require Import Organizations OrgRepo OrgService Runtime.

Definition TENANT_CREATE_ROUTE : string := "/api/v1/organizations/{org}/tenants".
Definition TENANT_DELETE_ROUTE : string := "/api/v1/organizations/{org}/tenants/{tenant}".

(** [TENANT_ACTION_ROUTE.replace("{action}", action)]. *)
Definition action_route (action : string) : string :=
  "/api/v1/organizations/{org}/tenants/{tenant}/" +:+ action.

Definition validate_tenant_slug (slug : string) : ManagerError + unit :=
  let cs := chars slug in
  if (1 <=? length cs)%nat && (length cs <=? 63)%nat &&
     is_some_and slug_char (head cs) && is_some_and slug_char (last cs) &&
     forallb (λ c, slug_char c || char_eqb c "-") cs
  then inr tt
  else inl (InvalidInput
    "tenant name must be 1-63 chars of lowercase letters, digits, or hyphens, and start/end alphanumeric").

(** ** The repository *)

(** A tenant holds its name and its repository until it is deleted in both respects. *)
Definition holds_name (t : Tenant) : bool :=
  negb (bool_decide (t_desired_state t = "deleted")) ||
  negb (bool_decide (t_observed_state t = "deleted")).

Definition new_tenant (org : uuid) (slug : string) (connection : uuid) (repository fleet now : Z) : Tenant :=
  {| t_organization_id := org; t_slug := slug; t_connection_id := connection;
     t_github_repository_id := repository; t_fleet_size := fleet; t_desired_state := "provisioning";
     t_observed_state := "provisioning"; t_error_code := None; t_owner_user_id := None;
     t_reserved_worker_capacity := 0; t_created_at := now; t_updated_at := now |}.

(** [INSERT INTO tenants] with its checks and partial unique indexes. *)
Definition insert_tenant (id : uuid) (t : Tenant) (d : Db) : SqlError + unit * Db :=
  if (t_fleet_size t <? 1)%Z then inl (Violates "tenants_fleet_size_check")
  else if negb (is_some_and (λ r, bool_decide (r_organization_id r = t_organization_id t))
                  (github_repositories d !! (t_connection_id t, t_github_repository_id t)))
  then inl (Violates "tenants_scoped_repository")
  else if exists_row (λ _ x, holds_name x && bool_decide (t_organization_id x = t_organization_id t) &&
                             (t_github_repository_id x =? t_github_repository_id t)%Z) (tenants d)
  then inl (Violates "tenants_organization_id_github_repository_id_key")
  else if exists_row (λ _ x, holds_name x && bool_decide (t_organization_id x = t_organization_id t) &&
                             bool_decide (t_slug x = t_slug t)) (tenants d)
  then inl (Violates "tenants_organization_id_slug_key")
  else match insert_row "tenants_pkey" id t (tenants d) with
       | inl e => inl e
       | inr tab => inr (tt, on_tenants (λ _, tab) d)
       end.

Definition translate_tenant_insert (slug : string) (e : SqlError) : ManagerError :=
  match e with
  | Violates "tenants_organization_id_github_repository_id_key" =>
      Conflict "one live tenant already exists for this repository"
  | Violates "tenants_organization_id_slug_key" =>
      Conflict ("a tenant with slug '" +:+ slug +:+ "' already exists in this organization")
  | e => Database e
  end.

Definition scoped_tenant (org id : uuid) (d : Db) : option Tenant :=
  match tenants d !! id with
  | Some t => if bool_decide (t_organization_id t = org) then Some t else None
  | None => None
  end.

Section repository.
Context (env : Env).

Definition create_with_id_in_tx (id org : uuid) (slug : string) (connection : uuid) (repository fleet : Z) :
    M uuid :=
  owned ← query env (λ _ _ d,
    is_some_and (λ r, bool_decide (r_organization_id r = org)) (github_repositories d !! (connection, repository)));
  require owned (not_found "repository");;
  translate (translate_tenant_insert slug)
    (sql env (λ now _ d, insert_tenant id (new_tenant org slug connection repository fleet now) d));;
  mret id.

Definition get_scoped (org id : uuid) : M (option Tenant) :=
  on_pool env (query env (λ _ _ d, scoped_tenant org id d)).

End repository.

(** Oldest first, [(created_at, id) > (cursor)]. *)
Definition tenant_key (x : uuid * Tenant) : Z * string := (t_created_at x.2, x.1).
Definition older_first (a b : Z * string) : bool :=
  (a.1 <? b.1)%Z || ((a.1 =? b.1)%Z && String.leb a.2 b.2).
Definition after_cursor (after : option Cursor) (k : Z * string) : bool :=
  null_or (λ c, (cu_created_at c <? k.1)%Z ||
                ((cu_created_at c =? k.1)%Z && String.ltb (cu_tiebreaker c) k.2)) after.

Section listing.
Context (env : Env) (codec : Codec).

Definition list_scoped (org : uuid) (limit : Z) (after : option Cursor) : M (Page (uuid * Tenant)) :=
  match after with
  | Some c => require (is_some (parse_uuid env (cu_tiebreaker c))) MALFORMED
  | None => mret tt
  end;;
  found ← on_pool env (query env (λ _ _ d,
    take (Z.to_nat (limit + 1))
      (order_by (λ a b, older_first (tenant_key a) (tenant_key b))
         (rows (λ id t, bool_decide (t_organization_id t = org) &&
                        negb (bool_decide (t_desired_state t = "deleted")) &&
                        after_cursor after (tenant_key (id, t))) (tenants d)))));
  mret (from_fetch codec found limit (λ x, cursor_for (t_created_at x.2) x.1)).
End listing.

(** ** The service *)

Record TenantOperationResponse := {
  tr_operation_id : uuid;
  tr_resource_id : uuid;
  tr_status : string;
}.

(** The active connection of a repository that the organization can reach. *)
Definition reachable_connection (org : uuid) (repository : Z) (d : Db) : option uuid :=
  head (omap (λ kr : uuid * Z * Repository,
    let '(connection, id, r) := kr in
    if bool_decide (r_organization_id r = org) && (id =? repository)%Z && r_accessible r &&
       is_some_and (λ c, bool_decide (c_organization_id c = r_organization_id r) &&
                         bool_decide (c_status c = "active")) (github_connections d !! connection)
    then Some connection else None) (map_to_list (github_repositories d))).

(** What a tenant's workspaces hold. *)
Definition of_tenant (tenant : uuid) (d : Db) (rc : RuntimeCredential) : bool :=
  is_some_and (λ w, bool_decide (w_tenant_id w = tenant)) (workspaces d !! rc_workspace_id rc).

(** [UPDATE .. WHERE id = ..] of a tenant, and of its workspaces. *)
Definition set_tenant (tenant : uuid) (f : Tenant → Tenant) (d : Db) : Db :=
  on_tenants (λ tab, (update_one tenant (λ _, true) f tab).2) d.
Definition set_workspaces (p : Workspace → bool) (f : Workspace → Workspace) (d : Db) : Db :=
  on_workspaces (update (λ _ w, p w) f) d.

Definition unfinished (o : OperationRecord) : bool :=
  one_of ["queued"; "running"; "retryable_failed"] (op_state o).

Section service.
Context (env : Env) (codec : Codec) (limits : TenantLimits).

Definition parse_reference (reference : string) : TenantOperationResponse :=
  let parts := split_on (λ c, char_eqb c ":") reference in
  {| tr_operation_id := default NIL_UUID (parse_uuid env (default "" (parts !! 1)));
     tr_resource_id := default NIL_UUID (parse_uuid env (default "" (parts !! 0)));
     tr_status := "queued" |}.

Definition record_tenant (action : string) (org caller tenant : uuid) (rid : string) : M unit :=
  audit env (audit_new action ▷ organization org ▷ actor caller ▷ resource "tenant" tenant
               ▷ with_result Success ▷ request_id rid).

Definition enqueue (org tenant : uuid) (kind key : string) : M uuid :=
  create_in_tx env
    {| no_organization_id := org; no_resource_type := "tenant"; no_resource_id := Some tenant;
       no_kind := kind; no_idempotency_ref := Some key |}.

(** The mutation of [create_tenant]. *)
Definition found_tenant (tenant actor org : uuid) (repository : Z) (slug : string) (fleet : Z)
    (key rid : string) : M string :=
  row ← query env (λ _ _ d, o_status <$> organizations d !! org);
  status ← fetch_one row;
  require (bool_decide (status = "ready"))
    (api "ORG_UNAVAILABLE" "organization is not ready for tenant creation");;
  found ← query env (λ _ _ d, reachable_connection org repository d);
  connection ← ok_or found (not_found "repository");
  ensure_org_row_in_tx env limits org;;
  check_and_reserve_tenant_in_tx env org;;
  create_with_id_in_tx env tenant org slug connection repository fleet;;
  linked ← query env (λ _ _ d, is_some (coder_user_links d !! actor));
  require linked (api "CODER_ACCOUNT_LINK_REQUIRED"
    "Connect your GitHub-backed Coder account before creating a tenant");;
  execute env (λ _ _ d, (tt, set_tenant tenant (t_set_owner_user_id (Some actor)) d));;
  op ← enqueue org tenant "tenant.provision" key;
  record_tenant "tenant.create" org actor tenant rid;;
  mret (tenant +:+ ":" +:+ op +:+ ":queued").

Definition create_tenant (actor org : uuid) (repository : Z) (slug : string) (fleet : Z) (key rid : string) :
    M TenantOperationResponse :=
  check (validate_tenant_slug slug);;
  require (1 <=? fleet)%Z (InvalidInput "fleet must be at least 1 worker");;
  '(membership, state) ← OrgRepo.membership_and_org env org actor;
  Policy.require_developer membership state;;
  tenant ← uuid_v4 env;
  outcome ← execute_once env
    {| ir_actor_id := actor; ir_organization_id := Some org; ir_route := TENANT_CREATE_ROUTE;
       ir_key := key;
       ir_request_hash := hash_request env
         (VObject [("fleet", json_i64 fleet); ("repository_id", json_i64 repository);
                   ("slug", VString slug)]) |}
    (found_tenant tenant actor org repository slug fleet key rid);
  mret (parse_reference (reference_of outcome)).

Definition list_tenants (actor org : uuid) (limit : Z) (after : option string) : M (Page (uuid * Tenant)) :=
  '(membership, state) ← OrgRepo.membership_and_org env org actor;
  Policy.require_member membership state;;
  cursor ← match after with
           | None => mret None
           | Some a => match decode codec a with
                       | inr c => mret (Some c)
                       | inl _ => refuse MALFORMED
                       end
           end;
  list_scoped env codec org limit cursor.

Definition get_tenant (actor org tenant : uuid) : M Tenant :=
  '(membership, state) ← OrgRepo.membership_and_org env org actor;
  Policy.require_member membership state;;
  row ← get_scoped env org tenant;
  ok_or row (not_found "tenant").

(** The unfinished deletion of a tenant, newest first. *)
Definition pending_deletion (org tenant : uuid) (d : Db) : option uuid :=
  fst <$> head (order_by (λ a b, by_creation b a)
    (rows (λ _ o, bool_decide (op_organization_id o = org) &&
                  bool_decide (op_resource_id o = Some tenant) &&
                  bool_decide (op_kind o = "tenant.delete") && unfinished o) (operations d))).

(** From here on nothing of the tenant is let in. *)
Definition withdraw_access (tenant : uuid) : M unit :=
  execute env (λ _ t d, (tt, revoke_credentials (of_tenant tenant d) t d));;
  execute env (λ _ t d, (tt, revoke_leases (λ l, bool_decide (cr_tenant_id l = Some tenant)) t d));;
  execute env (λ _ t d, (tt, on_tenant_redis_credentials (λ tab,
    (update_one tenant (λ r, is_none (rd_revoked_at r)) (rd_set_revoked_at (Some t)) tab).2) d));;
  execute env (λ _ t d, (tt, on_tenant_hook_keys (λ tab,
    (update_one tenant (λ k, is_none (hk_revoked_at k)) (hk_set_revoked_at (Some t)) tab).2) d)).

(** The mutation of [delete_tenant]. *)
Definition mark_deleting (actor org tenant : uuid) (key rid : string) : M string :=
  row ← query env (λ _ _ d, t_desired_state <$> scoped_tenant org tenant d);
  current ← ok_or row (not_found "tenant");
  require (negb (bool_decide (current = "deleted"))) (Conflict "tenant is already deleted");;
  existing ← (if bool_decide (current = "deleting")
              then query env (λ _ _ d, pending_deletion org tenant d) else mret None);
  match existing with
  | Some id => mret id
  | None =>
      execute env (λ now _ d,
        (tt, on_tenants (λ tab, (update_one tenant (λ t, bool_decide (t_organization_id t = org))
               (λ t, t ▷ t_set_desired_state "deleting" ▷ t_set_updated_at now) tab).2) d));;
      withdraw_access tenant;;
      op ← enqueue org tenant "tenant.delete" key;
      record_tenant "tenant.delete" org actor tenant rid;;
      mret op
  end.

Definition INVALID_REFERENCE : ManagerError := Conflict "stored operation reference is invalid".

Definition delete_tenant (actor org tenant : uuid) (key rid : string) : M uuid :=
  '(membership, state) ← OrgRepo.membership_and_org env org actor;
  Policy.require_admin membership state;;
  row ← get_scoped env org tenant;
  ok_or row (not_found "tenant");;
  outcome ← execute_once env
    {| ir_actor_id := actor; ir_organization_id := Some org; ir_route := TENANT_DELETE_ROUTE;
       ir_key := key;
       ir_request_hash := hash_request env (VObject [("tenant_id", VString tenant)]) |}
    (mark_deleting actor org tenant key rid);
  ok_or (parse_uuid env (reference_of outcome)) INVALID_REFERENCE.

(** *** Starting, stopping and cleaning *)

Definition repository_open (org tenant : uuid) (d : Db) : bool :=
  match scoped_tenant org tenant d with
  | Some t =>
      is_some_and (λ c, bool_decide (c_status c = "active")) (github_connections d !! t_connection_id t) &&
      is_some_and (λ r, bool_decide (r_organization_id r = t_organization_id t) && r_accessible r)
        (github_repositories d !! (t_connection_id t, t_github_repository_id t))
  | None => false
  end.

Definition apply_action (org tenant : uuid) (action desired observed : string) : M string :=
  if bool_decide (action = "start") then
    require (negb (bool_decide (desired = "provisioning") || bool_decide (observed = "provisioning")))
      (Conflict "tenant provisioning is still in progress");;
    accessible ← query env (λ _ _ d, repository_open org tenant d);
    require accessible
      (api "REPOSITORY_UNAVAILABLE" "repository access must be restored before starting");;
    execute env (λ now _ d,
      (tt, set_tenant tenant (λ t, t ▷ t_set_desired_state "running" ▷ t_set_updated_at now) d));;
    execute env (λ now _ d,
      (tt, set_workspaces (λ w, bool_decide (w_tenant_id w = tenant) &&
                                bool_decide (w_desired_state w = "stopped"))
             (λ w, w ▷ w_set_desired_state "running" ▷ w_set_updated_at now) d));;
    mret "tenant.start"
  else if bool_decide (action = "stop") then
    execute env (λ now _ d,
      (tt, set_tenant tenant (λ t, t ▷ t_set_desired_state "paused" ▷ t_set_updated_at now) d));;
    execute env (λ now _ d,
      (tt, set_workspaces (λ w, bool_decide (w_tenant_id w = tenant) &&
                                negb (bool_decide (w_desired_state w = "deleted")))
             (λ w, w ▷ w_set_desired_state "stopped" ▷ w_set_updated_at now) d));;
    execute env (λ _ t d, (tt, revoke_credentials (of_tenant tenant d) t d));;
    mret "tenant.stop"
  else if bool_decide (action = "clean") then mret "tenant.clean"
  else if bool_decide (action = "clean-all") then mret "tenant.clean_all"
  else refuse (InvalidInput "invalid action").

(** The mutation of [enqueue_action]. *)
Definition act (actor org tenant : uuid) (action key rid : string) : M string :=
  row ← query env (λ _ _ d, (λ t, (t_desired_state t, t_observed_state t)) <$> scoped_tenant org tenant d);
  '(desired, observed) ← ok_or row (not_found "tenant");
  require (negb (gone desired)) (Conflict "tenant is being deleted");;
  kind ← apply_action org tenant action desired observed;
  op ← enqueue org tenant kind key;
  record_tenant kind org actor tenant rid;;
  mret op.

Definition enqueue_action (actor org tenant : uuid) (action : string) (admin_only : bool) (key rid : string) :
    M uuid :=
  '(membership, state) ← OrgRepo.membership_and_org env org actor;
  (if admin_only then Policy.require_admin membership state
   else Policy.require_developer membership state);;
  outcome ← execute_once env
    {| ir_actor_id := actor; ir_organization_id := Some org; ir_route := action_route action;
       ir_key := key;
       ir_request_hash := hash_request env
         (VObject [("action", VString action); ("tenant_id", VString tenant)]) |}
    (act actor org tenant action key rid);
  ok_or (parse_uuid env (reference_of outcome)) INVALID_REFERENCE.

Definition start_tenant (actor org tenant : uuid) (key rid : string) : M uuid :=
  enqueue_action actor org tenant "start" false key rid.
Definition stop_tenant (actor org tenant : uuid) (key rid : string) : M uuid :=
  enqueue_action actor org tenant "stop" false key rid.
Definition clean_tenant (actor org tenant : uuid) (reset_all : bool) (key rid : string) : M uuid :=
  enqueue_action actor org tenant (if reset_all then "clean-all" else "clean") true key rid.

End service.

(** *** Status *)

Section status.
Context (env : Env).

(** [GROUP BY observed_state ORDER BY observed_state]. *)
Definition grouped (states : list string) : list (string * nat) :=
  (λ s, (s, length (filter (λ x, x = s) states))) <$>
  order_by String.leb (remove_dups states).

Definition timestamp (o : option Z) : Value := match o with Some z => json_i64 z | None => VNull end.

Definition health_of (desired : string) (fresh registered session_valid : bool) : string :=
  if negb (bool_decide (desired = "running")) then "inactive"
  else if fresh then "healthy"
  else if negb registered then "starting"
  else if session_valid then "unresponsive"
  else "restart_required".

Definition runtime_health (org tenant : uuid) (desired : string) : M Value :=
  nexus ← on_pool env (query env (λ _ t d,
    match head (order_by (λ a b : uuid * Workspace, (w_created_at b.2 <=? w_created_at a.2)%Z)
            (rows (λ _ w, bool_decide (w_organization_id w = org) && bool_decide (w_tenant_id w = tenant) &&
                          bool_decide (w_role w = "nexus") &&
                          negb (bool_decide (w_desired_state w = "deleted"))) (workspaces d))) with
    | Some (id, w) =>
        (w_registered_at w, w_last_heartbeat_at w,
         is_some_and (λ h, t - 2 * MINUTE <? h)%Z (w_last_heartbeat_at w),
         exists_row (λ _ rc, of_workspace id rc && bool_decide (rc_audience rc = WORKSPACE_REFRESH_AUDIENCE) &&
                             (rc_generation rc =? w_credential_generation w)%Z && is_none (rc_revoked_at rc) &&
                             (t <? rc_expires_at rc)%Z) (runtime_credentials d))
    | None => (None, None, false, false)
    end));
  let '(registered_at, last_heartbeat_at, fresh, session_valid) := nexus in
  mret (VObject [("health", VString (health_of desired fresh (is_some registered_at) session_valid));
                 ("last_heartbeat_at", timestamp last_heartbeat_at);
                 ("registered_at", timestamp registered_at)]).

(** Unfinished work first, then the newest. *)
Definition by_interest (a b : uuid * OperationRecord) : bool :=
  match unfinished a.2, unfinished b.2 with
  | true, false => true
  | false, true => false
  | _, _ => newer_first (op_created_at a.2, a.1) (op_created_at b.2, b.1)
  end.

Definition tenant_status (actor org tenant : uuid) : M Value :=
  t ← get_tenant env actor org tenant;
  states ← on_pool env (query env (λ _ _ d,
    grouped (w_observed_state <$> (rows (λ _ w, bool_decide (w_organization_id w = org) &&
                                             bool_decide (w_tenant_id w = tenant)) (workspaces d)).*2)));
  latest ← on_pool env (query env (λ _ _ d,
    head (order_by by_interest
      (rows (λ _ o, bool_decide (op_organization_id o = org) &&
                    bool_decide (op_resource_id o = Some tenant)) (operations d)))));
  runtime ← runtime_health org tenant (t_desired_state t);
  mret (VObject
    [("latest_operation",
      match latest with
      | Some (id, o) => VObject [("error_code", nullable (op_error_code o)); ("id", VString id);
                                 ("state", VString (op_state o))]
      | None => VNull
      end);
     ("runtime", runtime); ("tenant_id", VString tenant);
     ("workspaces", VArray ((λ sn, VObject [("count", VPosInt (N.of_nat sn.2)); ("state", VString sn.1)])
                              <$> states))]).
End status.

(** ** Worker workspaces *)

Definition WORKER_ROLES : list string := ["forge"; "sentinel"; "vessel"; "lore"].

Definition deletion_started (desired observed : string) : bool := gone desired || gone observed.

Record RuntimeWorkspaceResponse := {
  wr_workspace_id : uuid;
  wr_operation_id : uuid;
  wr_status : string;
}.

Definition queued_response (workspace operation : uuid) : RuntimeWorkspaceResponse :=
  {| wr_workspace_id := workspace; wr_operation_id := operation; wr_status := "queued" |}.

Definition new_workspace (org tenant : uuid) (role : string) (slot : option Z) (now : Z) : Workspace :=
  {| w_organization_id := org; w_tenant_id := tenant; w_role := role; w_slot := slot;
     w_ticket_id := None; w_branch := None; w_coder_workspace_id := None;
     w_desired_state := "provisioning"; w_observed_state := "provisioning";
     w_credential_generation := 0; w_runtime_secret_ref := None; w_a2a_pair_token := None;
     w_registered_at := None; w_last_heartbeat_at := None; w_created_at := now; w_updated_at := now |}.

(** [workspaces_live_slot] ([NULLS NOT DISTINCT]) and [workspaces_one_live_role_slot]
    ([COALESCE(slot, -1)]). *)
Definition live_slot (w x : Workspace) : bool :=
  (negb (bool_decide (w_desired_state x = "deleted")) || negb (bool_decide (w_observed_state x = "deleted"))) &&
  bool_decide (w_tenant_id x = w_tenant_id w) && bool_decide (w_role x = w_role w) &&
  bool_decide (w_slot x = w_slot w).
Definition live_role_slot (w x : Workspace) : bool :=
  negb (bool_decide (w_desired_state x = "deleted")) &&
  bool_decide (w_tenant_id x = w_tenant_id w) && bool_decide (w_role x = w_role w) &&
  (default (-1) (w_slot x) =? default (-1) (w_slot w))%Z.

Definition insert_workspace_row (id : uuid) (w : Workspace) (d : Db) : SqlError + unit * Db :=
  if negb (one_of ("nexus" :: WORKER_ROLES) (w_role w)) then inl (Violates "workspaces_role_check")
  else if is_none (scoped_tenant (w_organization_id w) (w_tenant_id w) d)
  then inl (Violates "workspaces_organization_id_tenant_id_fkey")
  else if exists_row (λ _ x, live_slot w x) (workspaces d) then inl (Violates "workspaces_live_slot")
  else if exists_row (λ _ x, live_role_slot w x) (workspaces d)
  then inl (Violates "workspaces_one_live_role_slot")
  else match insert_row "workspaces_pkey" id w (workspaces d) with
       | inl e => inl e
       | inr tab => inr (tt, on_workspaces (λ _, tab) d)
       end.

Definition scoped_workspace (org tenant id : uuid) (d : Db) : option Workspace :=
  match workspaces d !! id with
  | Some w => if bool_decide (w_organization_id w = org) && bool_decide (w_tenant_id w = tenant)
              then Some w else None
  | None => None
  end.

Section workspaces.
Context (env : Env).

Definition insert_workspace_in_tx (org tenant : uuid) (role : string) (slot : option Z) : M uuid :=
  id ← uuid_v4 env;
  sql env (λ now _ d, insert_workspace_row id (new_workspace org tenant role slot now) d);;
  mret id.

Definition insert_workspace (org tenant : uuid) (role : string) (slot : option Z) : M uuid :=
  id ← uuid_v4 env;
  on_pool env (sql env (λ now _ d, insert_workspace_row id (new_workspace org tenant role slot now) d));;
  mret id.

Definition ensure_workspace (org tenant : uuid) (role : string) (slot : option Z) : M uuid :=
  existing ← on_pool env (query env (λ _ _ d,
    head (order_by (λ a b : uuid * Workspace, (w_created_at a.2 <=? w_created_at b.2)%Z)
      (rows (λ _ w, bool_decide (w_organization_id w = org) && bool_decide (w_tenant_id w = tenant) &&
                    bool_decide (w_role w = role) && bool_decide (w_slot w = slot) &&
                    negb (bool_decide (w_desired_state w = "deleted"))) (workspaces d)))));
  match existing with
  | Some (id, _) => mret id
  | None => insert_workspace org tenant role slot
  end.

(** [UPDATE workspaces SET .. WHERE id = ..] of an optional column. *)
Definition note_if {A} (o : option A) (f : A → Workspace → Workspace) (id : uuid) : M unit :=
  match o with
  | Some a => execute env (λ _ _ d, (tt, on_workspaces (λ tab, (update_one id (λ _, true) (f a) tab).2) d))
  | None => mret tt
  end.

(** The earlier request with this key. *)
Definition earlier_request (scope : RuntimeScope) (key : string) (d : Db) : option (uuid * uuid) :=
  head (omap (λ x : uuid * OperationRecord,
    ws ← op_resource_id x.2;
    w ← workspaces d !! ws;
    if bool_decide (w_tenant_id w = sc_tenant_id scope) then Some (x.1, ws) else None)
    (rows (λ _ o, bool_decide (op_organization_id o = sc_organization_id scope) &&
                  bool_decide (op_kind o = "tenant.workspace") &&
                  bool_decide (op_idempotency_ref o = Some key)) (operations d))).

Definition request_worker (scope : RuntimeScope) (role : string) (slot : option Z)
    (ticket branch pair_token : option string) (key : string) : M RuntimeWorkspaceResponse :=
  require (bool_decide (sc_workspace_role scope = "nexus"))
    (api "WORKSPACE_UNAVAILABLE" "only the tenant's Nexus controller can request worker workspaces");;
  require (one_of WORKER_ROLES role)
    (api "INVALID_INPUT" ("role '" +:+ role +:+ "' is not a requestable worker role"));;
  transaction env (
    existing ← query env (λ _ _ d, earlier_request scope key d);
    match existing with
    | Some (operation, workspace) => mret (Commit (queued_response workspace operation))
    | None =>
        (match slot with
         | Some n =>
             taken ← query env (λ _ _ d,
               exists_row (λ _ w, bool_decide (w_tenant_id w = sc_tenant_id scope) &&
                                  bool_decide (w_role w = role) && bool_decide (w_slot w = Some n) &&
                                  negb (bool_decide (w_desired_state w = "deleted"))) (workspaces d));
             require (negb taken)
               (api "CONFLICT" ("slot " +:+ pretty n +:+ " for role '" +:+ role +:+ "' is already in use"))
         | None => mret tt
         end);;
        reserve_worker_capacity_in_tx env (sc_organization_id scope) (sc_tenant_id scope) 1;;
        workspace ← insert_workspace_in_tx (sc_organization_id scope) (sc_tenant_id scope) role slot;
        operation ← create_in_tx env
          {| no_organization_id := sc_organization_id scope; no_resource_type := "workspace";
             no_resource_id := Some workspace; no_kind := "tenant.workspace";
             no_idempotency_ref := Some key |};
        note_if ticket (λ x, w_set_ticket_id (Some x)) workspace;;
        note_if branch (λ x, w_set_branch (Some x)) workspace;;
        note_if pair_token (λ x, w_set_a2a_pair_token (Some x)) workspace;;
        mret (Commit (queued_response workspace operation))
    end).

Definition heartbeat (scope : RuntimeScope) : M (uuid * string) :=
  n ← on_pool env (execute env (λ now t d,
    let '(n, tab) := update_one (sc_workspace_id scope)
      (λ w, bool_decide (w_organization_id w = sc_organization_id scope) &&
            bool_decide (w_tenant_id w = sc_tenant_id scope) &&
            negb (gone (w_desired_state w)) && negb (gone (w_observed_state w)))
      (λ w, w ▷ w_set_observed_state "running"
              ▷ w_set_registered_at (Some (default t (w_registered_at w)))
              ▷ w_set_last_heartbeat_at (Some t) ▷ w_set_updated_at now) (workspaces d) in
    (n, on_workspaces (λ _, tab) d)));
  require (n =? 1)%Z (not_found "workspace");;
  (if bool_decide (sc_workspace_role scope = "nexus") then
     on_pool env (execute env (λ now _ d,
       (tt, on_tenants (λ tab, (update_one (sc_tenant_id scope)
          (λ t, bool_decide (t_organization_id t = sc_organization_id scope) &&
                one_of ["provisioning"; "running"] (t_desired_state t))
          (λ t, t ▷ t_set_observed_state "running" ▷ t_set_error_code None ▷ t_set_updated_at now) tab).2) d)))
   else mret tt);;
  mret (sc_workspace_id scope, "running").

Definition get_workspace (scope : RuntimeScope) (workspace : uuid) : M Workspace :=
  require (bool_decide (sc_workspace_id scope = workspace) || bool_decide (sc_workspace_role scope = "nexus"))
    (not_found "workspace");;
  row ← on_pool env (query env (λ _ _ d,
    scoped_workspace (sc_organization_id scope) (sc_tenant_id scope) workspace d));
  ok_or row (not_found "workspace").

Definition mutate_worker (scope : RuntimeScope) (workspace : uuid) (delete : bool) (key : string) :
    M RuntimeWorkspaceResponse :=
  require (bool_decide (sc_workspace_role scope = "nexus"))
    (api "WORKSPACE_UNAVAILABLE" "only the tenant Nexus may manage worker workspaces");;
  let kind := if delete then "workspace.delete" else "workspace.stop" in
  existing ← on_pool env (query env (λ _ _ d,
    head (rows (λ _ o, bool_decide (op_organization_id o = sc_organization_id scope) &&
                       bool_decide (op_kind o = kind) && bool_decide (op_idempotency_ref o = Some key) &&
                       bool_decide (op_resource_id o = Some workspace)) (operations d))));
  match existing with
  | Some (operation, _) => mret (queued_response workspace operation)
  | None =>
      transaction env (
        row ← query env (λ _ _ d,
          scoped_workspace (sc_organization_id scope) (sc_tenant_id scope) workspace d);
        w ← ok_or row (not_found "workspace");
        require (negb (bool_decide (w_role w = "nexus")))
          (api "INVALID_INPUT" "Nexus cannot delete or stop itself through the worker API");;
        require (negb (deletion_started (w_desired_state w) (w_observed_state w)))
          (Conflict "workspace is being deleted or has already been deleted");;
        execute env (λ now _ d,
          (tt, on_workspaces (λ tab, (update_one workspace (λ _, true)
             (λ w, w ▷ w_set_desired_state (if delete then "deleting" else "stopped")
                     ▷ w_set_updated_at now) tab).2) d));;
        execute env (λ _ t d, (tt, revoke_credentials (of_workspace workspace) t d));;
        operation ← create_in_tx env
          {| no_organization_id := sc_organization_id scope; no_resource_type := "workspace";
             no_resource_id := Some workspace; no_kind := kind; no_idempotency_ref := Some key |};
        mret (Commit (queued_response workspace operation)))
  end.

End workspaces.

(** ** Writers of the repository that no service calls *)

Module TenantsRepository.
Section tenants.
Context (env : Env).

Definition create_in_tx (org : uuid) (slug : string) (connection : uuid) (repository fleet : Z) : M uuid :=
  id ← uuid_v4 env;
  create_with_id_in_tx env id org slug connection repository fleet.

Definition create (org : uuid) (slug : string) (connection : uuid) (repository fleet : Z) : M uuid :=
  transaction env (id ← create_in_tx org slug connection repository fleet; mret (Commit id)).

(** [UPDATE tenants SET .. WHERE id = .. AND organization_id = ..]. *)
Definition set_state (f : Tenant → Tenant) (org id : uuid) : M bool :=
  on_pool env (execute env (λ now _ d,
    let '(n, tab) := update_one id (λ t, bool_decide (t_organization_id t = org))
                       (λ t, f t ▷ t_set_updated_at now) (tenants d) in
    (bool_decide (n = 1%Z), on_tenants (λ _, tab) d))).

Definition set_observed_state (org id : uuid) (state : string) : M bool :=
  set_state (t_set_observed_state state) org id.
Definition set_desired_state (org id : uuid) (state : string) : M bool :=
  set_state (t_set_desired_state state) org id.

End tenants.
End TenantsRepository.
