(* ===== verification/TenantWorker.v ===== *)
(** * What a tenant runs on, and the worker that provides it

    [runtime/tenant.rs] and [provisioning/tenant_worker.rs] of the manager: the Redis
    credential, the hook key and the mounted secret of a tenant, and the operations that
    provision, start, stop, clean and delete tenants and their workspaces.  Coder, the
    Redis server, local Docker and the parser of URLs are given; what is asked of Coder is
    asked outside of transactions, and every change of state is made under the lease. *)
From S2P Require Import Prelude Text Json Schema Database Operations Idempotency Pagination Runtime Tenants.

Fixpoint each {A} (f : A → M unit) (l : list A) : M unit :=
  match l with
  | [] => mret tt
  | x :: l' => f x;; each f l'
  end.

(** Columns that the code reads as not null. *)
Definition decoded {A} (l : list (option A)) : M (list A) :=
  ok_or (mapM id l) (Database UnexpectedNull).

(** ** Outside *)

Record CoderWorkspaceDetail := {
  cw_id : string;
  cw_organization_id : string;
  cw_owner_id : string;
}.

(** [CoderAdapter], as far as tenants use it: the answers by the moment of the call. *)
Record CoderAdapter := {
  ensure_user_owner : nat → string → string → ManagerError + unit;
  create_tenant_workspace_with_parameters :
    nat → string → string → string → string → string → list (string * string) →
    ManagerError + CoderWorkspaceDetail;
  wait_workspace_ready : nat → string → string → ManagerError + unit;
  workspace_startup_failed : nat → string → string → ManagerError + bool;
  delete_workspace : nat → string → string → ManagerError + unit;
  start_workspace : nat → string → string → ManagerError + unit;
  stop_workspace : nat → string → string → ManagerError + unit;
  delete_machine_owner : nat → string → string → ManagerError + unit;
}.

Record NamespaceCleanResult := {
  tickets_reset : Z;
  worker_slots_cleared : Z;
  recovery_counters_cleared : Z;
}.
Definition nothing_cleaned : NamespaceCleanResult :=
  {| tickets_reset := 0; worker_slots_cleared := 0; recovery_counters_cleared := 0 |}.

Record RedisIsolationBackend := {
  ensure_tenant : nat → string → string → string → ManagerError + unit;
  revoke_tenant : nat → string → ManagerError + unit;
  clean_namespace : nat → string → bool → ManagerError + NamespaceCleanResult;
  clear_namespace : nat → string → ManagerError + Z;
}.

Record LocalWorkspaceCleanup := {
  remove_workspace : nat → string → string → ManagerError + unit;
  remove_artifacts : nat → uuid → ManagerError + unit;
}.

(** What [url::Url::parse] finds. *)
Record Url := {
  url_scheme : string;
  url_has_host : bool;
  url_username : string;
  url_has_password : bool;
  url_has_query : bool;
  url_has_fragment : bool;
}.

Record WorkerDeps := {
  adapter : CoderAdapter;
  redis_isolation : RedisIsolationBackend;
  local_workspace_cleanup : option LocalWorkspaceCleanup;
  manager_url : string;
  runtime_redis_url : string;
  coder_url : string;                       (* CODER_URL *)
  relay_base_url : string;                  (* OPENFLOWS_RUNTIME_RELAY_BASE_URL *)
  configured_digest : option string;        (* OPENFLOWS_WORKSPACE_IMAGE_DIGEST *)
  parse_url : string → option Url;
  url_with_login : string → string → string → ManagerError + string;  (* set_username, set_password *)
  coder_rejection : ManagerError → bool;    (* the cause is an HTTP error of Coder *)
}.

Definition slash (c : ascii) : bool := char_eqb c "/".

(** [runtime_hook_url_from_base]. *)
Definition runtime_hook_url_from_base (parse : string → option Url) (base : string) (tenant : uuid) :
    string + string :=
  let base := trim_end_matches slash (trim base) in
  if is_empty base then inl "OPENFLOWS_RUNTIME_RELAY_BASE_URL is required for Coder hook relay"
  else
    let expanded := replace "{tenant}" tenant base in
    match parse expanded with
    | None => inl "OPENFLOWS_RUNTIME_RELAY_BASE_URL must be an absolute HTTP(S) URL"
    | Some u =>
        if negb (one_of ["http"; "https"] (url_scheme u)) || negb (url_has_host u) ||
           negb (is_empty (url_username u)) || url_has_password u || url_has_query u ||
           url_has_fragment u
        then inl "OPENFLOWS_RUNTIME_RELAY_BASE_URL must be HTTP(S) without credentials, query, or fragment"
        else inr (expanded +:+ "/experimental/hooks/chat")
    end.

(** [Path::file_name]. *)
Definition file_name (path : string) : option string :=
  match last (filter (λ p, negb (is_empty p || bool_decide (p = "."))) (split_on slash path)) with
  | Some name => if bool_decide (name = "..") then None else Some name
  | None => None
  end.

(** ** Tenant-scoped resources *)

Definition TENANT_REDIS_USER_PREFIX : string := "tenant".

Record TenantRedisCredential := {
  tc_username : string;
  tc_namespace : string;
  tc_credential_hash : string;
  tc_secret_ref : string;
  tc_generation : Z;
}.

Record TenantHookKey := {
  th_key_hash : string;
  th_generation : Z;
  th_secret_ref : string;
}.

Definition redis_credential_of (r : RedisCredentialRow) : TenantRedisCredential :=
  {| tc_username := rd_username r; tc_namespace := rd_namespace r;
     tc_credential_hash := rd_credential_hash r; tc_secret_ref := rd_secret_ref r;
     tc_generation := rd_generation r |}.

(** The credential of a tenant, as the statements select it. *)
Definition redis_row (org tenant : uuid) (d : Db) : option RedisCredentialRow :=
  r ← tenant_redis_credentials d !! tenant;
  if bool_decide (rd_organization_id r = org) then Some r else None.
Definition hook_row (org tenant : uuid) (d : Db) : option HookKeyRow :=
  k ← tenant_hook_keys d !! tenant;
  if bool_decide (hk_organization_id k = org) then Some k else None.
Definition live_hook_row (org tenant : uuid) (d : Db) : option HookKeyRow :=
  k ← hook_row org tenant d; if is_none (hk_revoked_at k) then Some k else None.

(** [INSERT .. ON CONFLICT (tenant_id) DO UPDATE .. WHERE revoked_at IS NOT NULL RETURNING
    generation]: a live credential is not overwritten, and then no row is returned. *)
Definition upsert_redis_row (org tenant : uuid) (username namespace hash reference : string) (d : Db) :
    SqlError + Z * Db :=
  match tenant_redis_credentials d !! tenant with
  | Some r =>
      if bool_decide (rd_organization_id r = org) && is_some (rd_revoked_at r)
      then if (rd_generation r + 1 <=? I64_MAX)%Z
           then inr ((rd_generation r + 1)%Z, on_tenant_redis_credentials (<[tenant :=
                  r ▷ rd_set_credential_hash hash ▷ rd_set_secret_ref reference
                    ▷ rd_set_generation (rd_generation r + 1)%Z ▷ rd_set_revoked_at None]>) d)
           else inl OutOfRange
      else inl RowNotFound
  | None =>
      if is_none (scoped_tenant org tenant d)
      then inl (Violates "tenant_redis_credentials_organization_id_tenant_id_fkey")
      else if exists_row (λ _ r, bool_decide (rd_username r = username)) (tenant_redis_credentials d)
      then inl (Violates "tenant_redis_credentials_username_key")
      else inr (0%Z, on_tenant_redis_credentials (<[tenant :=
             {| rd_organization_id := org; rd_username := username; rd_namespace := namespace;
                rd_credential_hash := hash; rd_secret_ref := reference; rd_generation := 0;
                rd_revoked_at := None |}]>) d)
  end.

Definition upsert_hook_row (org tenant : uuid) (hash reference : string) (d : Db) : SqlError + Z * Db :=
  match tenant_hook_keys d !! tenant with
  | Some k =>
      if bool_decide (hk_organization_id k = org) && is_some (hk_revoked_at k)
      then if (hk_generation k + 1 <=? I64_MAX)%Z
           then inr ((hk_generation k + 1)%Z, on_tenant_hook_keys (<[tenant :=
                  k ▷ hk_set_key_hash hash ▷ hk_set_secret_ref (Some reference)
                    ▷ hk_set_generation (hk_generation k + 1)%Z ▷ hk_set_revoked_at None]>) d)
           else inl OutOfRange
      else inl RowNotFound
  | None =>
      if is_none (scoped_tenant org tenant d)
      then inl (Violates "tenant_hook_keys_organization_id_tenant_id_fkey")
      else inr (0%Z, on_tenant_hook_keys (<[tenant :=
             {| hk_organization_id := org; hk_key_hash := hash; hk_secret_ref := Some reference;
                hk_generation := 0; hk_revoked_at := None |}]>) d)
  end.

(** [SET revoked_at = COALESCE(revoked_at, now())]. *)
Definition revoke_redis_row (org tenant : uuid) (p : RedisCredentialRow → bool) (now : Z) (d : Db) : Db :=
  on_tenant_redis_credentials (λ tab, (update_one tenant
    (λ r, bool_decide (rd_organization_id r = org) && p r)
    (λ r, rd_set_revoked_at (Some (default now (rd_revoked_at r))) r) tab).2) d.
Definition revoke_hook_row (org tenant : uuid) (p : HookKeyRow → bool) (now : Z) (d : Db) : Db :=
  on_tenant_hook_keys (λ tab, (update_one tenant
    (λ k, bool_decide (hk_organization_id k = org) && p k)
    (λ k, hk_set_revoked_at (Some (default now (hk_revoked_at k))) k) tab).2) d.

(** The secrets of a tenant: [UNION], so each once. *)
Definition tenant_secret_refs (org tenant : uuid) (d : Db) : list string :=
  let own := rows (λ _ w, bool_decide (w_organization_id w = org) && bool_decide (w_tenant_id w = tenant))
               (workspaces d) in
  remove_dups
    (option_list (hook_row org tenant d ≫= hk_secret_ref) ++
     omap (λ x, w_runtime_secret_ref x.2) own ++
     ((λ x, bc_secret_ref x.2) <$>
        rows (λ _ b, bool_decide (bc_workspace_id b ∈ own.*1)) (workspace_bootstrap_credentials d))).

(** [coder_workspace_id] is unique. *)
Definition attach_coder_workspace (workspace : uuid) (coder_id : string) (now : Z) (d : Db) :
    SqlError + unit * Db :=
  if exists_row (λ id w, negb (bool_decide (id = workspace)) &&
                         bool_decide (w_coder_workspace_id w = Some coder_id)) (workspaces d) &&
     is_some (workspaces d !! workspace)
  then inl (Violates "workspaces_coder_workspace_id_key")
  else inr (tt, on_workspaces (λ tab, (update_one workspace (λ _, true)
         (λ w, w ▷ w_set_coder_workspace_id (Some coder_id) ▷ w_set_updated_at now) tab).2) d).

Module TenantRuntime.
Section tenant_runtime.
Context (env : Env) (deps : WorkerDeps).

Definition redis_credential (org tenant : uuid) : M (option TenantRedisCredential) :=
  on_pool env (query env (λ _ _ d,
    r ← redis_row org tenant d;
    if is_none (rd_revoked_at r) then Some (redis_credential_of r) else None)).

Definition redis_credential_any (org tenant : uuid) : M (option TenantRedisCredential) :=
  on_pool env (query env (λ _ _ d, redis_credential_of <$> redis_row org tenant d)).

(** [SecretProvider] calls, with the message of the failure. *)
Definition secret_or {A} (what : string) (m : M (SecretError + A)) : M A :=
  r ← m;
  match r with
  | inr a => mret a
  | inl e => refuse (Config ("cannot " +:+ what +:+ ": " +:+ secret_error_text e))
  end.

(** [Ok(()) | Err(NotFound)]. *)
Definition delete_or_absent (what reference : string) : M unit :=
  r ← delete_ref env reference;
  match r with
  | inr _ | inl (SecretNotFound _) => mret tt
  | inl e => refuse (Config ("cannot " +:+ what +:+ ": " +:+ secret_error_text e))
  end.

Definition restore_redis_credentials : M unit :=
  found ← on_pool env (query env (λ _ _ d,
    (rows (λ _ r, is_none (rd_revoked_at r)) (tenant_redis_credentials d)).*2));
  each (λ r,
    held ← get_ref env (rd_secret_ref r);
    match held with
    | inl (SecretNotFound _) => mret tt
    | inl e => refuse (Config ("cannot restore tenant Redis secret: " +:+ secret_error_text e))
    | inr password =>
        outside (λ n, ensure_tenant (redis_isolation deps) n (rd_username r) password (rd_namespace r))
    end) found.

Definition redis_username (tenant : uuid) : string :=
  TENANT_REDIS_USER_PREFIX +:+ "-" +:+ replace "-" "" tenant.

Definition allocate_redis_credential (org tenant : uuid) (secret_ref : string) : M TenantRedisCredential :=
  encoded ← generate_secret env;
  let username := redis_username tenant in
  uuid_v4 env;;
  outside (λ n, ensure_tenant (redis_isolation deps) n username encoded tenant);;
  stored ← secret_or "store tenant Redis secret" (put env secret_ref encoded);
  inserted ← attempt (on_pool env (sql env (λ _ _ d,
    upsert_redis_row org tenant username tenant (sha256_hex env encoded) stored d)));
  match inserted with
  | inr generation =>
      mret {| tc_username := username; tc_namespace := tenant;
              tc_credential_hash := sha256_hex env encoded; tc_secret_ref := stored;
              tc_generation := generation |}
  | inl error =>
      delete_ref env stored;;
      attempt (outside (λ n, revoke_tenant (redis_isolation deps) n username));;
      existing ← redis_credential org tenant;
      match existing with
      | Some c => mret c
      | None => refuse error
      end
  end.

Definition ensure_redis_credential (org tenant : uuid) (secret_ref : string) : M TenantRedisCredential :=
  found ← redis_credential org tenant;
  match found with
  | None => allocate_redis_credential org tenant secret_ref
  | Some existing =>
      held ← get_ref env (tc_secret_ref existing);
      match held with
      | inr password =>
          outside (λ n, ensure_tenant (redis_isolation deps) n (tc_username existing) password
                          (tc_namespace existing));;
          mret existing
      | inl (SecretNotFound _) =>
          outside (λ n, revoke_tenant (redis_isolation deps) n (tc_username existing));;
          on_pool env (execute env (λ now _ d,
            (tt, revoke_redis_row org tenant (λ r, is_none (rd_revoked_at r)) now d)));;
          allocate_redis_credential org tenant secret_ref
      | inl e => refuse (Config ("cannot verify tenant Redis secret: " +:+ secret_error_text e))
      end
  end.

Definition clear_redis_namespace (org tenant : uuid) : M Z :=
  found ← redis_credential_any org tenant;
  match found with
  | None => mret 0%Z
  | Some c => outside (λ n, clear_namespace (redis_isolation deps) n (tc_namespace c))
  end.

Definition clean_redis_namespace (org tenant : uuid) (reset_all : bool) : M NamespaceCleanResult :=
  found ← redis_credential org tenant;
  match found with
  | None => mret nothing_cleaned
  | Some c => outside (λ n, clean_namespace (redis_isolation deps) n (tc_namespace c) reset_all)
  end.

Definition revoke_redis_credential (org tenant : uuid) : M unit :=
  found ← redis_credential_any org tenant;
  match found with
  | None => mret tt
  | Some c =>
      outside (λ n, revoke_tenant (redis_isolation deps) n (tc_username c));;
      delete_or_absent "delete tenant Redis secret" (tc_secret_ref c);;
      on_pool env (execute env (λ now _ d, (tt, revoke_redis_row org tenant (λ _, true) now d)))
  end.

Definition delete_tenant_secrets (org tenant : uuid) : M unit :=
  refs ← on_pool env (query env (λ _ _ d, tenant_secret_refs org tenant d));
  each (delete_or_absent "delete tenant secret") refs;;
  on_pool env (execute env (λ now _ d, (tt, revoke_hook_row org tenant (λ _, true) now d))).

Definition allocate_hook_key (org tenant : uuid) (secret_ref : string) : M TenantHookKey :=
  encoded ← generate_secret env;
  stored ← secret_or "store tenant hook key" (put env secret_ref encoded);
  uuid_v4 env;;
  inserted ← attempt (on_pool env (sql env (λ _ _ d,
    upsert_hook_row org tenant (sha256_hex env encoded) stored d)));
  match inserted with
  | inr generation => mret {| th_key_hash := sha256_hex env encoded; th_generation := generation;
                              th_secret_ref := stored |}
  | inl error => delete_ref env stored;; refuse error
  end.

Definition ensure_hook_key (org tenant : uuid) (secret_ref : string) : M TenantHookKey :=
  found ← on_pool env (query env (λ _ _ d, live_hook_row org tenant d));
  match found with
  | None => allocate_hook_key org tenant secret_ref
  | Some k =>
      stored ← ok_or (hk_secret_ref k) (Database UnexpectedNull);
      held ← get_ref env stored;
      match held with
      | inr _ => mret {| th_key_hash := hk_key_hash k; th_generation := hk_generation k;
                         th_secret_ref := stored |}
      | inl (SecretNotFound _) =>
          on_pool env (execute env (λ now _ d,
            (tt, revoke_hook_row org tenant (λ k, is_none (hk_revoked_at k)) now d)));;
          allocate_hook_key org tenant secret_ref
      | inl e => refuse (Config ("cannot verify tenant hook secret: " +:+ secret_error_text e))
      end
  end.

Definition hook_key_hash (org tenant : uuid) : M (option string) :=
  on_pool env (query env (λ _ _ d, hk_key_hash <$> live_hook_row org tenant d)).

(** The payload is stored under the reference the workspace already has, or a new one. *)
Definition store_bundle (existing : option string) (workspace : uuid) (payload : string) : M string :=
  match existing with
  | Some reference =>
      replaced ← replace_ref env reference payload;
      match replaced with
      | inr _ => mret reference
      | inl (SecretNotFound _) =>
          stored ← put env reference payload;
          match stored with
          | inr r => mret r
          | inl (AlreadyExists _) =>
              secret_or "restore workspace secret" (replace_ref env reference payload);; mret reference
          | inl e => refuse (Config ("cannot restore workspace secret: " +:+ secret_error_text e))
          end
      | inl e => refuse (Config ("cannot rotate workspace secret: " +:+ secret_error_text e))
      end
  | None =>
      let reference := "workspace-runtime-" +:+ workspace in
      stored ← put env reference payload;
      match stored with
      | inr r => mret r
      | inl (AlreadyExists _) =>
          secret_or "rotate workspace secret" (replace_ref env reference payload);; mret reference
      | inl e => refuse (Config ("cannot inject workspace secret: " +:+ secret_error_text e))
      end
  end.

Definition prepare_workspace_secret (org tenant workspace : uuid) (bootstrap_ref manager redis : string) :
    M string :=
  existing ← on_pool env (query env (λ _ _ d, workspaces d !! workspace ≫= w_runtime_secret_ref));
  let bundle := r ← existing;
                if is_some_and (starts_with "workspace-runtime-") (file_name r) then Some r else None in
  found ← redis_credential org tenant;
  credential ← ok_or found (not_found "tenant Redis credential");
  password ← secret_or "resolve Redis secret" (get_ref env (tc_secret_ref credential));
  bootstrap ← secret_or "resolve bootstrap" (get_ref env bootstrap_ref);
  hook ← on_pool env (query env (λ _ _ d, live_hook_row org tenant d));
  key_row ← fetch_one hook;
  hook_ref ← ok_or (hk_secret_ref key_row) (Database UnexpectedNull);
  hook_key ← secret_or "resolve hook key" (get_ref env hook_ref);
  redis_url ← check (url_with_login deps redis (tc_username credential) password);
  hook_url ← match runtime_hook_url_from_base (parse_url deps) (relay_base_url deps) tenant with
             | inl e => refuse (Config e)
             | inr u => mret u
             end;
  let payload := print_json env (VObject
    [("bootstrap_token", VString bootstrap); ("hook_key", VString hook_key); ("hook_url", VString hook_url);
     ("manager_url", VString (trim_end_matches slash manager));
     ("redis_namespace", VString (tc_namespace credential)); ("redis_url", VString redis_url);
     ("redis_username", VString (tc_username credential)); ("schema_version", VPosInt 1);
     ("tenant_id", VString tenant); ("workspace_id", VString workspace)]) in
  stored ← store_bundle bundle workspace payload;
  reference ← secret_or "resolve workspace secret reference" (mret (canonical_reference (secrets env) stored));
  on_pool env (execute env (λ now _ d,
    (tt, on_workspaces (λ tab, (update_one workspace (λ _, true)
       (λ w, w ▷ w_set_runtime_secret_ref (Some reference) ▷ w_set_updated_at now) tab).2) d)));;
  mret reference.

Definition set_coder_workspace_id (workspace : uuid) (coder_id : string) : M unit :=
  on_pool env (sql env (λ now _ d, attach_coder_workspace workspace coder_id now d)).

Definition mark_workspace_running (workspace : uuid) : M unit :=
  on_pool env (execute env (λ now _ d,
    (tt, on_workspaces (λ tab, (update_one workspace (λ _, true)
       (λ w, w ▷ w_set_observed_state "running" ▷ w_set_updated_at now) tab).2) d))).

Definition tenant_for_workspace (workspace : uuid) : M (option uuid) :=
  on_pool env (query env (λ _ _ d, w_tenant_id <$> workspaces d !! workspace)).

End tenant_runtime.
End TenantRuntime.

(** ** The worker *)

Definition ROLES : list string := ["nexus"; "forge"; "sentinel"; "vessel"; "lore"].

(** [Uuid::simple]. *)
Definition simple (id : uuid) : string := replace "-" "" id.

Definition worker_workspace_name (role : string) (id : uuid) : string :=
  let prefix := "of-" +:+ role +:+ "-" in
  prefix +:+ String.substring 0 (32 - String.length prefix) (simple id).

Definition nexus_workspace_name (tenant : uuid) : string :=
  "of-nexus-" +:+ String.substring 0 20 (simple tenant).

Definition is_hex_digit (c : ascii) : bool :=
  let n := nat_of_ascii c in
  ((48 <=? n) && (n <=? 57)) || ((65 <=? n) && (n <=? 70)) || ((97 <=? n) && (n <=? 102)).

Definition valid_digest (digest : string) : bool :=
  is_some_and (λ hex, (String.length hex =? 64) && all_chars is_hex_digit hex) (strip_prefix "sha256:" digest).

(** The live refresh credential of a workspace that has registered. *)
Definition live_session (workspace : uuid) (w : Workspace) (t : Z) (d : Db) : bool :=
  exists_row (λ _ rc, of_workspace workspace rc && bool_decide (rc_audience rc = WORKSPACE_REFRESH_AUDIENCE) &&
                      (rc_generation rc =? w_credential_generation w)%Z && is_none (rc_revoked_at rc) &&
                      (t <? rc_expires_at rc)%Z) (runtime_credentials d).

(** The last bootstrap of a workspace, or its creation. *)
Definition last_start (workspace : uuid) (w : Workspace) (d : Db) : Z :=
  match (λ x, bc_created_at x.2) <$>
          rows (λ _ b, bool_decide (bc_workspace_id b = workspace)) (workspace_bootstrap_credentials d) with
  | [] => w_created_at w
  | t :: l => foldr Z.max t l
  end.

(** A workspace with its organization's id on Coder. *)
Definition upstream_rows (org tenant : uuid) (p : Workspace → bool) (d : Db) :
    list (uuid * Workspace * option string) :=
  omap (λ x : uuid * Workspace,
    o ← organizations d !! w_organization_id x.2; Some (x.1, x.2, o_coder_organization_id o))
    (rows (λ _ w, bool_decide (w_tenant_id w = tenant) && bool_decide (w_organization_id w = org) &&
                  is_some (w_coder_workspace_id w) && p w) (workspaces d)).

Definition not_deleted (w : Workspace) : bool := negb (bool_decide (w_desired_state w = "deleted")).

Inductive TenantProvisionOutcome :=
  | Provisioned (tenant : uuid)
  | Deleted (tenant : uuid)
  | Queued (tenant : uuid)
  | WaitingForController (tenant : uuid)
  | NotReady (tenant : uuid) (code : string)
  | Failed (tenant : uuid) (code : string) (retryable : bool)
  | StaleLease.

Definition TENANT_STATE_CHANGED : string := "TENANT_STATE_CHANGED".
Definition RELEASE_NOT_RESOLVED : string := "RELEASE_NOT_RESOLVED".

Module Worker.
Section worker.
Context (env : Env) (deps : WorkerDeps).

(** *** Reading *)

Definition operation_kind (id : uuid) : M (option string) :=
  on_pool env (query env (λ _ _ d, op_kind <$> operations d !! id)).

Definition resource_tenant (g : LeaseGuard) : M (option uuid) :=
  on_pool env (query env (λ _ _ d,
    o ← operations d !! g_operation_id g;
    if bool_decide (op_organization_id o = g_organization_id g) then op_resource_id o else None)).

Definition tenant_is_provisioning (tenant : uuid) : M bool :=
  on_pool env (query env (λ _ _ d,
    is_some_and (λ t, bool_decide (t_desired_state t = "provisioning")) (tenants d !! tenant))).

Definition org_ready (org : uuid) : M bool :=
  on_pool env (query env (λ _ _ d,
    is_some_and (λ o, bool_decide (o_status o = "ready")) (organizations d !! org))).

Definition repo_accessible (tenant : uuid) : M bool :=
  on_pool env (query env (λ _ _ d,
    match tenants d !! tenant with
    | Some t =>
        is_some_and (λ c, bool_decide (c_organization_id c = t_organization_id t) &&
                          bool_decide (c_status c = "active")) (github_connections d !! t_connection_id t) &&
        is_some_and (λ r, bool_decide (r_organization_id r = t_organization_id t) && r_accessible r)
          (github_repositories d !! (t_connection_id t, t_github_repository_id t))
    | None => false
    end)).

Definition tenant_repository_full_name (tenant : uuid) : M string :=
  found ← on_pool env (query env (λ _ _ d,
    t ← tenants d !! tenant;
    r ← github_repositories d !! (t_connection_id t, t_github_repository_id t);
    if bool_decide (r_organization_id r = t_organization_id t) && r_accessible r
    then Some (r_full_name r) else None));
  ok_or found (api "REPOSITORY_UNAVAILABLE" "repository unavailable").

Definition coder_org_for_tenant (tenant : uuid) : M (option string) :=
  on_pool env (query env (λ _ _ d,
    t ← tenants d !! tenant; o ← organizations d !! t_organization_id t; o_coder_organization_id o)).

Definition runtime_readiness_confirmed (workspace : uuid) : M bool :=
  on_pool env (query env (λ _ t d,
    is_some_and (λ w, is_some_and (λ h, last_start workspace w d <=? h)%Z (w_last_heartbeat_at w) &&
                      live_session workspace w t d) (workspaces d !! workspace))).

Definition runtime_heartbeat_fresh (workspace : uuid) : M bool :=
  ready ← runtime_readiness_confirmed workspace;
  if (ready : bool) then
    on_pool env (query env (λ _ t d,
      is_some_and (λ w, is_some_and (λ h, t - 2 * MINUTE <? h)%Z (w_last_heartbeat_at w))
        (workspaces d !! workspace)))
  else mret false.

Definition runtime_session_pending_readiness (workspace : uuid) : M bool :=
  on_pool env (query env (λ _ t d,
    is_some_and (λ w, is_some (w_coder_workspace_id w) && live_session workspace w t d)
      (workspaces d !! workspace))).

(** *** Templates *)

Definition get_org_binding (org : uuid) : M (option uuid) :=
  on_pool env (query env (λ _ _ d, organization_current_releases d !! org)).

Definition get_org_template_version (org release : uuid) (role : string) : M (option OrgTemplateVersion) :=
  on_pool env (query env (λ _ _ d, organization_template_versions d !! (org, release, role))).

(** The role's entry of a release: its image digest, if it has one. *)
Definition role_image_digest (release : uuid) (role : string) : M string :=
  exists_ ← on_pool env (query env (λ _ _ d, is_some (template_releases d !! release)));
  require exists_ (api RELEASE_NOT_RESOLVED "release missing");;
  entry ← on_pool env (query env (λ _ _ d, template_release_roles d !! (release, role)));
  digest ← ok_or (match mjoin entry with Some x => Some x | None => configured_digest deps end)
    (api RELEASE_NOT_RESOLVED
       "hosted template release is missing its workspace image digest; set OPENFLOWS_WORKSPACE_IMAGE_DIGEST");
  require (valid_digest digest)
    (api RELEASE_NOT_RESOLVED "hosted template release has an invalid workspace image digest");;
  mret digest.

Definition resolve_nexus_template (org : uuid) : M (option (string * string * string)) :=
  bound ← get_org_binding org;
  match bound with
  | None => mret None
  | Some release =>
      row ← get_org_template_version org release "nexus";
      match row with
      | Some r =>
          match bool_decide (ov_status r = "ready"), ov_coder_template_id r, ov_coder_version_id r with
          | true, Some t, Some v => digest ← role_image_digest release "nexus"; mret (Some (t, v, digest))
          | _, _, _ => mret None
          end
      | None => mret None
      end
  end.

Definition ensure_workspace_runtime_secret (org tenant workspace : uuid) : M string :=
  bootstrap_ref ← ensure_bootstrap_ref env workspace;
  TenantRuntime.prepare_workspace_secret env deps org tenant workspace bootstrap_ref
    (manager_url deps) (runtime_redis_url deps).

(** *** Under the lease *)

(** [if !guard.lock_in_tx(..) { return Ok(StaleLease) } ..; if !guard.complete_in_tx(..)
    { return Ok(StaleLease) } tx.commit()]: what is changed in between stays only with
    both. *)
Definition fenced (g : LeaseGuard) (body : M (option (Value * TenantProvisionOutcome))) :
    M TenantProvisionOutcome :=
  transaction env (
    held ← lock_in_tx env g;
    if negb held then mret (Rollback StaleLease)
    else
      r ← body;
      match r with
      | None => mret (Rollback StaleLease)
      | Some (result, outcome) =>
          completed ← complete_in_tx env g result;
          mret (if (completed : bool) then Commit outcome else Rollback StaleLease)
      end).

(** A step that is lost with the lease. *)
Definition stepping (g : LeaseGuard) (step : string) (k : M TenantProvisionOutcome) : M TenantProvisionOutcome :=
  held ← set_step env g step;
  if (held : bool) then k else mret StaleLease.

Definition record_error (g : LeaseGuard) (tenant : uuid) (code : string) : M unit :=
  transaction env (
    held ← lock_in_tx env g;
    if (held : bool) then
      execute env (λ now _ d,
        (tt, set_tenant tenant (λ t, t ▷ t_set_error_code (Some code) ▷ t_set_updated_at now) d));;
      mret (Commit tt)
    else mret (Rollback tt)).

Definition result_of (l : list (string * string)) : Value := VObject ((λ kv, (kv.1, VString kv.2)) <$> l).

Definition delete_upstream (org id : string) : M unit :=
  ask (DeleteWorkspace org id);;
  outside (λ n, delete_workspace (adapter deps) n org id).

Definition mutate_worker_workspace (g : LeaseGuard) (delete : bool) : M TenantProvisionOutcome :=
  found ← on_pool env (query env (λ _ _ d,
    o ← operations d !! g_operation_id g;
    id ← op_resource_id o;
    w ← workspaces d !! id;
    org ← organizations d !! w_organization_id w;
    if bool_decide (w_organization_id w = g_organization_id g)
    then Some (id, w, o_coder_organization_id org) else None));
  '(id, w, coder_org) ← fetch_one found;
  org ← ok_or coder_org (Database UnexpectedNull);
  if negb delete && deletion_started (w_desired_state w) (w_observed_state w) then
    fenced g (mret (Some (result_of [("status", "superseded_by_delete"); ("workspace_id", id)],
                          Provisioned (w_tenant_id w))))
  else
    match w_coder_workspace_id w with
    | Some coder_id => if delete then delete_upstream org coder_id
                       else outside (λ n, stop_workspace (adapter deps) n org coder_id)
    | None => mret tt
    end;;
    let state := if delete then "deleted" else "stopped" in
    let expected := if delete then "deleting" else "stopped" in
    fenced g (
      changed ← execute env (λ now _ d,
        let '(n, tab) := update_one id
          (λ w, bool_decide (w_desired_state w = expected) && negb (gone (w_observed_state w)))
          (λ w, w ▷ w_set_desired_state state ▷ w_set_observed_state state ▷ w_set_updated_at now)
          (workspaces d) in
        (n, on_workspaces (λ _, tab) d));
      (if delete && (changed =? 1)%Z then
         execute env (λ now _ d,
           (tt, set_tenant (w_tenant_id w)
              (λ t, t ▷ t_set_reserved_worker_capacity (Z.max (t_reserved_worker_capacity t - 1) 0)
                      ▷ t_set_updated_at now) d))
       else mret tt);;
      mret (Some (result_of [("status", if (changed =? 1)%Z then state else "superseded");
                             ("workspace_id", id)], Provisioned (w_tenant_id w)))).

Definition stop (g : LeaseGuard) : M TenantProvisionOutcome :=
  found ← resource_tenant g;
  tenant ← ok_or found (not_found "tenant");
  listed ← on_pool env (query env (λ _ _ d,
    (λ x : uuid * Workspace * option string, pair (default "" (w_coder_workspace_id x.1.2)) <$> x.2) <$>
      upstream_rows (g_organization_id g) tenant not_deleted d));
  running ← decoded listed;
  each (λ x : string * string, outside (λ n, stop_workspace (adapter deps) n x.2 x.1)) running;;
  fenced g (
    execute env (λ now _ d,
      (tt, set_workspaces (λ w, bool_decide (w_tenant_id w = tenant) && not_deleted w)
             (λ w, w ▷ w_set_desired_state "stopped" ▷ w_set_observed_state "stopped"
                     ▷ w_set_registered_at None ▷ w_set_last_heartbeat_at None ▷ w_set_updated_at now) d));;
    changed ← execute env (λ now _ d,
      let '(n, tab) := update_one tenant (λ t, negb (bool_decide (t_desired_state t = "deleted")))
        (λ t, t ▷ t_set_desired_state "paused" ▷ t_set_observed_state "paused" ▷ t_set_updated_at now)
        (tenants d) in
      (n, on_tenants (λ _, tab) d));
    mret (if (changed =? 1)%Z
          then Some (result_of [("status", "paused"); ("tenant_id", tenant)], Provisioned tenant)
          else None)).

(** The workspaces are started one at a time, the controller first; [None] when all of
    them have sent a fresh heartbeat. *)
Fixpoint start_each (g : LeaseGuard) (tenant : uuid) (nexus : option uuid)
    (l : list (uuid * string * string)) : M (option TenantProvisionOutcome) :=
  match l with
  | [] => mret None
  | (id, workspace, org) :: l' =>
      ready ← (if bool_decide (Some id = nexus) then mret true
               else match nexus with
                    | Some n => runtime_heartbeat_fresh n
                    | None => mret false
                    end);
      if negb ready then mret (Some (WaitingForController tenant))
      else
        fresh ← runtime_heartbeat_fresh id;
        if (fresh : bool) then start_each g tenant nexus l'
        else
          pending ← runtime_session_pending_readiness id;
          if (pending : bool) then
            failed ← outside (λ n, workspace_startup_failed (adapter deps) n org workspace);
            mret (Some (if (failed : bool)
                        then NotReady tenant (if bool_decide (Some id = nexus) then "NEXUS_START_FAILED"
                                              else "WORKER_START_FAILED")
                        else WaitingForController tenant))
          else
            bootstrap_ref ← ensure_bootstrap_ref env id;
            TenantRuntime.prepare_workspace_secret env deps (g_organization_id g) tenant id bootstrap_ref
              (manager_url deps) (runtime_redis_url deps);;
            outside (λ n, start_workspace (adapter deps) n org workspace);;
            mret (Some (WaitingForController tenant))
  end.

Definition nexus_first (a b : uuid * Workspace * option string) : bool :=
  let rank (x : uuid * Workspace * option string) :=
    if bool_decide (w_role x.1.2 = "nexus") then 0%Z else 1%Z in
  (rank a <? rank b)%Z || ((rank a =? rank b)%Z && String.leb a.1.1 b.1.1).

Definition start (g : LeaseGuard) : M TenantProvisionOutcome :=
  found ← resource_tenant g;
  tenant ← ok_or found (not_found "tenant");
  desired ← on_pool env (query env (λ _ _ d, t_desired_state <$> scoped_tenant (g_organization_id g) tenant d));
  if negb (bool_decide (desired = Some "running")) then mret (NotReady tenant TENANT_STATE_CHANGED)
  else
    listed ← on_pool env (query env (λ _ _ d,
      (λ x : uuid * Workspace * option string,
         pair (x.1.1, default "" (w_coder_workspace_id x.1.2)) <$> x.2) <$>
      order_by nexus_first (upstream_rows (g_organization_id g) tenant not_deleted d)));
    rows_ ← decoded listed;
    nexus ← on_pool env (query env (λ _ _ d,
      fst <$> head (rows (λ _ w, bool_decide (w_tenant_id w = tenant) && bool_decide (w_role w = "nexus") &&
                                 not_deleted w) (workspaces d))));
    early ← start_each g tenant nexus rows_;
    match early, nexus with
    | Some outcome, _ => mret outcome
    | None, None => mret (WaitingForController tenant)
    | None, Some n =>
        fresh ← runtime_heartbeat_fresh n;
        if negb fresh then mret (WaitingForController tenant)
        else fenced g (
          changed ← execute env (λ now _ d,
            let '(n, tab) := update_one tenant (λ t, negb (gone (t_desired_state t)))
              (λ t, t ▷ t_set_desired_state "running" ▷ t_set_observed_state "running"
                      ▷ t_set_updated_at now) (tenants d) in
            (n, on_tenants (λ _, tab) d));
          mret (if (changed =? 1)%Z
                then Some (result_of [("status", "running"); ("tenant_id", tenant)], Provisioned tenant)
                else None))
    end.

Definition clean (g : LeaseGuard) (reset_all : bool) : M TenantProvisionOutcome :=
  found ← resource_tenant g;
  tenant ← ok_or found (not_found "tenant");
  cleaned ← TenantRuntime.clean_redis_namespace env deps (g_organization_id g) tenant reset_all;
  fenced g (mret (Some (VObject
    [("recovery_counters_cleared", json_i64 (recovery_counters_cleared cleaned)); ("tenant_id", VString tenant);
     ("tickets_reset", json_i64 (tickets_reset cleaned));
     ("worker_slots_cleared", json_i64 (worker_slots_cleared cleaned))], Provisioned tenant))).

Definition complete_worker_creation_superseded (g : LeaseGuard) (tenant workspace : uuid) :
    M TenantProvisionOutcome :=
  fenced g (mret (Some (result_of [("status", "superseded_by_tenant_delete"); ("workspace_id", workspace)],
                        Provisioned tenant))).

Definition mark_worker_running (g : LeaseGuard) (tenant workspace : uuid) : M TenantProvisionOutcome :=
  fenced g (
    changed ← execute env (λ now _ d,
      let '(n, tab) := update_one workspace (λ w, bool_decide (w_desired_state w = "provisioning"))
        (λ w, w ▷ w_set_desired_state "running" ▷ w_set_observed_state "running" ▷ w_set_updated_at now)
        (workspaces d) in
      (n, on_workspaces (λ _, tab) d));
    mret (if (changed =? 1)%Z
          then Some (result_of [("status", "running"); ("workspace_id", workspace)], Provisioned tenant)
          else None)).

(** *** Worker workspaces *)

(** What the new upstream workspace meets when the lease is held again. *)
Inductive Arrival :=
  | Lost
  | Superseded
  | Elsewhere      (* attached to another Coder workspace *)
  | Attached.

Definition attach_created (g : LeaseGuard) (workspace : uuid) (coder_id : string) : M Arrival :=
  transaction env (
    held ← lock_in_tx env g;
    if negb held then mret (Rollback Lost)
    else
      current ← query env (λ _ _ d,
        w ← workspaces d !! workspace;
        t ← tenants d !! w_tenant_id w;
        if bool_decide (t_organization_id t = w_organization_id w) &&
           bool_decide (w_organization_id w = g_organization_id g)
        then Some (w, t) else None);
      match current with
      | None => mret (Rollback Lost)
      | Some (w, t) =>
          if gone (t_desired_state t) || one_of ["stopped"; "deleting"; "deleted"] (w_desired_state w)
          then mret (Commit Superseded)
          else if negb (bool_decide (w_desired_state w = "provisioning")) then mret (Rollback Lost)
          else if is_some_and (λ id, negb (bool_decide (id = coder_id))) (w_coder_workspace_id w)
          then mret (Rollback Elsewhere)
          else sql env (λ now _ d, attach_coder_workspace workspace coder_id now d);;
               mret (Commit Attached)
      end).

(** [delete_workspace(..).map_err(..)]. *)
Definition delete_upstream_or (message org id : string) : M unit :=
  r ← attempt (delete_upstream org id);
  match r with
  | inr _ => mret tt
  | inl _ => refuse (retryable true (api "CODER_WORKSPACE_DELETE_FAILED" message))
  end.

Definition clean_locally (f : LocalWorkspaceCleanup → nat → ManagerError + unit) : M unit :=
  match local_workspace_cleanup deps with
  | Some c => outside (f c)
  | None => mret tt
  end.

Definition worker_parameters (w : Workspace) (full_name : string) (fleet : Z) (reference digest : string) :
    list (string * string) :=
  [("hosted", "true"); ("runtime_secret_ref", reference); ("workspace_image_digest", digest);
   ("role", w_role w); ("tenant", w_tenant_id w);
   ("repo_url", "https://github.com/" +:+ full_name +:+ ".git");
   ("branch", default "" (w_branch w));
   ("slot", match w_slot w with Some n => pretty n | None => "" end);
   ("fleet_size", pretty fleet);
   ("a2a_relay_addr", "openflows-nexus-" +:+ w_tenant_id w +:+ ":3000")].

(** From a ready controller to the created, attached and running workspace. *)
Definition create_worker (g : LeaseGuard) (id : uuid) (w : Workspace) (t : Tenant) (coder_org full_name : string) :
    M TenantProvisionOutcome :=
  let tenant := w_tenant_id w in
  identity ← on_pool env (query env (λ _ _ d,
    w ← workspaces d !! id;
    ri ← runtime_identities d !! w_tenant_id w;
    if bool_decide (ri_organization_id ri = g_organization_id g) then Some (ri_coder_owner_id ri) else None));
  owner ← fetch_one identity;
  bound ← get_org_binding (g_organization_id g);
  release ← ok_or bound (api RELEASE_NOT_RESOLVED "template release is not published");
  require (one_of ROLES (w_role w)) (InvalidInput "invalid workspace role");;
  ticket ← on_pool env (query env (λ _ _ d, w_ticket_id <$> workspaces d !! id));
  ticket_id ← fetch_one ticket;
  found ← get_org_template_version (g_organization_id g) release (w_role w);
  version ← ok_or found (api RELEASE_NOT_RESOLVED "template version is not ready");
  template ← ok_or (ov_coder_template_id version) (api RELEASE_NOT_RESOLVED "template id missing");
  version_id ← ok_or (ov_coder_version_id version) (api RELEASE_NOT_RESOLVED "template version id missing");
  digest ← role_image_digest release (w_role w);
  reference ← ensure_workspace_runtime_secret (g_organization_id g) tenant id;
  created ← outside (λ n, create_tenant_workspace_with_parameters (adapter deps) n coder_org owner template
    version_id (worker_workspace_name (w_role w) id)
    (worker_parameters w full_name (t_fleet_size t) reference digest ++
     (match ticket_id with Some x => [("ticket_id", x)] | None => [] end) ++
     (match w_a2a_pair_token w with Some x => [("a2a_pair_token", x)] | None => [] end)));
  require (bool_decide (cw_organization_id created = coder_org) && bool_decide (cw_owner_id created = owner))
    (api "CODER_SCOPE_MISMATCH" "worker workspace scope mismatch");;
  arrival ← attach_created g id (cw_id created);
  match arrival with
  | Lost => mret StaleLease
  | Superseded =>
      delete_upstream_or "Coder workspace created during tenant deletion could not be removed" coder_org
        (cw_id created);;
      clean_locally (λ c n, remove_workspace c n (w_role w) (cw_id created));;
      complete_worker_creation_superseded g tenant id
  | Elsewhere => refuse (api "CODER_SCOPE_MISMATCH"
                           "worker workspace is already attached to a different Coder workspace")
  | Attached =>
      ready ← attempt (outside (λ n, wait_workspace_ready (adapter deps) n coder_org (cw_id created)));
      match ready with
      | inl _ =>
          failed ← outside (λ n, workspace_startup_failed (adapter deps) n coder_org (cw_id created));
          mret (if (failed : bool) then NotReady tenant "WORKER_START_FAILED" else WaitingForController tenant)
      | inr _ =>
          confirmed ← runtime_readiness_confirmed id;
          if (confirmed : bool) then mark_worker_running g tenant id else mret (WaitingForController tenant)
      end
  end.

Definition provision_worker_workspace (g : LeaseGuard) : M TenantProvisionOutcome :=
  found ← on_pool env (query env (λ _ _ d,
    o ← operations d !! g_operation_id g;
    id ← op_resource_id o;
    w ← workspaces d !! id;
    org ← organizations d !! w_organization_id w;
    t ← tenants d !! w_tenant_id w;
    r ← github_repositories d !! (t_connection_id t, t_github_repository_id t);
    if bool_decide (t_organization_id t = w_organization_id w) &&
       bool_decide (r_organization_id r = t_organization_id t) &&
       bool_decide (w_organization_id w = g_organization_id g) &&
       bool_decide (w_desired_state w = "provisioning")
    then Some (id, w, t, o_coder_organization_id org, r_full_name r) else None));
  '(id, w, t, coder_org, full_name) ← fetch_one found;
  org ← ok_or coder_org (Database UnexpectedNull);
  let tenant := w_tenant_id w in
  if gone (t_desired_state t) then complete_worker_creation_superseded g tenant id
  else
    nexus ← on_pool env (query env (λ _ _ d,
      fst <$> head (rows (λ _ x, bool_decide (w_tenant_id x = tenant) &&
                                 bool_decide (w_organization_id x = g_organization_id g) &&
                                 bool_decide (w_role x = "nexus") &&
                                 negb (one_of ["deleted"; "stopped"] (w_desired_state x))) (workspaces d))));
    nexus_ready ← match nexus with Some n => runtime_heartbeat_fresh n | None => mret false end;
    if negb nexus_ready then mret (WaitingForController tenant)
    else
      confirmed ← runtime_readiness_confirmed id;
      if (confirmed : bool) then mark_worker_running g tenant id
      else
        pending ← runtime_session_pending_readiness id;
        if (pending : bool) then mret (WaitingForController tenant)
        else create_worker g id w t org full_name.

(** *** Provisioning *)

Definition persist_owner (tenant org : uuid) (owner : string) : M unit :=
  uuid_v4 env;;
  on_pool env (sql env (λ _ _ d,
    match runtime_identities d !! tenant with
    | Some ri =>
        inr (tt, if bool_decide (ri_coder_owner_id ri = owner)
                 then on_runtime_identities (<[tenant := ri_set_status "ready" ri]>) d else d)
    | None =>
        if is_none (scoped_tenant org tenant d) then inl (Violates "runtime_identities_scoped_tenant")
        else inr (tt, on_runtime_identities (<[tenant :=
               {| ri_organization_id := org; ri_coder_owner_id := owner; ri_status := "ready" |}]>) d)
    end));;
  found ← on_pool env (query env (λ _ _ d, ri_coder_owner_id <$> runtime_identities d !! tenant));
  stored ← fetch_one found;
  require (bool_decide (stored = owner))
    (api "OWNER_MIGRATION_REQUIRED" "existing runtime ownership differs from tenant creator").

(** The creator's Coder account, while the creator may still act for the organization. *)
Definition linked_owner (tenant org : uuid) : M (option (string * string)) :=
  on_pool env (query env (λ _ _ d,
    t ← scoped_tenant org tenant d;
    user ← t_owner_user_id t;
    l ← coder_user_links d !! user;
    u ← users d !! user;
    m ← memberships d !! (org, user);
    if bool_decide (u_status u = "active") && bool_decide (m_status m = "active") &&
       one_of ["admin"; "developer"] (m_role m)
    then Some (cul_coder_user_id l, cul_coder_url l) else None)).

Definition mark_tenant_running (g : LeaseGuard) (tenant nexus : uuid) : M TenantProvisionOutcome :=
  stepping g "mark_running" (
    transaction env (
      held ← lock_in_tx env g;
      if negb held then mret (Rollback StaleLease)
      else
        row ← query env (λ _ _ d, t_desired_state <$> tenants d !! tenant);
        state ← fetch_one row;
        if negb (bool_decide (state = "provisioning"))
        then mret (Rollback (NotReady tenant TENANT_STATE_CHANGED))
        else
          execute env (λ now _ d,
            (tt, set_tenant tenant (λ t, t ▷ t_set_desired_state "running" ▷ t_set_observed_state "running"
                                           ▷ t_set_error_code None ▷ t_set_updated_at now) d));;
          changed ← execute env (λ now _ d,
            let '(n, tab) := update_one nexus (λ w, bool_decide (w_desired_state w = "provisioning"))
              (λ w, w ▷ w_set_desired_state "running" ▷ w_set_observed_state "running" ▷ w_set_updated_at now)
              (workspaces d) in
            (n, on_workspaces (λ _, tab) d));
          if negb (changed =? 1)%Z then mret (Rollback StaleLease)
          else
            completed ← complete_in_tx env g (result_of [("status", "running"); ("tenant_id", tenant)]);
            mret (if (completed : bool) then Commit (Provisioned tenant) else Rollback StaleLease))).

(** After the workspace was waited for. *)
Definition settle_nexus (g : LeaseGuard) (tenant nexus : uuid) : M TenantProvisionOutcome :=
  fresh ← runtime_heartbeat_fresh nexus;
  if (fresh : bool) then mark_tenant_running g tenant nexus else mret (WaitingForController tenant).

Definition fail_with (g : LeaseGuard) (tenant : uuid) (code : string) : M TenantProvisionOutcome :=
  record_error g tenant code;; mret (NotReady tenant code).

(** The Nexus workspace exists on Coder already: it is adopted, not restarted. *)
Definition adopt_nexus (g : LeaseGuard) (tenant nexus : uuid) (coder_org existing : string) :
    M TenantProvisionOutcome :=
  stepping g "wait_nexus" (
    ready ← attempt (outside (λ n, wait_workspace_ready (adapter deps) n coder_org existing));
    match ready with
    | inl _ =>
        failed ← outside (λ n, workspace_startup_failed (adapter deps) n coder_org existing);
        mret (if (failed : bool) then NotReady tenant "NEXUS_START_FAILED" else WaitingForController tenant)
    | inr _ => settle_nexus g tenant nexus
    end).

Definition nexus_parameters (tenant : uuid) (reference digest repository : string) (fleet : Z) :
    list (string * string) :=
  [("hosted", "true"); ("runtime_secret_ref", reference); ("workspace_image_digest", digest);
   ("tenant", tenant); ("repo_url", "https://github.com/" +:+ repository +:+ ".git");
   ("github_repository", repository); ("fleet_size", pretty fleet)].

Definition create_nexus (g : LeaseGuard) (tenant nexus : uuid) (coder_org owner : string) :
    M TenantProvisionOutcome :=
  reference ← ensure_workspace_runtime_secret (g_organization_id g) tenant nexus;
  stepping g "create_nexus" (
    resolved ← resolve_nexus_template (g_organization_id g);
    match resolved with
    | None => fail_with g tenant RELEASE_NOT_RESOLVED
    | Some (template, version, digest) =>
        repository ← tenant_repository_full_name tenant;
        row ← on_pool env (query env (λ _ _ d, t_fleet_size <$> tenants d !! tenant));
        fleet ← fetch_one row;
        answer ← attempt (outside (λ n, create_tenant_workspace_with_parameters (adapter deps) n coder_org
                   owner template version (nexus_workspace_name tenant)
                   (nexus_parameters tenant reference digest repository fleet)));
        match answer with
        | inl _ => fail_with g tenant "NEXUS_CREATE_FAILED"
        | inr created =>
            require (bool_decide (cw_organization_id created = coder_org) &&
                     bool_decide (cw_owner_id created = owner))
              (api "CODER_SCOPE_MISMATCH"
                 "created workspace does not match the tenant's organization or owner");;
            TenantRuntime.set_coder_workspace_id env nexus (cw_id created);;
            stepping g "wait_nexus" (
              ready ← attempt (outside (λ n, wait_workspace_ready (adapter deps) n coder_org (cw_id created)));
              match ready with
              | inl _ =>
                  failed ← outside (λ n, workspace_startup_failed (adapter deps) n coder_org (cw_id created));
                  if (failed : bool) then fail_with g tenant "NEXUS_START_FAILED"
                  else mret (WaitingForController tenant)
              | inr _ => settle_nexus g tenant nexus
              end)
        end
    end).

(** From the reserved Nexus row on. *)
Definition reserve_nexus (g : LeaseGuard) (tenant : uuid) (coder_org owner : string) : M TenantProvisionOutcome :=
  stepping g "reserve_nexus" (
    nexus ← ensure_workspace env (g_organization_id g) tenant "nexus" None;
    fresh ← runtime_heartbeat_fresh nexus;
    if (fresh : bool) then mark_tenant_running g tenant nexus
    else
      pending ← runtime_session_pending_readiness nexus;
      if (pending : bool) then mret (NotReady tenant "NEXUS_NOT_READY")
      else
        existing ← on_pool env (query env (λ _ _ d, workspaces d !! nexus ≫= w_coder_workspace_id));
        match existing with
        | Some id => adopt_nexus g tenant nexus coder_org id
        | None => create_nexus g tenant nexus coder_org owner
        end).

Definition allocate (g : LeaseGuard) (tenant : uuid) (coder_org owner : string) : M TenantProvisionOutcome :=
  persist_owner tenant (g_organization_id g) owner;;
  stepping g "allocate_redis" (
    TenantRuntime.ensure_redis_credential env deps (g_organization_id g) tenant ("tenant-redis-" +:+ tenant);;
    stepping g "allocate_hook_key" (
      TenantRuntime.ensure_hook_key env (g_organization_id g) tenant ("tenant-hook-" +:+ tenant);;
      reserve_nexus g tenant coder_org owner)).

Definition ensure_owner (g : LeaseGuard) (tenant : uuid) : M TenantProvisionOutcome :=
  stepping g "ensure_owner" (
    found ← coder_org_for_tenant tenant;
    coder_org ← ok_or found (not_found "organization");
    linked ← linked_owner tenant (g_organization_id g);
    match linked with
    | None => fail_with g tenant "OWNER_MIGRATION_REQUIRED"
    | Some (owner, deployment) =>
        if negb (bool_decide (deployment = trim_end_matches slash (coder_url deps)))
        then fail_with g tenant "CODER_DEPLOYMENT_MISMATCH"
        else
          verified ← attempt (outside (λ n, ensure_user_owner (adapter deps) n coder_org owner));
          match verified with
          | inl _ => fail_with g tenant "CODER_USER_OWNER_FAILED"
          | inr _ => allocate g tenant coder_org owner
          end
    end).

Definition provision (g : LeaseGuard) : M TenantProvisionOutcome :=
  found ← resource_tenant g;
  match found with
  | None => mret (NotReady NIL_UUID TENANT_STATE_CHANGED)
  | Some tenant =>
      slot ← provisioning_slot_available_for env (g_organization_id g) (Some (g_operation_id g));
      if negb slot then mret (Queued tenant)
      else stepping g "recheck" (
        wanted ← tenant_is_provisioning tenant;
        if negb wanted then mret (NotReady tenant TENANT_STATE_CHANGED)
        else
          ready ← org_ready (g_organization_id g);
          if negb ready then mret (NotReady tenant "ORG_NOT_READY")
          else
            accessible ← repo_accessible tenant;
            if negb accessible then mret (NotReady tenant "REPOSITORY_UNAVAILABLE")
            else ensure_owner g tenant)
  end.

(** *** Deleting *)

Definition of_tenant_workspace (org tenant : uuid) (d : Db) (id : uuid) : bool :=
  is_some_and (λ w, bool_decide (w_tenant_id w = tenant) && bool_decide (w_organization_id w = org))
    (workspaces d !! id).

(** A creation of a worker of the tenant. *)
Definition worker_creation (org tenant : uuid) (d : Db) (o : OperationRecord) : bool :=
  bool_decide (op_kind o = "tenant.workspace") &&
  is_some_and (of_tenant_workspace org tenant d) (op_resource_id o).

Definition cancel_abandoned (org tenant : uuid) (now : Z) (d : Db) : Db :=
  on_operations (update
    (λ _ o, worker_creation org tenant d o && bool_decide (op_state o = "retryable_failed") &&
            is_none (op_retry_at o))
    (λ o, unlease o ▷ op_set_state "cancelled" ▷ op_set_retry_at None
                    ▷ op_set_sanitized_result (Some (result_of [("status", "superseded_by_tenant_delete")]))
                    ▷ op_set_error_code None ▷ op_set_updated_at now)) d.

Definition unfinished_creation (org tenant : uuid) (d : Db) : bool :=
  exists_row (λ _ o, worker_creation org tenant d o &&
                     (one_of ["queued"; "running"] (op_state o) ||
                      (bool_decide (op_state o = "retryable_failed") && is_some (op_retry_at o)))) (operations d).

(** The upstream workspaces, one after the other. *)
Definition tear_down (org tenant : uuid) : M unit :=
  listed ← on_pool env (query env (λ _ _ d,
    (λ x : uuid * Workspace * option string,
       (λ o, (default "" (w_coder_workspace_id x.1.2), o, w_role x.1.2)) <$> x.2) <$>
      upstream_rows org tenant (λ _, true) d));
  upstream ← decoded listed;
  each (λ x : string * string * string,
    let '(id, coder_org, role) := x in
    delete_upstream_or "Coder workspace deletion failed; inspect the workspace's delete build in Coder"
      coder_org id;;
    clean_locally (λ c n, remove_workspace c n role id)) upstream;;
  clean_locally (λ c n, remove_artifacts c n tenant).

(** What is left of the tenant's records: rows without credentials or references. *)
Definition erase_tenant (org tenant : uuid) (now : Z) (d : Db) : Db :=
  let own := of_tenant_workspace org tenant d in
  d ▷ on_runtime_chats (delete_rows (λ k _, own k.1))
    ▷ on_tenant_hook_deliveries (delete_rows (λ _ h, bool_decide (hd_tenant_id h = tenant) &&
                                                     bool_decide (hd_organization_id h = org)))
    ▷ on_runtime_credentials (delete_rows (λ _ rc, own (rc_workspace_id rc)))
    ▷ on_workspace_bootstrap_credentials (delete_rows (λ _ b, own (bc_workspace_id b)))
    ▷ on_credential_leases (delete_rows (λ _ l, bool_decide (cr_tenant_id l = Some tenant) &&
                                                bool_decide (cr_organization_id l = org)))
    ▷ on_tenant_hook_keys (delete_rows (λ k h, bool_decide (k = tenant) &&
                                               bool_decide (hk_organization_id h = org)))
    ▷ on_tenant_redis_credentials (delete_rows (λ k r, bool_decide (k = tenant) &&
                                                       bool_decide (rd_organization_id r = org)))
    ▷ on_runtime_identities (delete_rows (λ k r, bool_decide (k = tenant) &&
                                                 bool_decide (ri_organization_id r = org)))
    ▷ on_workspaces (update (λ id _, own id)
        (λ w, w ▷ w_set_desired_state "deleted" ▷ w_set_observed_state "deleted"
                ▷ w_set_coder_workspace_id None ▷ w_set_runtime_secret_ref None
                ▷ w_set_a2a_pair_token None ▷ w_set_registered_at None
                ▷ w_set_last_heartbeat_at None ▷ w_set_updated_at now))
    ▷ on_tenants (λ tab, (update_one tenant (λ t, bool_decide (t_organization_id t = org))
        (λ t, t ▷ t_set_reserved_worker_capacity 0 ▷ t_set_desired_state "deleted"
                ▷ t_set_observed_state "deleted" ▷ t_set_updated_at now) tab).2).

(** A machine account of its own goes with the tenant; a creator's account stays. *)
Definition delete_owner (org tenant : uuid) : M unit :=
  found ← on_pool env (query env (λ _ _ d,
    ri ← runtime_identities d !! tenant;
    o ← organizations d !! ri_organization_id ri;
    t ← tenants d !! tenant;
    if bool_decide (ri_organization_id ri = org) && is_none (t_owner_user_id t)
    then Some (ri_coder_owner_id ri, o_coder_organization_id o) else None));
  match found with
  | None => mret tt
  | Some (owner, coder_org) =>
      coder_org ← ok_or coder_org (Database UnexpectedNull);
      outside (λ n, delete_machine_owner (adapter deps) n coder_org owner)
  end.

(** The Redis user, the namespace, the secrets and the machine account. *)
Definition withdraw (org tenant : uuid) : M unit :=
  TenantRuntime.revoke_redis_credential env deps org tenant;;
  TenantRuntime.clear_redis_namespace env deps org tenant;;
  TenantRuntime.delete_tenant_secrets env org tenant;;
  delete_owner org tenant.

Definition delete (g : LeaseGuard) : M TenantProvisionOutcome :=
  let org := g_organization_id g in
  found ← resource_tenant g;
  match found with
  | None => mret (NotReady NIL_UUID TENANT_STATE_CHANGED)
  | Some tenant =>
      stepping g "recheck" (
        on_pool env (execute env (λ now _ d, (tt, cancel_abandoned org tenant now d)));;
        waiting ← on_pool env (query env (λ _ _ d, unfinished_creation org tenant d));
        if (waiting : bool) then mret (WaitingForController tenant)
        else stepping g "stop_workspaces" (
          tear_down org tenant;;
          withdraw org tenant;;
          fenced g (
            execute env (λ now _ d, (tt, erase_tenant org tenant now d));;
            mret (Some (result_of [("status", "deleted"); ("tenant_id", tenant)], Deleted tenant)))))
  end.

(** *** One turn *)

(** [CONTROLLER_WAIT_RETRY], in seconds. *)
Definition CONTROLLER_WAIT_RETRY : Z := 5.

Definition error_code_of (kind : option string) (e : ManagerError) : string :=
  match e with
  | Database.Api a => api_code a
  | Database _ => "DATABASE_ERROR"
  | Config _ => "CONFIGURATION_ERROR"
  | _ => if coder_rejection deps e && bool_decide (kind = Some "tenant.delete")
         then "CODER_WORKSPACE_DELETE_FAILED" else "TENANT_OPERATION_FAILED"
  end.

Definition finish (g : LeaseGuard) (kind : option string) (outcome : ManagerError + TenantProvisionOutcome) : M unit :=
  match outcome with
  | inr (Provisioned _) | inr (Deleted _) | inr StaleLease => mret tt
  | inr (Queued _) => requeue env g "waiting_for_provisioning_slot";; mret tt
  | inr (WaitingForController _) => requeue_after env g "waiting_for_nexus" CONTROLLER_WAIT_RETRY;; mret tt
  | inr (NotReady _ code) => fail env g (negb (bool_decide (code = TENANT_STATE_CHANGED))) (Some code);; mret tt
  | inr (Failed _ code r) => fail env g r (Some code);; mret tt
  | inl e => fail env g true (Some (error_code_of kind e));; mret tt
  end.

Definition KINDS : list string :=
  ["tenant.provision"; "tenant.delete"; "tenant.workspace"; "tenant.start"; "tenant.stop"; "tenant.clean";
   "tenant.clean_all"; "workspace.stop"; "workspace.delete"].

Definition perform (g : LeaseGuard) (kind : option string) : M TenantProvisionOutcome :=
  let this k := bool_decide (kind = Some k) in
  if this "tenant.delete" then delete g
  else if this "tenant.workspace" then provision_worker_workspace g
  else if this "tenant.start" then start g
  else if this "tenant.stop" then stop g
  else if this "tenant.clean" then clean g false
  else if this "tenant.clean_all" then clean g true
  else if this "workspace.stop" then mutate_worker_workspace g false
  else if this "workspace.delete" then mutate_worker_workspace g true
  else provision g.

(** The heartbeats meanwhile are among what others do. *)
Definition run_once (owner : string) : M unit :=
  claimed ← claim_kinds_with_org_slot env owner KINDS;
  match claimed with
  | None => mret tt
  | Some g =>
      kind ← operation_kind (g_operation_id g);
      result ← attempt (perform g kind);
      finish g kind result
  end.

End worker.
End Worker.
