(* ===== verification/TenantRedis.v ===== *)
(** * A tenant's place in Redis

    [runtime/redis.rs] of the manager: the Redis user of a tenant, and cleaning and
    clearing the namespace in which the agents of the tenant keep their shared store.
    Between any two commands other clients act, and a command may fail before or after
    the server has carried it out. *)
From S2P Require Import Prelude Text Json ValueCodec Glob RedisCas Tickets.
From S2P Require Import Schema Database TenantWorker.

(** ** The server *)

(** The data, and the rules of every user. *)
Definition Server : Type := redis * gmap string (list string).

Record RState := {
  server : Server;
  turn : nat;      (* commands so far *)
}.

Definition R (A : Type) : Type := RState → (ManagerError + A) * RState.

#[export] Instance r_ret : MRet R := λ A a s, (inr a, s).
#[export] Instance r_bind : MBind R := λ A B f m s,
  match m s with
  | (inr a, s') => f a s'
  | (inl e, s') => (inl e, s')
  end.

Definition r_fail {A} (msg : string) : R A := λ s, (inl (Service msg), s).

(** What becomes of a command: answered, lost before the server saw it, or carried out
    without an answer. *)
Inductive Fate :=
  | Answered
  | Dropped (msg : string)
  | Unanswered (msg : string).

(** Commands as documented; the wrong type of a value is an error. *)
Definition rget (k : string) (sv : Server) : string + option string * Server :=
  match GET k sv.1 with
  | Ok o => inr (o, sv)
  | _ => inl "WRONGTYPE"
  end.
Definition rset (k v : string) (sv : Server) : string + unit * Server := inr (tt, (SET k v sv.1, sv.2)).
Definition holds_string (k : string) (r : redis) : bool :=
  match r !! k with Some (RStr _) => true | _ => false end.
Definition rsadd (k x : string) (sv : Server) : string + unit * Server :=
  if holds_string k sv.1 then inl "WRONGTYPE" else inr (tt, (SADD k x sv.1, sv.2)).
Definition rsrem (k x : string) (sv : Server) : string + unit * Server :=
  if holds_string k sv.1 then inl "WRONGTYPE" else inr (tt, (SREM k x sv.1, sv.2)).
(** [DEL] of several keys answers how many there were. *)
Definition rdel (ks : list string) (sv : Server) : string + Z * Server :=
  let there := filter (λ k, is_Some (sv.1 !! k)) (remove_dups ks) in
  inr (Z.of_nat (length there), (foldr DEL sv.1 ks, sv.2)).

(** [ACL SETUSER] applies its rules one by one, [reset] forgets the earlier ones. *)
Definition apply_rules (rules more : list string) : list string :=
  foldl (λ acc r, if bool_decide (r = "reset") then [] else acc ++ [r]) rules more.
Definition racl (args : list string) (sv : Server) : string + unit * Server :=
  match args with
  | "SETUSER" :: user :: more =>
      inr (tt, (sv.1, <[user := apply_rules (default [] (sv.2 !! user)) more]> sv.2))
  | ["DELUSER"; user] => inr (tt, (sv.1, delete user sv.2))
  | _ => inl "ERR"
  end.

(** [MATCH] of [SCAN], on patterns without brackets and backslashes. *)
Definition redis_match (pattern k : string) : bool := glob_spec (chars pattern) (chars k).

(** ** [FredRedisIsolation] *)

Definition tenant_acl_args (username password namespace : string) : list string :=
  ["SETUSER"; username; "reset"; "on"; ">" +:+ password; "~ns:" +:+ namespace +:+ ":*";
   "&openflows:" +:+ namespace +:+ ":*"; "+@read"; "+@write"; "+ping"; "+publish"; "+subscribe"; "+eval";
   "+evalsha"; "-keys"; "-scan"; "-flushdb"; "-flushall"; "-acl"; "-config"; "-shutdown"].

(** [matches!(status, AwaitingHuman { .. } | Failed { .. })]. *)
Definition stale (s : TicketStatus) : bool :=
  match s with
  | AwaitingHuman _ _ _ | Tickets.Failed _ _ _ => true
  | _ => false
  end.

Definition reopen (t : Ticket) : Ticket :=
  mkTicket (tk_id t) (tk_title t) (tk_body t) (tk_priority t) (tk_branch t) Open (tk_issue_url t) u32_0.

(** The loop over the tickets. *)
Fixpoint reset_tickets (reset_all : bool) (tickets : list Ticket) : list Ticket * gset string :=
  match tickets with
  | [] => ([], ∅)
  | t :: l =>
      let '(l', reset) := reset_tickets reset_all l in
      if reset_all || stale (tk_status t) then (reopen t :: l', {[tk_id t]} ∪ reset) else (t :: l', reset)
  end.

Definition reset_tenant_state (tickets : list Ticket) (slots : gmap string WorkerSlot) (reset_all : bool) :
    list Ticket * gmap string WorkerSlot * gset string * Z :=
  let '(tickets', reset) := reset_tickets reset_all tickets in
  let kept : gmap string WorkerSlot :=
    if reset_all then ∅
    else filter (λ ks, null_or (λ id, negb (bool_decide (id ∈ reset))) (worker_ticket (slot_status ks.2)) = true)
           slots in
  (tickets', kept, reset, (Z.of_nat (size slots) - Z.of_nat (size kept))%Z).

Definition tickets_key (namespace : string) : string := "ns:" +:+ namespace +:+ ":tickets".
Definition slots_key (namespace : string) : string := "ns:" +:+ namespace +:+ ":worker_slots".
Definition index_key (namespace : string) : string := "ns:" +:+ namespace +:+ ":_keys".
Definition recovery_key (namespace ticket_id : string) : string :=
  "ns:" +:+ namespace +:+ ":ticket:" +:+ ticket_id +:+ ":recovery_attempts".
Definition recovery_pattern (namespace : string) : string := recovery_key namespace "*".
Definition namespace_pattern (namespace : string) : string := "ns:" +:+ namespace +:+ ":*".

Section client.
Context (others : nat → Server → Server).                    (* before a command *)
Context (fate : nat → Fate).
Context (print : Value → string) (parse : string → result Value).
Context (scanned : nat → string → redis → list string).      (* the pages of a [SCAN] together *)
Context (hash_order : gset string → list string).            (* iteration over a [HashSet] *)

Definition redis_command {A} (what : string) (f : Server → string + A * Server) : R A := λ s,
  let sv := others (turn s) (server s) in
  let after sv' := {| server := sv'; turn := S (turn s) |} in
  match fate (turn s), f sv with
  | Answered, inr (a, sv') => (inr a, after sv')
  | Answered, inl e => (inl (Service (what +:+ ": " +:+ e)), after sv)
  | Dropped e, _ => (inl (Service (what +:+ ": " +:+ e)), after sv)
  | Unanswered e, inr (_, sv') => (inl (Service (what +:+ ": " +:+ e)), after sv')
  | Unanswered e, inl _ => (inl (Service (what +:+ ": " +:+ e)), after sv)
  end.

(** The pages of a [SCAN] are asked for one after the other; here they are one command, and
    what they find together is arbitrary up to the pattern. *)
Definition scan (what pattern : string) : R (list string) := λ s,
  redis_command what (λ sv, inr (scanned (turn s) pattern sv.1, sv)) s.

Definition ensure_tenant (username password namespace : string) : R unit :=
  redis_command "Redis ACL operation failed" (racl (tenant_acl_args username password namespace)).

Definition revoke_tenant (username : string) : R unit :=
  redis_command "Redis ACL operation failed" (racl ["DELUSER"; username]).

(** [raw.map(serde_json::from_str).transpose()?.unwrap_or_default()]. *)
Definition decode_or {A} `{Serde A} (what : string) (dflt : A) (raw : option string) : R A :=
  match raw with
  | None => mret dflt
  | Some s =>
      match parse s ≫= from_value with
      | Ok a => mret a
      | Err e => r_fail (what +:+ ": " +:+ e)
      | Panic => r_fail what
      end
  end.

(** A value is written together with its entry in the index. *)
Definition store_value (what namespace k v : string) : R unit :=
  redis_command what (rset k v);;
  redis_command "Redis tenant index update failed" (rsadd (index_key namespace) k).

Fixpoint delete_counters (namespace : string) (ks : list string) : R Z :=
  match ks with
  | [] => mret 0%Z
  | k :: l =>
      n ← redis_command "Redis recovery counter cleanup failed" (rdel [k]);
      redis_command "Redis tenant index cleanup failed" (rsrem (index_key namespace) k);;
      rest ← delete_counters namespace l;
      mret (n + rest)%Z
  end.

Definition clean_namespace (namespace : string) (reset_all : bool) : R NamespaceCleanResult :=
  tickets_raw ← redis_command "Redis tenant tickets read failed" (rget (tickets_key namespace));
  slots_raw ← redis_command "Redis worker slots read failed" (rget (slots_key namespace));
  tickets ← decode_or "Redis tenant tickets are invalid" [] tickets_raw;
  slots ← decode_or "Redis worker slots are invalid" ∅ slots_raw;
  let '(tickets', slots', reset, slots_cleared) := reset_tenant_state tickets slots reset_all in
  (if bool_decide (reset = ∅) then mret tt
   else store_value "Redis tenant tickets update failed" namespace (tickets_key namespace)
          (print (to_value tickets')));;
  (if (0 <? slots_cleared)%Z
   then store_value "Redis worker slots update failed" namespace (slots_key namespace) (print (to_value slots'))
   else mret tt);;
  recovery_keys ← (if reset_all then scan "Redis recovery counter scan failed" (recovery_pattern namespace)
                   else mret (recovery_key namespace <$> hash_order reset));
  recovery_counters ← delete_counters namespace recovery_keys;
  mret {| tickets_reset := Z.of_nat (size reset); worker_slots_cleared := slots_cleared;
          recovery_counters_cleared := recovery_counters |}.

Definition clear_namespace (namespace : string) : R Z :=
  found ← scan "Redis namespace scan failed" (namespace_pattern namespace);
  if bool_decide (found = []) then mret 0%Z
  else redis_command "Redis namespace cleanup failed" (rdel found).

End client.

(** ** Confinement *)

(** The keys of a namespace, and what happens elsewhere. *)
Definition inside (namespace k : string) : bool := starts_with ("ns:" +:+ namespace +:+ ":") k.
Definition agrees_outside (namespace : string) (r r' : redis) : Prop :=
  ∀ k, inside namespace k = false → r' !! k = r !! k.

(** No character of the namespace is special in a pattern. *)
Definition plain (namespace : string) : bool :=
  literal namespace && no_char "["%char namespace && no_char "\"%char namespace.

Lemma literal_prefix namespace : plain namespace = true → literal ("ns:" +:+ namespace +:+ ":") = true.
Proof.
  unfold plain, literal, no_char. rewrite !andb_true_iff. intros [[[H1 H2] _] _].
  by rewrite !all_chars_app, H1, H2.
Qed.

Lemma inside_intro namespace x : inside namespace ("ns:" +:+ namespace +:+ ":" +:+ x) = true.
Proof.
  unfold inside, starts_with. replace ("ns:" +:+ namespace +:+ ":" +:+ x) with (("ns:" +:+ namespace +:+ ":") +:+ x)
    by (by rewrite !string_app_assoc).
  by rewrite strip_prefix_app.
Qed.

Lemma inside_recovery namespace id : inside namespace (recovery_key namespace id) = true.
Proof. apply (inside_intro namespace ("ticket:" +:+ id +:+ ":recovery_attempts")). Qed.

(** What a pattern of the namespace matches is in it. *)
Lemma matches_inside namespace p k :
  plain namespace = true → redis_match ("ns:" +:+ namespace +:+ ":" +:+ p) k = true → inside namespace k = true.
Proof.
  intros Hp Hm. unfold redis_match in Hm.
  replace ("ns:" +:+ namespace +:+ ":" +:+ p) with (("ns:" +:+ namespace +:+ ":") +:+ p) in Hm
    by (by rewrite !string_app_assoc).
  rewrite chars_app in Hm.
  apply glob_spec_literal_prefix in Hm as (r & Hr & _); [|by apply literal_prefix].
  apply chars_app_inv in Hr as ->. unfold inside, starts_with. by rewrite strip_prefix_app.
Qed.

Section confinement.
Context (others : nat → Server → Server) (fate : nat → Fate).
Context (scanned : nat → string → redis → list string).
Context (scan_matches : ∀ n p r k, k ∈ scanned n p r → redis_match p k = true).
Context (namespace : string) (namespace_plain : plain namespace = true).

(** A condition on what is outside of the namespace that the others keep. *)
Context (Q : redis → Prop).
Context (Q_outside : ∀ r r', agrees_outside namespace r r' → Q r → Q r').
Context (Q_others : ∀ n sv, Q sv.1 → Q (others n sv).1).

Definition confined {A} (m : R A) (P : A → Prop) : Prop :=
  ∀ s, Q (server s).1 → Q (server (m s).2).1 ∧ match (m s).1 with inr a => P a | inl _ => True end.
Abbreviation safe m := (confined m (λ _, True)).

Lemma confined_bind {A B} (m : R A) (f : A → R B) P P' :
  confined m P → (∀ a, P a → confined (f a) P') → confined (m ≫= f) P'.
Proof.
  intros Hm Hf s HQ. unfold mbind, r_bind. destruct (Hm s HQ) as [H1 H2]. destruct (m s) as [[e|a] s']; [done|].
  by apply Hf.
Qed.
Lemma confined_ret {A} (a : A) (P : A → Prop) : P a → confined (mret a) P.
Proof. by intros H s HQ. Qed.
Lemma confined_fail {A} msg (P : A → Prop) : confined (r_fail msg) P.
Proof. by intros s HQ. Qed.

Lemma confined_command {A} what (f : Server → string + A * Server) (P : A → Prop) :
  (∀ sv a sv', f sv = inr (a, sv') → P a ∧ agrees_outside namespace sv.1 sv'.1) →
  confined (redis_command others fate what f) P.
Proof.
  intros Hf s HQ. unfold redis_command. apply (Q_others (turn s)) in HQ.
  pose proof (Hf (others (turn s) (server s))) as H.
  destruct (f _) as [e|[a sv']]; [by destruct (fate _)|].
  destruct (H a sv' eq_refl) as [HP Ho]. destruct (fate _); cbn; split; try done; by eapply Q_outside.
Qed.

Lemma safe_command {A} what (f : Server → string + A * Server) :
  (∀ sv a sv', f sv = inr (a, sv') → agrees_outside namespace sv.1 sv'.1) → safe (redis_command others fate what f).
Proof. intros H. apply confined_command. naive_solver. Qed.
Lemma safe_then {A B} (m : R A) (f : A → R B) P : safe m → (∀ a, confined (f a) P) → confined (m ≫= f) P.
Proof. intros Hm Hf. eapply confined_bind; [exact Hm|]. intros a _. apply Hf. Qed.

Lemma safe_rget what k : safe (redis_command others fate what (rget k)).
Proof. apply safe_command. intros sv a sv' H. unfold rget in H. destruct (GET _ _); by simplify_eq. Qed.

Lemma safe_acl what args : safe (redis_command others fate what (racl args)).
Proof.
  apply safe_command. intros sv a sv' H. unfold racl in H.
  repeat case_match; by simplify_eq/=.
Qed.

Lemma outside_insert k v r : inside namespace k = true → agrees_outside namespace r (<[k := v]> r).
Proof. intros Hk j Hj. rewrite lookup_insert_ne; [done|]. intros <-. congruence. Qed.
Lemma outside_delete k r : inside namespace k = true → agrees_outside namespace r (delete k r).
Proof. intros Hk j Hj. rewrite lookup_delete_ne; [done|]. intros <-. congruence. Qed.
Lemma outside_trans r1 r2 r3 :
  agrees_outside namespace r1 r2 → agrees_outside namespace r2 r3 → agrees_outside namespace r1 r3.
Proof. intros H1 H2 k Hk. rewrite H2, H1; done. Qed.

Lemma outside_DELs ks r :
  Forall (λ k, inside namespace k = true) ks → agrees_outside namespace r (foldr DEL r ks).
Proof.
  induction 1 as [|k ks Hk _ IH]; [done|]. cbn. eapply outside_trans; [exact IH|by apply outside_delete].
Qed.

Lemma safe_store what k v : inside namespace k = true → safe (store_value others fate what namespace k v).
Proof.
  intros Hk. apply safe_then; [|intros _]; apply safe_command.
  - intros sv a sv' [= _ <-]. by apply outside_insert.
  - intros sv a sv' H. unfold rsadd in H. destruct (holds_string _ _); [done|].
    injection H as _ <-. cbn. unfold SADD.
    repeat case_match; try done; apply outside_insert; apply (inside_intro namespace "_keys").
Qed.

Lemma safe_counters ks :
  Forall (λ k, inside namespace k = true) ks → safe (delete_counters others fate namespace ks).
Proof.
  induction 1 as [|k ks Hk _ IH]; [by apply confined_ret|].
  apply safe_then; [apply safe_command|intros n].
  { intros sv a sv' [= _ <-]. by apply outside_delete. }
  apply safe_then; [apply safe_command|intros []].
  - intros sv a sv' H. unfold rsrem in H. destruct (holds_string _ _); [done|].
    injection H as _ <-. cbn. unfold SREM.
    repeat case_match; try done; (apply outside_insert || apply outside_delete);
      apply (inside_intro namespace "_keys").
  - apply safe_then; [exact IH|]. intros z. by apply confined_ret.
Qed.

Lemma safe_scan what p :
  confined (scan others fate scanned what ("ns:" +:+ namespace +:+ ":" +:+ p))
    (Forall (λ k, inside namespace k = true)).
Proof.
  intros s HQ. unfold scan. apply (confined_command what _ (Forall (λ k, inside namespace k = true))); [|done].
  intros sv a sv' [= <- <-]. split; [|done]. apply Forall_forall. intros k Hk.
  eapply matches_inside; [done|]. by eapply scan_matches.
Qed.

Lemma safe_clear : safe (clear_namespace others fate scanned namespace).
Proof.
  unfold clear_namespace. eapply confined_bind; [apply (safe_scan _ "*")|intros ks Hks].
  case_bool_decide; [by apply confined_ret|]. apply safe_command. intros sv a sv' [= _ <-]. by apply outside_DELs.
Qed.

Context (print : Value → string) (parse : string → result Value).
Context (hash_order : gset string → list string).

Lemma safe_decode {A} `{Serde A} what (d : A) raw : safe (decode_or parse what d raw).
Proof.
  unfold decode_or. destruct raw as [s|]; [|by apply confined_ret].
  destruct (parse s ≫= from_value); [by apply confined_ret|apply confined_fail..].
Qed.

Lemma safe_clean reset_all :
  safe (clean_namespace others fate print parse scanned hash_order namespace reset_all).
Proof.
  unfold clean_namespace.
  apply safe_then; [apply safe_rget|intros traw]. apply safe_then; [apply safe_rget|intros sraw].
  apply safe_then; [apply safe_decode|intros ts]. apply safe_then; [apply safe_decode|intros sl].
  destruct (reset_tenant_state _ _ _) as [[[ts' sl'] reset] cleared].
  apply safe_then; [|intros []; apply safe_then; [|intros []]].
  - case_bool_decide; [by apply confined_ret|].
    apply safe_store. apply (inside_intro namespace "tickets").
  - destruct (0 <? cleared)%Z; [|by apply confined_ret].
    apply safe_store. apply (inside_intro namespace "worker_slots").
  - apply (confined_bind _ _ (Forall (λ k, inside namespace k = true)));
      [|intros ks Hks; apply safe_then; [by apply safe_counters|]].
    + destruct reset_all.
      * apply (safe_scan _ ("ticket:" +:+ "*" +:+ ":recovery_attempts")).
      * apply confined_ret. apply Forall_fmap, Forall_true. intros id. apply inside_recovery.
    + intros n. by apply confined_ret.
Qed.

End confinement.

(** ** What a user may do *)

(** A key or a channel must match one of the patterns for it; of the rules on a command the
    last one counts, and [member] says which commands Redis has in a category. *)
Definition allows_key (rules : list string) (k : string) : bool :=
  existsb (λ r, match strip_prefix "~" r with Some p => redis_match p k | None => false end) rules.
Definition allows_channel (rules : list string) (k : string) : bool :=
  existsb (λ r, match strip_prefix "&" r with Some p => redis_match p k | None => false end) rules.
Definition rule_on (member : string → string → bool) (c : string) (b : bool) (rule : string) : bool :=
  match strip_prefix "+@" rule with
  | Some category => b || member category c
  | None => if bool_decide (rule = "+" +:+ c) then true else if bool_decide (rule = "-" +:+ c) then false else b
  end.
Definition allows_command (member : string → string → bool) (rules : list string) (c : string) : bool :=
  foldl (rule_on member c) false rules.

Definition tenant_rules (password namespace : string) : list string :=
  drop 3 (tenant_acl_args "" password namespace).

Lemma apply_tenant_rules old username password namespace :
  apply_rules old (drop 2 (tenant_acl_args username password namespace)) = tenant_rules password namespace.
Proof.
  unfold apply_rules, tenant_rules, tenant_acl_args. cbn [drop foldl].
  rewrite (bool_decide_eq_true_2 ("reset" = "reset")) by done.
  by rewrite !bool_decide_eq_false_2 by done.
Qed.

Lemma racl_tenant username password namespace sv :
  racl (tenant_acl_args username password namespace) sv =
  inr (tt, (sv.1, <[username := tenant_rules password namespace]> sv.2)).
Proof. by rewrite <-(apply_tenant_rules (default [] (sv.2 !! username)) username). Qed.

(** A prefix and a star match what begins with the prefix. *)
Lemma prefix_matches p k : literal p = true → redis_match (p +:+ "*") k = starts_with p k.
Proof.
  intros Hp. unfold redis_match. rewrite chars_app. apply eq_bool_prop_intro; split; rewrite !Is_true_true.
  - intros Hm. apply glob_spec_literal_prefix in Hm as (r & Hr & _); [|done].
    apply chars_app_inv in Hr as ->. unfold starts_with. by rewrite strip_prefix_app.
  - unfold starts_with. destruct (strip_prefix _ k) as [r|] eqn:E; [|done]. intros _.
    apply strip_prefix_Some in E as ->. rewrite chars_app. apply glob_spec_prefix_app; [done|].
    change (chars "*") with [star_char]. apply glob_spec_star. exists (length (chars r)).
    by rewrite drop_all.
Qed.

Lemma namespace_matches namespace k :
  plain namespace = true → redis_match (namespace_pattern namespace) k = inside namespace k.
Proof.
  intros Hp. unfold namespace_pattern, inside.
  replace ("ns:" +:+ namespace +:+ ":*") with (("ns:" +:+ namespace +:+ ":") +:+ "*") by (by rewrite !string_app_assoc).
  by apply prefix_matches, literal_prefix.
Qed.

Lemma channel_matches namespace k :
  plain namespace = true →
  redis_match ("openflows:" +:+ namespace +:+ ":*") k = starts_with ("openflows:" +:+ namespace +:+ ":") k.
Proof.
  intros Hp.
  assert (Hl : literal ("openflows:" +:+ namespace +:+ ":") = true).
  { unfold plain, literal, no_char in *. rewrite !andb_true_iff in Hp. destruct Hp as [[[H1 H2] _] _].
    by rewrite !all_chars_app, H1, H2. }
  replace ("openflows:" +:+ namespace +:+ ":*") with (("openflows:" +:+ namespace +:+ ":") +:+ "*")
    by (by rewrite !string_app_assoc).
  by apply prefix_matches.
Qed.

(** Rules that name commands, one after the other. *)
Lemma granted_rules member c l b :
  forallb (λ x, is_none (strip_prefix "@" x)) l = true →
  foldl (rule_on member c) b ((λ x, "+" +:+ x) <$> l) = b || bool_decide (c ∈ l).
Proof.
  revert b. induction l as [|x l IH]; intros b Hl; [by rewrite orb_false_r|]. rewrite fmap_cons. cbn [foldl].
  cbn [forallb] in Hl. apply andb_true_iff in Hl as [Hx Hl]. rewrite IH by done.
  assert (rule_on member c b ("+" +:+ x) = b || bool_decide (c = x)) as ->.
  { unfold rule_on. change (strip_prefix "+@" ("+" +:+ x)) with (strip_prefix "@" x).
    destruct (strip_prefix "@" x); [done|]. rewrite (bool_decide_eq_false_2 ("+" +:+ x = "-" +:+ c)) by done.
    destruct (decide (c = x)) as [->|Hne].
    - rewrite (bool_decide_eq_true_2 (x = x)), bool_decide_eq_true_2 by done. by rewrite orb_true_r.
    - rewrite (bool_decide_eq_false_2 (c = x)), bool_decide_eq_false_2, orb_false_r; [done| |done].
      intros E. injection E as E. by symmetry in E. }
  rewrite <-orb_assoc. f_equal. apply eq_bool_prop_intro. rewrite orb_True, !bool_decide_spec. set_solver.
Qed.

Lemma denied_rules member c l b :
  foldl (rule_on member c) b ((λ x, "-" +:+ x) <$> l) = b && negb (bool_decide (c ∈ l)).
Proof.
  revert b. induction l as [|x l IH]; intros b; [by rewrite andb_true_r|]. rewrite fmap_cons. cbn [foldl]. rewrite IH.
  assert (rule_on member c b ("-" +:+ x) = b && negb (bool_decide (c = x))) as ->.
  { unfold rule_on. change (strip_prefix "+@" ("-" +:+ x)) with (@None string). cbn.
    rewrite (bool_decide_eq_false_2 (_ = String "+" c)) by done. destruct (decide (c = x)) as [->|Hne].
    - rewrite (bool_decide_eq_true_2 (x = x)), bool_decide_eq_true_2 by done. by rewrite andb_false_r.
    - rewrite (bool_decide_eq_false_2 (c = x)), bool_decide_eq_false_2, andb_true_r; [done| |done].
      intros E. injection E as E. by symmetry in E. }
  rewrite <-andb_assoc, <-negb_orb. do 2 f_equal. apply eq_bool_prop_intro. rewrite orb_True, !bool_decide_spec. set_solver.
Qed.

(** What the rules of a tenant come to. *)
Definition GRANTED : list string := ["ping"; "publish"; "subscribe"; "eval"; "evalsha"].
Definition DENIED : list string := ["keys"; "scan"; "flushdb"; "flushall"; "acl"; "config"; "shutdown"].

Lemma tenant_rules_exact password namespace :
  plain namespace = true →
  (∀ k, allows_key (tenant_rules password namespace) k = inside namespace k) ∧
  (∀ k, allows_channel (tenant_rules password namespace) k = starts_with ("openflows:" +:+ namespace +:+ ":") k) ∧
  ∀ member c, allows_command member (tenant_rules password namespace) c =
    (member "read" c || member "write" c || bool_decide (c ∈ GRANTED)) && negb (bool_decide (c ∈ DENIED)).
Proof.
  intros Hp. split_and!.
  - intros k. rewrite <-(namespace_matches _ _ Hp). unfold allows_key, tenant_rules. cbn. by rewrite orb_false_r.
  - intros k. rewrite <-(channel_matches _ _ Hp). unfold allows_channel, tenant_rules. cbn. by rewrite orb_false_r.
  - intros member c.
    change (tenant_rules password namespace) with
      (take 4 (tenant_rules password namespace) ++ ["+@read"; "+@write"] ++
       ((λ x, "+" +:+ x) <$> GRANTED) ++ ((λ x, "-" +:+ x) <$> DENIED)).
    unfold allows_command. rewrite !foldl_app, denied_rules, granted_rules by done. done.
Qed.

(** Commands without keys that Redis counts among the reading and writing ones are not
    confined by patterns: [SWAPDB], [RANDOMKEY] and [DBSIZE] are left to a tenant. *)
Lemma tenant_keeps_keyless_commands password namespace member c :
  plain namespace = true → member "read" c = true ∨ member "write" c = true →
  c ∈ ["swapdb"; "randomkey"; "dbsize"] → allows_command member (tenant_rules password namespace) c = true.
Proof.
  intros Hp Hm Hc. rewrite (proj2 (proj2 (tenant_rules_exact password namespace Hp))).
  rewrite (bool_decide_eq_false_2 (c ∈ DENIED)) by (unfold DENIED; set_solver).
  by destruct Hm as [->| ->]; rewrite ?orb_true_r.
Qed.

(** ** Cleaning *)

(** What cleaning resets, and what it leaves. *)
Definition hit (reset_all : bool) (t : Ticket) : bool := reset_all || stale (tk_status t).
Definition reset_ids (reset_all : bool) (ts : list Ticket) : gset string :=
  list_to_set (tk_id <$> filter (λ t, hit reset_all t = true) ts).
Definition cleaned_tickets (reset_all : bool) (ts : list Ticket) : list Ticket :=
  (λ t, if hit reset_all t then reopen t else t) <$> ts.
Definition idle_of (reset : gset string) (s : WorkerSlot) : bool :=
  null_or (λ id, negb (bool_decide (id ∈ reset))) (worker_ticket (slot_status s)).
Definition cleaned_slots (reset_all : bool) (reset : gset string) (sl : gmap string WorkerSlot) : gmap string WorkerSlot :=
  if reset_all then ∅ else filter (λ ks, idle_of reset ks.2 = true) sl.

Lemma reset_tickets_spec reset_all ts :
  reset_tickets reset_all ts = (cleaned_tickets reset_all ts, reset_ids reset_all ts).
Proof.
  unfold cleaned_tickets, reset_ids. induction ts as [|t ts IH]; [done|]. cbn [reset_tickets]. rewrite IH.
  rewrite fmap_cons. fold (hit reset_all t). destruct (hit reset_all t) eqn:E.
  - by rewrite filter_cons_True.
  - by rewrite filter_cons_False by (by rewrite E).
Qed.

Lemma reset_tenant_state_spec ts sl reset_all :
  let reset := reset_ids reset_all ts in
  reset_tenant_state ts sl reset_all =
  (cleaned_tickets reset_all ts, cleaned_slots reset_all reset sl, reset,
   (Z.of_nat (size sl) - Z.of_nat (size (cleaned_slots reset_all reset sl)))%Z).
Proof.
  cbn zeta. unfold reset_tenant_state. rewrite reset_tickets_spec. by destruct reset_all.
Qed.

(** Nothing is lost when nothing was to be reset. *)
Lemma cleaned_none reset_all ts : reset_ids reset_all ts = ∅ → cleaned_tickets reset_all ts = ts.
Proof.
  intros H. unfold cleaned_tickets.
  assert (∀ t, t ∈ ts → hit reset_all t = false) as Hn.
  { intros t Ht. destruct (hit reset_all t) eqn:E; [|done]. exfalso.
    assert (tk_id t ∈ reset_ids reset_all ts) as Hin; [|rewrite H in Hin; set_solver].
    apply elem_of_list_to_set, list_elem_of_fmap. exists t. split; [done|]. by apply list_elem_of_filter. }
  clear H. induction ts as [|t ts IH]; [done|]. rewrite fmap_cons, Hn, IH by set_solver. done.
Qed.

Lemma cleaned_same reset_all reset sl :
  size (cleaned_slots reset_all reset sl) = size sl → cleaned_slots reset_all reset sl = sl.
Proof.
  unfold cleaned_slots. destruct reset_all; intros H.
  - by symmetry; apply map_size_empty_inv.
  - apply map_subseteq_size_eq; [|lia]. apply map_filter_subseteq.
Qed.

Lemma cleaned_le reset_all reset sl : size (cleaned_slots reset_all reset sl) ≤ size sl.
Proof.
  unfold cleaned_slots. destruct reset_all; [rewrite map_size_empty; lia|].
  apply map_subseteq_size, map_filter_subseteq.
Qed.

(** The counters that cleaning removes. *)
Definition recovery_of (namespace : string) (reset_all : bool) (reset : gset string) (k : string) : bool :=
  if reset_all then redis_match (recovery_pattern namespace) k
  else bool_decide (k ∈ recovery_key namespace <$> elements reset).

Lemma recovery_form namespace reset_all reset k :
  plain namespace = true → recovery_of namespace reset_all reset k = true →
  ∃ r, k = "ns:" +:+ namespace +:+ ":ticket:" +:+ r.
Proof.
  intros Hp. unfold recovery_of. destruct reset_all.
  - unfold redis_match, recovery_pattern, recovery_key.
    replace ("ns:" +:+ namespace +:+ ":ticket:" +:+ "*" +:+ ":recovery_attempts")
      with (("ns:" +:+ namespace +:+ ":") +:+ "ticket:*:recovery_attempts") by (by rewrite !string_app_assoc).
    rewrite chars_app. intros (r & Hr & Hg)%glob_spec_literal_prefix; [|by apply literal_prefix].
    change (chars "ticket:*:recovery_attempts") with (chars "ticket:" ++ chars "*:recovery_attempts") in Hg.
    apply glob_spec_literal_prefix in Hg as (r' & -> & _); [|done].
    apply chars_app_inv in Hr as ->. exists (of_chars r'). by rewrite !string_app_assoc.
  - intros (id & -> & _)%bool_decide_eq_true%list_elem_of_fmap. by eexists.
Qed.

Lemma recovery_distinct namespace reset_all reset k :
  plain namespace = true → recovery_of namespace reset_all reset k = true →
  k ≠ tickets_key namespace ∧ k ≠ slots_key namespace ∧ k ≠ index_key namespace.
Proof.
  intros Hp (r & ->)%recovery_form; [|done].
  split_and!; intros H%(inj (String.append _))%(inj (String.append _)); done.
Qed.

Section quiet.
Context (print : Value → string) (parse : string → result Value).
Context (parse_print : ∀ v, parse (print v) = Ok v).
Context (scanned : nat → string → redis → list string) (hash_order : gset string → list string).
Context (scan_exact : ∀ n p r k, k ∈ scanned n p r ↔ is_Some (r !! k) ∧ redis_match p k = true).
Context (hash_exact : ∀ g, hash_order g ≡ₚ elements g).
Context (namespace : string) (namespace_plain : plain namespace = true).

Abbreviation alone := (λ (_ : nat) (sv : Server), sv).
Abbreviation answered := (λ _ : nat, Answered).

(** What a key holds for the readers of the store. *)
Definition stored {A} `{Serde A} (dflt : A) (r : redis) (k : string) : option A :=
  match r !! k with
  | None => Some dflt
  | Some (RStr s) => ok (parse s ≫= from_value)
  | Some (RSet _) => None
  end.

Lemma stored_decodes {A} `{Serde A} (dflt a : A) r u k :
  stored dflt r k = Some a →
  ∃ raw, rget k (r, u) = inr (raw, (r, u)) ∧ ∀ what s, decode_or parse what dflt raw s = (inr a, s).
Proof.
  unfold stored, rget, GET. cbn. destruct (r !! k) as [[str|]|]; [|done|].
  - intros Hs. eexists. split; [done|]. intros what s. cbn.
    destruct (parse str ≫= from_value) eqn:E; cbn in Hs; by simplify_eq.
  - intros [= ->]. by eexists.
Qed.

Lemma bind_inr {A B} (m : R A) (f : A → R B) s a s' : m s = (inr a, s') → (m ≫= f) s = f a s'.
Proof. unfold mbind, r_bind. by intros ->. Qed.

Lemma store_quiet what k v r u n :
  holds_string (index_key namespace) r = false → k ≠ index_key namespace →
  ∃ r', store_value alone answered what namespace k v {| server := (r, u); turn := n |} =
        (inr tt, {| server := (r', u); turn := S (S n) |}) ∧
    r' !! k = Some (RStr v) ∧ holds_string (index_key namespace) r' = false ∧
    ∀ j, j ≠ k → j ≠ index_key namespace → r' !! j = r !! j.
Proof.
  intros Hi Hk. unfold store_value. erewrite bind_inr by done. unfold redis_command, rsadd. cbn.
  assert (SET k v r !! index_key namespace = r !! index_key namespace) as E.
  { unfold SET. by rewrite lookup_insert_ne. }
  unfold holds_string in *. rewrite E. destruct (r !! index_key namespace) as [[|g]|]; [done|..];
    (eexists; split; [reflexivity|]; unfold SADD; rewrite E; split_and!;
     [unfold SET; by rewrite lookup_insert_ne, lookup_insert_eq by done|by rewrite lookup_insert_eq|
      intros j Hj1 Hj2; unfold SET; by rewrite !lookup_insert_ne by done]).
Qed.

(** The keys among [ks] that are there. *)
Definition there (r : redis) (ks : list string) : gset string :=
  filter (λ k, is_Some (r !! k)) (list_to_set ks).

Lemma there_cons r r1 k ks :
  r1 !! k = None → (∀ j, j ∈ ks → j ≠ k → r1 !! j = r !! j) →
  size (there r (k :: ks)) = (if decide (is_Some (r !! k)) then 1 else 0) + size (there r1 ks).
Proof.
  intros Hk Hj. unfold there.
  assert (filter (λ j, is_Some (r !! j)) (list_to_set (k :: ks) : gset string) =
          (if decide (is_Some (r !! k)) then {[k]} else ∅) ∪ filter (λ j, is_Some (r1 !! j)) (list_to_set ks)) as ->.
  { apply set_eq. intros j. rewrite elem_of_union, !elem_of_filter, elem_of_list_to_set, elem_of_list_to_set, elem_of_cons.
    destruct (decide (j = k)) as [->|Hne].
    - rewrite Hk. destruct (decide _) as [Hs|Hs]; [set_solver|]. split; [naive_solver|].
      intros [?|[[? ?] _]]; [set_solver|done].
    - destruct (decide _); (split; [intros [Hs [?|Hin]]; [done|right; by rewrite Hj]|
        intros [?|[Hs Hin]]; [set_solver|split; [by rewrite <-Hj|by right]]]). }
  rewrite size_union; [by destruct (decide _); rewrite ?size_singleton, ?size_empty|].
  intros j H1 [H2 _]%elem_of_filter. destruct (decide _); [|set_solver].
  apply elem_of_singleton in H1 as ->. rewrite Hk in H2. by destruct H2.
Qed.

Lemma counters_quiet ks r u n :
  holds_string (index_key namespace) r = false → Forall (λ k, k ≠ index_key namespace) ks →
  ∃ r' n', delete_counters alone answered namespace ks {| server := (r, u); turn := n |} =
           (inr (Z.of_nat (size (there r ks))), {| server := (r', u); turn := n' |}) ∧
    ∀ j, j ≠ index_key namespace → r' !! j = if bool_decide (j ∈ ks) then None else r !! j.
Proof.
  intros Hi Hks. revert r n Hi. induction Hks as [|k ks Hk Hks IH]; intros r n Hi.
  { exists r, n. split; [done|]. intros j _. by rewrite bool_decide_eq_false_2 by set_solver. }
  cbn [delete_counters]. erewrite bind_inr by done. cbn [rdel fst snd].
  set (r0 := foldr DEL r [k]).
  assert (holds_string (index_key namespace) r0 = false) as Hi0.
  { unfold holds_string, r0, DEL in *. cbn. by rewrite lookup_delete_ne. }
  erewrite bind_inr; [|unfold redis_command, rsrem; cbn [server fst snd]; fold r0; by rewrite Hi0].
  set (r1 := SREM (index_key namespace) k r0).
  assert (holds_string (index_key namespace) r1 = false ∧ ∀ j, j ≠ index_key namespace → r1 !! j = r0 !! j) as [Hi1 Hr1].
  { unfold r1, SREM, holds_string in *. destruct (r0 !! index_key namespace) as [[|g]|] eqn:E; [done|..].
    - case_bool_decide; [by rewrite lookup_delete_eq; split; [done|]; intros; rewrite lookup_delete_ne|].
      rewrite lookup_insert_eq. split; [done|]. intros. by rewrite lookup_insert_ne.
    - by rewrite E. }
  assert (∀ j, j ≠ index_key namespace → r1 !! j = if decide (j = k) then None else r !! j) as Hr.
  { intros j Hj. rewrite Hr1 by done. unfold r0, DEL. cbn. destruct (decide _) as [->|Hne];
      [by rewrite lookup_delete_eq|by rewrite lookup_delete_ne]. }
  destruct (IH r1 (S (S n)) Hi1) as (r' & n' & Hrun & Hr'). erewrite bind_inr by exact Hrun.
  exists r', n'. split.
  - unfold mret, r_ret. do 2 f_equal. rewrite (there_cons r r1).
    + assert (remove_dups [k] = [k]) as -> by done.
      destruct (decide (is_Some (r !! k))) as [H|H];
        [rewrite filter_cons_True by done|rewrite filter_cons_False by done]; rewrite filter_nil; cbn [length]; lia.
    + rewrite Hr by done. by rewrite decide_True.
    + intros j Hj Hne. destruct (decide (j = index_key namespace)) as [->|]; [|by rewrite Hr, decide_False].
      by eapply Forall_forall in Hks.
  - intros j Hj. rewrite Hr', Hr by done. destruct (decide (j = k)) as [->|Hne].
    + rewrite (bool_decide_eq_true_2 (k ∈ k :: ks)) by set_solver. by case_bool_decide.
    + by rewrite (bool_decide_ext (j ∈ k :: ks) (j ∈ ks)) by set_solver.
Qed.

(** A value is written back only when it has changed. *)
Lemma store_changed {A} `{Serde A, !SerdeLaws A} (dflt a a' : A) (skip : bool) what k r u n :
  stored dflt r k = Some a → (skip = true → a' = a) →
  holds_string (index_key namespace) r = false → k ≠ index_key namespace →
  ∃ r' n', (if skip then mret tt else store_value alone answered what namespace k (print (to_value a')))
             {| server := (r, u); turn := n |} = (inr tt, {| server := (r', u); turn := n' |}) ∧
    stored dflt r' k = Some a' ∧ holds_string (index_key namespace) r' = false ∧
    ∀ j, j ≠ k → j ≠ index_key namespace → r' !! j = r !! j.
Proof.
  intros Hs Hskip Hi Hk. destruct skip.
  - exists r, n. rewrite (Hskip eq_refl). done.
  - destruct (store_quiet what k (print (to_value a')) r u n Hi Hk) as (r' & Hrun & Hr' & Hi' & Ho).
    exists r', (S (S n)). split_and!; [exact Hrun| |done..]. unfold stored. rewrite Hr', parse_print. cbn.
    by rewrite from_to_value.
Qed.

Lemma stored_same {A} `{Serde A} (dflt : A) r r' k : r' !! k = r !! k → stored dflt r' k = stored dflt r k.
Proof. unfold stored. by intros ->. Qed.

(** The keys whose deletion is asked for, in any order and possibly repeated. *)
Lemma recovery_keys_quiet (reset_all : bool) reset r u n :
  ∃ ks n', (if reset_all then scan alone answered scanned "Redis recovery counter scan failed" (recovery_pattern namespace)
            else mret (recovery_key namespace <$> hash_order reset)) {| server := (r, u); turn := n |} =
           (inr ks, {| server := (r, u); turn := n' |}) ∧
    (∀ k, k ∈ ks → recovery_of namespace reset_all reset k = true) ∧
    (∀ k, is_Some (r !! k) → recovery_of namespace reset_all reset k = true → k ∈ ks).
Proof.
  unfold recovery_of. destruct reset_all.
  - exists (scanned n (recovery_pattern namespace) r), (S n). split; [reflexivity|]. split; intros k; [by intros [_ H]%scan_exact|].
    intros. by apply scan_exact.
  - exists (recovery_key namespace <$> hash_order reset), n. split; [reflexivity|]. split.
    + intros k Hk. apply bool_decide_eq_true. by rewrite <-hash_exact.
    + intros k _ Hk%bool_decide_eq_true. by rewrite hash_exact.
Qed.


(** Clearing leaves nothing of the namespace. *)
Lemma clearing_empties r u n :
  ∃ r' n', clear_namespace alone answered scanned namespace {| server := (r, u); turn := n |} =
           (inr (Z.of_nat (size (filter (λ k, inside namespace k = true) (dom r)))),
            {| server := (r', u); turn := n' |}) ∧
    ∀ k, r' !! k = if inside namespace k then None else r !! k.
Proof.
  clear -scan_exact namespace_plain. unfold clear_namespace. erewrite bind_inr by reflexivity. cbn [turn server fst].
  set (ks := scanned n (namespace_pattern namespace) r).
  assert (∀ k, k ∈ ks ↔ is_Some (r !! k) ∧ inside namespace k = true) as Hks.
  { intros k. unfold ks. by rewrite scan_exact, namespace_matches. }
  assert (∀ k, (foldr DEL r ks : redis) !! k = if inside namespace k then None else r !! k) as Hdel.
  { intros k. assert ((foldr DEL r ks : redis) !! k = if bool_decide (k ∈ ks) then None else r !! k) as ->.
    { clear Hks. induction ks as [|j l IH]; [by rewrite bool_decide_eq_false_2 by set_solver|]. cbn. unfold DEL at 1.
      destruct (decide (j = k)) as [->|Hne].
      - rewrite lookup_delete_eq. by rewrite bool_decide_eq_true_2 by set_solver.
      - rewrite lookup_delete_ne, IH by done. by rewrite (bool_decide_ext (k ∈ j :: l) (k ∈ l)) by set_solver. }
    case_bool_decide as H.
    - apply Hks in H as [_ ->]. done.
    - destruct (inside namespace k) eqn:E; [|done]. apply eq_None_not_Some. intros Hs. by apply H, Hks. }
  assert (length (filter (λ k, is_Some (r !! k)) (remove_dups ks)) =
          size (filter (λ k, inside namespace k = true) (dom r))) as Hlen.
  { rewrite <-(size_list_to_set (C := gset string)) by apply NoDup_filter, NoDup_remove_dups. f_equal. apply set_eq. intros k.
    rewrite elem_of_list_to_set, list_elem_of_filter, elem_of_remove_dups, elem_of_filter, elem_of_dom, Hks.
    naive_solver. }
  case_bool_decide as He.
  - exists r, (S n). rewrite <-Hlen, He. split; [done|]. by rewrite He in Hdel.
  - exists (foldr DEL r ks), (S (S n)). rewrite <-Hlen. split; [done|]. exact Hdel.
Qed.

End quiet.

(** ** Tenants apart *)

(** C29. A tenant stays in its namespace, if no character of the namespace is special in a
    pattern.  The user that is set up for a tenant may name exactly the keys and the channels
    of its namespace, and has exactly these commands: the reading and the writing ones, as
    Redis classifies them, and five by name, without the seven that are taken away again
    (listing keys, flushing the server and administration); a revoked user is gone.
    And cleaning or clearing a namespace touches nothing outside of it: whatever other
    clients keep true of the rest of the data (whatever it is), it is true afterwards,
    also when commands fail or their answers are lost at any point. *)
Theorem tenant_stays_in_its_namespace others fate print parse scanned hash_order namespace :
  plain namespace = true →
  (∀ n p r k, k ∈ scanned n p r → redis_match p k = true) →
  (∀ username password s s', ensure_tenant others fate username password namespace s = (inr tt, s') →
     ∃ rules, (server s').2 !! username = Some rules ∧ (∀ k, allows_key rules k = inside namespace k) ∧
       (∀ k, allows_channel rules k = starts_with ("openflows:" +:+ namespace +:+ ":") k) ∧
       ∀ member c, allows_command member rules c =
         (member "read" c || member "write" c || bool_decide (c ∈ ["ping"; "publish"; "subscribe"; "eval"; "evalsha"])) &&
         negb (bool_decide (c ∈ ["keys"; "scan"; "flushdb"; "flushall"; "acl"; "config"; "shutdown"]))) ∧
  (∀ username s s', revoke_tenant others fate username s = (inr tt, s') → (server s').2 !! username = None) ∧
  ∀ Q : redis → Prop,
    (∀ r r', agrees_outside namespace r r' → Q r → Q r') → (∀ n sv, Q sv.1 → Q (others n sv).1) →
    ∀ s, Q (server s).1 →
      (∀ reset_all, Q (server (clean_namespace others fate print parse scanned hash_order namespace reset_all s).2).1) ∧
      Q (server (clear_namespace others fate scanned namespace s).2).1.
Proof.
  intros Hp Hscan. split_and!.
  - intros username password s s' H. unfold ensure_tenant, redis_command in H.
    rewrite racl_tenant in H. destruct (fate _); simplify_eq/=.
    eexists. rewrite lookup_insert_eq. split; [done|]. by apply tenant_rules_exact.
  - intros username s s' H. unfold revoke_tenant, redis_command in H.
    destruct (fate _); cbn in H; simplify_eq/=. apply lookup_delete_eq.
  - intros Q Ho Hoth s HQ. split; [intros reset_all|].
    + by apply (safe_clean others fate scanned Hscan namespace Hp Q Ho Hoth print parse hash_order).
    + by apply (safe_clear others fate scanned Hscan namespace Hp Q Ho Hoth).
Qed.

(** ** Concrete runs *)

Definition demo_scan (_ : nat) (p : string) (r : redis) : list string :=
  List.filter (redis_match p) (map_to_list r).*1.

Lemma demo_scan_exact n p r k : k ∈ demo_scan n p r ↔ is_Some (r !! k) ∧ redis_match p k = true.
Proof.
  unfold demo_scan. rewrite list_elem_of_In, filter_In, <-list_elem_of_In, list_elem_of_fmap. split.
  - intros [([j x] & -> & Hx%elem_of_map_to_list) Hm]. by split; [exists x|].
  - intros [[x Hx] Hm]. split; [|done]. exists (k, x). split; [done|]. by apply elem_of_map_to_list.
Qed.

Definition demo_ticket (id : string) (st : TicketStatus) : Ticket := mkTicket id "title" "" u32_0 None st None u32_0.
Definition waiting_ticket : Ticket := demo_ticket "T-1" (AwaitingHuman "forge-1" "stuck" u32_0).
Definition running_ticket : Ticket := demo_ticket "T-2" (InProgress "forge-2").
Definition waiting_slot : WorkerSlot := mkSlot "forge-1" (Working "T-1" None) None.
Definition running_slot : WorkerSlot := mkSlot "forge-2" (Working "T-2" None) None.
Definition demo_slots : gmap string WorkerSlot := {[ "forge-1" := waiting_slot; "forge-2" := running_slot ]}.
Definition demo_redis : redis :=
  {[ "ns:a:tickets" := RStr (print0 (to_value [waiting_ticket; running_ticket]));
     "ns:a:worker_slots" := RStr (print0 (to_value demo_slots));
     "ns:a:ticket:T-1:recovery_attempts" := RStr "2";
     "ns:a:ticket:T-2:recovery_attempts" := RStr "1";
     "ns:a:ticket:T-1:status" := RStr "{}";
     "ns:b:tickets" := RStr "[]" ]}.

Definition demo_tickets : list Ticket := [waiting_ticket; running_ticket].

Lemma stored_printed {A} `{Serde A, !SerdeLaws A} (d a : A) r k :
  r !! k = Some (RStr (print0 (to_value a))) → stored parse0 d r k = Some a.
Proof. intros Hk. unfold stored. rewrite Hk, parse0_print0. cbn. by rewrite from_to_value. Qed.


(** An answer is lost while one tenant is cleaned and cleared; the other confined its tickets. *)
Lemma tenant_stays_in_its_namespace_witness :
  let s := {| server := (demo_redis, ∅); turn := 0 |} in
  let fate n := if n =? 2 then Unanswered "timed out" else Answered in
  let r1 := (server (clean_namespace (λ _ sv, sv) fate print0 parse0 demo_scan elements "a" false s).2).1 in
  let r2 := (server (clear_namespace (λ _ sv, sv) fate demo_scan "a" s).2).1 in
  r1 !! "ns:b:tickets" = Some (RStr "[]") ∧ r2 !! "ns:b:tickets" = Some (RStr "[]") ∧
  ∃ rules, (server (ensure_tenant (λ _ sv, sv) fate "u" "secret" "a" s).2).2 !! "u" = Some rules ∧
    allows_key rules "ns:b:tickets" = false ∧ allows_command (λ _ _, true) rules "flushall" = false.
Proof.
  destruct (tenant_stays_in_its_namespace (λ _ sv, sv) (λ n, if n =? 2 then Unanswered "timed out" else Answered)
              print0 parse0 demo_scan elements "a" eq_refl) as (Hset & _ & H).
  { intros n p r k Hk. by apply demo_scan_exact in Hk as [_ ?]. }
  destruct (H (λ r, r !! "ns:b:tickets" = Some (RStr "[]"))) with (s := {| server := (demo_redis, ∅ : gmap string (list string)); turn := 0 |})
    as [H1 H2].
  - intros r r' Ho Hr. by rewrite Ho.
  - done.
  - reflexivity.
  - split; [apply H1|]. split; [apply H2|].
    destruct (Hset "u" "secret" {| server := (demo_redis, ∅); turn := 0 |} _ eq_refl) as (rules & Hu & Hk & _ & Hc).
    exists rules. split; [exact Hu|]. split; [rewrite Hk; reflexivity|rewrite Hc; reflexivity].
Defined.

(** The tickets are read and written by two commands: what is written to them in between
    is lost. *)
Lemma cleaning_loses_concurrent_tickets :
  let added := demo_ticket "T-3" Open in
  let writer n (sv : Server) :=
    if n =? 2 then (SET "ns:a:tickets" (print0 (to_value [waiting_ticket; running_ticket; added])) sv.1, sv.2) else sv in
  let r := (server (clean_namespace writer (λ _, Answered) print0 parse0 demo_scan elements "a" false
                      {| server := (demo_redis, ∅); turn := 0 |}).2).1 in
  r !! "ns:a:tickets" = Some (RStr (print0 (to_value [reopen waiting_ticket; running_ticket]))).
Proof. vm_compute. reflexivity. Qed.
