(* ===== verification/RuntimeFacts.v ===== *)
(** * How workspaces, tenants and credentials move

    Over every call of the runtime and tenant services and every turn of the tenant
    worker, workspaces keep their tenant and their generation only grows, what is
    deleted stays deleted, credentials and bootstraps keep what they are, never come
    back to life and go only with their workspace, and no two have the same hash. *)
From S2P Require Import Prelude Text Json Schema Database DatabaseFacts Operations Outbox.
From S2P Require Import Idempotency IdempotencyProps Pagination Organizations OrgRepo OrgService Runtime.
From S2P Require Import Tenants TenantWorker.

(** A workspace, a credential and a bootstrap later on. *)
Definition later_workspace (w w' : Workspace) : Prop :=
  w_tenant_id w' = w_tenant_id w ∧ w_organization_id w' = w_organization_id w ∧
  (w_credential_generation w ≤ w_credential_generation w')%Z ∧
  w_role w' = w_role w ∧ w_slot w' = w_slot w ∧
  (w_desired_state w = "deleted" →
   w_desired_state w' = "deleted" ∧ (w_observed_state w = "deleted" → w_observed_state w' = "deleted")).
Definition later_tenant (t t' : Tenant) : Prop :=
  t_organization_id t' = t_organization_id t ∧ t_slug t' = t_slug t ∧
  t_github_repository_id t' = t_github_repository_id t ∧
  (t_desired_state t = "deleted" →
   t_desired_state t' = "deleted" ∧ (t_observed_state t = "deleted" → t_observed_state t' = "deleted")).
Definition later_credential (c c' : RuntimeCredential) : Prop :=
  rc_workspace_id c' = rc_workspace_id c ∧ rc_credential_hash c' = rc_credential_hash c ∧
  rc_audience c' = rc_audience c ∧ rc_generation c' = rc_generation c ∧
  (rc_revoked_at c ≠ None → rc_revoked_at c' ≠ None).
Definition later_bootstrap (b b' : BootstrapCredential) : Prop :=
  bc_workspace_id b' = bc_workspace_id b ∧ bc_credential_hash b' = bc_credential_hash b ∧
  (open_bootstrap b = false → open_bootstrap b' = false).

#[export] Instance later_workspace_preorder : PreOrder later_workspace.
Proof.
  split; [intros w; unfold later_workspace; auto 10 with lia|]. unfold later_workspace.
  intros w1 w2 w3 (?&?&?&?&?&L1) (?&?&?&?&?&L2). split_and!; try congruence; [lia|].
  intros Hd. destruct (L1 Hd) as [Hd' ?], (L2 Hd'); auto.
Qed.
#[export] Instance later_tenant_preorder : PreOrder later_tenant.
Proof.
  split; [by intros t; unfold later_tenant; auto|]. unfold later_tenant.
  intros t1 t2 t3 (?&?&?&L1) (?&?&?&L2). split_and!; [congruence..|].
  intros Hd. destruct (L1 Hd) as [Hd' ?], (L2 Hd'); auto.
Qed.
#[export] Instance later_credential_preorder : PreOrder later_credential.
Proof.
  split; [by intros c|]. unfold later_credential. intros c1 c2 c3 (?&?&?&?&?) (?&?&?&?&?).
  repeat split; [congruence..|auto].
Qed.
#[export] Instance later_bootstrap_preorder : PreOrder later_bootstrap.
Proof.
  split; [by intros b|]. unfold later_bootstrap. intros b1 b2 b3 (?&?&?) (?&?&?).
  repeat split; [congruence..|auto].
Qed.

(** ** Tables that go on *)

(** Rows stay under their keys and move along [R]. *)
Definition goes_on {K V} `{Countable K} (R : relation V) (tab tab' : gmap K V) : Prop :=
  ∀ k v, tab !! k = Some v → ∃ v', tab' !! k = Some v' ∧ R v v'.
(** No two rows have the same mark. *)
Definition unique_marks {K V} `{Countable K} (mark : V → string) (tab : gmap K V) : Prop :=
  ∀ i j v w, tab !! i = Some v → tab !! j = Some w → mark v = mark w → i = j.
(** Rows move along [R], and there are no new ones. *)
Definition renews {K V} `{Countable K} (R : relation V) (tab tab' : gmap K V) : Prop :=
  goes_on R tab tab' ∧ ∀ k v', tab' !! k = Some v' → is_Some (tab !! k).
(** No two rows clash. *)
Definition exclusive {K V} `{Countable K} (clash : V → V → bool) (tab : gmap K V) : Prop :=
  ∀ i j v w, tab !! i = Some v → tab !! j = Some w → clash v w = true → i = j.
(** The workspace is there, as deleted. *)
Definition deleted_workspace (w : uuid) (d : Db) : Prop :=
  ∃ x, workspaces d !! w = Some x ∧ w_desired_state x = "deleted".
(** Rows move along [R], unless their workspace is deleted. *)
Definition remains {K V} `{Countable K} (R : relation V) (owner : V → uuid) (d : Db) (tab tab' : gmap K V) : Prop :=
  ∀ k v, tab !! k = Some v → deleted_workspace (owner v) d ∨ ∃ v', tab' !! k = Some v' ∧ R v v'.

Section goes_on.
Context {K V : Type} `{Countable K} (R : relation V) {HR : PreOrder R}.
Implicit Types tab : gmap K V.

#[export] Instance goes_on_preorder : PreOrder (goes_on (K := K) R).
Proof using HR.
  split.
  - intros tab k v Hv. exists v. split; [done|reflexivity].
  - intros t1 t2 t3 H1 H2 k v Hv. destruct (H1 k v Hv) as (v2 & Hv2 & R12).
    destruct (H2 k v2 Hv2) as (v3 & Hv3 & R23). exists v3. split; [done|by etrans].
Qed.

Lemma renews_update p f tab : (∀ k v, tab !! k = Some v → p k v = true → R v (f v)) → renews R tab (update p f tab).
Proof using HR.
  intros Hf. split.
  - intros k v Hv. rewrite lookup_update, Hv. cbn. eexists. split; [done|].
    destruct (p k v) eqn:E; [by eapply Hf|reflexivity].
  - intros k v'. rewrite lookup_update. by destruct (tab !! k).
Qed.

Lemma renews_update_one k p f tab :
  (∀ v, tab !! k = Some v → p v = true → R v (f v)) → renews R tab (update_one k p f tab).2.
Proof using HR.
  intros Hf. split.
  - intros i v Hv. rewrite lookup_update_one. case_bool_decide; subst.
    + rewrite Hv. cbn. eexists. split; [done|]. destruct (p v) eqn:E; [by apply Hf|reflexivity].
    + exists v. split; [done|reflexivity].
  - intros i v'. rewrite lookup_update_one. case_bool_decide; subst; [by destruct (tab !! k)|eauto].
Qed.

Lemma goes_on_fresh k v tab : tab !! k = None → goes_on R tab (<[k := v]> tab).
Proof using HR.
  intros Hn i w Hw. exists w. rewrite lookup_insert_ne by congruence. split; [done|reflexivity].
Qed.

Lemma renews_put k v v' tab : tab !! k = Some v → R v v' → renews R tab (<[k := v']> tab).
Proof using HR.
  intros Hk Hv. split.
  - intros i w Hw. destruct (decide (i = k)) as [->|Hne].
    + exists v'. rewrite lookup_insert_eq. split; [done|congruence].
    + exists w. rewrite lookup_insert_ne by done. split; [done|reflexivity].
  - intros i w Hw. apply lookup_insert_Some in Hw as [[<- _]|[_ ?]]; eauto.
Qed.

Lemma renews_exclusive clash tab tab' :
  (∀ v v' w w', R v v' → R w w' → clash v' w' = true → clash v w = true) →
  renews R tab tab' → exclusive clash tab → exclusive clash tab'.
Proof using.
  intros Hc [Hg Hn] He i j v' w' Hv' Hw' Hcl.
  destruct (Hn i v' Hv') as [v Hv], (Hn j w' Hw') as [w Hw].
  destruct (Hg i v Hv) as (v1 & Hv1 & Rv), (Hg j w Hw) as (w1 & Hw1 & Rw).
  eapply He; [done..|]. eapply Hc; [done..|]. congruence.
Qed.

Lemma exclusive_insert clash k v tab :
  (∀ x, clash x v = clash v x) → exists_row (λ _ x, clash v x) tab = false →
  exclusive clash tab → exclusive clash (<[k := v]> tab).
Proof using.
  intros Hs Hex He i j x y Hx Hy E.
  assert (Hno : ∀ l z, tab !! l = Some z → clash v z = false) by (intros l z; apply (proj1 (exists_row_false _ _) Hex l)).
  apply lookup_insert_Some in Hx as [[<- <-]|[Hi Hx]]; apply lookup_insert_Some in Hy as [[<- <-]|[Hj Hy]]; eauto;
    exfalso; [by rewrite (Hno j y) in E|]. rewrite Hs, (Hno i x) in E; done.
Qed.
End goes_on.

Section unique_marks.
Context {K V : Type} `{Countable K} (mark : V → string).
Implicit Types tab : gmap K V.

(** Rows of the earlier table, with their marks. *)
Lemma unique_marks_kept tab tab' :
  (∀ k v', tab' !! k = Some v' → ∃ v, tab !! k = Some v ∧ mark v = mark v') →
  unique_marks mark tab → unique_marks mark tab'.
Proof.
  intros Hk Hu i j v w Hv Hw E. destruct (Hk i v Hv) as (v0 & Hv0 & Ev), (Hk j w Hw) as (w0 & Hw0 & Ew).
  eapply Hu; [done..|congruence].
Qed.

Lemma unique_marks_update p f tab :
  (∀ v, mark (f v) = mark v) → unique_marks mark tab → unique_marks mark (update p f tab).
Proof.
  intros Hf. apply unique_marks_kept. intros k v'. rewrite lookup_update. destruct (tab !! k) as [v|]; [|done].
  intros [= <-]. exists v. split; [done|]. by case_match; rewrite ?Hf.
Qed.

Lemma unique_marks_update_one k p f tab :
  (∀ v, mark (f v) = mark v) → unique_marks mark tab → unique_marks mark (update_one k p f tab).2.
Proof.
  intros Hf. apply unique_marks_kept. intros i v'. rewrite lookup_update_one. case_bool_decide; subst; [|eauto].
  destruct (tab !! k) as [v|]; [|done]. intros [= <-]. exists v. split; [done|]. by case_match; rewrite ?Hf.
Qed.

Lemma unique_marks_delete p tab : unique_marks mark tab → unique_marks mark (delete_rows p tab).
Proof.
  apply unique_marks_kept. intros k v. rewrite lookup_delete_rows. repeat case_match; naive_solver.
Qed.

Lemma unique_marks_insert k v tab :
  exists_row (λ _ x, bool_decide (mark x = mark v)) tab = false →
  unique_marks mark tab → unique_marks mark (<[k := v]> tab).
Proof.
  intros Hex Hu i j x y Hx Hy E.
  assert (Hall : ∀ j w, tab !! j = Some w → mark w ≠ mark v).
  { intros l w Hw. by apply (proj1 (exists_row_false _ _) Hex l), bool_decide_eq_false in Hw. }
  apply lookup_insert_Some in Hx as [[<- <-]|[Hi Hx]]; apply lookup_insert_Some in Hy as [[<- <-]|[Hj Hy]];
    eauto; [|]; exfalso; [by apply (Hall j y)|by apply (Hall i x)].
Qed.
End unique_marks.

Section remains.
Context {K V : Type} `{Countable K} (R : relation V) {HR : PreOrder R} (owner : V → uuid).
Implicit Types tab : gmap K V.

Lemma goes_on_remains d tab tab' : goes_on R tab tab' → remains R owner d tab tab'.
Proof using. intros H' k v Hv. right. by apply H'. Qed.

Lemma remains_trans d d' tab1 tab2 tab3 :
  (∀ v v', R v v' → owner v' = owner v) → (∀ w, deleted_workspace w d → deleted_workspace w d') →
  remains R owner d tab1 tab2 → remains R owner d' tab2 tab3 → remains R owner d' tab1 tab3.
Proof using HR.
  intros Ho Hd H12 H23 k v Hv. destruct (H12 k v Hv) as [Hdel|(v2 & Hv2 & R12)]; [auto|].
  destruct (H23 k v2 Hv2) as [Hdel|(v3 & Hv3 & R23)]; [left; by rewrite <-(Ho v v2)|].
  right. exists v3. split; [done|by etrans].
Qed.
End remains.

(** ** The relation *)

(** Two rows that one of the partial unique indexes excludes: tenants of the same repository
    or name, and workspaces of the same role and slot. *)
Definition same_repository (t x : Tenant) : bool :=
  holds_name t && (holds_name x && bool_decide (t_organization_id x = t_organization_id t) &&
                   (t_github_repository_id x =? t_github_repository_id t)%Z).
Definition same_slug (t x : Tenant) : bool :=
  holds_name t && (holds_name x && bool_decide (t_organization_id x = t_organization_id t) &&
                   bool_decide (t_slug x = t_slug t)).
Definition same_slot (w x : Workspace) : bool :=
  (negb (bool_decide (w_desired_state w = "deleted")) || negb (bool_decide (w_observed_state w = "deleted"))) &&
  live_slot w x.
Definition same_role_slot (w x : Workspace) : bool :=
  negb (bool_decide (w_desired_state w = "deleted")) && live_role_slot w x.

Definition indexed (d : Db) : Prop :=
  (exclusive same_repository (tenants d) ∧ exclusive same_slug (tenants d)) ∧
  exclusive same_slot (workspaces d) ∧ exclusive same_role_slot (workspaces d).

Lemma later_holds_name t t' : later_tenant t t' → holds_name t' = true → holds_name t = true.
Proof.
  unfold later_tenant, holds_name. intros (_ & _ & _ & H). rewrite !orb_true_iff, !negb_true_iff, !bool_decide_eq_false.
  destruct (decide (t_desired_state t = "deleted")) as [E|]; [|auto]. destruct (H E) as [-> ?]. intros [?|?]; [done|auto].
Qed.
Lemma later_slot_taken w w' :
  later_workspace w w' →
  negb (bool_decide (w_desired_state w' = "deleted")) || negb (bool_decide (w_observed_state w' = "deleted")) = true →
  negb (bool_decide (w_desired_state w = "deleted")) || negb (bool_decide (w_observed_state w = "deleted")) = true.
Proof.
  unfold later_workspace. intros (_ & _ & _ & _ & _ & H). rewrite !orb_true_iff, !negb_true_iff, !bool_decide_eq_false.
  destruct (decide (w_desired_state w = "deleted")) as [E|]; [|auto]. destruct (H E) as [-> ?]. intros [?|?]; [done|auto].
Qed.
Lemma later_present w w' :
  later_workspace w w' → negb (bool_decide (w_desired_state w' = "deleted")) = true →
  negb (bool_decide (w_desired_state w = "deleted")) = true.
Proof.
  unfold later_workspace. intros (_ & _ & _ & _ & _ & H). rewrite !negb_true_iff, !bool_decide_eq_false. naive_solver.
Qed.

Lemma renews_tenants (tab tab' : gmap uuid Tenant) :
  renews later_tenant tab tab' → exclusive same_repository tab ∧ exclusive same_slug tab →
  exclusive same_repository tab' ∧ exclusive same_slug tab'.
Proof.
  intros Hr [H1 H2]. split; (eapply renews_exclusive; [|exact Hr|done]); intros v v' w w' Rv Rw.
  all: unfold same_repository, same_slug; rewrite !andb_true_iff; intros [Hv [[Hw Ho] Hk]].
  all: rewrite (later_holds_name _ _ Rv Hv), (later_holds_name _ _ Rw Hw).
  all: destruct Rv as (Ov & Sv & Iv & _), Rw as (Ow & Sw & Iw & _); rewrite <-Ov, <-Ow, <-?Sv, <-?Sw, <-?Iv, <-?Iw.
  all: done.
Qed.
Lemma renews_workspaces (tab tab' : gmap uuid Workspace) :
  renews later_workspace tab tab' → exclusive same_slot tab ∧ exclusive same_role_slot tab →
  exclusive same_slot tab' ∧ exclusive same_role_slot tab'.
Proof.
  intros Hr [H1 H2]. split; (eapply renews_exclusive; [|exact Hr|done]); intros v v' w w' Rv Rw.
  all: unfold same_slot, live_slot, same_role_slot, live_role_slot; rewrite !(andb_true_iff _ (_ && _)), !andb_true_iff;
    intros [Hv [[[Hw Ht] Ho] Hs]].
  - rewrite (later_slot_taken _ _ Rv Hv), (later_slot_taken _ _ Rw Hw).
    destruct Rv as (Tv & _ & _ & Lv & Sv & _), Rw as (Tw & _ & _ & Lw & Sw & _). by rewrite <-Tv, <-Tw, <-Lv, <-Lw, <-Sv, <-Sw.
  - rewrite (later_present _ _ Rv Hv), (later_present _ _ Rw Hw).
    destruct Rv as (Tv & _ & _ & Lv & Sv & _), Rw as (Tw & _ & _ & Lw & Sw & _). by rewrite <-Tv, <-Tw, <-Lv, <-Lw, <-Sv, <-Sw.
Qed.

Record advances (d d' : Db) : Prop := {
  adv_workspaces : goes_on later_workspace (workspaces d) (workspaces d');
  adv_tenants : goes_on later_tenant (tenants d) (tenants d');
  adv_credentials : remains later_credential rc_workspace_id d' (runtime_credentials d) (runtime_credentials d');
  adv_unique_credentials :
    unique_marks rc_credential_hash (runtime_credentials d) →
    unique_marks rc_credential_hash (runtime_credentials d');
  adv_bootstraps :
    remains later_bootstrap bc_workspace_id d' (workspace_bootstrap_credentials d) (workspace_bootstrap_credentials d');
  adv_unique_bootstraps :
    unique_marks bc_credential_hash (workspace_bootstrap_credentials d) →
    unique_marks bc_credential_hash (workspace_bootstrap_credentials d');
  adv_indexed : indexed d → indexed d';
}.

Lemma deleted_stays d d' w : advances d d' → deleted_workspace w d → deleted_workspace w d'.
Proof.
  intros [Hw _ _ _ _ _ _] (x & Hx & Hd). destruct (Hw w x Hx) as (x' & Hx' & (_ & _ & _ & _ & _ & Hs)).
  exists x'. split; [done|]. by apply Hs.
Qed.

#[export] Instance advances_preorder : PreOrder advances.
Proof.
  split.
  - intros d. split; try reflexivity; try done; by apply goes_on_remains.
  - intros d1 d2 d3 H1 H2. pose proof (deleted_stays _ _ : ∀ w, advances d2 d3 → _) as Hd.
    destruct H1 as [W1 T1 C1 N1 B1 M1 I1]. pose proof H2 as [W2 T2 C2 N2 B2 M2 I2]. split; try (by etrans); auto.
    + eapply (remains_trans later_credential); [by intros c c' [? _]|by intros w; apply Hd|done..].
    + eapply (remains_trans later_bootstrap); [by intros c c' [? _]|by intros w; apply Hd|done..].
Qed.

Lemma advances_same d d' :
  workspaces d' = workspaces d → tenants d' = tenants d → runtime_credentials d' = runtime_credentials d →
  workspace_bootstrap_credentials d' = workspace_bootstrap_credentials d → advances d d'.
Proof.
  intros E1 E2 E3 E4. split; unfold indexed; rewrite ?E1, ?E2, ?E3, ?E4; try done; try reflexivity; by apply goes_on_remains.
Qed.

Lemma advances_workspaces f d :
  goes_on later_workspace (workspaces d) (f (workspaces d)) →
  (exclusive same_slot (workspaces d) ∧ exclusive same_role_slot (workspaces d) →
   exclusive same_slot (f (workspaces d)) ∧ exclusive same_role_slot (f (workspaces d))) →
  advances d (on_workspaces f d).
Proof.
  intros H Hi. split; try reflexivity; try done; try (by apply goes_on_remains).
  intros [Ht Hw]. split; [exact Ht|by apply Hi].
Qed.
Lemma advances_tenants f d :
  goes_on later_tenant (tenants d) (f (tenants d)) →
  (exclusive same_repository (tenants d) ∧ exclusive same_slug (tenants d) →
   exclusive same_repository (f (tenants d)) ∧ exclusive same_slug (f (tenants d))) →
  advances d (on_tenants f d).
Proof.
  intros H Hi. split; try reflexivity; try done; try (by apply goes_on_remains).
  intros [Ht Hw]. split; [by apply Hi|exact Hw].
Qed.
Lemma advances_renewed_workspaces f d :
  renews later_workspace (workspaces d) (f (workspaces d)) → advances d (on_workspaces f d).
Proof. intros H. apply advances_workspaces; [apply H|by apply renews_workspaces]. Qed.
Lemma advances_renewed_tenants f d :
  renews later_tenant (tenants d) (f (tenants d)) → advances d (on_tenants f d).
Proof. intros H. apply advances_tenants; [apply H|by apply renews_tenants]. Qed.
Lemma advances_credentials f d :
  goes_on later_credential (runtime_credentials d) (f (runtime_credentials d)) →
  (unique_marks rc_credential_hash (runtime_credentials d) →
   unique_marks rc_credential_hash (f (runtime_credentials d))) →
  advances d (on_runtime_credentials f d).
Proof. intros H1 H2. split; try reflexivity; try done; by apply goes_on_remains. Qed.
Lemma advances_bootstraps f d :
  goes_on later_bootstrap (workspace_bootstrap_credentials d) (f (workspace_bootstrap_credentials d)) →
  (unique_marks bc_credential_hash (workspace_bootstrap_credentials d) →
   unique_marks bc_credential_hash (f (workspace_bootstrap_credentials d))) →
  advances d (on_workspace_bootstrap_credentials f d).
Proof. intros H1 H2. split; try reflexivity; try done; by apply goes_on_remains. Qed.

(** ** Statements *)

Lemma exists_row_and {K V} `{Countable K} (b : bool) (p : K → V → bool) tab :
  exists_row p tab = false → exists_row (λ k v, b && p k v) tab = false.
Proof. rewrite !exists_row_false. intros Hp k v Hk. rewrite (Hp k v Hk). apply andb_false_r. Qed.

(** Equations of two rows, read the other way round. *)
Ltac symmetric_eqs :=
  apply eq_bool_prop_intro; rewrite !Is_true_true, !andb_true_iff, ?bool_decide_eq_true, ?Z.eqb_eq; intuition congruence.

Lemma later_revoked_credential t c : later_credential c (rc_set_revoked_at (Some t) c).
Proof. by destruct c. Qed.
Lemma later_revoked_bootstrap t b : later_bootstrap b (bc_set_revoked_at (Some t) b).
Proof. split; [done|]. split; [done|]. intros _. apply andb_false_r. Qed.
Lemma later_consumed_bootstrap t b : later_bootstrap b (bc_set_consumed_at (Some t) b).
Proof. by split. Qed.

Lemma advances_revoke p t d : advances d (revoke_credentials p t d).
Proof.
  apply advances_credentials; [|by apply unique_marks_update]. apply renews_update; [apply _|].
  intros ? ? _ _. apply later_revoked_credential.
Qed.
Lemma advances_revoke_leases p t d : advances d (revoke_leases p t d).
Proof. by apply advances_same. Qed.

Lemma advances_insert_credential id rc d u d' :
  insert_credential_row id rc d = inr (u, d') → advances d d'.
Proof.
  unfold insert_credential_row. destruct (workspaces d !! _); [|done].
  destruct (exists_row _ _) eqn:Ex; [done|]. destruct (insert_row _ _ _ _) as [|tab] eqn:E; [done|].
  intros [= <- <-]. apply insert_row_inr in E as [Hn ->]. apply advances_credentials.
  - by apply goes_on_fresh; [apply _|].
  - by apply unique_marks_insert.
Qed.

Lemma advances_insert_bootstrap id b d u d' :
  insert_bootstrap_row id b d = inr (u, d') → advances d d'.
Proof.
  unfold insert_bootstrap_row. repeat (case_match; try done). intros [= <- <-].
  match goal with E : insert_row _ _ _ _ = inr _ |- _ => apply insert_row_inr in E as [Hn ->] end.
  apply advances_bootstraps; [by apply goes_on_fresh; [apply _|]|by apply unique_marks_insert].
Qed.

Lemma later_workspace_grown g now w :
  (w_credential_generation w ≤ g)%Z → later_workspace w (w ▷ w_set_credential_generation g ▷ w_set_updated_at now).
Proof. unfold later_workspace. cbn. auto 10. Qed.

Lemma advances_bump id w now d g d' :
  workspaces d !! id = Some w → bump id w now d = inr (g, d') → advances d d'.
Proof.
  intros Hw. unfold bump. destruct (_ <=? _)%Z; [|done]. intros [= <- <-].
  apply advances_renewed_workspaces. eapply renews_put; [apply _|done|]. apply later_workspace_grown. cbn. lia.
Qed.

Lemma advances_insert_workspace id w d u d' :
  insert_workspace_row id w d = inr (u, d') → advances d d'.
Proof.
  unfold insert_workspace_row. repeat (case_match; try done). intros [= <- <-].
  match goal with E : insert_row _ _ _ _ = inr _ |- _ => apply insert_row_inr in E as [Hn ->] end.
  apply advances_workspaces; [by apply goes_on_fresh; [apply _|]|]. intros [? ?].
  split; (apply exclusive_insert; [|by apply exists_row_and|done]); intros x.
  - unfold same_slot, live_slot. symmetric_eqs.
  - unfold same_role_slot, live_role_slot. symmetric_eqs.
Qed.

Lemma advances_insert_tenant id t d u d' : insert_tenant id t d = inr (u, d') → advances d d'.
Proof.
  unfold insert_tenant. repeat (case_match; try done). intros [= <- <-].
  match goal with E : insert_row _ _ _ _ = inr _ |- _ => apply insert_row_inr in E as [Hn ->] end.
  apply advances_tenants; [by apply goes_on_fresh; [apply _|]|]. intros [? ?].
  split; (apply exclusive_insert; [|by apply exists_row_and|done]); intros x.
  - unfold same_repository. symmetric_eqs.
  - unfold same_slug. symmetric_eqs.
Qed.

(** A column of a workspace other than the tenant and the generation, and a column of
    a tenant other than its desired state. *)
Lemma advances_set_workspace id p f d :
  (∀ w, workspaces d !! id = Some w → p w = true → later_workspace w (f w)) →
  advances d (on_workspaces (λ tab, (update_one id p f tab).2) d).
Proof. intros Hf. by apply advances_renewed_workspaces, renews_update_one; [apply _|]. Qed.
Lemma advances_set_workspaces p f d :
  (∀ w, p w = true → later_workspace w (f w)) → advances d (set_workspaces p f d).
Proof. intros Hf. apply advances_renewed_workspaces, renews_update; [apply _|]. intros k w _. apply Hf. Qed.
Lemma advances_set_tenant id p f d :
  (∀ t, tenants d !! id = Some t → p t = true → later_tenant t (f t)) →
  advances d (on_tenants (λ tab, (update_one id p f tab).2) d).
Proof. intros Hf. by apply advances_renewed_tenants, renews_update_one; [apply _|]. Qed.

Lemma later_workspace_kept w w' :
  w_tenant_id w' = w_tenant_id w → w_organization_id w' = w_organization_id w →
  w_credential_generation w' = w_credential_generation w → w_role w' = w_role w → w_slot w' = w_slot w →
  (w_desired_state w = "deleted" →
   w_desired_state w' = "deleted" ∧ (w_observed_state w = "deleted" → w_observed_state w' = "deleted")) →
  later_workspace w w'.
Proof. unfold later_workspace. intros -> -> -> -> ->. auto 10 with lia. Qed.

(** The statements that count the rows they change. *)
Lemma counted_workspaces id p f d :
  (let '(n, tab) := update_one id p f (workspaces d) in (n, on_workspaces (λ _, tab) d)).2 =
  on_workspaces (λ tab, (update_one id p f tab).2) d.
Proof. unfold on_workspaces. by destruct (update_one id p f (workspaces d)). Qed.
Lemma counted_tenants id p f d :
  (let '(n, tab) := update_one id p f (tenants d) in (n, on_tenants (λ _, tab) d)).2 =
  on_tenants (λ tab, (update_one id p f tab).2) d.
Proof. unfold on_tenants. by destruct (update_one id p f (tenants d)). Qed.

Lemma advances_attach id coder now d u d' : attach_coder_workspace id coder now d = inr (u, d') → advances d d'.
Proof.
  unfold attach_coder_workspace. case_match; [done|]. intros [= <- <-]. apply advances_set_workspace.
  intros w _ _. by apply later_workspace_kept.
Qed.

(** Erasing a tenant takes the credentials of its workspaces with them. *)
Lemma advances_erase org tenant now d : advances d (Worker.erase_tenant org tenant now d).
Proof.
  set (d' := Worker.erase_tenant org tenant now d).
  assert (Hdel : ∀ w, Worker.of_tenant_workspace org tenant d w = true → deleted_workspace w d').
  { intros w Hw. destruct (workspaces d !! w) as [x|] eqn:Hx;
      [|unfold Worker.of_tenant_workspace in Hw; by rewrite Hx in Hw].
    eexists. split; [unfold d', Worker.erase_tenant; cbn; rewrite lookup_update, Hx; cbn; by rewrite Hw|done]. }
  assert (Hw : renews later_workspace (workspaces d) (workspaces d')).
  { apply renews_update; [apply _|]. intros w x _ _. by apply later_workspace_kept. }
  assert (Ht : renews later_tenant (tenants d) (tenants d')).
  { apply renews_update_one; [apply _|]. by intros x _ _. }
  split.
  - apply Hw.
  - apply Ht.
  - intros k c Hc. destruct (Worker.of_tenant_workspace org tenant d (rc_workspace_id c)) eqn:E; [auto|].
    right. exists c. split; [|reflexivity]. unfold d', Worker.erase_tenant. cbn.
    by rewrite lookup_delete_rows, Hc, E.
  - apply unique_marks_delete.
  - intros k b Hb. destruct (Worker.of_tenant_workspace org tenant d (bc_workspace_id b)) eqn:E; [auto|].
    right. exists b. split; [|reflexivity]. unfold d', Worker.erase_tenant. cbn.
    by rewrite lookup_delete_rows, Hb, E.
  - apply unique_marks_delete.
  - intros [It Iw]. split; [by eapply renews_tenants|by eapply renews_workspaces].
Qed.

(** ** Calls *)

Section calls.
Context (env : Env) (limits : TenantLimits) (deps : BrokerDeps) (app_id : Z) (wdeps : WorkerDeps).
Context (rely : ∀ n d, advances d (others env n d)).

Lemma moves_translated {A} R f (m : M A) : moves R m → moves R (translate f m).
Proof. intros H s. specialize (H s). unfold translate. by destruct (m s) as [[|[]|] s']. Qed.

Lemma advances_sql {A} (f : Z → Z → Db → SqlError + A * Db) :
  (∀ now t d a d', f now t d = inr (a, d') → advances d d') → moves advances (sql env f).
Proof. apply moves_sql, _. Qed.
Lemma advances_execute {A} (f : Z → Z → Db → A * Db) :
  (∀ now t d, advances d (f now t d).2) → moves advances (execute env f).
Proof. apply moves_execute, _. Qed.

Lemma runs_outside R `{!Settled R} {A} (f : nat → ManagerError + A) : runs R (outside f).
Proof. apply runs_quiet; [done|]. intros s. unfold outside. destruct (f _); cbn; auto with lia. Qed.

(** The condition of the statement excludes deleted rows, or their state is kept. *)
Ltac not_deleted :=
  first
    [ by intros; split
    | let Hd := fresh in
      intros Hd;
      repeat match goal with
      | H : _ && _ = true |- _ => apply andb_true_iff in H as [? ?]
      | H : negb _ = true |- _ => apply negb_true_iff in H
      end;
      rewrite ?Hd in *; by vm_compute in * ].
Ltac advance :=
  rewrite ?counted_workspaces, ?counted_tenants;
  first
    [ by apply advances_same
    | apply advances_revoke
    | apply advances_revoke_leases
    | apply advances_set_workspace; intros ? ? ?; apply later_workspace_kept; [done..|solve [not_deleted]]
    | apply advances_set_workspaces; intros ? ?; apply later_workspace_kept; [done..|solve [not_deleted]]
    | apply advances_set_tenant; intros ? ? ?; split_and!; [done..|solve [not_deleted]]
    | apply advances_bootstraps; [apply renews_update; [apply _|]; intros;
        first [apply later_revoked_bootstrap|apply later_consumed_bootstrap]|by apply unique_marks_update] ].

#[local] Hint Resolve rely runs_outside moves_translated : runs.
#[local] Hint Extern 1 (runs (at_db advances) (sql _ (λ _ _ d, insert_credential_row _ _ d))) =>
  apply advances_sql; intros; by eapply advances_insert_credential : runs.
#[local] Hint Extern 1 (runs (at_db advances) (sql _ (λ _ _ d, insert_bootstrap_row _ _ d))) =>
  apply advances_sql; intros; by eapply advances_insert_bootstrap : runs.
#[local] Hint Extern 1 (runs (at_db advances) (sql _ (λ _ _ d, insert_workspace_row _ _ d))) =>
  apply advances_sql; intros; by eapply advances_insert_workspace : runs.
#[local] Hint Extern 1 (runs (at_db advances) (sql _ (λ _ _ d, insert_tenant _ _ d))) =>
  apply advances_sql; intros; by eapply advances_insert_tenant : runs.
#[local] Hint Extern 3 (runs (at_db advances) (execute _ _)) =>
  apply advances_execute; intros; cbn; solve [advance] : runs.

Lemma advances_create_op op : moves advances (create_in_tx env op).
Proof.
  unfold create_in_tx. runs_auto. apply advances_sql. intros now t d u d'. unfold insert_operation.
  repeat (case_match; try done). intros [= <- <-]. by apply advances_same.
Qed.
Lemma advances_audit e : moves advances (audit env e).
Proof.
  unfold audit. runs_auto. apply advances_sql. intros now t d u d'.
  case_match; intros; simplify_eq/=; by apply advances_same.
Qed.
#[local] Hint Resolve advances_create_op advances_audit : runs.

Lemma advances_once r m : commits advances m → moves advances (execute_once env r m).
Proof. intros Hm. apply moves_once; [apply _|done| |done]. intros f d. by apply advances_same. Qed.

Lemma advances_consume bh ai ah ae ri rh fi fe :
  moves advances (consume_bootstrap_and_insert_session env bh ai ah ae ri rh fi fe).
Proof. unfold consume_bootstrap_and_insert_session. runs_auto. Qed.

Lemma advances_rotate_pair ai w p ah ae ri rh fi fe :
  moves advances (rotate_credential_pair env ai w p ah ae ri rh fi fe).
Proof.
  unfold rotate_credential_pair. runs_auto. apply advances_sql. intros now t d u d'.
  destruct (workspaces d !! w) as [x|] eqn:Hw; [|intros [= <- <-]; reflexivity].
  destruct (null_or _ _); [by apply advances_bump|intros [= <- <-]; reflexivity].
Qed.

Lemma advances_bump_generation w : moves advances (bump_workspace_generation env w).
Proof.
  unfold bump_workspace_generation. runs_auto. apply advances_sql. intros now t d u d'.
  destruct (workspaces d !! w) as [x|] eqn:Hw; [by apply advances_bump|intros [= <- <-]; reflexivity].
Qed.
#[local] Hint Resolve advances_consume advances_rotate_pair advances_bump_generation : runs.

Lemma advances_revoke_credential id : moves advances (revoke_credential env id).
Proof.
  unfold revoke_credential. runs_auto. apply advances_execute. intros now t d.
  destruct (update_one _ _ _ _) as [n tab] eqn:E. cbn. change tab with (n, tab).2. rewrite <-E.
  apply advances_credentials; [|by apply unique_marks_update_one]. apply renews_update_one; [apply _|].
  intros c _ _. apply later_revoked_credential.
Qed.

Lemma advances_issue_bootstrap w : moves advances (issue_bootstrap env w).
Proof. unfold issue_bootstrap, workspace_generation, put, delete_ref, insert_bootstrap. runs_auto. Qed.
#[local] Hint Resolve advances_revoke_credential advances_issue_bootstrap : runs.

Lemma advances_register raw : moves advances (register env raw).
Proof.
  unfold register, validate_presented_secret, retire_bootstrap, delete_ref, get_ref, replace_ref. runs_auto.
Qed.

Lemma advances_authenticate raw audience : moves advances (authenticate_for_audience env raw audience).
Proof.
  unfold authenticate_for_audience, validate_presented_secret, resolve_runtime_scope, check_scope. runs_auto.
Qed.
#[local] Hint Resolve advances_register advances_authenticate : runs.

Lemma advances_refresh raw : moves advances (refresh_session env raw).
Proof. unfold refresh_session, authenticate_refresh. runs_auto. Qed.

Lemma advances_insert_lease l : moves advances (insert_lease_in_tx env l).
Proof.
  unfold insert_lease_in_tx. runs_auto. apply advances_sql. intros now t d u d'.
  repeat (case_match; try done). intros [= <- <-]. by apply advances_same.
Qed.
#[local] Hint Resolve advances_refresh advances_insert_lease : runs.

Lemma advances_issue_lease scope profile purpose token existing rid :
  moves advances (issue_lease env deps scope profile purpose token existing rid).
Proof. unfold issue_lease, validate_token, record_lease, record_authorized_lease. runs_auto. Qed.
#[local] Hint Resolve advances_issue_lease : runs.

Lemma advances_exchange inflight scope purpose rid :
  moves advances (exchange env deps app_id inflight scope purpose rid).
Proof. unfold exchange, validate_resource_state, exchange_locked, reusable. runs_auto. Qed.

(** *** Tenants *)

Lemma runs_policy_of org user R `{!Settled R} :
  (∀ s, R s (begin env s).2) → runs R (OrgRepo.membership_and_org env org user).
Proof. intros Hb. unfold OrgRepo.membership_and_org. repeat (runs_step || solve [auto with runs typeclass_instances]). Qed.

Lemma runs_require_member m o R `{!Settled R} : runs R (Policy.require_member m o).
Proof. unfold Policy.require_member. runs_auto. Qed.
Lemma runs_require_admin m o R `{!Settled R} : runs R (Policy.require_admin m o).
Proof.
  unfold Policy.require_admin, Policy.require_mutable, Policy.the_membership, Policy.require_admin_role.
  runs_auto. by apply runs_require_member.
Qed.
Lemma runs_require_developer m o R `{!Settled R} : runs R (Policy.require_developer m o).
Proof.
  unfold Policy.require_developer, Policy.require_mutable, Policy.the_membership. runs_auto.
  by apply runs_require_member.
Qed.

Lemma advances_reserve org tenant n : moves advances (reserve_worker_capacity_in_tx env org tenant n).
Proof.
  unfold reserve_worker_capacity_in_tx. runs_auto. apply advances_sql. intros now t d u d'.
  destruct (tenants d !! tenant) as [x|] eqn:Hx; [|intros [= <- <-]; reflexivity].
  repeat (case_match; try done); intros; simplify_eq/=; [|reflexivity].
  apply advances_renewed_tenants. by eapply renews_put; [apply _|done|].
Qed.

Lemma advances_quota_row org : moves advances (ensure_org_row_in_tx env limits org).
Proof.
  unfold ensure_org_row_in_tx. runs_auto. apply advances_sql. intros now t d u d'.
  repeat (case_match; try done); intros; simplify_eq/=; by apply advances_same.
Qed.
#[local] Hint Resolve advances_exchange advances_reserve advances_quota_row : runs.

Lemma advances_found tenant actor org repository slug fleet key rid :
  moves advances (found_tenant env limits tenant actor org repository slug fleet key rid).
Proof.
  unfold found_tenant, check_and_reserve_tenant_in_tx, create_with_id_in_tx, enqueue, record_tenant, set_tenant.
  repeat (runs_step || apply moves_translated || solve [auto with runs typeclass_instances]).
Qed.

Lemma advances_mark_deleting actor org tenant key rid :
  commits advances (mark_deleting env actor org tenant key rid).
Proof.
  intros s a s' H. unfold mark_deleting in H.
  apply m_bind_Done in H as (row & s1 & [-> ->]%query_Done & H).
  apply m_bind_Done in H as (current & s2 & [Hrow ->]%ok_or_Done & H).
  apply m_bind_Done in H as ([] & s2 & [Hc ->]%require_Done & H).
  apply m_bind_Done in H as (existing & s2 & He & H).
  assert (Hs2 : db s2 = db s).
  { destruct (bool_decide (current = "deleting")); [by apply query_Done in He as [_ ->]|by apply m_ret_Done in He as [_ ->]]. }
  destruct existing; [by apply m_ret_Done in H as [_ ->]; rewrite Hs2|].
  apply m_bind_Done in H as ([] & s3 & [_ ->]%execute_Done & H).
  match type of H with ?m ?s = _ => assert (Hm : moves advances m);
    [unfold withdraw_access, enqueue, record_tenant; runs_auto|] end.
  etrans; [|exact (runs_to _ _ _ _ _ Hm H)].
  rewrite <-Hs2. apply advances_set_tenant. intros t Ht _. split_and!; [done..|]. intros Hd.
  unfold scoped_tenant in Hrow. cbn in Hrow. rewrite <-Hs2, Ht in Hrow. destruct (bool_decide _); [|done].
  injection Hrow as <-. by rewrite Hd in Hc.
Qed.

(** Starting and stopping move a tenant that is not being deleted. *)
Lemma advances_action org tenant action desired observed s k s' :
  (∀ t, tenants (db s) !! tenant = Some t → gone (t_desired_state t) = false) →
  apply_action env org tenant action desired observed s = (Done k, s') → advances (db s) (db s').
Proof.
  intros Ht H. unfold apply_action in H.
  assert (Hset : ∀ st now, advances (db s) (set_tenant tenant (λ t, t ▷ t_set_desired_state st ▷ t_set_updated_at now) (db s))).
  { intros st now. apply advances_set_tenant. intros t E _. split_and!; [done..|]. intros Hd. specialize (Ht t E).
    by rewrite Hd in Ht. }
  destruct (bool_decide (action = "start")); [|destruct (bool_decide (action = "stop"))].
  - apply m_bind_Done in H as (? & ? & [_ ->]%require_Done & H).
    apply m_bind_Done in H as (? & ? & [-> ->]%query_Done & H).
    apply m_bind_Done in H as (? & ? & [_ ->]%require_Done & H).
    apply m_bind_Done in H as (? & ? & [_ ->]%execute_Done & H).
    apply m_bind_Done in H as (? & ? & [_ ->]%execute_Done & [_ ->]%m_ret_Done). cbn.
    etrans; [apply Hset|]. advance.
  - apply m_bind_Done in H as (? & ? & [_ ->]%execute_Done & H).
    apply m_bind_Done in H as (? & ? & [_ ->]%execute_Done & H).
    apply m_bind_Done in H as (? & ? & [_ ->]%execute_Done & [_ ->]%m_ret_Done). cbn.
    etrans; [apply Hset|]. etrans; [|apply advances_revoke]. advance.
  - m_cases H; reflexivity.
Qed.

Lemma advances_act actor org tenant action key rid :
  commits advances (act env actor org tenant action key rid).
Proof.
  intros s a s' H. unfold act in H.
  apply m_bind_Done in H as (row & s1 & [-> ->]%query_Done & H).
  apply m_bind_Done in H as ([desired observed] & s2 & [Hrow ->]%ok_or_Done & H).
  apply m_bind_Done in H as ([] & s3 & [Hg ->]%require_Done & H).
  apply m_bind_Done in H as (kind & s4 & Ha & H).
  apply advances_action in Ha; [|cbn].
  - etrans; [exact Ha|]. unfold enqueue, record_tenant in H.
    match type of H with ?m s4 = _ => assert (Hm : moves advances m) by runs_auto end.
    exact (runs_to _ _ _ _ _ Hm H).
  - intros t Ht. unfold scoped_tenant in Hrow. rewrite Ht in Hrow.
    destruct (bool_decide _); [|done]. injection Hrow as <- <-. by apply negb_true_iff in Hg.
Qed.

(** A worker that is not being deleted yet. *)
Lemma advances_mutate_worker scope w del key : moves advances (mutate_worker env scope w del key).
Proof.
  unfold mutate_worker. apply runs_bind; [apply _|runs_auto|intros _]. cbv zeta.
  apply runs_bind; [apply _|runs_auto|]. intros [[op o]|]; [runs_auto|].
  apply moves_committed; [apply _|done|]. intros s a s' H.
  apply m_bind_Done in H as (row & s1 & [-> ->]%query_Done & H).
  apply m_bind_Done in H as (x & s2 & [Hrow ->]%ok_or_Done & H).
  apply m_bind_Done in H as ([] & s2 & [_ ->]%require_Done & H).
  apply m_bind_Done in H as ([] & s2 & [Hst ->]%require_Done & H).
  apply m_bind_Done in H as ([] & s2 & [_ ->]%execute_Done & H).
  match type of H with ?m ?s = _ => assert (Hm : moves advances m) by runs_auto end.
  etrans; [|exact (runs_to _ _ _ _ _ Hm H)].
  apply advances_set_workspace. intros y Hy _. apply later_workspace_kept; [done..|]. intros Hd.
  unfold scoped_workspace in Hrow. cbn in Hrow, Hy. rewrite Hy in Hrow. destruct (_ && _); [|done].
  injection Hrow as <-. unfold deletion_started in Hst. by rewrite Hd in Hst.
Qed.

(** *** The tenant worker *)

Lemma advances_held g p f : moves advances (update_held env g p f).
Proof.
  apply advances_execute. intros now t d. destruct (update_one _ _ _ _) as [n tab]. by apply advances_same.
Qed.
#[local] Hint Resolve advances_held : runs.

Lemma advances_claim owner kinds : moves advances (claim_kinds_with_org_slot env owner kinds).
Proof.
  unfold claim_kinds_with_org_slot. destruct kinds; [apply runs_ret, _|].
  apply runs_bind; [apply _|runs_auto|]. intros l. induction l as [|[id o] l IH]; cbn; [apply runs_ret, _|].
  unfold claim_slot, claim_candidate. runs_auto. apply advances_sql. intros now t d u d'.
  repeat (case_match; try done); intros; simplify_eq/=; by apply advances_same.
Qed.

Lemma advances_fenced g body : moves advances body → moves advances (Worker.fenced env g body).
Proof. intros Hb. unfold Worker.fenced, lock_in_tx, complete_in_tx. runs_auto. Qed.
Lemma advances_stepping g step k : moves advances k → moves advances (Worker.stepping env g step k).
Proof. intros Hk. unfold Worker.stepping, set_step. runs_auto. Qed.
Lemma advances_each {A} (f : A → M unit) l : (∀ x, moves advances (f x)) → moves advances (each f l).
Proof. intros Hf. induction l as [|x l IH]; cbn; [apply runs_ret, _|runs_auto]. Qed.
Lemma advances_fail g r code : moves advances (fail env g r code).
Proof. unfold fail, settle. runs_auto. Qed.
Lemma advances_record_error g tenant code : moves advances (Worker.record_error env g tenant code).
Proof. unfold Worker.record_error, lock_in_tx. runs_auto. Qed.
#[local] Hint Resolve advances_claim advances_fail advances_record_error : runs.

(** [runs_auto], through the worker's own combinators. *)
Ltac worker :=
  repeat (runs_step || lazymatch goal with
    | |- runs _ (Worker.fenced _ _ _) => apply advances_fenced
    | |- runs _ (Worker.stepping _ _ _ _) => apply advances_stepping
    | |- runs _ (each _ _) => apply advances_each; intros ?
    end || solve [auto with runs typeclass_instances]).

Lemma advances_prepare org tenant w b m r :
  moves advances (TenantRuntime.prepare_workspace_secret env wdeps org tenant w b m r).
Proof.
  unfold TenantRuntime.prepare_workspace_secret, TenantRuntime.store_bundle, TenantRuntime.secret_or,
    TenantRuntime.redis_credential, get_ref, put, replace_ref. worker.
Qed.
Lemma advances_redis org tenant ref : moves advances (TenantRuntime.ensure_redis_credential env wdeps org tenant ref).
Proof.
  unfold TenantRuntime.ensure_redis_credential, TenantRuntime.allocate_redis_credential, TenantRuntime.secret_or,
    TenantRuntime.redis_credential, get_ref, put, delete_ref. worker.
  all: apply advances_sql; intros ? ? ? ? ?; unfold upsert_redis_row;
    repeat (case_match; try done); intros; simplify_eq/=; by apply advances_same.
Qed.
Lemma advances_hook org tenant ref : moves advances (TenantRuntime.ensure_hook_key env org tenant ref).
Proof.
  unfold TenantRuntime.ensure_hook_key, TenantRuntime.allocate_hook_key, TenantRuntime.secret_or,
    get_ref, put, delete_ref. worker.
  all: apply advances_sql; intros ? ? ? ? ?; unfold upsert_hook_row;
    repeat (case_match; try done); intros; simplify_eq/=; by apply advances_same.
Qed.
#[local] Hint Resolve advances_prepare advances_redis advances_hook : runs.

Lemma advances_runtime_secret org tenant w :
  moves advances (Worker.ensure_workspace_runtime_secret env wdeps org tenant w).
Proof. unfold Worker.ensure_workspace_runtime_secret, ensure_bootstrap_ref, live_bootstrap_ref, get_ref. worker. Qed.
Lemma advances_fresh w : moves advances (Worker.runtime_heartbeat_fresh env w).
Proof. unfold Worker.runtime_heartbeat_fresh, Worker.runtime_readiness_confirmed. worker. Qed.
Lemma advances_digest release role : moves advances (Worker.role_image_digest env wdeps release role).
Proof. unfold Worker.role_image_digest. worker. Qed.
#[local] Hint Resolve advances_runtime_secret advances_fresh advances_digest : runs.

Lemma advances_mark_worker g tenant w : moves advances (Worker.mark_worker_running env g tenant w).
Proof. unfold Worker.mark_worker_running. worker. Qed.

(** The tenant is [provisioning] when it is marked running. *)
Lemma advances_mark_tenant g tenant w : moves advances (Worker.mark_tenant_running env g tenant w).
Proof.
  unfold Worker.mark_tenant_running. apply advances_stepping, moves_committed; [apply _|done|]. intros s a s' H.
  apply m_bind_Done in H as (held & s1 & [-> ->]%query_Done & H).
  destruct (negb _); [by apply m_ret_Done in H as [_ ->]|].
  apply m_bind_Done in H as (row & s2 & [-> ->]%query_Done & H).
  apply m_bind_Done in H as (state & s3 & [Hrow ->]%ok_or_Done & H).
  destruct (bool_decide (state = "provisioning")) eqn:Es; cbn in H; [|by apply m_ret_Done in H as [_ ->]].
  apply bool_decide_eq_true in Es as ->. apply m_bind_Done in H as ([] & s4 & [_ ->]%execute_Done & H).
  match type of H with ?m ?s = _ => assert (Hm : moves advances m) by (unfold complete_in_tx; worker) end.
  etrans; [|exact (runs_to _ _ _ _ _ Hm H)]. apply advances_set_tenant. intros t Ht _. split_and!; [done..|].
  intros Hd. cbn in Hrow, Ht. rewrite Ht in Hrow. cbn in Hrow. congruence.
Qed.
#[local] Hint Resolve advances_mark_worker advances_mark_tenant : runs.

Lemma advances_mutate_turn g del : moves advances (Worker.mutate_worker_workspace env wdeps g del).
Proof.
  unfold Worker.mutate_worker_workspace, Worker.delete_upstream, set_tenant.
  destruct del; cbn [negb andb]; worker.
Qed.
Lemma advances_stop g : moves advances (Worker.stop env wdeps g).
Proof. unfold Worker.stop, Worker.resource_tenant, decoded, not_deleted. worker. Qed.
Lemma advances_start g : moves advances (Worker.start env wdeps g).
Proof.
  unfold Worker.start, Worker.resource_tenant, decoded. worker.
  match goal with |- runs _ (Worker.start_each _ _ _ _ ?n ?l) => generalize n; induction l as [|[[id w] o] l IH]; intros nx end;
    cbn; unfold Worker.runtime_session_pending_readiness, ensure_bootstrap_ref, live_bootstrap_ref, get_ref; worker.
Qed.
Lemma advances_clean g all : moves advances (Worker.clean env wdeps g all).
Proof.
  unfold Worker.clean, Worker.resource_tenant, TenantRuntime.clean_redis_namespace, TenantRuntime.redis_credential.
  worker.
Qed.

Lemma advances_create_worker g id w t org name : moves advances (Worker.create_worker env wdeps g id w t org name).
Proof.
  unfold Worker.create_worker, Worker.get_org_binding, Worker.get_org_template_version, Worker.attach_created,
    Worker.delete_upstream_or, Worker.delete_upstream, Worker.clean_locally,
    Worker.complete_worker_creation_superseded, Worker.runtime_readiness_confirmed, lock_in_tx. worker.
  all: apply advances_sql; intros; by eapply advances_attach.
Qed.
#[local] Hint Resolve advances_create_worker : runs.
Lemma advances_worker_turn g : moves advances (Worker.provision_worker_workspace env wdeps g).
Proof.
  unfold Worker.provision_worker_workspace, Worker.complete_worker_creation_superseded,
    Worker.runtime_readiness_confirmed, Worker.runtime_session_pending_readiness. worker.
Qed.

Lemma advances_ensure_workspace org tenant role slot : moves advances (ensure_workspace env org tenant role slot).
Proof. unfold ensure_workspace, insert_workspace. runs_auto. Qed.
#[local] Hint Resolve advances_ensure_workspace : runs.

Lemma advances_create_nexus g tenant nexus org owner :
  moves advances (Worker.create_nexus env wdeps g tenant nexus org owner).
Proof.
  unfold Worker.create_nexus, Worker.resolve_nexus_template, Worker.get_org_binding,
    Worker.get_org_template_version, Worker.tenant_repository_full_name, Worker.fail_with, Worker.settle_nexus,
    TenantRuntime.set_coder_workspace_id. worker.
  all: apply advances_sql; intros; by eapply advances_attach.
Qed.
#[local] Hint Resolve advances_create_nexus : runs.

Lemma advances_reserve_nexus g tenant org owner :
  moves advances (Worker.reserve_nexus env wdeps g tenant org owner).
Proof.
  unfold Worker.reserve_nexus, Worker.adopt_nexus, Worker.settle_nexus, Worker.runtime_session_pending_readiness.
  worker.
Qed.
#[local] Hint Resolve advances_reserve_nexus : runs.

Lemma advances_provision g : moves advances (Worker.provision env wdeps g).
Proof.
  unfold Worker.provision, Worker.resource_tenant, provisioning_slot_available_for, Worker.tenant_is_provisioning,
    Worker.org_ready, Worker.repo_accessible, Worker.ensure_owner, Worker.coder_org_for_tenant, Worker.linked_owner,
    Worker.fail_with, Worker.allocate, Worker.persist_owner. worker.
  all: apply advances_sql; intros ? ? ? ? ?; repeat (case_match; try done); intros; simplify_eq/=;
    by apply advances_same.
Qed.

Lemma advances_tear_down org tenant : moves advances (Worker.tear_down env wdeps org tenant).
Proof.
  unfold Worker.tear_down, Worker.delete_upstream_or, Worker.delete_upstream, Worker.clean_locally, decoded. worker.
Qed.
Lemma advances_withdraw org tenant : moves advances (Worker.withdraw env wdeps org tenant).
Proof.
  unfold Worker.withdraw, TenantRuntime.revoke_redis_credential, TenantRuntime.clear_redis_namespace,
    TenantRuntime.delete_tenant_secrets, TenantRuntime.delete_or_absent, TenantRuntime.redis_credential_any,
    Worker.delete_owner, delete_ref. worker.
Qed.
#[local] Hint Resolve advances_tear_down advances_withdraw : runs.

Lemma advances_delete g : moves advances (Worker.delete env wdeps g).
Proof.
  unfold Worker.delete, Worker.resource_tenant. worker. apply advances_execute. intros. apply advances_erase.
Qed.

Lemma advances_run_once owner : moves advances (Worker.run_once env wdeps owner).
Proof.
  unfold Worker.run_once, Worker.operation_kind, Worker.perform, Worker.finish, requeue, requeue_after.
  pose proof advances_delete. pose proof advances_provision. pose proof advances_worker_turn.
  pose proof advances_start. pose proof advances_stop. pose proof advances_clean. pose proof advances_mutate_turn.
  worker.
Qed.

(** *** Everything workspaces, tenants and their clients ask for *)

Inductive service_call : M unit → Prop :=
  | call_issue w : service_call (issue_for_workspace env w;; mret tt)
  | call_bootstrap w : service_call (ensure_bootstrap_ref env w;; mret tt)
  | call_register raw : service_call (register env raw;; mret tt)
  | call_rotate w : service_call (rotate env w;; mret tt)
  | call_refresh raw : service_call (refresh_session env raw;; mret tt)
  | call_revoke w : service_call (revoke env w)
  | call_revoke_credential id : service_call (revoke_credential env id;; mret tt)
  | call_revoke_connection org c : service_call (revoke_leases_for_connection env org c;; mret tt)
  | call_authenticate raw audience : service_call (authenticate_for_audience env raw audience;; mret tt)
  | call_exchange inflight scope purpose rid :
      service_call (exchange env deps app_id inflight scope purpose rid;; mret tt)
  | call_create actor org repository slug fleet key rid :
      service_call (create_tenant env limits actor org repository slug fleet key rid;; mret tt)
  | call_delete actor org tenant key rid : service_call (delete_tenant env actor org tenant key rid;; mret tt)
  | call_action actor org tenant action admin key rid :
      service_call (enqueue_action env actor org tenant action admin key rid;; mret tt)
  | call_workspace org tenant : service_call (ensure_workspace env org tenant "nexus" None;; mret tt)
  | call_worker scope role slot ticket branch pair key :
      service_call (request_worker env scope role slot ticket branch pair key;; mret tt)
  | call_heartbeat scope : service_call (heartbeat env scope;; mret tt)
  | call_mutate scope w del key : service_call (mutate_worker env scope w del key;; mret tt)
  | call_turn owner : service_call (Worker.run_once env wdeps owner;; mret tt).

Definition service_step (s s' : MState) : Prop := ∃ m, service_call m ∧ s' = (m s).2.

#[local] Hint Resolve runs_policy_of runs_require_member runs_require_admin runs_require_developer : runs.
#[local] Hint Resolve advances_once : runs.

Lemma advances_heartbeat scope : moves advances (heartbeat env scope).
Proof.
  unfold heartbeat. runs_auto.
Qed.

Lemma advances_create_tenant actor org repository slug fleet key rid :
  moves advances (create_tenant env limits actor org repository slug fleet key rid).
Proof. unfold create_tenant. runs_auto. apply advances_once, commits_runs, advances_found. Qed.
Lemma advances_delete_tenant actor org tenant key rid :
  moves advances (delete_tenant env actor org tenant key rid).
Proof. unfold delete_tenant, get_scoped. runs_auto. apply advances_once, advances_mark_deleting. Qed.
Lemma advances_enqueue_action actor org tenant action admin key rid :
  moves advances (enqueue_action env actor org tenant action admin key rid).
Proof. unfold enqueue_action. runs_auto. apply advances_once, advances_act. Qed.
#[local] Hint Resolve advances_heartbeat advances_create_tenant advances_delete_tenant advances_enqueue_action : runs.

Lemma advances_call m : service_call m → moves advances m.
Proof.
  intros Hm. destruct Hm; (apply runs_bind; [apply _| |]); try (intros; apply runs_ret; apply _);
    try solve [auto with runs typeclass_instances].
  - unfold issue_for_workspace, workspace_generation, insert_credential. runs_auto.
  - unfold ensure_bootstrap_ref, live_bootstrap_ref, get_ref. runs_auto.
  - unfold rotate. runs_auto.
  - intros _. unfold revoke_workspace_credentials, revoke_leases_for_workspace, revoke_counted. runs_auto.
  - unfold revoke_leases_for_connection, revoke_counted. runs_auto.
  - unfold request_worker, insert_workspace_in_tx, note_if. runs_auto.
  - apply advances_mutate_worker.
  - apply advances_run_once.
Qed.

Lemma advances_steps s s' : rtc service_step s s' → advances (db s) (db s').
Proof.
  induction 1 as [|s1 s2 s3 (m & Hm & ->) _ IH]; [reflexivity|]. etrans; [apply (advances_call m Hm)|done].
Qed.
End calls.
