(* ===== verification/RuntimeProps.v ===== *)
(** * Who a workspace is, and what it may touch

    A bootstrap admits once, a rotated credential is dead, a token of GitHub is
    handed out within the authority of the moment or taken back, and a tenant that
    was deleted is let in nowhere. *)
From S2P Require Import Prelude Text Json Schema Database DatabaseFacts Operations Outbox.
From S2P Require Import Idempotency Pagination Runtime Tenants TenantWorker RuntimeFacts.

Section runtime.
Context (env : Env) (limits : TenantLimits) (deps : BrokerDeps) (app_id : Z) (wdeps : WorkerDeps).
Context (rely : ∀ n d, advances d (others env n d)).

Abbreviation steps := (rtc (service_step env limits deps app_id wdeps)).

(** ** Bootstraps *)

(** The bootstrap with this hash was used, for workspace [w]; it is gone only if [w] is. *)
Definition spent (h : string) (w : uuid) (d : Db) : Prop :=
  deleted_workspace w d ∨
  ∃ id b, workspace_bootstrap_credentials d !! id = Some b ∧ bc_credential_hash b = h ∧
          bc_workspace_id b = w ∧ open_bootstrap b = false.

Lemma spent_stays h w d d' : advances d d' → spent h w d → spent h w d'.
Proof.
  intros Ha [Hd|(id & b & Hb & Hh & Hw & Ho)]; [left; by eapply deleted_stays|].
  destruct (adv_bootstraps _ _ Ha id b Hb) as [Hd|(b' & Hb' & (Hw' & Hh' & Ho'))]; [left; by rewrite <-Hw|].
  right. exists id, b'. split_and!; [done|congruence..|auto].
Qed.

(** What it still admits is another workspace, after [w] was deleted. *)
Lemma spent_admits h w t d id b :
  unique_marks bc_credential_hash (workspace_bootstrap_credentials d) → spent h w d →
  workspace_bootstrap_credentials d !! id = Some b → admitting h t d b = true →
  deleted_workspace w d ∧ bc_workspace_id b ≠ w.
Proof.
  intros Hu Hs Hb Ha. unfold admitting in Ha. rewrite !andb_true_iff, bool_decide_eq_true in Ha.
  destruct Ha as [[[Hh Ho] _] Hw]. destruct Hs as [Hd|(id' & b' & Hb' & Hh' & _ & Ho')].
  - split; [done|]. intros <-. destruct Hd as (x & Hx & Hd). rewrite Hx, Hd in Hw. done.
  - assert (id = id') as -> by (eapply Hu; [done..|congruence]). congruence.
Qed.

(** A bootstrap, its workspace and its tenant at the moment of admission. *)
Definition admits_at (h : string) (t : Z) (d : Db) (workspace : uuid) (generation : Z) : Prop :=
  ∃ id b w te, workspace_bootstrap_credentials d !! id = Some b ∧ bc_credential_hash b = h ∧
    bc_consumed_at b = None ∧ bc_revoked_at b = None ∧ (t < bc_expires_at b)%Z ∧
    bc_workspace_id b = workspace ∧ workspaces d !! workspace = Some w ∧
    w_credential_generation w = generation ∧ gone (w_desired_state w) = false ∧
    tenants d !! w_tenant_id w = Some te ∧ t_organization_id te = w_organization_id w ∧
    gone (t_desired_state te) = false.

Lemma admitting_true h t d id b :
  workspace_bootstrap_credentials d !! id = Some b → admitting h t d b = true →
  ∃ w, workspaces d !! bc_workspace_id b = Some w ∧
       admits_at h t d (bc_workspace_id b) (w_credential_generation w).
Proof.
  intros Hb Ha. unfold admitting, open_bootstrap in Ha.
  destruct (workspaces d !! bc_workspace_id b) as [w|] eqn:Hw; [|by rewrite andb_false_r in Ha].
  destruct (tenants d !! w_tenant_id w) as [te|] eqn:Ht; [|by rewrite !andb_false_r in Ha].
  rewrite !andb_true_iff, !negb_true_iff, !bool_decide_eq_true in Ha.
  destruct Ha as [[[Hh [Hc Hr]] Hexp] [Hg [Ho Hg']]]. exists w. split; [done|].
  exists id, b, w, te. apply is_none_true in Hc, Hr. apply Z.ltb_lt in Hexp. done.
Qed.

(** Consuming a bootstrap. *)
Lemma consume_Some h ai ah ae ri rh fi fe s c s' :
  consume_bootstrap_and_insert_session env h ai ah ae ri rh fi fe s = (Done (Some c), s') →
  let d := others env (moment s) (db s) in
  (∃ id b, workspace_bootstrap_credentials d !! id = Some b ∧ admitting h (clock env (S (moment s))) d b = true ∧
           bc_workspace_id b = cb_workspace_id c) ∧
  admits_at h (clock env (S (moment s))) d (cb_workspace_id c) (cb_generation c) ∧
  spent h (cb_workspace_id c) (db s').
Proof.
  intros H d. unfold consume_bootstrap_and_insert_session in H.
  apply transaction_Done in H as [H|(s1 & H & _)]; [|by m_cases H].
  apply m_bind_Done in H as (row & s1 & [-> ->]%query_Done & H). cbn in H. fold d in H.
  destruct (rows _ _) as [|[id b] l] eqn:E; cbn in H; [by m_cases H|].
  assert (Hin : (id, b) ∈ (id, b) :: l) by left. rewrite <-E in Hin. apply elem_rows in Hin as [Hb Ha].
  destruct (admitting_true _ _ _ _ _ Hb Ha) as (w & Hw & Hadm). rewrite Hw in H. cbn in H.
  assert (Hh : bc_credential_hash b = h ∧ is_none (bc_consumed_at b) = true).
  { unfold admitting, open_bootstrap in Ha. rewrite !andb_true_iff, bool_decide_eq_true in Ha. tauto. }
  apply m_bind_Done in H as (? & s2 & [_ ->]%execute_Done & H).
  match type of H with ?m ?s2 = _ =>
    assert (Hm : moves advances m); [|apply (runs_to _ _ _ _ _ Hm) in H as Hadv] end.
  { repeat (runs_step || solve [auto with runs typeclass_instances]).
    - apply moves_sql; [apply _|]. intros. by eapply advances_insert_credential.
    - apply moves_sql; [apply _|]. intros. by eapply advances_insert_credential.
    - apply moves_execute; [apply _|]. intros. apply advances_set_workspace. intros. by apply later_workspace_kept. }
  repeat (apply m_bind_Done in H as (? & ? & _ & H)). apply m_ret_Done in H as [[= <-] ->].
  split; [by exists id, b|]. split; [exact Hadm|]. apply (spent_stays _ _ _ _ Hadv). right. cbn.
  destruct Hh as [Hh Hn]. exists id. rewrite lookup_update, Hb. cbn.
  rewrite bool_decide_eq_true_2, Hn by done. cbn. eexists. done.
Qed.

Lemma consume_refuses h ai ah ae ri rh fi fe s :
  (∀ id b, workspace_bootstrap_credentials (others env (moment s) (db s)) !! id = Some b →
     admitting h (clock env (S (moment s))) (others env (moment s) (db s)) b = false) →
  ∃ s', consume_bootstrap_and_insert_session env h ai ah ae ri rh fi fe s = (Done None, s').
Proof.
  intros Hu. unfold consume_bootstrap_and_insert_session, transaction, atomically, mbind, m_bind, query, sql. cbn.
  destruct (rows _ _) as [|[id b] l] eqn:E; cbn; [eauto|].
  assert (Hin : (id, b) ∈ (id, b) :: l) by left. rewrite <-E in Hin. apply elem_rows in Hin as [Hb Ha].
  by rewrite (Hu id b Hb) in Ha.
Qed.

Lemma retire_keeps c : moves (=) (retire_bootstrap env c).
Proof. unfold retire_bootstrap, delete_ref, get_ref, replace_ref. runs_auto. Qed.

(** The state in which [register] consumes the bootstrap. *)
Lemma register_Done raw s issue s1 :
  register env raw s = (Done issue, s1) →
  validate_presented_secret raw s = (Done tt, s) ∧
  ∃ ai ah ae ri rh fi fe s2 c s3, db s2 = db s ∧
    consume_bootstrap_and_insert_session env (sha256_hex env raw) ai ah ae ri rh fi fe s2 = (Done (Some c), s3) ∧
    db s3 = db s1 ∧ si_workspace_id issue = cb_workspace_id c ∧ si_generation issue = cb_generation c.
Proof.
  intros H. unfold register in H.
  apply m_bind_Done in H as ([] & s0 & Hv & H). pose proof Hv as [_ ->]%require_Done. split; [done|].
  do 7 (apply m_bind_Done in H as (? & ? & [= <- <-] & H)).
  apply m_bind_Done in H as (found & s2 & Hc & H).
  apply m_bind_Done in H as (c & s3 & [-> ->]%ok_or_Done & H).
  apply m_bind_Done in H as ([] & s3 & Hr & [<- ->]%m_ret_Done).
  apply (runs_to _ _ _ _ _ (retire_keeps c)) in Hr. unfold at_db in Hr.
  do 7 eexists. eexists _, c, s2. split; [|split; [exact Hc|done]]. done.
Qed.

(** C11. A bootstrap admits once.  Registration succeeds only with a bootstrap that is
    neither used nor revoked nor expired, of a workspace that is not being deleted and
    whose tenant is not, and gives a session of exactly that workspace at its current
    generation.  Afterwards, whatever is asked of the services, however the tenant worker
    takes its turns and whatever the other clients of these services do, presenting the same
    bootstrap is refused, or the workspace has been deleted together with its bootstraps;
    never is that workspace admitted with it again.  (No two bootstraps have the same hash,
    which the table ensures.) *)
Theorem bootstrap_admits_once raw s issue s1 :
  unique_marks bc_credential_hash (workspace_bootstrap_credentials (db s)) →
  register env raw s = (Done issue, s1) →
  (∃ n, admits_at (sha256_hex env raw) (clock env (S n)) (others env n (db s))
          (si_workspace_id issue) (si_generation issue)) ∧
  ∀ s2, steps s1 s2 →
    ((∃ s3, register env raw s2 = (Refused (AUTH_FAILED "runtime bootstrap is invalid"), s3)) ∨
     ∃ n, deleted_workspace (si_workspace_id issue) (others env n (db s2))) ∧
    ∀ issue' s3, register env raw s2 = (Done issue', s3) → si_workspace_id issue' ≠ si_workspace_id issue.
Proof.
  intros Hu H. pose proof (runs_to _ _ _ _ _ (advances_register env rely raw) H) as Ha. unfold at_db in Ha.
  apply register_Done in H as (Hv & ai & ah & ae & ri & rh & fi & fe & s2 & c & s3 & Hd & Hc & Hd3 & Hw & Hg).
  apply consume_Some in Hc as (_ & Hadm & Hsp). cbn in Hadm. rewrite Hd3, <-Hw in Hsp.
  rewrite Hd, <-Hw, <-Hg in Hadm. split; [eexists; exact Hadm|]. clear Hadm Hd Hd3 Hw Hg.
  intros s4 Hs. apply advances_steps in Hs; [|done].
  assert (Hnow : ∀ n, unique_marks bc_credential_hash (workspace_bootstrap_credentials (others env n (db s4))) ∧
                      spent (sha256_hex env raw) (si_workspace_id issue) (others env n (db s4))).
  { intros n. assert (Hn : advances (db s1) (others env n (db s4))) by (etrans; [exact Hs|apply rely]).
    split; [by apply (adv_unique_bootstraps _ _ Hn), (adv_unique_bootstraps _ _ Ha)|by eapply spent_stays]. }
  split.
  - unfold register. unfold mbind, m_bind. unfold validate_presented_secret, require in Hv |- *.
    destruct (_ && _); [|done]. cbn.
    match goal with |- context [consume_bootstrap_and_insert_session env ?h ?ai ?ah ?ae ?ri ?rh ?fi ?fe ?st] =>
      set (sx := st); destruct (exists_row (λ _ b, admitting h (clock env (S (moment sx))) (others env (moment sx) (db s4)) b)
        (workspace_bootstrap_credentials (others env (moment sx) (db s4)))) eqn:Ex;
      [|destruct (consume_refuses h ai ah ae ri rh fi fe sx) as [s5 ->]; [|by left; eauto]] end.
    + right. apply exists_row_true in Ex as (id & b & Hb & Hadm). exists (moment sx).
      destruct (Hnow (moment sx)) as [Hun Hsp']. by eapply spent_admits.
    + intros id b Hb. exact (proj1 (exists_row_false _ _) Ex id b Hb).
  - intros issue' s5 H'.
    apply register_Done in H' as (_ & ? & ? & ? & ? & ? & ? & ? & s6 & c' & ? & Hd & Hc & _ & -> & _).
    apply consume_Some in Hc as ((id & b & Hb & Hadm & <-) & _). rewrite Hd in Hb, Hadm.
    destruct (Hnow (moment s6)) as [Hun Hsp']. by eapply spent_admits.
Qed.

(** ** Credentials *)

Lemma chain_of_Some w d h :
  chain_of w d = Some h →
  workspaces d !! w = Some (ch_workspace h) ∧ tenants d !! w_tenant_id (ch_workspace h) = Some (ch_tenant h).
Proof.
  unfold chain_of. intros H. repeat (simplify_option_eq || case_match || done). 
Qed.

(** Whom a credential belongs to, when it is accepted. *)
Lemma authenticate_Done raw audience s scope s' :
  authenticate_for_audience env raw audience s = (Done scope, s') →
  let d := others env (moment s) (db s) in
  ∃ rc h, runtime_credentials d !! sc_credential_id scope = Some rc ∧
    rc_credential_hash rc = sha256_hex env raw ∧ chain_of (rc_workspace_id rc) d = Some h ∧
    scope = scope_of (sc_credential_id scope) rc h ∧ rc_audience rc = audience ∧ rc_revoked_at rc = None ∧
    rc_generation rc = w_credential_generation (ch_workspace h) ∧
    gone (t_desired_state (ch_tenant h)) = false ∧ gone (w_desired_state (ch_workspace h)) = false.
Proof.
  intros H d. unfold authenticate_for_audience in H.
  apply m_bind_Done in H as ([] & s0 & [_ ->]%require_Done & H).
  apply m_bind_Done in H as (found & s1 & E & H). unfold resolve_runtime_scope, on_pool in E.
  apply m_bind_Done in E as ([] & s2 & [= <-] & E). apply query_Done in E as [-> ->]. cbn in H. fold d in H.
  destruct (rows _ _) as [|[id rc] l] eqn:Er; [by m_cases H|].
  assert (Hin : (id, rc) ∈ (id, rc) :: l) by left. rewrite <-Er in Hin. apply elem_rows in Hin as [Hrc Hh].
  apply bool_decide_eq_true in Hh. destruct (chain_of (rc_workspace_id rc) d) as [h|] eqn:Hch; [|by m_cases H].
  cbn in H. apply m_bind_Done in H as (sc & s1 & [<- ->]%m_ret_Done & H).
  apply m_bind_Done in H as (now & s1 & [= <- <-] & H).
  apply m_bind_Done in H as ([] & s1 & Hck & [<- _]%m_ret_Done). unfold check_scope in Hck.
  apply m_bind_Done in Hck as ([] & ? & [Ha ->]%require_Done & Hck).
  apply m_bind_Done in Hck as ([] & ? & [_ ->]%require_Done & Hck).
  apply m_bind_Done in Hck as ([] & ? & [Hr ->]%require_Done & Hck).
  apply m_bind_Done in Hck as ([] & ? & [Hg ->]%require_Done & Hck). apply require_Done in Hck as [Hst _].
  cbn in *. rewrite !andb_true_iff, !negb_true_iff in Hst. destruct Hst as [[[_ _] Ht] Hw].
  exists rc, h. apply bool_decide_eq_true in Ha. apply is_none_true in Hr. apply Z.eqb_eq in Hg. done.
Qed.

(** The credentials that workspace [w] had in [d0] are revoked in [d], or gone with it. *)
Definition dead (w : uuid) (d0 d : Db) : Prop :=
  ∀ id c, runtime_credentials d0 !! id = Some c → rc_workspace_id c = w →
    deleted_workspace w d ∨
    ∃ c', runtime_credentials d !! id = Some c' ∧ later_credential c c' ∧ rc_revoked_at c' ≠ None.

Lemma dead_stays w d0 d d' : advances d d' → dead w d0 d → dead w d0 d'.
Proof.
  intros Ha Hd id c Hc Hw. destruct (Hd id c Hc Hw) as [Hdel|(c1 & H1 & L1 & R1)]; [left; by eapply deleted_stays|].
  destruct (adv_credentials _ _ Ha id c1 H1) as [Hdel|(c2 & H2 & L2)].
  - left. destruct L1 as [L1 _]. congruence.
  - right. exists c2. split; [done|]. split; [by etrans|]. by apply L2.
Qed.

Lemma dead_before w d d0 d' : advances d d0 → advances d0 d' → dead w d0 d' → dead w d d'.
Proof.
  intros Ha Ha' Hd id c Hc Hw. destruct (adv_credentials _ _ Ha id c Hc) as [Hdel|(c1 & H1 & L1)].
  - left. rewrite <-Hw. by eapply deleted_stays.
  - destruct (Hd id c1 H1) as [Hdel|(c2 & H2 & L2 & R2)]; [destruct L1; congruence|by left|].
    right. exists c2. split; [done|]. split; [by etrans|done].
Qed.

Lemma rotate_Done ai w p ah ae ri rh fi fe s g s' :
  rotate_credential_pair env ai w p ah ae ri rh fi fe s = (Done g, s') →
  let d := others env (moment s) (db s) in
  (∀ h, p = Some h → ∃ id c, runtime_credentials d !! id = Some c ∧ rc_credential_hash c = h ∧
     rc_workspace_id c = w ∧ rc_revoked_at c = None) ∧
  dead w d (db s') ∧ advances d (db s').
Proof.
  intros H d. unfold rotate_credential_pair in H.
  apply transaction_Done in H as [H|(s1 & H & _)]; [|by m_cases H].
  apply m_bind_Done in H as (row & s1 & E & H). apply sql_Done in E as (d1 & E & ->). cbn in E. fold d in E.
  destruct (workspaces d !! w) as [x|] eqn:Hw; [|injection E as <- <-; by m_cases H].
  destruct (null_or _ p) eqn:Hp; [|injection E as <- <-; by m_cases H].
  apply advances_bump in E as Hb; [|done].
  apply m_bind_Done in H as (g0 & s2 & [-> ->]%ok_or_Done & H).
  apply m_bind_Done in H as (? & s2 & [_ ->]%execute_Done & H). cbn in H.
  match type of H with ?m ?s2 = _ =>
    assert (Hm : moves advances m); [|apply (runs_to _ _ _ _ _ Hm) in H as Hadv; clear Hm] end.
  { repeat (runs_step || solve [auto with runs typeclass_instances]).
    - apply moves_execute; [apply _|]. intros. apply advances_revoke_leases.
    - apply moves_sql; [apply _|]. intros. by eapply advances_insert_credential.
    - apply moves_sql; [apply _|]. intros. by eapply advances_insert_credential. }
  split; [|split].
  - intros h ->. cbn in Hp. apply exists_row_true in Hp as (id & c & Hc & Hpr). exists id, c.
    unfold presented, of_workspace in Hpr. rewrite !andb_true_iff, !bool_decide_eq_true in Hpr.
    destruct Hpr as [[[[[? ?] ?] Hr] _] _]. apply is_none_true in Hr. done.
  - eapply dead_stays; [exact Hadv|]. eapply dead_before; [exact Hb|apply advances_revoke|]. intros id c Hc Hcw.
    right. cbn. rewrite lookup_update, Hc. cbn. eexists. split; [done|]. unfold of_workspace.
    rewrite bool_decide_eq_true_2 by done. cbn. destruct (rc_revoked_at c) as [t|] eqn:Er; cbn.
    + split; [reflexivity|congruence].
    + split; [apply later_revoked_credential|done].
  - etrans; [exact Hb|]. etrans; [|exact Hadv]. apply advances_revoke.
Qed.

(** The credential with this hash is revoked; it is gone only if workspace [w] is. *)
Definition retired (h : string) (w : uuid) (d : Db) : Prop :=
  deleted_workspace w d ∨
  ∃ id c, runtime_credentials d !! id = Some c ∧ rc_credential_hash c = h ∧ rc_workspace_id c = w ∧
          rc_revoked_at c ≠ None.

Lemma retired_stays h w d d' : advances d d' → retired h w d → retired h w d'.
Proof.
  intros Ha [Hd|(id & c & Hc & Hh & Hw & Hr)]; [left; by eapply deleted_stays|].
  destruct (adv_credentials _ _ Ha id c Hc) as [Hd|(c' & Hc' & (Hw' & Hh' & _ & _ & Hr'))]; [left; by rewrite <-Hw|].
  right. exists id, c'. split_and!; [done|congruence..|auto].
Qed.

Lemma retired_live h w d id c :
  unique_marks rc_credential_hash (runtime_credentials d) → retired h w d →
  runtime_credentials d !! id = Some c → rc_credential_hash c = h → rc_revoked_at c = None →
  deleted_workspace w d.
Proof.
  intros Hu [Hd|(id' & c' & Hc' & Hh' & _ & Hr')] Hc Hh Hr; [done|].
  assert (id = id') as -> by (eapply Hu; [done..|congruence]). congruence.
Qed.

(** Nobody is accepted for a deleted workspace. *)
Lemma authenticate_not_deleted raw audience s scope s' :
  authenticate_for_audience env raw audience s = (Done scope, s') →
  ¬ deleted_workspace (sc_workspace_id scope) (others env (moment s) (db s)).
Proof.
  intros H (x & Hx & Hd). apply authenticate_Done in H as (rc & h & _ & _ & Hch & Hsc & _ & _ & _ & _ & Hg).
  assert (Hw : sc_workspace_id scope = rc_workspace_id rc) by (by rewrite Hsc).
  rewrite Hw in Hx. apply chain_of_Some in Hch as [Hch _]. assert (ch_workspace h = x) as Heq by congruence.
  by rewrite Heq, Hd in Hg.
Qed.

(** C9. Rotation.  A refresh credential was exchanged for a new pair, while others work
    on the database at will (two workspaces may present the same credential at once).
    Then, whatever the services and the tenant worker do: nobody is accepted for this
    workspace, for whatever audience, with the presented secret or with any credential
    that the workspace had before; and nobody who had the presented secret accepted
    before the rotation can still rotate with it, unless the workspace has been deleted
    by then.  (No two credentials have the same hash, which the table ensures.) *)
Theorem rotation_retires_credentials raw s issue s1 :
  unique_marks rc_credential_hash (runtime_credentials (db s)) →
  refresh_session env raw s = (Done issue, s1) → ∀ s2, steps s1 s2 →
  (∀ raw' audience scope s3, authenticate_for_audience env raw' audience s2 = (Done scope, s3) →
     sc_workspace_id scope = si_workspace_id issue →
     sha256_hex env raw' ≠ sha256_hex env raw ∧
     ∀ c, runtime_credentials (db s) !! sc_credential_id scope = Some c → rc_workspace_id c ≠ si_workspace_id issue) ∧
  ∀ ai w ah ae ri rh fi fe g s3,
    rotate_credential_pair env ai w (Some (sha256_hex env raw)) ah ae ri rh fi fe s2 = (Done g, s3) →
    ∃ n, deleted_workspace (si_workspace_id issue) (others env n (db s2)).
Proof.
  intros Hu H s2 Hs. apply advances_steps in Hs; [|done]. unfold refresh_session in H.
  apply m_bind_Done in H as (scope & s0 & Hauth & H).
  apply (runs_to _ _ _ _ _ (advances_authenticate env rely raw _)) in Hauth as Ha. unfold at_db in Ha.
  apply m_bind_Done in H as (? & ? & [= <- <-] & H).
  apply m_bind_Done in H as ([] & ? & [_ ->]%require_Done & H).
  do 6 (apply m_bind_Done in H as (? & ? & [= <- <-] & H)).
  apply m_bind_Done in H as (g & s3 & Hrot & [<- ->]%m_ret_Done). cbn.
  apply rotate_Done in Hrot as (Hp & Hdead & Hadv). cbn in Hp, Hdead, Hadv.
  destruct (Hp _ eq_refl) as (id & c & Hc & Hh & Hcw & _). clear Hp.
  set (d0 := others env _ _) in *. set (w := sc_workspace_id scope) in *.
  assert (H0 : advances (db s) d0) by (etrans; [exact Ha|apply rely]).
  assert (Hret : retired (sha256_hex env raw) w (db s3)).
  { destruct (Hdead id c Hc Hcw) as [Hd|(c' & Hc' & (Hw' & Hh' & _) & Hr)]; [by left|].
    right. exists id, c'. split_and!; [done|congruence..|done]. }
  assert (Hn : ∀ n, let d := others env n (db s2) in dead w (db s) d ∧ retired (sha256_hex env raw) w d ∧
                    unique_marks rc_credential_hash (runtime_credentials d)).
  { intros n. assert (Hn : advances (db s3) (others env n (db s2))) by (etrans; [exact Hs|apply rely]). cbn. split_and!.
    - eapply dead_stays; [exact Hn|]. by eapply dead_before.
    - by eapply retired_stays.
    - by apply (adv_unique_credentials _ _ Hn), (adv_unique_credentials _ _ Hadv), (adv_unique_credentials _ _ H0). }
  split.
  - intros raw' audience scope' s4 Hau Hw. pose proof (authenticate_not_deleted _ _ _ _ _ Hau) as Hnd.
    apply authenticate_Done in Hau as (rc & h & Hrc & Hrh & _ & _ & _ & Hrv & _). rewrite Hw in Hnd.
    destruct (Hn (moment s2)) as (Hd & Hr & Hun). split.
    + intros Heq. apply Hnd. eapply retired_live; [done..|congruence|done].
    + intros c' Hc' Hcw'. destruct (Hd _ _ Hc' Hcw') as [Hdel|(x & Hx & _ & Hxr)]; [done|congruence].
  - intros ai w' ah ae ri rh fi fe g' s4 Hro. apply rotate_Done in Hro as (Hp & _). cbn in Hp.
    destruct (Hp _ eq_refl) as (j & x & Hx & Hxh & _ & Hxr). destruct (Hn (moment s2)) as (_ & Hr & Hun).
    exists (moment s2). by eapply retired_live.
Qed.

(** ** Tokens *)

Lemma grants_within actual expected name level :
  grants_match actual expected = true → actual !! name = Some level →
  (name = "metadata" ∧ level = "read") ∨ expected !! name = Some level.
Proof.
  unfold grants_match. intros E%bool_decide_eq_true Hn.
  destruct (bool_decide (actual !! "metadata" = Some "read") && is_none (expected !! "metadata")) eqn:Ei.
  - apply andb_true_iff in Ei as [Hm%bool_decide_eq_true _]. destruct (decide (name = "metadata")) as [->|Hne].
    + left. split; congruence.
    + right. rewrite <-E, lookup_delete_ne; done.
  - right. by rewrite <-E.
Qed.

(** Only FORGE, and only for pushing, may change workflows. *)
Lemma workflows_only_forge role purpose p level :
  profile_of role purpose = Some p → to_wire p !! "workflows" = Some level → role = "forge" ∧ purpose = Git.
Proof.
  assert (Hno : ∀ pairs, to_wire (profile_map pairs) !! "workflows" = None → p = profile_map pairs →
                to_wire p !! "workflows" ≠ Some level) by (intros pairs Hn ->; congruence).
  unfold profile_of. destruct purpose; repeat case_match; try done; intros E%(inj Some) Hw;
    repeat match goal with H : bool_decide _ = true |- _ => apply bool_decide_eq_true in H end; try done;
    exfalso; (eapply Hno; [|symmetry; exact E|exact Hw]; vm_compute; reflexivity).
Qed.

(** What a token rests on at the moment [t] its lease is recorded, on the rows as they are
    then: the presented credential, the organization, the GitHub connection, the tenant, the
    workspace, the repository, and the permissions of the role for the purpose. *)
Definition authority (scope : RuntimeScope) (purpose : RuntimePurpose) (t : Z) (d : Db)
    (token : InstallationToken) : Prop :=
  ∃ h rc profile,
    chain_of (sc_workspace_id scope) d = Some h ∧
    (runtime_credentials d !! sc_credential_id scope = Some rc ∧
     rc_workspace_id rc = sc_workspace_id scope ∧ rc_audience rc = WORKSPACE_AUDIENCE ∧
     rc_revoked_at rc = None ∧ (t < rc_expires_at rc)%Z ∧
     rc_generation rc = w_credential_generation (ch_workspace h)) ∧
    o_status (ch_organization h) ∈ ["ready"; "provisioning"] ∧
    (c_status (ch_connection h) = "active" ∧ c_installation_id (ch_connection h) = sc_installation_id scope ∧
     c_access_generation (ch_connection h) = sc_connection_generation scope) ∧
    (t_desired_state (ch_tenant h) ∈ ["running"; "provisioning"] ∧ gone (t_observed_state (ch_tenant h)) = false) ∧
    (w_desired_state (ch_workspace h) ∈ ["running"; "provisioning"] ∧
     (w_observed_state (ch_workspace h) = "running" ∨
      w_observed_state (ch_workspace h) ∈ ["provisioning"; "stopped"] ∧ is_Some (w_registered_at (ch_workspace h)))) ∧
    (r_accessible (ch_repository h) = true ∧ t_github_repository_id (ch_tenant h) = sc_repository_id scope ∧
     (list_to_set (it_repository_ids token) : gset Z) = {[ t_github_repository_id (ch_tenant h) ]}) ∧
    resolve_profile env (w_role (ch_workspace h)) purpose = inr profile ∧
    ∀ name level, it_permissions token !! name = Some level →
      ((name = "metadata" ∧ level = "read") ∨ to_wire (pp_permissions profile) !! name = Some level) ∧
      (name = "workflows" → w_role (ch_workspace h) = "forge" ∧ purpose = Git).

Lemma record_lease_Done scope profile purpose token existing s id s' :
  record_lease env deps scope profile purpose token existing s = (Done id, s') →
  ∃ n, moment s ≤ n ∧ still_authorized scope (clock env (S n)) (others env n (db s)) = true ∧
    ∀ lease, existing = Some lease → ∃ l, credential_leases (others env n (db s)) !! lease = Some l ∧
      lease_live scope (sha256_hex env (it_token token)) (clock env (S (S n))) l = true.
Proof.
  intros H. unfold record_lease in H. apply m_bind_Done in H as (enc & s1 & E & H).
  unfold outside in E. destruct (seal_token _ _ _); [done|]. injection E as _ <-.
  unfold record_authorized_lease in H. apply transaction_Done in H as [H|(s1 & H & _)]; [|by m_cases H].
  apply m_bind_Done in H as (v & s1 & [-> ->]%query_Done & H).
  apply m_bind_Done in H as ([] & s1 & [Hv ->]%require_Done & H). exists (S (moment s)).
  split_and!; [lia|exact Hv|]. intros lease ->.
  apply m_bind_Done in H as (v & s1 & [-> ->]%query_Done & H).
  by apply m_bind_Done in H as ([] & s1 & [(l & Hl & Hlive)%is_some_and_true ->]%require_Done & _); exists l.
Qed.

Lemma issue_lease_Done scope profile purpose token existing rid s id s' :
  issue_lease env deps scope profile purpose token existing rid s = (Done id, s') →
  (list_to_set (it_repository_ids token) : gset Z) = {[ sc_repository_id scope ]} ∧
  grants_match (it_permissions token) (to_wire (pp_permissions profile)) = true ∧
  (MIN_TOKEN_VALIDITY ≤ it_expires_at token - utc env (moment s))%Z ∧
  ∃ n, moment s < n ∧ still_authorized scope (clock env (S n)) (others env n (db s)) = true ∧
    ∀ lease, existing = Some lease → ∃ l, credential_leases (others env n (db s)) !! lease = Some l ∧
      lease_live scope (sha256_hex env (it_token token)) (clock env (S (S n))) l = true.
Proof.
  intros H. unfold issue_lease in H. apply m_bind_Done in H as (now & s1 & [= <- <-] & H).
  apply m_bind_Done in H as ([] & s1 & Hv & H). unfold validate_token in Hv.
  apply m_bind_Done in Hv as ([] & ? & [Hr%bool_decide_eq_true ->]%require_Done & Hv).
  apply m_bind_Done in Hv as ([] & ? & [Hg ->]%require_Done & [Hx%Z.leb_le ->]%require_Done). split_and!; [done..|].
  apply m_bind_Done in H as (lease & s2 & (n & Hle & Hn)%record_lease_Done & _). exists n. split; [|done].
  cbn in Hle. lia.
Qed.

Lemma issue_lease_asks scope profile purpose token existing rid :
  runs asks_nothing (issue_lease env deps scope profile purpose token existing rid).
Proof.
  unfold issue_lease, validate_token, record_lease, record_authorized_lease, insert_lease_in_tx, audit.
  repeat (runs_step || apply runs_outside || solve [auto with runs typeclass_instances]).
Qed.

(** An authorized scope has the authority its rows give it. *)
Lemma authorized_authority scope purpose t d profile token :
  still_authorized scope t d = true → resolve_profile env (sc_workspace_role scope) purpose = inr profile →
  (list_to_set (it_repository_ids token) : gset Z) = {[ sc_repository_id scope ]} →
  grants_match (it_permissions token) (to_wire (pp_permissions profile)) = true →
  authority scope purpose t d token.
Proof.
  unfold still_authorized. intros Ha Hp Hids Hg. apply andb_true_iff in Ha as [Hch Hcr].
  apply is_some_and_true in Hch as (h & Hh & Ho). apply is_some_and_true in Hcr as (rc & Hrc & Hl).
  unfold chain_open, workspace_open, one_of in Ho.
  rewrite !andb_true_iff, orb_true_iff, !andb_true_iff, !bool_decide_eq_true, !Z.eqb_eq, negb_true_iff in Ho.
  destruct Ho as [[[[[[[[[[[[[_ _] _] Hrepo] Hinst] Hcg] Hgen] Hos] Hcs] Htd] Hto] [Hwd Hwo]] Hrole] Hacc].
  unfold credential_live, of_workspace in Hl. rewrite !andb_true_iff, !bool_decide_eq_true, Z.eqb_eq in Hl.
  destruct Hl as [[[[Hw Hrg] Haud] Hrv] Hexp]. apply is_none_true in Hrv. apply Z.ltb_lt in Hexp.
  exists h, rc, profile. rewrite Hrole, Hrepo. split_and!; try done; try congruence.
  - destruct Hwo as [?|[? Hreg]]; [by left|right]. split; [done|]. by destruct (w_registered_at _).
  - intros name level Hn. split; [by eapply grants_within|]. intros ->.
    destruct (grants_within _ _ _ _ Hg Hn) as [[? _]|Hw']; [done|].
    unfold resolve_profile in Hp. destruct (profile_of _ _) as [p|] eqn:Ep; [|done]. injection Hp as <-.
    by eapply workflows_only_forge.
Qed.

(** Where the token comes from: the shard, or GitHub, asked for this repository and these
    permissions; nothing is written meanwhile. *)
Definition token_of (guard : option Cached) (scope : RuntimeScope) (profile : PermissionProfile)
    (token : InstallationToken) (existing : option uuid) : Prop :=
  match existing with
  | Some lease => ∃ c, guard = Some c ∧ ca_key c = broker_key app_id scope profile ∧ token = ca_token c ∧ lease = ca_lease c
  | None => ∃ n jwt, exchange_installation_token deps n jwt (sc_installation_id scope)
                       [sc_repository_id scope] (to_wire (pp_permissions profile)) = inr token
  end.

Lemma exchange_locked_Done guard scope profile purpose rid s guard' answer s' :
  exchange_locked env deps app_id guard scope profile purpose rid s = (Done (guard', answer), s') →
  ∃ s0 token existing result s1, db s0 = db s ∧ asked s0 = asked s ∧ moment s ≤ moment s0 ∧
    token_of guard scope profile token existing ∧
    attempt (issue_lease env deps scope profile purpose token existing rid) s0 = (Done result, s1) ∧
    match result with
    | inr lease => s' = s1 ∧ answer = inr {| br_token := it_token token; br_expires_at := it_expires_at token;
        br_repository_id := sc_repository_id scope; br_username := INSTALLATION_TOKEN_USERNAME;
        br_permissions := it_permissions token |}
    | inl error => guard' = None ∧ answer = inl error ∧ asked s' = asked s1 ++
        (if existing then [] else [RevokeInstallationToken (sc_installation_id scope) (it_token token)])
    end.
Proof.
  intros H. unfold exchange_locked in H.
  apply m_bind_Done in H as (cached & sa & Hc & H).
  assert (Ha : db sa = db s ∧ asked sa = asked s ∧ moment s ≤ moment sa ∧
               (∀ c, cached = Some c → guard = Some c ∧ ca_key c = broker_key app_id scope profile)).
  { unfold reusable in Hc. destruct guard as [c0|]; [case_bool_decide|]; [|by apply m_ret_Done in Hc as [<- ->]..].
    apply m_bind_Done in Hc as (now & ? & [= <- <-] & [<- ->]%m_ret_Done).
    split_and!; [done..|cbn; lia|]. intros c. destruct (_ <? _)%Z; [by intros [= ->]|done]. }
  apply m_bind_Done in H as (jwt & sb & Hj & H).
  assert (Hb : db sb = db s ∧ asked sb = asked s ∧ moment s ≤ moment sb).
  { unfold outside in Hj. destruct (sign deps _); [done|]. injection Hj as _ <-. cbn. naive_solver lia. }
  apply m_bind_Done in H as ([token existing] & sc & Ht & H).
  assert (Hs : db sc = db s ∧ asked sc = asked s ∧ moment s ≤ moment sc ∧ token_of guard scope profile token existing).
  { destruct cached as [c|].
    - apply m_ret_Done in Ht as [[= <- <-] ->]. cbn. naive_solver.
    - apply m_bind_Done in Ht as (tk & sd & Ho & [[= <- <-] ->]%m_ret_Done). unfold outside in Ho.
      destruct (exchange_installation_token _ _ _ _ _ _) as [|tk'] eqn:E; [done|]. injection Ho as -> <-. cbn. naive_solver lia. }
  destruct Hs as (Hd & Has & Hm & Htok). apply m_bind_Done in H as (result & s1 & Hi & H).
  exists sc, token, existing, result, s1. split_and!; [done..|]. destruct result as [error|lease].
  - apply m_bind_Done in H as ([] & s2 & Hr & [[= <- <-] ->]%m_ret_Done). split_and!; [done..|].
    destruct existing; [apply m_ret_Done in Hr as [_ ->]; by rewrite app_nil_r|]. by injection Hr as <-.
  - by apply m_ret_Done in H as [[= <- <-] ->].
Qed.

Lemma exchange_Done inflight scope purpose rid s inflight' answer s' :
  exchange env deps app_id inflight scope purpose rid s = (Done (inflight', answer), s') →
  ∃ profile guard, let shard := shard_for deps (broker_key app_id scope profile) in
    resolve_profile env (sc_workspace_role scope) purpose = inr profile ∧
    exchange_locked env deps app_id (inflight !! shard) scope profile purpose rid s = (Done (guard, answer), s') ∧
    inflight' = match guard with Some c => <[shard := c]> inflight | None => base.delete shard inflight end.
Proof.
  intros H. unfold exchange in H. apply m_bind_Done in H as ([] & s0 & Hv & H).
  assert (s0 = s) as ->.
  { unfold validate_resource_state in Hv. cbn in Hv.
    do 4 (apply m_bind_Done in Hv as ([] & ? & [_ ->]%require_Done & Hv)). by apply require_Done in Hv as [_ ->]. }
  apply m_bind_Done in H as (profile & s0 & [Hp ->]%check_Done & H). cbn in H.
  apply m_bind_Done in H as ([guard ans] & s2 & He & [[= <- <-] ->]%m_ret_Done). by exists profile, guard.
Qed.

(** C5. Tokens of GitHub.  When the broker hands out a token, then at the very moment its
    lease was recorded (after GitHub had answered, whatever others did meanwhile):
    the presented credential was live, for workspaces, and of the current generation of its
    workspace; the organization was ready or provisioning; the connection was active, with
    the installation and generation the request was authenticated for; the tenant was wanted
    running or provisioning and not seen as being deleted; the workspace was wanted, and
    running, or registered and on its way; and the repository was reachable.
    The token is the shard's, kept for the same key and under a lease that is still live, or
    was minted by that installation for this request; it is scoped to exactly the tenant's
    repository, is good for thirty minutes more, and carries no permission that the role of
    the workspace does not have for this purpose, save reading the metadata; only FORGE can
    get one that changes workflows, and only for git.  When the broker refuses although it
    has a token, the shard forgets it, and a token that was minted for this request is given
    back to GitHub for revocation. *)
Theorem token_within_authority inflight scope purpose rid s inflight' answer s' :
  exchange env deps app_id inflight scope purpose rid s = (Done (inflight', answer), s') →
  ∃ profile token existing, let shard := shard_for deps (broker_key app_id scope profile) in
  token_of (inflight !! shard) scope profile token existing ∧
  match answer with
  | inr cred =>
      asked s' = asked s ∧
      cred = {| br_token := it_token token; br_expires_at := it_expires_at token;
                br_repository_id := sc_repository_id scope; br_username := INSTALLATION_TOKEN_USERNAME;
                br_permissions := it_permissions token |} ∧
      ∃ m n, moment s ≤ m ∧ m < n ∧
        (MIN_TOKEN_VALIDITY ≤ it_expires_at token - utc env m)%Z ∧
        authority scope purpose (clock env (S n)) (others env n (db s)) token ∧
        ∀ lease, existing = Some lease → ∃ l, credential_leases (others env n (db s)) !! lease = Some l ∧
          lease_live scope (sha256_hex env (it_token token)) (clock env (S (S n))) l = true
  | inl _ => inflight' = base.delete shard inflight ∧
      asked s' = asked s ++
        (if existing then [] else [RevokeInstallationToken (sc_installation_id scope) (it_token token)])
  end.
Proof.
  intros H. apply exchange_Done in H as (profile & guard & Hp & He & ->).
  apply exchange_locked_Done in He as (s0 & token & existing & result & s1 & Hd & Ha & Hm & Htok & Hi & Hres).
  assert (H1 : asked s1 = asked s).
  { rewrite <-Ha. apply (runs_to _ _ _ _ _ (runs_attempt _ _ (issue_lease_asks _ _ _ _ _ _)) Hi). }
  exists profile, token, existing. split; [done|]. destruct result as [error|lease].
  - destruct Hres as (-> & -> & Hask). split; [done|]. by rewrite Hask, H1.
  - destruct Hres as [-> ->]. split; [done|]. split; [done|]. unfold attempt in Hi.
    destruct (issue_lease _ _ _ _ _ _ _ _ s0) as [[l| |] sx] eqn:El; simplify_eq/=.
    apply issue_lease_Done in El as (Hids & Hg & Hx & n & Hlt & Hn & Hl). rewrite Hd in Hn, Hl.
    exists (moment s0), n. split_and!; [done..|by apply authorized_authority with profile|done].
Qed.

(** ** Deletion *)

(** Requests are only added. *)
Definition asks_more : relation MState := λ s s', asked s `prefix_of` asked s'.
#[local] Instance asks_more_settled : Settled asks_more.
Proof.
  split; unfold asks_more; [split; [by intros s|by intros s1 s2 s3; etrans]| |done].
  intros s s' _ _ _ ->. done.
Qed.
Lemma asks_more_sql {A} (f : Z → Z → Db → SqlError + A * Db) : runs asks_more (sql env f).
Proof. intros s. unfold sql, asks_more. by destruct (f _ _ _) as [|[]]. Qed.
Lemma asks_more_execute {A} (f : Z → Z → Db → A * Db) : runs asks_more (execute env f).
Proof. apply asks_more_sql. Qed.
Lemma asks_more_begin s : asks_more s (begin env s).2.
Proof. unfold asks_more. cbn. reflexivity. Qed.
Lemma asks_more_ask r : runs asks_more (ask r).
Proof. intros s. unfold asks_more. cbn. by eexists. Qed.
#[local] Hint Resolve asks_more_sql asks_more_execute asks_more_begin asks_more_ask runs_outside : runs.

Lemma asks_more_each {A} (f : A → M unit) l : (∀ x, runs asks_more (f x)) → runs asks_more (each f l).
Proof. intros Hf. induction l as [|x l IH]; cbn; [apply runs_ret, _|runs_auto]. Qed.
Lemma asks_more_upstream_or msg org id : runs asks_more (Worker.delete_upstream_or wdeps msg org id).
Proof. unfold Worker.delete_upstream_or, Worker.delete_upstream. runs_auto. Qed.
Lemma asks_more_locally f : runs asks_more (Worker.clean_locally wdeps f).
Proof. unfold Worker.clean_locally. runs_auto. Qed.
#[local] Hint Resolve asks_more_each asks_more_upstream_or asks_more_locally : runs.

(** Coder was asked to delete the workspace of its organization, and agreed. *)
Definition deleted_upstream (coder_org coder : string) (s : MState) : Prop :=
  DeleteWorkspace coder_org coder ∈ asked s ∧ ∃ n, delete_workspace (adapter wdeps) n coder_org coder = inr tt.

Lemma deleted_upstream_stays corg coder s s' :
  asks_more s s' → deleted_upstream corg coder s → deleted_upstream corg coder s'.
Proof. intros [l Hl] [Hin Ha]. unfold deleted_upstream. rewrite Hl. split; [set_solver|done]. Qed.

Lemma delete_upstream_Done msg org id s u s' :
  Worker.delete_upstream_or wdeps msg org id s = (Done u, s') → deleted_upstream org id s'.
Proof.
  intros H. unfold Worker.delete_upstream_or in H. apply m_bind_Done in H as (r & s1 & Ha & H).
  destruct r as [|[]]; [by m_cases H|]. apply m_ret_Done in H as [_ ->]. unfold attempt in Ha.
  destruct (Worker.delete_upstream wdeps org id s) as [[[]| |] s2] eqn:E; simplify_eq/=.
  unfold Worker.delete_upstream in E. apply m_bind_Done in E as (? & s3 & [= _ <-] & E). unfold outside in E. cbn in E.
  destruct (delete_workspace _ _ _ _) as [|[]] eqn:Ed; [done|]. injection E as <-.
  split; [|by eexists]. cbn. set_solver.
Qed.

Lemma each_deletes msg (l : list (string * string * string)) s u s' :
  each (λ x : string * string * string,
    let '(id, coder_org, role) := x in
    Worker.delete_upstream_or wdeps msg coder_org id;;
    Worker.clean_locally wdeps (λ c n, remove_workspace c n role id)) l s = (Done u, s') →
  ∀ id org role, (id, org, role) ∈ l → deleted_upstream org id s'.
Proof.
  revert s. induction l as [|[[i o] r] l IH]; intros s H id org role Hin; [by apply elem_of_nil in Hin|].
  cbn in H. apply m_bind_Done in H as (? & s1 & Hx & H). apply elem_of_cons in Hin as [[= -> -> ->]|Hin]; [|by eapply IH].
  apply m_bind_Done in Hx as (? & s2 & Hd & Hc). apply delete_upstream_Done in Hd.
  eapply deleted_upstream_stays; [|exact Hd]. etrans.
  - exact (runs_to _ _ _ _ _ (asks_more_locally _) Hc).
  - refine (runs_to _ _ _ _ _ (asks_more_each _ _ _) H). intros [[] ?]. runs_auto.
Qed.

(** A fenced change is made with the lease, on what the others left. *)
Lemma fenced_Done g body s o s' :
  Worker.fenced env g body s = (Done o, s') → o ≠ StaleLease →
  ∃ sb result s2 f, db sb = others env (moment s) (db s) ∧ body sb = (Done (Some (result, o)), s2) ∧
    db s' = on_operations f (db s2).
Proof.
  intros H Ho. unfold Worker.fenced in H. apply transaction_Done in H as [H|(s1 & H & _)];
    apply m_bind_Done in H as (held & s1' & [-> ->]%query_Done & H);
    (destruct (negb _); [by apply m_ret_Done in H as [[=] _]; subst|]);
    apply m_bind_Done in H as ([[result out]|] & s2 & Hb & H); try (by apply m_ret_Done in H as [[=] _]; subst);
    apply m_bind_Done in H as (done & s3 & Hu & [Hd ->]%m_ret_Done); destruct done; simplify_eq/=.
  unfold complete_in_tx, update_held in Hu. apply execute_Done in Hu as [_ ->].
  exists (tick (begin env s).2), result, s2. cbn. destruct (update_one _ _ _ _) as [n tab]. by exists (λ _, tab).
Qed.

(** The tenant is there, as deleted. *)
Definition closed (tenant : uuid) (d : Db) : Prop :=
  ∃ t, tenants d !! tenant = Some t ∧ t_desired_state t = "deleted".

Lemma closed_stays tenant d d' : advances d d' → closed tenant d → closed tenant d'.
Proof.
  intros Ha (t & Ht & Hd). destruct (adv_tenants _ _ Ha tenant t Ht) as (t' & Ht' & (_ & _ & _ & Hs)). exists t'.
  split; [done|]. by apply Hs.
Qed.

Lemma closed_authenticate tenant raw audience s scope s' :
  closed tenant (others env (moment s) (db s)) →
  authenticate_for_audience env raw audience s = (Done scope, s') → sc_tenant_id scope ≠ tenant.
Proof.
  intros (t & Ht & Hd) H <-. apply authenticate_Done in H as (rc & h & _ & _ & Hch & Hsc & _ & _ & _ & Hg & _).
  apply chain_of_Some in Hch as [_ Hte]. rewrite Hsc in Ht. cbn in Ht. rewrite Ht in Hte. injection Hte as ->.
  by rewrite Hd in Hg.
Qed.

Lemma closed_register tenant raw s issue s' :
  (∀ n, closed tenant (others env n (db s))) → register env raw s = (Done issue, s') →
  ∀ w, workspaces (db s) !! si_workspace_id issue = Some w → w_tenant_id w ≠ tenant.
Proof.
  intros Hc H w Hw <-.
  apply register_Done in H as (_ & ? & ? & ? & ? & ? & ? & ? & s6 & c' & ? & Hd & H & _ & Hi & _).
  apply consume_Some in H as (_ & Hadm & _).
  destruct Hadm as (id & b & ws & te & _ & _ & _ & _ & _ & _ & Hx & _ & _ & Hte & _ & Hg). rewrite Hd in Hx, Hte.
  destruct (adv_workspaces _ _ (rely (moment s6) (db s)) _ _ Hw) as (ws' & Hx' & (Hwt & _)).
  rewrite Hi, Hx in Hx'. injection Hx' as <-. destruct (Hc (moment s6)) as (t & Ht & Hst).
  rewrite Hwt, Ht in Hte. injection Hte as <-. by rewrite Hst in Hg.
Qed.

Lemma closed_exchange tenant inflight scope purpose rid s inflight' cred s' :
  (∀ n, closed tenant (others env n (db s))) →
  exchange env deps app_id inflight scope purpose rid s = (Done (inflight', inr cred), s') →
  sc_tenant_id scope ≠ tenant.
Proof.
  intros Hc H <-. apply exchange_Done in H as (profile & guard & _ & He & _).
  apply exchange_locked_Done in He as (s0 & token & existing & result & s1 & Hd & _ & _ & _ & Hi & Hres).
  destruct result as [|lease]; [by destruct Hres as (_ & ? & _)|]. unfold attempt in Hi.
  destruct (issue_lease _ _ _ _ _ _ _ _ s0) as [[l| |] sx] eqn:El; simplify_eq/=.
  apply issue_lease_Done in El as (_ & _ & _ & n & _ & Hn & _). rewrite Hd in Hn. unfold still_authorized in Hn.
  apply andb_true_iff in Hn as [Hch _]. apply is_some_and_true in Hch as (h & Hh & Ho).
  apply chain_of_Some in Hh as [_ Hte]. destruct (Hc n) as (t & Ht & Hst).
  unfold chain_open in Ho. rewrite !andb_true_iff, !bool_decide_eq_true in Ho.
  destruct Ho as [[[[[[[[[[[[[_ Hw] _] _] _] _] _] _] _] Htd] _] _] _] _].
  rewrite Hw, Ht in Hte. injection Hte as ->. unfold one_of in Htd. rewrite Hst in Htd. by apply bool_decide_eq_true in Htd; set_solver.
Qed.

Lemma stepping_Done g step k s o s' :
  Worker.stepping env g step k s = (Done o, s') → o ≠ StaleLease →
  ∃ s0, set_step env g step s = (Done true, s0) ∧ k s0 = (Done o, s').
Proof.
  intros H Ho. unfold Worker.stepping in H. apply m_bind_Done in H as (held & s0 & Hs & H).
  destruct held; [eauto|]. apply m_ret_Done in H as [[=] _]. by subst.
Qed.

(** Workspace [id] of the tenant is the Coder workspace [coder], of the Coder organization
    [corg]. *)
Definition attached (org tenant id : uuid) (corg coder : string) (d : Db) : Prop :=
  ∃ w o, workspaces d !! id = Some w ∧ w_tenant_id w = tenant ∧ w_organization_id w = org ∧
    w_coder_workspace_id w = Some coder ∧
    organizations d !! org = Some o ∧ o_coder_organization_id o = Some corg.

(** Every upstream workspace of the tenant, as the scan finds them, is deleted on Coder. *)
Lemma tear_down_Done org tenant s u s' :
  Worker.tear_down env wdeps org tenant s = (Done u, s') →
  ∀ id corg coder, attached org tenant id corg coder (others env (moment s) (db s)) → deleted_upstream corg coder s'.
Proof.
  intros H wid corg coder (w & o & Hw & Ht & Ho & Hc & Horg & Hcorg). unfold Worker.tear_down in H.
  set (d := others env (moment s) (db s)) in *.
  apply m_bind_Done in H as (listed & s1 & E & H). unfold on_pool in E.
  apply m_bind_Done in E as ([] & s2 & [= <-] & E). apply query_Done in E as [-> ->]. cbn in H. fold d in H.
  apply m_bind_Done in H as (upstream & s3 & [Hl ->]%ok_or_Done & H).
  apply m_bind_Done in H as (? & s4 & He & H).
  eapply deleted_upstream_stays; [exact (runs_to _ _ _ _ _ (asks_more_locally _) H)|].
  assert (Hin : ((λ c, (coder, c, w_role w)) <$> o_coder_organization_id o) ∈
    ((λ x : uuid * Workspace * option string,
       (λ o, (default "" (w_coder_workspace_id x.1.2), o, w_role x.1.2)) <$> x.2) <$>
      upstream_rows org tenant (λ _, true) d)).
  { apply list_elem_of_fmap. exists (wid, w, o_coder_organization_id o). cbn. rewrite Hc. split; [done|].
    unfold upstream_rows. apply list_elem_of_omap. exists (wid, w). cbn. rewrite Ho, Horg. split; [|done].
    apply elem_rows. split; [done|]. rewrite Hc, !bool_decide_eq_true_2 by done. done. }
  apply mapM_Some_1 in Hl. apply list_elem_of_lookup in Hin as [i Hi].
  destruct (Forall2_lookup_l _ _ _ _ _ Hl Hi) as ([[c' oc] role] & Hy & Hx). unfold id in Hx. cbn in Hx.
  rewrite Hcorg in Hx. injection Hx as <- <- <-.
  eapply each_deletes; [exact He|]. by apply list_elem_of_lookup_2 in Hy.
Qed.

Lemma moves_held R `{!PreOrder R} g p f : (∀ h d, R d (on_operations h d)) → moves R (update_held env g p f).
Proof. intros Rops. apply moves_execute; [done|]. intros now t d. destruct (update_one _ _ _ _). apply Rops. Qed.

Lemma delete_Done g s tenant s1 :
  Worker.delete env wdeps g s = (Done (Deleted tenant), s1) →
  ∃ sa sb sc f now,
    (∀ R, PreOrder R → (∀ n d, R d (others env n d)) → (∀ h d, R d (on_operations h d)) → R (db s) (db sa)) ∧
    Worker.tear_down env wdeps (g_organization_id g) tenant sa = (Done tt, sb) ∧ asks_more sb s1 ∧
    advances (db sb) (db sc) ∧
    db s1 = on_operations f (Worker.erase_tenant (g_organization_id g) tenant now (others env (moment sc) (db sc))).
Proof.
  intros H. unfold Worker.delete in H. cbn in H.
  apply m_bind_Done in H as (found & s2 & Hf & H).
  destruct found as [te|]; [|by apply m_ret_Done in H as [[=] _]].
  apply stepping_Done in H as (s3 & Hst & H); [|done].
  apply m_bind_Done in H as (? & s4 & Hx & H). apply m_bind_Done in H as (waiting & s5 & Hw & H).
  destruct waiting; [by apply m_ret_Done in H as [[=] _]|].
  apply stepping_Done in H as (s6 & Hst' & H); [|done].
  apply m_bind_Done in H as ([] & s7 & Htd & H).
  assert (Ha : ∀ R, PreOrder R → (∀ n d, R d (others env n d)) → (∀ h d, R d (on_operations h d)) → R (db s) (db s6)).
  { intros R HR Ro Rops.
    assert (Hp : ∀ A (m : M A) sx a sy, moves R m → m sx = (Done a, sy) → R (db sx) (db sy))
      by (intros A m sx a sy Hm; by apply (runs_to _ _ _ _ _ Hm)).
    assert (Hstep : ∀ step, moves R (set_step env g step)) by (intros step; unfold set_step; runs_auto; by apply moves_held).
    etrans; [eapply Hp, Hf; unfold Worker.resource_tenant; runs_auto|].
    etrans; [eapply Hp, Hst; apply Hstep|].
    etrans; [eapply Hp, Hx; runs_auto; apply moves_execute; [apply _|]; intros; apply Rops|].
    etrans; [eapply Hp, Hw; runs_auto|]. eapply Hp, Hst'. apply Hstep. }
  match type of H with ?m s7 = _ => assert (Hm : runs asks_more m) end.
  { unfold Worker.withdraw, TenantRuntime.revoke_redis_credential, TenantRuntime.clear_redis_namespace,
      TenantRuntime.delete_tenant_secrets, TenantRuntime.delete_or_absent, TenantRuntime.redis_credential_any,
      Worker.delete_owner, Worker.fenced, lock_in_tx, complete_in_tx, update_held, delete_ref.
    repeat (runs_step || lazymatch goal with |- runs _ (each _ _) => apply asks_more_each; intros ? end ||
            solve [auto with runs typeclass_instances]). }
  apply (runs_to _ _ _ _ _ Hm) in H as Hask. clear Hm.
  apply m_bind_Done in H as (? & s11 & Hc & H).
  apply (runs_to _ _ _ _ _ (advances_withdraw env wdeps rely _ _)) in Hc. unfold at_db in Hc.
  apply fenced_Done in H as (sb & result & s12 & f & Hsb & Hb & Hdb); [|done].
  apply m_bind_Done in Hb as (? & s13 & [_ ->]%execute_Done & [[= _ <-] ->]%m_ret_Done). cbn in Hdb.
  eexists s6, s7, s11, f, _. split_and!; [done..|]. rewrite Hdb, Hsb. done.
Qed.

(** C3. Deletion is final.  When the tenant worker answers that a tenant was deleted, Coder
    had been asked to delete every Coder workspace that was attached to the tenant when the
    worker began (and that no other client took off it meanwhile), and had agreed; no
    credential and no bootstrap of the tenant's workspaces is
    left, and the tenant is marked deleted with no worker capacity reserved.  From then on,
    whatever is asked of the services and the worker and whatever their other clients do
    (stopping and starting the tenant, operations that were queued before, requests that were
    under way): no credential is accepted for the tenant, no bootstrap admits a workspace of
    it, and the broker hands out no GitHub token for it. *)
Theorem deletion_is_final g s t tenant s1 :
  tenants (db s) !! tenant = Some t → t_organization_id t = g_organization_id g →
  Worker.delete env wdeps g s = (Done (Deleted tenant), s1) →
  (∀ id corg coder, let held := attached (g_organization_id g) tenant id corg coder in
     held (db s) → (∀ n d, held d → held (others env n d)) → deleted_upstream corg coder s1) ∧
  (∃ t', tenants (db s1) !! tenant = Some t' ∧ t_desired_state t' = "deleted" ∧ t_observed_state t' = "deleted" ∧
         t_reserved_worker_capacity t' = 0%Z) ∧
  (∀ id w, workspaces (db s1) !! id = Some w → w_tenant_id w = tenant → w_organization_id w = g_organization_id g →
     w_desired_state w = "deleted" ∧
     (∀ i c, runtime_credentials (db s1) !! i = Some c → rc_workspace_id c ≠ id) ∧
     (∀ i b, workspace_bootstrap_credentials (db s1) !! i = Some b → bc_workspace_id b ≠ id)) ∧
  ∀ s2, steps s1 s2 →
  (∀ raw audience scope s3, authenticate_for_audience env raw audience s2 = (Done scope, s3) →
     sc_tenant_id scope ≠ tenant) ∧
  (∀ raw issue s3 w, register env raw s2 = (Done issue, s3) →
     workspaces (db s2) !! si_workspace_id issue = Some w → w_tenant_id w ≠ tenant) ∧
  (∀ inflight scope purpose rid inflight' cred s3,
     exchange env deps app_id inflight scope purpose rid s2 = (Done (inflight', inr cred), s3) →
     sc_tenant_id scope ≠ tenant).
Proof.
  intros Ht Hto H. apply delete_Done in H as (sa & sb & sc & f & now & Ha & Htd & Hask & Hbc & Hdb).
  pose proof (tear_down_Done _ _ _ _ _ Htd) as Hup. pose proof (λ I, Ha (along I) _) as Hkeep.
  specialize (Ha advances _ rely (λ h d, advances_same d (on_operations h d) eq_refl eq_refl eq_refl eq_refl)).
  apply (runs_to _ _ _ _ _ (advances_tear_down env wdeps rely _ _)) in Htd as Hab. unfold at_db in Hab.
  set (d := others env (moment sc) (db sc)) in *.
  assert (Hd : advances (db s) d) by (etrans; [exact Ha|etrans; [exact Hab|etrans; [exact Hbc|apply rely]]]).
  destruct (adv_tenants _ _ Hd tenant t Ht) as (t0 & Ht0 & (Ho & _)).
  assert (Hrow : ∃ t', tenants (db s1) !! tenant = Some t' ∧ t_desired_state t' = "deleted" ∧
                       t_observed_state t' = "deleted" ∧ t_reserved_worker_capacity t' = 0%Z).
  { rewrite Hdb. cbn. rewrite lookup_update_one, bool_decide_eq_true_2, Ht0 by done. cbn.
    rewrite bool_decide_eq_true_2 by congruence. eexists. done. }
  split_and!; [|exact Hrow| |].
  - intros id corg coder held Hs Hheld. eapply deleted_upstream_stays; [exact Hask|].
    eapply (Hup id), Hheld, (Hkeep held); [exact Hheld|by intros h x Hx; exact Hx|exact Hs].
  - intros id w Hw Hwt Hwo. rewrite Hdb in Hw |- *. cbn in Hw. rewrite lookup_update in Hw.
    destruct (workspaces d !! id) as [x|] eqn:Hx; [|done]. injection Hw as <-.
    assert (Hown : Worker.of_tenant_workspace (g_organization_id g) tenant d id = true).
    { unfold Worker.of_tenant_workspace. rewrite Hx. cbn.
      destruct (Worker.of_tenant_workspace _ _ _ _); cbn in Hwt, Hwo; by rewrite !bool_decide_eq_true_2. }
    rewrite Hown in *. split_and!; [done| |]; intros i y Hy <-; cbn in Hy; rewrite lookup_delete_rows in Hy;
      (destruct (_ !! i) as [z|]; [|done]); destruct (Worker.of_tenant_workspace _ _ _ _) eqn:E in Hy; simplify_eq/=; congruence.
  - intros s2 Hs. apply advances_steps in Hs; [|done].
    assert (Hcl : ∀ n, closed tenant (others env n (db s2))).
    { intros n. destruct Hrow as (t' & Ht' & Hst & _). eapply closed_stays; [|by exists t'].
      etrans; [exact Hs|apply rely]. }
    split_and!; intros; [by eapply closed_authenticate|by eapply closed_register|by eapply closed_exchange].
Qed.

(** ** Stopping *)

(** Tenants and operations are as they were, and time went on. *)
Definition stands : relation MState := λ s s',
  tenants (db s') = tenants (db s) ∧ operations (db s') = operations (db s) ∧ moment s ≤ moment s'.
#[local] Instance stands_settled : Settled stands.
Proof.
  split; unfold stands.
  - split; [by intros s|intros s1 s2 s3 (-> & -> & ?) (-> & -> & ?)]. split_and!; [done..|lia].
  - by intros s s' -> _ ? _.
  - by intros s s' (_ & _ & ?).
Qed.

(** With a lease that lasts, a fenced change of a tenant answers what its body does. *)
Lemma fenced_lasting g body s out s' o :
  Worker.fenced env g body s = (Done out, s') →
  (∀ sx r sy, body sx = (Done r, sy) → operations (db sy) = operations (db sx) ∧ moment sx ≤ moment sy) →
  operations (others env (moment s) (db s)) !! g_operation_id g = Some o →
  op_organization_id o = g_organization_id g →
  (∀ n, moment s ≤ n → n < moment s' → holds_running g (clock env n) o = true) →
  ∃ sb r s2, db sb = others env (moment s) (db s) ∧ body sb = (Done r, s2) ∧
    match r with None => out = StaleLease | Some (_, a) => out = a ∧ ∃ f, db s' = on_operations f (db s2) end.
Proof.
  intros H Hbody Hop Horg Hlast. unfold Worker.fenced in H.
  assert (∃ s0 tx, (begin env s).2 = s0 ∧ moment s' = moment tx.2 ∧
    (tx.1 = Commit out ∧ db s' = db tx.2 ∨ tx.1 = Rollback out) ∧
    (held ← lock_in_tx env g;
     if negb held then mret (Rollback StaleLease)
     else r ← body;
          match r with
          | None => mret (Rollback StaleLease)
          | Some (result, outcome) =>
              completed ← complete_in_tx env g result;
              mret (if (completed : bool) then Commit outcome else Rollback StaleLease)
          end) s0 = (Done tx.1, tx.2)) as (s0 & [tx s3] & <- & Hm & Htx & E).
  { apply transaction_Done in H as [H|(s1 & H & ->)]; eexists _, (_, _); (split_and!; [done|..|exact H]); cbn; auto. }
  clear H. cbn in Hm, Htx, E. apply m_bind_Done in E as (held & sx & [-> ->]%query_Done & E). cbn in E.
  rewrite Hop in E. cbn in E.
  assert (Hle : ∀ sx r sy, body sx = (Done r, sy) → moment sx ≤ moment sy) by (intros sx r sy Hb; apply (Hbody _ _ _ Hb)).
  assert (Hheld : holds_running g (clock env (S (moment s))) o = true).
  { apply Hlast; [lia|]. rewrite Hm. destruct (holds_running _ _ o && _); cbn in E; [|apply m_ret_Done in E as [_ ->]; cbn; lia].
    apply m_bind_Done in E as (r & s2 & Hb & E). apply Hle in Hb. cbn in Hb. destruct r as [[result a]|].
    - apply m_bind_Done in E as (b & s4 & Hc & [_ ->]%m_ret_Done). unfold complete_in_tx, update_held in Hc.
      apply execute_Done in Hc as [_ ->]. cbn. lia.
    - apply m_ret_Done in E as [_ ->]. lia. }
  rewrite Hheld, bool_decide_eq_true_2 in E by done. cbn in E.
  apply m_bind_Done in E as (r & s2 & Hb & E). eexists _, r, s2. split; [|split; [exact Hb|]]; [done|].
  destruct (Hbody _ _ _ Hb) as [Hops Hmb]. cbn in Hops, Hmb. destruct r as [[result a]|]; cycle 1.
  { apply m_ret_Done in E as [<- ->]. by destruct Htx as [[? _]|[=]]. }
  apply m_bind_Done in E as (b & s4 & Hc & [<- ->]%m_ret_Done). unfold complete_in_tx, update_held in Hc.
  apply execute_Done in Hc as [-> ->]. cbn in Hm, Htx. rewrite Hops in Htx. unfold update_one in Htx.
  rewrite Hop, Hlast in Htx by lia. cbn in Htx. rewrite bool_decide_eq_true_2 in Htx by done.
  destruct Htx as [[[= ->] Hdb]|[=]]. split; [done|]. eexists (λ _, _). exact Hdb.
Qed.

(** C37. Stopping undoes a deletion.  A tenant is [deleting] and does not count against the
    ceiling of its organization; the worker carries out a stop of it that was asked for
    before, with a lease that lasts, and nobody else changes tenants and operations.  Unless
    a call of Coder or the database fails, the worker then answers that the stop succeeded,
    the tenant is no longer [deleting] but [paused], and counts again (the place may have
    been given away meanwhile); every workspace of it is [stopped] or [deleted]. *)
Theorem stop_undoes_deletion g s o tenant t outcome s1 :
  (∀ n d, tenants (others env n d) = tenants d ∧ operations (others env n d) = operations d) →
  operations (db s) !! g_operation_id g = Some o → op_organization_id o = g_organization_id g →
  op_resource_id o = Some tenant →
  (∀ n, moment s ≤ n → n < moment s1 → holds_running g (clock env n) o = true) →
  tenants (db s) !! tenant = Some t → t_desired_state t = "deleting" →
  Worker.stop env wdeps g s = (Done outcome, s1) →
  active_tenant (t_organization_id t) t = false ∧ outcome = Provisioned tenant ∧
  (∃ t', tenants (db s1) !! tenant = Some t' ∧ t_organization_id t' = t_organization_id t ∧
         t_desired_state t' = "paused" ∧ t_observed_state t' = "paused" ∧
         active_tenant (t_organization_id t) t' = true) ∧
  ∀ id w, workspaces (db s1) !! id = Some w → w_tenant_id w = tenant →
    w_desired_state w = "stopped" ∨ w_desired_state w = "deleted".
Proof.
  intros Hq Hop Horg Hres Hlast Ht Hdel H. split.
  { unfold active_tenant. rewrite Hdel. by rewrite andb_false_r. }
  unfold Worker.stop in H. apply m_bind_Done in H as (found & s2 & Hf & H).
  assert (Hbegin : ∀ s, stands s (begin env s).2) by (intros x; unfold stands; cbn; destruct (Hq (moment x) (db x)); auto).
  assert (found = Some tenant ∧ stands s s2) as [-> H2].
  { unfold Worker.resource_tenant, on_pool in Hf. apply m_bind_Done in Hf as ([] & sx & [= <-] & [-> ->]%query_Done).
    split; [|unfold stands; cbn; destruct (Hq (moment s) (db s)); auto].
    cbn. rewrite (proj2 (Hq _ _)), Hop. cbn. by rewrite bool_decide_eq_true_2. }
  apply m_bind_Done in H as (te & s3 & [[= <-] ->]%ok_or_Done & H).
  apply m_bind_Done in H as (listed & s4 & Hl & H). apply m_bind_Done in H as (running & s5 & [_ ->]%ok_or_Done & H).
  apply m_bind_Done in H as (? & s6 & He & H).
  assert (Hs : stands s s6).
  { etrans; [exact H2|]. etrans; [refine (runs_to _ _ _ _ _ _ Hl)|refine (runs_to _ _ _ _ _ _ He)].
    - apply runs_pool; [apply _|exact Hbegin|apply runs_query, _].
    - clear -He. generalize running as l. induction l as [|y l IH]; cbn; [apply runs_ret, _|].
      apply runs_bind; [apply _|apply runs_outside, _|done]. }
  destruct Hs as (Hte & Hops & Hm). destruct (Hq (moment s6) (db s6)) as [Hte' Hops'].
  apply (fenced_lasting _ _ _ _ _ o) in H as (sb & r & s7 & Hsb & Hb & Hr); [| |congruence|done|intros n ? ?; apply Hlast; lia];
    cycle 1.
  { intros sx r sy Hb. apply m_bind_Done in Hb as (? & s8 & [_ ->]%execute_Done & Hb).
    apply m_bind_Done in Hb as (n & s9 & [_ ->]%execute_Done & [_ ->]%m_ret_Done). cbn.
    destruct (update_one _ _ _ _). cbn. split; [done|lia]. }
  apply m_bind_Done in Hb as (? & s8 & [_ ->]%execute_Done & Hb).
  apply m_bind_Done in Hb as (n & s9 & [Hn ->]%execute_Done & [<- ->]%m_ret_Done). cbn in Hn, Hr.
  assert (Htb : tenants (db sb) !! tenant = Some t) by (by rewrite Hsb, Hte', Hte).
  unfold update_one in Hn, Hr. rewrite Htb, Hdel, bool_decide_eq_false_2 in Hn, Hr by done.
  cbn in Hn, Hr. subst n. cbn in Hr.
  destruct Hr as [-> [f ->]]. split; [done|]. cbn. split.
  - rewrite lookup_insert_eq. eexists. split_and!; [done..|]. unfold active_tenant. cbn. by rewrite bool_decide_eq_true_2.
  - intros id w Hw Hwt. rewrite lookup_update in Hw. destruct (workspaces (db sb) !! id) as [y|]; [|done].
    cbn in Hw. destruct (_ && _) eqn:E; injection Hw as <-; [by left|right].
    rewrite bool_decide_eq_true_2 in E by done. cbn in E. unfold not_deleted in E.
    by apply negb_false_iff, bool_decide_eq_true in E.
Qed.

(** ** Uniqueness *)

(** C15. The partial unique indexes.  Whatever is asked of the services and of the worker,
    and whatever their other clients do: two tenants of an organization that are not both
    deleted on record never have the same repository or the same name, two workspaces of a
    tenant that are not deleted on record never have the same role and slot, and no two
    runtime credentials and no two bootstraps have the same hash.  The statements that insert
    rows check it; no statement that updates them (starting, stopping, deleting, erasing,
    marking, rotating, heartbeats) brings a deleted row back. *)
Theorem live_rows_stay_unique s s' :
  steps s s' → indexed (db s) →
  unique_marks rc_credential_hash (runtime_credentials (db s)) →
  unique_marks bc_credential_hash (workspace_bootstrap_credentials (db s)) →
  indexed (db s') ∧ unique_marks rc_credential_hash (runtime_credentials (db s')) ∧
  unique_marks bc_credential_hash (workspace_bootstrap_credentials (db s')).
Proof.
  intros Hs Hi Hc Hb. apply advances_steps in Hs; [|done].
  split_and!; [by apply (adv_indexed _ _ Hs)|by apply (adv_unique_credentials _ _ Hs)|by apply (adv_unique_bootstraps _ _ Hs)].
Qed.

End runtime.
