(* ===== verification/ManagerWitness.v ===== *)
(** * Concrete runs of the manager

    An environment whose clock advances a minute with every reading, a small
    database, and the runs at which the theorems on the manager are applied. *)
From S2P Require Import Prelude Text Json Schema Database DatabaseFacts Operations Outbox.
From S2P Require Import Idempotency OperationsProps IdempotencyProps OutboxProps Pagination.
From S2P Require Import PaginationProps Organizations OrgRepo OrgService OrganizationsProps Auth.
From S2P Require Import AuthProps Runtime Tenants TenantWorker RuntimeFacts RuntimeProps.

Definition demo : Env := {|
  clock := λ n, (Z.of_nat n * MINUTE)%Z;
  utc := λ n, (Z.of_nat n * MINUTE)%Z;
  new_uuid := λ n, pretty n;
  new_secret := λ n, "secret-" +:+ pretty n;
  sha256_hex := λ s, "sha256:" +:+ s;
  print_json := λ _, "{}";
  parse_json := λ _, None;
  secrets := in_memory;
  parse_uuid := λ s, Some s;
  others := λ _ d, d;
  locked := λ _ _, false;
|}.

Lemma demo_alone n d : others demo n d = d.
Proof. done. Qed.
Lemma demo_unique : Inj (=) (=) (new_uuid demo).
Proof. intros n m. apply pretty_nat_inj. Qed.
Lemma demo_ordered : ordered_clock demo.
Proof. intros n. cbn. unfold MINUTE, SECOND. lia. Qed.

Definition acme : Organization :=
  {| o_slug := "acme"; o_display_name := "Acme"; o_owner_user_id := "ann"; o_status := "ready";
     o_coder_organization_id := Some "coder-acme"; o_provisioner_status := Some "ready";
     o_model_capability_ok := Some true; o_last_readiness_error := None; o_updated_at := 0 |}.

Definition fresh_start (d : Db) : MState := {| db := d; moment := 0; draws := 0; tx_now := 0; vault := ∅; asked := [] |}.

(** ** Leases *)

Definition provision : NewOperation :=
  {| no_organization_id := "acme"; no_resource_type := "tenant"; no_resource_id := Some "blue";
     no_kind := "tenant.provision"; no_idempotency_ref := None |}.

(** One operation is created; two workers claim it in turn. *)
Definition acme_db : Db := on_organizations (<["acme" := acme]>) empty_db.
Definition queued_state : MState := (perform demo (CallCreate provision) (fresh_start acme_db)).2.
Definition slot_call (owner : string) : OpCall := CallSlot owner ["tenant.provision"] "0".
Definition first_claim : MState := (perform demo (slot_call "w1") queued_state).2.
Definition second_claim : MState := (perform demo (slot_call "w2") first_claim).2.
Definition lease_of (owner token : string) : LeaseGuard :=
  {| g_operation_id := "0"; g_organization_id := "acme"; g_owner := owner; g_token := token |}.

Lemma superseded_lease_is_fenced_witness :
  issues demo first_claim (lease_of "w2" "2") second_claim ∧
  ∃ s5, complete demo (lease_of "w1" "1") None second_claim = (Done false, s5) ∧
        db s5 = db second_claim.
Proof.
  assert (H1 : issues demo queued_state (lease_of "w1" "1") first_claim)
    by (exists (slot_call "w1"); vm_compute; reflexivity).
  assert (H2 : issues demo first_claim (lease_of "w2" "2") second_claim)
    by (exists (slot_call "w2"); vm_compute; reflexivity).
  split; [exact H2|].
  apply (superseded_lease_is_fenced demo demo_alone demo_unique queued_state (lease_of "w1" "1")
           first_claim first_claim (lease_of "w2" "2") second_claim second_claim H1 (rtc_refl _ _) H2
           eq_refl (rtc_refl _ _)).
  constructor.
Defined.

Lemma slot_ceiling_witness :
  (count (λ _ o, occupies "acme" ["tenant.provision"] (clock demo (moment second_claim)) o)
     (operations (db second_claim)) ≤ 1)%Z.
Proof.
  apply (slot_ceiling demo ["tenant.provision"] demo_ordered demo_alone (fresh_start acme_db)
           second_claim).
  - eapply rtc_l; [exists (CallCreate provision); split; reflexivity|].
    eapply rtc_l; [exists (slot_call "w1"); split; reflexivity|].
    eapply rtc_l; [exists (slot_call "w2"); split; reflexivity|]. apply rtc_refl.
  - intros org t _. change (0 ≤ 1)%Z. lia.
  - done.
Defined.

(** ** Idempotent requests *)

Definition echo : M string := λ s, (Done "ref", s).
Definition request (hash : string) : IdempotencyRequest :=
  {| ir_actor_id := "ann"; ir_organization_id := None; ir_route := "/api/v1/organizations";
     ir_key := "k1"; ir_request_hash := hash |}.
Definition after_request : MState := (execute_once demo (request "h") echo (fresh_start acme_db)).2.

Lemma mutation_runs_once_witness :
  ∃ s3, execute_once demo (request "other") echo after_request = (Refused REUSED, s3) ∧
        db s3 = db after_request.
Proof.
  assert (Hk : runs keeps_keys echo) by (intros s; apply settled_quiet; reflexivity).
  apply (mutation_runs_once demo demo_alone demo_ordered (request "h") echo (fresh_start acme_db) "ref"
           after_request after_request (request "other") echo); done.
Defined.

Definition login_call : RateCall :=
  {| rc_bucket := "1.2.3.4"; rc_scope := Refresh; rc_limit := 1; rc_prune := false |}.

Lemma rate_limit_holds_witness :
  (allowed_in (subject demo login_call, 0%Z) (serve demo [login_call; login_call] (fresh_start empty_db)) ≤ 1)%Z.
Proof.
  apply (rate_limit_holds demo demo_alone demo_ordered).
  - unfold I32_MAX. lia.
  - intros c Hc. rewrite !elem_of_cons, elem_of_nil in Hc. destruct Hc as [-> |[-> |[]]]; cbn; lia.
  - intros c Hc _. rewrite !elem_of_cons, elem_of_nil in Hc. by destruct Hc as [-> |[-> |[]]].
  - vm_compute. discriminate.
Defined.

(** ** Outbox *)

Definition noted : MState :=
  (transaction demo (insert_in_tx demo (Some "acme") "org.provision_requested" None;; mret (Commit true))
     (fresh_start acme_db)).2.
Definition in_hand : OutboxClaim :=
  {| oc_id := "0"; oc_organization_id := Some "acme"; oc_event_type := "org.provision_requested";
     oc_payload := None; oc_attempts := 1; oc_owner := "w1"; oc_token := "1" |}.

(** A clock that stands still, so that the lease is live. *)
Definition still : Env := {|
  clock := λ _, 0%Z; utc := λ _, 0%Z; new_uuid := new_uuid demo; new_secret := new_secret demo;
  sha256_hex := sha256_hex demo; print_json := print_json demo;
  parse_json := parse_json demo; secrets := secrets demo; parse_uuid := parse_uuid demo;
  others := others demo; locked := locked demo;
|}.
Lemma still_alone n d : others still n d = d.
Proof. done. Qed.
Definition in_delivery : MState := (Outbox.claim still "w1" 10 noted).2.
Definition delivered_state : MState := (complete_operation_delivery still in_hand in_delivery).2.

Lemma event_is_settled_once_witness :
  complete_operation_delivery still in_hand delivered_state ≠ (Done true, delivered_state).
Proof.
  destruct (event_is_settled_once still still_alone in_hand (complete_operation_delivery still in_hand)
              in_delivery delivered_state delivered_state) as (_ & _ & H).
  - constructor.
  - vm_compute. reflexivity.
  - apply rtc_refl.
  - apply (H in_hand); [reflexivity|constructor].
Defined.

Lemma delivery_is_atomic_witness :
  ∃ e, outbox_events (db delivered_state) !! "0" = Some e ∧ ob_delivered_at e = Some 0%Z.
Proof.
  apply (delivery_is_atomic still still_alone in_hand in_delivery (Done true) delivered_state).
  vm_compute. reflexivity.
Defined.

(** ** Organizations *)

Definition person (name : string) : User :=
  {| u_display_name := name; u_status := "active"; u_created_at := 0; u_updated_at := 0 |}.
Definition member (role : string) : MembershipRow :=
  {| m_role := role; m_status := "active"; m_updated_at := 0 |}.

(** Ann owns Acme; Bob has an invitation. *)
Definition bob_invited : Invitation :=
  {| inv_organization_id := "acme"; inv_invitee_github_user_id := 7; inv_invitee_login := Some "bob";
     inv_role := "developer"; inv_token_hash := sha256_hex demo "letter"; inv_invited_by := Some "ann";
     inv_expires_at := (7 * DAY)%Z; inv_accepted_at := None; inv_revoked_at := None; inv_created_at := 0 |}.
Definition acme_people : Db :=
  acme_db ▷ on_users (<["ann" := person "Ann"]>) ▷ on_users (<["bob" := person "Bob"]>)
          ▷ on_memberships (<[("acme", "ann") := member "admin"]>)
          ▷ on_identities (<["bob-gh" := {| i_user_id := "bob"; i_provider := "github"; i_subject := "7";
                                           i_login_snapshot := Some "bob" |}]>)
          ▷ on_invitations (<["inv" := bob_invited]>).

Definition nobody (login : string) : ManagerError + GithubLookup := inl NotFound.

Lemma acme_governed : governed acme_people.
Proof.
  intros org o Ho. change (organizations acme_people) with (<["acme" := acme]> (∅ : gmap uuid Organization)) in Ho.
  apply lookup_insert_Some in Ho as [[<- <-]|[_ Ho]]; [|by rewrite lookup_empty in Ho].
  split; [|exists "ann"]; exists (member "admin"); done.
Qed.

Definition bob_joins : OrgCall := CallAccept "bob" 7 "letter" "req-1".
Definition bob_joined : MState := (org_perform demo nobody bob_joins (fresh_start acme_people)).2.

Lemma organizations_stay_governed_witness : governed (db bob_joined).
Proof.
  apply (organizations_stay_governed demo nobody demo_alone (fresh_start acme_people)).
  - apply rtc_once. exists bob_joins. reflexivity.
  - exact acme_governed.
Defined.

Lemma changes_need_authority_witness :
  OrgRepo.github_identity acme_people "bob" 7 = true ∧
  ∃ id i, invitations acme_people !! id = Some i ∧ live_invitation i = true ∧ inv_invitee_github_user_id i = 7%Z.
Proof.
  apply (changes_need_authority demo nobody demo_alone bob_joins (fresh_start acme_people) bob_joined (Done tt)).
  - vm_compute. reflexivity.
  - intros E. apply (f_equal (λ d, memberships d !! ("acme", "bob"))) in E. vm_compute in E. discriminate E.
Defined.

Definition accepted_state : MState :=
  (OrgRepo.accept_invitation_in_tx demo "inv" 7 "bob" (fresh_start acme_people)).2.

Lemma invitation_admits_once_witness :
  admitted "inv" 7 "bob" 0 acme_people (db accepted_state) ∧
  OrgRepo.accept_invitation_in_tx demo "inv" 7 "bob" accepted_state ≠ (Done tt, accepted_state).
Proof.
  destruct (invitation_admits_once demo nobody demo_alone "inv" 7 "bob" (fresh_start acme_people) accepted_state)
    as [H1 H2]; [vm_compute; reflexivity|]. split; [exact H1|]. apply H2. apply rtc_refl.
Defined.

(** ** Pages *)

(** A codec that counts: a cursor is the number of its code, in unary. *)
Fixpoint strokes (n : nat) : string :=
  match n with 0 => EmptyString | S n => String "|" (strokes n) end.
Lemma length_strokes n : String.length (strokes n) = n.
Proof. induction n; cbn; congruence. Qed.

Definition plain_z (v : Value) : Z := match v with VPosInt n => Z.of_N n | VNegInt z => z | _ => 0 end.
Definition tally : Codec := {|
  b64_encode := λ s, s;
  b64_decode := λ s, Some s;
  json_to_string := λ v,
    match v with
    | VObject [(_, VString i); (_, t)] => strokes (Pos.to_nat (countable.encode (plain_z t, i)))
    | _ => EmptyString
    end;
  json_from_str := λ s,
    (λ x : Z * string, cursor_value x.1 x.2) <$> countable.decode (Pos.of_nat (String.length s));
  micros_in_range := λ _, true;
|}.

#[local] Instance tally_laws : CodecLaws tally.
Proof.
  split; [done|]. intros t i. cbn -[countable.encode countable.decode].
  rewrite length_strokes, Pos2Nat.id.
  replace (plain_z (json_i64 t)) with t; [by rewrite countable.decode_encode|].
  unfold json_i64. destruct (0 <=? t)%Z eqn:E; cbn; [|done]. by rewrite Z2N.id by lia.
Qed.

Definition three_rows : list (Z * string) := [(5%Z, "a"); (7%Z, "b"); (5%Z, "c")].


(** ** Sessions *)

Definition url : string := "https://flows.example".
Definition all_a (_ : nat) : list nat := repeat 0 8.

Definition signed_in : MState := (create_cli_session still "ann" (fresh_start acme_people)).2.
Definition refresh_hash_of_ann : string := sha256_hex still "secret-1".
Definition refreshed : MState := (refresh_cli_session still refresh_hash_of_ann signed_in).2.
Definition new_pair : SessionCredentials :=
  {| sc_session_id := "2"; sc_family_id := "3"; sc_access_token := "secret-5"; sc_refresh_token := "secret-6";
     sc_access_expires_at := ACCESS_LIFETIME; sc_refresh_expires_at := REFRESH_LIFETIME |}.

Lemma reused_refresh_closes_family_witness :
  ∃ s3, refresh_cli_session still refresh_hash_of_ann refreshed = (Done None, s3).
Proof.
  destruct (reused_refresh_closes_family still url all_a still_alone refresh_hash_of_ann signed_in new_pair
              refreshed refreshed) as (s3 & H & _).
  - vm_compute. reflexivity.
  - apply rtc_refl.
  - by exists s3.
Defined.

Definition session_of_ann : Session :=
  new_session "ann" "cli" "sha256:secret-0" ACCESS_LIFETIME "sha256:secret-1" REFRESH_LIFETIME "3" (Some 0%Z) 0 0.

Lemma sessions_do_not_outlive_family_witness :
  (sc_refresh_expires_at new_pair ≤ s_created_at session_of_ann + REFRESH_LIFETIME)%Z.
Proof.
  destruct (sessions_do_not_outlive_family still url all_a still_alone signed_in signed_in "2" session_of_ann)
    as (_ & _ & H).
  - vm_compute. reflexivity.
  - apply rtc_refl.
  - destruct (H refresh_hash_of_ann new_pair refreshed) as (_ & Hle & _); [|reflexivity|exact Hle].
    vm_compute. reflexivity.
Defined.

Definition device_started : MState := (start still url all_a (fresh_start acme_people)).2.
Definition device_approved : MState := (approve still "aaaa-aaaa" "ann" device_started).2.
Definition device_polled : MState := (poll still "secret-0" device_approved).2.
Definition device_pair : SessionCredentials :=
  {| sc_session_id := "5"; sc_family_id := "6"; sc_access_token := "secret-3"; sc_refresh_token := "secret-4";
     sc_access_expires_at := ACCESS_LIFETIME; sc_refresh_expires_at := REFRESH_LIFETIME |}.

Lemma device_delivers_once_witness :
  poll still "secret-0" device_polled ≠ (Done (PollCredentials device_pair), device_polled).
Proof.
  destruct (device_delivers_once still url all_a still_alone "secret-0" device_approved device_pair device_polled)
    as [_ H].
  - vm_compute. reflexivity.
  - intros i j r r' Hi Hj _.
    assert (E : cli_login_requests (db device_approved) = {["2" := match cli_login_requests (db device_approved) !! "2" with Some r => r | None => r end]})
      by (vm_compute; reflexivity).
    rewrite E in Hi, Hj. apply lookup_singleton_Some in Hi as [<- _]. by apply lookup_singleton_Some in Hj as [<- _].
  - apply (H device_polled). apply rtc_refl.
Defined.

(** ** Workspaces and tenants *)

Lemma demo_advances n d : advances d (others demo n d).
Proof. cbn. reflexivity. Qed.

Definition blue : Tenant :=
  new_tenant "acme" "blue" "conn" 7 1 0 ▷ t_set_desired_state "running" ▷ t_set_observed_state "running".
Definition blue_nexus : Workspace :=
  new_workspace "acme" "blue" "nexus" None 0 ▷ w_set_desired_state "running" ▷ w_set_observed_state "running"
    ▷ w_set_coder_workspace_id (Some "coder-nexus").
Definition boot : BootstrapCredential :=
  {| bc_workspace_id := "nexus"; bc_credential_hash := sha256_hex demo "boot"; bc_secret_ref := "boot-ref";
     bc_expires_at := DAY; bc_consumed_at := None; bc_revoked_at := None; bc_created_at := 0 |}.

(** A tenant with its controller, and a worker's lease on an operation for it. *)
Definition held_operation (kind : string) : OperationRecord :=
  new_row {| no_organization_id := "acme"; no_resource_type := "tenant";
             no_resource_id := Some "blue"; no_kind := kind; no_idempotency_ref := None |} 0
    ▷ op_set_state "running" ▷ op_set_lease_owner (Some "w1") ▷ op_set_lease_token (Some "token")
    ▷ op_set_lease_expires_at (Some DAY).
Definition site (kind : string) : Db :=
  acme_db
    ▷ on_github_connections (λ _, {[ "conn" := {| c_organization_id := "acme"; c_app_id := 1;
        c_installation_id := 5; c_status := "active"; c_access_generation := 0 |} ]})
    ▷ on_github_repositories (λ _, {[ ("conn", 7%Z) := {| r_organization_id := "acme";
        r_full_name := "acme/blue"; r_accessible := true |} ]})
    ▷ on_tenants (λ _, {[ "blue" := blue ]})
    ▷ on_workspaces (λ _, {[ "nexus" := blue_nexus ]})
    ▷ on_workspace_bootstrap_credentials (λ _, {[ "b" := boot ]})
    ▷ on_operations (λ _, {[ "op" := held_operation kind ]}).
Definition worker_lease : LeaseGuard :=
  {| g_operation_id := "op"; g_organization_id := "acme"; g_owner := "w1"; g_token := "token" |}.

Definition github : BrokerDeps := {|
  sign _ := inr "jwt";
  exchange_installation_token n _ _ ids wire :=
    inr {| it_token := "ghs"; it_expires_at := ((Z.of_nat n + 60) * MINUTE)%Z; it_repository_ids := ids;
           it_permissions := wire |};
  seal_token _ t := inr ("sealed " +:+ t);
  hash_key _ := 3;
|}.

Definition coder : CoderAdapter := {|
  ensure_user_owner _ _ _ := inr tt;
  create_tenant_workspace_with_parameters _ org owner _ _ name _ :=
    inr {| cw_id := name; cw_organization_id := org; cw_owner_id := owner |};
  wait_workspace_ready _ _ _ := inr tt;
  workspace_startup_failed _ _ _ := inr false;
  delete_workspace _ _ _ := inr tt;
  start_workspace _ _ _ := inr tt;
  stop_workspace _ _ _ := inr tt;
  delete_machine_owner _ _ _ := inr tt;
|}.
Definition redis_server : RedisIsolationBackend := {|
  ensure_tenant _ _ _ _ := inr tt;
  revoke_tenant _ _ := inr tt;
  clean_namespace _ _ _ := inr nothing_cleaned;
  clear_namespace _ _ := inr 0%Z;
|}.
Definition outside_world : WorkerDeps := {|
  adapter := coder;
  redis_isolation := redis_server;
  local_workspace_cleanup := None;
  manager_url := "http://manager"; runtime_redis_url := "redis://redis"; coder_url := "http://coder";
  relay_base_url := "http://relay"; configured_digest := None;
  parse_url _ := None;
  url_with_login base _ _ := inr base;
  coder_rejection _ := false;
|}.
Definition ceilings : TenantLimits :=
  {| max_tenants_per_org := 1; max_workers_per_tenant := 1; max_concurrent_provisioning_ops := 1 |}.

Lemma singleton_unique {V} (mark : V → string) (k : uuid) v : unique_marks mark ({[ k := v ]} : gmap uuid V).
Proof. intros i j x y [<- _]%lookup_singleton_Some [<- _]%lookup_singleton_Some _. done. Qed.
Lemma singleton_exclusive {V} (clash : V → V → bool) (k : uuid) v : exclusive clash ({[ k := v ]} : gmap uuid V).
Proof. intros i j x y [<- _]%lookup_singleton_Some [<- _]%lookup_singleton_Some _. done. Qed.

Lemma unique_marks_check {V} (mark : V → string) (tab : gmap uuid V) :
  forallb (λ x, forallb (λ y, negb (String.eqb (mark x.2) (mark y.2)) || String.eqb x.1 y.1) (map_to_list tab))
    (map_to_list tab) = true → unique_marks mark tab.
Proof.
  rewrite forallb_forall. intros H i j v w Hi Hj E. apply elem_of_map_to_list, list_elem_of_In in Hi, Hj.
  specialize (H _ Hi). rewrite forallb_forall in H. specialize (H _ Hj). cbn in H.
  rewrite E, String.eqb_refl in H. by apply String.eqb_eq in H.
Qed.

Definition before : MState := fresh_start (site "tenant.delete").
Definition registered : MState := (register demo "boot" before).2.
Definition issued : RuntimeSessionIssue :=
  {| si_workspace_id := "nexus"; si_access_secret := "secret-0"; si_access_expires_at := (15 * MINUTE)%Z;
     si_refresh_secret := "secret-1"; si_refresh_expires_at := (MINUTE + DAY)%Z; si_generation := 0 |}.

Lemma bootstrap_admits_once_witness :
  register demo "boot" before = (Done issued, registered) ∧
  ∀ issue' s3, register demo "boot" registered = (Done issue', s3) → si_workspace_id issue' ≠ "nexus".
Proof.
  assert (H : register demo "boot" before = (Done issued, registered)) by (vm_compute; reflexivity).
  split; [exact H|]. intros issue' s3 H'.
  apply (bootstrap_admits_once demo ceilings github 1 outside_world demo_advances "boot" before issued registered
           (singleton_unique _ _ _) H) with (s3 := s3) (s2 := registered); [apply rtc_refl|exact H'].
Defined.

Definition rotated : MState := (refresh_session demo "secret-1" registered).2.
Definition reissued : RuntimeSessionIssue :=
  {| si_workspace_id := "nexus"; si_access_secret := "secret-5"; si_access_expires_at := (29 * MINUTE)%Z;
     si_refresh_secret := "secret-6"; si_refresh_expires_at := (13 * MINUTE + DAY)%Z; si_generation := 1 |}.

Lemma rotation_retires_credentials_witness :
  refresh_session demo "secret-1" registered = (Done reissued, rotated) ∧
  ∀ audience scope s3, authenticate_for_audience demo "secret-1" audience rotated = (Done scope, s3) →
    sc_workspace_id scope ≠ "nexus".
Proof.
  assert (H : refresh_session demo "secret-1" registered = (Done reissued, rotated)) by (vm_compute; reflexivity).
  split; [exact H|]. intros audience scope s3 Ha Hw.
  destruct (rotation_retires_credentials demo ceilings github 1 outside_world demo_advances "secret-1" registered
              reissued rotated) with (s2 := rotated) as [Hn _]; [|exact H|apply rtc_refl|].
  - apply unique_marks_check. vm_compute. reflexivity.
  - destruct (Hn "secret-1" audience scope s3 Ha Hw) as [Hne _]. exact (Hne eq_refl).
Defined.

(** What [authenticate demo "secret-0" registered] returns. *)
Definition nexus_scope : RuntimeScope :=
  {| sc_credential_id := "2"; sc_workspace_id := "nexus"; sc_workspace_role := "nexus";
     sc_workspace_generation := 0; sc_workspace_observed_state := "running";
     sc_workspace_desired_state := "running"; sc_workspace_registered_at := Some (7 * MINUTE)%Z;
     sc_tenant_id := "blue"; sc_tenant_desired_state := "running"; sc_tenant_observed_state := "running";
     sc_organization_id := "acme"; sc_organization_status := "ready"; sc_connection_id := "conn";
     sc_connection_status := "active"; sc_connection_generation := 0; sc_installation_id := 5;
     sc_repository_id := 7; sc_repository_accessible := true; sc_credential_generation := 0;
     sc_credential_expires_at := (15 * MINUTE)%Z; sc_credential_revoked_at := None;
     sc_credential_audience := WORKSPACE_AUDIENCE; sc_credential_family_id := "4";
     sc_credential_family_expires_at := (MINUTE + DAY)%Z |}.
Example nexus_authenticates : (authenticate demo "secret-0" registered).1 = Done nexus_scope.
Proof. vm_compute. reflexivity. Qed.
Definition granted := exchange demo github 1 ∅ nexus_scope Git "rid" registered.

Lemma token_within_authority_witness :
  match granted with
  | (Done (_, inr cred), s') => asked s' = [] ∧ br_token cred = "ghs" ∧
      ∃ n token, it_token token = "ghs" ∧ authority demo nexus_scope Git (clock demo (S n)) (db registered) token
  | _ => False
  end.
Proof.
  assert (Hg : match granted with (Done (_, inr c), _) => br_token c = "ghs" | _ => False end) by (vm_compute; reflexivity).
  destruct granted as [[[inflight [e|cred]]| |] s'] eqn:E; try exact (False_ind _ Hg).
  destruct (token_within_authority demo github 1 ∅ nexus_scope Git "rid" registered inflight (inr cred) s' E)
    as (profile & token & existing & _ & Ha & Hc & m & n & _ & _ & _ & Hauth & _).
  split; [exact Ha|]. split; [exact Hg|]. exists n, token. split; [|exact Hauth]. rewrite <-Hg, Hc. reflexivity.
Defined.

Definition erased : MState := (Worker.delete demo outside_world worker_lease before).2.

Lemma deletion_is_final_witness :
  deleted_upstream outside_world "coder-acme" "coder-nexus" erased ∧
  (∃ t, tenants (db erased) !! "blue" = Some t ∧ t_desired_state t = "deleted") ∧
  ∀ raw audience scope s3, authenticate_for_audience demo raw audience erased = (Done scope, s3) →
    sc_tenant_id scope ≠ "blue".
Proof.
  destruct (deletion_is_final demo ceilings github 1 outside_world demo_advances worker_lease before blue "blue" erased)
    as (Hup & (t & Ht & Hd & _) & _ & H).
  - vm_compute. reflexivity.
  - reflexivity.
  - vm_compute. reflexivity.
  - split; [|split; [exists t; exact (conj Ht Hd)|exact (proj1 (H erased (rtc_refl _ _)))]].
    apply (Hup "nexus" "coder-acme" "coder-nexus"); [|intros n d Hx; exact Hx].
    eexists blue_nexus, _. repeat split.
Defined.

Lemma live_rows_stay_unique_witness :
  indexed (db ((register demo "boot";; mret tt) before).2).
Proof.
  apply (live_rows_stay_unique demo ceilings github 1 outside_world demo_advances before).
  - apply rtc_once. exists (register demo "boot";; mret tt). split; [constructor|reflexivity].
  - split; split; apply singleton_exclusive.
  - apply unique_marks_check. vm_compute. reflexivity.
  - apply singleton_unique.
Defined.

(** The tenant is being deleted when an earlier request to stop it is carried out. *)
Definition leaving : MState :=
  fresh_start (set_tenant "blue" (t_set_desired_state "deleting") (site "tenant.stop")).
Definition revived : MState := (Worker.stop demo outside_world worker_lease leaving).2.

Lemma stop_undoes_deletion_witness :
  (t_desired_state <$> tenants (db leaving) !! "blue") = Some "deleting" ∧
  (Worker.stop demo outside_world worker_lease leaving).1 = Done (Provisioned "blue") ∧
  ∃ t, tenants (db revived) !! "blue" = Some t ∧ t_desired_state t = "paused" ∧ active_tenant "acme" t = true.
Proof.
  assert (Hend : moment revived = 10) by (vm_compute; reflexivity).
  assert (Hrun : Worker.stop demo outside_world worker_lease leaving = (Done (Provisioned "blue"), revived))
    by (vm_compute; reflexivity).
  split; [vm_compute; reflexivity|]. split; [exact (f_equal fst Hrun)|].
  destruct (stop_undoes_deletion demo outside_world worker_lease leaving (held_operation "tenant.stop") "blue"
              (t_set_desired_state "deleting" blue) (Provisioned "blue") revived)
    as (_ & _ & (t & Ht & _ & Hp & _ & Ha) & _).
  - intros n d. exact (conj eq_refl eq_refl).
  - vm_compute. reflexivity.
  - reflexivity.
  - reflexivity.
  - intros n _ Hn. rewrite Hend in Hn. do 10 (destruct n as [|n]; [vm_compute; reflexivity|]). lia.
  - vm_compute. reflexivity.
  - reflexivity.
  - exact Hrun.
  - exists t. split; [exact Ht|]. split; [exact Hp|]. exact Ha.
Defined.
